(* ===== verification/_CoqProject ===== *)
-Q . S2P
Prelude.v
Crc.v
Header.v
Image.v
Text.v
PyFloat.v
Str.v
Sha256.v
Upload.v
RamBoot.v
FatImage.v
FatPlan.v
FatReader.v
FatRead.v
FatMount.v
FatWriter.v
FatSafe.v
SdCard.v
Rv32Asm.v
HackAsm.v
Lockstep.v
LockstepRv.v
RandomRv.v
Programs.v
Models.v
MuldivRtl.v
Serial.v
Release.v
Dist.v
Pnr.v
UploadPort.v
Session.v
Rv32Csr.v
Rv32Cpu.v
RvTests.v
Caches.v
VirtualSerial.v
EmuPort.v
Uart.v
Periph.v
Soc.v
FwCover.v
SocPort.v
LockstepRun.v
Mutation.v
