(* ===== verification/Prelude.v ===== *)
(** * VUX9K: the host tooling, the transfer and boot formats, and the test programs

    VUX9K is a small SoC for the Tang Nano 9K with two instruction sets (RV32IMA and Hack), a
    two-stage boot firmware in Rust, an emulator in Rust, and a large body of Python: the tool
    that talks to the board (tools/vux_tool.py), image converters (scripts/), the assemblers
    and lockstep programs that run on the RTL and the emulator alike (sim/integration/), the
    models the tests compare with, and the serial ports and SD cards they run on. This library
    models that Python, and of the Rust the other ends of what it produces: what parses the
    headers, receives the uploads, reads the cards, decodes the instructions.

    ** Conventions

    A [byte] is 0..255 by its type; other integers are Z, with every mask and wrap of the code
    written out (Python's integers have no width; a Rust u32 that wraps does so as mod 2^32).
    A Python str is a list of code points ([text], Text.v). Code that can raise returns [res]
    (Ok or Raise of an [exn]); the exceptions' messages are kept where the code looks at them.
    Code that threads a state is a state monad of its own file: the assemblers ([asm], [rasm]),
    the upload's device ([dev], a program of events) and host ([io]), and everything that works
    on a serial port with a clock ([sess], Serial.v). What is not under src/ is a parameter or
    a class with laws: a serial port ([Port], [LinePort]), random numbers ([Random]), the
    emulator's Python module ([EmuPort.Soc]), the files a build makes; and what the CPU needs of
    the rest of the SoC is a class too ([Bus]). The emulator modelled in Soc.v is an instance of
    both: of [Bus], as the riscv-tests profile is, and, in SocPort, of the Python module.

    ** The files

    - Prelude: [res] and its automation ([invert_res]), Python's slices, struct packing and
      rounding ([slice], [pack_uint], [cdiv]), lengths ([len_solve] and the rewrite base lens).
    - Crc: binascii.crc32 and the firmware's two crc32_update.
    - Header: the 64-byte v4 header; vux_tool's ImageHeader, fw_common/src/header.rs (Module Fw).
    - Image: pack_hack, build_vux9_v4_image, bin2hex, merge_firmware_hex, elf2bin.
    - Text: the str methods used, put_dec and put_hex of fw_common/src/fmt.rs; Str: more of them
      (join, split, replace, findall); PyFloat: Python's floats and their texts; Sha256: hashlib.
    - Upload: transfer v2; fw_common/src/upload.rs against vux_tool's send_upload_v2.
    - RamBoot: the sinks of an upload, fw_common/src/boot.rs's RamBoot and stage2's Scratch.
    - FatImage, FatPlan: vux_tool's build_fat32_image and the tables it makes.
    - FatReader, FatRead, FatMount: fw_common/src/fat's mount, open and read_to, on the plan
      and then on the rendered image.
    - FatWriter, FatSafe: fat/write.rs over a card whose accesses may fail; what [create] leaves
      for the reader, whatever fails.
    - SdCard: sdcard_protocol.py and sdcard_model.py, and the emulator's sdcard.rs (Module Emu).
    - Rv32Asm, HackAsm: rv32_asm.py, hack_asm.py; the emulator decoder's fields.
    - Lockstep, LockstepRv, RandomRv, Programs: lockstep_programs.py, from the helpers to the
      list of all programs with their set-ups.
    - Models: unit_models.py and the emulator's computation of the same results (Module Emu);
      MuldivRtl: the RTL's iterative multiplier and divider, clock by clock.
    - Mutation: scripts/mcy/mutation.py: how a mutant is described, the accepted survivors.
    - Release, Dist: release_check.py, make_dist.py, check_dist.py: a distribution and its tag.
    - Pnr: run_pnr.py's loop over the seeds; timing_summary.py and report_sta.py.
    - Rv32Csr, Rv32Cpu: the emulator's csr.rs and its RV32 step (soc.rs), over a [Bus].
    - Caches: the emulator's cache.rs, against caches that hold their words.
    - Uart, Periph: periph/uart.rs; timer.rs, clint.rs, gpio.rs, sdspi.rs (a Module each).
    - Soc: soc.rs's real profile: the memory map, the Hack ISA, step, reset, loaders and run;
      the 16-bit machine [hack_ref] that Hack mode is proved against.
    - SocPort, LockstepRun: the machine as the tests' Python module; vux9k.py's start_soc and
      test_lockstep.py's emulator side, with the lockstep programs run on it.
    - Serial: the port, [sess], when code ends ([ends]), UTF-8, splitlines.
    - UploadPort, Session: vux_tool's boot session over a port: send_upload_v2 with its
      deadlines, read_until, enter_s1 and enter_s2, s2_cmd, put, run_app, ram_boot, install.
    - VirtualSerial: virtual_serial.py, the UART of the RTL tests as a waveform.
    - RvTests: run_riscv_tests.py and hex_runner.py, on the emulator's isa-test profile.
    - FwCover: coverage_fw.py, of the keys the machine in Soc records and vux9k.py writes.
    - EmuPort: sim/emu/vux9k.py, the port and the clock of the emulator's tests.

    Definitions keep the source's names; a nested function or a loop's body has a name of its
    own and its comment says where it is from. PROJECT.json maps each to its lines.

    ** What is shown

    Formats. A header packs to 64 bytes and parses back; the firmware's parser accepts the
    same files. An image built by the tool passes the firmware's checks; Hack packing is what
    the emulator's loader makes and gives the CPU the instructions in order; elf2bin's image
    holds the segments; the ROM's hex lines read back. Instructions encode to the fields the
    decoder takes, jumps reach their labels, Hack programs are fetched as written.

    Cards. A card that build_fat32_image makes mounts on the firmware's reader and gives every
    file back at its path, so the lockstep runs' card boots; the FAT's size is the least that
    fits. A file created in a directory with a free slot ends up whole or not at all, whatever
    fails on the card, and nothing else changes; a directory that must grow has a counterexample.
    The RTL tests' SD card and the emulator's answer every byte alike, keep their invariant, and
    read back what was written.

    Transfers. Host and device together carry out [transfer], whatever else the device prints
    and however the port cuts it; a RAM boot stores the built image and starts it, refuses one
    it can't start, and never writes outside its window or starts a file with a wrong CRC,
    whatever bytes come. On a port with a clock the tool's transfer is that one; the session
    ends whatever the device does, and s2_cmd gives exactly what the command printed.

    The CPU. Over any memory that gives 32-bit words the emulator's RV32 CPU keeps its
    registers, addresses and CSRs in range; traps are precise and a return undoes them; what
    the assembler's li makes, it executes to the value. The emulator's record of the window's
    caches gives the words, waits and PSRAM of real write-back caches.

    The machine. The emulator's UART, moved on from event to event, is the one clocked every
    cycle, loses nothing it doesn't count, and empties; so is its timer. A Hack image runs as
    nand2tetris' machine runs it. From power-on, in either ISA and across soft resets, the
    state stays well-formed and the ROM is never written. An instruction takes 2 to 204 cycles,
    as the lockstep comparison assumes. Run on this machine, the lockstep programs print what
    they are there to print; and it keeps the laws that the tests' port asks of the module.

    Scripts. The distribution that make_dist.py makes passes check_dist.py and release_check.py;
    what release_check.py passes is the tree and the bitstream that were tested, and a filled-in
    template passes and reads back. The licenses' search through the crates ends with exactly those linked.
    Once nextpnr's processes have ended, run_pnr.py's loop has, with each seed run once and the
    best adopted, or at a report its print divides by zero for; the two scripts that read the
    reports agree with it. The coverage files mark exactly the lines that ran. The RTL's multiplier gives the reference
    model's results in 33 cycles; every accepted mutation survivor's entry is matched as meant.

    Test programs and models. Every program of the list is made, fits its memory and sends
    bytes that don't overlap; a random one fits up to 587 blocks and is refused beyond its 14 KB,
    whatever the random numbers; both verdict lines of a riscv-tests run read back the same. The
    reference ALU and RV32M agree with the emulator's. The simulated UART receives any sender
    within 5% of its rate, its wait_for ends at the token or the deadline, and the emulator's
    port reads the SoC's output in order.

    ** Bounds and fuel

    Loops that Python bounds are bounded by what bounds them: the number of chunks, of blocks,
    of clusters. fat_size runs with a fuel proved enough. A [sess] loop takes any fuel, and
    [ends] says that enough of it gives one result; the measure is the time to the deadline
    and what is left to read ([sooner]). consume_loop needs two turns a picosecond at most,
    the emulator's read one turn a UART frame. The receiver [rx_worker] needs a turn a byte.
    linked_into's search needs a turn for each root and dependency ([link_fuel]), run_pnr's loop
    one for each look until all have ended and one for each seed ([loop_ends]).
    The FAT writer's free_chain frees each cluster once and ends at a free one, so the volume's
    clusters are enough ([free_keeps]); a new cluster's search takes a turn for each.
    The UART's advance needs a turn an edge ([edges_left]); a run of n cycles, n steps, as
    isa_run's, whose every step takes a cycle at least.

    ** Not modelled

    Opening ports and files, argument parsing and printing (the cmd_ wrappers, the monitor),
    the scripts that run other tools, and cocotb and Verilator: input and output of the host.
    Of the Rust: the firmware's shells (their commands are line editing and printing over what
    is modelled), its drivers (memory-mapped registers, unsafe), the long names of a listing, the
    choice of the second stage's file, and the emulator's command line. A write that a power cut
    leaves half done within a sector is not modelled. The RTL (Veryl) is verified by its own
    means. Times are exact in clock cycles where the tool computes with floats. Texts quoted in
    a TimeoutError's message are left out. *)
From Stdlib Require Export ZArith Lia List Ascii String.
From Stdlib.Init Require Export Byte.
From coqutil Require Export Byte Word.LittleEndianList Z.prove_Zeq_bitwise Z.BitOps Z.ZLib.
From stdpp Require Export base gmap strings list fin_maps.


#[global] Open Scope Z_scope.

(** Python's [bytes]: every element is 0..255 by its type. *)
Abbreviation byte := Init.Byte.byte.
Abbreviation bytes := (list Init.Byte.byte).

(** ** Python exceptions and results *)

(** The exceptions the modelled code raises (or lets through from the standard library). An
    UploadError is its message: a line, or the parts it is made of (what was received; a
    first error and the text after it; the transfer's answer and the text after it). Exit is
    sys.exit with a message. *)
Inductive exn : Type :=
| ValueError (what : string)
| KeyError
| IndexError
| AssertionError
| StructError
| UnicodeEncodeError
| SystemExit
| FileNotFoundError
| RuntimeError
| OverflowError
| TimeoutError
| UploadError (line : list Z)
| UploadNoAnswer (received : bytes)
| UploadRefused (e : exn) (rest : list Z)
| UploadNoStage (ok got : list Z)
| S2Error (line : list Z)
| Mismatch (what : list Z)
| Exit (message : list Z).

(** What a call ends in: a value, or an exception. *)
Inductive res (A : Type) : Type :=
| Ok (a : A)
| Raise (e : exn).
Arguments Ok {A} _.
Arguments Raise {A} _.

#[export] Instance res_ret : MRet res := fun _ a => Ok a.
#[export] Instance res_bind : MBind res := fun _ _ f m =>
  match m with Ok a => f a | Raise e => Raise e end.
#[export] Instance res_fmap : FMap res := fun _ _ f m =>
  match m with Ok a => Ok (f a) | Raise e => Raise e end.

(** [assert c]. *)
Definition py_assert (c : bool) : res unit := if c then Ok tt else Raise AssertionError.

(** [d[k]] on a dict, as a lookup's result. *)
Definition getitem {A} (o : option A) : res A :=
  match o with Some a => Ok a | None => Raise KeyError end.

Definition is_ok {A} (m : res A) : bool := match m with Ok _ => true | Raise _ => false end.

Lemma bind_Ok {A B} (m : res A) (f : A -> res B) b :
  m ≫= f = Ok b <-> exists a, m = Ok a /\ f a = Ok b.
Proof.
  destruct m as [a|e]; simpl; split.
  - intros H. by exists a.
  - intros (a' & [= ->] & H). exact H.
  - done.
  - by intros (? & ? & ?).
Qed.

Lemma bind_Raise {A B} (m : res A) (f : A -> res B) e :
  m ≫= f = Raise e <-> m = Raise e \/ exists a, m = Ok a /\ f a = Raise e.
Proof.
  destruct m as [a|e']; simpl; split.
  - intros H. right. by exists a.
  - by intros [[=]|(a' & [= ->] & H)].
  - intros [= ->]. by left.
  - by intros [[= ->]|(? & [=] & ?)].
Qed.

Lemma Ok_inj {A} (x y : A) : Ok x = Ok y -> x = y.
Proof. congruence. Qed.

Lemma bind_assoc {A B C} (m : res A) (f : A -> res B) (g : B -> res C) :
  (m ≫= f) ≫= g = m ≫= (fun a => f a ≫= g).
Proof. by destruct m. Qed.

Lemma getitem_Ok {A} (o : option A) a : getitem o = Ok a <-> o = Some a.
Proof. destruct o; simpl; naive_solver. Qed.

Lemma py_assert_Ok c u : py_assert c = Ok u <-> c = true.
Proof. destruct c, u; simpl; naive_solver. Qed.

(** Takes a successful chain of binds in the context apart. *)
Ltac invert_res :=
  repeat match goal with
  | H : _ ≫= _ = Ok _ |- _ =>
      let a := fresh "a" in let Ha := fresh "Ha" in
      apply bind_Ok in H as (a & Ha & H)
  | H : getitem _ = Ok _ |- _ => apply getitem_Ok in H
  | H : py_assert _ = Ok _ |- _ => apply py_assert_Ok in H
  | H : Ok _ = Ok _ |- _ => apply Ok_inj in H; try subst
  | H : Raise _ = Ok _ |- _ => discriminate H
  | H : mret _ = Ok _ |- _ => unfold mret, res_ret in H
  end.

(** [lia] with quotients and remainders by constants. *)
Ltac dlia := Z.to_euclidean_division_equations; lia.

(** ** Bytes, slices and [struct] *)

(** A bytes literal. *)
Definition bstr (s : string) : bytes := list_byte_of_string s.

(** [len(l)]. *)
Definition len {A} (l : list A) : Z := Z.of_nat (length l).

(** [l[i:j]] for 0 <= i <= j. *)
Definition slice {A} (l : list A) (i j : Z) : list A :=
  take (Z.to_nat (j - i)) (drop (Z.to_nat i) l).

(** [l[i:j] = v] for 0 <= i <= j on a list or bytearray: the slice is replaced, whatever
    [v]'s length. *)
Definition slice_assign {A} (l : list A) (i j : Z) (v : list A) : list A :=
  take (Z.to_nat i) l ++ v ++ drop (Z.to_nat j) l.

(** [l.ljust(n, c)]. *)
Definition ljust {A} (l : list A) (n : Z) (c : A) : list A :=
  l ++ replicate (Z.to_nat (n - len l)) c.

(** [bytes(n)]. *)
Definition zeros (n : Z) : bytes := replicate (Z.to_nat n) x00.

(** The pieces [l[i:i+n] for i in range(0, len(l), n)]. *)
Fixpoint chunks_fuel {A} (fuel : nat) (n : nat) (l : list A) : list (list A) :=
  match fuel, l with
  | S fuel, _ :: _ => take n l :: chunks_fuel fuel n (drop n l)
  | _, _ => []
  end.
Definition chunks {A} (n : Z) (l : list A) : list (list A) :=
  chunks_fuel (length l) (Z.to_nat n) l.

(** [-(-a // b)], Python's rounding-up division. *)
Definition cdiv (a b : Z) : Z := - ((- a) / b).

(** One unsigned little-endian field of [n] bytes of a [struct.pack] ("B", "H", "I"): out of
    range is a [struct.error]. *)
Definition pack_uint (n : nat) (v : Z) : res bytes :=
  if (0 <=? v) && (v <? 2 ^ (Z.of_nat n * 8)) then Ok (le_split n v) else Raise StructError.

(** The "<n>s" field: cut or NUL-padded to [n] bytes. *)
Definition pack_s (n : Z) (v : bytes) : bytes := ljust (take (Z.to_nat n) v) n x00.

(** [struct.unpack]'s unsigned little-endian field of [n] bytes at offset [at]. *)
Definition unpack_uint (n : nat) (off : Z) (data : bytes) : Z :=
  le_combine (slice data off (off + Z.of_nat n)).

(** [int.from_bytes(l, "big")]. *)
Definition be_combine (l : bytes) : Z := le_combine (rev l).

(** ** Lemmas on slices, padding and chunks *)

Lemma len_nonneg {A} (l : list A) : 0 <= len l.
Proof. unfold len. lia. Qed.

Lemma len_nil {A} : len (@nil A) = 0.
Proof. reflexivity. Qed.

Lemma len_cons {A} (x : A) l : len (x :: l) = 1 + len l.
Proof. unfold len. simpl. lia. Qed.

Lemma len_app {A} (l k : list A) : len (l ++ k) = len l + len k.
Proof. unfold len. rewrite length_app. lia. Qed.

Lemma len_replicate {A} n (x : A) : len (replicate n x) = Z.of_nat n.
Proof. unfold len. by rewrite length_replicate. Qed.

Lemma len_zeros n : 0 <= n -> len (zeros n) = n.
Proof. intros. unfold zeros. rewrite len_replicate. lia. Qed.

Lemma len_take {A} n (l : list A) : len (take n l) = Z.min (Z.of_nat n) (len l).
Proof. unfold len. rewrite length_take. lia. Qed.

Lemma len_drop {A} n (l : list A) : len (drop n l) = Z.max 0 (len l - Z.of_nat n).
Proof. unfold len. rewrite length_drop. lia. Qed.

Lemma len_slice {A} (l : list A) i j :
  0 <= i <= j -> j <= len l -> len (slice l i j) = j - i.
Proof. intros. unfold slice. rewrite len_take, len_drop. lia. Qed.

Lemma len_ljust {A} (l : list A) n c : len (ljust l n c) = Z.max n (len l).
Proof. unfold ljust. rewrite len_app, len_replicate. pose proof (len_nonneg l). lia. Qed.

Lemma len_slice_assign {A} (l : list A) i v :
  0 <= i -> i + len v <= len l -> len (slice_assign l i (i + len v) v) = len l.
Proof.
  intros. unfold slice_assign. rewrite !len_app, len_take, len_drop.
  pose proof (len_nonneg v). lia.
Qed.

Lemma len_pack_s n v : 0 <= n -> len (pack_s n v) = n.
Proof. intros. unfold pack_s. rewrite len_ljust, len_take. pose proof (len_nonneg v). lia. Qed.

Lemma len_le_split n v : len (le_split n v) = Z.of_nat n.
Proof. unfold len. by rewrite length_le_split. Qed.

Create Rewrite HintDb lens.
#[export] Hint Rewrite @len_nil @len_cons @len_app @len_replicate @len_take @len_drop @len_ljust
  len_le_split : lens.

(** Length goals: normalise every [len] and finish by linear arithmetic. *)
Ltac len_solve :=
  autorewrite with lens;
  repeat match goal with
  | |- context [len ?l] => is_var l; lazymatch goal with
      | _ : 0 <= len l |- _ => fail
      | _ => pose proof (len_nonneg l) end
  end; try lia.

Lemma slice_app_l {A} (l k : list A) i j :
  0 <= i <= j -> j <= len l -> slice (l ++ k) i j = slice l i j.
Proof.
  intros. unfold slice, len in *. rewrite skipn_app, firstn_app.
  rewrite length_drop. replace (Z.to_nat (j - i) - (length l - Z.to_nat i))%nat with 0%nat by lia.
  by rewrite take_0, app_nil_r.
Qed.

Lemma slice_app_r {A} (l k : list A) i j :
  len l <= i -> slice (l ++ k) i j = slice k (i - len l) (j - len l).
Proof.
  intros. unfold slice, len in *. rewrite skipn_app.
  rewrite (drop_ge l) by lia. simpl.
  f_equal; [lia|]. f_equal. lia.
Qed.

Lemma slice_0_len {A} (l : list A) j : len l <= j -> slice l 0 j = l.
Proof.
  intros. unfold slice, len in *. change (Z.to_nat 0) with 0%nat.
  rewrite drop_0. apply take_ge. lia.
Qed.

(** The middle piece of a concatenation. *)
Lemma slice_mid {A} (l m k : list A) i j :
  i = len l -> j = len l + len m -> slice (l ++ m ++ k) i j = m.
Proof.
  intros -> ->. rewrite slice_app_r by lia.
  rewrite slice_app_l by (pose proof (len_nonneg m); lia).
  rewrite Z.sub_diag. apply slice_0_len. lia.
Qed.

Lemma slice_empty {A} (l : list A) i j : j <= i -> slice l i j = [].
Proof. intros. unfold slice. by replace (Z.to_nat (j - i)) with 0%nat by lia. Qed.

Lemma slice_add {A} (l : list A) i j k :
  0 <= i <= j -> j <= k -> slice l i k = slice l i j ++ slice l j k.
Proof.
  intros. unfold slice.
  rewrite <- (take_drop (Z.to_nat (j - i)) (take (Z.to_nat (k - i)) (drop (Z.to_nat i) l))).
  f_equal.
  - rewrite take_take. f_equal. lia.
  - rewrite skipn_firstn_comm, drop_drop. f_equal; [lia|]. f_equal. lia.
Qed.

Lemma slice_all {A} (l : list A) : slice l 0 (len l) = l.
Proof. apply slice_0_len. lia. Qed.

(** Reading the bytes just assigned, and bytes outside them. *)
Lemma slice_assign_same {A} (l : list A) i v :
  0 <= i -> i <= len l -> slice (slice_assign l i (i + len v) v) i (i + len v) = v.
Proof.
  intros. unfold slice_assign. apply slice_mid; rewrite len_take; lia.
Qed.

Lemma slice_assign_below {A} (l : list A) i v a e :
  0 <= a <= e -> e <= i -> i <= len l ->
  slice (slice_assign l i (i + len v) v) a e = slice l a e.
Proof.
  intros. unfold slice_assign.
  rewrite slice_app_l by (rewrite ?len_take; lia).
  replace (slice l a e) with (slice (take (Z.to_nat i) l ++ drop (Z.to_nat i) l) a e)
    by (by rewrite take_drop).
  by rewrite slice_app_l by (rewrite ?len_take; lia).
Qed.

Lemma slice_assign_above {A} (l : list A) i v a e :
  0 <= i -> i + len v <= a -> i + len v <= len l ->
  slice (slice_assign l i (i + len v) v) a e = slice l a e.
Proof.
  intros. unfold slice_assign. pose proof (len_nonneg v).
  rewrite app_assoc, slice_app_r by (rewrite len_app, len_take; lia).
  rewrite len_app, len_take.
  replace (slice l a e) with
    (slice (take (Z.to_nat (i + len v)) l ++ drop (Z.to_nat (i + len v)) l) a e)
    by (by rewrite take_drop).
  rewrite (slice_app_r (take (Z.to_nat (i + len v)) l)) by (rewrite len_take; lia).
  rewrite len_take. f_equal; lia.
Qed.

Lemma cdiv_spec a n : 0 < n -> cdiv a n * n - n < a <= cdiv a n * n.
Proof. intros. unfold cdiv. pose proof (Z.div_mod (- a) n). pose proof (Z.mod_pos_bound (- a) n). nia. Qed.

Lemma cdiv_pos a n : 0 < n -> 0 < a -> 0 < cdiv a n.
Proof. intros. pose proof (cdiv_spec a n). nia. Qed.

Lemma cdiv_unique a n q : 0 < n -> q * n - n < a <= q * n -> cdiv a n = q.
Proof. intros. pose proof (cdiv_spec a n). nia. Qed.

Lemma chunks_fuel_enough {A} f g n (l : list A) :
  (0 < n)%nat -> (length l <= f)%nat -> (length l <= g)%nat ->
  chunks_fuel f n l = chunks_fuel g n l.
Proof.
  intros Hn. revert g l. induction f as [|f IH]; intros g l Hf Hg.
  - destruct l; simpl in *; [by destruct g | lia].
  - destruct l as [|x l]; [by destruct g|]. destruct g as [|g]; [simpl in Hg; lia|].
    simpl. f_equal. apply IH; rewrite length_drop; simpl in *; lia.
Qed.

Lemma chunks_nil {A} n : chunks n (@nil A) = [].
Proof. reflexivity. Qed.

Lemma chunks_step {A} n (l : list A) :
  0 < n -> l <> [] -> chunks n l = take (Z.to_nat n) l :: chunks n (drop (Z.to_nat n) l).
Proof.
  intros Hn Hl. destruct l as [|x l]; [done|]. unfold chunks.
  change (length (x :: l)) with (S (length l)). cbn [chunks_fuel]. f_equal.
  apply chunks_fuel_enough; rewrite ?length_drop; simpl; lia.
Qed.

(** Induction along the chunks of a list. *)
Lemma chunk_ind {A} (n : Z) (Hn : 0 < n) (P : list A -> Prop) :
  P [] -> (forall l, l <> [] -> P (drop (Z.to_nat n) l) -> P l) -> forall l, P l.
Proof.
  intros H0 Hs l. remember (length l) as k eqn:Hk. revert l Hk.
  induction k as [k IH] using lt_wf_ind. intros l ->.
  destruct l as [|x l]; [done|]. apply Hs; [done|].
  eapply IH; [|reflexivity]. rewrite length_drop. simpl. lia.
Qed.

Lemma concat_chunks {A} n (l : list A) : 0 < n -> concat (chunks n l) = l.
Proof.
  intros Hn. induction l as [|l Hl IH] using (chunk_ind n Hn); [done|].
  rewrite chunks_step by done. simpl. by rewrite IH, take_drop.
Qed.

Lemma len_chunks {A} n (l : list A) : 0 < n -> len (chunks n l) = cdiv (len l) n.
Proof.
  intros Hn. induction l as [|l Hl IH] using (chunk_ind n Hn).
  - change (0 = cdiv 0 n). symmetry. apply cdiv_unique; lia.
  - rewrite chunks_step, len_cons, IH, len_drop by done.
    symmetry. apply cdiv_unique; [done|].
    assert (0 < len l) by (destruct l; [done|]; rewrite len_cons; pose proof (len_nonneg l); lia).
    destruct (Z.le_gt_cases (len l) n).
    + rewrite Z.max_l by lia. rewrite (cdiv_unique 0 n 0) by lia. lia.
    + rewrite Z.max_r by lia. pose proof (cdiv_spec (len l - Z.of_nat (Z.to_nat n)) n). lia.
Qed.

(** ** Lemmas on packed integers *)

Lemma pack_uint_Ok n v r :
  pack_uint n v = Ok r <-> (0 <= v < 2 ^ (Z.of_nat n * 8)) /\ r = le_split n v.
Proof.
  unfold pack_uint. destruct (0 <=? v) eqn:E1, (v <? _) eqn:E2; simpl; split;
    try (intros [= <-]); try (intros [? ->]); try done; repeat split; lia.
Qed.

Lemma pack_uint_in n v : 0 <= v < 2 ^ (Z.of_nat n * 8) -> pack_uint n v = Ok (le_split n v).
Proof. intros. by apply pack_uint_Ok. Qed.

Lemma pack_uint_Raise n v e : pack_uint n v = Raise e -> e = StructError.
Proof. unfold pack_uint. by destruct (_ && _); intros [=]. Qed.

Lemma le_combine_split_in n v : 0 <= v < 2 ^ (Z.of_nat n * 8) -> le_combine (le_split n v) = v.
Proof. intros. rewrite le_combine_split. by apply Z.mod_small. Qed.

Lemma le_combine_range (l : bytes) : 0 <= le_combine l < 2 ^ (8 * len l).
Proof. apply le_combine_bound. Qed.

Lemma le_split_combine (l : bytes) n : n = length l -> le_split n (le_combine l) = l.
Proof. intros ->. apply split_le_combine. Qed.

(** ** Bits as arithmetic *)

Lemma land_mask a n m : 0 <= n -> m = 2 ^ n - 1 -> Z.land a m = a mod 2 ^ n.
Proof. intros ? ->. rewrite <- Z.land_ones by done. by rewrite Z.ones_equiv. Qed.

Lemma shiftr_div a n : 0 <= n -> Z.shiftr a n = a / 2 ^ n.
Proof. apply Z.shiftr_div_pow2. Qed.

Lemma shiftl_mul a n : 0 <= n -> Z.shiftl a n = a * 2 ^ n.
Proof. apply Z.shiftl_mul_pow2. Qed.

(** [|] of a multiple of 2^n and an n-bit value is their sum. *)
Lemma lor_add a c n : 0 <= n -> a mod 2 ^ n = 0 -> 0 <= c < 2 ^ n -> Z.lor a c = a + c.
Proof.
  intros Hn Ha Hc. apply or_to_plus.
  apply Z.bits_inj'. intros i Hi. rewrite Z.land_spec, Z.bits_0.
  destruct (Z.lt_ge_cases i n).
  - by rewrite (mod0_testbit a i n) by lia.
  - rewrite (testbit_above (n := c) (p := n)) by lia. apply andb_false_r.
Qed.

Lemma lor_shiftl_add a c n : 0 <= n -> 0 <= c < 2 ^ n -> Z.lor (Z.shiftl a n) c = a * 2 ^ n + c.
Proof.
  intros. rewrite (lor_add _ _ n); rewrite ?shiftl_mul by done; [done|done| |done].
  apply Z_mod_mult.
Qed.

(** Reads a field out of a concatenation: peels the pieces before it, then cuts. *)
Ltac slice_field :=
  repeat match goal with
  | |- context [slice (?l ++ ?k) ?i ?j] =>
      first [ rewrite (slice_app_r l k i j) by len_solve
            | rewrite (slice_app_l l k i j) by len_solve ];
      autorewrite with lens; simpl (_ - _)
  end;
  rewrite ?slice_0_len by len_solve.

Lemma le_combine_cons h (t : bytes) : le_combine (h :: t) = byte.unsigned h + 2 ^ 8 * le_combine t.
Proof.
  change (le_combine (h :: t)) with (Z.lor (byte.unsigned h) (Z.shiftl (le_combine t) 8)).
  pose proof (byte.unsigned_range h).
  rewrite Z.lor_comm, lor_shiftl_add by lia. lia.
Qed.

Lemma nth_drop_Z {A} (l : list A) i j d :
  0 <= i -> 0 <= j -> nth (Z.to_nat (i + j)) l d = nth (Z.to_nat j) (drop (Z.to_nat i) l) d.
Proof.
  intros. rewrite Z2Nat.inj_add by lia. generalize (Z.to_nat i) as n. intros n.
  revert l. induction n as [|n IH]; intros l; [done|].
  destruct l; simpl; [by destruct (Z.to_nat j)|]. apply IH.
Qed.

(** Cutting a slice of known width out of a long enough list. *)
Lemma slice_split {A} (l : list A) i n :
  0 <= i -> i + Z.of_nat n <= len l -> exists k, drop (Z.to_nat i) l = slice l i (i + Z.of_nat n) ++ k
    /\ length (slice l i (i + Z.of_nat n)) = n.
Proof.
  intros. unfold slice. replace (Z.to_nat (i + Z.of_nat n - i)) with n by lia.
  exists (drop n (drop (Z.to_nat i) l)). rewrite take_drop.
  split; [done|]. rewrite length_take, length_drop. unfold len in *. lia.
Qed.

#[export] Instance byte_eq_dec : EqDecision byte := Byte.byte_eq_dec.

(** ** Words: four bytes at a time *)

Lemma list_four_ind {A} (P : list A -> Prop) :
  P [] -> (forall a, P [a]) -> (forall a c, P [a; c]) -> (forall a c e, P [a; c; e]) ->
  (forall a c e g l, P l -> P (a :: c :: e :: g :: l)) -> forall l, P l.
Proof.
  intros H0 H1 H2 H3 H4.
  refine (fix IH l := match l with
    | [] => H0 | [a] => H1 a | [a; c] => H2 a c | [a; c; e] => H3 a c e
    | a :: c :: e :: g :: l => H4 a c e g l (IH l) end).
Qed.

Lemma chunks_4_cons {A} (a c e g : A) l :
  chunks 4 (a :: c :: e :: g :: l) = [a; c; e; g] :: chunks 4 l.
Proof. by rewrite chunks_step. Qed.

Lemma le_combine_4 c0 c1 c2 c3 :
  le_combine [c0; c1; c2; c3] =
  byte.unsigned c0 + 2 ^ 8 * byte.unsigned c1 + 2 ^ 16 * byte.unsigned c2 + 2 ^ 24 * byte.unsigned c3.
Proof. rewrite !le_combine_cons. change (le_combine []) with 0. lia. Qed.

Lemma le_combine_2 c0 c1 : le_combine [c0; c1] = byte.unsigned c0 + 2 ^ 8 * byte.unsigned c1.
Proof. rewrite !le_combine_cons. change (le_combine []) with 0. lia. Qed.

(** The four bytes of a word given by them. *)
Lemma le_split_4 c0 c1 c2 c3 w :
  w = byte.unsigned c0 + 2 ^ 8 * byte.unsigned c1 + 2 ^ 16 * byte.unsigned c2 + 2 ^ 24 * byte.unsigned c3 ->
  le_split 4 w = [c0; c1; c2; c3].
Proof. intros ->. rewrite <- le_combine_4. by apply le_split_combine. Qed.

Lemma mapM_cons {A B} (f : A -> res B) x l :
  mapM f (x :: l) = (y ← f x; k ← mapM f l; mret (y :: k)).
Proof. reflexivity. Qed.

(** A [mapM] whose function never raises is a [map]. *)
Lemma mapM_Ok {A B} (f : A -> res B) g l :
  Forall (fun x => f x = Ok (g x)) l -> mapM f l = Ok (map g l).
Proof. induction 1 as [|x l Hx Hl IH]; [done|]. rewrite mapM_cons, Hx, IH. done. Qed.
