(* ===== verification/Crc.v ===== *)
(** * CRC-32

    [binascii.crc32] as tools/vux_tool.py uses it (zlib's CRC-32: reflected polynomial
    0xEDB88320, initial value and final inversion 0xFFFFFFFF), and the firmware's two
    versions of [crc32_update] (firmware/fw_common/src/lib.rs): bit by bit in the first
    stage, a nibble at a time from a table in the second. The two agree, so the checksum a
    v4 header or an upload carries is the one either stage computes. *)
From S2P Require Import Prelude.

Definition POLY : Z := 0xEDB88320.

(** One step of the inner loop. *)
Definition crc_bit (c : Z) : Z :=
  if Z.odd c then Z.lxor (Z.shiftr c 1) POLY else Z.shiftr c 1.

(** The first stage's loop body for one byte, and the loop. *)
Definition crc_byte (crc : Z) (v : byte) : Z :=
  Nat.iter 8 crc_bit (Z.lxor crc (byte.unsigned v)).

Definition crc32_update (data : bytes) (crc : Z) : Z := fold_left crc_byte data crc.

(** The table of the CRC of each 4-bit value, built as [CRC_NIBBLES]'s initialiser does. *)
Definition CRC_NIBBLES : list Z :=
  map (fun i => Nat.iter 4 crc_bit (Z.of_nat i)) (seq 0 16).

Definition nibble_step (crc : Z) : Z :=
  Z.lxor (Z.shiftr crc 4) (nth (Z.to_nat (Z.land crc 0xF)) CRC_NIBBLES 0).

Definition crc_byte_nibbles (crc : Z) (v : byte) : Z :=
  nibble_step (nibble_step (Z.lxor crc (byte.unsigned v))).

Definition crc32_update_nibbles (data : bytes) (crc : Z) : Z :=
  fold_left crc_byte_nibbles data crc.

(** [binascii.crc32(data)] (Python's standard library). *)
Definition binascii_crc32 (data : bytes) : Z :=
  Z.lxor (crc32_update data 0xFFFFFFFF) 0xFFFFFFFF.

(** The check value of the CRC-32/ISO-HDLC catalogue entry. *)
Example crc32_check_value : binascii_crc32 (bstr "123456789") = 0xCBF43926.
Proof. vm_compute. reflexivity. Qed.

(** ** A nibble step is four bit steps *)

Lemma odd_lxor x y : Z.odd (Z.lxor x y) = xorb (Z.odd x) (Z.odd y).
Proof. rewrite <- !Z.bit0_odd. apply Z.lxor_spec. Qed.

(** [crc_bit] is linear over exclusive or. *)
Lemma crc_bit_lxor x y : crc_bit (Z.lxor x y) = Z.lxor (crc_bit x) (crc_bit y).
Proof.
  unfold crc_bit. rewrite odd_lxor, Z.shiftr_lxor.
  assert (Hx : forall p q r, Z.lxor (Z.lxor p q) r = Z.lxor (Z.lxor p r) q).
  { intros. by rewrite !Z.lxor_assoc, (Z.lxor_comm q r). }
  destruct (Z.odd x), (Z.odd y); simpl xorb; cbn iota.
  - rewrite (Hx _ POLY), <- !Z.lxor_assoc.
    by rewrite (Z.lxor_assoc _ POLY POLY), Z.lxor_nilpotent, Z.lxor_0_r.
  - apply eq_sym, Hx.
  - by rewrite Z.lxor_assoc.
  - reflexivity.
Qed.

Lemma iter_crc_bit_lxor n x y :
  Nat.iter n crc_bit (Z.lxor x y) = Z.lxor (Nat.iter n crc_bit x) (Nat.iter n crc_bit y).
Proof. induction n; simpl; [done|]. by rewrite IHn, crc_bit_lxor. Qed.

(** Steps over bits that are 0 only shift. *)
Lemma iter_crc_bit_shift n x : Nat.iter n crc_bit (Z.shiftl x (Z.of_nat n)) = x.
Proof.
  revert x. induction n as [|n IH]; intros x; [by rewrite Z.shiftl_0_r|].
  rewrite Nat.iter_succ_r. replace (Z.of_nat (S n)) with (Z.of_nat n + 1) by lia.
  rewrite <- Z.shiftl_shiftl by lia.
  replace (crc_bit (Z.shiftl (Z.shiftl x (Z.of_nat n)) 1)) with (Z.shiftl x (Z.of_nat n)); [apply IH|].
  unfold crc_bit. rewrite <- Z.bit0_odd, Z.shiftl_spec_low by lia.
  by rewrite Z.shiftr_shiftl_l, Z.shiftl_0_r by lia.
Qed.

Lemma split_nibble c : c = Z.lxor (Z.shiftl (Z.shiftr c 4) 4) (Z.land c 0xF).
Proof.
  apply Z.bits_inj'. intros i Hi. rewrite Z.lxor_spec.
  change 0xF with (Z.ones 4). rewrite Z.land_ones by lia.
  destruct (Z.lt_ge_cases i 4).
  - by rewrite Z.shiftl_spec_low, Z.mod_pow2_bits_low by lia.
  - rewrite Z.shiftl_spec, Z.shiftr_spec, Z.mod_pow2_bits_high by lia.
    by replace (i - 4 + 4) with i by lia; rewrite xorb_false_r.
Qed.

Lemma nibble_step_spec c : nibble_step c = Nat.iter 4 crc_bit c.
Proof.
  rewrite (split_nibble c) at 2. rewrite iter_crc_bit_lxor.
  change 4 with (Z.of_nat 4) at 2. rewrite iter_crc_bit_shift.
  unfold nibble_step. f_equal. unfold CRC_NIBBLES.
  assert (0 <= Z.land c 0xF < 16) as Hr.
  { rewrite (land_mask c 4) by lia. apply Z.mod_pos_bound. lia. }
  rewrite (nth_indep _ 0 (Nat.iter 4 crc_bit (Z.of_nat 0))) by (rewrite length_map, length_seq; lia).
  rewrite (map_nth (fun i => Nat.iter 4 crc_bit (Z.of_nat i))), seq_nth by lia.
  simpl plus. by rewrite Z2Nat.id by lia.
Qed.

Lemma crc_byte_nibbles_spec crc v : crc_byte_nibbles crc v = crc_byte crc v.
Proof. unfold crc_byte_nibbles, crc_byte. by rewrite !nibble_step_spec. Qed.

(** The second stage's table-driven [crc32_update] computes the first stage's bitwise one,
    on every input and from every starting value. *)
Theorem crc32_update_nibbles_correct (data : bytes) (crc : Z) :
  crc32_update_nibbles data crc = crc32_update data crc.
Proof.
  unfold crc32_update_nibbles, crc32_update. revert crc.
  induction data as [|v data IH]; intros; simpl; [done|].
  by rewrite crc_byte_nibbles_spec, IH.
Qed.

(** ** Width: the checksum is a 32-bit value *)

Definition u32 (z : Z) : Prop := 0 <= z < 2 ^ 32.

Lemma u32_lxor x y : u32 x -> u32 y -> u32 (Z.lxor x y).
Proof.
  unfold u32. intros Hx Hy.
  assert (0 <= Z.lxor x y) by (apply Z.lxor_nonneg; lia).
  split; [done|]. apply Z.nle_gt. intros Hc.
  assert (Z.lxor x y = 0 \/ 0 < Z.lxor x y) as [E|Hp] by lia; [lia|].
  pose proof (Z.bit_log2 _ Hp) as Hb. rewrite Z.lxor_spec in Hb.
  assert (32 <= Z.log2 (Z.lxor x y)) by (apply Z.log2_le_pow2; lia).
  rewrite !(testbit_above (p := 32)) in Hb by lia. discriminate.
Qed.

Lemma u32_shiftr x n : 0 <= n -> u32 x -> u32 (Z.shiftr x n).
Proof.
  unfold u32. intros Hn Hx. rewrite shiftr_div by done.
  split; [apply Z.div_pos; lia|]. apply Z.div_lt_upper_bound; nia.
Qed.

Lemma u32_crc_bit c : u32 c -> u32 (crc_bit c).
Proof.
  intros Hc. unfold crc_bit. destruct (Z.odd c).
  - apply u32_lxor; [by apply u32_shiftr|]. unfold u32, POLY. lia.
  - by apply u32_shiftr.
Qed.

Lemma u32_crc_byte c v : u32 c -> u32 (crc_byte c v).
Proof.
  intros Hc. unfold crc_byte. apply Nat.iter_invariant; [apply u32_crc_bit|].
  apply u32_lxor; [done|]. pose proof (byte.unsigned_range v). unfold u32. lia.
Qed.

Lemma u32_crc32_update data c : u32 c -> u32 (crc32_update data c).
Proof.
  unfold crc32_update. revert c. induction data; intros; simpl; [done|].
  apply IHdata. by apply u32_crc_byte.
Qed.

Lemma u32_binascii_crc32 data : u32 (binascii_crc32 data).
Proof.
  unfold binascii_crc32. apply u32_lxor; [apply u32_crc32_update|]; unfold u32; lia.
Qed.

(** The CRC of blocks one after the other is the CRC of their concatenation. *)
Lemma crc32_update_app l k c : crc32_update (l ++ k) c = crc32_update k (crc32_update l c).
Proof. apply fold_left_app. Qed.
