(* ===== verification/Header.v ===== *)
(** * The VUX9 v4 file header

    tools/vux_tool.py's [ImageHeader] (the side that writes files) and
    firmware/fw_common/src/header.rs's (the side that loads them). *)
From S2P Require Import Prelude Crc.

Definition VUX_MAGIC : Z := 0x56555839.
Definition HEADER_LEN : Z := 64.
Definition SECTOR : Z := 512.
Definition MODE_HACK : Z := 0.
Definition MODE_RISCV : Z := 1.
Definition HEADER_VERSION_V4 : Z := 4.
Definition XMEM_BASE : Z := 0x80000000.

Record ImageHeader := mkHeader {
  mode : Z; size : Z; crc32 : Z; name : bytes; version : Z; load_addr : Z; entry_point : Z
}.

(** ** tools/vux_tool.py *)

(** [ImageHeader.pack]: "<IHHIIIIII32s"; a field out of range is a [struct.error]. *)
Definition pack (h : ImageHeader) (magic header_version reserved : Z) : res bytes :=
  f0 ← pack_uint 4 magic;
  f1 ← pack_uint 2 header_version;
  f2 ← pack_uint 2 reserved;
  f3 ← pack_uint 4 (mode h);
  f4 ← pack_uint 4 (size h);
  f5 ← pack_uint 4 (load_addr h);
  f6 ← pack_uint 4 (entry_point h);
  f7 ← pack_uint 4 (crc32 h);
  f8 ← pack_uint 4 (version h);
  mret (f0 ++ f1 ++ f2 ++ f3 ++ f4 ++ f5 ++ f6 ++ f7 ++ f8 ++
        pack_s 32 (ljust (take 32 (name h)) 32 x00)).

(** [ImageHeader.parse]: [struct.unpack_from] at offset 0, then the checks. *)
Definition parse (data : bytes) : option ImageHeader :=
  if len data <? HEADER_LEN then None
  else
    let magic := unpack_uint 4 0 data in
    let hver := unpack_uint 2 4 data in
    let reserved := unpack_uint 2 6 data in
    let mode := unpack_uint 4 8 data in
    let size := unpack_uint 4 12 data in
    let load := unpack_uint 4 16 data in
    let entry := unpack_uint 4 20 data in
    let crc := unpack_uint 4 24 data in
    let ver := unpack_uint 4 28 data in
    let name := slice data 32 64 in
    if negb (magic =? VUX_MAGIC) || negb (hver =? HEADER_VERSION_V4) || negb (reserved =? 0)
    then None
    else Some (mkHeader mode size crc name ver load entry).

(** ** firmware/fw_common/src/header.rs *)
Module Fw.

Definition OFF_MAGIC : Z := 0.
Definition OFF_HEADER_VERSION : Z := 4.
Definition OFF_RESERVED : Z := 6.
Definition OFF_MODE : Z := 8.
Definition OFF_SIZE : Z := 12.
Definition OFF_LOAD_ADDR : Z := 16.
Definition OFF_ENTRY_POINT : Z := 20.
Definition OFF_CRC32 : Z := 24.
Definition OFF_VERSION : Z := 28.
Definition OFF_NAME : Z := 32.

(** [u32::from_le_bytes([b[at], b[at + 1], b[at + 2], b[at + 3]])], and its u16 form. *)
Definition le16 (d : bytes) (at0 : Z) : Z :=
  let g i := byte.unsigned (nth (Z.to_nat (at0 + i)) d x00) in g 0 + 2 ^ 8 * g 1.
Definition le32 (d : bytes) (at0 : Z) : Z :=
  let g i := byte.unsigned (nth (Z.to_nat (at0 + i)) d x00) in
  g 0 + 2 ^ 8 * g 1 + 2 ^ 16 * g 2 + 2 ^ 24 * g 3.

(** [ImageHeader::parse]. *)
Definition parse (d : bytes) : option ImageHeader :=
  if (len d <? HEADER_LEN) || negb (le32 d OFF_MAGIC =? VUX_MAGIC)
     || negb (le16 d OFF_HEADER_VERSION =? HEADER_VERSION_V4)
     || negb (le16 d OFF_RESERVED =? 0)
  then None
  else Some (mkHeader (le32 d OFF_MODE) (le32 d OFF_SIZE) (le32 d OFF_CRC32)
               (slice d OFF_NAME (OFF_NAME + 32)) (le32 d OFF_VERSION)
               (le32 d OFF_LOAD_ADDR) (le32 d OFF_ENTRY_POINT)).

(** Why a header can't be loaded into a window. *)
Inductive ImageError : Type :=
| BadMode (m : Z) | Empty | OutOfWindow | BadEntry (e : Z).

(** [ImageHeader::check]: [Ok(())] is [None]. *)
Definition check (h : ImageHeader) (base wlen : Z) : option ImageError :=
  if negb (mode h =? MODE_RISCV) && negb (mode h =? MODE_HACK) then Some (BadMode (mode h))
  else if size h =? 0 then Some Empty
  else if (load_addr h <? base) || (wlen <? size h)
          || (wlen - size h <? load_addr h - base) then Some OutOfWindow
  else
    let e := entry_point h in
    if (mode h =? MODE_RISCV)
       && ((e <? load_addr h) || (size h <=? e - load_addr h) || negb (Z.land e 3 =? 0))
    then Some (BadEntry e)
    else None.

(** [ImageHeader::crc_matches]. *)
Definition crc_matches (h : ImageHeader) (payload : bytes) : bool :=
  (len payload =? size h)
  && (Z.lxor (crc32_update payload 0xFFFFFFFF) 0xFFFFFFFF =? crc32 h).

(** [printable_len] through [name_len]: the printable prefix of the name, up to its NUL. *)
Definition name_len (h : ImageHeader) : Z :=
  let printable (c : byte) := (0x20 <=? byte.unsigned c) && (byte.unsigned c <=? 0x7E) in
  match list_find (fun c => negb (printable c) = true) (name h) with
  | Some (i, _) => Z.of_nat i
  | None => len (name h)
  end.

End Fw.

(** ** Ranges *)

(** The values the packed format can hold. *)
Definition header_fits (h : ImageHeader) (magic hver reserved : Z) : bool :=
  let in32 v := (0 <=? v) && (v <? 2 ^ 32) in
  let in16 v := (0 <=? v) && (v <? 2 ^ 16) in
  in32 magic && in16 hver && in16 reserved && in32 (mode h) && in32 (size h)
  && in32 (load_addr h) && in32 (entry_point h) && in32 (crc32 h) && in32 (version h).

(** What a name becomes in a file: cut or NUL-padded to 32 bytes. *)
Definition name_field (n : bytes) : bytes := pack_s 32 n.

Lemma len_name_field n : len (name_field n) = 32.
Proof. by apply len_pack_s. Qed.

Lemma ljust_pad_idem (n : bytes) : pack_s 32 (ljust (take 32 n) 32 x00) = name_field n.
Proof.
  unfold name_field, pack_s. change (Z.to_nat 32) with 32%nat.
  set (p := ljust (take 32 n) 32 x00).
  assert (len p = 32) as Hp.
  { unfold p. rewrite len_ljust, len_take. lia. }
  rewrite (take_ge p) by (unfold len in Hp; lia).
  unfold ljust at 1. rewrite Hp, Z.sub_diag. apply app_nil_r.
Qed.

(** A fitting header packs to its fields' bytes. *)
Lemma pack_fits h magic hver reserved :
  header_fits h magic hver reserved = true ->
  pack h magic hver reserved =
    Ok (le_split 4 magic ++ le_split 2 hver ++ le_split 2 reserved ++ le_split 4 (mode h) ++
        le_split 4 (size h) ++ le_split 4 (load_addr h) ++ le_split 4 (entry_point h) ++
        le_split 4 (crc32 h) ++ le_split 4 (version h) ++ name_field (name h)).
Proof.
  unfold header_fits. intros H. rewrite !andb_true_iff, !Z.leb_le, !Z.ltb_lt in H.
  unfold pack. rewrite !pack_uint_in by (simpl; lia). simpl mbind.
  by rewrite ljust_pad_idem.
Qed.

Lemma pack_inv h magic hver reserved d :
  pack h magic hver reserved = Ok d -> header_fits h magic hver reserved = true.
Proof.
  unfold pack. intros H. invert_res.
  repeat match goal with E : pack_uint _ _ = Ok _ |- _ => apply pack_uint_Ok in E as [? _] end.
  unfold header_fits. rewrite !andb_true_iff, !Z.leb_le, !Z.ltb_lt. simpl in *. lia.
Qed.

(** ** Round trips *)

#[export] Hint Rewrite len_name_field : lens.

Lemma unpack_le_split n v : 0 <= v < 2 ^ (Z.of_nat n * 8) -> le_combine (le_split n v) = v.
Proof. apply le_combine_split_in. Qed.

Lemma parse_packed magic hver reserved m s l e c v n rest :
  header_fits (mkHeader m s c n v l e) magic hver reserved = true -> len n = 32 ->
  parse ((le_split 4 magic ++ le_split 2 hver ++ le_split 2 reserved ++ le_split 4 m ++
          le_split 4 s ++ le_split 4 l ++ le_split 4 e ++ le_split 4 c ++ le_split 4 v ++ n)
         ++ rest) =
  if negb (magic =? VUX_MAGIC) || negb (hver =? HEADER_VERSION_V4) || negb (reserved =? 0)
  then None else Some (mkHeader m s c n v l e).
Proof.
  intros H Hn. unfold header_fits in H. simpl in H.
  rewrite !andb_true_iff, !Z.leb_le, !Z.ltb_lt in H.
  unfold parse. replace (len _ <? HEADER_LEN) with false
    by (symmetry; apply Z.ltb_ge; unfold HEADER_LEN; autorewrite with lens; pose proof (len_nonneg rest); lia).
  unfold unpack_uint. rewrite <- !app_assoc.
  slice_field.
  rewrite !unpack_le_split by (simpl; lia). done.
Qed.

Lemma fw_le32_unpack d i : 0 <= i -> i + 4 <= len d -> Fw.le32 d i = unpack_uint 4 i d.
Proof.
  intros Hi Hl. unfold Fw.le32, unpack_uint.
  destruct (slice_split d i 4 Hi Hl) as (k & Hk & Hlen).
  change (Z.of_nat 4) with 4 in *. rewrite !nth_drop_Z, Hk by lia.
  destruct (slice d i (i + 4)) as [|a [|c [|e [|f [|]]]]]; try discriminate.
  rewrite !le_combine_cons. simpl nth. change (le_combine []) with 0. lia.
Qed.

Lemma fw_le16_unpack d i : 0 <= i -> i + 2 <= len d -> Fw.le16 d i = unpack_uint 2 i d.
Proof.
  intros Hi Hl. unfold Fw.le16, unpack_uint.
  destruct (slice_split d i 2 Hi Hl) as (k & Hk & Hlen).
  change (Z.of_nat 2) with 2 in *. rewrite !nth_drop_Z, Hk by lia.
  destruct (slice d i (i + 2)) as [|a [|c [|]]]; try discriminate.
  rewrite !le_combine_cons. simpl nth. change (le_combine []) with 0. lia.
Qed.

Lemma unpack_range n i d :
  0 <= i -> i + Z.of_nat n <= len d -> 0 <= unpack_uint n i d < 2 ^ (Z.of_nat n * 8).
Proof.
  intros. unfold unpack_uint. pose proof (le_combine_range (slice d i (i + Z.of_nat n))) as H1.
  rewrite len_slice in H1 by lia. by replace (Z.of_nat n * 8) with (8 * (i + Z.of_nat n - i)) by lia.
Qed.

Lemma le_split_unpack n i d :
  0 <= i -> i + Z.of_nat n <= len d -> le_split n (unpack_uint n i d) = slice d i (i + Z.of_nat n).
Proof.
  intros. unfold unpack_uint. apply le_split_combine.
  pose proof (len_slice d i (i + Z.of_nat n)). unfold len in *. lia.
Qed.

Lemma name_field_32 n : len n = 32 -> name_field n = n.
Proof.
  intros H. unfold name_field, pack_s, ljust.
  rewrite take_ge by (unfold len in H; lia). by rewrite H, Z.sub_diag, app_nil_r.
Qed.

(** A header that [pack] writes is the header [parse] reads back, whatever payload
    follows it; only the name changes, to its 32-byte field. *)
Theorem header_roundtrip (h : ImageHeader) (d rest : bytes) :
  pack h VUX_MAGIC HEADER_VERSION_V4 0 = Ok d ->
  parse (d ++ rest) =
    Some (mkHeader (mode h) (size h) (crc32 h) (name_field (name h)) (version h)
            (load_addr h) (entry_point h)).
Proof.
  intros H. pose proof (pack_inv _ _ _ _ _ H) as Hf.
  rewrite (pack_fits _ _ _ _ Hf) in H. apply Ok_inj in H as <-.
  destruct h. cbn [mode size crc32 name version load_addr entry_point] in *.
  rewrite parse_packed; [done|exact Hf|apply len_name_field].
Qed.

(** Conversely, whatever bytes [parse] accepts start with exactly what [pack] writes for
    the header it returns: the format has no other encoding. *)
Theorem parse_pack (data : bytes) (h : ImageHeader) :
  parse data = Some h -> pack h VUX_MAGIC HEADER_VERSION_V4 0 = Ok (take 64 data).
Proof.
  unfold parse, HEADER_LEN. destruct (len data <? 64) eqn:E; [done|]. apply Z.ltb_ge in E.
  destruct (negb _ || _ || _) eqn:E2; [done|]. intros [= <-].
  apply orb_false_iff in E2 as [[E2 E3]%orb_false_iff E4].
  rewrite !negb_false_iff, !Z.eqb_eq in *.
  rewrite pack_fits.
  - f_equal. cbn [mode size crc32 name version load_addr entry_point].
    replace (le_split 2 0) with (le_split 2 (unpack_uint 2 6 data)) by (by rewrite E4).
    rewrite <- E2, <- E3, !le_split_unpack by (simpl; lia).
    rewrite name_field_32 by (rewrite len_slice; lia). simpl (_ + _).
    rewrite <- !slice_add by lia. reflexivity.
  - pose proof (unpack_range 4 8 data). pose proof (unpack_range 4 12 data).
    pose proof (unpack_range 4 16 data). pose proof (unpack_range 4 20 data).
    pose proof (unpack_range 4 24 data). pose proof (unpack_range 4 28 data).
    unfold header_fits, VUX_MAGIC, HEADER_VERSION_V4. cbn [mode size load_addr entry_point crc32 version].
    rewrite !andb_true_iff, !Z.leb_le, !Z.ltb_lt. simpl in *. lia.
Qed.

(** [pack] succeeds exactly on the fields the format can hold; anything else is a
    [struct.error]. *)
Theorem pack_error (h : ImageHeader) (magic hver reserved : Z) :
  pack h magic hver reserved =
    if header_fits h magic hver reserved
    then Ok (le_split 4 magic ++ le_split 2 hver ++ le_split 2 reserved ++ le_split 4 (mode h) ++
        le_split 4 (size h) ++ le_split 4 (load_addr h) ++ le_split 4 (entry_point h) ++
        le_split 4 (crc32 h) ++ le_split 4 (version h) ++ name_field (name h))
    else Raise StructError.
Proof.
  destruct (header_fits h magic hver reserved) eqn:E; [by apply pack_fits|].
  destruct (pack h magic hver reserved) as [d|x] eqn:P.
  - apply pack_inv in P. congruence.
  - f_equal. unfold pack in P.
    repeat (apply bind_Raise in P as [P|(? & _ & P)]; [by eapply pack_uint_Raise|]). done.
Qed.

Lemma fw_parse_same data : Fw.parse data = parse data.
Proof.
  unfold Fw.parse, parse, HEADER_LEN.
  destruct (len data <? 64) eqn:E; [done|]. apply Z.ltb_ge in E.
  unfold Fw.OFF_MAGIC, Fw.OFF_HEADER_VERSION, Fw.OFF_RESERVED, Fw.OFF_MODE, Fw.OFF_SIZE,
    Fw.OFF_LOAD_ADDR, Fw.OFF_ENTRY_POINT, Fw.OFF_CRC32, Fw.OFF_VERSION, Fw.OFF_NAME.
  by rewrite !fw_le32_unpack, !fw_le16_unpack by lia.
Qed.

(** The firmware accepts exactly the headers the host tool accepts, and reads the same
    fields from them, for every byte string. *)
Theorem fw_parse_agrees (data : bytes) : Fw.parse data = parse data.
Proof. apply fw_parse_same. Qed.

(** ** Concrete instances *)

Definition demo_header : ImageHeader :=
  mkHeader MODE_RISCV 5 0x3610A686 (bstr "hello") 1 XMEM_BASE XMEM_BASE.

Definition demo_packed : bytes :=
  match pack demo_header VUX_MAGIC HEADER_VERSION_V4 0 with Ok d => d | Raise _ => [] end.

Lemma header_roundtrip_witness :
  len demo_packed = 64 /\
  parse (demo_packed ++ bstr "hello") =
    Some (mkHeader MODE_RISCV 5 0x3610A686 (name_field (bstr "hello")) 1 XMEM_BASE XMEM_BASE).
Proof.
  split; [vm_compute; reflexivity|].
  apply (header_roundtrip demo_header demo_packed (bstr "hello")). vm_compute. reflexivity.
Defined.

Lemma parse_pack_witness :
  parse (demo_packed ++ bstr "hello") <> None /\
  pack (mkHeader MODE_RISCV 5 0x3610A686 (name_field (bstr "hello")) 1 XMEM_BASE XMEM_BASE)
    VUX_MAGIC HEADER_VERSION_V4 0 = Ok (take 64 (demo_packed ++ bstr "hello")).
Proof.
  split; [vm_compute; discriminate|].
  apply (parse_pack (demo_packed ++ bstr "hello")). vm_compute. reflexivity.
Defined.
