(* ===== verification/Image.v ===== *)
(** * Binary images

    How payloads become files and ROM contents: Hack packing and the v4 file builder of
    tools/vux_tool.py, scripts/bin2hex.py, scripts/merge_firmware_hex.py and
    scripts/elf2bin.py; next to them, the emulator's own Hack packing ([Soc::load_hack]) and
    the half of a fetched word its Hack step takes. *)
From S2P Require Import Prelude Crc Header.

Definition u8 (c : byte) : Z := byte.unsigned c.

(** [l[i]] on bytes: an index past the end is an [IndexError]. *)
Definition byte_at (l : bytes) (i : nat) : res Z :=
  match l !! i with Some c => Ok (u8 c) | None => Raise IndexError end.

(** A chunk's two big-endian instructions, in a word with the first in the low half. *)
Definition hack_word (chunk : bytes) : res Z :=
  c0 ← byte_at chunk 0; c1 ← byte_at chunk 1; c2 ← byte_at chunk 2; c3 ← byte_at chunk 3;
  let instr0 := Z.lor (Z.shiftl c0 8) c1 in
  let instr1 := Z.lor (Z.shiftl c2 8) c3 in
  mret (Z.lor (Z.shiftl instr1 16) instr0).

(** ** tools/vux_tool.py *)

(** [pack_hack]. *)
Definition pack_hack (payload : bytes) : res bytes :=
  packed ← mapM (fun chunk => w ← hack_word (ljust chunk 4 x00); pack_uint 4 w) (chunks 4 payload);
  mret (concat packed).

(** What [_read_payload] hands to [build_vux9_v4_image]: the bytes as given have no default
    name, a file's have its stem (reading the file is the caller's). *)
Definition read_payload := (bytes * option bytes)%type.

(** [(name or default_name or "").encode("ascii", errors="replace")] on names of bytes. *)
Definition choose_name (name : bytes) (default_name : option bytes) : bytes :=
  match name with
  | [] => match default_name with Some n => n | None => [] end
  | _ => name
  end.

(** [build_vux9_v4_image]: [is_hack] is [mode == "hack"]; an argument left out is [None]. *)
Definition build_vux9_v4_image (src : read_payload) (nm : bytes) (is_hack : bool) (ver : Z)
    (load entry crc_override magic_override : option Z) : res (bytes * ImageHeader) :=
  let '(payload0, default_name) := src in
  let mode_val := if is_hack then MODE_HACK else MODE_RISCV in
  payload ← (if mode_val =? MODE_HACK then pack_hack payload0 else Ok payload0);
  let load_addr := match load with
    | Some a => a
    | None => if mode_val =? MODE_RISCV then XMEM_BASE else 0 end in
  let header := mkHeader mode_val (len payload)
    (match crc_override with
     | Some c => c | None => Z.land (binascii_crc32 payload) 0xFFFFFFFF end)
    (choose_name nm default_name) ver load_addr
    (match entry with Some e => e | None => load_addr end) in
  let magic := match magic_override with Some m => m | None => VUX_MAGIC end in
  hd ← pack header magic HEADER_VERSION_V4 0;
  mret (hd ++ payload, header).

(** ** scripts/bin2hex.py *)

(** [chunk + b"\x00" * (4 - len(chunk))] for a short last chunk. *)
Definition pad4 (chunk : bytes) : bytes :=
  if len chunk <? 4 then chunk ++ zeros (4 - len chunk) else chunk.

(** [struct.unpack("<I", chunk)[0]]: exactly 4 bytes, else a [struct.error]. *)
Definition unpack_u32 (chunk : bytes) : res Z :=
  if len chunk =? 4 then Ok (le_combine chunk) else Raise StructError.

Definition unpack_u16 (chunk : bytes) : res Z :=
  if len chunk =? 2 then Ok (le_combine chunk) else Raise StructError.

(** The opcodes that make a first word look like RV32. *)
Definition RV_OPCODES : list Z := [0x33; 0x13; 0x03; 0x23; 0x63; 0x6F; 0x67; 0x37; 0x17; 0x73].

(** Auto-detection: [None] (falsy) stays when the file is shorter than a word. *)
Definition detect_hack (data : bytes) (is_hack : option bool) : option bool :=
  match is_hack with
  | Some h => Some h
  | None =>
      match data with
      | d0 :: _ :: _ :: _ :: _ =>
          let rv_opcode := Z.land (u8 d0) 0x7F in
          Some (negb ((Z.land (u8 d0) 3 =? 3) && existsb (Z.eqb rv_opcode) RV_OPCODES))
      | _ => None
      end
  end.

(** The words of [bin2hex]'s lines. *)
Definition bin2hex_words (data : bytes) (is_hack : option bool) : res (list Z) :=
  match detect_hack data is_hack with
  | Some true => mapM (fun chunk => hack_word (pad4 chunk)) (chunks 4 data)
  | _ => mapM (fun chunk => unpack_u32 (pad4 chunk)) (chunks 4 data)
  end.

(** A lower-case hexadecimal digit, and [f"{word:08x}"]. *)
Definition hex_digit (d : Z) : ascii :=
  ascii_of_nat (Z.to_nat (if d <? 10 then 48 + d else 87 + d)).

Definition fmt_hex (width : nat) (w : Z) : string :=
  let n := Nat.max width (Z.to_nat (Z.log2 w / 4 + 1)) in
  string_of_list_ascii
    (map (fun i => hex_digit (Z.land (Z.shiftr w (4 * Z.of_nat i)) 15)) (rev (seq 0 n))).

Definition newline : string := String "010" EmptyString.

Definition hex_line (w : Z) : string := (fmt_hex 8 w ++ newline)%string.

(** [bin2hex]: the lines written to the hex file. *)
Definition bin2hex (data : bytes) (is_hack : option bool) : res (list string) :=
  map hex_line <$> bin2hex_words data is_hack.

(** ** Reading hex lines back: [int(line, 16)] *)

Definition hex_value (c : ascii) : option Z :=
  let n := Z.of_nat (nat_of_ascii c) in
  if (48 <=? n) && (n <=? 57) then Some (n - 48)
  else if (97 <=? n) && (n <=? 102) then Some (n - 87)
  else if (65 <=? n) && (n <=? 70) then Some (n - 55)
  else None.

Fixpoint parse_hex (acc : Z) (l : list ascii) : option Z :=
  match l with
  | [] => Some acc
  | c :: l => match hex_value c with Some d => parse_hex (16 * acc + d) l | None => None end
  end.

(** The whitespace [strip] and [int] take off an ASCII line. *)
Definition is_space (c : ascii) : bool :=
  let n := nat_of_ascii c in ((9 <=? n) && (n <=? 13) || (n =? 32))%nat.

Fixpoint drop_spaces (l : list ascii) : list ascii :=
  match l with
  | c :: k => if is_space c then drop_spaces k else l
  | [] => []
  end.

Definition strip (s : string) : list ascii :=
  rev (drop_spaces (rev (drop_spaces (list_ascii_of_string s)))).

(** [int(line, 16)] on unsigned digits without prefix or underscores. *)
Definition int16 (line : string) : res Z :=
  match strip line with
  | [] => Raise (ValueError "invalid literal for int() with base 16"%string)
  | l => match parse_hex 0 l with
         | Some v => Ok v
         | None => Raise (ValueError "invalid literal for int() with base 16"%string)
         end
  end.

(** [_hex_words] (sim/integration/lockstep_programs.py) on a file's lines. *)
Definition hex_words (lines : list string) : res (list Z) :=
  mapM int16 (filter (fun l => strip l <> []) lines).

(** ** scripts/merge_firmware_hex.py *)

Definition NOP : Z := 0x00000013.
Definition WORDS : Z := 4096.

(** [l[i] = v]: an index past the end is an [IndexError]. *)
Definition setitem {A} (l : list A) (i : nat) (v : A) : res (list A) :=
  if (i <? length l)%nat then Ok (<[i := v]> l) else Raise IndexError.

(** The loop [words[i // 4] = struct.unpack("<I", data[i : i + 4])[0]]. *)
Fixpoint overlay_words (i : nat) (cs : list bytes) (words : list Z) : res (list Z) :=
  match cs with
  | [] => Ok words
  | c :: cs => w ← unpack_u32 c; words ← setitem words i w; overlay_words (S i) cs words
  end.

(** [merge_hex]: the words of the output file; an image that doesn't fit exits. *)
Definition merge_hex (data : bytes) : res (list Z) :=
  if WORDS * 4 <? len data then Raise SystemExit
  else
    let data := data ++ zeros ((- len data) mod 4) in
    overlay_words 0 (chunks 4 data) (replicate (Z.to_nat WORDS) NOP).

Definition merge_hex_lines (data : bytes) : res (list string) :=
  map hex_line <$> merge_hex data.

(** ** scripts/elf2bin.py *)

(** A program header's fields, as the loop unpacks them. *)
Record Phdr := mkPhdr {
  p_type : Z; p_offset : Z; p_vaddr : Z; p_paddr : Z;
  p_filesz : Z; p_memsz : Z; p_flags : Z; p_align : Z
}.

Definition unpack_phdr (d : bytes) : res Phdr :=
  if len d =? 32 then
    let f i := unpack_uint 4 (4 * i) d in
    Ok (mkPhdr (f 0) (f 1) (f 2) (f 3) (f 4) (f 5) (f 6) (f 7))
  else Raise StructError.

(** Where a segment goes in the image, or [None] when the loop skips it. *)
Definition rel_offset (base : option Z) (p : Phdr) : option Z :=
  if negb (p_type p =? 1) || (p_filesz p =? 0) then None
  else match base with
       | Some bs => if p_paddr p <? bs then None else Some (p_paddr p - bs)
       | None => if p_paddr p <? 0x10000000 then Some (p_paddr p) else None
       end.

(** One pass of the loop: extend the image with zeros, then replace the slice. *)
Definition place_segment (data : bytes) (base : option Z) (image : bytes) (p : Phdr) : bytes :=
  match rel_offset base p with
  | None => image
  | Some rel =>
      let image := if len image <? rel + p_filesz p
        then image ++ zeros (rel + p_filesz p - len image) else image in
      slice_assign image rel (rel + p_filesz p) (slice data (p_offset p) (p_offset p + p_filesz p))
  end.

Fixpoint elf_segments (data : bytes) (base : option Z) (phoff phentsize : Z) (i : nat) (n : nat)
    (image : bytes) : res bytes :=
  match n with
  | O => Ok image
  | S n =>
      let off := phoff + Z.of_nat i * phentsize in
      p ← unpack_phdr (slice data off (off + 32));
      elf_segments data base phoff phentsize (S i) n (place_segment data base image p)
  end.

Definition ELF_MAGIC : bytes := x7f :: bstr "ELF".

(** [elf2bin]: the extracted image. *)
Definition elf2bin (data : bytes) (base : option Z) : res bytes :=
  if bool_decide (slice data 0 4 = ELF_MAGIC) then
    e_phoff ← unpack_u32 (slice data 0x1C 0x20);
    e_phentsize ← unpack_u16 (slice data 0x2A 0x2C);
    e_phnum ← unpack_u16 (slice data 0x2C 0x2E);
    elf_segments data base e_phoff e_phentsize 0 (Z.to_nat e_phnum) []
  else Raise SystemExit.

(** ** The emulator (emu/crates/vux9k_emu/src/soc.rs) *)

(** [Soc::load_hack]'s words: 16-bit big-endian instructions, then pairs of them (a missing
    second one is 0), each as four little-endian bytes. *)
Fixpoint emu_hack_words (d : bytes) : option bytes :=
  match d with
  | [] => Some []
  | [c0; c1] => Some (le_split 4 (2 ^ 8 * u8 c0 + u8 c1))
  | c0 :: c1 :: c2 :: c3 :: d =>
      let p0 := 2 ^ 8 * u8 c0 + u8 c1 in
      let p1 := 2 ^ 8 * u8 c2 + u8 c3 in
      rest ← emu_hack_words d; Some (le_split 4 (Z.lor p0 (Z.shiftl p1 16)) ++ rest)
  | _ => None
  end.

(** The instruction [step_hack] takes at [pc] from the segment's bytes: the word at [pc],
    its upper half when bit 1 of [pc] is set. *)
Definition hack_fetch (segment : bytes) (pc : Z) : Z :=
  let word := unpack_uint 4 (4 * Z.shiftr (Z.land pc 0xFFFF) 2) segment in
  if negb (Z.land pc 2 =? 0) then Z.shiftr word 16 else Z.land word 0xFFFF.

(** [hack_image_bytes] (sim/integration/lockstep_programs.py): [struct.pack("<nI", *words)]. *)
Definition hack_image_bytes (words : list Z) : res bytes :=
  @concat _ <$> mapM (pack_uint 4) words.

(** ** Hack packing *)

Lemma u8_range c : 0 <= u8 c < 2 ^ 8.
Proof. apply byte.unsigned_range. Qed.

Lemma hack_word_4 c0 c1 c2 c3 :
  hack_word [c0; c1; c2; c3] = Ok (2 ^ 16 * (2 ^ 8 * u8 c2 + u8 c3) + (2 ^ 8 * u8 c0 + u8 c1)).
Proof.
  unfold hack_word, byte_at. cbn [lookup list_lookup mbind res_bind mret res_ret].
  pose proof (u8_range c0). pose proof (u8_range c1). pose proof (u8_range c2). pose proof (u8_range c3).
  rewrite (lor_shiftl_add (u8 c0)), (lor_shiftl_add (u8 c2)) by lia.
  rewrite lor_shiftl_add by lia. f_equal. lia.
Qed.

Lemma pack_hack_word c0 c1 c2 c3 :
  (w ← hack_word [c0; c1; c2; c3]; pack_uint 4 w) = Ok [c1; c0; c3; c2].
Proof.
  rewrite hack_word_4. cbn [mbind res_bind].
  pose proof (u8_range c0). pose proof (u8_range c1). pose proof (u8_range c2). pose proof (u8_range c3).
  rewrite pack_uint_in by (simpl; lia). f_equal. apply le_split_4. unfold u8 in *. lia.
Qed.

Lemma pack_hack_nil : pack_hack [] = Ok [].
Proof. reflexivity. Qed.

Lemma pack_hack_cons c0 c1 c2 c3 l :
  pack_hack (c0 :: c1 :: c2 :: c3 :: l) = ((fun r => [c1; c0; c3; c2] ++ r) <$> pack_hack l).
Proof.
  unfold pack_hack. rewrite chunks_4_cons, mapM_cons.
  change (ljust [c0; c1; c2; c3] 4 x00) with [c0; c1; c2; c3]. rewrite pack_hack_word.
  cbn [mbind res_bind]. by destruct (mapM _ (chunks 4 l)).
Qed.

Lemma pack_hack_short l :
  (0 < length l <= 3)%nat ->
  pack_hack l = match ljust l 4 x00 with
                | [c0; c1; c2; c3] => Ok [c1; c0; c3; c2] | _ => Ok [] end.
Proof.
  destruct l as [|a [|c [|e [|]]]]; simpl; try lia; intros _; unfold pack_hack;
    rewrite chunks_step by done; rewrite mapM_cons; cbn -[hack_word pack_uint mbind];
    match goal with |- context [ljust (take ?k ?l) 4 ?z] =>
      let v := eval cbv in (ljust (take k l) 4 z) in change (ljust (take k l) 4 z) with v end;
    rewrite pack_hack_word; done.
Qed.

(** [pack_hack] never raises. *)
Lemma pack_hack_total p : exists q, pack_hack p = Ok q /\ len q = 4 * cdiv (len p) 4.
Proof.
  induction p as [|a|a c|a c e|a c e g l IH] using list_four_ind.
  1: by exists [].
  1-3: eexists; split; [rewrite pack_hack_short by (simpl; lia); reflexivity | reflexivity].
  destruct IH as (q & Hq & Hl). rewrite pack_hack_cons, Hq. eexists. split; [reflexivity|].
  rewrite len_app, Hl. rewrite !len_cons. rewrite !(len_nil (A := byte)).
  assert (cdiv (1 + (1 + (1 + (1 + len l)))) 4 = cdiv (len l) 4 + 1) as ->; [|lia].
  apply cdiv_unique; [lia|]. pose proof (cdiv_spec (len l) 4). lia.
Qed.

Lemma land_even_2 k : Z.land (2 * k) 2 = 2 * (k mod 2).
Proof.
  transitivity (Z.land (Z.shiftl k 1) (Z.shiftl 1 1)); [rewrite !shiftl_mul by lia; f_equal; lia|].
  rewrite <- Z.shiftl_land, (land_mask k 1) by lia. rewrite shiftl_mul by lia.
  change (2 ^ 1) with 2. lia.
Qed.

(** [hack_fetch] in arithmetic, for a [pc] inside the segment. *)
Lemma hack_fetch_arith seg k :
  0 <= k < 2 ^ 15 ->
  hack_fetch seg (2 * k) =
    (if k mod 2 =? 1 then unpack_uint 4 (4 * (k / 2)) seg / 2 ^ 16
     else unpack_uint 4 (4 * (k / 2)) seg mod 2 ^ 16).
Proof.
  intros Hk. unfold hack_fetch.
  rewrite (land_mask (2 * k) 16 0xFFFF) by lia. rewrite (Z.mod_small (2 * k)) by lia.
  rewrite !shiftr_div by lia. replace (2 * k / 2 ^ 2) with (k / 2) by (change (2 ^ 2) with 4; dlia).
  rewrite (land_mask (unpack_uint _ _ _) 16) by lia.
  rewrite land_even_2.
  pose proof (Z.mod_pos_bound k 2).
  destruct (k mod 2 =? 1) eqn:E.
  - apply Z.eqb_eq in E. by rewrite E.
  - apply Z.eqb_neq in E. by replace (k mod 2) with 0 by lia.
Qed.

(** Instruction [k] of a Hack binary: two bytes, big-endian; past the end 0. *)
Definition hack_instr (p : bytes) (k : Z) : Z :=
  2 ^ 8 * u8 (nth (Z.to_nat (2 * k)) p x00) + u8 (nth (Z.to_nat (2 * k + 1)) p x00).

Lemma hack_instr_skip a c e g p k :
  2 <= k -> hack_instr (a :: c :: e :: g :: p) k = hack_instr p (k - 2).
Proof.
  intros. unfold hack_instr.
  replace (Z.to_nat (2 * k)) with (4 + Z.to_nat (2 * (k - 2)))%nat by lia.
  replace (Z.to_nat (2 * k + 1)) with (4 + Z.to_nat (2 * (k - 2) + 1))%nat by lia. done.
Qed.

Lemma unpack_skip_word a c e g q i :
  4 <= i -> unpack_uint 4 i (a :: c :: e :: g :: q) = unpack_uint 4 (i - 4) q.
Proof.
  intros. unfold unpack_uint.
  change (a :: c :: e :: g :: q) with ([a; c; e; g] ++ q).
  rewrite slice_app_r by (unfold len; simpl; lia). f_equal. f_equal; unfold len; simpl; lia.
Qed.

Lemma word_halves c0 c1 c2 c3 q :
  unpack_uint 4 0 (c1 :: c0 :: c3 :: c2 :: q) =
    2 ^ 16 * (2 ^ 8 * u8 c2 + u8 c3) + (2 ^ 8 * u8 c0 + u8 c1).
Proof.
  unfold unpack_uint, slice. change (take _ _) with [c1; c0; c3; c2].
  rewrite le_combine_4. unfold u8. lia.
Qed.

(** The two halves of a word, as the first two instructions. *)
Lemma halves_of_word c0 c1 c2 c3 q k :
  k = 0 \/ k = 1 ->
  (if k mod 2 =? 1 then unpack_uint 4 (4 * (k / 2)) (c1 :: c0 :: c3 :: c2 :: q) / 2 ^ 16
   else unpack_uint 4 (4 * (k / 2)) (c1 :: c0 :: c3 :: c2 :: q) mod 2 ^ 16)
  = if k =? 0 then 2 ^ 8 * u8 c0 + u8 c1 else 2 ^ 8 * u8 c2 + u8 c3.
Proof.
  pose proof (u8_range c0). pose proof (u8_range c1).
  intros [-> | ->]; simpl (_ mod 2 =? 1); simpl (4 * _); simpl (_ =? 0); cbn iota;
    rewrite word_halves; set (hi := 2 ^ 8 * u8 c2 + u8 c3);
    set (lo := 2 ^ 8 * u8 c0 + u8 c1) in *;
    replace (2 ^ 16 * hi + lo) with (lo + hi * 2 ^ 16) by lia.
  - rewrite Z.mod_add by lia. apply Z.mod_small. lia.
  - rewrite Z.div_add by lia. rewrite Z.div_small by lia. lia.
Qed.

Lemma pack_hack_halves p q k :
  pack_hack p = Ok q -> 0 <= k -> 2 * k < len p ->
  (if k mod 2 =? 1 then unpack_uint 4 (4 * (k / 2)) q / 2 ^ 16
   else unpack_uint 4 (4 * (k / 2)) q mod 2 ^ 16) = hack_instr p k.
Proof.
  revert q k. induction p as [|a|a c|a c e|a c e g p IH] using list_four_ind; intros q k Hq Hk Hlen.
  - unfold len in Hlen. simpl in Hlen. lia.
  - rewrite pack_hack_short in Hq by (simpl; lia). apply Ok_inj in Hq as <-.
    unfold len in Hlen. simpl in Hlen. assert (k = 0) as -> by lia.
    by rewrite halves_of_word by lia.
  - rewrite pack_hack_short in Hq by (simpl; lia). apply Ok_inj in Hq as <-.
    unfold len in Hlen. simpl in Hlen. assert (k = 0) as -> by lia.
    by rewrite halves_of_word by lia.
  - rewrite pack_hack_short in Hq by (simpl; lia). apply Ok_inj in Hq as <-.
    unfold len in Hlen. simpl in Hlen. assert (k = 0 \/ k = 1) as Hk01 by lia.
    rewrite halves_of_word by done. by destruct Hk01 as [-> | ->].
  - rewrite pack_hack_cons in Hq. destruct (pack_hack p) as [q'|] eqn:Eq; [|done].
    apply Ok_inj in Hq as <-. simpl app.
    destruct (Z.lt_ge_cases k 2).
    + assert (k = 0 \/ k = 1) as Hk01 by lia.
      rewrite halves_of_word by done. by destruct Hk01 as [-> | ->].
    + rewrite unpack_skip_word by (pose proof (Z.div_mod k 2); pose proof (Z.mod_pos_bound k 2); lia).
      rewrite hack_instr_skip by lia. rewrite <- (IH q') by (try done; rewrite !len_cons in Hlen; lia).
      replace (k mod 2) with ((k - 2) mod 2) by dlia.
      by replace (4 * (k / 2) - 4) with (4 * ((k - 2) / 2)) by dlia.
Qed.

(** In Hack mode the CPU fetches, from the packed image, exactly the binary's big-endian
    instructions in order: the word at [pc], its low half at an even instruction and its high
    half at an odd one. *)
Theorem pack_hack_fetch (p q : bytes) (k : Z) :
  pack_hack p = Ok q -> 0 <= k -> 2 * k < len p -> len p <= 2 ^ 16 ->
  hack_fetch q (2 * k) = hack_instr p k.
Proof.
  intros Hq Hk Hlen Hmax. rewrite hack_fetch_arith by lia. by apply pack_hack_halves.
Qed.

(** ** The packers agree *)

Lemma hack_pair c0 c1 c2 c3 :
  le_split 4 (Z.lor (2 ^ 8 * u8 c0 + u8 c1) (Z.shiftl (2 ^ 8 * u8 c2 + u8 c3) 16)) = [c1; c0; c3; c2].
Proof.
  pose proof (u8_range c0). pose proof (u8_range c1).
  rewrite Z.lor_comm, lor_shiftl_add by lia. apply le_split_4. unfold u8. lia.
Qed.

(** On every image of whole instructions the host's packer writes the bytes the
    emulator's own loader puts into Hack's instruction segment. *)
Theorem pack_hack_emulator (p : bytes) :
  Z.even (len p) = true ->
  exists q, emu_hack_words p = Some q /\ pack_hack p = Ok q.
Proof.
  induction p as [|a|a c|a c e|a c e g p IH] using list_four_ind; intros He; try discriminate.
  - by exists [].
  - exists [c; a; x00; x00]. split; [|by rewrite pack_hack_short by (simpl; lia)].
    simpl emu_hack_words. f_equal. apply le_split_4. unfold u8. change (byte.unsigned x00) with 0. lia.
  - destruct IH as (q & Hq & Hp).
    { rewrite !len_cons in He. by rewrite !Z.add_assoc, Z.even_add in He; destruct (Z.even (len p)). }
    exists ([c; a; g; e] ++ q). rewrite pack_hack_cons, Hp. split; [|done].
    cbn [emu_hack_words]. rewrite Hq, hack_pair. done.
Qed.

Lemma hack_word_range c0 c1 c2 c3 w : hack_word [c0; c1; c2; c3] = Ok w -> 0 <= w < 2 ^ 32.
Proof.
  rewrite hack_word_4. intros H%Ok_inj. subst w.
  pose proof (u8_range c0). pose proof (u8_range c1). pose proof (u8_range c2). pose proof (u8_range c3). lia.
Qed.

Lemma pad4_ljust chunk : pad4 chunk = ljust chunk 4 x00.
Proof.
  unfold pad4, ljust, zeros. destruct (len chunk <? 4) eqn:E; [done|].
  apply Z.ltb_ge in E. replace (Z.to_nat (4 - len chunk)) with 0%nat by lia.
  by rewrite app_nil_r.
Qed.

(** Words and their bytes, over the chunks of a list. *)
Lemma image_bytes_cons w ws :
  0 <= w < 2 ^ 32 -> hack_image_bytes (w :: ws) = ((fun r => le_split 4 w ++ r) <$> hack_image_bytes ws).
Proof.
  intros Hw. unfold hack_image_bytes. rewrite mapM_cons, pack_uint_in by exact Hw.
  cbn [mbind res_bind]. by destruct (mapM (pack_uint 4) ws).
Qed.

(** A function of chunks whose values' bytes are known piecewise. *)
Lemma chunk_words (f : bytes -> res Z) (g : bytes -> bytes) (out : bytes -> res bytes) :
  (forall c, (0 < length c <= 4)%nat -> exists w, f c = Ok w /\ 0 <= w < 2 ^ 32 /\ le_split 4 w = g c) ->
  (forall d, d <> [] -> out d = ((fun r => g (take 4 d) ++ r) <$> out (drop 4 d))) -> out [] = Ok [] ->
  forall d, (mapM f (chunks 4 d) ≫= hack_image_bytes) = out d.
Proof.
  intros Hf Hout H0 d. induction d as [|d Hd IH] using (chunk_ind 4 ltac:(lia)).
  - by rewrite H0.
  - rewrite (chunks_step 4 d), mapM_cons by (done || lia). rewrite (Hout d) by done.
    change (Z.to_nat 4) with 4%nat in *.
    destruct (Hf (take 4 d)) as (w & Hw & Hr & Hs).
    { rewrite length_take. destruct d; [done|]. cbn [length]. lia. }
    rewrite Hw, <- Hs. cbn [mbind res_bind]. rewrite <- IH.
    destruct (mapM f (chunks 4 (drop 4 d))) as [ws|e]; [|done].
    cbn [mbind res_bind mret res_ret]. by apply image_bytes_cons.
Qed.

Definition swap4 (c : bytes) : bytes :=
  match ljust c 4 x00 with [c0; c1; c2; c3] => [c1; c0; c3; c2] | _ => [] end.

(** Case analysis on a chunk: one to four bytes. *)
Ltac chunk_cases c :=
  destruct c as [|? [|? [|? [|? [|]]]]]; cbn [length] in *; try lia.

Lemma hack_word_swap4 c :
  (0 < length c <= 4)%nat ->
  exists w, hack_word (ljust c 4 x00) = Ok w /\ 0 <= w < 2 ^ 32 /\ le_split 4 w = swap4 c.
Proof.
  intros Hc. unfold swap4.
  assert (exists c0 c1 c2 c3, ljust c 4 x00 = [c0; c1; c2; c3]) as (c0 & c1 & c2 & c3 & ->).
  { chunk_cases c; repeat eexists. }
  rewrite hack_word_4. eexists. split; [reflexivity|]. split; [by eapply hack_word_range, hack_word_4|].
  apply le_split_4. unfold u8. lia.
Qed.

Lemma pack_hack_step d :
  d <> [] -> pack_hack d = ((fun r => swap4 (take 4 d) ++ r) <$> pack_hack (drop 4 d)).
Proof.
  intros Hd. destruct d as [|c0 [|c1 [|c2 [|c3 d]]]]; [done|..].
  1-3: by rewrite pack_hack_short by (simpl; lia).
  rewrite pack_hack_cons. done.
Qed.

(** Bin2hex's Hack words, written out as bytes, are the image [pack_hack] makes: the hex
    preload and the v4 file hold the same program, whatever the binary's length. *)
Theorem bin2hex_pack_hack (d : bytes) :
  (bin2hex_words d (Some true) ≫= hack_image_bytes) = pack_hack d.
Proof.
  unfold bin2hex_words. simpl detect_hack. cbn iota.
  apply (chunk_words _ swap4); [|apply pack_hack_step|done].
  intros c Hc. rewrite pad4_ljust. by apply hack_word_swap4.
Qed.

Definition pad_words (d : bytes) : bytes := d ++ zeros ((- len d) mod 4).

Lemma pad_words_step d :
  d <> [] -> pad_words d = ljust (take 4 d) 4 x00 ++ pad_words (drop 4 d).
Proof.
  intros Hd. unfold pad_words.
  destruct d as [|c0 [|c1 [|c2 [|c3 d]]]]; [done|reflexivity..|].
  change (take 4 _) with [c0; c1; c2; c3]. change (drop 4 _) with d.
  change (ljust [c0; c1; c2; c3] 4 x00) with [c0; c1; c2; c3]. rewrite !len_cons. simpl app.
  do 4 f_equal. f_equal. f_equal. dlia.
Qed.

(** Bin2hex's RV32 words are the binary's little-endian words, the last one padded with
    zeros: written out as bytes they give the binary back. *)
Theorem bin2hex_rv32_roundtrip (d : bytes) :
  (bin2hex_words d (Some false) ≫= hack_image_bytes) = Ok (pad_words d).
Proof.
  unfold bin2hex_words. simpl detect_hack. cbn iota.
  apply (chunk_words _ (fun c => ljust c 4 x00) (fun d => Ok (pad_words d))); [| |done].
  - intros c Hc. exists (le_combine (pad4 c)). rewrite pad4_ljust. unfold unpack_u32.
    assert (len (ljust c 4 x00) = 4) as Hl by (rewrite len_ljust; unfold len; lia).
    rewrite Hl. split; [done|]. pose proof (le_combine_range (ljust c 4 x00)) as Hr.
    rewrite Hl in Hr. split; [done|]. apply le_split_combine. unfold len in Hl. lia.
  - intros d' Hd. by rewrite pad_words_step.
Qed.

(** ** Hex lines *)

Lemma list_ascii_app s t :
  list_ascii_of_string (s ++ t)%string = list_ascii_of_string s ++ list_ascii_of_string t.
Proof. induction s; simpl; [done|]. by rewrite IHs. Qed.

Lemma hex_digit_value d : 0 <= d < 16 -> hex_value (hex_digit d) = Some d /\ is_space (hex_digit d) = false.
Proof.
  intros Hd.
  assert (forallb (fun k => bool_decide (hex_value (hex_digit (Z.of_nat k)) = Some (Z.of_nat k))
    && negb (is_space (hex_digit (Z.of_nat k)))) (seq 0 16) = true) as H by (vm_compute; done).
  rewrite forallb_forall in H. specialize (H (Z.to_nat d)).
  rewrite Z2Nat.id in H by lia. rewrite in_seq in H.
  assert (0 <= Z.to_nat d < 0 + 16)%nat as Hs by lia.
  apply H, andb_true_iff in Hs as [H1%bool_decide_eq_true H2%negb_true_iff]. done.
Qed.

Definition hex_digits (n : nat) (w : Z) : list ascii :=
  map (fun i => hex_digit (Z.land (Z.shiftr w (4 * Z.of_nat i)) 15)) (rev (seq 0 n)).

Lemma hex_digits_S n w :
  hex_digits (S n) w = hex_digit ((w / 16 ^ Z.of_nat n) mod 16) :: hex_digits n w.
Proof.
  unfold hex_digits. rewrite seq_S, rev_app_distr. simpl. f_equal. f_equal.
  rewrite (land_mask _ 4), shiftr_div by lia. f_equal. f_equal.
  rewrite Z.pow_mul_r by lia. done.
Qed.

Lemma parse_hex_digits n w acc :
  parse_hex acc (hex_digits n w) = Some (acc * 16 ^ Z.of_nat n + w mod 16 ^ Z.of_nat n).
Proof.
  revert acc. induction n as [|n IH]; intros acc.
  - simpl. by rewrite Z.mod_1_r, Z.mul_1_r, Z.add_0_r.
  - rewrite hex_digits_S. simpl parse_hex.
    destruct (hex_digit_value ((w / 16 ^ Z.of_nat n) mod 16)) as [-> _];
      [apply Z.mod_pos_bound; lia|].
    rewrite IH. f_equal. rewrite Nat2Z.inj_succ, Z.pow_succ_r by lia.
    rewrite (Z.mul_comm 16 (16 ^ _)), (Z.rem_mul_r w (16 ^ Z.of_nat n) 16); lia.
Qed.

Lemma hex_digits_nospace n w : forallb (fun c => negb (is_space c)) (hex_digits n w) = true.
Proof.
  induction n as [|n IH]; [done|]. rewrite hex_digits_S. simpl. rewrite IH.
  destruct (hex_digit_value ((w / 16 ^ Z.of_nat n) mod 16)) as [_ ->]; [|done].
  apply Z.mod_pos_bound. lia.
Qed.

Lemma drop_spaces_nospace l k :
  forallb (fun c => negb (is_space c)) l = true -> l <> [] -> drop_spaces (l ++ k) = l ++ k.
Proof.
  destruct l as [|c l]; [done|]. simpl. intros [Hc _]%andb_true_iff _.
  apply negb_true_iff in Hc. by rewrite Hc.
Qed.

(** A line's digits, however wide, without its newline. *)
Lemma strip_hex_line w :
  exists n, (8 <= n)%nat /\ 16 ^ Z.of_nat n > w /\ strip (hex_line w) = hex_digits n w.
Proof.
  exists (Nat.max 8 (Z.to_nat (Z.log2 w / 4 + 1))). split; [lia|]. split.
  - destruct (Z.le_gt_cases w 0); [pose proof (Z.pow_pos_nonneg 16); lia|].
    pose proof (Z.log2_spec w ltac:(lia)) as [_ Hw].
    change 16 with (2 ^ 4). rewrite <- Z.pow_mul_r by lia.
    apply Z.lt_gt. eapply Z.lt_le_trans; [exact Hw|]. apply Z.pow_le_mono_r; [lia|].
    pose proof (Z.log2_nonneg w). dlia.
  - unfold strip, hex_line, fmt_hex, newline. rewrite list_ascii_app, list_ascii_of_string_of_list_ascii.
    change (map _ (rev (seq 0 _))) with (hex_digits (Nat.max 8 (Z.to_nat (Z.log2 w / 4 + 1))) w).
    generalize (Nat.max 8 (Z.to_nat (Z.log2 w / 4 + 1))).
    intros n. destruct n as [|n]; [done|].
    pose proof (hex_digits_nospace (S n) w) as Hn.
    rewrite drop_spaces_nospace by (try done; by rewrite hex_digits_S).
    rewrite rev_app_distr. change (list_ascii_of_string _) with ["010"%char].
    change (rev ["010"%char] ++ rev (hex_digits (S n) w))
      with ("010"%char :: rev (hex_digits (S n) w)).
    change (drop_spaces ("010"%char :: rev (hex_digits (S n) w)))
      with (drop_spaces (rev (hex_digits (S n) w))).
    rewrite <- (app_nil_r (rev (hex_digits (S n) w))), drop_spaces_nospace.
    + by rewrite app_nil_r, rev_involutive.
    + rewrite forallb_forall in *. intros c Hc. apply Hn. by rewrite in_rev.
    + intros E. apply (f_equal (@length ascii)) in E.
      rewrite length_rev, hex_digits_S in E. done.
Qed.

Lemma int16_hex_line w : 0 <= w -> int16 (hex_line w) = Ok w.
Proof.
  intros Hw. destruct (strip_hex_line w) as (n & Hn & Hlt & Hs).
  destruct n as [|n]; [lia|]. pose proof (parse_hex_digits (S n) w 0) as Hp.
  unfold int16. rewrite Hs. rewrite hex_digits_S in Hp |- *. cbn iota. rewrite Hp.
  by rewrite Z.mul_0_l, Z.add_0_l, Z.mod_small by lia.
Qed.

(** Reading back the lines written for any words gives the words: the hex files
    scripts/bin2hex.py and scripts/merge_firmware_hex.py write lose nothing. *)
Theorem hex_lines_roundtrip (ws : list Z) :
  Forall (fun w => 0 <= w) ws -> hex_words (map hex_line ws) = Ok ws.
Proof.
  unfold hex_words. induction 1 as [|w ws Hw Hws IH]; [done|]. simpl map.
  rewrite filter_cons_True.
  - rewrite mapM_cons, int16_hex_line, IH by done. done.
  - destruct (strip_hex_line w) as (n & Hn & _ & Hs). rewrite Hs.
    destruct n as [|n]; [lia|]. by rewrite hex_digits_S.
Qed.

(** ** The boot ROM's hex file *)

Lemma pad_words_aligned d : len (pad_words d) mod 4 = 0.
Proof.
  unfold pad_words. pose proof (Z.mod_pos_bound (- len d) 4).
  rewrite len_app, len_zeros by lia. dlia.
Qed.

(** The chunks of an aligned image are whole words. *)
Lemma chunks_4_whole (d : bytes) : len d mod 4 = 0 -> Forall (fun c => len c = 4) (chunks 4 d).
Proof.
  induction d as [|a|a c|a c e|a c e g l IH] using list_four_ind; intros Hd; try discriminate.
  - constructor.
  - rewrite chunks_4_cons. constructor; [done|]. apply IH. rewrite !len_cons in Hd. dlia.
Qed.

(** Overlaying whole words replaces the list's words from [i] on. *)
Lemma overlay_words_spec cs i words :
  Forall (fun c => len c = 4) cs -> (i + length cs <= length words)%nat ->
  overlay_words i cs words = Ok (take i words ++ map le_combine cs ++ drop (i + length cs) words).
Proof.
  intros Hcs. revert i words. induction Hcs as [|c cs Hc Hcs IH]; intros i words Hi; cbn [length map] in *.
  - simpl. by rewrite Nat.add_0_r, take_drop.
  - cbn [overlay_words]. unfold unpack_u32, setitem. rewrite Hc. cbn [mbind res_bind].
    replace (4 =? 4) with true by done. cbn [mbind res_bind].
    replace (i <? length words)%nat with true by (symmetry; apply Nat.ltb_lt; lia). cbn [mbind res_bind].
    rewrite IH by (rewrite length_insert; lia). f_equal.
    rewrite (take_S_r _ _ (le_combine c)) by (apply list_lookup_insert_eq; lia).
    rewrite take_insert_ge by lia. rewrite <- app_assoc. simpl app. do 3 f_equal.
    rewrite drop_insert_lt by lia. f_equal. lia.
Qed.

(** The boot ROM's hex file holds the image's little-endian words from word 0, the last
    one padded with zeros, and a NOP in every word after them, 4096 in all; an image longer
    than 16 KB exits and writes nothing. *)
Theorem merge_hex_words (data : bytes) :
  merge_hex data =
    if WORDS * 4 <? len data then Raise SystemExit
    else Ok (map le_combine (chunks 4 (pad_words data)) ++
             replicate (Z.to_nat (WORDS - cdiv (len data) 4)) NOP).
Proof.
  unfold merge_hex, WORDS. destruct (4096 * 4 <? len data) eqn:E; [done|]. apply Z.ltb_ge in E.
  fold (pad_words data). pose proof (chunks_4_whole _ (pad_words_aligned data)) as Hw.
  pose proof (len_chunks 4 (pad_words data)) as Hl.
  assert (cdiv (len (pad_words data)) 4 = cdiv (len data) 4) as Hc.
  { apply cdiv_unique; [lia|]. unfold pad_words. pose proof (Z.mod_pos_bound (- len data) 4).
    rewrite len_app, len_zeros by lia. pose proof (cdiv_spec (len data) 4). dlia. }
  rewrite Hc in Hl. unfold len at 1 in Hl. pose proof (cdiv_spec (len data) 4).
  rewrite overlay_words_spec by (try done; rewrite length_replicate; lia).
  rewrite take_0, drop_replicate. simpl app. do 3 f_equal. lia.
Qed.

(** ** ELF segments *)

(** [data]'s byte at image position [i] in segment [p]: [None] outside the segment, and when
    the loop skips it. *)
Definition segment_byte (data : bytes) (base : option Z) (p : Phdr) (i : Z) : option byte :=
  rel ← rel_offset base p;
  if (rel <=? i) && (i <? rel + p_filesz p)
  then Some (nth (Z.to_nat (p_offset p + (i - rel))) data x00) else None.

(** The image's byte at [i]: the last segment's that holds it, zero where none does. *)
Definition image_byte (data : bytes) (base : option Z) (ps : list Phdr) (i : Z) : byte :=
  fold_left (fun acc p => default acc (segment_byte data base p i)) ps x00.

(** The image's length: the furthest end of a segment. *)
Definition image_len (base : option Z) (ps : list Phdr) : Z :=
  fold_left (fun acc p => match rel_offset base p with
    | Some rel => Z.max acc (rel + p_filesz p) | None => acc end) ps 0.

(** A segment whose fields are unsigned and whose bytes are all in the file. *)
Definition complete (data : bytes) (p : Phdr) : bool :=
  (0 <=? p_offset p) && (0 <=? p_filesz p) && (0 <=? p_paddr p)
  && (p_offset p + p_filesz p <=? len data).

Lemma rel_offset_pos base p rel : 0 <= p_paddr p -> rel_offset base p = Some rel -> 0 <= rel.
Proof.
  unfold rel_offset. intros Hp. destruct (_ || _); [done|]. destruct base as [bs|].
  - destruct (p_paddr p <? bs) eqn:E; [done|]. intros [= <-]. lia.
  - destruct (_ <? _); [|done]. by intros [= <-].
Qed.

Lemma len_place_segment data base image p :
  complete data p = true ->
  len (place_segment data base image p) =
    match rel_offset base p with Some rel => Z.max (len image) (rel + p_filesz p) | None => len image end.
Proof.
  unfold complete. intros H. rewrite !andb_true_iff, !Z.leb_le in H.
  unfold place_segment. destruct (rel_offset base p) as [rel|] eqn:E; [|done].
  apply rel_offset_pos in E; [|lia].
  assert (len (slice data (p_offset p) (p_offset p + p_filesz p)) = p_filesz p) as Hs
    by (rewrite len_slice; lia).
  rewrite <- Hs at 3. pose proof (len_nonneg image).
  destruct (_ <? _) eqn:E2.
  - apply Z.ltb_lt in E2. rewrite len_slice_assign; rewrite ?len_app, ?len_zeros; lia.
  - apply Z.ltb_ge in E2. rewrite len_slice_assign; lia.
Qed.

(** Bytes of a list whose slice was replaced by one of the same length. *)
Lemma nth_slice_assign (l v : bytes) i k d :
  0 <= i -> i + len v <= len l -> 0 <= k ->
  nth (Z.to_nat k) (slice_assign l i (i + len v) v) d =
    if (i <=? k) && (k <? i + len v) then nth (Z.to_nat (k - i)) v d else nth (Z.to_nat k) l d.
Proof.
  intros Hi Hl Hk. unfold slice_assign, len in *.
  assert (length (take (Z.to_nat i) l) = Z.to_nat i) as Ht by (rewrite length_take; lia).
  destruct (Z.le_gt_cases i k) as [H1|H1].
  - rewrite app_nth2 by lia. rewrite Ht. replace (i <=? k) with true by lia. cbn [andb].
    destruct (k <? i + Z.of_nat (length v)) eqn:E2.
    + rewrite app_nth1 by lia. f_equal. lia.
    + rewrite app_nth2 by lia.
      replace (Z.to_nat k) with (Z.to_nat ((i + Z.of_nat (length v)) + (k - i - Z.of_nat (length v)))) at 2
        by lia.
      rewrite nth_drop_Z by lia. f_equal. lia.
  - rewrite app_nth1 by lia. replace (i <=? k) with false by lia. cbn [andb].
    rewrite <- (take_drop (Z.to_nat i) l) at 2. by rewrite app_nth1 by lia.
Qed.

Lemma nth_zero_extend (image : bytes) n k :
  nth k (if len image <? n then image ++ zeros (n - len image) else image) x00 = nth k image x00.
Proof.
  destruct (_ <? _); [|done]. destruct (Nat.lt_ge_cases k (length image)).
  - by rewrite app_nth1.
  - rewrite app_nth2 by lia. unfold zeros. rewrite (nth_overflow image) by lia.
    generalize (k - length image)%nat, (Z.to_nat (n - len image)). intros a m.
    revert a. induction m; intros [|a]; simpl; auto.
Qed.

Lemma nth_slice (l : bytes) i j k d :
  0 <= i -> 0 <= k -> i + k < j -> nth (Z.to_nat k) (slice l i j) d = nth (Z.to_nat (i + k)) l d.
Proof.
  intros. unfold slice. rewrite nth_drop_Z by lia.
  generalize (drop (Z.to_nat i) l) as m. intros m. rewrite <- (take_drop (Z.to_nat (j - i)) m) at 2.
  destruct (Nat.lt_ge_cases (Z.to_nat k) (length (take (Z.to_nat (j - i)) m))) as [Hk|Hk].
  - by rewrite app_nth1.
  - rewrite nth_overflow by lia. rewrite app_nth2 by lia.
    rewrite length_take in *. rewrite nth_overflow; [done|]. rewrite length_drop. lia.
Qed.

Lemma nth_place_segment data base image p i :
  complete data p = true -> 0 <= i ->
  nth (Z.to_nat i) (place_segment data base image p) x00 =
    default (nth (Z.to_nat i) image x00) (segment_byte data base p i).
Proof.
  unfold complete. intros H Hi. rewrite !andb_true_iff, !Z.leb_le in H.
  unfold place_segment, segment_byte. destruct (rel_offset base p) as [rel|] eqn:E; [|done].
  apply rel_offset_pos in E; [|lia]. cbn [mbind option_bind].
  assert (len (slice data (p_offset p) (p_offset p + p_filesz p)) = p_filesz p) as Hs
    by (rewrite len_slice; lia).
  set (im := if _ <? _ then _ else _).
  assert (rel + p_filesz p <= len im) as Him.
  { unfold im. destruct (len image <? _) eqn:E2; [|lia].
    rewrite len_app, len_zeros by lia. lia. }
  rewrite <- Hs at 1. rewrite nth_slice_assign by (rewrite ?Hs; lia). rewrite Hs.
  destruct ((rel <=? i) && (i <? rel + p_filesz p)) eqn:E2.
  - cbn [default]. apply nth_slice; lia.
  - apply nth_zero_extend.
Qed.

(** The program header at index [i] of the table. *)
Definition phdr_at (data : bytes) (phoff phentsize : Z) (i : nat) : res Phdr :=
  unpack_phdr (slice data (phoff + Z.of_nat i * phentsize) (phoff + Z.of_nat i * phentsize + 32)).

(** The program headers of an ELF file, in order. *)
Definition elf_phdrs (data : bytes) : res (list Phdr) :=
  phoff ← unpack_u32 (slice data 0x1C 0x20);
  phentsize ← unpack_u16 (slice data 0x2A 0x2C);
  phnum ← unpack_u16 (slice data 0x2C 0x2E);
  mapM (phdr_at data phoff phentsize) (seq 0 (Z.to_nat phnum)).

(** The loop is a fold over the headers it reads. *)
Lemma elf_segments_fold data base phoff phentsize n i image :
  elf_segments data base phoff phentsize i n image =
    (fun ps => fold_left (place_segment data base) ps image) <$>
      mapM (phdr_at data phoff phentsize) (seq i n).
Proof.
  revert i image. induction n as [|n IH]; intros i image; [done|].
  cbn [elf_segments seq]. rewrite mapM_cons.
  fold (phdr_at data phoff phentsize i).
  destruct (phdr_at data phoff phentsize i) as [p|e]; [|done]. cbn [mbind res_bind].
  rewrite IH. by destruct (mapM (phdr_at data phoff phentsize) (seq (S i) n)).
Qed.

Lemma image_bytes_fold data base ps image :
  Forall (fun p => complete data p = true) ps ->
  (forall i, 0 <= i -> nth (Z.to_nat i) (fold_left (place_segment data base) ps image) x00 =
     fold_left (fun acc p => default acc (segment_byte data base p i)) ps (nth (Z.to_nat i) image x00))
  /\ len (fold_left (place_segment data base) ps image) =
     fold_left (fun acc p => match rel_offset base p with
       | Some rel => Z.max acc (rel + p_filesz p) | None => acc end) ps (len image).
Proof.
  intros H. revert image. induction H as [|p ps Hp Hps IH]; intros image; [done|]. simpl.
  destruct (IH (place_segment data base image p)) as [IHb IHl]. split.
  - intros i Hi. by rewrite IHb, nth_place_segment.
  - by rewrite IHl, len_place_segment.
Qed.

(** The image [elf2bin] extracts reaches to the end of the furthest segment it takes, and
    each of its bytes is the one of the last segment placed there, or zero in a gap; the
    segments are the program headers in order, each with its bytes inside the file. *)
Theorem elf2bin_image (data : bytes) (base : option Z) (ps : list Phdr) :
  slice data 0 4 = ELF_MAGIC -> elf_phdrs data = Ok ps ->
  Forall (fun p => complete data p = true) ps ->
  exists image, elf2bin data base = Ok image /\ len image = image_len base ps /\
    forall i, 0 <= i -> nth (Z.to_nat i) image x00 = image_byte data base ps i.
Proof.
  unfold elf_phdrs. intros Hm Hps Hc. unfold elf2bin. rewrite bool_decide_true by done.
  destruct (unpack_u32 (slice data 0x1C 0x20)) as [phoff|]; [|done]. cbn [mbind res_bind] in *.
  destruct (unpack_u16 (slice data 0x2A 0x2C)) as [phentsize|]; [|done]. cbn [mbind res_bind] in *.
  destruct (unpack_u16 (slice data 0x2C 0x2E)) as [phnum|]; [|done]. cbn [mbind res_bind] in *.
  rewrite elf_segments_fold, Hps. eexists. split; [reflexivity|].
  destruct (image_bytes_fold data base ps [] Hc) as [Hb Hl]. split; [exact Hl|].
  intros i Hi. rewrite Hb by done. by destruct (Z.to_nat i).
Qed.

(** ** Built images boot *)

(** The header as it is read back: its name is the 32-byte field. *)
Definition stored_header (h : ImageHeader) : ImageHeader :=
  mkHeader (mode h) (size h) (crc32 h) (name_field (name h)) (version h) (load_addr h) (entry_point h).

(** What a file built without overrides consists of. *)
Lemma build_inv src nm is_hack ver load entry file h :
  build_vux9_v4_image src nm is_hack ver load entry None None = Ok (file, h) ->
  exists hd payload, file = hd ++ payload /\ len hd = 64 /\ size h = len payload /\
    crc32 h = binascii_crc32 payload /\ mode h = (if is_hack then MODE_HACK else MODE_RISCV) /\
    version h = ver /\ (forall rest, Fw.parse (hd ++ rest) = Some (stored_header h)) /\
    (if is_hack then pack_hack src.1 = Ok payload else payload = src.1) /\
    load_addr h = match load with Some a => a | None => if is_hack then 0 else XMEM_BASE end /\
    entry_point h = match entry with Some e => e | None => load_addr h end.
Proof.
  unfold build_vux9_v4_image. destruct src as [payload0 dn]. intros Hb.
  set (m := if is_hack then MODE_HACK else MODE_RISCV) in *.
  destruct (if m =? MODE_HACK then pack_hack payload0 else Ok payload0) as [payload|] eqn:Epay; [|done].
  cbn [mbind res_bind] in Hb.
  destruct (pack _ _ _ _) as [hd|] eqn:Hp; [|done]. cbn [mbind res_bind] in Hb.
  apply Ok_inj in Hb. injection Hb as <- Hh. rewrite Hh in Hp.
  pose proof (pack_inv _ _ _ _ _ Hp) as Hf. rewrite (pack_fits _ _ _ _ Hf) in Hp.
  apply Ok_inj in Hp. exists hd, payload. split; [done|]. split.
  { rewrite <- Hp. autorewrite with lens. reflexivity. }
  split; [by subst h|]. split.
  { subst h. cbn [crc32]. pose proof (u32_binascii_crc32 payload). unfold u32 in *.
    by rewrite (land_mask _ 32), Z.mod_small by lia. }
  split; [by subst h|]. split; [by subst h|]. split.
  { intros rest. rewrite fw_parse_same, <- Hp. unfold stored_header.
    destruct h as [hm hs hc hn hv hl he]. cbn [mode size crc32 name version load_addr entry_point] in *.
    rewrite parse_packed; [reflexivity|exact Hf|apply len_name_field]. }
  split; [destruct is_hack; [exact Epay | by apply Ok_inj in Epay]|].
  split; [subst h; cbn [load_addr]; by destruct load, is_hack|]. by subst h.
Qed.

(** The window check on a header whose payload fits and whose entry is inside it. *)
Lemma stored_header_check h base wlen :
  mode h = MODE_HACK \/ (mode h = MODE_RISCV /\
    load_addr h <= entry_point h < load_addr h + size h /\ entry_point h mod 4 = 0) ->
  0 < size h -> base <= load_addr h -> load_addr h - base + size h <= wlen ->
  Fw.check (stored_header h) base wlen = None.
Proof.
  intros Hm Hs Hlo Hhi. unfold Fw.check, stored_header. cbn [mode size crc32 name version load_addr entry_point].
  replace (negb (mode h =? MODE_RISCV) && negb (mode h =? MODE_HACK)) with false
    by (destruct Hm as [-> | (-> & _)]; done).
  rewrite (proj2 (Z.eqb_neq (size h) 0)) by lia.
  replace ((load_addr h <? base) || (wlen <? size h) || (wlen - size h <? load_addr h - base)) with false by lia.
  destruct Hm as [-> | (-> & He & Ha)]; [done|].
  replace (_ && _) with false; [done|].
  rewrite (land_mask _ 2) by lia. change (2 ^ 2) with 4. rewrite Ha. lia.
Qed.

Lemma crc_matches_stored h payload :
  size h = len payload -> crc32 h = binascii_crc32 payload -> Fw.crc_matches (stored_header h) payload = true.
Proof.
  intros Hs Hc. unfold Fw.crc_matches, stored_header. cbn [size crc32]. rewrite Hs, Hc, Z.eqb_refl.
  apply Z.eqb_refl.
Qed.

(** C21: a file [build_vux9_v4_image] makes (no override) is one the firmware loads: the
    firmware and the host tool read its header back with the fields given, the window check accepts it wherever the
    payload fits the window (and, for RV32, the entry point is aligned and inside it), and
    the payload after the header has the header's CRC. *)
Theorem built_image_loads (src : read_payload) (nm : bytes) (is_hack : bool) (ver : Z)
    (load entry : option Z) (file : bytes) (h : ImageHeader) (base wlen : Z) :
  build_vux9_v4_image src nm is_hack ver load entry None None = Ok (file, h) ->
  0 < size h -> base <= load_addr h -> load_addr h - base + size h <= wlen ->
  (is_hack = false -> load_addr h <= entry_point h < load_addr h + size h /\ entry_point h mod 4 = 0) ->
  Fw.parse file = Some (stored_header h) /\ parse file = Some (stored_header h) /\
  Fw.check (stored_header h) base wlen = None /\
  Fw.crc_matches (stored_header h) (drop 64 file) = true.
Proof.
  intros Hb Hs Hlo Hhi He.
  destruct (build_inv _ _ _ _ _ _ _ _ Hb) as (hd & payload & -> & Hl & Hsz & Hc & Hm & _ & Hp & _).
  split; [apply Hp|]. split; [rewrite <- fw_parse_same; apply Hp|]. split.
  - apply stored_header_check; try done. destruct is_hack; [by left|right; split; [done|by apply He]].
  - rewrite drop_app_length' by (unfold len in Hl; lia). by apply crc_matches_stored.
Qed.

(** ** Concrete instances *)

Definition demo_hack : bytes := [x00; x02; xec; x10; x00; x05].

Lemma pack_hack_fetch_witness :
  pack_hack demo_hack = Ok [x02; x00; x10; xec; x05; x00; x00; x00] /\
  hack_fetch [x02; x00; x10; xec; x05; x00; x00; x00] (2 * 1) = 0xEC10.
Proof.
  split; [vm_compute; reflexivity|].
  etransitivity; [apply (pack_hack_fetch demo_hack); vm_compute; congruence | vm_compute; reflexivity].
Defined.

Lemma pack_hack_emulator_witness :
  len demo_hack = 6 /\ exists q, emu_hack_words demo_hack = Some q /\ pack_hack demo_hack = Ok q.
Proof. split; [reflexivity|]. apply (pack_hack_emulator demo_hack). reflexivity. Defined.

Lemma hex_lines_roundtrip_witness :
  hex_words (map hex_line [0x13; 0xDEADBEEF; 0x1_0000_0001]) = Ok [0x13; 0xDEADBEEF; 0x1_0000_0001].
Proof. apply hex_lines_roundtrip. repeat constructor; lia. Defined.

(** An ELF file with two segments, at 4 and (with its last bytes overlaying) at 0. *)
Definition demo_elf : bytes :=
  let ph ty off pa fsz := concat (map (le_split 4) [ty; off; pa; pa; fsz; fsz; 5; 4]) in
  ELF_MAGIC ++ zeros 24 ++ le_split 4 0x34 ++ zeros 10 ++ le_split 2 32 ++ le_split 2 3 ++ zeros 6
  ++ ph 1 148 4 4 ++ ph 6 0 0 4 ++ ph 1 150 0 5 ++ bstr "ABCDEFGH".

Definition demo_phdrs : list Phdr :=
  match elf_phdrs demo_elf with Ok ps => ps | Raise _ => [] end.

Lemma elf2bin_image_witness :
  exists image, elf2bin demo_elf None = Ok image /\ len image = 8 /\
    forall i, 0 <= i -> nth (Z.to_nat i) image x00 = image_byte demo_elf None demo_phdrs i.
Proof.
  apply (elf2bin_image demo_elf None demo_phdrs); [reflexivity | vm_compute; reflexivity |].
  repeat constructor.
Defined.

Definition demo_file : bytes * ImageHeader :=
  match build_vux9_v4_image (bstr "\0\0\0\x13"%string, Some (bstr "demo")) [] false 1 None None None None with
  | Ok r => r | Raise _ => ([], mkHeader 0 0 0 [] 0 0 0) end.

Lemma built_image_loads_witness :
  Fw.parse demo_file.1 = Some (stored_header demo_file.2) /\ parse demo_file.1 = Some (stored_header demo_file.2) /\
  Fw.check (stored_header demo_file.2) XMEM_BASE 0x800000 = None /\
  Fw.crc_matches (stored_header demo_file.2) (drop 64 demo_file.1) = true.
Proof.
  apply (built_image_loads (bstr "\0\0\0\x13"%string, Some (bstr "demo")) [] false 1 None None).
  1: vm_compute; reflexivity.
  all: vm_compute; done.
Defined.
