(* ===== verification/Text.v ===== *)
(** * Text

    Python's [str] as a list of code points, the methods the host tools use on it, and the
    firmware's number printing (firmware/fw_common/src/fmt.rs). *)
From S2P Require Import Prelude Image.

Abbreviation text := (list Z).

(** A string literal. *)
Definition txt (s : string) : text := map u8 (bstr s).

(** [b.decode("ascii", errors="replace")]. *)
Definition decode_ascii (l : bytes) : text :=
  map (fun c => if u8 c <? 128 then u8 c else 0xFFFD) l.

(** The code points [str.strip] takes off. *)
Definition is_pyspace (c : Z) : bool :=
  ((9 <=? c) && (c <=? 13)) || ((28 <=? c) && (c <=? 32)) || (c =? 0x85) || (c =? 0xA0)
  || (c =? 0x1680) || ((0x2000 <=? c) && (c <=? 0x200A)) || (c =? 0x2028) || (c =? 0x2029)
  || (c =? 0x202F) || (c =? 0x205F) || (c =? 0x3000).

Fixpoint lstrip (t : text) : text :=
  match t with c :: k => if is_pyspace c then lstrip k else t | [] => [] end.

Definition py_strip (t : text) : text := rev (lstrip (rev (lstrip t))).

(** [t.startswith(p)]. *)
Fixpoint startswith (p t : text) : bool :=
  match p, t with
  | [], _ => true
  | c :: p, d :: t => (c =? d) && startswith p t
  | _, [] => false
  end.

(** [t.find(p)], as an option: the first index where [p] occurs. *)
Fixpoint find (p t : text) : option nat :=
  if startswith p t then Some 0%nat
  else match t with [] => None | _ :: t => S <$> find p t end.

Definition contains (p t : text) : bool := match find p t with Some _ => true | None => false end.

(** [f"{n}"] for a nonnegative [n]. *)
Fixpoint dec_digits (fuel : nat) (n : Z) (acc : text) : text :=
  match fuel with
  | O => acc
  | S fuel =>
      let acc := (48 + n mod 10) :: acc in
      if n <? 10 then acc else dec_digits fuel (n / 10) acc
  end.

Definition dec (n : Z) : text := dec_digits (S (Z.to_nat (Z.log2 n))) n [].

(** ** firmware/fw_common/src/fmt.rs *)

(** [while val >= p { val -= p; digit += 1 }], at most [fuel] rounds. *)
Fixpoint sub_while (fuel : nat) (val p digit : Z) : Z * Z :=
  match fuel with
  | O => (val, digit)
  | S fuel => if p <=? val then sub_while fuel (val - p) p (digit + 1) else (val, digit)
  end.

(** [Sink::put_dec]: its loop over the powers. *)
Fixpoint put_dec_loop (powers : list Z) (val : Z) (started : bool) : bytes :=
  match powers with
  | [] => []
  | p :: powers =>
      let '(val, digit) := sub_while 10 val p 0 in
      if (0 <? digit) || started || (p =? 1)
      then byte.of_Z (48 + digit) :: put_dec_loop powers val true
      else put_dec_loop powers val started
  end.

Definition POWERS : list Z :=
  [1000000000; 100000000; 10000000; 1000000; 100000; 10000; 1000; 100; 10; 1].

Definition put_dec (val : Z) : bytes := put_dec_loop POWERS val false.

Definition HEX : bytes := bstr "0123456789ABCDEF".

(** [Sink::put_hex]: eight upper-case digits. *)
Definition put_hex (val : Z) : bytes :=
  map (fun shift => nth (Z.to_nat (Z.land (Z.shiftr val (shift * 4)) 0xF)) HEX x00)
    [7; 6; 5; 4; 3; 2; 1; 0].

(** ** Lemmas *)

Lemma startswith_app p t : startswith p (p ++ t) = true.
Proof. induction p; simpl; [done|]. by rewrite Z.eqb_refl, IHp. Qed.

Lemma startswith_refl p : startswith p p = true.
Proof. rewrite <- (app_nil_r p) at 2. apply startswith_app. Qed.

(** A line that neither starts nor ends in a blank is all that its newline leaves. *)
Lemma strip_line c m d :
  is_pyspace c = false -> is_pyspace d = false -> py_strip (((c :: m) ++ [d]) ++ [10]) = (c :: m) ++ [d].
Proof.
  intros Hc Hd. unfold py_strip. simpl lstrip at 2. rewrite Hc.
  change (c :: (m ++ [d]) ++ [10]) with (((c :: m) ++ [d]) ++ [10]).
  rewrite !rev_app_distr. change (rev [10]) with [10]. change (rev [d]) with [d].
  cbn [app lstrip]. change (is_pyspace 10) with true. cbn iota. rewrite Hd.
  change (d :: rev (c :: m)) with ([d] ++ rev (c :: m)).
  by rewrite rev_app_distr, rev_involutive.
Qed.

Lemma u8_of_Z n : 0 <= n < 256 -> u8 (byte.of_Z n) = n.
Proof. intros. unfold u8. rewrite byte.unsigned_of_Z. apply Z.mod_small. lia. Qed.

(** Fixed-width decimals: [k] digits. *)
Fixpoint fixed (k : nat) (n : Z) : text :=
  match k with O => [] | S k => (48 + n / 10 ^ Z.of_nat k) :: fixed k (n mod 10 ^ Z.of_nat k) end.

Lemma sub_while_div f val p digit :
  0 < p -> 0 <= val -> val / p <= Z.of_nat f ->
  sub_while f val p digit = (val mod p, digit + val / p).
Proof.
  intros Hp. revert val digit. induction f as [|f IH]; intros val digit Hv Hf; simpl.
  - assert (val / p = 0) as E by (pose proof (Z.div_pos val p); lia).
    rewrite (Z.mod_eq val p), E by lia. f_equal; lia.
  - destruct (p <=? val) eqn:E.
    + replace val with (val - p + 1 * p) in Hf |- * at 2 3 by lia.
      rewrite Z.div_add in Hf by lia. rewrite Z.div_add, Z.mod_add by lia.
      rewrite IH by lia. f_equal. lia.
    + rewrite Z.mod_small, Z.div_small by lia. f_equal. lia.
Qed.

Lemma fixed_last k n :
  0 <= n < 10 ^ Z.of_nat (S k) -> fixed (S k) n = fixed k (n / 10) ++ [48 + n mod 10].
Proof.
  revert n. induction k as [|k IH]; intros n Hn.
  - simpl. change (10 ^ Z.of_nat 1) with 10 in Hn. by rewrite Z.div_1_r, (Z.mod_small n 10) by lia.
  - cbn [fixed]. cbn [fixed] in IH.
    replace (Z.of_nat (S k)) with (1 + Z.of_nat k) in * by lia.
    assert (0 < 10 ^ Z.of_nat k) by (apply Z.pow_pos_nonneg; lia).
    rewrite Z.pow_add_r in * by lia. change (10 ^ 1) with 10 in *.
    rewrite <- Z.div_div by lia. cbn [app]. f_equal.
    rewrite IH.
    + f_equal.
      * f_equal. rewrite Z.rem_mul_r by lia. rewrite Z.add_comm, Z.mul_comm, Z.div_add_l by lia.
        rewrite (Z.div_small (n mod 10)); pose proof (Z.mod_pos_bound n 10); lia.
      * rewrite Z.rem_mul_r by lia. rewrite Z.mul_comm, Z.mod_add by lia. by rewrite Z.mod_mod by lia.
    + apply Z.mod_pos_bound. lia.
Qed.

Lemma dec_digits_acc f n acc : dec_digits f n acc = dec_digits f n [] ++ acc.
Proof.
  revert n acc. induction f as [|f IH]; intros n acc; [done|]. simpl.
  destruct (n <? 10); [done|]. rewrite (IH _ (_ :: acc)), (IH _ [_]). by rewrite <- app_assoc.
Qed.

(** With enough fuel, the digits of a number of [S k] digits are those, without leading zeros. *)
Lemma dec_digits_fixed k f n :
  0 <= n < 10 ^ Z.of_nat (S k) -> (k = 0%nat \/ 10 ^ Z.of_nat k <= n) -> n < 2 ^ Z.of_nat f -> (0 < f)%nat ->
  dec_digits f n [] = fixed (S k) n.
Proof.
  revert f n. induction k as [|k IH]; intros [|f] n Hn Hlo Hf Hf0; try lia.
  - simpl. change (10 ^ Z.of_nat 1) with 10 in Hn. replace (n <? 10) with true by lia.
    by rewrite Z.div_1_r, Z.mod_small by lia.
  - destruct Hlo as [|Hlo]; [done|]. rewrite fixed_last by done.
    rewrite Nat2Z.inj_succ, Z.pow_succ_r in Hlo, Hf by lia.
    assert (0 < 10 ^ Z.of_nat k) by (apply Z.pow_pos_nonneg; lia).
    simpl dec_digits. replace (n <? 10) with false by lia. rewrite dec_digits_acc. f_equal.
    rewrite Nat2Z.inj_succ, Z.pow_succ_r in Hn by lia.
    assert (0 < f)%nat by (destruct f; simpl in Hf; lia).
    apply IH; [dlia| |dlia|done]. destruct k; [by left|]. right. dlia.
Qed.

Lemma put_dec_started k n :
  0 <= n < 10 ^ Z.of_nat (S k) ->
  map u8 (put_dec_loop (map (fun i => 10 ^ Z.of_nat i) (rev (seq 0 (S k)))) n true) = fixed (S k) n.
Proof.
  revert n. induction k as [|k IH]; intros n Hn.
  - change (10 ^ Z.of_nat 1) with 10 in Hn. change (map (fun i => 10 ^ Z.of_nat i) (rev (seq 0 1))) with [1].
    cbn [put_dec_loop]. rewrite sub_while_div by (rewrite ?Z.div_1_r; lia).
    rewrite Z.div_1_r, orb_true_r. cbn [orb map fixed].
    by rewrite u8_of_Z, Z.div_1_r, Z.add_0_l by lia.
  - rewrite seq_S, rev_app_distr. cbn [rev app map put_dec_loop Nat.add].
    assert (0 < 10 ^ Z.of_nat (S k)) by (apply Z.pow_pos_nonneg; lia).
    rewrite (Nat2Z.inj_succ (S k)), Z.pow_succ_r in Hn by lia.
    assert (0 <= n / 10 ^ Z.of_nat (S k) < 10)
      by (split; [apply Z.div_pos; lia | apply Z.div_lt_upper_bound; lia]).
    rewrite sub_while_div by lia. rewrite orb_true_r. cbn [orb map].
    rewrite IH by (apply Z.mod_pos_bound; lia).
    rewrite u8_of_Z by lia. by rewrite Z.add_0_l.
Qed.

Lemma put_dec_fresh k n :
  0 <= n < 10 ^ Z.of_nat (S k) ->
  map u8 (put_dec_loop (map (fun i => 10 ^ Z.of_nat i) (rev (seq 0 (S k)))) n false) = dec n.
Proof.
  revert n. induction k as [|k IH]; intros n Hn.
  - change (10 ^ Z.of_nat 1) with 10 in Hn. change (map (fun i => 10 ^ Z.of_nat i) (rev (seq 0 1))) with [1].
    cbn [put_dec_loop]. rewrite sub_while_div by (rewrite ?Z.div_1_r; lia).
    rewrite Z.div_1_r, orb_true_r. cbn [orb map]. rewrite u8_of_Z by lia.
    unfold dec. simpl dec_digits. replace (n <? 10) with true by lia. by rewrite Z.mod_small by lia.
  - rewrite seq_S, rev_app_distr. cbn [rev app map put_dec_loop Nat.add].
    assert (0 < 10 ^ Z.of_nat k) by (apply Z.pow_pos_nonneg; lia).
    rewrite (Nat2Z.inj_succ (S k)), Z.pow_succ_r in Hn by lia.
    assert (0 <= n / 10 ^ Z.of_nat (S k) < 10)
      by (split; [apply Z.div_pos; lia | apply Z.div_lt_upper_bound; lia]).
    rewrite sub_while_div by lia. rewrite orb_false_r, Z.add_0_l.
    replace (10 ^ Z.of_nat (S k) =? 1) with false
      by (rewrite Nat2Z.inj_succ, Z.pow_succ_r by lia; lia). rewrite orb_false_r.
    destruct (0 <? n / 10 ^ Z.of_nat (S k)) eqn:E.
    + cbn [map]. rewrite put_dec_started by (apply Z.mod_pos_bound; lia).
      rewrite u8_of_Z by lia. unfold dec.
      assert (0 < n) by (pose proof (Z.div_pos n (10 ^ Z.of_nat (S k))); destruct (decide (n = 0)) as [->|]; [by rewrite Z.div_0_l in E by lia|lia]).
      rewrite (dec_digits_fixed (S k)); [done| | | |lia].
      * rewrite (Nat2Z.inj_succ (S k)), Z.pow_succ_r by lia. lia.
      * right. apply Z.nlt_ge. intros Hc. by rewrite Z.div_small in E by lia.
      * pose proof (Z.log2_spec n). pose proof (Z.log2_nonneg n).
        rewrite Nat2Z.inj_succ, Z2Nat.id by lia. lia.
    + assert (n < 10 ^ Z.of_nat (S k)).
      { apply Z.ltb_ge in E. apply Z.nle_gt. intros Hc.
        pose proof (Z.div_str_pos n (10 ^ Z.of_nat (S k))) as Hp.
        assert (0 < 10 ^ Z.of_nat (S k)) by (apply Z.pow_pos_nonneg; lia).
        apply (Z.lt_irrefl 0). eapply Z.lt_le_trans; [apply Hp|exact E]. lia. }
      rewrite Z.mod_small by lia. apply IH. lia.
Qed.

Lemma put_dec_dec n : 0 <= n < 2 ^ 32 -> map u8 (put_dec n) = dec n.
Proof. intros. unfold put_dec. apply (put_dec_fresh 9). simpl. lia. Qed.

(** The firmware's decimals, made by repeated subtraction, are the numbers the host's
    f-strings print, for every 32-bit value. *)
Theorem put_dec_correct (n : Z) : 0 <= n < 2 ^ 32 -> map u8 (put_dec n) = dec n.
Proof. apply put_dec_dec. Qed.

Lemma put_dec_correct_witness : map u8 (put_dec 4294967295) = dec 4294967295.
Proof. apply (put_dec_correct 4294967295). lia. Defined.
