(* ===== verification/PyFloat.v ===== *)
(** * Python's floats

    The scripts' percentages, slacks and frequencies: IEEE doubles (Stdlib's SpecFloat at 53
    bits), the correctly rounded quotient of two integers, and the texts Python makes of a
    float: [f"{x:.2f}"], [f"{x:+.3f}"] and str. *)
From Stdlib Require Import Floats.SpecFloat.
From S2P Require Import Prelude Image Text.
#[local] Open Scope Z_scope.

Abbreviation float := spec_float.
Definition fadd (x y : float) : float := SFadd 53 1024 x y.
Definition fsub (x y : float) : float := SFsub 53 1024 x y.
Definition fmul (x y : float) : float := SFmul 53 1024 x y.
Definition fdiv (x y : float) : float := SFdiv 53 1024 x y.
(** Comparisons: with a nan, none holds. *)
Definition flt (x y : float) : bool := SFltb x y.
Definition fle (x y : float) : bool := SFleb x y.

(** [n / d] of ints, [d] positive: the double nearest to it. 57 bits of the quotient and a last
    one that says whether anything is left round as the quotient itself; Python raises an
    OverflowError where this gives an infinity. *)
Definition of_ratio (n d : Z) : float :=
  let k := 57 - (Z.log2 (Z.abs n) - Z.log2 d) in
  let num := Z.shiftl (Z.abs n) (Z.max k 0) in
  let den := Z.shiftl d (Z.max (- k) 0) in
  let q := 2 * (num / den) + Z.b2z (negb (num mod den =? 0)) in
  binary_normalize 53 1024 (Z.sgn n * q) (- k - 1) false.
Definition of_int (n : Z) : float := of_ratio n 1.
(** A decimal literal [n * 10 ^ e], and [10 ^ e] of it. *)
Definition of_decimal (n e : Z) : float := if 0 <=? e then of_ratio (n * 10 ^ e) 1 else of_ratio n (10 ^ (- e)).

(** The nearest integer to [n / d], ties to even. *)
Definition half_even (n d : Z) : Z :=
  let q := n / d in
  let r := 2 * (n mod d) in
  if (d <? r) || ((r =? d) && Z.odd q) then q + 1 else q.
(** [m * 2 ^ e * 10 ^ p] to the nearest integer. *)
Definition scaled (m e p : Z) : Z :=
  let num := m * 2 ^ Z.max e 0 * 10 ^ Z.max p 0 in
  half_even num (2 ^ Z.max (- e) 0 * 10 ^ Z.max (- p) 0).

(** [t.zfill(n)] of digits. *)
Definition zfill (n : nat) (t : text) : text := repeat 48 (n - length t) ++ t.
Definition sign_text (plus s : bool) : text := if s then txt "-" else if plus then txt "+" else [].

(** [format(x, ".{p}f")], with a plus sign for ["+.{p}f"]. *)
Definition fixed_text (plus : bool) (p : Z) (x : float) : text :=
  let digits n := dec (n / 10 ^ p) ++ (if 0 <? p then txt "." ++ zfill (Z.to_nat p) (dec (n mod 10 ^ p)) else []) in
  match x with
  | S754_finite s m e => sign_text plus s ++ digits (scaled (Zpos m) e p)
  | S754_zero s => sign_text plus s ++ digits 0
  | S754_infinity s => sign_text plus s ++ txt "inf"
  | S754_nan => sign_text plus false ++ txt "nan"
  end.

(** [round(x, p)] of a finite float: the double of that decimal. *)
Definition round_to (p : Z) (x : float) : float :=
  match x with
  | S754_finite s m e =>
      match of_ratio (scaled (Zpos m) e p) (10 ^ p) with S754_zero _ => S754_zero s | y => if s then SFopp y else y end
  | _ => x
  end.

(** The shortest decimal that reads back as [m * 2 ^ e]: its digits and the power of ten of the
    first one. [p] digits after the first are tried from 0; 17 digits always do. *)
Definition log10 (m e : Z) : Z :=
  let est := (Z.log2 m + e) * 30103 / 100000 in
  let reach k := if 0 <=? k then (10 ^ k * 2 ^ Z.max (- e) 0 <=? m * 2 ^ Z.max e 0) else (2 ^ Z.max (- e) 0 <=? m * 2 ^ Z.max e 0 * 10 ^ (- k)) in
  if reach (est + 1) then est + 1 else if reach est then est else est - 1.
Fixpoint shortest (fuel : nat) (p m e k : Z) : Z * Z :=
  let n := scaled m e (p - k) in
  match fuel with
  | O => (n, k - p)
  | S fuel => if SFeqb (of_decimal n (k - p)) (S754_finite false (Z.to_pos m) e) then (n, k - p) else shortest fuel (p + 1) m e k
  end.
Fixpoint drop_zeros (fuel : nat) (n e : Z) : Z * Z :=
  match fuel with O => (n, e) | S fuel => if n mod 10 =? 0 then drop_zeros fuel (n / 10) (e + 1) else (n, e) end.

(** [str(x)]: positional from 1e-4 up to 1e16. *)
Definition float_str (x : float) : text :=
  match x with
  | S754_finite s m e =>
      let '(n, q) := shortest 17 0 (Zpos m) e (log10 (Zpos m) e) in
      let '(n, q) := drop_zeros 20 n q in
      let ds := dec n in
      let point := len ds + q in
      let body :=
        if (-4 <? point) && (point <=? 16) then
          if 0 <=? q then ds ++ repeat 48 (Z.to_nat q) ++ txt ".0"
          else if 0 <? point then take (Z.to_nat point) ds ++ txt "." ++ drop (Z.to_nat point) ds
          else txt "0." ++ repeat 48 (Z.to_nat (- point)) ++ ds
        else
          take 1 ds ++ (match drop 1 ds with [] => [] | r => txt "." ++ r end)
            ++ txt "e" ++ (if point - 1 <? 0 then txt "-" else txt "+") ++ zfill 2 (dec (Z.abs (point - 1))) in
      sign_text false s ++ body
  | S754_zero s => sign_text false s ++ txt "0.0"
  | S754_infinity s => sign_text false s ++ txt "inf"
  | S754_nan => txt "nan"
  end.

Example float_texts :
  (float_str (of_decimal 36 0), float_str (of_decimal 1 (-1)), float_str (of_ratio 1 3), float_str (of_decimal (-123) (-5)), float_str (of_decimal 1 (-5)), float_str (of_decimal 1 16),
   float_str (of_decimal 123456789 10), float_str (fadd (of_decimal 1 (-1)) (of_decimal 2 (-1))))
  = (txt "36.0", txt "0.1", txt "0.3333333333333333", txt "-0.00123", txt "1e-05", txt "1e+16", txt "1.23456789e+18", txt "0.30000000000000004").
Proof. vm_compute. reflexivity. Qed.
Example fixed_texts :
  (fixed_text true 3 (of_decimal (-1234567) (-6)), fixed_text true 2 (of_decimal 2675 (-3)), fixed_text false 1 (of_ratio 200 3), fixed_text false 0 (of_decimal 25 (-1)), fixed_text true 3 (round_to 3 (of_decimal 12345 (-4))))
  = (txt "-1.235", txt "+2.67", txt "66.7", txt "2", txt "+1.234").
Proof. vm_compute. reflexivity. Qed.

(** ** The texts are printable ASCII without spaces *)

Definition plain (c : Z) : bool := (33 <=? c) && (c <? 127) && negb (c =? 60).
Lemma plain_nonspace c : plain c = true -> is_pyspace c = false.
Proof. unfold plain, is_pyspace. rewrite !andb_true_iff, Z.leb_le, Z.ltb_lt. intros H. rewrite !orb_false_iff, !andb_false_iff, !Z.leb_gt, !Z.eqb_neq. lia. Qed.
Lemma dec_digits_plain fuel n acc : forallb plain acc = true -> forallb plain (dec_digits fuel n acc) = true.
Proof.
  revert n acc. induction fuel as [|fuel IH]; intros n acc H; cbn [dec_digits]; [done|].
  assert (Hd : forallb plain ((48 + n mod 10) :: acc) = true).
  { cbn [forallb]. rewrite H, andb_true_r. unfold plain. pose proof (Z.mod_pos_bound n 10 ltac:(lia)). rewrite !andb_true_iff, negb_true_iff, Z.leb_le, Z.ltb_lt, Z.eqb_neq. lia. }
  destruct (n <? 10); [done|by apply IH].
Qed.
Lemma dec_plain n : forallb plain (dec n) = true.
Proof. by apply dec_digits_plain. Qed.
Lemma dec_some n : dec n <> [].
Proof.
  unfold dec. enough (forall fuel acc m, acc <> [] -> dec_digits fuel m acc <> []) as H by (cbn [dec_digits]; destruct (n <? 10); [done|by apply H]).
  induction fuel as [|fuel IH]; intros acc m Ha; cbn [dec_digits]; [done|]. destruct (m <? 10); [done|by apply IH].
Qed.
(** A number read back from its digits. *)
Definition digits_value (t : text) : Z := fold_left (fun n c => 10 * n + (c - 48)) t 0.
Lemma dec_value n : 0 <= n -> digits_value (dec n) = n.
Proof.
  intros Hn. unfold dec. assert (Hf : n < 2 ^ Z.of_nat (S (Z.to_nat (Z.log2 n)))).
  { pose proof (Z.log2_nonneg n). rewrite Nat2Z.inj_succ, Z2Nat.id by lia. destruct (Z.eq_dec n 0) as [->|]; [done|]. by apply Z.log2_spec; lia. }
  revert Hf. generalize (S (Z.to_nat (Z.log2 n))). intros f. revert n Hn. induction f as [|f IH]; intros n Hn Hf; cbn [dec_digits].
  - change (2 ^ Z.of_nat 0) with 1 in Hf. unfold digits_value. cbn. lia.
  - destruct (Z.ltb_spec n 10); [unfold digits_value; cbn [fold_left]; dlia|]. rewrite Nat2Z.inj_succ, Z.pow_succ_r in Hf by lia.
    rewrite dec_digits_acc. unfold digits_value in *. rewrite fold_left_app, IH by dlia. cbn [fold_left]. dlia.
Qed.
Lemma dec_inj n m : 0 <= n -> 0 <= m -> dec n = dec m -> n = m.
Proof. intros Hn Hm E. by rewrite <- (dec_value n), <- (dec_value m), E. Qed.
Lemma dec_digits_only n : Forall (fun c => 48 <= c <= 57) (dec n).
Proof.
  unfold dec. generalize (S (Z.to_nat (Z.log2 n))). intros f. assert (H : Forall (fun c => 48 <= c <= 57) ([] : text)) by constructor. revert H. generalize ([] : text).
  revert n. induction f as [|f IH]; intros n acc H; cbn [dec_digits]; [done|].
  assert (Forall (fun c => 48 <= c <= 57) ((48 + n mod 10) :: acc)) by (constructor; [dlia|done]). destruct (n <? 10); [done|by apply IH].
Qed.
Lemma zeros_plain n : forallb plain (repeat 48 n) = true.
Proof. by induction n. Qed.
Lemma plain_take n l : forallb plain l = true -> forallb plain (take n l) = true.
Proof. intros H. rewrite <- (take_drop n l), forallb_app in H. by apply andb_true_iff in H as []. Qed.
Lemma plain_drop n l : forallb plain l = true -> forallb plain (drop n l) = true.
Proof. intros H. rewrite <- (take_drop n l), forallb_app in H. by apply andb_true_iff in H as []. Qed.
Lemma sign_plain plus s : forallb plain (sign_text plus s) = true.
Proof. by destruct plus, s. Qed.
Lemma zfill_plain n l : forallb plain l = true -> forallb plain (zfill n l) = true.
Proof. intros H. unfold zfill. by rewrite forallb_app, zeros_plain. Qed.
Lemma plain_app a b : forallb plain a = true -> forallb plain b = true -> forallb plain (a ++ b) = true.
Proof. intros Ha Hb. by rewrite forallb_app, Ha, Hb. Qed.
Create HintDb plain.
#[export] Hint Resolve dec_plain zeros_plain plain_take plain_drop sign_plain zfill_plain plain_app : plain.
Lemma fixed_text_plain plus p x : forallb plain (fixed_text plus p x) = true.
Proof. unfold fixed_text. destruct x; [| | |]; try destruct (0 <? p); auto 7 with plain. Qed.
Lemma float_str_plain x : forallb plain (float_str x) = true.
Proof.
  unfold float_str. destruct x as [s|s| |s m e]; auto with plain. destruct (shortest _ _ _ _ _) as [n q]. destruct (drop_zeros _ _ _) as [n' q'].
  apply plain_app; [auto with plain|]. destruct (_ && _); [destruct (0 <=? q'); [auto with plain|]; destruct (0 <? _); auto 7 with plain|].
  apply plain_app; [auto with plain|]. apply plain_app; [|destruct (_ - 1 <? 0); auto with plain].
  pose proof (plain_drop 1 _ (dec_plain n')) as H. destruct (drop 1 (dec n')); auto with plain.
Qed.

(** ** Order *)

(** A number's place in the order: its class, then exponent and significand. *)
Definition rank (x : float) : Z * Z * Z :=
  match x with
  | S754_finite true m e => (-1, - e, Zneg m)
  | S754_finite false m e => (1, e, Zpos m)
  | S754_zero _ | S754_nan => (0, 0, 0)
  | S754_infinity true => (-2, 0, 0)
  | S754_infinity false => (2, 0, 0)
  end.
Definition lex_lt (p q : Z * Z * Z) : Prop :=
  p.1.1 < q.1.1 \/ (p.1.1 = q.1.1 /\ (p.1.2 < q.1.2 \/ (p.1.2 = q.1.2 /\ p.2 < q.2))).
Definition is_nan (x : float) : bool := match x with S754_nan => true | _ => false end.
Lemma flt_rank x y : is_nan x = false -> is_nan y = false -> flt x y = true <-> lex_lt (rank x) (rank y).
Proof.
  assert (Hs : forall P : Prop, P -> true = true <-> P) by done. assert (Hn : forall P : Prop, ~ P -> false = true <-> P) by done.
  unfold flt, SFltb, lex_lt. intros Hx Hy. destruct x as [[]|[]| |[] m e], y as [[]|[]| |[] m' e']; try done; cbn [SFcompare rank fst snd]; try (apply Hs; lia); try (apply Hn; lia).
  all: destruct (Z.compare_spec e e') as [->|H|H]; try (apply Hs; lia); try (apply Hn; lia).
  all: change (Pos.compare_cont Eq m m') with (m ?= m')%positive; destruct (Pos.compare_spec m m') as [->|H|H]; cbn [CompOpp]; try (apply Hs; lia); try (apply Hn; lia).
Qed.
Lemma fle_flt x y : is_nan x = false -> is_nan y = false -> fle x y = negb (flt y x).
Proof.
  unfold flt, fle, SFltb, SFleb. intros Hx Hy. destruct x as [[]|[]| |[] m e], y as [[]|[]| |[] m' e']; try done; cbn [SFcompare].
  all: rewrite (Z.compare_antisym e e'); destruct (e ?= e'); cbn [CompOpp]; try done.
  all: change (Pos.compare_cont Eq m m') with (m ?= m')%positive; change (Pos.compare_cont Eq m' m) with (m' ?= m)%positive; rewrite (Pos.compare_antisym m m'); by destruct (m ?= m')%positive.
Qed.
Lemma fle_rank x y : is_nan x = false -> is_nan y = false -> fle x y = true <-> ~ lex_lt (rank y) (rank x).
Proof. intros Hx Hy. rewrite fle_flt, negb_true_iff, <- not_true_iff_false, flt_rank by done. done. Qed.

(** ** [sum] of floats, as CPython 3.12 and later add them: with the lost low parts kept aside *)

Definition fabs (x : float) : float := SFabs x.
Definition cs_add (hl : float * float) (x : float) : float * float :=
  let '(hi, lo) := hl in
  let t := fadd hi x in
  (t, if fle (fabs x) (fabs hi) then fadd lo (fadd (fsub hi t) x) else fadd lo (fadd (fsub x t) hi)).
Definition is_finite_nonzero (x : float) : bool := match x with S754_finite _ _ _ => true | _ => false end.
Definition fsum (l : list float) : float :=
  match l with
  | [] => S754_zero false
  | x :: l => let '(hi, lo) := fold_left cs_add l (fadd (S754_zero false) x, S754_zero false) in if is_finite_nonzero lo then fadd hi lo else hi
  end.
Example fsum_compensates : float_str (fsum (repeat (of_decimal 1 (-1)) 10)) = txt "1.0" /\ float_str (fold_left fadd (repeat (of_decimal 1 (-1)) 10) (of_int 0)) = txt "0.9999999999999999".
Proof. vm_compute. done. Qed.
