(* ===== verification/Str.v ===== *)
(** * What the scripts do with text

    The str methods and the regular-expression searches that the build and test scripts share,
    on code points (Text.v): joining, replacing, partitioning, [re.findall] of a pattern given
    as a matcher, lexicographic order and dicts as lists of items. *)
From stdpp Require Import sorting.
From S2P Require Import Prelude Image Text.
#[local] Open Scope Z_scope.

(** ** Methods *)

(** [sep.join(l)]. *)
Fixpoint join (sep : text) (l : list text) : text :=
  match l with [] => [] | [x] => x | x :: l => x ++ sep ++ join sep l end.

(** [t.partition(sep)], [t.split(sep, 1)]: None where the separator isn't there. *)
Definition partition (sep t : text) : option (text * text) :=
  i ← find sep t; Some (take i t, drop (i + length sep) t).

(** [t.replace(old, new)] for an [old] that isn't empty: from the left, past each occurrence;
    the fuel is the text's length. *)
Fixpoint replace_loop (fuel : nat) (old new t : text) : text :=
  match fuel with
  | O => t
  | S fuel =>
      match partition old t with
      | Some (before, after) => before ++ new ++ replace_loop fuel old new after
      | None => t
      end
  end.
Definition replace (old new t : text) : text := replace_loop (length t) old new t.

(** [t.split(c)] at a character. *)
Fixpoint split_char (c : Z) (t : text) : list text :=
  match t with
  | [] => [[]]
  | d :: t =>
      match split_char c t with
      | w :: ws => if d =? c then [] :: w :: ws else (d :: w) :: ws
      | [] => [[d]]
      end
  end.

(** A character class's longest run. *)
Fixpoint span (p : Z -> bool) (t : text) : text * text :=
  match t with
  | c :: k => if p c then let '(a, b) := span p k in (c :: a, b) else ([], t)
  | [] => ([], [])
  end.

(** [re.findall] of a pattern that takes something: [m] is its match at a place, with what it
    captures and the rest. *)
Fixpoint find_loop {A} (fuel : nat) (m : text -> option (A * text)) (t : text) : list A :=
  match fuel with
  | O => []
  | S fuel =>
      match m t with
      | Some (x, rest) => x :: find_loop fuel m rest
      | None => match t with [] => [] | _ :: t => find_loop fuel m t end
      end
  end.
Definition findall {A} (m : text -> option (A * text)) (t : text) : list A := find_loop (S (length t)) m t.

(** [key in d], [d.get(key)] of a dict made of the items in order: the last value given. *)
Definition dict_get {V} (k : text) (d : list (text * V)) : option V :=
  snd <$> List.find (fun kv => bool_decide (fst kv = k)) (rev d).

(** Python's order on str. *)
Fixpoint text_le (s t : text) : Prop :=
  match s, t with
  | [], _ => True
  | _ :: _, [] => False
  | c :: s, d :: t => c < d \/ (c = d /\ text_le s t)
  end.
#[export] Instance text_le_dec s t : Decision (text_le s t).
Proof. revert t. induction s as [|c s IH]; intros [|d t]; cbn; apply _. Defined.
#[export] Instance text_le_total : Total text_le.
Proof. intros s. induction s as [|c s IH]; intros [|d t]; cbn; try (left; done); try (right; done). destruct (Z.lt_total c d) as [|[->|]]; [left; by left| |right; by left]. destruct (IH t); [left|right]; by right. Qed.
#[export] Instance text_le_trans : Transitive text_le.
Proof.
  intros s. induction s as [|c s IH]; intros [|d t] [|e u]; cbn; try done. intros [H1|[-> H1]] [H2|[-> H2]]; [left; lia|by left|by left|right].
  split; [done|]. by apply (IH t).
Qed.

(** ** Lemmas *)

Lemma span_all p t rest : forallb p t = true -> match rest with c :: _ => p c = false | [] => True end -> span p (t ++ rest) = (t, rest).
Proof.
  intros Ht Hr. induction t as [|c t IH]; cbn [app span].
  - destruct rest as [|c rest]; [done|]. cbn [span]. by rewrite Hr.
  - cbn [forallb] in Ht. apply andb_true_iff in Ht as [Hc Ht]. rewrite Hc, IH by done. done.
Qed.

Section FindAll.
Context {A : Type} (m : text -> option (A * text)).
(** A match takes something. *)
Hypothesis m_takes : forall t x rest, m t = Some (x, rest) -> (length rest < length t)%nat.

Lemma find_loop_fuel n k t : (length t < n)%nat -> (length t < k)%nat -> find_loop n m t = find_loop k m t.
Proof.
  revert k t. induction n as [|n IH]; intros [|k] t Hn Hk; try lia. cbn [find_loop]. destruct (m t) as [[x rest]|] eqn:E.
  - apply m_takes in E. f_equal. apply IH; lia.
  - destruct t as [|c t]; [done|]. cbn [length] in *. apply IH; lia.
Qed.
Lemma findall_skip c t : m (c :: t) = None -> findall m (c :: t) = findall m t.
Proof. intros H. unfold findall. cbn [length find_loop]. by rewrite H. Qed.
Lemma findall_take t x rest : m t = Some (x, rest) -> findall m t = x :: findall m rest.
Proof. intros H. unfold findall at 1. cbn [find_loop]. rewrite H. apply m_takes in H. f_equal. unfold findall. apply find_loop_fuel; lia. Qed.
Lemma findall_nil : m [] = None -> findall m [] = [].
Proof. intros H. unfold findall. cbn. by rewrite H. Qed.
(** A stretch in which no match begins. *)
Lemma findall_over w rest : (forall s c k, w = s ++ c :: k -> m (c :: k ++ rest) = None) -> findall m (w ++ rest) = findall m rest.
Proof.
  induction w as [|c w IH]; intros H; [done|]. cbn [app]. rewrite findall_skip by apply (H [] c w eq_refl).
  apply IH. intros s d k ->. by apply (H (c :: s)).
Qed.
End FindAll.

(** ** Occurrences *)

Lemma startswith_iff p t : startswith p t = true <-> exists k, t = p ++ k.
Proof.
  revert t. induction p as [|c p IH]; intros t; cbn [startswith].
  - split; [by exists t|done].
  - destruct t as [|d t]; [split; [done|by intros [k ?]]|]. rewrite andb_true_iff, Z.eqb_eq, IH. split.
    + intros [-> [k ->]]. by exists k.
    + intros [k E]. injection E as -> ->. split; [done|]. by exists k.
Qed.
Lemma find_iff p t i : find p t = Some i -> exists b, t = take i t ++ p ++ b.
Proof.
  revert i. induction t as [|c t IH]; intros i; cbn [find]; destruct (startswith p _) eqn:E.
  - intros [= <-]. by apply startswith_iff in E.
  - done.
  - intros [= <-]. by apply startswith_iff in E.
  - destruct (find p t) as [j|]; [|done]. intros [= <-]. destruct (IH j eq_refl) as [b Eb]. exists b. cbn [take app]. by rewrite <- Eb.
Qed.
Lemma contains_cons p c t : contains p (c :: t) = startswith p (c :: t) || contains p t.
Proof. unfold contains. cbn [find]. destruct (startswith p (c :: t)); [done|]. by destruct (find p t). Qed.
Lemma contains_iff p t : contains p t = true <-> exists a b, t = a ++ p ++ b.
Proof.
  split.
  - unfold contains. destruct (find p t) as [i|] eqn:E; [|done]. intros _. apply find_iff in E as [b E]. by exists (take i t), b.
  - intros (a & b & ->). induction a as [|c a IH]; cbn [app].
    + unfold contains. destruct (p ++ b) as [|d t] eqn:E; cbn [find]; rewrite <- E, startswith_app; done.
    + rewrite contains_cons, IH. apply orb_true_r.
Qed.
Lemma contains_app_r p a b : contains p b = true -> contains p (a ++ b) = true.
Proof. rewrite !contains_iff. intros (x & y & ->). exists (a ++ x), y. by rewrite app_assoc. Qed.
Lemma contains_longer p q t : contains p t = false -> contains (p ++ q) t = false.
Proof.
  intros H. apply not_true_is_false. intros Hc. apply contains_iff in Hc as (a & b & ->). rewrite <- app_assoc in H.
  assert (contains p (a ++ p ++ q ++ b) = true) by (apply contains_iff; by exists a, (q ++ b)). congruence.
Qed.
(** A separator that isn't in what is looked for. *)
Lemma startswith_sep p c a b : c ∉ p -> startswith p (a ++ c :: b) = startswith p a.
Proof.
  revert a. induction p as [|d p IH]; intros a Hc; [done|]. apply not_elem_of_cons in Hc as [Hd Hc]. destruct a as [|e a]; cbn [app startswith].
  - by rewrite (proj2 (Z.eqb_neq d c)) by done.
  - by rewrite IH.
Qed.
Lemma contains_sep p c a b : p <> [] -> c ∉ p -> contains p (a ++ c :: b) = contains p a || contains p b.
Proof.
  intros Hp Hc. induction a as [|d a IH]; cbn [app].
  - rewrite contains_cons. replace (startswith p (c :: b)) with false; [by destruct p|]. symmetry. apply (startswith_sep p c [] b) in Hc. cbn [app] in Hc. rewrite Hc. by destruct p.
  - rewrite !contains_cons, IH, orb_assoc. f_equal. f_equal. exact (startswith_sep p c (d :: a) b Hc).
Qed.
(** A stretch without the first character of what is looked for. *)
Lemma contains_skip c p a b : c ∉ a -> contains (c :: p) (a ++ b) = contains (c :: p) b.
Proof.
  intros H. induction a as [|d a IH]; [done|]. apply not_elem_of_cons in H as [Hd H]. cbn [app]. rewrite contains_cons, IH by done. cbn [startswith].
  by rewrite (proj2 (Z.eqb_neq c d)).
Qed.
Lemma contains_none c p a : c ∉ a -> contains (c :: p) a = false.
Proof. intros H. rewrite <- (app_nil_r a), contains_skip by done. done. Qed.

(** ** Stripping *)

Lemma lstrip_first c t : is_pyspace c = false -> lstrip (c :: t) = c :: t.
Proof. intros H. cbn [lstrip]. by rewrite H. Qed.
Lemma strip_first c t d u : is_pyspace c = false -> is_pyspace d = false -> c :: t = u ++ [d] -> py_strip (c :: t) = c :: t.
Proof. intros Hc Hd E. unfold py_strip. rewrite lstrip_first by done. rewrite E, rev_app_distr. cbn [rev app]. rewrite lstrip_first by done. cbn [rev]. by rewrite rev_involutive. Qed.
Lemma lstrip_app_nonspace t d u : is_pyspace d = false -> lstrip (t ++ d :: u) = lstrip t ++ d :: u.
Proof. intros H. induction t as [|c t IH]; cbn [app lstrip]; [by rewrite H|]. by destruct (is_pyspace c). Qed.
(** What begins with a character begins with it stripped. *)
Lemma strip_begins c t : is_pyspace c = false -> exists k, py_strip (c :: t) = c :: k.
Proof.
  intros H. unfold py_strip. rewrite lstrip_first by done. cbn [rev]. rewrite lstrip_app_nonspace by done. rewrite rev_app_distr. cbn [rev app]. by eexists.
Qed.

(** ** Joined lines *)

Definition unlines (ls : list text) : text := concat (map (fun l => l ++ [10]) ls).
Lemma join_unlines ls : ls <> [] -> join [10] ls ++ [10] = unlines ls.
Proof.
  unfold unlines. induction ls as [|l ls IH]; [done|]. intros _. destruct ls as [|k ls]; [cbn; by rewrite app_nil_r|].
  change (join [10] (l :: k :: ls)) with (l ++ [10] ++ join [10] (k :: ls)). rewrite <- !app_assoc, IH by done. change (l ++ [10] ++ concat (map (fun l => l ++ [10]) (k :: ls)) = (l ++ [10]) ++ concat (map (fun l => l ++ [10]) (k :: ls))). by rewrite <- app_assoc.
Qed.
Lemma unlines_app a b : unlines (a ++ b) = unlines a ++ unlines b.
Proof. unfold unlines. by rewrite map_app, concat_app. Qed.
Lemma contains_unlines p ls : p <> [] -> 10 ∉ p -> contains p (unlines ls) = existsb (contains p) ls.
Proof.
  intros Hp Hn. unfold unlines. induction ls as [|l ls IH]; cbn [map concat existsb].
  - destruct p; [done|]. done.
  - rewrite <- app_assoc. cbn [app]. by rewrite contains_sep, IH.
Qed.

(** ** Replacing *)

Lemma startswith_shorter p a b : startswith p a = true -> startswith p (a ++ b) = true.
Proof. rewrite !startswith_iff. intros [k ->]. exists (k ++ b). by rewrite app_assoc. Qed.
(** Before the first occurrence there is none. *)
Lemma find_first p t i : p <> [] -> find p t = Some i -> contains p (take i t) = false.
Proof.
  intros Hp. revert i. induction t as [|c t IH]; intros i; cbn [find].
  - destruct (startswith p []); [|done]. intros [= <-]. by destruct p.
  - destruct (startswith p (c :: t)) eqn:E; [intros [= <-]; by destruct p|]. destruct (find p t) as [j|] eqn:Ej; [|done]. intros [= <-]. cbn [take].
    rewrite contains_cons, (IH j) by done. rewrite orb_false_r. apply not_true_is_false. intros H. rewrite <- (take_drop j t) in E.
    apply (startswith_shorter _ _ (drop j t)) in H. cbn [app] in H. congruence.
Qed.
Lemma find_at c p a b : c ∉ a -> find (c :: p) (a ++ (c :: p) ++ b) = Some (length a).
Proof.
  induction a as [|d a IH]; intros H.
  - cbn [app length]. destruct (find (c :: p) (c :: p ++ b)) eqn:E; cbn [find] in E; change (c :: p ++ b) with ((c :: p) ++ b) in E; rewrite startswith_app in E; congruence.
  - apply not_elem_of_cons in H as [Hd H]. cbn [app find length startswith]. rewrite (proj2 (Z.eqb_neq c d)) by done. cbn [andb]. change (c :: p ++ b) with ((c :: p) ++ b). by rewrite IH.
Qed.
Lemma partition_at c p a b : c ∉ a -> partition (c :: p) (a ++ (c :: p) ++ b) = Some (a, b).
Proof.
  intros H. unfold partition. rewrite find_at by done. cbn [mbind option_bind]. rewrite take_app_length. do 2 f_equal.
  rewrite app_assoc. rewrite <- length_app. by rewrite drop_app_length.
Qed.
Lemma contains_same c p a b : c ∉ p -> contains (c :: p) (a ++ c :: b) = contains (c :: p) a || contains (c :: p) (c :: b).
Proof.
  intros Hc. induction a as [|d a IH]; [done|]. cbn [app]. rewrite (contains_cons _ d (a ++ c :: b)), (contains_cons _ d a), IH, orb_assoc. do 2 f_equal.
  cbn [startswith]. f_equal. by apply startswith_sep.
Qed.
Lemma replace_loop_none c p n fuel t : c ∉ p -> c ∉ n -> (forall r, startswith (c :: p) (c :: n ++ r) = false) -> (length t <= fuel)%nat ->
  contains (c :: p) (replace_loop fuel (c :: p) (c :: n) t) = false.
Proof.
  intros Hp Hn Hs. revert t. induction fuel as [|fuel IH]; intros t Hf.
  - destruct t; [done|cbn [length] in Hf; lia].
  - cbn [replace_loop]. unfold partition. destruct (find (c :: p) t) as [i|] eqn:E; cbn [mbind option_bind]; [|by unfold contains; rewrite E].
    change (take i t ++ (c :: n) ++ replace_loop fuel (c :: p) (c :: n) (drop (i + length (c :: p)) t)) with (take i t ++ c :: n ++ replace_loop fuel (c :: p) (c :: n) (drop (i + length (c :: p)) t)).
    rewrite contains_same, (find_first (c :: p) t i ltac:(done) E), contains_cons, Hs, contains_skip by done. apply IH. rewrite length_drop. cbn [length]. lia.
Qed.
Lemma in_replace_loop x fuel old new t : x ∈ replace_loop fuel old new t -> x ∈ t \/ x ∈ new.
Proof.
  revert t. induction fuel as [|fuel IH]; intros t; cbn [replace_loop]; [by left|]. unfold partition. destruct (find old t) as [i|]; cbn [mbind option_bind]; [|by left].
  rewrite !elem_of_app. intros [H|[H|H]]; [left; rewrite <- (take_drop i t); apply elem_of_app; by left|by right|]. apply IH in H as [H|H]; [left; rewrite <- (take_drop (i + length old) t); apply elem_of_app; by right|by right].
Qed.
