(* ===== verification/Sha256.v ===== *)
(** * hashlib's SHA-256

    FIPS 180-4's hash, as hashlib.sha256 computes it for the release scripts (Dist.v,
    Release.v), and [hexdigest]. The constants are computed from the primes they come from. *)
From S2P Require Import Prelude Image Text.
#[local] Open Scope Z_scope.

(** ** The constants: 32 bits of the primes' roots after the point *)

Definition prime (n : Z) : bool := forallb (fun d => negb (n mod d =? 0)) (seqZ 2 (n - 2)).
Definition primes : list Z := List.filter prime (seqZ 2 310).
(** The greatest [r] with [r ^ 3 <= n], by bits from [b] down. *)
Fixpoint cube_root (b : nat) (r n : Z) : Z :=
  match b with
  | O => r
  | S b => let s := r + 2 ^ Z.of_nat b in cube_root b (if s ^ 3 <=? n then s else r) n
  end.
Definition K : list Z := Eval vm_compute in map (fun p => cube_root 36 0 (p * 2 ^ 96) mod 2 ^ 32) primes.
Definition H0 : list Z := Eval vm_compute in map (fun p => Z.sqrt (p * 2 ^ 64) mod 2 ^ 32) (take 8 primes).

(** ** The compression *)

Definition u32 (x : Z) : Z := Z.land x 0xFFFFFFFF.
Definition rotr (n x : Z) : Z := Z.lor (Z.shiftr x n) (u32 (Z.shiftl x (32 - n))).
Definition xor3 (a b c : Z) : Z := Z.lxor (Z.lxor a b) c.
Definition ch (x y z : Z) : Z := Z.lxor (Z.land x y) (Z.land (Z.lxor x 0xFFFFFFFF) z).
Definition maj (x y z : Z) : Z := xor3 (Z.land x y) (Z.land x z) (Z.land y z).
Definition big0 (x : Z) : Z := xor3 (rotr 2 x) (rotr 13 x) (rotr 22 x).
Definition big1 (x : Z) : Z := xor3 (rotr 6 x) (rotr 11 x) (rotr 25 x).
Definition small0 (x : Z) : Z := xor3 (rotr 7 x) (rotr 18 x) (Z.shiftr x 3).
Definition small1 (x : Z) : Z := xor3 (rotr 17 x) (rotr 19 x) (Z.shiftr x 10).

(** The eight working variables; one round with its constant and schedule word. *)
Record vars := mkVars { va : Z; vb : Z; vc : Z; vd : Z; ve : Z; vf : Z; vg : Z; vh : Z }.
Definition round (v : vars) (k w : Z) : vars :=
  let t1 := vh v + big1 (ve v) + ch (ve v) (vf v) (vg v) + k + w in
  let t2 := big0 (va v) + maj (va v) (vb v) (vc v) in
  mkVars (u32 (t1 + t2)) (va v) (vb v) (vc v) (u32 (vd v + t1)) (ve v) (vf v) (vg v).
(** The rounds, with the schedule's next 16 words. *)
Fixpoint rounds (ks : list Z) (w : list Z) (v : vars) : vars :=
  match ks, w with
  | k :: ks, w0 :: w' =>
      let next := u32 (small1 (default 0 (w !! 14%nat)) + default 0 (w !! 9%nat) + small0 (default 0 (w !! 1%nat)) + w0) in
      rounds ks (w' ++ [next]) (round v k w0)
  | _, _ => v
  end.
Definition add_vars (a b : vars) : vars :=
  mkVars (u32 (va a + va b)) (u32 (vb a + vb b)) (u32 (vc a + vc b)) (u32 (vd a + vd b)) (u32 (ve a + ve b)) (u32 (vf a + vf b)) (u32 (vg a + vg b)) (u32 (vh a + vh b)).
Definition compress (v : vars) (block : list Z) : vars := add_vars v (rounds K block v).

(** ** The message *)

(** Big-endian words of four bytes. *)
Fixpoint words (l : list Z) : list Z :=
  match l with
  | a :: b :: c :: d :: l => (Z.shiftl a 24 + Z.shiftl b 16 + Z.shiftl c 8 + d) :: words l
  | _ => []
  end.
Fixpoint blocks (fuel : nat) (v : vars) (w : list Z) : vars :=
  match fuel, w with
  | S fuel, _ :: _ => blocks fuel (compress v (take 16 w)) (drop 16 w)
  | _, _ => v
  end.
Definition be (n : nat) (x : Z) : list Z := map (fun i => Z.land (Z.shiftr x (8 * Z.of_nat i)) 0xFF) (rev (seq 0 n)).
Definition padded (msg : bytes) : list Z :=
  map u8 msg ++ [0x80] ++ repeat 0 (Z.to_nat ((55 - len msg) mod 64)) ++ be 8 (8 * len msg).
Definition initial : vars :=
  let h i := default 0 (H0 !! i) in mkVars (h 0%nat) (h 1%nat) (h 2%nat) (h 3%nat) (h 4%nat) (h 5%nat) (h 6%nat) (h 7%nat).
Definition digest (msg : bytes) : list Z :=
  let w := words (padded msg) in
  let v := blocks (length w) initial w in
  concat (map (be 4) [va v; vb v; vc v; vd v; ve v; vf v; vg v; vh v]).

(** [hashlib.sha256(msg).hexdigest()]. *)
Definition hex_digit (n : Z) : Z := if n <? 10 then 48 + n else 87 + n.
Definition hexdigest (msg : bytes) : text := concat (map (fun b => [hex_digit (Z.shiftr b 4); hex_digit (Z.land b 15)]) (digest msg)).

Example sha256_empty : hexdigest [] = txt "e3b0c44298fc1c149afbf4c8996fb92427ae41e4649b934ca495991b7852b855".
Proof. vm_compute. reflexivity. Qed.
Example sha256_two_blocks :
  hexdigest (bstr "abcdbcdecdefdefgefghfghighijhijkijkljklmklmnlmnomnopnopq") = txt "248d6a61d20638b8e5c026930c3e6039a33ce45964ff2167f6ecedd419db06c1".
Proof. vm_compute. reflexivity. Qed.

(** ** A digest is 64 hexadecimal digits *)

Definition is_hex (c : Z) : bool := ((48 <=? c) && (c <=? 57)) || ((97 <=? c) && (c <=? 102)).
Lemma digest_bytes msg : length (digest msg) = 32%nat /\ Forall (fun b => 0 <= b < 256) (digest msg).
Proof.
  unfold digest. generalize (blocks (length (words (padded msg))) initial (words (padded msg))). intros v. split; [reflexivity|].
  assert (Hb : forall x, Forall (fun b => 0 <= b < 256) (be 4 x)).
  { intros x. unfold be. apply Forall_map, Forall_forall. intros i _. change 0xFF with (Z.ones 8). rewrite Z.land_ones by lia. apply Z.mod_pos_bound. lia. }
  apply Forall_concat, Forall_forall. intros x Hx. apply list_elem_of_fmap in Hx as (y & -> & _). apply Hb.
Qed.
Lemma hex_digit_hex n : 0 <= n < 16 -> is_hex (hex_digit n) = true.
Proof. intros H. unfold is_hex, hex_digit. destruct (Z.ltb_spec n 10); apply orb_true_iff; rewrite !andb_true_iff, !Z.leb_le; lia. Qed.
Lemma hexdigest_length msg : length (hexdigest msg) = 64%nat.
Proof.
  unfold hexdigest. destruct (digest_bytes msg) as [Hl _]. revert Hl. generalize (digest msg). intros l Hl.
  enough (length (concat (map (fun b => [hex_digit (Z.shiftr b 4); hex_digit (Z.land b 15)]) l)) = 2 * length l)%nat as -> by (by rewrite Hl).
  clear Hl. induction l as [|b l IH]; [done|]. cbn [map concat]. rewrite length_app, IH. cbn [length]. lia.
Qed.
Lemma hexdigest_hex msg : forallb is_hex (hexdigest msg) = true.
Proof.
  unfold hexdigest. destruct (digest_bytes msg) as [_ Hb]. induction Hb as [|b l Hb Hl IH]; [done|]. cbn [map concat]. rewrite forallb_app, IH. cbn [forallb].
  rewrite !hex_digit_hex; [done| |].
  - change 15 with (Z.ones 4). rewrite Z.land_ones by lia. apply Z.mod_pos_bound. lia.
  - rewrite Z.shiftr_div_pow2 by lia. change (2 ^ 4) with 16. dlia.
Qed.
