(* ===== verification/Upload.v ===== *)
(** * Transfer v2

    The two ends of the upload: firmware/fw_common/src/upload.rs's [upload_v2] as a program
    of the events it asks for, and tools/vux_tool.py's [send_upload_v2] as state passing over
    the serial port it talks to the device through. The port delivers the device's output in
    pieces whose sizes a schedule gives. *)
From Stdlib Require Import FunctionalExtensionality.
From S2P Require Import Prelude Crc Header Image Text.

Definition NL : byte := x0a.
Definition BLOCK : Z := 512.
Definition UPLOAD_V2_BLOCK : Z := 512.

(** ** The device *)

(** trait [UploadSink]: where the received bytes go. *)
Class UploadSink (S : Type) := {
  sink_begin : Z -> S -> bool * S;
  sink_block : Z -> bytes -> S -> bool * S;
  sink_finish : bool -> S -> bool * S
}.

(** A program over trait [Host]: output, a byte awaited ([None] on a timeout), input dropped. *)
Inductive dev (A : Type) : Type :=
| Ret (a : A)
| Put (s : bytes) (k : dev A)
| Recv (k : option byte -> dev A)
| Drain (k : dev A).
Arguments Ret {A}. Arguments Put {A}. Arguments Recv {A}. Arguments Drain {A}.

#[export] Instance dev_ret : MRet dev := fun _ => Ret.
#[export] Instance dev_bind : MBind dev := fun A B f =>
  fix go (d : dev A) : dev B :=
    match d with
    | Ret a => f a
    | Put s k => Put s (go k)
    | Recv k => Recv (fun o => go (k o))
    | Drain k => Drain (go k)
    end.

Definition put_bytes (s : bytes) : dev unit := Put s (Ret tt).
Definition recv : dev (option byte) := Recv Ret.
Definition put_line (s : bytes) : dev unit := put_bytes (s ++ [NL]).

(** [ready]. *)
Definition ready (what : string) (n : Z) : dev unit :=
  put_bytes (bstr "[READY-" ++ bstr what ++ put_dec n ++ bstr "]" ++ [NL]).

(** [recv_u32], from byte [i] on. *)
Fixpoint recv_le (n : nat) (i v : Z) : dev (option Z) :=
  match n with
  | O => mret (Some v)
  | S n => r ← recv;
      match r with
      | None => mret None
      | Some c => recv_le n (i + 1) (Z.lor v (Z.shiftl (u8 c) (8 * i)))
      end
  end.
Definition recv_u32 : dev (option Z) := recv_le 4 0 0.

(** [err], with the rest of its line. *)
Definition err (what : bytes) : dev unit := put_bytes (bstr "[ERR] " ++ what ++ [NL]).

(** The block's bytes: [inr i] when byte [i] doesn't come. *)
Fixpoint recv_block (n : nat) (i : Z) (acc : bytes) : dev (bytes + Z) :=
  match n with
  | O => mret (inl acc)
  | S n => r ← recv;
      match r with
      | None => mret (inr i)
      | Some c => recv_block n (i + 1) (acc ++ [c])
      end
  end.

Section Device.
Context {S : Type} `{UploadSink S}.

(** The loop [while rest > 0]: the CRC and the sink after it, or [None] when the exchange
    failed. *)
Fixpoint recv_blocks (fuel : nat) (rest index crc : Z) (s : S) : dev (option Z * S) :=
  match fuel with
  | O => mret (Some crc, s)
  | Datatypes.S fuel =>
      if 0 <? rest then
        let n := if rest <? BLOCK then rest else BLOCK in
        _ ← ready "BLK:" index;
        r ← recv_block (Z.to_nat n) 0 [];
        match r with
        | inr i =>
            _ ← err (bstr "Timeout at block " ++ put_dec index ++ bstr ", byte " ++ put_dec i);
            mret (None, snd (sink_finish false s))
        | inl buf =>
            let '(ok, s) := sink_block index buf s in
            if negb ok then
              _ ← err (bstr "Store failed at block " ++ put_dec index);
              mret (None, snd (sink_finish false s))
            else recv_blocks fuel (rest - n) (index + 1) (crc32_update buf crc) s
        end
      else mret (Some crc, s)
  end.

(** [upload_v2] once the blocks are in: the checksum and the commit. *)
Definition upload_crc (len : Z) (b : option Z * S) : dev (option Z * S) :=
  match b with
  | (None, s) => mret (None, s)
  | (Some crc, s) =>
      let crc := Z.lxor crc 0xFFFFFFFF in
      _ ← put_line (bstr "[READY-CRC]");
      r ← recv_u32;
      match r with
      | None => _ ← err (bstr "CRC timeout"); mret (None, snd (sink_finish false s))
      | Some sent =>
          if negb (sent =? crc) then
            _ ← err (bstr "CRC mismatch: sent " ++ put_hex sent ++ bstr ", received " ++ put_hex crc);
            mret (None, snd (sink_finish false s))
          else
            let '(ok, s) := sink_finish true s in
            if negb ok then _ ← err (bstr "Commit failed"); mret (None, s)
            else
              _ ← put_line (bstr "[OK] " ++ put_dec len ++ bstr " bytes CRC " ++ put_hex crc);
              mret (Some len, s)
      end
  end.

(** [upload_v2] once it has waited for the length. *)
Definition upload_length (max_len : Z) (s : S) (r : option Z) : dev (option Z * S) :=
  match r with
  | None => _ ← err (bstr "Length timeout"); mret (None, s)
  | Some len =>
      if (len =? 0) || (max_len <? len) then
        _ ← err (bstr "Bad length: " ++ put_dec len); mret (None, s)
      else
        let '(ok, s) := sink_begin len s in
        if negb ok then
          _ ← err (bstr "Cannot store " ++ put_dec len ++ bstr " bytes"); mret (None, s)
        else
          _ ← put_line (bstr "[LEN:" ++ put_dec len ++ bstr "]");
          b ← recv_blocks (Z.to_nat len) len 0 0xFFFFFFFF s;
          upload_crc len b
  end.

(** [upload_v2]: the length on success, and the sink. *)
Definition upload_v2 (max_len : Z) (s : S) : dev (option Z * S) :=
  _ ← Drain (Ret tt);
  _ ← put_line (bstr "[READY-V2]");
  r ← recv_u32;
  upload_length max_len s r.

End Device.

(** A device given input: what it prints and where it waits (or ends). *)
Fixpoint feed {A} (d : dev A) (inp : bytes) : bytes * dev A :=
  match d with
  | Ret a => ([], Ret a)
  | Put s k => let '(o, d) := feed k inp in (s ++ o, d)
  | Drain k => feed k []
  | Recv k => match inp with [] => ([], Recv k) | c :: inp => feed (k (Some c)) inp end
  end.

(** The same once nothing more comes in time: every byte awaited times out. *)
Fixpoint starve {A} (d : dev A) : bytes * A :=
  match d with
  | Ret a => ([], a)
  | Put s k => let '(o, a) := starve k in (s ++ o, a)
  | Drain k => starve k
  | Recv k => starve (k None)
  end.

(** ** The host *)

(** The serial port: the device, its output not read yet, and how many bytes of it each read
    finds (all of it once the list ends). *)
Record port (A : Type) := mkPort { p_dev : dev A; p_out : bytes; p_sched : list nat }.
Arguments mkPort {A}. Arguments p_dev {A}. Arguments p_out {A}. Arguments p_sched {A}.

(** The host's calls: state passing, with exceptions. *)
Definition io (D A : Type) : Type := port D -> res A * port D.
#[export] Instance io_ret {D} : MRet (io D) := fun _ a p => (Ok a, p).
#[export] Instance io_bind {D} : MBind (io D) := fun _ _ f m p =>
  match m p with (Ok a, p) => f a p | (Raise e, p) => (Raise e, p) end.
Definition io_raise {D A} (e : exn) : io D A := fun p => (Raise e, p).
Definition io_res {D A} (m : res A) : io D A := fun p => (m, p).

(** The bytes up to the first newline, it included. *)
Fixpoint cut_line (l : bytes) : bytes :=
  match l with
  | [] => []
  | c :: l => if bool_decide (c = NL) then [c] else c :: cut_line l
  end.

(** [ser.read_until(b"\n")]: up to a newline, or what arrives before the port's timeout. *)
Definition ser_read_line {D} : io D bytes := fun p =>
  let avail := match p_sched p with [] => p_out p | n :: _ => take n (p_out p) end in
  let data := cut_line avail in
  (Ok data, mkPort (p_dev p) (drop (length data) (p_out p)) (tail (p_sched p))).

(** [ser.write]. *)
Definition ser_write {D} (data : bytes) : io D unit := fun p =>
  let '(o, d) := feed (p_dev p) data in (Ok tt, mkPort d (p_out p ++ o) (p_sched p)).

(** [l.endswith(b"\n")]. *)
Definition ends_nl (l : bytes) : bool := bool_decide (list.last l = Some NL).

Definition UPLOAD_TAGS : list text := [txt "[READY"; txt "[LEN:"; txt "[OK]"; txt "[ERR]"].
Definition is_tag_line (line : text) : bool := existsb (fun t => startswith t line) UPLOAD_TAGS.

Section Host.
Context {D : Type}.

(** [_upload_line]: [n] is the number of reads the deadline leaves time for. *)
Fixpoint upload_line (n : nat) (buf : bytes) : io D text :=
  match n with
  | O => io_raise (UploadNoAnswer buf)
  | S n =>
      data ← ser_read_line;
      let buf := buf ++ data in
      if ends_nl buf then
        let line := py_strip (decode_ascii buf) in
        if is_tag_line line then mret line else upload_line n []
      else upload_line n buf
  end.

(** [_upload_expect]. *)
Definition upload_expect (n : nat) (want : text) : io D text :=
  line ← upload_line n [];
  if startswith (txt "[ERR]") line || negb (startswith want line)
  then io_raise (UploadError line) else mret line.

(** The loop over the blocks. *)
Fixpoint send_blocks (n : nat) (i : Z) (blocks : list bytes) : io D unit :=
  match blocks with
  | [] => mret tt
  | b :: blocks =>
      _ ← upload_expect n (txt "[READY-BLK:" ++ dec i ++ txt "]");
      _ ← ser_write b;
      send_blocks n (i + 1) blocks
  end.

(** [send_upload_v2] (without the progress callback, which only watches). *)
Definition send_upload_v2 (n : nat) (data : bytes) (crc_override : option Z) : io D text :=
  _ ← upload_expect n (txt "[READY-V2]");
  l ← io_res (pack_uint 4 (len data));
  _ ← ser_write l;
  _ ← upload_expect n (txt "[LEN:" ++ dec (len data) ++ txt "]");
  _ ← send_blocks n 0 (chunks UPLOAD_V2_BLOCK data);
  _ ← upload_expect n (txt "[READY-CRC]");
  let crc := match crc_override with
    | Some c => c | None => Z.land (binascii_crc32 data) 0xFFFFFFFF end in
  c ← io_res (pack_uint 4 crc);
  _ ← ser_write c;
  upload_expect n (txt "[OK]").

End Host.

(** ** What the two of them promise: the transfer *)

Section Transfer.
Context {S : Type} `{UploadSink S}.

Definition hex_text (v : Z) : text := map u8 (put_hex v).

(** The blocks, stored in order: the failure's line and the sink. *)
Fixpoint store_blocks (i : Z) (blocks : list bytes) (s : S) : option text * S :=
  match blocks with
  | [] => (None, s)
  | b :: blocks =>
      let '(ok, s) := sink_block i b s in
      if ok then store_blocks (i + 1) blocks s
      else (Some (txt "[ERR] Store failed at block " ++ dec i), snd (sink_finish false s))
  end.

(** The end of the transfer, once every block is stored. *)
Definition transfer_end (data : bytes) (sent : Z) (s : S) : res text * S :=
  let crc := binascii_crc32 data in
  if negb (sent =? crc) then
    (Raise (UploadError (txt "[ERR] CRC mismatch: sent " ++ hex_text sent ++ txt ", received " ++ hex_text crc)),
     snd (sink_finish false s))
  else
    let '(ok, s) := sink_finish true s in
    if negb ok then (Raise (UploadError (txt "[ERR] Commit failed")), s)
    else (Ok (txt "[OK] " ++ dec (len data) ++ txt " bytes CRC " ++ hex_text crc), s).

(** Moving [data] into the sink with checksum [sent]: the line the host gets, or raises. *)
Definition transfer (data : bytes) (sent max_len : Z) (s : S) : res text * S :=
  let fail t s := (Raise (UploadError t), s) in
  if (len data =? 0) || (max_len <? len data) then
    fail (txt "[ERR] Bad length: " ++ dec (len data)) s
  else
    let '(ok, s) := sink_begin (len data) s in
    if negb ok then fail (txt "[ERR] Cannot store " ++ dec (len data) ++ txt " bytes") s
    else match store_blocks 0 (chunks BLOCK data) s with
    | (Some t, s) => fail t s
    | (None, s) => transfer_end data sent s
    end.

End Transfer.

(** ** Lines *)

Definition printable (c : byte) : bool := (0x20 <=? u8 c) && (u8 c <=? 0x7E).
Definition graph (c : byte) : bool := (0x21 <=? u8 c) && (u8 c <=? 0x7E).

(** What a line of the device's reads as on the host. *)
Definition line_reads (l : bytes) (t : text) : Prop :=
  ~ NL ∈ l /\ py_strip (decode_ascii (l ++ [NL])) = t.

Lemma graph_not_space c : graph c = true -> is_pyspace (u8 c) = false.
Proof. unfold graph, is_pyspace. lia. Qed.

Lemma decode_ascii_app l k : decode_ascii (l ++ k) = decode_ascii l ++ decode_ascii k.
Proof. apply map_app. Qed.

Lemma decode_printable l : forallb printable l = true -> decode_ascii l = map u8 l.
Proof.
  induction l as [|c l IH]; [done|]. simpl. intros [Hc Hl]%andb_true_iff.
  rewrite IH by done. unfold printable in Hc. by replace (u8 c <? 128) with true by lia.
Qed.

(** A printable line without outer blanks is read back whole. *)
Lemma line_reads_intro c m d :
  forallb printable (c :: m ++ [d]) = true -> graph c = true -> graph d = true ->
  line_reads (c :: m ++ [d]) (map u8 (c :: m ++ [d])).
Proof.
  intros Hp Hc Hd. split.
  - intros Hin. rewrite forallb_forall in Hp. specialize (Hp NL).
    rewrite <- list_elem_of_In in Hp. by specialize (Hp Hin).
  - rewrite decode_ascii_app, decode_printable by done.
    change (decode_ascii [NL]) with [10].
    cbn [map]. rewrite map_app. cbn [map].
    apply (strip_line (u8 c) (map u8 m) (u8 d)); by apply graph_not_space.
Qed.

Lemma sub_while_digit f val p digit : digit <= snd (sub_while f val p digit) <= digit + Z.of_nat f.
Proof.
  revert val digit. induction f as [|f IH]; intros; simpl; [lia|].
  destruct (p <=? val); simpl; [|lia]. specialize (IH (val - p) (digit + 1)). lia.
Qed.

Lemma put_dec_loop_graph ps val st : forallb graph (put_dec_loop ps val st) = true.
Proof.
  revert val st. induction ps as [|p ps IH]; intros; [done|]. cbn [put_dec_loop].
  pose proof (sub_while_digit 10 val p 0) as Hd. destruct (sub_while 10 val p 0) as [v d]. cbn [snd] in Hd.
  destruct (_ || _); [|apply IH]. cbn [forallb]. rewrite IH, andb_true_r. unfold graph.
  rewrite u8_of_Z; lia.
Qed.

Lemma put_dec_loop_last ps val st : exists m d, put_dec_loop (ps ++ [1]) val st = m ++ [d].
Proof.
  revert val st. induction ps as [|p ps IH]; intros; cbn [app put_dec_loop].
  - destruct (sub_while 10 val 1 0) as [v d]. rewrite orb_true_r. cbn iota.
    by exists [], (byte.of_Z (48 + d)).
  - destruct (sub_while 10 val p 0) as [v d]. destruct (_ || _); [|apply IH].
    destruct (IH v true) as (m & e & ->). by exists (byte.of_Z (48 + d) :: m), e.
Qed.

Lemma graph_printable l : forallb graph l = true -> forallb printable l = true.
Proof.
  rewrite !forallb_forall. intros Hl c Hc. specialize (Hl c Hc). unfold graph, printable in *. lia.
Qed.

Lemma put_dec_ends n : exists m d, put_dec n = m ++ [d] /\ graph d = true /\ forallb printable (m ++ [d]) = true.
Proof.
  pose proof (put_dec_loop_graph POWERS n false) as Hg.
  destruct (put_dec_loop_last [1000000000; 100000000; 10000000; 1000000; 100000; 10000; 1000; 100; 10] n false)
    as (m & d & E). unfold put_dec. unfold POWERS in *. simpl app in E. rewrite E in *.
  exists m, d. repeat split; [|by apply graph_printable].
  rewrite forallb_app in Hg. apply andb_true_iff in Hg as [_ Hd]. simpl in Hd. by rewrite andb_true_r in Hd.
Qed.

Lemma hex_upper_graph k : 0 <= k < 16 -> graph (nth (Z.to_nat k) HEX x00) = true.
Proof.
  intros Hk. assert (forallb (fun i => graph (nth i HEX x00)) (seq 0 16) = true) as Hf by reflexivity.
  rewrite forallb_forall in Hf. apply Hf. rewrite in_seq. lia.
Qed.

Lemma put_hex_graph v : forallb graph (put_hex v) = true.
Proof.
  unfold put_hex. rewrite forallb_forall. intros c (sh & <- & _)%in_map_iff.
  apply hex_upper_graph. rewrite (land_mask _ 4) by lia. apply Z.mod_pos_bound. lia.
Qed.

Lemma put_hex_ends v : exists m d, put_hex v = m ++ [d] /\ graph d = true /\ forallb printable (m ++ [d]) = true.
Proof.
  pose proof (put_hex_graph v) as Hg. unfold put_hex in *.
  change [7; 6; 5; 4; 3; 2; 1; 0] with ([7; 6; 5; 4; 3; 2; 1] ++ [0]) in *. rewrite map_app in *.
  cbn [map] in *. eexists _, _. split; [reflexivity|]. split; [|by apply graph_printable].
  rewrite forallb_app in Hg. apply andb_true_iff in Hg as [_ Hd]. cbn [forallb] in Hd.
  by rewrite andb_true_r in Hd.
Qed.

Definition ends_graph (l : bytes) : bool :=
  match list.last l with Some d => graph d | None => false end.

Lemma ends_graph_app l k : ends_graph k = true -> ends_graph (l ++ k) = true.
Proof.
  unfold ends_graph. destruct (list.last k) eqn:E; [|done]. rewrite last_app, E. done.
Qed.

Lemma line_reads_graph c l :
  graph c = true -> forallb printable (c :: l) = true -> ends_graph l = true ->
  line_reads (c :: l) (map u8 (c :: l)).
Proof.
  unfold ends_graph. intros Hc Hp Hd. destruct (list.last l) as [d|] eqn:E; [|done].
  apply last_Some in E as (m & ->). by apply line_reads_intro.
Qed.

Lemma put_dec_ends_graph n : ends_graph (put_dec n) = true.
Proof.
  destruct (put_dec_ends n) as (m & d & -> & Hd & _). apply ends_graph_app. done.
Qed.

Lemma put_hex_ends_graph n : ends_graph (put_hex n) = true.
Proof.
  destruct (put_hex_ends n) as (m & d & -> & Hd & _). apply ends_graph_app. done.
Qed.

Lemma put_dec_printable n : forallb printable (put_dec n) = true.
Proof. apply graph_printable, put_dec_loop_graph. Qed.

Lemma put_hex_printable n : forallb printable (put_hex n) = true.
Proof. apply graph_printable, put_hex_graph. Qed.

#[local] Hint Resolve put_dec_ends_graph put_hex_ends_graph ends_graph_app : core.

Lemma line_reads_map l t : line_reads l (map u8 l) -> map u8 l = t -> line_reads l t.
Proof. by intros H <-. Qed.

Lemma bracket_line pre body :
  match pre with c :: _ => graph c | [] => false end = true ->
  forallb printable pre = true -> forallb printable body = true -> ends_graph body = true ->
  line_reads (pre ++ body) (map u8 (pre ++ body)).
Proof.
  intros Hc Hp Hb He. destruct pre as [|c pre]; [done|]. cbn [app].
  apply line_reads_graph; [done| |by apply ends_graph_app].
  change (c :: pre ++ body) with ((c :: pre) ++ body). by rewrite forallb_app, Hp, Hb.
Qed.

Lemma line_dec pre n :
  match pre with c :: _ => graph c | [] => false end = true -> forallb printable pre = true ->
  0 <= n < 2 ^ 32 ->
  line_reads (pre ++ put_dec n) (map u8 pre ++ dec n).
Proof.
  intros. rewrite <- put_dec_dec by done. rewrite <- map_app.
  apply bracket_line; auto using put_dec_printable.
Qed.

Lemma line_dec_post pre n post :
  match pre with c :: _ => graph c | [] => false end = true -> forallb printable pre = true ->
  forallb printable post = true -> ends_graph post = true -> 0 <= n < 2 ^ 32 ->
  line_reads (pre ++ put_dec n ++ post) (map u8 pre ++ dec n ++ map u8 post).
Proof.
  intros. rewrite <- put_dec_dec by done. rewrite <- !map_app.
  apply bracket_line; auto. by rewrite forallb_app, put_dec_printable.
Qed.

(** ** Reading lines *)

Lemma cut_line_no_nl l : ~ NL ∈ l -> cut_line l = l.
Proof.
  induction l as [|c l IH]; [done|]. simpl. rewrite not_elem_of_cons. intros [Hc Hl].
  rewrite bool_decide_false by congruence. by rewrite IH.
Qed.

Lemma cut_line_at l rest : ~ NL ∈ l -> cut_line (l ++ NL :: rest) = l ++ [NL].
Proof.
  induction l as [|c l IH]; simpl; [done|]. rewrite not_elem_of_cons. intros [Hc Hl].
  rewrite bool_decide_false by congruence. by rewrite IH.
Qed.

Lemma ends_nl_snoc l : ends_nl (l ++ [NL]) = true.
Proof. unfold ends_nl. by rewrite last_snoc. Qed.

Lemma ends_nl_not l : ~ NL ∈ l -> ends_nl l = false.
Proof.
  unfold ends_nl. intros Hl. apply bool_decide_false. intros E.
  apply last_Some in E as (k & ->). apply Hl. set_solver.
Qed.

(** What a read returns, and what it leaves: part of the line, or all that is left of it. *)
Lemma ser_read_cases {D} (d : dev D) t rest sched :
  ~ NL ∈ t ->
  (exists k sched', sched = k :: sched' /\ (k <= length t)%nat /\
     ser_read_line (mkPort d (t ++ NL :: rest) sched) =
       (Ok (take k t), mkPort d (drop k t ++ NL :: rest) sched')) \/
  ser_read_line (mkPort d (t ++ NL :: rest) sched) = (Ok (t ++ [NL]), mkPort d rest (tail sched)).
Proof.
  intros Ht.
  assert (forall av, cut_line av = t ++ [NL] ->
    (let data := cut_line av in
     (@Ok bytes data, mkPort d (drop (length data) (t ++ NL :: rest)) (tail sched))) =
    (Ok (t ++ [NL]), mkPort d rest (tail sched))) as Hfull.
  { intros av ->. cbn zeta. f_equal. f_equal.
    change (NL :: rest) with ([NL] ++ rest). by rewrite app_assoc, drop_app_length. }
  unfold ser_read_line. cbn [p_sched p_out p_dev].
  destruct sched as [|k sched]; [right; apply Hfull, cut_line_at; done|].
  destruct (Nat.le_gt_cases k (length t)) as [Hk|Hk].
  - left. exists k, sched. split; [done|]. split; [done|].
    rewrite take_app_le by done.
    rewrite cut_line_no_nl by (intros Hin; apply Ht; apply elem_of_take in Hin as (i & Hi & _); by eapply list_elem_of_lookup_2).
    cbn zeta. rewrite length_take, Nat.min_l by done. by rewrite drop_app_le.
  - right. apply Hfull. rewrite take_app_ge by lia.
    replace (k - length t)%nat with (S (k - length t - 1)) by lia. cbn [take firstn].
    by apply cut_line_at.
Qed.

(** Lines the host skips: whatever arrives before the exchange's own lines. *)
Definition quiet (l : bytes) : Prop :=
  ~ NL ∈ l /\ is_tag_line (py_strip (decode_ascii (l ++ [NL]))) = false.

Definition noise_bytes (ls : list bytes) : bytes := concat (map (fun l => l ++ [NL]) ls).

(** Reading one line after any number of quiet ones, however the port splits them. *)
Lemma upload_line_reads {D} (d : dev D) n ls l t buf out rest sched :
  Forall quiet ls -> line_reads l t -> is_tag_line t = true ->
  ~ NL ∈ buf -> buf ++ out = noise_bytes ls ++ l ++ NL :: rest ->
  (length sched + length ls < n)%nat ->
  exists sched', (length sched' <= length sched)%nat /\
    upload_line n buf (mkPort d out sched) = (Ok t, mkPort d rest sched').
Proof.
  intros Hq [Hl Ht] Htag. revert ls buf out sched Hq.
  induction n as [|n IH]; intros ls buf out sched Hq Hbuf Hout Hn; [lia|].
  (* the line being read, and what follows it *)
  assert (exists L R, ~ NL ∈ L /\ buf ++ out = L ++ NL :: R /\
    ((L = l /\ R = rest /\ ls = []) \/
     (exists ls', quiet L /\ ls = L :: ls' /\ R = noise_bytes ls' ++ l ++ NL :: rest)))
    as (L & R & HL & HO & Hcase).
  { destruct ls as [|L ls].
    - exists l, rest. split; [done|]. split; [exact Hout|]. by left.
    - inversion Hq; subst. exists L, (noise_bytes ls ++ l ++ NL :: rest). split; [by destruct H1|].
      split; [|right; by exists ls].
      rewrite Hout. unfold noise_bytes. cbn [map concat]. by rewrite <- !app_assoc. }
  assert (exists t0, L = buf ++ t0 /\ out = t0 ++ NL :: R) as (t0 & -> & ->).
  { apply app_eq_inv in HO as [(k & Hb & Ho) | (k & Hb & Ho)].
    - destruct k as [|c k]; [exists []; rewrite app_nil_r in *; by subst|].
      exfalso. simpl in Ho. injection Ho as <- Ho. apply Hbuf. rewrite Hb. apply elem_of_app. right. constructor.
    - exists k. by subst. }
  assert (~ NL ∈ t0) as Ht0 by (intros Hin; apply HL, elem_of_app; by right).
  cbn [upload_line]. unfold mbind, io_bind.
  destruct (ser_read_cases d t0 R sched Ht0) as [(k & sched' & -> & Hk & ->) | ->].
  - rewrite ends_nl_not.
    + destruct (IH ls (buf ++ take k t0) (drop k t0 ++ NL :: R) sched') as (s'' & Hs & Hr); try done.
      * rewrite not_elem_of_app. split; [done|]. intros Hin. apply Ht0.
        rewrite <- (take_drop k t0). apply elem_of_app. by left.
      * rewrite <- app_assoc, (app_assoc (take k t0)), take_drop. by rewrite <- Hout, app_assoc.
      * simpl in Hn. lia.
      * exists s''. split; [simpl; lia|done].
    + rewrite not_elem_of_app. split; [done|]. intros Hin. apply Ht0.
      rewrite <- (take_drop k t0). apply elem_of_app. by left.
  - rewrite app_assoc, ends_nl_snoc. destruct Hcase as [(<- & -> & ->) | (ls' & [_ HqL] & -> & ->)].
    + rewrite Ht, Htag. exists (tail sched). split; [destruct sched; simpl; lia|done].
    + rewrite HqL. inversion Hq; subst.
      destruct (IH ls' [] (noise_bytes ls' ++ l ++ NL :: rest) (tail sched)) as (s'' & Hs & Hr); try done.
      * set_solver.
      * destruct sched; simpl in *; lia.
      * exists s''. split; [destruct sched; simpl in *; lia|done].
Qed.

(** ** The two together *)

(** The port to a device that has run as far as it can. *)
Definition connect {A} (od : bytes * dev A) (sched : list nat) : port A := mkPort od.2 od.1 sched.

(** The device's output comes before what it does next. *)
Definition prepend {A} (s : bytes) (od : bytes * dev A) : bytes * dev A := (s ++ od.1, od.2).

Lemma bind_dev_assoc {A B C} (m : dev A) (f : A -> dev B) (g : B -> dev C) :
  (m ≫= f) ≫= g = m ≫= (fun a => f a ≫= g).
Proof.
  unfold mbind, dev_bind. induction m as [a|s k IH|k IH|k IH]; simpl; [done|by rewrite IH| |by rewrite IH].
  f_equal. apply functional_extensionality. apply IH.
Qed.

Lemma feed_put {B} (s : bytes) (f : unit -> dev B) inp :
  feed (put_bytes s ≫= f) inp = prepend s (feed (f tt) inp).
Proof. simpl. by destruct (feed (f tt) inp). Qed.

Lemma feed_recv_u32_app {B} (f : option Z -> dev B) v rest :
  0 <= v < 2 ^ 32 -> feed (recv_u32 ≫= f) (le_split 4 v ++ rest) = feed (f (Some v)) rest.
Proof.
  intros Hv.
  assert (exists b0 b1 b2 b3, le_split 4 v = [b0; b1; b2; b3]) as (b0 & b1 & b2 & b3 & E)
    by (repeat eexists; reflexivity).
  rewrite E. simpl feed. do 3 f_equal.
  rewrite <- (le_combine_split_in 4 v) by (simpl; lia). rewrite E, le_combine_4.
  unfold u8. pose proof (byte.unsigned_range b0). pose proof (byte.unsigned_range b1).
  pose proof (byte.unsigned_range b2). pose proof (byte.unsigned_range b3).
  change (0 + 1) with 1. change (1 + 1) with 2. change (2 + 1) with 3. simpl (8 * _).
  rewrite Z.shiftl_0_r, Z.lor_0_l.
  rewrite (Z.lor_comm (byte.unsigned b0)), lor_shiftl_add by lia.
  rewrite (Z.lor_comm _ (Z.shiftl (byte.unsigned b2) _)), lor_shiftl_add by lia.
  rewrite (Z.lor_comm _ (Z.shiftl (byte.unsigned b3) _)), lor_shiftl_add by lia. lia.
Qed.

Lemma feed_recv_u32 {B} (f : option Z -> dev B) v :
  0 <= v < 2 ^ 32 -> feed (recv_u32 ≫= f) (le_split 4 v) = feed (f (Some v)) [].
Proof. intros Hv. by rewrite <- (app_nil_r (le_split 4 v)), feed_recv_u32_app. Qed.

Lemma feed_recv_block {B} (f : bytes + Z -> dev B) n i acc chunk :
  length chunk = n -> feed (recv_block n i acc ≫= f) chunk = feed (f (inl (acc ++ chunk))) [].
Proof.
  revert i acc chunk. induction n as [|n IH]; intros i acc chunk Hn.
  - destruct chunk; [|done]. by rewrite app_nil_r.
  - destruct chunk as [|c chunk]; [done|]. simpl in Hn. injection Hn as Hn.
    change (feed (recv_block (S n) i acc ≫= f) (c :: chunk))
      with (feed (recv_block n (i + 1) (acc ++ [c]) ≫= f) chunk).
    rewrite IH by done. by rewrite <- app_assoc.
Qed.

Lemma feed_recv_wait {B} (f : bytes + Z -> dev B) n i acc :
  (0 < n)%nat -> feed (recv_block n i acc ≫= f) [] = ([], recv_block n i acc ≫= f).
Proof. by destruct n; [lia|]. Qed.

Lemma io_bind_Ok {D A B} (m : io D A) (f : A -> io D B) p a p' :
  m p = (Ok a, p') -> (m ≫= f) p = f a p'.
Proof. intros H. unfold mbind, io_bind. by rewrite H. Qed.

Lemma io_bind_Raise {D A B} (m : io D A) (f : A -> io D B) p e p' :
  m p = (Raise e, p') -> (m ≫= f) p = (Raise e, p').
Proof. intros H. unfold mbind, io_bind. by rewrite H. Qed.

Lemma io_bind_assoc {D A B C} (m : io D A) (f : A -> io D B) (g : B -> io D C) p :
  ((m ≫= f) ≫= g) p = (m ≫= (fun a => f a ≫= g)) p.
Proof. unfold mbind, io_bind. by destruct (m p) as [[a|e] p']. Qed.

(** Waiting for a line: it is the one wanted, or an error's. *)
Lemma expect_line {D} (d : dev D) n want l t rest ls sched :
  line_reads l t -> is_tag_line t = true -> Forall quiet ls ->
  (length sched + length ls < n)%nat ->
  exists sched', (length sched' <= length sched)%nat /\
    upload_expect n want (mkPort d (noise_bytes ls ++ l ++ NL :: rest) sched) =
      ((if startswith (txt "[ERR]") t || negb (startswith want t)
        then Raise (UploadError t) else Ok t), mkPort d rest sched').
Proof.
  intros Hl Ht Hq Hn.
  destruct (upload_line_reads d n ls l t [] (noise_bytes ls ++ l ++ NL :: rest) rest sched)
    as (sched' & Hs & Hr); try done; [set_solver|].
  exists sched'. split; [done|]. unfold upload_expect. erewrite io_bind_Ok by exact Hr.
  by destruct (startswith _ t || _).
Qed.

Lemma expect_ok {D} (d : dev D) n want l t out rest sched :
  out = l ++ NL :: rest ->
  line_reads l t -> is_tag_line t = true -> startswith (txt "[ERR]") t = false ->
  startswith want t = true -> (length sched < n)%nat ->
  exists sched', (length sched' <= length sched)%nat /\
    upload_expect n want (mkPort d out sched) = (Ok t, mkPort d rest sched').
Proof.
  intros -> Hl Ht He Hw Hn. destruct (expect_line d n want l t rest [] sched) as (s & Hs & Hr);
    [done|done|constructor|simpl; lia|]. exists s. split; [done|].
  change (noise_bytes [] ++ l ++ NL :: rest) with (l ++ NL :: rest) in Hr. by rewrite Hr, He, Hw.
Qed.

Lemma expect_err {D} (d : dev D) n want l t out rest sched :
  out = l ++ NL :: rest ->
  line_reads l t -> startswith (txt "[ERR]") t = true -> is_tag_line t = true -> (length sched < n)%nat ->
  exists sched', (length sched' <= length sched)%nat /\
    upload_expect n want (mkPort d out sched) = (Raise (UploadError t), mkPort d rest sched').
Proof.
  intros -> Hl He Ht Hn. destruct (expect_line d n want l t rest [] sched) as (s & Hs & Hr);
    [done|done|constructor|simpl; lia|]. exists s. split; [done|].
  change (noise_bytes [] ++ l ++ NL :: rest) with (l ++ NL :: rest) in Hr. by rewrite Hr, He.
Qed.

Section Session.
Context {S : Type} `{UploadSink S}.

Lemma feed_err {B} what (f : unit -> dev B) inp :
  feed (err what ≫= f) inp = prepend (bstr "[ERR] " ++ what ++ [NL]) (feed (f tt) inp).
Proof. apply feed_put. Qed.

(** One block at the device: stored, or refused. *)
Lemma device_block {B} (F : option Z * S -> dev B) fuel data i crc s :
  data <> [] -> (length data <= fuel)%nat ->
  let chunk := take (Z.to_nat 512) data in
  exists k, feed (recv_blocks fuel (len data) i crc s ≫= F) [] =
      (bstr "[READY-" ++ bstr "BLK:" ++ put_dec i ++ bstr "]" ++ [NL], k) /\
    feed k chunk =
      let '(ok, s') := sink_block i chunk s in
      if ok then feed (recv_blocks (fuel - 1) (len (drop (Z.to_nat 512) data)) (i + 1)
                         (crc32_update chunk crc) s' ≫= F) []
      else prepend (bstr "[ERR] " ++ (bstr "Store failed at block " ++ put_dec i) ++ [NL])
             (feed (F (None, snd (sink_finish false s'))) []).
Proof.
  intros Hd Hf chunk. destruct fuel as [|fuel]; [destruct data; simpl in Hf; [done|lia]|].
  assert (0 < len data) as Hpos by (destruct data; [done|]; unfold len; simpl; lia).
  cbn [recv_blocks]. replace (0 <? len data) with true by lia.
  set (n := if len data <? BLOCK then len data else BLOCK).
  assert (n = len chunk) as Hn by (unfold n, chunk, BLOCK; rewrite len_take; destruct (len data <? 512) eqn:E; lia).
  assert (0 < len chunk) by (unfold chunk; rewrite len_take; lia).
  rewrite bind_dev_assoc. unfold ready. rewrite feed_put. unfold prepend.
  rewrite bind_dev_assoc, Hn, feed_recv_wait by lia. cbn [fst snd].
  eexists. split; [by rewrite app_nil_r|].
  rewrite feed_recv_block by (unfold len; lia). cbn [app].
  destruct (sink_block i chunk s) as [[|] s']; cbn [negb].
  - do 3 f_equal; [lia|]. unfold chunk. rewrite len_take, len_drop. lia.
  - by rewrite bind_dev_assoc, feed_err.
Qed.

(** What the host does on a device that has ended with a line about its failure. *)
Lemma error_line {B} (n : nat) want t l (d : dev B) sched :
  line_reads (bstr "[ERR] " ++ l) (txt "[ERR] " ++ t) -> (length sched < n)%nat ->
  exists sched', (length sched' <= length sched)%nat /\
    upload_expect n want (mkPort d (bstr "[ERR] " ++ l ++ [NL]) sched) =
      (Raise (UploadError (txt "[ERR] " ++ t)), mkPort d [] sched').
Proof.
  intros Hl Hn. eapply expect_err; try done. by rewrite <- app_assoc.
Qed.

Lemma ser_write_connect {B} (d k : dev B) (o data : bytes) sched :
  feed d data = (o, k) -> ser_write data (mkPort d [] sched) = (Ok tt, mkPort k o sched).
Proof. intros E. unfold ser_write. cbn [p_dev p_out p_sched]. by rewrite E. Qed.

(** The block loops, one against the other: the host goes on once every block is stored, and
    the first one refused is the error it raises. *)
Lemma send_blocks_run {A} (F : option Z * S -> dev (option Z * S)) n want (K : io (option Z * S) A)
    data i crc s fuel sched :
  (forall s, F (None, s) = Ret (None, s)) ->
  (length data <= fuel)%nat -> 0 <= i -> i + len data < 2 ^ 32 -> (length sched < n)%nat ->
  exists sched', (length sched' <= length sched)%nat /\
    (_ ← send_blocks n i (chunks 512 data); _ ← upload_expect n want; K)
      (connect (feed (recv_blocks fuel (len data) i crc s ≫= F) []) sched) =
    match store_blocks i (chunks 512 data) s with
    | (None, s') => (_ ← upload_expect n want; K)
                      (connect (feed (F (Some (crc32_update data crc), s')) []) sched')
    | (Some t, s') => (Raise (UploadError t), mkPort (Ret (None, s')) [] sched')
    end.
Proof.
  intros HF. revert i crc s fuel sched.
  induction data as [|data Hd IH] using (chunk_ind 512 ltac:(lia)); intros i crc s fuel sched Hf Hi Hmax Hn.
  { exists sched. split; [done|]. rewrite chunks_nil. cbn [store_blocks send_blocks].
    by destruct fuel. }
  destruct (device_block F fuel data i crc s Hd Hf) as (k & Hk & Hchunk).
  rewrite Hk. rewrite (chunks_step 512 data) by (done || lia). cbn [store_blocks send_blocks].
  unfold connect. cbn [fst snd].
  assert (0 < len data) as Hpos by (destruct data; [done|]; unfold len; simpl; lia).
  destruct (expect_ok k n (txt "[READY-BLK:" ++ dec i ++ txt "]")
    (bstr "[READY-BLK:" ++ put_dec i ++ bstr "]") (txt "[READY-BLK:" ++ dec i ++ txt "]")
    (bstr "[READY-" ++ bstr "BLK:" ++ put_dec i ++ bstr "]" ++ [NL]) [] sched)
    as (s1 & Hs1 & H1); try done.
  { by rewrite <- !app_assoc. }
  { apply line_dec_post; try done. lia. }
  { apply startswith_refl. }
  rewrite io_bind_assoc. erewrite io_bind_Ok by exact H1. rewrite io_bind_assoc.
  destruct (sink_block i (take (Z.to_nat 512) data) s) as [[|] s'].
  - erewrite io_bind_Ok by (apply ser_write_connect; rewrite Hchunk; apply surjective_pairing).
    destruct (IH (i + 1) (crc32_update (take (Z.to_nat 512) data) crc) s' (fuel - 1)%nat s1)
      as (s2 & Hs2 & H2); [rewrite length_drop; lia|lia|rewrite len_drop; lia|lia|].
    exists s2. split; [lia|]. etransitivity; [exact H2|].
    by rewrite <- crc32_update_app, take_drop.
  - rewrite HF in Hchunk. cbn [feed] in Hchunk. unfold prepend in Hchunk. cbn [fst snd] in Hchunk.
    rewrite app_nil_r in Hchunk.
    erewrite io_bind_Ok by (apply ser_write_connect; exact Hchunk).
    assert (forall w, exists s2, (length s2 <= length s1)%nat /\
      upload_expect n w (mkPort (Ret (None, snd (sink_finish false s')) : dev (option Z * S))
        (bstr "[ERR] " ++ (bstr "Store failed at block " ++ put_dec i) ++ [NL]) s1) =
      (Raise (UploadError (txt "[ERR] Store failed at block " ++ dec i)), mkPort (Ret (None, snd (sink_finish false s'))) [] s2)) as He.
    { intros w. apply (error_line n w (txt "Store failed at block " ++ dec i)); [|lia].
      apply (line_dec (bstr "[ERR] Store failed at block ")); try done. lia. }
    destruct (chunks 512 (drop (Z.to_nat 512) data)) as [|c cs]; cbn [send_blocks].
    + destruct (He want) as (s2 & Hs2 & H2). exists s2. split; [lia|].
      erewrite io_bind_Ok by reflexivity. by erewrite io_bind_Raise by exact H2.
    + destruct (He (txt "[READY-BLK:" ++ dec (i + 1) ++ txt "]")) as (s2 & Hs2 & H2).
      exists s2. split; [lia|]. rewrite io_bind_assoc. by erewrite io_bind_Raise by exact H2.
Qed.

(** The checksum the host sends. *)
Definition sent_crc (data : bytes) (crc_override : option Z) : Z :=
  match crc_override with Some c => c | None => Z.land (binascii_crc32 data) 0xFFFFFFFF end.

Lemma line_ok_crc l crc :
  0 <= l < 2 ^ 32 ->
  line_reads (bstr "[OK] " ++ put_dec l ++ bstr " bytes CRC " ++ put_hex crc)
    (txt "[OK] " ++ dec l ++ txt " bytes CRC " ++ hex_text crc).
Proof.
  intros. unfold hex_text, txt. rewrite <- put_dec_dec by done. rewrite <- !map_app.
  apply bracket_line; auto. by rewrite !forallb_app, put_dec_printable, put_hex_printable.
Qed.

Lemma line_crc_mismatch a c :
  line_reads (bstr "[ERR] " ++ bstr "CRC mismatch: sent " ++ put_hex a ++ bstr ", received " ++ put_hex c)
    (txt "[ERR] " ++ txt "CRC mismatch: sent " ++ hex_text a ++ txt ", received " ++ hex_text c).
Proof.
  unfold hex_text, txt. rewrite <- !map_app.
  apply bracket_line; auto. by rewrite !forallb_app, !put_hex_printable.
Qed.

Lemma feed_recv_u32_wait {B} (f : option Z -> dev B) : feed (recv_u32 ≫= f) [] = ([], recv_u32 ≫= f).
Proof. reflexivity. Qed.

(** The host's next line, given as the device prints it: the one it wants, or an error. *)
Ltac host_expects l rest :=
  let s' := fresh "sched" in let Hs := fresh "Hsched" in let Hr := fresh "Hread" in
  match goal with
  | |- context [upload_expect ?n ?w ≫= _] =>
    match goal with |- context [mkPort ?d ?o ?s] =>
      destruct (expect_ok d n w l w o rest s) as (s' & Hs & Hr);
      [by rewrite <- ?app_assoc | | reflexivity | reflexivity | apply startswith_refl | lia
      | erewrite io_bind_Ok by exact Hr ]
    end
  end.

(** The checksum and the commit, host against device. *)
Lemma crc_run n data sent s sched :
  len data < 2 ^ 32 -> 0 <= sent < 2 ^ 32 -> (length sched < n)%nat ->
  let '(r, s') := transfer_end data sent s in
  exists sched', (length sched' <= length sched)%nat /\
  (_ ← upload_expect n (txt "[READY-CRC]");
   c ← io_res (pack_uint 4 sent);
   _ ← ser_write c;
   upload_expect n (txt "[OK]"))
    (connect (feed (upload_crc (len data) (Some (crc32_update data 0xFFFFFFFF), s)) []) sched) =
  (r, mkPort (Ret (if is_ok r then Some (len data) else None, s')) [] sched').
Proof.
  intros Hdata Hsent Hn. pose proof (len_nonneg data).
  cbn [upload_crc]. fold (binascii_crc32 data).
  unfold put_line. rewrite feed_put, feed_recv_u32_wait. unfold connect, prepend. cbn [fst snd].
  rewrite app_nil_r. unfold transfer_end.
  set (crc := binascii_crc32 data).
  destruct (sent =? crc) eqn:Ec; cbn [negb]; [destruct (sink_finish true s) as [[|] s'] eqn:Ef; cbn [negb]|];
    host_expects (bstr "[READY-CRC]") (@nil byte);
    try (apply (bracket_line (bstr "[READY") (bstr "-CRC]")); reflexivity);
    (erewrite io_bind_Ok by (unfold io_res; rewrite pack_uint_in by (simpl; lia); reflexivity));
    (erewrite io_bind_Ok by (apply ser_write_connect; rewrite feed_recv_u32 by done; rewrite Ec;
       cbn [negb]; rewrite ?Ef; cbn [negb]; rewrite ?feed_err, ?feed_put; cbn [feed]; unfold prepend;
       cbn [fst snd]; rewrite app_nil_r; reflexivity)).
  - match goal with |- context [mkPort ?d ?o ?sc] =>
      edestruct (expect_ok d n (txt "[OK]")) with (out := o) (rest := @nil byte) (sched := sc)
        as (s2 & Hs2 & H2);
      [ | by apply (line_ok_crc (len data) crc) | reflexivity.. | lia | ] end.
    { unfold put_line. by rewrite <- !app_assoc. }
    exists s2. split; [lia|exact H2].
  - destruct (error_line n (txt "[OK]") (txt "Commit failed") (bstr "Commit failed")
      (Ret (None, s') : dev (option Z * S)) sched0) as (s2 & Hs2 & H2); [|lia|].
    { apply (bracket_line (bstr "[ERR]") (bstr " Commit failed")); reflexivity. }
    exists s2. split; [lia|exact H2].
  - edestruct (error_line n (txt "[OK]") _ _
      (Ret (None, snd (sink_finish false s)) : dev (option Z * S)) sched0 (line_crc_mismatch sent crc))
      as (s2 & Hs2 & H2); [lia|].
    exists s2. split; [lia|exact H2].
Qed.

(** The device once the command for a transfer has been given. *)
Definition upload_start (max_len : Z) (s : S) : bytes * dev (option Z * S) := feed (upload_v2 max_len s) [].

Lemma upload_start_eq max_len s :
  upload_start max_len s = (bstr "[READY-V2]" ++ [NL], recv_u32 ≫= upload_length max_len s).
Proof. reflexivity. Qed.

Lemma line_bad_length l :
  0 <= l < 2 ^ 32 ->
  line_reads (bstr "[ERR] " ++ bstr "Bad length: " ++ put_dec l) (txt "[ERR] " ++ txt "Bad length: " ++ dec l).
Proof. apply (line_dec (bstr "[ERR] Bad length: ")); reflexivity. Qed.

Lemma line_cannot_store l :
  0 <= l < 2 ^ 32 ->
  line_reads (bstr "[ERR] " ++ bstr "Cannot store " ++ put_dec l ++ bstr " bytes")
    (txt "[ERR] " ++ txt "Cannot store " ++ dec l ++ txt " bytes").
Proof. apply (line_dec_post (bstr "[ERR] Cannot store ")); reflexivity. Qed.

(** From the length on. *)
Lemma length_run n data sent max_len s sched :
  len data < 2 ^ 32 -> 0 <= sent < 2 ^ 32 -> (length sched < n)%nat ->
  let '(r, s') := transfer data sent max_len s in
  exists sched',
  (_ ← upload_expect n (txt "[LEN:" ++ dec (len data) ++ txt "]");
   _ ← send_blocks n 0 (chunks UPLOAD_V2_BLOCK data);
   _ ← upload_expect n (txt "[READY-CRC]");
   c ← io_res (pack_uint 4 sent);
   _ ← ser_write c;
   upload_expect n (txt "[OK]"))
    (connect (feed (upload_length max_len s (Some (len data))) []) sched) =
  (r, mkPort (Ret (if is_ok r then Some (len data) else None, s')) [] sched').
Proof.
  intros Hdata Hsent Hn. pose proof (len_nonneg data). unfold transfer, upload_length.
  destruct ((len data =? 0) || (max_len <? len data)).
  - rewrite feed_err. unfold connect, prepend. cbn [fst snd feed mret dev_ret]. rewrite app_nil_r.
    edestruct (error_line n (txt "[LEN:" ++ dec (len data) ++ txt "]") (txt "Bad length: " ++ dec (len data))
      (bstr "Bad length: " ++ put_dec (len data)) (Ret (None, s) : dev (option Z * S)) sched)
      as (s2 & Hs2 & H2); [by apply line_bad_length | done |].
    exists s2. by erewrite io_bind_Raise by exact H2.
  - destruct (sink_begin (len data) s) as [[|] s0]; cbn [negb].
    + unfold put_line. rewrite feed_put. unfold connect, prepend. cbn [fst snd].
      set (od := feed (recv_blocks _ _ _ _ _ ≫= _) []).
      host_expects (bstr "[LEN:" ++ put_dec (len data) ++ bstr "]") (fst od).
      { apply (line_dec_post (bstr "[LEN:")); try reflexivity. lia. }
      destruct (send_blocks_run (upload_crc (len data)) n (txt "[READY-CRC]")
        (c ← io_res (pack_uint 4 sent); _ ← ser_write c; upload_expect n (txt "[OK]"))
        data 0 0xFFFFFFFF s0 (Z.to_nat (len data)) sched0) as (s1 & Hs1 & H1);
        [done|unfold len; lia|lia|lia|lia|].
      pose proof (crc_run n data sent) as Hend. unfold UPLOAD_V2_BLOCK, BLOCK in *.
      destruct (store_blocks 0 (chunks 512 data) s0) as [[t|] s'].
      * exists s1. exact H1.
      * specialize (Hend s' s1 Hdata Hsent ltac:(lia)). destruct (transfer_end data sent s') as [r s''].
        destruct Hend as (s2 & Hs2 & H2). exists s2. etransitivity; [exact H1|exact H2].
    + rewrite feed_err. unfold connect, prepend. cbn [fst snd feed mret dev_ret]. rewrite app_nil_r.
      edestruct (error_line n (txt "[LEN:" ++ dec (len data) ++ txt "]")
        (txt "Cannot store " ++ dec (len data) ++ txt " bytes")
        (bstr "Cannot store " ++ put_dec (len data) ++ bstr " bytes")
        (Ret (None, s0) : dev (option Z * S)) sched) as (s2 & Hs2 & H2);
        [by apply line_cannot_store | done |].
      exists s2. by erewrite io_bind_Raise by exact H2.
Qed.

(** The whole exchange. *)
Lemma upload_run (n : nat) (ls : list bytes) (sched : list nat) (data : bytes)
    (crc_override : option Z) (max_len : Z) (s : S) :
  Forall quiet ls -> (length sched + length ls < n)%nat ->
  len data < 2 ^ 32 -> 0 <= sent_crc data crc_override < 2 ^ 32 ->
  let '(r, s') := transfer data (sent_crc data crc_override) max_len s in
  exists sched',
    send_upload_v2 n data crc_override
      (mkPort (upload_start max_len s).2 (noise_bytes ls ++ (upload_start max_len s).1) sched) =
    (r, mkPort (Ret (if is_ok r then Some (len data) else None, s')) [] sched').
Proof.
  intros Hls Hn Hdata Hcrc. pose proof (len_nonneg data). rewrite upload_start_eq. cbn [fst snd].
  destruct (expect_line (recv_u32 ≫= upload_length max_len s) n (txt "[READY-V2]") (bstr "[READY-V2]")
    (txt "[READY-V2]") [] ls sched) as (s1 & Hs1 & H1); try done.
  { apply (bracket_line (bstr "[READY") (bstr "-V2]")); reflexivity. }
  unfold send_upload_v2. fold (sent_crc data crc_override).
  pose proof (length_run n data (sent_crc data crc_override) max_len s s1 Hdata Hcrc ltac:(lia)) as Hrun.
  destruct (transfer data (sent_crc data crc_override) max_len s) as [r s'].
  destruct Hrun as (s2 & H2). exists s2.
  erewrite io_bind_Ok by exact H1.
  erewrite io_bind_Ok by (unfold io_res; rewrite pack_uint_in by (simpl; lia); reflexivity).
  erewrite io_bind_Ok by (apply ser_write_connect; rewrite feed_recv_u32 by lia; apply surjective_pairing).
  exact H2.
Qed.

(** C4: the host and the device together carry out the transfer. Whatever other lines come
    first and however the port splits the device's output, with time for the reads this needs,
    the sender ends exactly as [transfer] says: with the device's [OK] line once the sink has
    taken every block in order, the checksum matched and the commit succeeded, and otherwise
    with the device's own [ERR] line, the sink left as the failure leaves it. The device ends
    too, with the length just when the host got [OK]. *)
Theorem upload_refines (n : nat) (ls : list bytes) (sched : list nat) (data : bytes)
    (crc_override : option Z) (max_len : Z) (s : S) :
  Forall quiet ls -> (length sched + length ls < n)%nat ->
  len data < 2 ^ 32 -> 0 <= sent_crc data crc_override < 2 ^ 32 ->
  let '(r, s') := transfer data (sent_crc data crc_override) max_len s in
  exists sched',
    send_upload_v2 n data crc_override
      (mkPort (upload_start max_len s).2 (noise_bytes ls ++ (upload_start max_len s).1) sched) =
    (r, mkPort (Ret (if is_ok r then Some (len data) else None, s')) [] sched').
Proof. apply upload_run. Qed.

End Session.

(** ** The device on its own *)

(** What a device ends with when it is sent [inp] and then nothing more. *)
Definition run_dev {A} (d : dev A) (inp : bytes) : A := (starve (feed d inp).2).2.

Lemma starve_feed_nil {A} (d : dev A) : (starve (feed d []).2).2 = (starve d).2.
Proof.
  induction d as [a|s k IH|k IH|k IH]; cbn [feed starve]; try done.
  destruct (feed k []) as [o d']. cbn [snd] in *. rewrite IH. by destruct (starve k).
Qed.

Lemma run_put {B} (s : bytes) (f : unit -> dev B) inp :
  run_dev (put_bytes s ≫= f) inp = run_dev (f tt) inp.
Proof. unfold run_dev. rewrite feed_put. done. Qed.

(** A byte awaited: the next of the input, or a timeout once it has run out. *)
Lemma run_recv {B} (f : option byte -> dev B) inp :
  run_dev (recv ≫= f) inp =
    match inp with c :: inp => run_dev (f (Some c)) inp | [] => run_dev (f None) [] end.
Proof.
  unfold run_dev. destruct inp as [|c inp]; [|done]. cbn. by rewrite starve_feed_nil.
Qed.

Lemma run_recv_block {B} (f : bytes + Z -> dev B) n i acc inp :
  run_dev (recv_block n i acc ≫= f) inp =
    if (n <=? length inp)%nat then run_dev (f (inl (acc ++ take n inp))) (drop n inp)
    else run_dev (f (inr (i + len inp))) [].
Proof.
  revert i acc inp. induction n as [|n IH]; intros i acc inp.
  - cbn [Nat.leb]. rewrite take_0, drop_0, app_nil_r. done.
  - cbn [recv_block]. rewrite bind_dev_assoc, run_recv. destruct inp as [|c inp].
    + cbn [length Nat.leb]. rewrite len_nil, Z.add_0_r. done.
    + rewrite IH. cbn [length Nat.leb take drop firstn skipn]. rewrite <- app_assoc, len_cons.
      replace (i + 1 + len inp) with (i + (1 + len inp)) by lia. done.
Qed.

Lemma run_recv_u32 {B} (f : option Z -> dev B) inp :
  (exists v, (4 <= length inp)%nat /\ take 4 inp = le_split 4 v /\ 0 <= v < 2 ^ 32 /\
     run_dev (recv_u32 ≫= f) inp = run_dev (f (Some v)) (drop 4 inp)) \/
  run_dev (recv_u32 ≫= f) inp = run_dev (f None) [].
Proof.
  destruct inp as [|c0 [|c1 [|c2 [|c3 inp]]]]; [right..|left];
    try (unfold recv_u32; cbn [recv_le]; rewrite !bind_dev_assoc, run_recv;
         repeat (cbn [recv_le]; rewrite ?bind_dev_assoc, ?run_recv); done).
  exists (le_combine [c0; c1; c2; c3]). split; [simpl; lia|].
  assert (le_split 4 (le_combine [c0; c1; c2; c3]) = [c0; c1; c2; c3]) as Hs by by apply le_split_combine.
  pose proof (le_combine_range [c0; c1; c2; c3]) as Hr. split; [by rewrite Hs|]. split; [exact Hr|].
  unfold run_dev. change (c0 :: c1 :: c2 :: c3 :: inp) with ([c0; c1; c2; c3] ++ inp) at 1.
  rewrite <- Hs at 1. by rewrite feed_recv_u32_app.
Qed.

Section Device_alone.
Context {S : Type} `{UploadSink S}.
(** Something every step but a commit keeps true of the sink. *)
Variable P : S -> Prop.
Hypothesis P_block : forall i d s, P s -> P (sink_block i d s).2.
Hypothesis P_discard : forall s, P s -> P (sink_finish false s).2.

(** The blocks, whatever is sent: all of them arrive and are stored, or the exchange ends
    without a commit. *)
Lemma run_blocks {B} (F : option Z * S -> dev (option B * S)) fuel rest i crc s inp :
  (forall s, F (None, s) = Ret (None, s)) ->
  0 <= rest <= Z.of_nat fuel -> P s ->
  let r := run_dev (recv_blocks fuel rest i crc s ≫= F) inp in
  (exists data more s', inp = data ++ more /\ len data = rest /\ P s' /\
     store_blocks i (chunks 512 data) s = (None, s') /\
     r = run_dev (F (Some (crc32_update data crc), s')) more) \/
  (exists s', P s' /\ r = (None, s')).
Proof.
  intros HF. revert rest i crc s inp. induction fuel as [|fuel IH]; intros rest i crc s inp Hrest HP r.
  { left. exists [], inp, s. split; [done|]. split; [rewrite len_nil; lia|]. done. }
  unfold r. clear r. cbn [recv_blocks]. destruct (0 <? rest) eqn:Er.
  2: { left. exists [], inp, s. split; [done|]. split; [rewrite len_nil; lia|]. done. }
  set (n := if rest <? BLOCK then rest else BLOCK).
  assert (n = Z.min 512 rest) as Hn by (unfold n, BLOCK; destruct (rest <? 512) eqn:E; lia).
  rewrite bind_dev_assoc. unfold ready. rewrite run_put, bind_dev_assoc, run_recv_block.
  destruct (Nat.leb_spec (Z.to_nat n) (length inp)) as [Hin|Hin].
  2: { right. rewrite bind_dev_assoc. unfold err. rewrite run_put.
       eexists. split; [apply P_discard, HP|]. cbn. by rewrite HF. }
  cbn [app]. pose proof (P_block i (take (Z.to_nat n) inp) s HP) as HP'.
  destruct (sink_block i (take (Z.to_nat n) inp) s) as [[|] s0] eqn:Eb; cbn [negb].
  2: { right. rewrite bind_dev_assoc. unfold err. rewrite run_put.
       eexists. split; [apply P_discard, HP'|]. cbn. by rewrite HF. }
  destruct (IH (rest - n) (i + 1) (crc32_update (take (Z.to_nat n) inp) crc) s0 (drop (Z.to_nat n) inp))
    as [(data & more & s' & Hinp & Hl & Hs' & Hst & Hr) | Hfail]; [lia|exact HP'| |by right].
  assert (len (take (Z.to_nat n) inp) = n) as Hlt by (unfold len; rewrite length_take; lia).
  left. exists (take (Z.to_nat n) inp ++ data), more, s'.
  split; [by rewrite <- app_assoc, <- Hinp, take_drop|].
  split; [rewrite len_app; lia|]. split; [done|]. split; [|by rewrite crc32_update_app].
  destruct (Z.lt_ge_cases rest 512) as [Hs|Hs].
  - assert (data = []) as -> by (apply length_zero_iff_nil; unfold len in Hl; lia).
    rewrite app_nil_r. cbn in Hst. rewrite chunks_step;
      [|lia|intros E; rewrite E, len_nil in Hlt; lia].
    rewrite take_ge, drop_ge by (unfold len in Hlt; lia). rewrite chunks_nil. cbn [store_blocks].
    by rewrite Eb.
  - rewrite chunks_step; [|lia|intros E; apply (f_equal len) in E; rewrite len_app, len_nil in E;
      pose proof (len_nonneg data); lia].
    assert (length (take (Z.to_nat n) inp) = Z.to_nat 512) as Hlt' by (unfold len in Hlt; lia).
    rewrite take_app_length', drop_app_length' by done. cbn [store_blocks]. by rewrite Eb.
Qed.

End Device_alone.
