(* ===== verification/RamBoot.v ===== *)
(** * Where an upload goes

    The two sinks of the firmware: [RamBoot] (firmware/fw_common/src/boot.rs), which checks a
    v4 file as it arrives and stores its payload at its load address, and [Scratch]
    (firmware/stage2/src/cmds.rs), which stores the file as it comes. *)
From Stdlib Require Import FunctionalExtensionality.
From S2P Require Import Prelude Crc Header Image Text Upload.

(** The memory a sink writes: a byte per address. *)
Definition memory : Type := Z -> byte.

Definition write_mem (m : memory) (addr : Z) (data : bytes) : memory := fun a =>
  if (addr <=? a) && (a <? addr + len data) then nth (Z.to_nat (a - addr)) data x00 else m a.

(** ** firmware/fw_common/src/boot.rs *)

Inductive BootError : Type :=
| NotV4 | SizeMismatch | CrcError | TooOld (v : Z) | Image (e : Fw.ImageError).

Definition MIN_STAGE2_VERSION : Z := 10.
Definition STAGE2_BASE : Z := 0x80700000.
Definition STAGE2_BYTES : Z := 1024 * 1024.
Definition RAM_BOOT_MAX : Z := HEADER_LEN + STAGE2_BYTES.

(** [check_stage2]: [Ok(())] is [None]. *)
Definition check_stage2 (h : ImageHeader) : option BootError :=
  if negb (mode h =? MODE_RISCV) then Some (Image (Fw.BadMode (mode h)))
  else if version h <? MIN_STAGE2_VERSION then Some (TooOld (version h))
  else None.

Record RamBoot := mkRamBoot {
  rb_base : Z; rb_wlen : Z; rb_len : Z; rb_header : option ImageHeader; rb_at : Z; rb_crc : Z;
  rb_done : bool; rb_error : option BootError; rb_mem : memory
}.

(** [RamBoot::new], on a memory. *)
Definition ram_boot_new (base wlen : Z) (m : memory) : RamBoot :=
  mkRamBoot base wlen 0 None 0 0xFFFFFFFF false None m.

(** [fail]. *)
Definition rb_fail (e : BootError) (s : RamBoot) : bool * RamBoot :=
  (false, mkRamBoot (rb_base s) (rb_wlen s) (rb_len s) (rb_header s) (rb_at s) (rb_crc s)
            (rb_done s) (Some e) (rb_mem s)).

Definition rb_begin (l : Z) (s : RamBoot) : bool * RamBoot :=
  let s := mkRamBoot (rb_base s) (rb_wlen s) l (rb_header s) (rb_at s) (rb_crc s)
             (rb_done s) (rb_error s) (rb_mem s) in
  if l <=? HEADER_LEN then rb_fail NotV4 s else (true, s).

(** The end of [block]: the payload's bytes stored ([self.at] is a u32). *)
Definition rb_store (payload : bytes) (s : RamBoot) : bool * RamBoot :=
  (true, mkRamBoot (rb_base s) (rb_wlen s) (rb_len s) (rb_header s)
           ((rb_at s + len payload) mod 2 ^ 32) (crc32_update payload (rb_crc s))
           (rb_done s) (rb_error s) (write_mem (rb_mem s) (rb_at s) payload)).

Definition rb_block (index : Z) (data : bytes) (s : RamBoot) : bool * RamBoot :=
  if index =? 0 then
    match Fw.parse data with
    | None => rb_fail NotV4 s
    | Some h =>
        if negb (size h + HEADER_LEN =? rb_len s) then rb_fail SizeMismatch s
        else match Fw.check h (rb_base s) (rb_wlen s) with
        | Some e => rb_fail (Image e) s
        | None =>
            match check_stage2 h with
            | Some e => rb_fail e s
            | None =>
                rb_store (drop (Z.to_nat HEADER_LEN) data)
                  (mkRamBoot (rb_base s) (rb_wlen s) (rb_len s) (Some h) (load_addr h) (rb_crc s)
                     (rb_done s) (rb_error s) (rb_mem s))
            end
        end
    end
  else rb_store data s.

Definition rb_finish (ok : bool) (s : RamBoot) : bool * RamBoot :=
  if negb ok then (true, s)
  else match rb_header s with
  | Some h =>
      if Z.lxor (rb_crc s) 0xFFFFFFFF =? crc32 h
      then (true, mkRamBoot (rb_base s) (rb_wlen s) (rb_len s) (rb_header s) (rb_at s) (rb_crc s)
                    true (rb_error s) (rb_mem s))
      else rb_fail CrcError s
  | None => rb_fail CrcError s
  end.

#[export] Instance RamBoot_sink : UploadSink RamBoot := {
  sink_begin := rb_begin; sink_block := rb_block; sink_finish := rb_finish
}.

(** [RamBoot::header]: what to start, once every byte has arrived with the header's CRC. *)
Definition rb_started (s : RamBoot) : option ImageHeader := if rb_done s then rb_header s else None.

(** ** firmware/stage2/src/cmds.rs *)

Record Scratch := mkScratch { sc_mem : memory }.

Definition SCRATCH : Z := XMEM_BASE.
Definition SCRATCH_BYTES : Z := STAGE2_BASE - XMEM_BASE.

#[export] Instance Scratch_sink : UploadSink Scratch := {
  sink_begin _ s := (true, s);
  sink_block index data s := (true, mkScratch (write_mem (sc_mem s) (SCRATCH + index * BLOCK) data));
  sink_finish _ s := (true, s)
}.

(** ** Memory *)

Lemma write_mem_nil m a : write_mem m a [] = m.
Proof.
  apply functional_extensionality. intros x. unfold write_mem. rewrite len_nil.
  by replace (_ && _) with false by lia.
Qed.

Lemma write_mem_app m a d e : write_mem (write_mem m a d) (a + len d) e = write_mem m a (d ++ e).
Proof.
  apply functional_extensionality. intros x. unfold write_mem. rewrite len_app.
  pose proof (len_nonneg d). pose proof (len_nonneg e).
  destruct (Z.lt_ge_cases x (a + len d)).
  - replace ((a + len d <=? x) && _) with false by lia.
    replace ((a <=? x) && (x <? a + len d)) with (a <=? x) by lia.
    replace ((a <=? x) && (x <? a + (len d + len e))) with (a <=? x) by lia.
    destruct (a <=? x) eqn:E; [|done]. rewrite app_nth1; [done|]. unfold len in *. lia.
  - replace ((a <=? x) && (x <? a + len d)) with false by lia.
    replace ((a + len d <=? x) && (x <? a + len d + len e))
      with ((a <=? x) && (x <? a + (len d + len e))) by lia.
    destruct (_ && _); [|done]. rewrite app_nth2 by (unfold len in *; lia). f_equal. unfold len in *. lia.
Qed.

(** Reading back what was written. *)
Lemma write_mem_read m a d i :
  0 <= i < len d -> write_mem m a d (a + i) = nth (Z.to_nat i) d x00.
Proof.
  intros. unfold write_mem. replace (_ && _) with true by lia. f_equal. lia.
Qed.

(** ** Storing a file *)

Lemma take_512_rest (d : bytes) : drop (Z.to_nat 512) d <> [] -> len (take (Z.to_nat 512) d) = 512.
Proof.
  intros Hd. rewrite len_take. destruct (Z.le_gt_cases 512 (len d)); [lia|].
  exfalso. apply Hd, drop_ge. unfold len in *. lia.
Qed.

Lemma scratch_store i d m :
  store_blocks i (chunks 512 d) (mkScratch m) = (None, mkScratch (write_mem m (SCRATCH + i * BLOCK) d)).
Proof.
  revert i m. induction d as [|d Hd IH] using (chunk_ind 512 ltac:(lia)); intros i m.
  - by rewrite write_mem_nil.
  - rewrite chunks_step by (done || lia). cbn [store_blocks sink_block Scratch_sink sc_mem].
    rewrite IH. do 2 f_equal. rewrite <- (take_drop (Z.to_nat 512) d) at 3.
    destruct (decide (drop (Z.to_nat 512) d = [])) as [->|Hr].
    + by rewrite write_mem_nil, app_nil_r.
    + rewrite <- write_mem_app, take_512_rest by done. f_equal. unfold BLOCK. lia.
Qed.

(** The RAM boot's state after [payload] has gone on to memory. *)
Definition rb_stored (payload : bytes) (s : RamBoot) : RamBoot :=
  mkRamBoot (rb_base s) (rb_wlen s) (rb_len s) (rb_header s)
    ((rb_at s + len payload) mod 2 ^ 32) (crc32_update payload (rb_crc s))
    (rb_done s) (rb_error s) (write_mem (rb_mem s) (rb_at s) payload).

Lemma rb_stored_nil s : 0 <= rb_at s < 2 ^ 32 -> rb_stored [] s = s.
Proof.
  intros H. destruct s. unfold rb_stored. cbn in *. rewrite write_mem_nil, len_nil, Z.add_0_r, Z.mod_small by done.
  done.
Qed.

Lemma rb_stored_app d e s :
  0 <= rb_at s -> rb_at s + len d < 2 ^ 32 -> rb_stored e (rb_stored d s) = rb_stored (d ++ e) s.
Proof.
  intros H0 H. pose proof (len_nonneg d). unfold rb_stored.
  cbn [rb_base rb_wlen rb_len rb_header rb_at rb_crc rb_done rb_error rb_mem].
  rewrite (Z.mod_small (rb_at s + len d)), write_mem_app, crc32_update_app, len_app by lia.
  by rewrite Z.add_assoc.
Qed.

(** The blocks after the first. *)
Lemma ram_boot_store i d s :
  0 < i -> 0 <= rb_at s -> rb_at s + len d < 2 ^ 32 ->
  store_blocks i (chunks 512 d) s = (None, rb_stored d s).
Proof.
  revert i s. induction d as [|d Hd IH] using (chunk_ind 512 ltac:(lia)); intros i s Hi H0 Hl.
  - rewrite rb_stored_nil by (rewrite len_nil in Hl; lia). done.
  - rewrite chunks_step by (done || lia). cbn [store_blocks sink_block RamBoot_sink].
    unfold rb_block. replace (i =? 0) with false by lia. unfold rb_store. fold (rb_stored (take (Z.to_nat 512) d) s).
    pose proof (len_take (Z.to_nat 512) d). pose proof (len_drop (Z.to_nat 512) d).
    pose proof (len_nonneg d).
    assert (len d = len (take (Z.to_nat 512) d) + len (drop (Z.to_nat 512) d)) by lia.
    rewrite IH; cbn [rb_stored rb_at]; rewrite ?(Z.mod_small (rb_at s + len (take _ _))) by lia; try lia.
    by rewrite rb_stored_app, take_drop by lia.
Qed.

(** A whole file whose header is accepted. *)
Lemma ram_boot_file hd payload h s :
  len hd = 64 -> payload <> [] -> (forall rest, Fw.parse (hd ++ rest) = Some h) ->
  size h + HEADER_LEN = rb_len s -> Fw.check h (rb_base s) (rb_wlen s) = None ->
  check_stage2 h = None -> 0 <= load_addr h -> load_addr h + len payload < 2 ^ 32 ->
  store_blocks 0 (chunks 512 (hd ++ payload)) s =
    (None, rb_stored payload (mkRamBoot (rb_base s) (rb_wlen s) (rb_len s) (Some h) (load_addr h)
                                (rb_crc s) (rb_done s) (rb_error s) (rb_mem s))).
Proof.
  intros Hl Hp Hparse Hsz Hck Hc2 H0 Hmax. pose proof (len_nonneg payload).
  assert (length hd = 64%nat) as Hlen by (unfold len in Hl; lia).
  rewrite chunks_step by (try lia; by destruct hd). cbn [store_blocks sink_block RamBoot_sink].
  rewrite take_app_ge, drop_app_ge by lia. rewrite Hlen.
  set (k := (Z.to_nat 512 - 64)%nat).
  unfold rb_block. cbn [Z.eqb]. rewrite Hparse, Hsz, Z.eqb_refl. cbn [negb]. rewrite Hck, Hc2.
  unfold rb_store. rewrite drop_app_length' by (unfold HEADER_LEN; lia).
  cbn [rb_base rb_wlen rb_len rb_header rb_at rb_crc rb_done rb_error rb_mem].
  set (s1 := mkRamBoot _ _ _ (Some h) (load_addr h) _ _ _ (rb_mem s)).
  change (mkRamBoot _ _ _ _ _ _ _ _ _) with (rb_stored (take k payload) s1).
  pose proof (len_take k payload). pose proof (len_drop k payload).
  assert (rb_at s1 = load_addr h) as Ha by done.
  rewrite ram_boot_store; [|lia| |]; cbn [rb_stored rb_at];
    rewrite ?(Z.mod_small (load_addr h + len (take k payload))) by lia; try lia.
  by rewrite rb_stored_app, take_drop by lia.
Qed.

(** The device, given the command for a transfer and ready to go, behind other output and a
    port with any schedule. *)
Definition session {S} `{UploadSink S} (max_len : Z) (s : S) (ls : list bytes) (sched : list nat) :
    port (option Z * S) :=
  mkPort (upload_start max_len s).2 (noise_bytes ls ++ (upload_start max_len s).1) sched.

Lemma sent_crc_None data : sent_crc data None = binascii_crc32 data.
Proof.
  unfold sent_crc. pose proof (u32_binascii_crc32 data). unfold u32 in *.
  by rewrite (land_mask _ 32), Z.mod_small by lia.
Qed.

Lemma upload_run_default {S} `{UploadSink S} n ls sched data max_len (s : S) :
  Forall quiet ls -> (length sched + length ls < n)%nat -> len data < 2 ^ 32 ->
  exists sched',
    send_upload_v2 n data None (session max_len s ls sched) =
    let '(r, s') := transfer data (binascii_crc32 data) max_len s in
    (r, mkPort (Ret (if is_ok r then Some (len data) else None, s')) [] sched').
Proof.
  intros Hls Hn Hd. pose proof (u32_binascii_crc32 data) as Hc. unfold u32 in Hc.
  pose proof (upload_run n ls sched data None max_len s Hls Hn Hd) as Hr.
  rewrite sent_crc_None in Hr. specialize (Hr Hc).
  destruct (transfer data (binascii_crc32 data) max_len s) as [r s']. exact Hr.
Qed.

(** The host's [OK] line. *)
Definition ok_line (data : bytes) : text :=
  txt "[OK] " ++ dec (len data) ++ txt " bytes CRC " ++ hex_text (binascii_crc32 data).

(** A file the second stage receives over the UART ([receive], for [put]) is in the
    scratch PSRAM, byte for byte, when the host gets its [OK] line, and no other byte of
    memory has changed; every length the device allows is received, whatever lines come first
    and however the port splits the output. *)
Theorem scratch_receives (n : nat) (ls : list bytes) (sched : list nat) (data : bytes) (max_len : Z)
    (m : memory) :
  Forall quiet ls -> (length sched + length ls < n)%nat -> 0 < len data -> len data <= max_len ->
  len data < 2 ^ 32 ->
  exists sched', send_upload_v2 n data None (session max_len (mkScratch m) ls sched) =
    (Ok (ok_line data), mkPort (Ret (Some (len data), mkScratch (write_mem m SCRATCH data))) [] sched').
Proof.
  intros Hls Hn Hpos Hmax Hd.
  destruct (upload_run_default n ls sched data max_len (mkScratch m) Hls Hn Hd) as (sched' & Hr).
  exists sched'. rewrite Hr. unfold transfer.
  rewrite (proj2 (Z.eqb_neq (len data) 0)) by lia. replace (max_len <? len data) with false by lia.
  cbn [orb sink_begin Scratch_sink negb]. unfold BLOCK at 1. rewrite scratch_store.
  unfold transfer_end. rewrite Z.eqb_refl. cbn [negb sink_finish Scratch_sink].
  by rewrite Z.mul_0_l, Z.add_0_r.
Qed.

(** C5: a second stage built by the host tool and sent for a RAM boot starts: for a RISC-V
    image of a version the first stage takes, placed inside the load window with its entry
    point in it, the sender gets the [OK] line, the payload is in memory at its load address
    (nothing else changed), and [RamBoot::header] gives the image's header. *)
Theorem ram_boot_delivers (n : nat) (ls : list bytes) (sched : list nat) (src : read_payload) (nm : bytes)
    (ver : Z) (load entry : option Z) (file : bytes) (h : ImageHeader) (base wlen max_len : Z) (m : memory) :
  build_vux9_v4_image src nm false ver load entry None None = Ok (file, h) ->
  MIN_STAGE2_VERSION <= ver -> 0 < size h -> 0 <= base -> base + wlen < 2 ^ 32 ->
  base <= load_addr h -> load_addr h - base + size h <= wlen ->
  load_addr h <= entry_point h < load_addr h + size h -> entry_point h mod 4 = 0 ->
  len file <= max_len -> len file < 2 ^ 32 ->
  Forall quiet ls -> (length sched + length ls < n)%nat ->
  exists sched' s',
    send_upload_v2 n file None (session max_len (ram_boot_new base wlen m) ls sched) =
      (Ok (ok_line file), mkPort (Ret (Some (len file), s')) [] sched') /\
    rb_started s' = Some (stored_header h) /\ rb_mem s' = write_mem m (load_addr h) src.1.
Proof.
  intros Hb Hver Hsz Hbase Hwin Hlo Hhi He Ha Hmax Hfile Hls Hn.
  destruct (build_inv _ _ _ _ _ _ _ _ Hb) as (hd & payload & -> & Hl & Hps & Hc & Hm & Hv & Hp & Hsrc & _).
  subst payload.
  destruct (upload_run_default n ls sched (hd ++ src.1) max_len (ram_boot_new base wlen m) Hls Hn Hfile)
    as (sched' & Hr).
  rewrite len_app in *. exists sched'.
  assert (Hck : Fw.check (stored_header h) base wlen = None)
    by (apply stored_header_check; auto).
  assert (Hc2 : check_stage2 (stored_header h) = None).
  { unfold check_stage2, stored_header. cbn [mode version]. rewrite Hm, Hv. unfold MIN_STAGE2_VERSION in *.
    cbn [negb Z.eqb MODE_RISCV]. by replace (ver <? 10) with false by lia. }
  eexists. split.
  - rewrite Hr. unfold transfer. rewrite len_app.
    replace (len hd + len src.1 =? 0) with false by lia.
    replace (max_len <? len hd + len src.1) with false by lia.
    cbn [orb sink_begin RamBoot_sink]. unfold rb_begin at 1.
    replace (len hd + len src.1 <=? HEADER_LEN) with false by (unfold HEADER_LEN; lia). cbn [negb].
    unfold BLOCK at 1. rewrite (ram_boot_file hd src.1 (stored_header h));
      [|done|intros E; rewrite E, len_nil in Hps; lia|exact Hp| |exact Hck|exact Hc2|cbn; lia|cbn; lia].
    2: { cbn [stored_header size rb_len ram_boot_new]. unfold HEADER_LEN. lia. }
    unfold transfer_end. rewrite Z.eqb_refl. cbn [negb sink_finish RamBoot_sink].
    unfold rb_finish at 1. cbn [negb rb_header rb_stored rb_crc ram_boot_new].
    cbn [stored_header crc32]. rewrite Hc. fold (binascii_crc32 src.1). rewrite Z.eqb_refl. cbn [negb is_ok].
    unfold ok_line. rewrite len_app. reflexivity.
  - done.
Qed.

(** Why the header at the start of a file of [flen] bytes keeps it from a RAM boot. *)
Definition header_problem (base wlen flen : Z) (first : bytes) : option BootError :=
  match Fw.parse first with
  | None => Some NotV4
  | Some h =>
      if negb (size h + HEADER_LEN =? flen) then Some SizeMismatch
      else match Fw.check h base wlen with
      | Some e => Some (Image e)
      | None => check_stage2 h
      end
  end.

(** C40: a file whose header the first stage can't start is refused at its first block: the
    host raises the device's error, nothing has been written to memory, the reason is
    recorded and there is nothing to start. *)
Theorem ram_boot_refuses (n : nat) (ls : list bytes) (sched : list nat) (data : bytes)
    (base wlen max_len : Z) (m : memory) (e : BootError) :
  Forall quiet ls -> (length sched + length ls < n)%nat ->
  HEADER_LEN < len data -> len data <= max_len -> len data < 2 ^ 32 ->
  header_problem base wlen (len data) (take 512 data) = Some e ->
  exists sched' s',
    send_upload_v2 n data None (session max_len (ram_boot_new base wlen m) ls sched) =
      (Raise (UploadError (txt "[ERR] Store failed at block " ++ dec 0)), mkPort (Ret (None, s')) [] sched') /\
    rb_mem s' = m /\ rb_error s' = Some e /\ rb_started s' = None.
Proof.
  unfold HEADER_LEN. intros Hls Hn Hpos Hmax Hd Hp.
  destruct (upload_run_default n ls sched data max_len (ram_boot_new base wlen m) Hls Hn Hd) as (sched' & Hr).
  exists sched'. rewrite Hr. unfold transfer.
  rewrite (proj2 (Z.eqb_neq (len data) 0)) by lia. replace (max_len <? len data) with false by lia.
  cbn [orb sink_begin RamBoot_sink]. unfold rb_begin at 1. unfold HEADER_LEN.
  replace (len data <=? 64) with false by lia. cbn [negb].
  rewrite (chunks_step BLOCK) by (unfold BLOCK; try lia; intros ->; rewrite len_nil in Hpos; lia).
  cbn [store_blocks sink_block sink_finish RamBoot_sink]. change (Z.to_nat BLOCK) with 512%nat.
  unfold header_problem in Hp. unfold rb_block. cbn [Z.eqb].
  destruct (Fw.parse (take 512 data)) as [h|]; cbn [rb_base rb_wlen rb_len ram_boot_new] in *.
  2: { injection Hp as <-. eexists. split; [reflexivity|]. done. }
  destruct (size h + HEADER_LEN =? len data); cbn [negb] in *.
  2: { injection Hp as <-. eexists. split; [reflexivity|]. done. }
  destruct (Fw.check h base wlen) as [e'|].
  { injection Hp as <-. eexists. split; [reflexivity|]. done. }
  rewrite Hp. eexists. split; [reflexivity|]. done.
Qed.

(** ** Whatever is sent *)

(** Blocks taken in order from a fresh [RamBoot]: the header was in the first, and everything
    after it is in memory. *)
Lemma ram_boot_store_inv data s s' :
  data <> [] -> rb_len s < 2 ^ 32 -> 0 <= rb_base s -> rb_base s + rb_wlen s < 2 ^ 32 ->
  len data = rb_len s -> HEADER_LEN < len data ->
  store_blocks 0 (chunks 512 data) s = (None, s') ->
  exists h, Fw.parse (take 512 data) = Some h /\ size h + HEADER_LEN = len data /\
    Fw.check h (rb_base s) (rb_wlen s) = None /\ check_stage2 h = None /\
    s' = rb_stored (drop 64 data) (mkRamBoot (rb_base s) (rb_wlen s) (rb_len s) (Some h) (load_addr h)
                                (rb_crc s) (rb_done s) (rb_error s) (rb_mem s)).
Proof.
  unfold HEADER_LEN. intros Hne Hlen Hb Hw Hl Hh.
  rewrite chunks_step by (lia || done). cbn [store_blocks sink_block RamBoot_sink].
  change (Z.to_nat 512) with 512%nat. unfold rb_block. cbn [Z.eqb].
  destruct (Fw.parse (take 512 data)) as [h|]; [|done].
  unfold HEADER_LEN. destruct (size h + 64 =? rb_len s) eqn:Es; cbn [negb]; [|done].
  destruct (Fw.check h (rb_base s) (rb_wlen s)) eqn:Ec; [done|].
  destruct (check_stage2 h) eqn:E2; [done|].
  change (Z.to_nat 64) with 64%nat.
  set (s1 := mkRamBoot (rb_base s) (rb_wlen s) (rb_len s) (Some h) (load_addr h) (rb_crc s)
               (rb_done s) (rb_error s) (rb_mem s)).
  change (rb_store (drop 64 (take 512 data)) s1) with (true, rb_stored (drop 64 (take 512 data)) s1).
  assert (rb_base s <= load_addr h /\ load_addr h - rb_base s + size h <= rb_wlen s) as [Hlo Hhi].
  { unfold Fw.check in Ec. destruct (_ && _) in Ec; [done|]. destruct (_ =? 0) in Ec; [done|].
    destruct (_ || _ || _) eqn:Eo in Ec; [done|]. lia. }
  assert (len (drop 64 data) = len (drop 64 (take 512 data)) + len (drop 512 data)) as Hsum
    by (rewrite !len_drop, len_take; lia).
  assert (len (drop 64 data) = size h) as Hsz by (rewrite len_drop; lia).
  pose proof (len_nonneg (drop 512 data)). pose proof (len_nonneg (drop 64 (take 512 data))).
  assert (drop 64 data = drop 64 (take 512 data) ++ drop 512 data) as Happ.
  { rewrite <- (take_drop 512 data) at 1. apply drop_app_le. rewrite length_take. unfold len in *. lia. }
  rewrite ram_boot_store; cbn [rb_stored rb_at s1];
    rewrite ?(Z.mod_small (load_addr h + len (drop 64 (take 512 data)))) by lia; try lia.
  rewrite rb_stored_app by (cbn [rb_at s1]; lia). intros [= <-].
  exists h. split; [done|]. split; [lia|]. split; [done|]. split; [done|]. by rewrite Happ.
Qed.

Lemma rb_block_done i d s : rb_done s = false -> rb_done (rb_block i d s).2 = false.
Proof.
  intros Hs. unfold rb_block. destruct (i =? 0); [|done].
  destruct (Fw.parse d); [|done]. destruct (negb _); [done|].
  destruct (Fw.check _ _ _); [done|]. by destruct (check_stage2 _).
Qed.

Lemma fw_check_mode_window h base wlen :
  Fw.check h base wlen = None -> base <= load_addr h /\ load_addr h - base + size h <= wlen.
Proof.
  unfold Fw.check. destruct (_ && _); [done|]. destruct (_ =? 0); [done|].
  destruct (_ || _ || _) eqn:Eo; [done|]. lia.
Qed.

(** The end of an exchange that has stored a whole file: it starts only if both checksums
    match. *)
Lemma ram_boot_commit data s s' h more ret :
  len data < 2 ^ 32 -> rb_done s = false ->
  run_dev (upload_crc (len data) (Some (crc32_update data 0xFFFFFFFF), s)) more = (ret, s') ->
  rb_started s' = Some h ->
  exists rest, more = le_split 4 (binascii_crc32 data) ++ rest /\ ret = Some (len data) /\
    rb_header s = Some h /\ Z.lxor (rb_crc s) 0xFFFFFFFF = crc32 h /\ rb_mem s' = rb_mem s.
Proof.
  intros Hd Hdone. cbn [upload_crc]. fold (binascii_crc32 data). unfold put_line. rewrite run_put.
  assert (Hno : forall (r : option Z) s0, rb_done s0 = false -> (r, s0) = (ret, s') -> rb_started s' <> Some h).
  { intros r s0 H0 [= -> ->]. unfold rb_started. by rewrite H0. }
  match goal with |- run_dev (recv_u32 ≫= ?f) _ = _ -> _ =>
    destruct (run_recv_u32 f more) as [(v & Hl & Ht & Hv & ->) | ->] end.
  2: { unfold err. rewrite run_put. intros Hr Hs. by destruct (Hno None s Hdone Hr). }
  destruct (v =? binascii_crc32 data) eqn:Ev; cbn [negb].
  2: { unfold err. rewrite run_put. intros Hr Hs. by destruct (Hno None s Hdone Hr). }
  apply Z.eqb_eq in Ev as ->. cbn [sink_finish RamBoot_sink]. unfold rb_finish. cbn [negb].
  destruct (rb_header s) as [h'|] eqn:Eh.
  2: { cbn [negb rb_fail]. unfold err. rewrite run_put. intros Hr Hs.
       eapply Hno in Hr; [done|]. done. }
  destruct (_ =? crc32 h') eqn:Ec.
  2: { cbn [negb rb_fail]. unfold err. rewrite run_put. intros Hr Hs.
       eapply Hno in Hr; [done|]. done. }
  cbn [negb]. rewrite run_put. intros [= <- <-]. unfold rb_started. cbn [rb_done rb_header].
  intros [= <-]. exists (drop 4 more). split; [by rewrite <- Ht, take_drop|].
  apply Z.eqb_eq in Ec. done.
Qed.

(** ** What is written *)

(** Memory outside the window is as it was. *)
Definition mem_inside (base wlen : Z) (m : memory) (s : RamBoot) : Prop := forall a, ~ (base <= a < base + wlen) -> rb_mem s a = m a.
(** Before block [i] of a file of [l] bytes, with [rest] of it to come: so it is,
    and the rest fits the window from where the next block goes. *)
Record rb_inside (base wlen l : Z) (m : memory) (i rest : Z) (s : RamBoot) : Prop := {
  in_window : rb_base s = base /\ rb_wlen s = wlen /\ rb_len s = l;
  in_mem : mem_inside base wlen m s;
  in_next : 0 < i -> base <= rb_at s /\ rb_at s + rest <= base + wlen;
  in_first : i = 0 -> rest = l
}.

Lemma write_mem_inside base wlen m m' at_ d a :
  base <= at_ -> at_ + len d <= base + wlen -> m' a = m a -> ~ (base <= a < base + wlen) -> write_mem m' at_ d a = m a.
Proof. intros H1 H2 <- Ha. unfold write_mem. by replace (_ && _) with false by lia. Qed.

Lemma rb_block_inside base wlen l m i rest d s :
  0 <= base -> base + wlen < 2 ^ 32 -> 64 < l -> 0 <= i -> len d = Z.min 512 rest -> 0 < rest ->
  rb_inside base wlen l m i rest s ->
  mem_inside base wlen m (rb_block i d s).2 /\
  ((rb_block i d s).1 = true -> rb_inside base wlen l m (i + 1) (rest - len d) (rb_block i d s).2).
Proof.
  intros Hb Hw Hl Hi Hd Hr [(<- & <- & <-) Hmem Hnext Hfirst]. unfold rb_block, mem_inside.
  assert (Hfail : forall e, (forall a, ~ (rb_base s <= a < rb_base s + rb_wlen s) -> rb_mem (rb_fail e s).2 a = m a) /\
    ((rb_fail e s).1 = true -> rb_inside (rb_base s) (rb_wlen s) (rb_len s) m (i + 1) (rest - len d) (rb_fail e s).2)) by done.
  destruct (Z.eqb_spec i 0) as [->|Hne].
  - destruct (Fw.parse d) as [h|]; [|apply Hfail]. destruct (negb _) eqn:Esz; [apply Hfail|]. apply negb_false_iff, Z.eqb_eq in Esz.
    destruct (Fw.check _ _ _) eqn:Eck; [apply Hfail|]. destruct (check_stage2 h); [apply Hfail|]. apply fw_check_mode_window in Eck as [E1 E2].
    specialize (Hfirst eq_refl). unfold HEADER_LEN in *. assert (Hlen : len (drop (Z.to_nat 64) d) = len d - 64) by (rewrite len_drop; lia).
    assert (Hin : forall a, ~ (rb_base s <= a < rb_base s + rb_wlen s) -> write_mem (rb_mem s) (load_addr h) (drop (Z.to_nat 64) d) a = m a) by (intros a Ha; apply (write_mem_inside (rb_base s) (rb_wlen s)); [lia|lia|by apply Hmem|done]).
    split; [exact Hin|]. intros _. constructor; cbn; [done|exact Hin| |lia]. intros _. rewrite Hlen, Z.mod_small by lia. lia.
  - destruct (Hnext ltac:(lia)) as [N1 N2]. assert (Hin : forall a, ~ (rb_base s <= a < rb_base s + rb_wlen s) -> write_mem (rb_mem s) (rb_at s) d a = m a) by (intros a Ha; apply (write_mem_inside (rb_base s) (rb_wlen s)); [lia|lia|by apply Hmem|done]).
    split; [exact Hin|]. intros _. pose proof (len_nonneg d). constructor; cbn; [done|exact Hin| |lia]. intros _. rewrite Z.mod_small by lia. lia.
Qed.

Lemma run_blocks_inside {B} (F : option Z * RamBoot -> dev (option B * RamBoot)) base wlen l m fuel rest i crc s inp :
  0 <= base -> base + wlen < 2 ^ 32 -> 64 < l -> 0 <= i -> rb_inside base wlen l m i rest s ->
  (forall crc s more, mem_inside base wlen m s -> mem_inside base wlen m (run_dev (F (crc, s)) more).2) ->
  mem_inside base wlen m (run_dev (recv_blocks fuel rest i crc s ≫= F) inp).2.
Proof.
  intros Hb Hw Hl Hi Hs HF. revert rest i crc s inp Hi Hs. induction fuel as [|fuel IH]; intros rest i crc s inp Hi Hs; cbn [recv_blocks].
  { apply HF; exact (in_mem _ _ _ _ _ _ _ Hs). }
  destruct (Z.ltb_spec 0 rest) as [Hr|Hr]; [|apply HF; exact (in_mem _ _ _ _ _ _ _ Hs)].
  set (n := if rest <? BLOCK then rest else BLOCK). assert (Hn : n = Z.min 512 rest) by (unfold n, BLOCK; destruct (rest <? 512) eqn:E; lia).
  rewrite bind_dev_assoc. unfold ready. rewrite run_put, bind_dev_assoc, run_recv_block.
  destruct (Nat.leb_spec (Z.to_nat n) (length inp)) as [Hin|Hin]; [|rewrite bind_dev_assoc; unfold err; rewrite run_put; apply HF; exact (in_mem _ _ _ _ _ _ _ Hs)].
  cbn [app]. assert (Hlt : len (take (Z.to_nat n) inp) = Z.min 512 rest) by (unfold len; rewrite length_take; lia).
  destruct (rb_block_inside base wlen l m i rest (take (Z.to_nat n) inp) s) as [H1 H2]; try done.
  change (sink_block i (take (Z.to_nat n) inp) s) with (rb_block i (take (Z.to_nat n) inp) s). destruct (rb_block i (take (Z.to_nat n) inp) s) as [ok s']. cbn [fst snd] in *.
  destruct ok; cbn [negb]; [|rewrite bind_dev_assoc; unfold err; rewrite run_put; apply HF, H1].
  specialize (H2 eq_refl). rewrite Hlt, <- Hn in H2. apply IH; [lia|exact H2].
Qed.

Lemma upload_crc_inside base wlen m l b s more :
  mem_inside base wlen m s -> mem_inside base wlen m (run_dev (upload_crc l (b, s)) more).2.
Proof.
  intros Hs. destruct b as [crc|]; [|exact Hs]. cbn [upload_crc]. unfold put_line. rewrite run_put.
  match goal with |- context [run_dev (recv_u32 ≫= ?f) _] => destruct (run_recv_u32 f more) as [(v & _ & _ & _ & ->) | ->] end; [|unfold err; rewrite run_put; exact Hs].
  destruct (negb _); [unfold err; rewrite run_put; exact Hs|]. cbn [sink_finish RamBoot_sink]. unfold rb_finish. cbn [negb].
  destruct (rb_header s); [|cbn [negb rb_fail]; unfold err; rewrite run_put; exact Hs].
  destruct (_ =? _); cbn [negb rb_fail]; [|unfold err]; rewrite run_put; exact Hs.
Qed.

(** Whatever is sent, only the window is written. *)
Lemma ram_boot_inside inp base wlen max_len m :
  0 <= base -> base + wlen < 2 ^ 32 ->
  mem_inside base wlen m (run_dev (upload_start max_len (ram_boot_new base wlen m)).2 inp).2.
Proof.
  intros Hb Hw. rewrite upload_start_eq. cbn [snd].
  match goal with |- context [run_dev (recv_u32 ≫= ?f) _] => destruct (run_recv_u32 f inp) as [(v & _ & _ & _ & ->) | ->] end; [|done].
  cbn [upload_length]. destruct (_ || _); [unfold err; rewrite run_put; done|]. cbn [sink_begin RamBoot_sink]. unfold rb_begin, HEADER_LEN.
  destruct (Z.leb_spec v 64); cbn [negb rb_fail]; [unfold err; rewrite run_put; done|]. unfold put_line. rewrite run_put.
  apply (run_blocks_inside _ base wlen v); [done..|lia|done|intros; by apply upload_crc_inside].
Qed.

(** C7: whatever bytes reach the first stage during a RAM boot, and whenever they stop, it
    writes nothing outside its window, and it
    starts a program only if they were a whole transfer: the length, a file of that length
    and the file's CRC-32; the file's header is then a valid one for the window, its own CRC
    matches the payload, and the payload is what memory holds at the load address. *)
Theorem ram_boot_safe (inp : bytes) (base wlen max_len : Z) (m : memory) (h : ImageHeader) :
  0 <= base -> base + wlen < 2 ^ 32 ->
  let '(ret, s') := run_dev (upload_start max_len (ram_boot_new base wlen m)).2 inp in
  (forall a, ~ (base <= a < base + wlen) -> rb_mem s' a = m a) /\
  (rb_started s' = Some h ->
  exists data more,
    inp = le_split 4 (len data) ++ data ++ le_split 4 (binascii_crc32 data) ++ more /\
    ret = Some (len data) /\ len data <= max_len /\ Fw.parse (take 512 data) = Some h /\
    Fw.check h base wlen = None /\ check_stage2 h = None /\ Fw.crc_matches h (drop 64 data) = true /\
    rb_mem s' = write_mem m (load_addr h) (drop 64 data)).
Proof.
  intros Hbase Hwin. pose proof (ram_boot_inside inp base wlen max_len m Hbase Hwin) as Hinside.
  destruct (run_dev _ inp) as [ret s'] eqn:Hrun. split; [exact Hinside|]. clear Hinside. intros Hs'. revert Hrun.
  rewrite upload_start_eq. cbn [snd].
  assert (Hno : forall (r : option Z) s0, rb_done s0 = false -> (r, s0) = (ret, s') -> False).
  { intros r s0 H0 [= -> ->]. unfold rb_started in Hs'. by rewrite H0 in Hs'. }
  match goal with |- run_dev (recv_u32 ≫= ?f) _ = _ -> _ =>
    destruct (run_recv_u32 f inp) as [(v & Hl & Ht & Hv & ->) | ->] end.
  2: { cbn [upload_length]. unfold err. rewrite run_put. intros Hr. exfalso. eapply Hno; [|exact Hr]. done. }
  cbn [upload_length]. destruct ((v =? 0) || (max_len <? v)) eqn:Ev.
  { unfold err. rewrite run_put. intros Hr. exfalso. eapply Hno; [|exact Hr]. done. }
  cbn [sink_begin RamBoot_sink]. unfold rb_begin, HEADER_LEN. destruct (v <=? 64) eqn:Ev2; cbn [negb rb_fail].
  { unfold err. rewrite run_put. intros Hr. exfalso. eapply Hno; [|exact Hr]. done. }
  unfold put_line. rewrite run_put.
  set (s0 := mkRamBoot _ _ v _ _ _ _ _ _).
  destruct (@run_blocks RamBoot RamBoot_sink (fun s => rb_done s = false) rb_block_done (fun s Hs => Hs)
    Z (upload_crc v) (Z.to_nat v) v 0 0xFFFFFFFF s0 (drop 4 inp) ltac:(done) ltac:(lia) eq_refl)
    as [(data & more & s1 & Hinp & Hld & Hd1 & Hst & Hr) | (s1 & Hd1 & Hr)].
  2: { intros E. exfalso. eapply Hno; [exact Hd1|]. exact (eq_trans (eq_sym Hr) E). }
  intros Hcommit. apply (eq_trans (eq_sym Hr)) in Hcommit. subst v.
  destruct (ram_boot_commit data s1 s' h more ret ltac:(lia) Hd1 Hcommit Hs')
    as (rest & Hmore & Hret & Hh & Hcrc & Hmem).
  destruct (ram_boot_store_inv data s0 s1) as (h' & Hparse & Hsz & Hck & Hc2 & Hs1);
    try done; cbn [rb_len rb_base rb_wlen s0 ram_boot_new]; unfold HEADER_LEN; try lia.
  { intros ->. rewrite len_nil in Ev2. done. }
  rewrite Hs1 in Hh, Hcrc, Hmem. cbn [rb_header rb_stored rb_crc rb_mem rb_at s0 ram_boot_new] in *.
  injection Hh as ->. exists data, rest.
  split; [by rewrite <- Hmore, <- Hinp, <- Ht, take_drop|]. split; [done|]. split; [lia|].
  split; [done|]. split; [done|]. split; [done|]. split; [|done].
  unfold Fw.crc_matches. rewrite Hcrc, Z.eqb_refl, andb_true_r. apply Z.eqb_eq.
  unfold HEADER_LEN in Hsz. rewrite len_drop. lia.
Qed.

(** ** Concrete instances *)

Lemma upload_refines_witness :
  exists sched', send_upload_v2 4 (bstr "hello") None (session 100 (mkScratch (fun _ => x00)) [bstr "boot"] [3%nat]) =
    (Ok (ok_line (bstr "hello")),
     mkPort (Ret (Some 5, mkScratch (write_mem (fun _ => x00) XMEM_BASE (bstr "hello")))) [] sched').
Proof.
  assert (Hq : Forall quiet [bstr "boot"]).
  { constructor; [split; [|reflexivity]|constructor].
    apply (bool_decide_unpack (~ NL ∈ bstr "boot")). vm_compute. exact I. }
  pose proof (upload_refines 4 [bstr "boot"] [3%nat] (bstr "hello") None 100 (mkScratch (fun _ => x00)) Hq
    ltac:(simpl; lia) ltac:(vm_compute; reflexivity) ltac:(split; vm_compute; congruence)) as H.
  exact H.
Defined.

Lemma scratch_receives_witness :
  exists sched', send_upload_v2 3 (bstr "hello") None (session 100 (mkScratch (fun _ => x00)) [] [7%nat]) =
    (Ok (ok_line (bstr "hello")),
     mkPort (Ret (Some 5, mkScratch (write_mem (fun _ => x00) SCRATCH (bstr "hello")))) [] sched').
Proof.
  apply (scratch_receives 3 [] [7%nat] (bstr "hello") 100); [constructor | simpl; lia | vm_compute; congruence..].
Defined.

(** A second stage of one instruction, version 10. *)
Definition demo_stage2 : bytes * ImageHeader :=
  match build_vux9_v4_image ([x13; x00; x00; x00], None) (bstr "s2") false 10 (Some STAGE2_BASE) None None None with
  | Ok r => r | Raise _ => ([], mkHeader 0 0 0 [] 0 0 0) end.

Lemma ram_boot_delivers_witness :
  exists sched' s',
    send_upload_v2 2 demo_stage2.1 None
      (session RAM_BOOT_MAX (ram_boot_new STAGE2_BASE STAGE2_BYTES (fun _ => x00)) [] [5%nat]) =
      (Ok (ok_line demo_stage2.1), mkPort (Ret (Some (len demo_stage2.1), s')) [] sched') /\
    rb_started s' = Some (stored_header demo_stage2.2) /\
    rb_mem s' = write_mem (fun _ => x00) STAGE2_BASE [x13; x00; x00; x00].
Proof.
  apply (ram_boot_delivers 2 [] [5%nat] ([x13; x00; x00; x00], None) (bstr "s2") 10 (Some STAGE2_BASE) None).
  1: vm_compute; reflexivity.
  all: try (vm_compute; repeat split; congruence).
  - constructor.
  - simpl; lia.
Defined.

Lemma ram_boot_refuses_witness :
  exists sched' s',
    send_upload_v2 2 (zeros 65) None
      (session RAM_BOOT_MAX (ram_boot_new STAGE2_BASE STAGE2_BYTES (fun _ => x00)) [] []) =
      (Raise (UploadError (txt "[ERR] Store failed at block " ++ dec 0)), mkPort (Ret (None, s')) [] sched') /\
    rb_mem s' = (fun _ => x00) /\ rb_error s' = Some NotV4 /\ rb_started s' = None.
Proof.
  apply (ram_boot_refuses 2 [] [] (zeros 65) STAGE2_BASE STAGE2_BYTES).
  - constructor.
  - simpl; lia.
  - reflexivity.
  - vm_compute. congruence.
  - reflexivity.
  - vm_compute. reflexivity.
Defined.

(** A whole transfer of it, as bytes on the wire. *)
Definition demo_wire : bytes :=
  le_split 4 (len demo_stage2.1) ++ demo_stage2.1 ++ le_split 4 (binascii_crc32 demo_stage2.1).

Lemma ram_boot_safe_witness :
  let '(ret, s') := run_dev (upload_start RAM_BOOT_MAX (ram_boot_new STAGE2_BASE STAGE2_BYTES (fun _ => x00))).2 demo_wire in
  rb_started s' = Some (stored_header demo_stage2.2) /\
  (forall a, ~ (STAGE2_BASE <= a < STAGE2_BASE + STAGE2_BYTES) -> rb_mem s' a = x00) /\
  exists data more,
    demo_wire = le_split 4 (len data) ++ data ++ le_split 4 (binascii_crc32 data) ++ more /\
    ret = Some (len data) /\ len data <= RAM_BOOT_MAX /\
    Fw.parse (take 512 data) = Some (stored_header demo_stage2.2) /\
    Fw.check (stored_header demo_stage2.2) STAGE2_BASE STAGE2_BYTES = None /\
    check_stage2 (stored_header demo_stage2.2) = None /\
    Fw.crc_matches (stored_header demo_stage2.2) (drop 64 data) = true /\
    rb_mem s' = write_mem (fun _ => x00) (load_addr (stored_header demo_stage2.2)) (drop 64 data).
Proof.
  pose proof (ram_boot_safe demo_wire STAGE2_BASE STAGE2_BYTES RAM_BOOT_MAX (fun _ => x00)
    (stored_header demo_stage2.2) ltac:(vm_compute; congruence) ltac:(vm_compute; reflexivity)) as H.
  assert (rb_started (run_dev (upload_start RAM_BOOT_MAX (ram_boot_new STAGE2_BASE STAGE2_BYTES (fun _ => x00))).2
    demo_wire).2 = Some (stored_header demo_stage2.2)) as Hs by (vm_compute; reflexivity).
  destruct (run_dev _ demo_wire) as [ret s']. destruct H as [Hin H]. split; [exact Hs|]. split; [exact Hin|]. exact (H Hs).
Defined.
