(* ===== verification/FatImage.v ===== *)
(** * FAT32 card images

    tools/vux_tool.py's [build_fat32_image]: 8.3 names, the FAT's size, cluster allocation,
    the directory tree and the image's bytes. The tables it builds first (the FAT and the
    clusters' contents) are the plan, which the last steps render. *)
From S2P Require Import Prelude Header Image Text.

#[local] Set Warnings "-register-all".

Definition FAT_PART_LBA : Z := 2048.
Definition FAT_RESERVED : Z := 32.
Definition FAT_DATE_1980 : Z := Z.lor (Z.shiftl 1 5) 1.
Definition FAT_EOC : Z := 0x0FFFFFFF.

(** ** 8.3 names *)

(** [s.upper()] on ASCII. *)
Definition upper_char (c : Z) : Z := if (97 <=? c) && (c <=? 122) then c - 32 else c.
Definition py_upper (t : text) : text := map upper_char t.

(** [s.encode()] on ASCII. *)
Definition encode (t : text) : bytes := map byte.of_Z t.

Definition DOT : Z := 46.
Definition SPACE : Z := 32.

(** [s.rpartition(".")]: around the last dot, or [None] (no dot: all of it is the tail). *)
Fixpoint rpartition_dot (t : text) : option (text * text) :=
  match t with
  | [] => None
  | c :: t =>
      match rpartition_dot t with
      | Some (b, e) => Some (c :: b, e)
      | None => if c =? DOT then Some ([], t) else None
      end
  end.

(** [allowed]. *)
Definition SHORT_CHARS : text := txt "ABCDEFGHIJKLMNOPQRSTUVWXYZ0123456789!#$%&'()-@^_`{}~".
Definition allowed (c : Z) : bool := existsb (Z.eqb c) SHORT_CHARS.

Definition not_83 {A} : res A := Raise (ValueError "not an 8.3 name").

(** [fat_short_name]. *)
Definition fat_short_name (name : text) : res bytes :=
  if negb (forallb (fun c => c <? 128) name) then not_83
  else
    let '(base, dot, ext) := match rpartition_dot (py_upper name) with
      | Some (b, e) => (b, true, e)
      | None => (py_upper name, false, [])
      end in
    if negb ((1 <=? len base) && (len base <=? 8) && (len ext <=? 3) && (negb (len ext =? 0) || negb dot))
       || negb (forallb allowed (base ++ ext))
    then not_83
    else Ok (encode (ljust base 8 SPACE) ++ encode (ljust ext 3 SPACE)).

(** [_fat_entry]: 32 bytes. *)
Definition fat_entry (name11 : bytes) (attr cluster size : Z) : res bytes :=
  f1 ← pack_uint 1 attr;
  f2 ← pack_uint 2 (Z.shiftr cluster 16);
  f3 ← pack_uint 2 (Z.land cluster 0xFFFF);
  f4 ← pack_uint 4 size;
  mret (pack_s 11 name11 ++ f1 ++ le_split 1 0 ++ le_split 1 0 ++ le_split 2 0 ++
        le_split 2 FAT_DATE_1980 ++ le_split 2 FAT_DATE_1980 ++ f2 ++ le_split 2 0 ++
        le_split 2 FAT_DATE_1980 ++ f3 ++ f4).

(** ** The FAT's size *)

(** The loop: the FAT sectors and the clusters they leave; [None] when the fuel is too
    little. *)
Fixpoint fat_size (fuel : nat) (part_sectors cluster_sectors fat_sectors : Z) : option (Z * Z) :=
  match fuel with
  | O => None
  | S fuel =>
      let clusters := (part_sectors - FAT_RESERVED - 2 * fat_sectors) / cluster_sectors in
      if (clusters + 2) * 4 <=? fat_sectors * SECTOR then Some (fat_sectors, clusters)
      else fat_size fuel part_sectors cluster_sectors (fat_sectors + 1)
  end.

(** ** Clusters *)

Record fat_state := mkFat { fs_fat : list Z; fs_data : gmap Z bytes }.

Definition fat_init : fat_state := mkFat [0x0FFFFFF8; FAT_EOC] ∅.

Section Alloc.
(** The image's cluster size in bytes, and how many clusters it has. *)
Variables cluster_bytes clusters : Z.

Definition clusters_for (content : bytes) : Z := Z.max 1 (cdiv (len content) cluster_bytes).

(** One turn of [alloc]'s loop. *)
Definition alloc_step (content : bytes) (first n : Z) (st : fat_state) (i : Z) : fat_state :=
  mkFat (fs_fat st ++ [if i <? n - 1 then first + i + 1 else FAT_EOC])
        (<[first + i := slice content (i * cluster_bytes) ((i + 1) * cluster_bytes)]> (fs_data st)).

(** [alloc]: clusters for [content]; the first. *)
Definition alloc (content : bytes) (st : fat_state) : res (Z * fat_state) :=
  let n := clusters_for content in
  let first := len (fs_fat st) in
  if clusters + 2 <? first + n then Raise (ValueError "files don't fit the image")
  else Ok (first, fold_left (alloc_step content first n) (map Z.of_nat (seq 0 (Z.to_nat n))) st).

(** ** The tree *)

Inductive node : Type :=
| File (content : bytes)
| Dir (children : list (bytes * node)).

Definition is_dir (x : node) : bool := match x with Dir _ => true | File _ => false end.

(** The child of a name, and a name's child replaced: dict access in insertion order. *)
Fixpoint child_of (name : bytes) (cs : list (bytes * node)) : option node :=
  match cs with
  | [] => None
  | (n, x) :: cs => if decide (n = name) then Some x else child_of name cs
  end.

Fixpoint set_child (name : bytes) (x : node) (cs : list (bytes * node)) : list (bytes * node) :=
  match cs with
  | [] => [(name, x)]
  | (n, y) :: cs => if decide (n = name) then (n, x) :: cs else (n, y) :: set_child name x cs
  end.

(** One file into the tree: the directories on its path made as needed. *)
Fixpoint add_file (parts : list bytes) (content : bytes) (cs : list (bytes * node))
    : res (list (bytes * node)) :=
  match parts with
  | [] => Raise IndexError
  | [last] =>
      match child_of last cs with
      | Some _ => Raise (ValueError "given twice")
      | None => Ok (set_child last (File content) cs)
      end
  | part :: parts =>
      match child_of part cs with
      | Some (File _) => Raise (ValueError "a file is in the way")
      | Some (Dir sub) => sub ← add_file parts content sub; mret (set_child part (Dir sub) cs)
      | None => sub ← add_file parts content []; mret (set_child part (Dir sub) cs)
      end
  end.

(** [s.split("/")]. *)
Fixpoint split_slash (t : text) : list text :=
  match t with
  | [] => [[]]
  | c :: t =>
      if c =? 47 then [] :: split_slash t
      else match split_slash t with
           | p :: ps => (c :: p) :: ps
           | [] => [[c]]
           end
  end.

(** [path.replace("\\", "/").split("/")], without its empty parts. *)
Definition path_parts (path : text) : list text :=
  filter (fun p => p <> []) (split_slash (map (fun c => if c =? 92 then 47 else c) path)).

(** The tree of all files, in order. *)
Fixpoint build_tree (files : list (text * bytes)) (tree : list (bytes * node))
    : res (list (bytes * node)) :=
  match files with
  | [] => Ok tree
  | (path, content) :: files =>
      parts ← mapM fat_short_name (path_parts path);
      tree ← add_file parts content tree;
      build_tree files tree
  end.

(** [label.upper().ljust(11)[:11].encode()], for an ASCII label. *)
Definition label_field (label : text) : bytes := encode (take 11 (ljust (py_upper label) 11 SPACE)).

(** [fat[a] = b] for the links of a chain. *)
Fixpoint link_chain (chain : list Z) (fat : list Z) : res (list Z) :=
  match chain with
  | a :: (b :: _) as rest => fat ← setitem fat (Z.to_nat a) b; link_chain rest fat
  | _ => Ok fat
  end.

(** [alloc(b"")], [n] times. *)
Fixpoint alloc_empty (n : nat) (st : fat_state) : res (list Z * fat_state) :=
  match n with
  | O => Ok ([], st)
  | S n => '(c, st) ← alloc [] st; '(cs, st) ← alloc_empty n st; mret (c :: cs, st)
  end.

(** [write_dir]'s end: the directory's bytes into its own clusters, more chained on. *)
Definition write_raw (raw : bytes) (own : Z) (st : fat_state) : res fat_state :=
  let n := clusters_for raw in
  '(more, st) ← alloc_empty (Z.to_nat (n - 1)) st;
  let chain := own :: more in
  fat ← link_chain chain (fs_fat st);
  mret (mkFat fat
    (fold_left (fun data '(i, c) => <[c := slice raw (i * cluster_bytes) ((i + 1) * cluster_bytes)]> data)
       (combine (map Z.of_nat (seq 0 (length chain))) chain) (fs_data st))).

Variable label : text.

Definition dir_head (root : bool) (own parent : Z) : res (list bytes) :=
  if root then e ← fat_entry (label_field label) 0x08 0 0; mret [e]
  else
    e1 ← fat_entry (bstr ".          ") 0x10 own 0;
    e2 ← fat_entry (bstr "..         ") 0x10 parent 0;
    mret [e1; e2].

(** [write_dir]'s loop over the children, and its recursive calls as [write]: their entries,
    after those there. *)
Section Children.
Variable write : node -> Z -> Z -> bool -> fat_state -> res fat_state.

Fixpoint write_children (own : Z) (root : bool) (cs : list (bytes * node)) (entries : list bytes)
    (st : fat_state) : res (list bytes * fat_state) :=
  match cs with
  | [] => Ok (entries, st)
  | (name, child) :: cs =>
      match child with
      | Dir _ =>
          '(first, st) ← alloc [] st;
          e ← fat_entry name 0x10 first 0;
          st ← write child first (if root then 0 else own) false st;
          write_children own root cs (entries ++ [e]) st
      | File content =>
          '(first, st) ← (match content with [] => Ok (0, st) | _ => alloc content st end);
          e ← fat_entry name 0x20 first (len content);
          write_children own root cs (entries ++ [e]) st
      end
  end.

End Children.

(** [write_dir]: directory [x] into clusters from [own]. *)
Fixpoint write_dir (x : node) (own parent : Z) (root : bool) (st : fat_state) : res fat_state :=
  match x with
  | File _ => Raise AssertionError
  | Dir children =>
      head ← dir_head root own parent;
      '(entries, st) ← write_children write_dir own root children head st;
      write_raw (concat entries) own st
  end.

End Alloc.

(** ** The plan *)

Record plan := mkPlan {
  pl_part : Z; pl_cluster : Z; pl_fat_sectors : Z; pl_clusters : Z; pl_root : Z; pl_label : text;
  pl_state : fat_state
}.

Definition CLUSTER_SIZES : list Z := [1; 2; 4; 8; 16; 32; 64; 128].

(** [build_fat32_image] up to the image's bytes. *)
Definition fat32_plan (files : list (text * bytes)) (part_sectors cluster_sectors : Z) (label : text) : res plan :=
  if negb (existsb (Z.eqb cluster_sectors) CLUSTER_SIZES)
  then Raise (ValueError "cluster_sectors must be a power of two up to 128")
  else match fat_size (S (Z.to_nat part_sectors)) part_sectors cluster_sectors 1 with
  | None => Raise RuntimeError
  | Some (fat_sectors, clusters) =>
      let cluster_bytes := cluster_sectors * SECTOR in
      tree ← build_tree files [];
      '(root, st) ← alloc cluster_bytes clusters [] fat_init;
      st ← write_dir cluster_bytes clusters label (Dir tree) root 0 true st;
      mret (mkPlan part_sectors cluster_sectors fat_sectors clusters root label st)
  end.

(** ** The image *)

(** [struct.pack_into] of fields already packed, at an offset they fit behind. *)
Definition pack_into (buf : bytes) (off : Z) (fields : list (res bytes)) : res bytes :=
  fs ← mapM id fields;
  let v := concat fs in
  if off + len v <=? len buf then mret (slice_assign buf off (off + len v) v) else Raise StructError.

(** [buf[at : at + len(v)] = v]. *)
Definition put_at (buf : bytes) (at0 : Z) (v : bytes) : bytes := slice_assign buf at0 (at0 + len v) v.

Definition boot_sector (p : plan) : res bytes :=
  let boot := put_at (put_at (zeros SECTOR) 0 [xeb; x58; x90]) 3 (bstr "VUX9K   ") in
  boot ← pack_into boot 11
    [pack_uint 2 SECTOR; pack_uint 1 (pl_cluster p); pack_uint 2 FAT_RESERVED; pack_uint 1 2;
     pack_uint 2 0; pack_uint 2 0; pack_uint 1 0xF8; pack_uint 2 0; pack_uint 2 63; pack_uint 2 255;
     pack_uint 4 FAT_PART_LBA; pack_uint 4 (pl_part p)];
  boot ← pack_into boot 36
    [pack_uint 4 (pl_fat_sectors p); pack_uint 2 0; pack_uint 2 0; pack_uint 4 (pl_root p);
     pack_uint 2 1; pack_uint 2 6];
  boot ← pack_into boot 64
    [pack_uint 1 0x80; pack_uint 1 0; pack_uint 1 0x29; pack_uint 4 VUX_MAGIC;
     Ok (pack_s 11 (label_field (pl_label p))); Ok (pack_s 8 (bstr "FAT32   "))];
  mret (put_at boot 510 [x55; xaa]).

Definition fsinfo_sector (p : plan) : res bytes :=
  let used := len (fs_fat (pl_state p)) - 2 in
  b ← pack_into (zeros SECTOR) 0 [pack_uint 4 0x41615252];
  b ← pack_into b 484
    [pack_uint 4 0x61417272; pack_uint 4 (pl_clusters p - used); pack_uint 4 (len (fs_fat (pl_state p)));
     pack_uint 4 0];
  pack_into b 508 [pack_uint 4 0xAA550000].

(** The FATs and the clusters, over the partition's bytes. *)
Definition fill_part (p : plan) (boot fsinfo fat_raw : bytes) : bytes :=
  let part := zeros (pl_part p * SECTOR) in
  let part := fold_left (fun part '(lba, sector) => put_at part (lba * SECTOR) sector)
    [(0, boot); (1, fsinfo); (6, boot); (7, fsinfo)] part in
  let part := fold_left (fun part copy => put_at part ((FAT_RESERVED + copy * pl_fat_sectors p) * SECTOR) fat_raw)
    [0; 1] part in
  let data_at := (FAT_RESERVED + 2 * pl_fat_sectors p) * SECTOR in
  fold_left (fun part '(c, content) => put_at part (data_at + (c - 2) * (pl_cluster p * SECTOR)) content)
    (map_to_list (fs_data (pl_state p))) part.

Definition mbr_sector (p : plan) : res bytes :=
  e ← mapM id [pack_uint 1 0; Ok (pack_s 3 [xfe; xff; xff]); pack_uint 1 0x0C; Ok (pack_s 3 [xfe; xff; xff]);
               pack_uint 4 FAT_PART_LBA; pack_uint 4 (pl_part p)];
  mret (put_at (put_at (zeros SECTOR) 446 (concat e)) 510 [x55; xaa]).

(** [build_fat32_image]'s end: the image. *)
Definition render (p : plan) : res bytes :=
  boot ← boot_sector p;
  fsinfo ← fsinfo_sector p;
  fat_raw ← mapM (pack_uint 4) (fs_fat (pl_state p));
  mbr ← mbr_sector p;
  mret (mbr ++ zeros ((FAT_PART_LBA - 1) * SECTOR) ++ fill_part p boot fsinfo (concat fat_raw)).

Definition build_fat32_image (files : list (text * bytes)) (part_sectors cluster_sectors : Z) (label : text)
    : res bytes :=
  p ← fat32_plan files part_sectors cluster_sectors label; render p.

(** [cmd_mkfat] (its image; a [ValueError] is reported and exits). *)
Definition cmd_mkfat (files : list (text * bytes)) (size_mb cluster_sectors : Z) : res bytes :=
  match build_fat32_image files (size_mb * 2048) cluster_sectors (txt "VUX9K") with
  | Raise (ValueError _) => Raise SystemExit
  | r => r
  end.

(** ** firmware/fw_common/src/fat/dir.rs: names *)

(** [iter().rposition(|&c| c == b'.')]. *)
Fixpoint rposition_dot (l : bytes) : option nat :=
  match l with
  | [] => None
  | c :: l =>
      match rposition_dot l with
      | Some i => Some (S i)
      | None => if bool_decide (c = x2e) then Some 0%nat else None
      end
  end.

(** [u8::to_ascii_uppercase]. *)
Definition ascii_upper (c : byte) : byte := byte.of_Z (upper_char (u8 c)).

Definition short_char_ok (c : byte) : bool :=
  ((65 <=? u8 c) && (u8 c <=? 90)) || ((48 <=? u8 c) && (u8 c <=? 57))
  || existsb (fun d => bool_decide (c = d)) (bstr "!#$%&'()-@^_`{}~").

(** The loop over the characters and their places. *)
Fixpoint short_loop (chars : list (nat * byte)) (out : bytes) : option bytes :=
  match chars with
  | [] => Some out
  | (at0, c) :: chars =>
      let c := ascii_upper c in
      if negb (short_char_ok c) then None else short_loop chars (<[at0 := c]> out)
  end.

(** [short_name]. *)
Definition short_name (name : bytes) : option bytes :=
  let out := replicate 11 x20 in
  let dot := rposition_dot name in
  let '(base, ext) := match dot with
    | Some d => (take d name, drop (d + 1) name)
    | None => (name, [])
    end in
  if (len base =? 0) || (8 <? len base) || (3 <? len ext) || (bool_decide (is_Some dot) && (len ext =? 0))
  then None
  else short_loop (imap (fun i c => (i, c)) base ++ imap (fun i c => ((8 + i)%nat, c)) ext) out.

(** ** Properties of the FAT's size *)

Lemma fat_size_fuel fuel part cs fs :
  0 < cs -> 1 <= fs -> part - FAT_RESERVED < fs + Z.of_nat fuel -> (0 < fuel)%nat ->
  exists fs' clusters, fat_size fuel part cs fs = Some (fs', clusters) /\ fs <= fs' /\
    clusters = (part - FAT_RESERVED - 2 * fs') / cs /\ (clusters + 2) * 4 <= fs' * SECTOR /\
    (forall k, fs <= k < fs' -> k * SECTOR < ((part - FAT_RESERVED - 2 * k) / cs + 2) * 4).
Proof.
  unfold FAT_RESERVED, SECTOR. intros Hcs. revert fs. induction fuel as [|fuel IH]; intros fs Hfs Hf H0; [lia|].
  cbn [fat_size]. destruct (_ <=? _) eqn:E.
  - apply Z.leb_le in E. eexists _, _. split; [reflexivity|]. unfold FAT_RESERVED, SECTOR in *.
    split; [lia|]. split; [done|]. split; [done|]. lia.
  - apply Z.leb_gt in E. unfold FAT_RESERVED, SECTOR in *.
    assert (0 < fuel)%nat as H1.
    { destruct fuel; [|lia]. exfalso.
      assert ((part - 32 - 2 * fs) / cs <= Z.max 0 (part - 32 - 2 * fs)).
      { destruct (Z.le_gt_cases 0 (part - 32 - 2 * fs)).
        - rewrite Z.max_r by lia. apply Z.div_le_upper_bound; nia.
        - rewrite Z.max_l by lia. apply Z.div_le_upper_bound; nia. }
      lia. }
    destruct (IH (fs + 1)) as (fs' & cl & Hs & Hle & Hc & Hfit & Hmin); [lia|lia|done|].
    exists fs', cl. split; [done|]. split; [lia|]. split; [done|]. split; [done|].
    intros k Hk. destruct (Z.eq_dec k fs) as [->|]; [done|]. apply Hmin. lia.
Qed.

(** The loop that sizes the FAT ends for every partition and cluster size, and finds the
    least number of FAT sectors whose entries cover the clusters they leave. *)
Theorem fat_size_least (part_sectors cluster_sectors : Z) :
  0 < cluster_sectors ->
  exists fs clusters, fat_size (S (Z.to_nat part_sectors)) part_sectors cluster_sectors 1 = Some (fs, clusters) /\
    1 <= fs /\ clusters = (part_sectors - FAT_RESERVED - 2 * fs) / cluster_sectors /\
    (clusters + 2) * 4 <= fs * SECTOR /\
    (forall k, 1 <= k < fs -> k * SECTOR < ((part_sectors - FAT_RESERVED - 2 * k) / cluster_sectors + 2) * 4).
Proof. intros. apply fat_size_fuel; unfold FAT_RESERVED; lia. Qed.

Lemma fat_size_least_witness :
  exists fs clusters, fat_size 201 200 1 1 = Some (fs, clusters) /\
    1 <= fs /\ clusters = (200 - FAT_RESERVED - 2 * fs) / 1 /\ (clusters + 2) * 4 <= fs * SECTOR /\
    (forall k, 1 <= k < fs -> k * SECTOR < ((200 - FAT_RESERVED - 2 * k) / 1 + 2) * 4).
Proof. apply (fat_size_least 200 1). lia. Defined.

(** The size [fat32_plan] uses. *)
Lemma fat_size_plan part cs fs clusters :
  0 < cs -> fat_size (S (Z.to_nat part)) part cs 1 = Some (fs, clusters) ->
  1 <= fs /\ clusters = (part - FAT_RESERVED - 2 * fs) / cs /\ (clusters + 2) * 4 <= fs * SECTOR.
Proof.
  intros Hcs H. destruct (fat_size_fuel (S (Z.to_nat part)) part cs 1) as (fs' & cl & Hs & H1 & H2 & H3 & _);
    unfold FAT_RESERVED in *; try lia. rewrite H in Hs. injection Hs as <- <-. done.
Qed.

(** ** Names *)

Lemma ascii_upper_u8 c : u8 c < 128 -> u8 (ascii_upper c) = upper_char (u8 c).
Proof.
  intros Hc. pose proof (u8_range c). unfold ascii_upper. apply u8_of_Z. unfold upper_char.
  destruct ((97 <=? u8 c) && (u8 c <=? 122)) eqn:E; lia.
Qed.

Lemma of_Z_u8 c : byte.of_Z (u8 c) = c.
Proof. apply byte.of_Z_unsigned. Qed.

Lemma encode_upper l :
  forallb (fun c => c <? 128) (map u8 l) = true -> encode (py_upper (map u8 l)) = map ascii_upper l.
Proof.
  induction l as [|c l IH]; [done|]. simpl. intros [Hc Hl]%andb_true_iff. f_equal. by apply IH.
Qed.

Lemma allowed_byte c : allowed (upper_char (u8 c)) = short_char_ok (ascii_upper c).
Proof. by destruct c. Qed.

Lemma allowed_map l : forallb allowed (py_upper (map u8 l)) = forallb (fun c => short_char_ok (ascii_upper c)) l.
Proof. induction l as [|c l IH]; [done|]. simpl. by rewrite IH, allowed_byte. Qed.

Lemma upper_dot c : (upper_char (u8 c) =? DOT) = bool_decide (c = x2e).
Proof. by destruct c. Qed.

Lemma rpartition_rposition l :
  rpartition_dot (py_upper (map u8 l)) =
    match rposition_dot l with
    | Some d => Some (py_upper (map u8 (take d l)), py_upper (map u8 (drop (d + 1) l)))
    | None => None
    end.
Proof.
  induction l as [|c l IH]; [done|]. simpl. rewrite IH.
  destruct (rposition_dot l) as [d|]; [done|]. rewrite upper_dot.
  by case_bool_decide.
Qed.

Lemma len_py_upper l : len (py_upper (map u8 l)) = len l.
Proof. unfold len, py_upper. by rewrite !length_map. Qed.

Lemma short_loop_run (chars : bytes) off out rest :
  (off + length chars <= length out)%nat ->
  short_loop (imap (fun i c => ((off + i)%nat, c)) chars ++ rest) out =
    if forallb (fun c => short_char_ok (ascii_upper c)) chars
    then short_loop rest (take off out ++ map ascii_upper chars ++ drop (off + length chars) out)
    else None.
Proof.
  revert off out. induction chars as [|c chars IH]; intros off out Hl; cbn [length] in *.
  - simpl. by rewrite Nat.add_0_r, take_drop.
  - cbn [imap app short_loop forallb map]. rewrite Nat.add_0_r.
    destruct (short_char_ok (ascii_upper c)); [|done]. cbn [negb andb].
    replace (imap ((fun i c0 => ((off + i)%nat, c0)) ∘ S) chars)
      with (imap (fun i c0 => ((S off + i)%nat, c0)) chars)
      by (apply imap_ext; intros; simpl; f_equal; lia).
    rewrite IH by (rewrite length_insert; lia).
    destruct (forallb _ chars); [|done]. f_equal.
    rewrite (take_S_r _ _ (ascii_upper c)) by (apply list_lookup_insert_eq; lia).
    rewrite take_insert_ge by lia. rewrite <- app_assoc. simpl app. do 3 f_equal.
    rewrite drop_insert_lt by lia. f_equal. lia.
Qed.

Lemma encode_ljust l n :
  forallb (fun c => c <? 128) (map u8 l) = true ->
  encode (ljust (py_upper (map u8 l)) n SPACE) = ljust (map ascii_upper l) n x20.
Proof.
  intros Hl. unfold ljust, encode. rewrite map_app. fold (encode (py_upper (map u8 l))).
  rewrite encode_upper, len_py_upper by done. f_equal.
  unfold len. rewrite length_map. generalize (Z.to_nat (n - Z.of_nat (length l))) as k.
  intros k. induction k; [done|]. simpl. by rewrite IHk.
Qed.

Lemma short_names_same (name : bytes) :
  forallb (fun c => u8 c <? 128) name = true ->
  fat_short_name (map u8 name) = match short_name name with Some n => Ok n | None => not_83 end.
Proof.
  intros Hn. assert (forallb (fun c => c <? 128) (map u8 name) = true) as Ha.
  { rewrite forallb_forall in *. intros z (c & <- & Hc)%in_map_iff. by apply Hn. }
  unfold fat_short_name. rewrite Ha. cbn [negb]. rewrite rpartition_rposition. unfold short_name.
  assert (forall (base ext : bytes) (dot : bool),
    (forall c, In c (base ++ ext) -> In c name) ->
    (if negb ((1 <=? len (py_upper (map u8 base))) && (len (py_upper (map u8 base)) <=? 8)
         && (len (py_upper (map u8 ext)) <=? 3) && (negb (len (py_upper (map u8 ext)) =? 0) || negb dot))
       || negb (forallb allowed (py_upper (map u8 base) ++ py_upper (map u8 ext)))
     then not_83
     else Ok (encode (ljust (py_upper (map u8 base)) 8 SPACE) ++ encode (ljust (py_upper (map u8 ext)) 3 SPACE))) =
    match
      (if (len base =? 0) || (8 <? len base) || (3 <? len ext) || (dot && (len ext =? 0)) then None
       else short_loop (imap (fun i c => (i, c)) base ++ imap (fun i c => ((8 + i)%nat, c)) ext) (replicate 11 x20))
    with Some n => Ok n | None => not_83 end) as Hmain.
  { intros base ext dot Hin. rewrite !len_py_upper.
    pose proof (len_nonneg base). pose proof (len_nonneg ext).
    replace (negb ((1 <=? len base) && (len base <=? 8) && (len ext <=? 3) && (negb (len ext =? 0) || negb dot)))
      with ((len base =? 0) || (8 <? len base) || (3 <? len ext) || (dot && (len ext =? 0)))
      by (destruct dot; lia).
    destruct ((len base =? 0) || _ || _ || _) eqn:E; [done|]. cbn [orb].
    assert (forall l, (forall c, In c l -> In c name) -> forallb (fun c => c <? 128) (map u8 l) = true) as Hasc.
    { intros l Hl. rewrite forallb_forall in *. intros z (c & <- & Hc)%in_map_iff. by apply Hn, Hl. }
    rewrite !encode_ljust by (apply Hasc; intros; apply Hin, in_app_iff; auto).
    rewrite forallb_app, !allowed_map.
    change (imap (fun i c => (i, c)) base) with (imap (fun i c => ((0 + i)%nat, c)) base).
    rewrite short_loop_run by (rewrite length_replicate; unfold len in *; lia).
    destruct (forallb _ base); [|done]. rewrite take_0. cbn [andb app].
    rewrite <- (app_nil_r (imap _ ext)), short_loop_run.
    2: { rewrite !length_app, !length_map, !length_drop, !length_replicate. unfold len in *. lia. }
    destruct (forallb _ ext); [|done]. cbn [negb short_loop]. f_equal.
    unfold len in *. rewrite drop_replicate.
    rewrite take_app_ge by (rewrite length_map; lia). rewrite length_map, take_replicate.
    rewrite drop_app_ge by (rewrite length_map; lia). rewrite length_map, drop_replicate.
    unfold ljust, len. rewrite !length_map, <- !app_assoc. f_equal. f_equal; [f_equal; lia|].
    f_equal. f_equal. lia. }
  destruct (rposition_dot name) as [d|].
  - apply (Hmain (take d name) (drop (d + 1) name) true).
    intros c [Hc|Hc]%in_app_iff; [rewrite <- (take_drop d name)|rewrite <- (take_drop (d + 1) name)];
      apply in_app_iff; auto.
  - apply (Hmain name [] false). intros c. by rewrite app_nil_r.
Qed.

(** On ASCII names the host's [fat_short_name] and the firmware's [short_name] accept the
    same names and make the same 11 bytes of them. *)
Theorem short_names_agree (name : bytes) :
  forallb (fun c => u8 c <? 128) name = true ->
  fat_short_name (map u8 name) = match short_name name with Some n => Ok n | None => not_83 end.
Proof. apply short_names_same. Qed.

Lemma short_names_agree_witness :
  fat_short_name (map u8 (bstr "stage2.bin")) = Ok (bstr "STAGE2  BIN") /\
  short_name (bstr "stage2.bin") = Some (bstr "STAGE2  BIN").
Proof.
  assert (short_name (bstr "stage2.bin") = Some (bstr "STAGE2  BIN")) as H by (vm_compute; reflexivity).
  split; [|exact H]. rewrite (short_names_agree (bstr "stage2.bin")) by reflexivity. by rewrite H.
Defined.

(** A path without a name gets past [cmd_mkfat]'s report of a [ValueError]. *)
Lemma mkfat_no_name : cmd_mkfat [(txt "/", [])] 40 1 = Raise IndexError.
Proof. vm_compute. reflexivity. Qed.
