(* ===== verification/FatPlan.v ===== *)
(** * What the plan of a FAT32 image holds

    The cluster chains [alloc] and [write_dir] make, and the tree of directories and files
    they hold: the invariants of the tables from which the image is rendered. *)
From S2P Require Import Prelude Header Image Text FatImage.

(** ** Chains *)

Definition fat_at (st : fat_state) (c : Z) : option Z := fs_fat st !! Z.to_nat c.

(** [cs] is the chain that holds [content], a cluster's bytes at a time, from cluster [lo] up;
    chains only go forward. *)
Fixpoint chain_holds (cb : Z) (st : fat_state) (lo : Z) (cs : list Z) (content : bytes) : Prop :=
  match cs with
  | [] => False
  | [c] => lo <= c /\ fat_at st c = Some FAT_EOC /\ fs_data st !! c = Some content /\ len content <= cb
  | c :: ((c' :: _) as rest) =>
      lo <= c < c' /\ fat_at st c = Some c' /\ fs_data st !! c = Some (take (Z.to_nat cb) content) /\
      cb < len content /\ chain_holds cb st lo rest (drop (Z.to_nat cb) content)
  end.

(** [st'] has everything [st] has, cluster [skip] apart. *)
Definition ext (skip : Z) (st st' : fat_state) : Prop :=
  len (fs_fat st) <= len (fs_fat st') /\
  forall c, 0 <= c < len (fs_fat st) -> c <> skip ->
    fat_at st' c = fat_at st c /\ fs_data st' !! c = fs_data st !! c.

Lemma ext_refl skip st : ext skip st st.
Proof. split; [lia|]. done. Qed.

Lemma ext_trans skip a b c : ext skip a b -> ext skip b c -> ext skip a c.
Proof.
  intros [H1 H2] [H3 H4]. split; [lia|]. intros d Hd Hs.
  destruct (H2 d Hd Hs) as [<- <-]. apply H4; [lia|done].
Qed.

Lemma ext_weaken skip st st' : ext (-1) st st' -> ext skip st st'.
Proof. intros [H1 H2]. split; [done|]. intros c Hc _. apply H2; lia. Qed.

(** A step that leaves only clusters new since [st] to change extends [st]. *)
Lemma ext_new st st1 st2 skip :
  ext (-1) st st1 -> ext skip st1 st2 -> len (fs_fat st) <= skip -> ext (-1) st st2.
Proof.
  intros [H1 H2] [H3 H4] Hs. split; [lia|]. intros c Hc _.
  destruct (H2 c Hc) as [<- <-]; [lia|]. apply H4; lia.
Qed.

Lemma fat_at_lt st c x : fat_at st c = Some x -> 0 <= c -> c < len (fs_fat st).
Proof. unfold fat_at, len. intros H%lookup_lt_Some H0. lia. Qed.

Lemma chain_holds_ext cb skip st st' lo cs content :
  0 <= lo -> skip < lo -> ext skip st st' -> chain_holds cb st lo cs content -> chain_holds cb st' lo cs content.
Proof.
  intros Hlo Hs [_ He]. revert content. induction cs as [|c [|c' cs] IH]; intros content; [done|..];
    cbn [chain_holds].
  - intros (H1 & H2 & H3 & H4). destruct (He c) as [-> ->]; [|lia|done].
    pose proof (fat_at_lt _ _ _ H2). lia.
  - intros (H1 & H2 & H3 & H4 & H5). destruct (He c) as [-> ->];
      [pose proof (fat_at_lt _ _ _ H2); lia|lia|]. do 4 (split; [done|]). by apply IH.
Qed.

Lemma chain_holds_lo cb st lo lo' cs content :
  lo' <= lo -> chain_holds cb st lo cs content -> chain_holds cb st lo' cs content.
Proof.
  intros Hl. revert content. induction cs as [|c [|c' cs] IH]; intros content; [done|..]; cbn [chain_holds].
  - intros (H1 & H2). split; [lia|done].
  - intros (H1 & H2 & H3 & H4 & H5). split; [lia|]. do 3 (split; [done|]). by apply IH.
Qed.

(** A chain's first cluster, and its length. *)
Lemma chain_head cb st lo c cs content : chain_holds cb st lo (c :: cs) content -> exists x, fat_at st c = Some x.
Proof. destruct cs as [|c' cs]; cbn; intros (_ & H & _); eauto. Qed.

Lemma chain_lo cb st lo c cs content : chain_holds cb st lo (c :: cs) content -> lo <= c.
Proof. destruct cs as [|c' cs]; cbn; intros (H & _); lia. Qed.

Lemma chain_len cb st lo c cs content :
  0 <= lo -> chain_holds cb st lo (c :: cs) content -> c + len (c :: cs) <= len (fs_fat st).
Proof.
  intros Hlo. revert c content. induction cs as [|c' cs IH]; intros c content H.
  - destruct (chain_head _ _ _ _ _ _ H) as (x & Hx). pose proof (chain_lo _ _ _ _ _ _ H).
    apply fat_at_lt in Hx; [|lia]. rewrite len_cons, len_nil. lia.
  - cbn [chain_holds] in H. destruct H as (H1 & _ & _ & _ & H). apply IH in H.
    rewrite len_cons. lia.
Qed.

Fixpoint increasing (cs : list Z) : Prop :=
  match cs with
  | c :: ((c' :: _) as rest) => c < c' /\ increasing rest
  | _ => True
  end.

(** The links of a chain in the FAT. *)
Fixpoint linked (fat : list Z) (cs : list Z) : Prop :=
  match cs with
  | [] => True
  | [c] => fat !! Z.to_nat c = Some FAT_EOC
  | c :: ((c' :: _) as rest) => fat !! Z.to_nat c = Some c' /\ linked fat rest
  end.

Section Chains.
Variables cluster_bytes clusters : Z.
Hypothesis Hcb : 0 < cluster_bytes.
#[local] Abbreviation cb := cluster_bytes.
#[local] Abbreviation chain_holds := (chain_holds cb).
#[local] Abbreviation clusters_for := (clusters_for cb).

Lemma clusters_for_one content : len content <= cb -> clusters_for content = 1.
Proof.
  intros H. unfold FatImage.clusters_for. pose proof (cdiv_spec (len content) cb Hcb).
  pose proof (len_nonneg content). nia.
Qed.

Lemma clusters_for_more content :
  cb < len content -> clusters_for content = 1 + clusters_for (drop (Z.to_nat cb) content).
Proof.
  intros H. unfold FatImage.clusters_for. rewrite len_drop, Z2Nat.id by lia.
  pose proof (cdiv_spec (len content) cb Hcb).
  rewrite (cdiv_unique (Z.max 0 (len content - cb)) cb (cdiv (len content) cb - 1)) by nia. nia.
Qed.

Lemma clusters_for_pos content : 1 <= clusters_for content.
Proof. unfold FatImage.clusters_for. lia. Qed.

Lemma slice_shift (content : bytes) i :
  0 <= i -> slice content ((i + 1) * cb) ((i + 1 + 1) * cb) =
            slice (drop (Z.to_nat cb) content) (i * cb) ((i + 1) * cb).
Proof.
  intros. unfold slice. rewrite drop_drop. f_equal; [lia|]. f_equal. nia.
Qed.

(** Linked clusters whose contents are the pieces of [content] hold it. *)
Lemma chain_intro st lo cs content :
  len cs = clusters_for content -> linked (fs_fat st) cs -> increasing cs -> Forall (fun c => lo <= c) cs ->
  (forall i c, cs !! i = Some c ->
     fs_data st !! c = Some (slice content (Z.of_nat i * cb) ((Z.of_nat i + 1) * cb))) ->
  chain_holds st lo cs content.
Proof.
  revert content. induction cs as [|c [|c' cs] IH]; intros content Hl Hlk Hinc Hlo Hd.
  - exfalso. pose proof (clusters_for_pos content). rewrite len_nil in Hl. lia.
  - cbn [FatPlan.chain_holds]. inversion Hlo; subst. split; [done|]. split; [exact Hlk|].
    assert (len content <= cb) as Hle.
    { apply Z.nlt_ge. intros Hc. apply clusters_for_more in Hc.
      pose proof (clusters_for_pos (drop (Z.to_nat cb) content)).
      rewrite len_cons, len_nil in Hl. lia. }
    split; [|done]. rewrite (Hd 0%nat c) by done. f_equal.
    replace (Z.of_nat 0 * cb) with 0 by lia. apply slice_0_len. lia.
  - cbn [FatPlan.chain_holds]. inversion Hlo as [|? ? H1 H2]; subst. destruct Hlk as [Hc Hrest]. destruct Hinc as [Hlt Hinc].
    assert (cb < len content) as Hgt.
    { apply Z.nle_gt. intros Hc'. apply clusters_for_one in Hc'.
      rewrite !len_cons in Hl. pose proof (len_nonneg cs). lia. }
    split; [lia|]. split; [exact Hc|]. split.
    { rewrite (Hd 0%nat c) by done. f_equal. unfold slice.
      replace (Z.to_nat (Z.of_nat 0 * cb)) with 0%nat by lia. rewrite drop_0. f_equal. lia. }
    split; [done|]. apply IH; [|done|done|done|].
    + rewrite clusters_for_more, !len_cons in Hl by done. rewrite len_cons. lia.
    + intros i d Hi. rewrite (Hd (S i) d) by done. f_equal.
      rewrite <- slice_shift by lia. f_equal; lia.
Qed.

(** ** Allocation *)

Definition alloc_chain (first n : Z) : list Z := map (fun i => first + Z.of_nat i) (seq 0 (Z.to_nat n)).

(** After [k] turns of the loop. *)
Lemma alloc_steps content first n st k :
  first = len (fs_fat st) ->
  let st' := fold_left (alloc_step cb content first n) (map Z.of_nat (seq 0 k)) st in
  len (fs_fat st') = first + Z.of_nat k /\
  (forall c, 0 <= c < first -> fat_at st' c = fat_at st c /\ fs_data st' !! c = fs_data st !! c) /\
  (forall i, (i < k)%nat ->
     fat_at st' (first + Z.of_nat i) = Some (if Z.of_nat i <? n - 1 then first + Z.of_nat i + 1 else FAT_EOC) /\
     fs_data st' !! (first + Z.of_nat i) =
       Some (slice content (Z.of_nat i * cb) ((Z.of_nat i + 1) * cb))) /\
  (forall c, fs_data st' !! c <> None -> fs_data st !! c <> None \/ first <= c < first + Z.of_nat k).
Proof.
  intros Hf. pose proof (len_nonneg (fs_fat st)). induction k as [|k IH]; cbn zeta in *.
  { cbn [seq map fold_left]. split; [lia|]. split; [done|]. split; [lia|]. by left. }
  rewrite seq_S, map_app, fold_left_app. cbn [map fold_left Nat.add].
  set (s := fold_left _ _ _) in *. destruct IH as (Hl & Hold & Hnew & Hdom).
  unfold alloc_step, fat_at in *. cbn [fs_fat fs_data] in *. rewrite len_app, Hl, len_cons, len_nil.
  assert (length (fs_fat s) = Z.to_nat (first + Z.of_nat k)) as Hlen by (unfold len in Hl; lia).
  split; [lia|]. split; [|split].
  - intros c Hc. rewrite lookup_app_l by lia. rewrite lookup_insert_ne by lia. by apply Hold.
  - intros i Hi. destruct (decide (i = k)) as [->|].
    + rewrite lookup_app_r by lia. rewrite Hlen, Nat.sub_diag, lookup_insert_eq. done.
    + rewrite lookup_app_l by lia. rewrite lookup_insert_ne by lia. apply Hnew. lia.
  - intros c Hc. destruct (decide (c = first + Z.of_nat k)) as [->|]; [right; lia|].
    rewrite lookup_insert_ne in Hc by done. apply Hdom in Hc as [|]; [by left|right; lia].
Qed.

Lemma increasing_seq first j k : increasing (map (fun i => first + Z.of_nat i) (seq j k)).
Proof.
  revert j. induction k as [|k IH]; intros j; [done|]. destruct k as [|k]; [done|].
  specialize (IH (S j)). cbn [seq map increasing] in *. split; [lia|exact IH].
Qed.

Lemma linked_seq fat first n j :
  0 <= first -> (j < Z.to_nat n)%nat ->
  (forall i, (i < Z.to_nat n)%nat ->
     fat !! Z.to_nat (first + Z.of_nat i) = Some (if Z.of_nat i <? n - 1 then first + Z.of_nat i + 1 else FAT_EOC)) ->
  linked fat (map (fun i => first + Z.of_nat i) (seq j (Z.to_nat n - j))).
Proof.
  intros Hf Hj Hfat. remember (Z.to_nat n - j)%nat as k eqn:Hk. revert j Hj Hk.
  induction k as [|k IH]; intros j Hj Hk; [lia|]. cbn [seq map].
  pose proof (Hfat j Hj) as Hfj. destruct k as [|k].
  - cbn [seq map linked]. rewrite Hfj. by replace (Z.of_nat j <? n - 1) with false by lia.
  - specialize (IH (S j) ltac:(lia) ltac:(lia)). cbn [seq map linked] in *. split; [|exact IH].
    rewrite Hfj. replace (Z.of_nat j <? n - 1) with true by lia. f_equal. lia.
Qed.

(** Every cluster's contents fit it, and no more clusters are used than there are. *)
Definition bounded (st : fat_state) : Prop :=
  2 <= len (fs_fat st) <= Z.max 2 (clusters + 2) /\
  forall c d, fs_data st !! c = Some d -> 2 <= c < len (fs_fat st) /\ len d <= cb.

Lemma len_slice_le (l : bytes) i j : i <= j -> len (slice l i j) <= j - i.
Proof. intros. unfold slice. rewrite len_take. lia. Qed.

Lemma alloc_spec content st first st' :
  bounded st -> alloc cb clusters content st = Ok (first, st') ->
  first = len (fs_fat st) /\ 2 <= first /\ first < len (fs_fat st') /\ bounded st' /\ ext (-1) st st' /\
  (forall lo, lo <= first -> exists cs, chain_holds st' lo (first :: cs) content) /\
  (content = [] -> fat_at st' first = Some FAT_EOC).
Proof.
  intros [Hb1 Hb2]. unfold alloc. set (n := clusters_for content). destruct (_ <? _) eqn:E; [done|].
  apply Z.ltb_ge in E. intros [= <- <-]. pose proof (clusters_for_pos content) as Hn. fold n in Hn.
  destruct (alloc_steps content (len (fs_fat st)) n st (Z.to_nat n) eq_refl) as (Hl & Hold & Hnew & Hdom).
  set (st' := fold_left _ _ _) in *. set (first := len (fs_fat st)) in *.
  split; [done|]. split; [lia|]. split; [lia|]. split; [split; [lia|]|split; [|split]].
  - intros c d Hd. destruct (Z.lt_ge_cases c first).
    + destruct (Z.lt_ge_cases c 0).
      * destruct (Hdom c) as [Hc|Hc]; [congruence| |lia].
        destruct (fs_data st !! c) eqn:Ec; [|done]. apply Hb2 in Ec. lia.
      * destruct (Hold c) as [_ Hc]; [lia|]. rewrite Hc in Hd. apply Hb2 in Hd. lia.
    + destruct (Hdom c) as [Hc|Hc]; [congruence| |].
      { destruct (fs_data st !! c) eqn:Ec; [|done]. apply Hb2 in Ec. lia. }
      replace c with (first + Z.of_nat (Z.to_nat (c - first))) in Hd by lia.
      destruct (Hnew (Z.to_nat (c - first))) as [_ Hc2]; [lia|]. rewrite Hc2 in Hd. injection Hd as <-.
      split; [lia|]. etransitivity; [apply len_slice_le; nia|]. nia.
  - split; [lia|]. intros c Hc _. apply Hold. lia.
  - intros lo Hlo. exists (tail (alloc_chain first n)).
    assert (first :: tail (alloc_chain first n) = alloc_chain first n) as ->.
    { unfold alloc_chain. destruct (Z.to_nat n) as [|k] eqn:Ek; [lia|]. simpl. f_equal. lia. }
    apply chain_intro.
    + unfold alloc_chain, len. rewrite length_map, length_seq. fold n. lia.
    + unfold alloc_chain. rewrite <- (Nat.sub_0_r (Z.to_nat n)).
      apply linked_seq; [lia|lia|]. intros i Hi. by apply Hnew.
    + unfold alloc_chain. apply increasing_seq.
    + unfold alloc_chain. rewrite Forall_map. apply Forall_forall. intros i Hi. simpl. lia.
    + unfold alloc_chain. intros i c Hi. rewrite list_lookup_fmap in Hi.
      destruct (seq 0 (Z.to_nat n) !! i) as [j|] eqn:Ej; [|done]. apply lookup_seq in Ej as [-> Hj].
      simpl in Hi. injection Hi as <-. by apply Hnew.
  - intros ->. unfold n in *. rewrite clusters_for_one in * by (rewrite len_nil; lia).
    destruct (Hnew 0%nat) as [H _]; [lia|]. rewrite Z.add_0_r in H. exact H.
Qed.

Lemma increasing_NoDup cs : increasing cs -> NoDup cs.
Proof.
  assert (forall cs c, increasing (c :: cs) -> Forall (fun d => c < d) cs) as Hlt.
  { clear cs. induction cs as [|d cs IH]; intros c H; [constructor|]. destruct H as [H1 H2].
    constructor; [done|]. eapply Forall_impl; [by apply IH|]. simpl. lia. }
  induction cs as [|c cs IH]; intros H; [constructor|]. constructor.
  - intros Hin. pose proof (Hlt _ _ H) as Hf. rewrite Forall_forall in Hf. apply Hf in Hin. lia.
  - apply IH. by destruct cs; [|destruct H].
Qed.

Lemma alloc_empty_spec n st cs st' :
  bounded st -> alloc_empty cb clusters n st = Ok (cs, st') ->
  bounded st' /\ ext (-1) st st' /\ length cs = n /\ len (fs_fat st) <= len (fs_fat st') /\ increasing cs /\
  Forall (fun c => len (fs_fat st) <= c < len (fs_fat st') /\ fat_at st' c = Some FAT_EOC) cs.
Proof.
  revert st cs st'. induction n as [|n IH]; intros st cs st' Hb H; cbn [alloc_empty] in H; invert_res.
  { injection H as <- <-. split; [done|]. split; [apply ext_refl|]. split; [done|]. split; [lia|].
    split; [done|constructor]. }
  destruct a as [c st1]. invert_res. destruct a as [cs1 st2]. invert_res. injection H as <- <-.
  destruct (alloc_spec _ _ _ _ Hb Ha) as (Hc & Hc2 & Hc3 & Hb1 & He1 & _ & Heoc).
  destruct (IH _ _ _ Hb1 Ha0) as (Hb2 & He2 & Hl & Hle & Hnd & Hall).
  split; [done|]. split; [by eapply ext_trans|]. split; [simpl; lia|].
  assert (len (fs_fat st) <= len (fs_fat st1)) by apply He1.
  split; [lia|]. split.
  - destruct cs1 as [|c1 cs1]; [done|]. split; [|done]. inversion Hall; subst. lia.
  - constructor.
    + split; [lia|]. destruct He2 as [_ He2]. destruct (He2 c) as [-> _]; [lia|lia|]. by apply Heoc.
    + eapply Forall_impl; [exact Hall|]. intros d [? ?]. split; [lia|done].
Qed.

Lemma link_chain_spec cs fat fat' :
  link_chain cs fat = Ok fat' -> NoDup cs -> Forall (fun c => 0 <= c) cs ->
  (exists c, list.last cs = Some c /\ fat !! Z.to_nat c = Some FAT_EOC) ->
  length fat' = length fat /\ linked fat' cs /\
  (forall c, 0 <= c -> ~ c ∈ cs -> fat' !! Z.to_nat c = fat !! Z.to_nat c) /\
  (forall c, list.last cs = Some c -> fat' !! Z.to_nat c = fat !! Z.to_nat c).
Proof.
  revert fat fat'. induction cs as [|a [|c cs] IH]; intros fat fat' H Hnd Hpos Hlast.
  - destruct Hlast as (? & [=] & _).
  - cbn in H. injection H as <-. split; [done|]. split; [|done].
    destruct Hlast as (d & [= <-] & Hd). exact Hd.
  - cbn [link_chain] in H. invert_res. unfold setitem in Ha. destruct (_ <? _)%nat eqn:E; [|done].
    injection Ha as <-. apply Nat.ltb_lt in E.
    inversion Hnd as [|? ? Hna Hnd']; subst. inversion Hpos as [|? ? Ha Hpos']; subst.
    assert (forall d, 0 <= d -> d <> a -> (<[Z.to_nat a := c]> fat) !! Z.to_nat d = fat !! Z.to_nat d) as Hne.
    { intros d Hd Hda. apply list_lookup_insert_ne. lia. }
    assert (list.last (c :: cs) = list.last (a :: c :: cs)) as Hl by done.
    destruct Hlast as (e & He & Hee). rewrite <- Hl in He.
    assert (e ∈ c :: cs) as Hin by (apply last_Some in He as (k & ->); apply elem_of_app; right; constructor).
    assert (e <> a) by (intros ->; done).
    assert (0 <= e) by (rewrite Forall_forall in Hpos'; by apply Hpos').
    destruct (IH _ _ H Hnd' Hpos') as (L1 & L2 & L3 & L4).
    { exists e. split; [done|]. rewrite Hne; done. }
    rewrite length_insert in L1. split; [done|]. split; [|split].
    + cbn [linked]. split; [|exact L2]. rewrite L3 by done. by apply list_lookup_insert_eq.
    + intros d Hd Hnin. rewrite not_elem_of_cons in Hnin. destruct Hnin.
      rewrite L3 by done. by apply Hne.
    + intros d Hd. rewrite <- Hl in Hd. rewrite He in Hd. injection Hd as <-. rewrite L4 by done. by apply Hne.
Qed.

(** The contents written along a chain. *)
Lemma chain_data (f : Z -> bytes) chain k (data : gmap Z bytes) :
  NoDup chain ->
  let data' := fold_left (fun data '(i, c) => <[c := f i]> data)
    (combine (map Z.of_nat (seq k (length chain))) chain) data in
  (forall i c, chain !! i = Some c -> data' !! c = Some (f (Z.of_nat (k + i)))) /\
  (forall c, ~ c ∈ chain -> data' !! c = data !! c).
Proof.
  intros Hnd. revert k data. induction Hnd as [|a chain Ha Hnd IH]; intros k data; cbn zeta.
  { split; [intros i c Hi; by rewrite lookup_nil in Hi|done]. }
  cbn [length seq map combine fold_left].
  destruct (IH (S k) (<[a := f (Z.of_nat k)]> data)) as [H1 H2]. split.
  - intros [|i] c Hi; cbn in Hi.
    + injection Hi as <-. rewrite H2 by done. by rewrite lookup_insert_eq, Nat.add_0_r.
    + rewrite (H1 i c Hi). do 2 f_equal. lia.
  - intros c Hc. rewrite not_elem_of_cons in Hc. destruct Hc. rewrite H2 by done.
    by rewrite lookup_insert_ne by done.
Qed.

Lemma fat_at_set st fat c : fat_at (mkFat fat st) c = fat !! Z.to_nat c.
Proof. done. Qed.

Lemma write_raw_spec raw own st st' :
  bounded st -> 2 <= own < len (fs_fat st) -> fat_at st own = Some FAT_EOC ->
  write_raw cb clusters raw own st = Ok st' ->
  bounded st' /\ ext own st st' /\ exists cs, chain_holds st' own (own :: cs) raw.
Proof.
  intros Hb Hown Heoc H. unfold write_raw in H. invert_res. destruct a as [more st1]. invert_res.
  destruct (alloc_empty_spec _ _ _ _ Hb Ha) as (Hb1 & He1 & Hlm & Hle & Hnd & Hall).
  pose proof (clusters_for_pos raw) as Hn.
  assert (Hnin : ~ own ∈ more).
  { intros Hin. rewrite Forall_forall in Hall. apply Hall in Hin. lia. }
  assert (Hinc : increasing (own :: more)).
  { destruct more as [|c more]; [done|]. split; [|done]. inversion Hall; subst. lia. }
  pose proof (increasing_NoDup _ Hinc) as Hnd'.
  destruct (link_chain_spec _ _ _ Ha0 Hnd') as (L1 & L2 & L3 & L4).
  { constructor; [lia|]. eapply Forall_impl; [exact Hall|]. intros c Hc. simpl in Hc. lia. }
  { destruct (list.last more) as [e|] eqn:El.
    - exists e. split; [by destruct more; [|]|].
      rewrite Forall_forall in Hall. apply Hall.
      apply last_Some in El as (k & ->). apply elem_of_app. right. constructor.
    - apply last_None in El as ->. exists own. split; [done|].
      destruct He1 as [_ He1]. destruct (He1 own) as [E _]; [lia|lia|]. by rewrite <- Heoc, <- E. }
  destruct (chain_data (fun i => slice raw (i * cb) ((i + 1) * cb)) (own :: more) 0 (fs_data st1) Hnd') as [D1 D2].
  assert (len a = len (fs_fat st1)) as Hla by (unfold len; by rewrite L1).
  destruct Hb1 as [Hb1 Hb2]. destruct He1 as [He1 He2].
  split; [split|split; [split|]]; cbn [fs_fat fs_data] in *.
  - by rewrite Hla.
  - intros c d Hd. destruct (decide (c ∈ own :: more)) as [Hin|Hin].
    + apply list_elem_of_lookup in Hin as (i & Hi). rewrite (D1 i c Hi) in Hd. injection Hd as <-.
      split; [|etransitivity; [apply len_slice_le; nia|nia]].
      rewrite Hla. apply list_elem_of_lookup_2 in Hi. apply elem_of_cons in Hi as [->|Hi]; [lia|].
      rewrite Forall_forall in Hall. apply Hall in Hi. lia.
    + rewrite D2 in Hd by done. rewrite Hla. by apply Hb2.
  - lia.
  - intros c Hc Hs.
    assert (~ c ∈ own :: more) as Hin.
    { rewrite not_elem_of_cons. split; [done|]. intros Hin. rewrite Forall_forall in Hall.
      apply Hall in Hin. lia. }
    destruct (He2 c) as [E1 E2]; [lia|lia|]. rewrite fat_at_set, L3, D2 by (done || lia). done.
  - exists more. apply chain_intro; cbn [fs_fat fs_data].
    + rewrite len_cons. unfold len. rewrite Hlm. lia.
    + done.
    + done.
    + constructor; [lia|]. eapply Forall_impl; [exact Hall|]. intros c Hc. simpl in Hc. lia.
    + intros i c Hi. rewrite (D1 i c Hi). by rewrite Nat.add_0_l.
Qed.

(** ** The tree on the clusters *)

Variable label : text.

(** A child's entry: [c] is its first cluster. *)
Definition child_entry (name : bytes) (x : node) (c : Z) : res bytes :=
  match x with
  | File content => fat_entry name 0x20 c (len content)
  | Dir _ => fat_entry name 0x10 c 0
  end.

(** [x] is on the clusters from [lo] up, its first one [c] (0 for an empty file). *)
Inductive holds (st : fat_state) (lo : Z) : node -> Z -> Prop :=
| holds_empty : holds st lo (File []) 0
| holds_file content c cs :
    content <> [] -> chain_holds st lo (c :: cs) content -> holds st lo (File content) c
| holds_dir children root own parent head es cs :
    dir_head label root own parent = Ok head ->
    chain_holds st lo (own :: cs) (concat (head ++ es)) ->
    children_hold st lo children es -> holds st lo (Dir children) own
with children_hold (st : fat_state) (lo : Z) : list (bytes * node) -> list bytes -> Prop :=
| children_nil : children_hold st lo [] []
| children_cons name x c e cs es :
    child_entry name x c = Ok e -> holds st lo x c -> children_hold st lo cs es ->
    children_hold st lo ((name, x) :: cs) (e :: es).

Scheme holds_mind := Minimality for holds Sort Prop
  with children_hold_mind := Minimality for children_hold Sort Prop.
Combined Scheme holds_children_ind from holds_mind, children_hold_mind.

(** What is held stays held: at a lower bound, and when other clusters change. *)
Lemma holds_mono skip st st' lo lo' :
  0 <= lo -> skip < lo -> lo' <= lo -> ext skip st st' ->
  (forall x c, holds st lo x c -> holds st' lo' x c) /\
  (forall cs es, children_hold st lo cs es -> children_hold st' lo' cs es).
Proof.
  intros H0 Hs Hl He. apply holds_children_ind.
  - constructor.
  - intros content c cs Hne Hc. apply (holds_file _ _ _ _ cs); [done|].
    eapply chain_holds_lo; [exact Hl|]. by eapply chain_holds_ext.
  - intros children root own parent head es cs Hh Hc _ IH.
    apply (holds_dir _ _ _ root own parent head es cs); [done| |done].
    eapply chain_holds_lo; [exact Hl|]. by eapply chain_holds_ext.
  - constructor.
  - intros. by econstructor.
Qed.

Lemma children_hold_app st lo cs1 cs2 es1 es2 :
  children_hold st lo cs1 es1 -> children_hold st lo cs2 es2 ->
  children_hold st lo (cs1 ++ cs2) (es1 ++ es2).
Proof. induction 1 as [|name x c e cs es He Hx Hcs IH]; intros H2; [done|]. simpl. econstructor; eauto. Qed.

(** Induction on the tree. *)
Fixpoint node_tree_ind (P : node -> Prop) (HF : forall content, P (File content))
    (HD : forall children, Forall (fun nx => P nx.2) children -> P (Dir children)) (x : node) : P x :=
  match x with
  | File content => HF content
  | Dir children => HD children
      ((fix go (cs : list (bytes * node)) : Forall (fun nx => P nx.2) cs :=
         match cs with
         | [] => List.Forall_nil _
         | (n, x) :: cs => List.Forall_cons _ (n, x) cs (node_tree_ind P HF HD x) (go cs)
         end) children)
  end.

Definition dir_written (x : node) : Prop :=
  forall own parent root st st',
    bounded st -> 2 <= own < len (fs_fat st) -> fat_at st own = Some FAT_EOC ->
    write_dir cb clusters label x own parent root st = Ok st' ->
    bounded st' /\ ext own st st' /\ holds st' own x own.

Lemma holds_lo st lo lo' x c : 0 <= lo' -> lo' <= lo -> holds st lo x c -> holds st lo' x c.
Proof. intros H0 Hl. apply (holds_mono (-1) st st lo lo'); [lia|lia|lia|apply ext_refl]. Qed.

Lemma holds_ext st st' lo x c : 0 <= lo -> ext (-1) st st' -> holds st lo x c -> holds st' lo x c.
Proof. intros H0 He. apply (holds_mono (-1) st st' lo lo); [lia|lia|lia|done]. Qed.

(** A file's clusters. *)
Lemma file_spec content st first st1 own :
  bounded st -> 0 <= own < len (fs_fat st) ->
  (match content with [] => Ok (0, st) | _ => alloc cb clusters content st end) = Ok (first, st1) ->
  bounded st1 /\ ext (-1) st st1 /\ holds st1 (own + 1) (File content) first.
Proof.
  intros Hb Hown H. destruct content as [|c content].
  - injection H as <- <-. split; [done|]. split; [apply ext_refl|]. constructor.
  - destruct (alloc_spec _ _ _ _ Hb H) as (Hc & _ & _ & Hb1 & He1 & Hch & _).
    split; [done|]. split; [done|]. destruct (Hch (own + 1)) as (cs & Hcs); [lia|].
    by econstructor.
Qed.

Lemma write_children_spec own root cs entries st es st2 :
  Forall (fun nx => dir_written nx.2) cs ->
  bounded st -> 2 <= own < len (fs_fat st) ->
  write_children cb clusters (write_dir cb clusters label) own root cs entries st = Ok (es, st2) ->
  exists new, es = entries ++ new /\ bounded st2 /\ ext (-1) st st2 /\ children_hold st2 (own + 1) cs new.
Proof.
  intros Hall. revert entries st. induction Hall as [|[name x] cs Hx Hall IH]; intros entries st Hb Hown H.
  - injection H as <- <-. exists []. rewrite app_nil_r. split; [done|]. split; [done|].
    split; [apply ext_refl|constructor].
  - assert (Hstep : forall first e st1, bounded st1 -> ext (-1) st st1 -> holds st1 (own + 1) x first ->
      child_entry name x first = Ok e ->
      write_children cb clusters (write_dir cb clusters label) own root cs (entries ++ [e]) st1 = Ok (es, st2) ->
      exists new, es = entries ++ new /\ bounded st2 /\ ext (-1) st st2 /\
        children_hold st2 (own + 1) ((name, x) :: cs) new).
    { intros first e st1 Hb1 He1 Hh Hent H1. pose proof (proj1 He1).
      destruct (IH _ _ Hb1 ltac:(lia) H1) as (new & -> & Hb2 & He2 & Hnew).
      exists (e :: new). rewrite <- app_assoc. split; [done|]. split; [done|].
      split; [by eapply ext_trans|]. econstructor; [exact Hent| |done].
      eapply holds_ext; [lia|exact He2|exact Hh]. }
    destruct x as [content|children]; cbn [write_children] in H.
    + apply bind_Ok in H as ([first st1] & Ha & H). invert_res.
      destruct (file_spec content st first st1 own Hb ltac:(lia) Ha) as (Hb1 & He1 & Hh).
      by eapply Hstep.
    + apply bind_Ok in H as ([first st1] & Ha & H). invert_res.
      destruct (alloc_spec _ _ _ _ Hb Ha) as (Hc & Hc2 & Hc3 & Hb1 & He1 & _ & Heoc).
      destruct (Hx first (if root then 0 else own) false st1 a0 Hb1 ltac:(lia) (Heoc eq_refl) Ha1)
        as (Hb2 & He2 & Hh).
      eapply Hstep; [exact Hb2| | |done|exact H].
      * eapply ext_new; [exact He1|exact He2|lia].
      * eapply holds_lo; [lia| |exact Hh]. lia.
Qed.

(** [write_dir] leaves the directory, and everything in it, on the clusters. *)
Lemma write_dir_spec x : dir_written x.
Proof.
  induction x as [content|children Hall] using node_tree_ind; intros own parent root st st' Hb Hown Heoc H.
  - discriminate.
  - cbn [write_dir] in H. invert_res. destruct a0 as [es st1].
    destruct (write_children_spec _ _ _ _ _ _ _ Hall Hb Hown Ha0) as (new & -> & Hb1 & He1 & Hnew).
    pose proof (proj1 He1). assert (fat_at st1 own = Some FAT_EOC) as Heoc1.
    { destruct He1 as [_ He1]. destruct (He1 own) as [-> _]; [lia|lia|done]. }
    destruct (write_raw_spec _ own st1 st' Hb1 ltac:(lia) Heoc1 H) as (Hb2 & He2 & cs & Hcs).
    split; [done|]. split; [eapply ext_trans; [by apply ext_weaken|done]|].
    eapply (holds_dir st' own children root own parent a new cs); [done|done|].
    eapply (holds_mono own st1 st' (own + 1) own); [lia|lia|lia|exact He2|exact Hnew].
Qed.

End Chains.
