(* ===== verification/FatReader.v ===== *)
(** * The firmware's FAT32 reader

    firmware/fw_common/src/fat/mod.rs and dir.rs: mounting a card, looking names up and
    reading a file along its cluster chain, over any block device. The FAT sector the reader
    keeps between reads is not modelled (nothing here writes to the card), nor where an entry
    lies and its long name, which only the commands that change the card use. *)
From S2P Require Import Prelude Header Image Text FatImage.

Inductive FatError : Type :=
| Io (lba : Z) | NoSignature | NoPartition | NotFat32 | BadBpb | BadChain (c : Z)
| BadName | NotFound | WrongType | TooBig | FileExists | DiskFull | Verify | NotEmpty.

(** [Result<T, FatError>]. *)
Inductive fres (A : Type) : Type :=
| Good (a : A)
| Bad (e : FatError).
Arguments Good {A}. Arguments Bad {A}.

#[export] Instance fres_ret : MRet fres := fun _ => Good.
#[export] Instance fres_bind : MBind fres := fun _ _ f m =>
  match m with Good a => f a | Bad e => Bad e end.

Definition le16 (b : bytes) (at0 : Z) : Z := Fw.le16 b at0.
Definition le32 (b : bytes) (at0 : Z) : Z := Fw.le32 b at0.
(** [buf[i]]. *)
Definition at_byte (b : bytes) (i : Z) : Z := u8 (nth (Z.to_nat i) b x00).

Definition EOC_MIN : Z := 0x0FFFFFF8.
Definition ENTRY_MASK : Z := 0x0FFFFFFF.
Definition MAX_CLUSTERS : Z := 0x0FFFFFF5.
Definition ATTR_VOLUME : Z := 0x08.
Definition ATTR_DIR : Z := 0x10.
Definition ATTR_LFN : Z := 0x0F.
Definition ENTRY : Z := 32.
Definition DELETED : Z := 0xE5.

Record Volume := mkVolume {
  part_lba : Z; fat_lba : Z; fat_sectors : Z; num_fats : Z; data_lba : Z; cluster_shift : Z;
  cluster_end : Z; vol_root : Z; fsinfo_lba : Z
}.

Record DirEntry := mkEntry { e_name : bytes; e_attr : Z; e_cluster : Z; e_size : Z }.

(** [DirEntry::root]. *)
Definition root_entry (cluster : Z) : DirEntry := mkEntry (bstr "           ") ATTR_DIR cluster 0.

(** [DirEntry::parse]. *)
Definition parse_entry (e : bytes) : DirEntry :=
  mkEntry (take 11 e) (at_byte e 11) (Z.lor (Z.shiftl (le16 e 20) 16) (le16 e 26)) (le32 e 28).

(** [DirEntry::is_dir]. *)
Definition entry_is_dir (e : DirEntry) : bool := negb (Z.land (e_attr e) ATTR_DIR =? 0).

(** [is_power_of_two]. *)
Definition is_power_of_two (n : Z) : bool := (0 <? n) && (Z.land n (n - 1) =? 0).

Section Reader.
(** [BlockDevice::read]: a sector, or [None] on a card error. *)
Variable dev : Z -> option bytes.

(** [read]. *)
Definition read (lba : Z) : fres bytes :=
  match dev lba with Some buf => Good buf | None => Bad (Io lba) end.

Definition has_signature (buf : bytes) : bool := bool_decide (slice buf 510 512 = [x55; xaa]).

(** [is_cluster] and [cluster_lba]. *)
Definition is_cluster (v : Volume) (c : Z) : bool := (2 <=? c) && (c <? cluster_end v).
Definition cluster_lba (v : Volume) (c : Z) : Z := data_lba v + Z.shiftl (c - 2) (cluster_shift v).

(** [Volume::mount] from the boot sector on. *)
Definition mount_boot (plba : Z) (buf : bytes) : fres Volume :=
  if negb (has_signature buf) then Bad NoSignature
  else
    let bytes_per_sector := le16 buf 11 in
    let cluster_sectors := at_byte buf 13 in
    let reserved := le16 buf 14 in
    let nf := at_byte buf 16 in
    if negb (le16 buf 22 =? 0) || negb (le16 buf 17 =? 0) then Bad NotFat32
    else
      let total := if le16 buf 19 =? 0 then le32 buf 32 else le16 buf 19 in
      let fs := le32 buf 36 in
      if negb (bytes_per_sector =? SECTOR) || negb (is_power_of_two cluster_sectors) || (reserved =? 0)
         || negb ((1 <=? nf) && (nf <=? 2)) || (fs =? 0)
      then Bad BadBpb
      else
        let shift := Z.log2 cluster_sectors in
        let meta := reserved + Z.shiftl fs (nf - 1) in
        if total <=? meta then Bad BadBpb
        else
          let clusters := Z.shiftr (total - meta) shift in
          if (MAX_CLUSTERS <? clusters) || negb (Z.land (at_byte buf 40) 0x80 =? 0) then Bad BadBpb
          else if (Z.shiftl fs 7 <? clusters + 2) || (0xFFFFFFFF <? plba + total) then Bad BadBpb
          else
            let v := mkVolume plba (plba + reserved) fs nf (plba + meta) shift (clusters + 2)
                       (le32 buf 44) (plba + le16 buf 48) in
            if negb (is_cluster v (vol_root v)) then Bad BadBpb else Good v.

(** [Volume::mount]. *)
Definition mount : fres Volume :=
  buf ← read 0;
  if negb (has_signature buf) then Bad NoSignature
  else
    let t := at_byte buf (446 + 4) in
    if t =? 0 then Bad NoPartition
    else if (t =? 0x0B) || (t =? 0x0C) then
      let plba := le32 buf (446 + 8) in
      boot ← read plba;
      mount_boot plba boot
    else Bad NotFat32.

(** [fat_entry] (through [load_fat]) and [next_cluster]. *)
Definition vol_fat_entry (v : Volume) (c : Z) : fres Z :=
  buf ← read (fat_lba v + Z.shiftr c 7);
  mret (Z.land (le32 buf (Z.shiftl (Z.land c 127) 2)) ENTRY_MASK).

Definition next_cluster (v : Volume) (c : Z) : fres (option Z) :=
  e ← vol_fat_entry v c;
  if EOC_MIN <=? e then mret None
  else if is_cluster v e then mret (Some e)
  else Bad (BadChain c).

(** [walk_slots]'s loops over a sector's slots and a cluster's sectors, with [f]'s answer:
    [Some] stops the walk. *)
Fixpoint walk_entries {R} (f : bytes -> option R) (slots : list bytes) : option R :=
  match slots with
  | [] => None
  | e :: slots => match f e with Some r => Some r | None => walk_entries f slots end
  end.

Fixpoint walk_sectors {R} (f : bytes -> option R) (n : nat) (lba : Z) : fres (option R) :=
  match n with
  | O => mret None
  | S n =>
      buf ← read lba;
      match walk_entries f (chunks ENTRY buf) with
      | Some r => mret (Some r)
      | None => walk_sectors f n (lba + 1)
      end
  end.

(** [walk_slots]: over the clusters of a chain, no more than the volume has. *)
Fixpoint walk_slots {R} (v : Volume) (f : bytes -> option R) (fuel : nat) (c : Z) : fres (option R) :=
  match fuel with
  | O => Bad (BadChain c)
  | S fuel =>
      if negb (is_cluster v c) then Bad (BadChain c)
      else
        r ← walk_sectors f (Z.to_nat (Z.shiftl 1 (cluster_shift v))) (cluster_lba v c);
        match r with
        | Some r => mret (Some r)
        | None =>
            n ← next_cluster v c;
            match n with Some next => walk_slots v f fuel next | None => mret None end
        end
  end.

(** [find_entry]'s closure, with [f] given: stop without an entry at the first free slot. *)
Definition find_slot (f : DirEntry -> bool) (e : bytes) : option (option DirEntry) :=
  if at_byte e 0 =? 0 then Some None
  else if at_byte e 0 =? DELETED then None
  else if at_byte e 11 =? ATTR_LFN then None
  else if negb (Z.land (at_byte e 11) ATTR_VOLUME =? 0) then None
  else let entry := parse_entry e in if f entry then Some (Some entry) else None.

(** [find_entry] and [find]. *)
Definition find_entry (v : Volume) (dir : DirEntry) (f : DirEntry -> bool) : fres (option DirEntry) :=
  if negb (entry_is_dir dir) then Bad WrongType
  else
    r ← walk_slots v (find_slot f) (Z.to_nat (cluster_end v)) (e_cluster dir);
    mret (match r with Some found => found | None => None end).

Definition vol_find (v : Volume) (dir : DirEntry) (name : bytes) : fres (option DirEntry) :=
  find_entry v dir (fun e => bool_decide (e_name e = name)).

(** [path.split(|&c| c == b'/' || c == b'\\')]. *)
Fixpoint split_path (l : bytes) : list bytes :=
  match l with
  | [] => [[]]
  | c :: l =>
      if bool_decide (c = x2f) || bool_decide (c = x5c) then [] :: split_path l
      else match split_path l with
           | p :: ps => (c :: p) :: ps
           | [] => [[c]]
           end
  end.

Fixpoint open_parts (v : Volume) (at0 : DirEntry) (parts : list bytes) : fres DirEntry :=
  match parts with
  | [] => mret at0
  | [] :: parts => open_parts v at0 parts
  | part :: parts =>
      if negb (entry_is_dir at0) then Bad WrongType
      else
        match short_name part with
        | None => Bad BadName
        | Some name =>
            r ← vol_find v at0 name;
            match r with Some e => open_parts v e parts | None => Bad NotFound end
        end
  end.

(** [Volume::open]. *)
Definition vol_open (v : Volume) (path : bytes) : fres DirEntry :=
  open_parts v (root_entry (vol_root v)) (split_path path).

(** [for_each_sector]'s loop over a cluster's sectors: what [f] has been given so far, and
    how much is left (0: the file has ended). *)
Fixpoint read_sectors (n : nat) (lba rest : Z) (acc : bytes) : fres (bytes * Z) :=
  match n with
  | O => mret (acc, rest)
  | S n =>
      buf ← read lba;
      let k := Z.min rest SECTOR in
      let acc := acc ++ take (Z.to_nat k) buf in
      let rest := rest - k in
      if rest =? 0 then mret (acc, 0) else read_sectors n (lba + 1) rest acc
  end.

(** Its loop over the clusters. *)
Fixpoint read_clusters (v : Volume) (fuel : nat) (c rest : Z) (acc : bytes) : fres bytes :=
  match fuel with
  | O => Bad (BadChain c)
  | S fuel =>
      if negb (is_cluster v c) then Bad (BadChain c)
      else
        '(acc, rest) ← read_sectors (Z.to_nat (Z.shiftl 1 (cluster_shift v))) (cluster_lba v c) rest acc;
        n ← next_cluster v c;
        if rest =? 0 then match n with None => mret acc | Some _ => Bad (BadChain c) end
        else match n with Some next => read_clusters v fuel next rest acc | None => Bad (BadChain c) end
  end.

(** [for_each_sector]: all the sectors' data. Every cluster takes at least a byte of the
    size, so the size is fuel enough. *)
Definition for_each_sector (v : Volume) (file : DirEntry) : fres bytes :=
  if entry_is_dir file then Bad WrongType
  else if e_size file =? 0 then
    if e_cluster file =? 0 then mret [] else Bad (BadChain (e_cluster file))
  else read_clusters v (Z.to_nat (e_size file)) (e_cluster file) (e_size file) [].

(** [read_to], into a buffer of [dst_len] bytes. *)
Definition read_to (v : Volume) (file : DirEntry) (dst_len : Z) : fres bytes :=
  if dst_len <? e_size file then Bad TooBig else for_each_sector v file.

End Reader.

(** A card image as a block device. *)
Definition image_dev (img : bytes) (lba : Z) : option bytes :=
  if (0 <=? lba) && ((lba + 1) * SECTOR <=? len img)
  then Some (slice img (lba * SECTOR) ((lba + 1) * SECTOR)) else None.
