(* ===== verification/FatRead.v ===== *)
(** * Card images read back

    The firmware's reader on the host's images: every file [build_fat32_image] was given is
    found at its path and read back byte for byte. First over any device that shows the plan's
    tables, then on the rendered image itself. *)
From S2P Require Import Prelude Header Image Text FatImage FatPlan FatReader.

#[local] Set Warnings "-register-all".

(** ** Bytes at offsets *)

Lemma slice_slice {A} (l : list A) a i j :
  0 <= a -> 0 <= i <= j -> slice (drop (Z.to_nat a) l) i j = slice l (a + i) (a + j).
Proof. intros. unfold slice. rewrite drop_drop. f_equal; [lia|]. f_equal. lia. Qed.

Lemma slice_full_step {A} (l : list A) i j k :
  0 <= i <= j -> j <= k -> slice l i k = slice l i j ++ slice l j k.
Proof. apply slice_add. Qed.

Lemma chunks_app {A} n (l k : list A) :
  0 < n -> len l mod n = 0 -> chunks n (l ++ k) = chunks n l ++ chunks n k.
Proof.
  intros Hn. induction l as [|l Hl IH] using (chunk_ind n Hn); intros Hm; [done|].
  assert (0 < len l) as Hpos by (destruct l; [done|]; rewrite len_cons; pose proof (len_nonneg l); lia).
  assert (n <= len l) as Hle.
  { apply Z.nlt_ge. intros Hlt. rewrite Z.mod_small in Hm; lia. }
  rewrite (chunks_step n (l ++ k)), (chunks_step n l) by (done || by destruct l).
  rewrite take_app_le, drop_app_le by (unfold len in *; lia). simpl. f_equal.
  apply IH. rewrite len_drop, Z2Nat.id, Z.max_r by lia.
  replace (len l - n) with (len l + (-1) * n) by lia. by rewrite Z.mod_add by lia.
Qed.

Lemma chunks_concat {A} n (es : list (list A)) :
  0 < n -> Forall (fun e => len e = n) es -> chunks n (concat es) = es.
Proof.
  intros Hn. induction 1 as [|e es He Hes IH]; [done|]. simpl.
  assert (len e mod n = 0) by (rewrite He; apply Z.mod_same; lia).
  rewrite chunks_app, IH by done.
  rewrite chunks_step; [|done|intros ->; rewrite len_nil in He; lia].
  unfold len in He. by rewrite take_ge, drop_ge by lia.
Qed.

Lemma len_concat {A} n (es : list (list A)) :
  Forall (fun e => len e = n) es -> len (concat es) = n * len es.
Proof.
  induction 1 as [|e es He Hes IH]; [unfold len; simpl; lia|]. simpl. rewrite len_app, IH, He, len_cons. lia.
Qed.

(** ** A device that shows the tables *)

Section Reading.
Variable dev : Z -> option bytes.
Variables (v : Volume) (cb : Z) (st : fat_state).
#[local] Abbreviation shift := (cluster_shift v).
Hypothesis Hshift : 0 <= shift.
Hypothesis Hcb : cb = 512 * 2 ^ shift.

(** The FAT's entries and the clusters' sectors, where the reader looks for them. *)
Record shows : Prop := {
  shows_fat c x : 2 <= c -> fat_at st c = Some x -> 0 <= x < 2 ^ 28 -> vol_fat_entry dev v c = Good x;
  shows_data c d s : fs_data st !! c = Some d -> 0 <= s < 2 ^ shift ->
    dev (cluster_lba v c + s) = Some (slice (ljust d cb x00) (s * 512) ((s + 1) * 512));
  shows_end : len (fs_fat st) <= cluster_end v < EOC_MIN
}.
Hypothesis Hshows : shows.

Lemma cb_pos : 512 <= cb.
Proof. rewrite Hcb. pose proof (Z.pow_pos_nonneg 2 shift). lia. Qed.

Lemma sectors_nat : Z.of_nat (Z.to_nat (Z.shiftl 1 shift)) = 2 ^ shift.
Proof. rewrite Z.shiftl_1_l. pose proof (Z.pow_pos_nonneg 2 shift). lia. Qed.

Lemma fat_at_cluster c x : 2 <= c -> fat_at st c = Some x -> is_cluster v c = true.
Proof.
  intros Hc Hx. apply fat_at_lt in Hx; [|lia]. pose proof (shows_end Hshows).
  unfold is_cluster. lia.
Qed.

Lemma next_end c : 2 <= c -> fat_at st c = Some FAT_EOC -> next_cluster dev v c = Good None.
Proof.
  intros Hc Hx. unfold next_cluster. rewrite (shows_fat Hshows c FAT_EOC) by (unfold FAT_EOC in *; done || lia).
  done.
Qed.

Lemma next_link c c' x :
  2 <= c -> 2 <= c' -> fat_at st c = Some c' -> fat_at st c' = Some x -> next_cluster dev v c = Good (Some c').
Proof.
  intros Hc Hc' Hx Hx'. pose proof (fat_at_cluster c' x Hc' Hx') as Hi. unfold next_cluster.
  pose proof (shows_end Hshows). unfold is_cluster, EOC_MIN in *.
  rewrite (shows_fat Hshows c c') by (done || lia). cbn [mbind fres_bind].
  unfold EOC_MIN. replace (0x0FFFFFF8 <=? c') with false by lia.
  unfold is_cluster. by rewrite Hi.
Qed.

(** A cluster's sectors, read one after the other. *)
Lemma read_sectors_spec (P : bytes) base n s rest acc :
  len P = cb -> 0 <= s -> s + Z.of_nat n = 2 ^ shift -> 0 < rest ->
  (forall i, 0 <= i < 2 ^ shift -> dev (base + i) = Some (slice P (i * 512) ((i + 1) * 512))) ->
  read_sectors dev n (base + s) rest acc =
    Good (acc ++ take (Z.to_nat rest) (drop (Z.to_nat (s * 512)) P), Z.max 0 (rest - Z.of_nat n * 512)).
Proof.
  intros HP Hs Hn Hrest Hdev. revert s rest acc Hs Hn Hrest.
  induction n as [|n IH]; intros s rest acc Hs Hn Hrest; cbn [read_sectors].
  - rewrite drop_ge by (unfold len in HP; lia). rewrite take_nil, app_nil_r. do 2 f_equal. lia.
  - unfold read. rewrite Hdev by lia. cbn [mbind fres_bind]. unfold SECTOR.
    set (k := Z.min rest 512).
    assert (take (Z.to_nat k) (slice P (s * 512) ((s + 1) * 512)) =
            take (Z.to_nat k) (drop (Z.to_nat (s * 512)) P)) as ->.
    { unfold slice. rewrite take_take. f_equal. lia. }
    destruct (rest - k =? 0) eqn:E.
    + apply Z.eqb_eq in E. replace k with rest by lia. cbn. do 2 f_equal. lia.
    + apply Z.eqb_neq in E. assert (k = 512) as Hk by lia.
      replace (base + s + 1) with (base + (s + 1)) by lia. rewrite IH by lia. rewrite Hk.
      f_equal. f_equal; [|lia]. rewrite <- app_assoc. f_equal.
      replace (Z.to_nat ((s + 1) * 512)) with (Z.to_nat (s * 512) + 512)%nat by lia.
      rewrite <- drop_drop. change (Z.to_nat 512) with 512%nat. rewrite take_take_drop. f_equal. lia.
Qed.

Lemma read_cluster_spec c d rest acc :
  fs_data st !! c = Some d -> len d <= cb -> 0 < rest ->
  read_sectors dev (Z.to_nat (Z.shiftl 1 shift)) (cluster_lba v c) rest acc =
    Good (acc ++ take (Z.to_nat rest) (ljust d cb x00), Z.max 0 (rest - cb)).
Proof.
  intros Hd Hl Hrest. pose proof sectors_nat as Hn.
  rewrite <- (Z.add_0_r (cluster_lba v c)).
  rewrite (read_sectors_spec (ljust d cb x00)); [|rewrite len_ljust; lia|lia|lia|done|].
  - rewrite Hn, drop_0. do 3 f_equal. lia.
  - intros i Hi. by apply (shows_data Hshows).
Qed.

Lemma take_ljust (d : bytes) n k c : (Z.to_nat k <= length d)%nat -> take (Z.to_nat k) (ljust d n c) = take (Z.to_nat k) d.
Proof. intros. unfold ljust. by rewrite take_app_le. Qed.

(** Reading a file along its chain. *)
Lemma read_clusters_spec lo c cs content fuel acc :
  2 <= lo -> chain_holds cb st lo (c :: cs) content -> content <> [] -> (length content <= fuel)%nat ->
  read_clusters dev v fuel c (len content) acc = Good (acc ++ content).
Proof.
  intros Hlo. pose proof cb_pos as Hcbp. revert c content fuel acc.
  induction cs as [|c' cs IH]; intros c content fuel acc H Hne Hf.
  - destruct fuel as [|fuel]; [destruct content; simpl in Hf; [done|lia]|].
    destruct (chain_head _ _ _ _ _ _ H) as (x & Hx). pose proof (chain_lo _ _ _ _ _ _ H) as Hc.
    cbn [read_clusters]. rewrite (fat_at_cluster c x) by (done || lia). cbn [negb].
    cbn [chain_holds] in H. destruct H as (_ & Heoc & Hd & Hl).
    assert (0 < len content) by (destruct content; [done|]; rewrite len_cons; pose proof (len_nonneg content); lia).
    rewrite (read_cluster_spec c content) by done. cbn [mbind fres_bind].
    rewrite (next_end c) by (done || lia). cbn [mbind fres_bind].
    rewrite Z.max_l by lia. cbn. rewrite take_ljust by (unfold len; lia).
    by rewrite take_ge by (unfold len; lia).
  - destruct fuel as [|fuel]; [destruct content; simpl in Hf; [done|lia]|].
    destruct (chain_head _ _ _ _ _ _ H) as (x & Hx). pose proof (chain_lo _ _ _ _ _ _ H) as Hc.
    cbn [read_clusters]. rewrite (fat_at_cluster c x) by (done || lia). cbn [negb].
    cbn [chain_holds] in H. destruct H as (Hcc & Hlink & Hd & Hgt & Hrest). fold (chain_holds cb st) in Hrest.
    destruct (chain_head _ _ _ _ _ _ Hrest) as (x' & Hx').
    rewrite (read_cluster_spec c (take (Z.to_nat cb) content)); [|done|rewrite len_take; lia|lia].
    cbn [mbind fres_bind]. rewrite (next_link c c' x') by (done || lia). cbn [mbind fres_bind].
    rewrite Z.max_r by lia. replace (len content - cb =? 0) with false by lia.
    assert (ljust (take (Z.to_nat cb) content) cb x00 = take (Z.to_nat cb) content) as ->.
    { unfold ljust. rewrite len_take. replace (Z.to_nat (cb - Z.min (Z.of_nat (Z.to_nat cb)) (len content))) with 0%nat by lia. apply app_nil_r. }
    assert (len content - cb = len (drop (Z.to_nat cb) content)) as -> by (rewrite len_drop; lia).
    rewrite IH; [|done| |].
    + rewrite take_take, Nat.min_r by lia. rewrite <- app_assoc. by rewrite take_drop.
    + intros E. pose proof (len_drop (Z.to_nat cb) content) as Hl. rewrite E, len_nil in Hl. lia.
    + rewrite length_drop. unfold len in *. lia.
Qed.

(** ** Directories *)

Lemma walk_entries_app {R} (f : bytes -> option R) l k :
  walk_entries f (l ++ k) = match walk_entries f l with Some r => Some r | None => walk_entries f k end.
Proof. induction l as [|e l IH]; [done|]. simpl. by destruct (f e). Qed.

Lemma walk_sectors_spec {R} (f : bytes -> option R) (P : bytes) base n s :
  len P = cb -> 0 <= s -> s + Z.of_nat n = 2 ^ shift ->
  (forall i, 0 <= i < 2 ^ shift -> dev (base + i) = Some (slice P (i * 512) ((i + 1) * 512))) ->
  walk_sectors dev f n (base + s) = Good (walk_entries f (chunks 32 (drop (Z.to_nat (s * 512)) P))).
Proof.
  intros HP Hs Hn Hdev. revert s Hs Hn. induction n as [|n IH]; intros s Hs Hn; cbn [walk_sectors].
  - rewrite drop_ge by (unfold len in HP; lia). done.
  - unfold read. rewrite Hdev by lia. cbn [mbind fres_bind]. unfold ENTRY.
    assert (drop (Z.to_nat (s * 512)) P = slice P (s * 512) ((s + 1) * 512) ++ drop (Z.to_nat ((s + 1) * 512)) P) as ->.
    { unfold slice. replace (Z.to_nat ((s + 1) * 512 - s * 512)) with 512%nat by lia.
      replace (Z.to_nat ((s + 1) * 512)) with (Z.to_nat (s * 512) + 512)%nat by lia.
      by rewrite <- drop_drop, take_drop. }
    rewrite chunks_app, walk_entries_app by (rewrite ?len_slice by lia; try lia; by replace ((s + 1) * 512 - s * 512) with 512 by lia).
    destruct (walk_entries f (chunks 32 (slice P (s * 512) ((s + 1) * 512)))) as [r|]; [done|].
    replace (base + s + 1) with (base + (s + 1)) by lia. apply IH; lia.
Qed.

Lemma walk_cluster_spec {R} (f : bytes -> option R) c d :
  fs_data st !! c = Some d -> len d <= cb ->
  walk_sectors dev f (Z.to_nat (Z.shiftl 1 shift)) (cluster_lba v c) =
    Good (walk_entries f (chunks 32 (ljust d cb x00))).
Proof.
  intros Hd Hl. pose proof sectors_nat as Hn. rewrite <- (Z.add_0_r (cluster_lba v c)).
  rewrite (walk_sectors_spec f (ljust d cb x00)); [|rewrite len_ljust; lia|lia|lia|].
  - by rewrite drop_0.
  - intros i Hi. by apply (shows_data Hshows).
Qed.

Lemma chunks_zeros k : chunks 32 (zeros (32 * Z.of_nat k)) = replicate k (zeros 32).
Proof.
  unfold zeros. replace (Z.to_nat (32 * Z.of_nat k)) with (32 * k)%nat by lia.
  induction k as [|k IH]; [done|]. rewrite chunks_step; [|lia|by replace (32 * S k)%nat with (S (31 + 32 * k)) by lia].
  rewrite take_replicate, drop_replicate. replace (32 * S k - Z.to_nat 32)%nat with (32 * k)%nat by lia.
  rewrite IH. replace (Z.to_nat 32 `min` (32 * S k))%nat with 32%nat by lia. done.
Qed.

Lemma cb_entries : cb mod 32 = 0.
Proof. rewrite Hcb. change 512 with (32 * 16). rewrite <- Z.mul_assoc, Z.mul_comm. by rewrite Z.mod_mul by lia. Qed.

(** Walking a directory's slots: they are its entries, and free slots ([f] answers [r0])
    where the last cluster has room. *)
Lemma walk_slots_spec {R} (f : bytes -> option R) r0 lo c cs content fuel :
  2 <= lo -> chain_holds cb st lo (c :: cs) content -> len content mod 32 = 0 ->
  (length (c :: cs) <= fuel)%nat -> f (zeros 32) = Some r0 ->
  exists r, walk_slots dev v f fuel c = Good r /\
    (r = walk_entries f (chunks 32 content) \/
     (walk_entries f (chunks 32 content) = None /\ r = Some r0)).
Proof.
  intros Hlo. pose proof cb_pos as Hcbp. pose proof cb_entries as Hcb32. intros H Hm Hf Hz. revert c content fuel H Hm Hf.
  induction cs as [|c' cs IH]; intros c content fuel H Hm Hf;
    (destruct fuel as [|fuel]; [simpl in Hf; lia|]); cbn [walk_slots];
    destruct (chain_head _ _ _ _ _ _ H) as (x & Hx); pose proof (chain_lo _ _ _ _ _ _ H) as Hc;
    rewrite (fat_at_cluster c x) by (done || lia); cbn [negb].
  - cbn [chain_holds] in H. destruct H as (_ & Heoc & Hd & Hl).
    rewrite (walk_cluster_spec f c content) by done. cbn [mbind fres_bind].
    unfold ljust. rewrite chunks_app by (done || lia). rewrite walk_entries_app.
    destruct (walk_entries f (chunks 32 content)) as [r|]; [eexists; split; [reflexivity|by left]|].
    assert (exists k, cb - len content = 32 * Z.of_nat k) as (k & Hk).
    { exists (Z.to_nat ((cb - len content) / 32)). rewrite Z2Nat.id by (apply Z.div_pos; lia).
      apply Z_div_exact_2; [lia|]. by rewrite Zminus_mod, Hcb32, Hm. }
    fold (zeros (cb - len content)). rewrite Hk, chunks_zeros.
    destruct k as [|k]; cbn [replicate walk_entries].
    + rewrite (next_end c) by (done || lia). cbn. eexists. split; [reflexivity|by left].
    + rewrite Hz. eexists. split; [reflexivity|by right].
  - cbn [chain_holds] in H. destruct H as (Hcc & Hlink & Hd & Hgt & Hrest). fold (chain_holds cb st) in Hrest.
    destruct (chain_head _ _ _ _ _ _ Hrest) as (x' & Hx').
    rewrite (walk_cluster_spec f c (take (Z.to_nat cb) content)) by (try done; rewrite len_take; lia).
    cbn [mbind fres_bind].
    assert (ljust (take (Z.to_nat cb) content) cb x00 = take (Z.to_nat cb) content) as ->.
    { unfold ljust. rewrite len_take.
      replace (Z.to_nat (cb - Z.min (Z.of_nat (Z.to_nat cb)) (len content))) with 0%nat by lia. apply app_nil_r. }
    assert (chunks 32 content = chunks 32 (take (Z.to_nat cb) content) ++ chunks 32 (drop (Z.to_nat cb) content)) as ->.
    { rewrite <- chunks_app, take_drop; [done|lia|]. rewrite len_take, Z2Nat.id, Z.min_l by lia. done. }
    rewrite walk_entries_app.
    destruct (walk_entries f (chunks 32 (take (Z.to_nat cb) content))) as [r|];
      [eexists; split; [reflexivity|by left]|].
    rewrite (next_link c c' x') by (done || lia). cbn [mbind fres_bind].
    apply IH; [done| |simpl in *; lia].
    rewrite len_drop, Z2Nat.id, Z.max_r by lia. by rewrite Zminus_mod, Hcb32, Hm.
Qed.

End Reading.

(** ** Entries *)

Lemma at_byte_app_r (l k : bytes) i : len l <= i -> at_byte (l ++ k) i = at_byte k (i - len l).
Proof. intros. unfold at_byte, len in *. rewrite app_nth2 by lia. do 2 f_equal. lia. Qed.

Lemma at_byte_app_l (l k : bytes) i : 0 <= i < len l -> at_byte (l ++ k) i = at_byte l i.
Proof. intros. unfold at_byte, len in *. by rewrite app_nth1 by lia. Qed.

Lemma at_byte_split1 x : 0 <= x < 256 -> at_byte (le_split 1 x) 0 = x.
Proof. intros. unfold at_byte. change (nth _ (le_split 1 x) x00) with (byte.of_Z x). by apply u8_of_Z. Qed.

(** A packed field read back, behind a name of known length. *)
Ltac entry_field :=
  slice_field;
  match goal with |- context [slice ?l ?i ?j] =>
    replace i with 0 by lia; rewrite (slice_0_len l j) by (autorewrite with lens; lia)
  end;
  apply le_combine_split_in; simpl; lia.

(** An entry's fields, as the reader parses them. *)
Lemma fat_entry_spec name attr c size e :
  fat_entry name attr c size = Ok e -> len name = 11 -> 0 <= c ->
  len e = 32 /\ parse_entry e = mkEntry name attr c size /\ at_byte e 11 = attr /\
  at_byte e 0 = at_byte name 0 /\ c < 2 ^ 32 /\ take 11 e = name.
Proof.
  intros H Hn Hc0. unfold fat_entry in H. invert_res.
  repeat match goal with E : pack_uint _ _ = Ok _ |- _ => apply pack_uint_Ok in E as [? ->] end.
  simpl Z.of_nat in *. rewrite shiftr_div in * by lia.
  assert (c < 2 ^ 32) as Hc by (change (2 ^ 16) with 65536 in *; dlia).
  assert (pack_s 11 name = name) as ->.
  { unfold pack_s, ljust. rewrite take_ge by (unfold len in Hn; lia). by rewrite Hn, Z.sub_diag, app_nil_r. }
  assert (length name = 11%nat) as Hlen by (unfold len in Hn; lia).
  match goal with |- len ?x = _ /\ _ => set (e := x) end.
  assert (len e = 32) as He by (unfold e; autorewrite with lens; rewrite Hn; reflexivity).
  assert (take 11 e = name) as Ht by (unfold e; by rewrite take_app_length').
  split; [done|]. split; [|split; [|split; [|done]]].
  - unfold parse_entry, le16, le32. rewrite !fw_le16_unpack, fw_le32_unpack by (rewrite ?He; lia).
    rewrite Ht. f_equal.
    + unfold e. rewrite at_byte_app_r, Hn by lia. simpl (_ - _). rewrite at_byte_app_l by (unfold len; simpl; lia).
      apply at_byte_split1. lia.
    + assert (unpack_uint 2 20 e = c / 2 ^ 16) as ->.
      { unfold unpack_uint, e. entry_field. }
      assert (unpack_uint 2 26 e = Z.land c 0xFFFF) as ->.
      { unfold unpack_uint, e. entry_field. }
      rewrite (land_mask c 16) by lia. rewrite lor_shiftl_add by (try lia; apply Z.mod_pos_bound; lia).
      pose proof (Z.div_mod c (2 ^ 16)). lia.
    + unfold unpack_uint, e. entry_field.
  - unfold e. rewrite at_byte_app_r, Hn by lia. simpl (_ - _). rewrite at_byte_app_l by (unfold len; simpl; lia).
    apply at_byte_split1. lia.
  - unfold e. by rewrite at_byte_app_l by lia.
Qed.

Lemma fat_entry_nonneg name attr c size e : fat_entry name attr c size = Ok e -> 0 <= c.
Proof.
  intros H. unfold fat_entry in H. invert_res. apply pack_uint_Ok in Ha0 as [H0 _].
  rewrite shiftr_div in H0 by lia. change (2 ^ 16) with 65536 in *. dlia.
Qed.

(** Names as [fat_short_name] makes them: none marks a free, deleted or dot entry. *)
Definition valid_name (n : bytes) : Prop :=
  len n = 11 /\ at_byte n 0 <> 0 /\ at_byte n 0 <> DELETED /\ at_byte n 0 <> DOT.

Lemma allowed_first c : allowed c = true -> c <> 0 /\ c <> DELETED /\ c <> DOT /\ 0 <= c < 256.
Proof.
  unfold allowed. rewrite existsb_exists. intros (d & Hd & ->%Z.eqb_eq).
  assert (forallb (fun d => negb (d =? 0) && negb (d =? DELETED) && negb (d =? DOT) && (0 <=? d) && (d <? 256))
    SHORT_CHARS = true) as Hall by reflexivity.
  rewrite forallb_forall in Hall. specialize (Hall d Hd). lia.
Qed.

Lemma len_encode t : len (encode t) = len t.
Proof. unfold encode, len. by rewrite length_map. Qed.

Lemma fat_short_name_valid name n : fat_short_name name = Ok n -> valid_name n.
Proof.
  unfold fat_short_name. destruct (negb _); [done|].
  destruct (match rpartition_dot _ with Some _ => _ | None => _ end) as [[base dot] ext].
  destruct (negb (_ && _) || _) eqn:E; [done|]. intros [= <-].
  apply orb_false_iff in E as [E1%negb_false_iff E2%negb_false_iff].
  rewrite !andb_true_iff, !Z.leb_le in E1. destruct E1 as [[[H1 H2] H3] _].
  rewrite forallb_app, andb_true_iff in E2. destruct E2 as [E2 _].
  destruct base as [|c base]; [rewrite len_nil in H1; lia|].
  cbn [forallb] in E2. apply andb_true_iff in E2 as [Hc _]. apply allowed_first in Hc as (A & B & C & D).
  split; [rewrite len_app, !len_encode, !len_ljust; lia|].
  assert (at_byte (encode (ljust (c :: base) 8 SPACE) ++ encode (ljust ext 3 SPACE)) 0 = c) as ->; [|done].
  unfold at_byte. change (nth _ _ x00) with (byte.of_Z c). by apply u8_of_Z.
Qed.

(** The loop's step on one child's entry. *)
Lemma find_slot_child name x c e n :
  child_entry name x c = Ok e -> valid_name name -> valid_name n -> 0 <= c ->
  let f := fun e => bool_decide (e_name e = n) in
  find_slot f e = if decide (name = n) then Some (Some (parse_entry e)) else None.
Proof.
  intros He (Hl & H0 & H1 & H2) Hn Hc f.
  assert (exists attr size, fat_entry name attr c size = Ok e /\ (attr = 0x10 \/ attr = 0x20)) as (attr & size & Hf & Ha)
    by (destruct x; cbn in He; eauto).
  destruct (fat_entry_spec _ _ _ _ _ Hf Hl Hc) as (Hlen & Hp & Hattr & Hfirst & _).
  unfold find_slot. rewrite Hfirst, Hattr, Hp, (proj2 (Z.eqb_neq _ _) H0), (proj2 (Z.eqb_neq _ _) H1).
  assert ((attr =? ATTR_LFN) = false /\ negb (Z.land attr ATTR_VOLUME =? 0) = false) as [-> ->]
    by (destruct Ha as [-> | ->]; done).
  unfold f. cbn [e_name]. by destruct (decide (name = n)); case_bool_decide.
Qed.

Definition label_ok (label : text) : Prop := at_byte (label_field label) 0 <> 0.

(** The entries before the children are passed over. *)
Lemma find_slot_head label root own parent head n :
  dir_head label root own parent = Ok head -> valid_name n -> label_ok label ->
  len (label_field label) = 11 ->
  Forall (fun e => len e = 32) head /\
  walk_entries (find_slot (fun e => bool_decide (e_name e = n))) head = None.
Proof.
  intros H (Hl & H0 & H1 & H2) Hlab Hll. unfold dir_head in H. destruct root; invert_res.
  - destruct (fat_entry_spec _ _ _ _ _ Ha Hll ltac:(lia)) as (Hlen & Hp & Hattr & Hfirst & _).
    split; [by repeat constructor|]. cbn [walk_entries]. unfold find_slot at 1. rewrite Hfirst, Hattr.
    rewrite (proj2 (Z.eqb_neq _ _) Hlab). by destruct (_ =? DELETED).
  - destruct (fat_entry_spec _ _ _ _ _ Ha eq_refl (fat_entry_nonneg _ _ _ _ _ Ha)) as (Hlen & Hp & Hattr & Hfirst & _).
    destruct (fat_entry_spec _ _ _ _ _ Ha0 eq_refl (fat_entry_nonneg _ _ _ _ _ Ha0)) as (Hlen' & Hp' & Hattr' & Hfirst' & _).
    split; [by repeat constructor|].
    assert (forall name : bytes, at_byte name 0 = DOT -> bool_decide (name = n) = false) as Hd.
    { intros name Hname. apply bool_decide_false. intros ->. done. }
    cbn [walk_entries]. unfold find_slot. rewrite Hfirst, Hattr, Hfirst', Hattr', Hp, Hp'. cbn [e_name].
    by rewrite !Hd.
Qed.

(** ** The tree *)

(** The node at a path of 8.3 names. *)
Fixpoint find_path (names : list bytes) (x : node) : option node :=
  match names with
  | [] => Some x
  | n :: names =>
      match x with
      | Dir cs => match child_of n cs with Some y => find_path names y | None => None end
      | File _ => None
      end
  end.

(** Every name in the tree is one [fat_short_name] makes. *)
Inductive named : node -> Prop :=
| named_file content : named (File content)
| named_dir cs : Forall (fun nx => valid_name nx.1 /\ named nx.2) cs -> named (Dir cs).

Lemma child_of_set n m x cs :
  child_of n (set_child m x cs) = if decide (m = n) then Some x else child_of n cs.
Proof.
  induction cs as [|[k y] cs IH]; cbn [set_child child_of].
  - done.
  - destruct (decide (k = m)) as [->|]; cbn [child_of].
    + by destruct (decide (m = n)).
    + rewrite IH. destruct (decide (k = n)), (decide (m = n)); try done. congruence.
Qed.

Lemma set_child_named n x cs :
  Forall (fun nx => valid_name nx.1 /\ named nx.2) cs -> valid_name n -> named x ->
  Forall (fun nx => valid_name nx.1 /\ named nx.2) (set_child n x cs).
Proof.
  intros Hcs Hn Hx. induction Hcs as [|[m y] cs [Hm Hy] Hcs IH]; cbn [set_child].
  - constructor; [by split|constructor].
  - destruct (decide (m = n)); constructor; done.
Qed.

Lemma child_named n cs x : Forall (fun nx => valid_name nx.1 /\ named nx.2) cs -> child_of n cs = Some x -> named x.
Proof.
  induction 1 as [|[m y] cs [Hm Hy] Hcs IH]; [done|]. cbn [child_of].
  destruct (decide (m = n)); [by intros [= <-]|done].
Qed.

Lemma add_file_spec parts content cs cs' :
  add_file parts content cs = Ok cs' ->
  find_path parts (Dir cs') = Some (File content) /\
  (forall ps c, find_path ps (Dir cs) = Some (File c) -> find_path ps (Dir cs') = Some (File c)).
Proof.
  revert cs cs'. induction parts as [|part [|part' parts] IH]; intros cs cs' H.
  - discriminate.
  - cbn in H. destruct (child_of part cs) eqn:E; [done|]. injection H as <-. split.
    + cbn [find_path]. rewrite child_of_set, decide_True by done. done.
    + intros [|q qs] c Hq; [done|]. cbn [find_path] in *. rewrite child_of_set.
      destruct (decide (part = q)) as [->|]; [by rewrite E in Hq|done].
  - assert (exists sub sub', add_file (part' :: parts) content sub = Ok sub' /\
      cs' = set_child part (Dir sub') cs /\
      (child_of part cs = Some (Dir sub) \/ (child_of part cs = None /\ sub = []))) as (sub & sub' & Hs & -> & Hc).
    { cbn [add_file] in H. destruct (child_of part cs) as [[|sub]|]; [done| |]; invert_res.
      - exists sub, a. split; [exact Ha|]. split; [done|by left].
      - exists [], a. split; [exact Ha|]. split; [done|by right]. }
    destruct (IH _ _ Hs) as [H1 H2]. split.
    + cbn [find_path]. rewrite child_of_set, decide_True by done. exact H1.
    + intros [|q qs] c Hq; [done|]. cbn [find_path] in *. rewrite child_of_set.
      destruct (decide (part = q)) as [->|]; [|done]. apply H2. destruct Hc as [Hc|[Hc _]]; by rewrite Hc in Hq.
Qed.

Lemma add_file_named parts content cs cs' :
  add_file parts content cs = Ok cs' -> Forall valid_name parts ->
  named (Dir cs) -> named (Dir cs').
Proof.
  revert cs cs'. induction parts as [|part [|part' parts] IH]; intros cs cs' H Hp Hcs; [done|..];
    inversion Hp as [|? ? Hv Hp']; subst; inversion Hcs as [|? Hall]; subst.
  - cbn in H. destruct (child_of part cs); [done|]. injection H as <-. constructor.
    apply set_child_named; [done..|constructor].
  - cbn [add_file] in H. destruct (child_of part cs) as [[|sub]|] eqn:E; [done| |]; invert_res;
      constructor; apply set_child_named; try done; eapply IH; try done.
    + by eapply child_named.
    + constructor. constructor.
Qed.

(** All files of a tree built without an error. *)
Lemma build_tree_spec files cs cs' :
  build_tree files cs = Ok cs' -> named (Dir cs) ->
  named (Dir cs') /\
  (forall ps c, find_path ps (Dir cs) = Some (File c) -> find_path ps (Dir cs') = Some (File c)) /\
  (forall path content, (path, content) ∈ files ->
     exists names, mapM fat_short_name (path_parts path) = Ok names /\
       find_path names (Dir cs') = Some (File content)).
Proof.
  revert cs. induction files as [|[path content] files IH]; intros cs H Hn.
  - injection H as <-. split; [done|]. split; [done|]. intros ? ? Hin. by apply elem_of_nil in Hin.
  - cbn [build_tree] in H. invert_res.
    assert (Hv : Forall valid_name a).
    { clear -Ha. revert a Ha. induction (path_parts path) as [|p ps IH]; intros a Ha.
      - injection Ha as <-. constructor.
      - rewrite mapM_cons in Ha. invert_res. constructor; [by eapply fat_short_name_valid|by apply IH]. }
    destruct (add_file_spec _ _ _ _ Ha0) as [H1 H2].
    destruct (IH a0 H) as (Hn' & Hkeep & Hfiles); [by eapply add_file_named|].
    split; [done|]. split; [by intros; apply Hkeep, H2|].
    intros p c [[= -> ->]|Hin]%elem_of_cons; [|by apply Hfiles].
    exists a. split; [done|]. by apply Hkeep.
Qed.

(** ** Looking up and reading *)

Section Lookup.
Variable dev : Z -> option bytes.
Variables (v : Volume) (cb : Z) (st : fat_state) (label : text).
Hypothesis Hshift : 0 <= cluster_shift v.
Hypothesis Hcb : cb = 512 * 2 ^ cluster_shift v.
Hypothesis Hshows : shows dev v cb st.
Hypothesis Hlabel : label_ok label.
Hypothesis Hlabel_len : len (label_field label) = 11.

#[local] Abbreviation holds := (holds cb label st 2).

(** The entry describes the node, which is on the card. *)
Definition describes (e : DirEntry) (x : node) : Prop :=
  holds x (e_cluster e) /\
  match x with
  | File content => e_attr e = 0x20 /\ e_size e = len content
  | Dir _ => e_attr e = ATTR_DIR
  end.

Lemma holds_cluster_nonneg x c : holds x c -> 0 <= c.
Proof.
  intros H. inversion H; subst; [lia|..];
    match goal with Hc : chain_holds _ _ _ (_ :: _) _ |- _ => apply chain_lo in Hc; lia end.
Qed.

(** The children's entries, scanned for a name. *)
Lemma find_children n cs es :
  FatPlan.children_hold cb label st 2 cs es -> Forall (fun nx => valid_name nx.1 /\ named nx.2) cs -> valid_name n ->
  Forall (fun e => len e = 32) es /\
  match child_of n cs with
  | Some x => exists e, walk_entries (find_slot (fun e => bool_decide (e_name e = n))) es = Some (Some e) /\ describes e x
  | None => walk_entries (find_slot (fun e => bool_decide (e_name e = n))) es = None
  end.
Proof.
  intros H Hall Hn. induction H as [|name x c e cs es He Hx Hcs IH]; [by split|].
  inversion Hall as [|? ? [Hv Hnx] Hall']; subst. cbn [fst snd] in *.
  destruct (IH Hall') as [IHl IHf]. pose proof (holds_cluster_nonneg _ _ Hx) as Hc0.
  assert (exists attr size, fat_entry name attr c size = Ok e) as (attr & size & Hf) by (destruct x; cbn in He; eauto).
  destruct (fat_entry_spec _ _ _ _ _ Hf (proj1 Hv) Hc0) as (Hlen & Hp & _).
  split; [by constructor|]. cbn [child_of walk_entries].
  rewrite (find_slot_child name x c e n He Hv Hn Hc0). destruct (decide (name = n)) as [->|]; [|exact IHf].
  exists (parse_entry e). split; [done|]. unfold describes.
  destruct x as [content|children]; cbn [child_entry] in He;
    destruct (fat_entry_spec _ _ _ _ _ He (proj1 Hv) Hc0) as (_ & -> & _); by cbn [e_cluster e_attr e_size].
Qed.

(** [find] in a directory of the tree: its child of that name, or none. *)
Lemma vol_find_spec e cs n :
  describes e (Dir cs) -> named (Dir cs) -> valid_name n ->
  match child_of n cs with
  | Some x => exists e', vol_find dev v e n = Good (Some e') /\ describes e' x
  | None => vol_find dev v e n = Good None
  end.
Proof.
  intros [Hh Ha] Hnm Hn. inversion Hnm as [|? Hall]; subst cs0.
  inversion Hh as [| |children root own parent head es ccs Hhead Hch Hcs]; subst.
  unfold vol_find, find_entry. unfold entry_is_dir. rewrite Ha. cbn [negb].
  destruct (find_children n cs es Hcs Hall Hn) as [Hlen Hfind].
  destruct (find_slot_head label root (e_cluster e) parent head n Hhead Hn Hlabel Hlabel_len) as [Hlh Hwh].
  assert (Hlen32 : Forall (fun e => len e = 32) (head ++ es)) by by apply Forall_app.
  set (f := find_slot (fun e0 => bool_decide (e_name e0 = n))) in *.
  destruct (walk_slots_spec dev v cb st Hshift Hcb Hshows f None 2 (e_cluster e) ccs (concat (head ++ es))
    (Z.to_nat (cluster_end v))) as (r & Hr & Hcase); try done.
  { rewrite (len_concat 32) by done. by rewrite Z.mul_comm, Z.mod_mul by lia. }
  { pose proof (chain_len _ _ 2 _ _ _ ltac:(lia) Hch). pose proof (shows_end _ _ _ _ Hshows).
    pose proof (chain_lo _ _ _ _ _ _ Hch). unfold len in *. lia. }
  rewrite chunks_concat, walk_entries_app, Hwh in Hcase by (done || lia).
  change (negb (negb (Z.land ATTR_DIR ATTR_DIR =? 0))) with false. cbn iota. rewrite Hr.
  cbn [mbind fres_bind mret fres_ret].
  destruct (child_of n cs) as [x|].
  - destruct Hfind as (e' & Hw & Hd). rewrite Hw in Hcase. exists e'. split; [|done].
    destruct Hcase as [-> | [? _]]; done.
  - rewrite Hfind in Hcase. by destruct Hcase as [-> | [_ ->]].
Qed.

(** Opening a path of the tree. *)
Lemma open_parts_spec parts names e x y :
  Forall2 (fun p n => p <> [] /\ short_name p = Some n /\ valid_name n) parts names ->
  describes e x -> named x -> find_path names x = Some y ->
  exists e', open_parts dev v e parts = Good e' /\ describes e' y.
Proof.
  intros H. revert e x. induction H as [|p n parts names (Hp & Hs & Hv) Hrest IH]; intros e x Hd Hn Hf.
  - injection Hf as <-. by exists e.
  - destruct p as [|c p]; [done|]. cbn [open_parts find_path] in *. rewrite Hs.
    destruct x as [content|cs]; [done|].
    pose proof (vol_find_spec e cs n Hd Hn Hv) as Hfind.
    destruct Hd as [Hh Ha]. unfold entry_is_dir. rewrite Ha. cbn iota.
    change (negb (negb (Z.land ATTR_DIR ATTR_DIR =? 0))) with false. cbn iota.
    destruct (child_of n cs) as [z|] eqn:Ec; [|done].
    destruct Hfind as (e' & -> & Hd'). cbn [mbind fres_bind].
    inversion Hn as [|? Hall]; subst. apply (IH e' z Hd'); [by eapply child_named|done].
Qed.

(** Reading a file that is on the card. *)
Lemma read_to_spec e content dst :
  describes e (File content) -> len content <= dst -> read_to dev v e dst = Good content.
Proof.
  intros (Hh & Ha & Hs) Hl. unfold read_to, for_each_sector. rewrite Hs.
  replace (dst <? len content) with false by lia.
  unfold entry_is_dir. rewrite Ha. change (negb (Z.land 0x20 ATTR_DIR =? 0)) with false. cbn iota.
  inversion Hh as [|? ? cs Hne Hch|]; subst.
  - rewrite len_nil. cbn. by replace (e_cluster e =? 0) with true by lia.
  - assert (0 < len content) by (destruct content; [done|]; rewrite len_cons; pose proof (len_nonneg content); lia).
    replace (len content =? 0) with false by lia.
    rewrite (read_clusters_spec dev v _ st Hshift eq_refl Hshows 2 (e_cluster e) cs) || rewrite (read_clusters_spec dev v cb st Hshift Hcb Hshows 2 (e_cluster e) cs); try done.
    unfold len. lia.
Qed.

End Lookup.
