(* ===== verification/FatMount.v ===== *)
(** * Card images mounted

    The rendered image shows the plan: the boot sector's and the MBR's fields, the FAT and the
    clusters are where the firmware's reader looks for them, so [mount] accepts the image and
    every file is opened at its path and read back. *)
From S2P Require Import Prelude Header Image Text FatImage FatPlan FatReader FatRead.

(** ** Slices of assigned buffers *)

Lemma len_put_at buf at0 v : 0 <= at0 -> at0 + len v <= len buf -> len (put_at buf at0 v) = len buf.
Proof. apply len_slice_assign. Qed.

Lemma put_at_below buf at0 v a e :
  0 <= a <= e -> e <= at0 -> at0 <= len buf -> slice (put_at buf at0 v) a e = slice buf a e.
Proof. apply slice_assign_below. Qed.

Lemma put_at_above buf at0 v a e :
  0 <= at0 -> at0 + len v <= a -> at0 + len v <= len buf -> slice (put_at buf at0 v) a e = slice buf a e.
Proof. apply slice_assign_above. Qed.

Lemma put_at_in buf at0 v a e :
  0 <= at0 <= a -> a <= e -> e <= at0 + len v -> at0 <= len buf ->
  slice (put_at buf at0 v) a e = slice v (a - at0) (e - at0).
Proof.
  intros. unfold put_at, slice_assign. assert (len (take (Z.to_nat at0) buf) = at0) as Hl by (rewrite len_take; lia).
  rewrite slice_app_r, Hl by lia. by rewrite slice_app_l by lia.
Qed.

Lemma slice_of_slice {A} (l : list A) a e i j :
  0 <= a -> 0 <= i <= j -> j <= e - a -> slice (slice l a e) i j = slice l (a + i) (a + j).
Proof.
  intros. unfold slice. rewrite skipn_firstn_comm, drop_drop, take_take. f_equal; [lia|]. f_equal. lia.
Qed.

Lemma slice_zeros n a e : 0 <= a <= e -> e <= n -> slice (zeros n) a e = zeros (e - a).
Proof.
  intros. unfold slice, zeros. rewrite drop_replicate, take_replicate. f_equal. lia.
Qed.

Lemma unpack_put_in n off buf at0 v :
  0 <= at0 <= off -> off + Z.of_nat n <= at0 + len v -> at0 <= len buf ->
  unpack_uint n off (put_at buf at0 v) = unpack_uint n (off - at0) v.
Proof. intros. unfold unpack_uint. rewrite put_at_in by lia. do 2 f_equal; lia. Qed.

Lemma unpack_put_below n off buf at0 v :
  0 <= off -> off + Z.of_nat n <= at0 -> at0 <= len buf ->
  unpack_uint n off (put_at buf at0 v) = unpack_uint n off buf.
Proof. intros. unfold unpack_uint. by rewrite put_at_below by lia. Qed.

Lemma unpack_put_above n off buf at0 v :
  0 <= at0 -> at0 + len v <= off -> at0 + len v <= len buf ->
  unpack_uint n off (put_at buf at0 v) = unpack_uint n off buf.
Proof. intros. unfold unpack_uint. by rewrite put_at_above by lia. Qed.

Lemma unpack_slice n off buf a e :
  0 <= a -> 0 <= off -> off + Z.of_nat n <= e - a ->
  unpack_uint n off (slice buf a e) = unpack_uint n (a + off) buf.
Proof. intros. unfold unpack_uint. rewrite slice_of_slice by lia. do 2 f_equal; lia. Qed.

Lemma at_byte_unpack d i : 0 <= i < len d -> at_byte d i = unpack_uint 1 i d.
Proof.
  intros. unfold at_byte, unpack_uint. destruct (slice_split d i 1) as (k & Hk & Hl); [lia|lia|].
  rewrite <- (Z.add_0_r i) at 1. rewrite nth_drop_Z by lia. rewrite Hk. change (Z.of_nat 1) with 1 in *.
  destruct (slice d i (i + 1)) as [|c [|]]; try discriminate. simpl. rewrite le_combine_cons.
  change (le_combine []) with 0. unfold u8. lia.
Qed.

Lemma pack_into_Ok buf off fields b :
  pack_into buf off fields = Ok b ->
  exists fs, mapM id fields = Ok fs /\ b = put_at buf off (concat fs) /\ off + len (concat fs) <= len buf.
Proof.
  unfold pack_into. intros H. invert_res. destruct (_ <=? _) eqn:E; [|done]. invert_res.
  exists a. split; [done|]. split; [done|]. lia.
Qed.

Lemma pack_into_len buf off fields b : 0 <= off -> pack_into buf off fields = Ok b -> len b = len buf.
Proof. intros Ho (fs & _ & -> & Hl)%pack_into_Ok. by apply len_put_at. Qed.

Lemma fsinfo_sector_len p b : fsinfo_sector p = Ok b -> len b = 512.
Proof.
  unfold fsinfo_sector. intros H. invert_res. apply pack_into_len in Ha, Ha0, H; try lia.
  rewrite H, Ha0, Ha. reflexivity.
Qed.

(** Takes a list of packed fields apart. *)
Ltac invert_fields :=
  repeat match goal with
  | H : mapM id (_ :: _) = Ok _ |- _ => rewrite mapM_cons in H; invert_res
  | H : mapM id [] = Ok _ |- _ => apply Ok_inj in H; subst
  | H : id _ = Ok _ |- _ => unfold id in H
  | H : pack_uint _ _ = Ok _ |- _ => apply pack_uint_Ok in H as [? ->]
  | H : Ok _ = Ok _ |- _ => apply Ok_inj in H; try subst
  end.

(** ** The boot sector and the MBR *)

Record boot_fields (p : plan) (b : bytes) : Prop := {
  bf_len : len b = 512;
  bf_sig : slice b 510 512 = [x55; xaa];
  bf_bps : unpack_uint 2 11 b = 512;
  bf_cluster : unpack_uint 1 13 b = pl_cluster p;
  bf_reserved : unpack_uint 2 14 b = 32;
  bf_nfats : unpack_uint 1 16 b = 2;
  bf_17 : unpack_uint 2 17 b = 0;
  bf_19 : unpack_uint 2 19 b = 0;
  bf_22 : unpack_uint 2 22 b = 0;
  bf_total : unpack_uint 4 32 b = pl_part p;
  bf_fat : unpack_uint 4 36 b = pl_fat_sectors p;
  bf_40 : unpack_uint 1 40 b = 0;
  bf_root : unpack_uint 4 44 b = pl_root p;
  bf_fsinfo : unpack_uint 2 48 b = 1
}.

(** One packed field inside a concatenation of them. *)
Ltac packed_field :=
  unfold unpack_uint; slice_field; apply le_combine_split_in; simpl; lia.

Lemma label_field_len label : len (label_field label) = 11.
Proof. unfold label_field. rewrite len_encode, len_take, len_ljust. lia. Qed.

(** Where the pieces of a boot sector are. *)
Lemma boot_layers b0 v1 v2 v3 sg :
  len b0 = 512 -> len v1 = 25 -> len v2 = 16 -> len v3 = 26 -> len sg = 2 ->
  let b := put_at (put_at (put_at (put_at b0 11 v1) 36 v2) 64 v3) 510 sg in
  len b = 512 /\ slice b 510 512 = sg /\
  (forall n off, 11 <= off -> off + Z.of_nat n <= 36 -> unpack_uint n off b = unpack_uint n (off - 11) v1) /\
  (forall n off, 36 <= off -> off + Z.of_nat n <= 52 -> unpack_uint n off b = unpack_uint n (off - 36) v2).
Proof.
  intros L0 L1 L2 L3 Ls b.
  assert (len (put_at b0 11 v1) = 512) as K1 by (rewrite len_put_at; lia).
  assert (len (put_at (put_at b0 11 v1) 36 v2) = 512) as K2 by (rewrite len_put_at; lia).
  assert (len (put_at (put_at (put_at b0 11 v1) 36 v2) 64 v3) = 512) as K3 by (rewrite len_put_at; lia).
  split; [unfold b; rewrite len_put_at; lia|]. split.
  { unfold b. rewrite put_at_in by lia. apply slice_0_len. lia. }
  split; intros n off Hlo Hhi; unfold b.
  - rewrite !unpack_put_below by lia. by rewrite unpack_put_in by lia.
  - rewrite !unpack_put_below by lia. by rewrite unpack_put_in by lia.
Qed.

Lemma boot_sector_fields p b :
  boot_sector p = Ok b -> boot_fields p b /\ 0 <= pl_part p < 2 ^ 32 /\ 0 <= pl_cluster p < 256.
Proof.
  unfold boot_sector. intros H. invert_res.
  repeat match goal with E : pack_into _ _ _ = Ok _ |- _ =>
    apply pack_into_Ok in E as (? & ? & -> & ?) end.
  invert_fields. simpl Z.of_nat in *.
  match goal with |- boot_fields p (put_at (put_at (put_at (put_at ?b0 11 ?v1) 36 ?v2) 64 ?v3) 510 ?sg) /\ _ =>
    destruct (boot_layers b0 v1 v2 v3 sg eq_refl eq_refl eq_refl) as (Hlen & Hsig & Hv1 & Hv2) end.
  { cbn [concat]. autorewrite with lens. rewrite len_pack_s, len_pack_s by lia. reflexivity. }
  { reflexivity. }
  split; [|done]. split; try done.
  all: first [rewrite Hv2 by (simpl; lia) | rewrite Hv1 by (simpl; lia)]; cbn [concat].
  all: packed_field.
Qed.

Record mbr_fields (p : plan) (b : bytes) : Prop := {
  mf_len : len b = 512;
  mf_sig : slice b 510 512 = [x55; xaa];
  mf_type : unpack_uint 1 450 b = 0x0C;
  mf_lba : unpack_uint 4 454 b = FAT_PART_LBA
}.

Lemma mbr_sector_fields p b : mbr_sector p = Ok b -> mbr_fields p b.
Proof.
  unfold mbr_sector. intros H. invert_res. invert_fields. simpl Z.of_nat in *.
  match goal with |- mbr_fields p (put_at (put_at ?b0 446 ?v) 510 ?sg) =>
    assert (len b0 = 512) as L0 by reflexivity; assert (len v = 16) as L1 by reflexivity;
    assert (len sg = 2) as L2 by reflexivity;
    assert (len (put_at b0 446 v) = 512) as K1 by (rewrite len_put_at; lia) end.
  split.
  - rewrite len_put_at; lia.
  - rewrite put_at_in by lia. by apply slice_0_len.
  - rewrite unpack_put_below, unpack_put_in by (change (Z.of_nat 1) with 1 || change (Z.of_nat 4) with 4; lia). reflexivity.
  - rewrite unpack_put_below, unpack_put_in by (change (Z.of_nat 1) with 1 || change (Z.of_nat 4) with 4; lia). reflexivity.
Qed.

(** ** The FAT's bytes *)

Lemma fat_raw_spec l bs :
  mapM (pack_uint 4) l = Ok bs ->
  len (concat bs) = 4 * len l /\
  forall c x, l !! Z.to_nat c = Some x -> 0 <= c -> unpack_uint 4 (4 * c) (concat bs) = x.
Proof.
  revert bs. induction l as [|y l IH]; intros bs H.
  - apply Ok_inj in H as <-. split; [done|]. intros c x Hx. by rewrite lookup_nil in Hx.
  - rewrite mapM_cons in H. invert_res. apply pack_uint_Ok in Ha as [Hy ->].
    destruct (IH _ Ha0) as [IHl IHx]. cbn [concat].
    split; [rewrite len_app, IHl, len_cons, len_le_split; lia|].
    intros c x Hx Hc. destruct (decide (c = 0)) as [->|Hc0].
    + cbn in Hx. injection Hx as <-. unfold unpack_uint. rewrite slice_app_l by (rewrite ?len_le_split; simpl; lia).
      rewrite slice_0_len by (rewrite ?len_le_split; lia). by apply le_combine_split_in.
    + replace (Z.to_nat c) with (S (Z.to_nat (c - 1))) in Hx by lia. cbn in Hx.
      unfold unpack_uint. rewrite slice_app_r by (rewrite ?len_le_split; simpl; lia).
      rewrite len_le_split. rewrite <- (IHx (c - 1) x) by (done || lia). unfold unpack_uint. do 2 f_equal; lia.
Qed.

(** ** The clusters' bytes *)

Section Clusters.
Variables (data_at cb : Z).
Hypothesis Hcb : 0 < cb.
Hypothesis Hdata : 0 <= data_at.

Definition cluster_pos (c : Z) : Z := data_at + (c - 2) * cb.
Definition put_cluster (part : bytes) (cd : Z * bytes) : bytes :=
  let '(c, content) := cd in put_at part (cluster_pos c) content.

(** Contents that fit their clusters, inside a partition of [n] bytes. *)
Definition fits (n : Z) (cd : Z * bytes) : Prop :=
  2 <= cd.1 /\ len cd.2 <= cb /\ cluster_pos cd.1 + cb <= n.

Lemma put_clusters_len l part :
  Forall (fits (len part)) l -> len (fold_left put_cluster l part) = len part.
Proof.
  revert part. induction l as [|[c d] l IH]; intros part H; [done|].
  inversion H as [|? ? (H1 & H2 & H3) Hl]; subst. unfold cluster_pos in *. cbn [fst snd fold_left put_cluster] in *.
  assert (len (put_at part (cluster_pos c) d) = len part) as E
    by (unfold cluster_pos; apply len_put_at; pose proof (len_nonneg d); nia).
  rewrite IH; rewrite ?E; done.
Qed.

(** Bytes no listed cluster covers are left alone. *)
Lemma put_clusters_other l part a e :
  Forall (fits (len part)) l -> 0 <= a <= e ->
  Forall (fun cd => e <= cluster_pos cd.1 \/ cluster_pos cd.1 + cb <= a) l ->
  slice (fold_left put_cluster l part) a e = slice part a e.
Proof.
  revert part. induction l as [|[c d] l IH]; intros part H Hae Ho; [done|].
  inversion H as [|? ? (H1 & H2 & H3) Hl]; subst. inversion Ho as [|? ? Ho1 Ho2]; subst.
  unfold cluster_pos in *. cbn [fst snd fold_left put_cluster] in *. pose proof (len_nonneg d).
  assert (len (put_at part (cluster_pos c) d) = len part) as E
    by (unfold cluster_pos; apply len_put_at; nia).
  rewrite IH; rewrite ?E; try done.
  destruct Ho1; [rewrite put_at_below | rewrite put_at_above]; unfold cluster_pos; done || nia.
Qed.

Lemma cluster_pos_apart c c' : c <> c' -> cluster_pos c + cb <= cluster_pos c' \/ cluster_pos c' + cb <= cluster_pos c.
Proof. unfold cluster_pos. intros. nia. Qed.

(** A listed cluster holds its contents, then what was there. *)
Lemma put_clusters_in l part c d :
  NoDup (l.*1) -> Forall (fits (len part)) l -> (c, d) ∈ l ->
  slice (fold_left put_cluster l part) (cluster_pos c) (cluster_pos c + cb) =
    d ++ slice part (cluster_pos c + len d) (cluster_pos c + cb).
Proof.
  revert part. induction l as [|[c' d'] l IH]; intros part Hnd H Hin; [by apply elem_of_nil in Hin|].
  inversion H as [|? ? (H1 & H2 & H3) Hl]; subst. cbn [fst snd fmap list_fmap] in *.
  inversion Hnd as [|? ? Hnin Hnd']; subst. cbn [fold_left put_cluster].
  assert (0 <= cluster_pos c') by (unfold cluster_pos; nia). pose proof (len_nonneg d').
  assert (len (put_at part (cluster_pos c') d') = len part) as E by (apply len_put_at; lia).
  apply elem_of_cons in Hin as [[= -> ->]|Hin].
  - rewrite put_clusters_other; rewrite ?E; try done; [|lia|].
    + rewrite (slice_add _ (cluster_pos c') (cluster_pos c' + len d')) by lia.
      unfold put_at. rewrite slice_assign_same by lia. f_equal. by apply slice_assign_above; lia.
    + rewrite Forall_forall. intros [c'' d''] Hin. cbn [fst]. destruct (cluster_pos_apart c' c''); [|by left|by right].
      intros ->. apply Hnin. apply list_elem_of_fmap. by exists (c'', d'').
  - rewrite IH; rewrite ?E; try done. f_equal.
    assert (c <> c') as Hne by (intros ->; apply Hnin, list_elem_of_fmap; by exists (c', d)).
    rewrite Forall_forall in Hl. destruct (Hl _ Hin) as (G1 & G2 & G3). cbn [fst snd] in *. pose proof (len_nonneg d).
    assert (0 <= cluster_pos c) by (unfold cluster_pos; nia).
    destruct (cluster_pos_apart c c' Hne); [rewrite put_at_below | rewrite put_at_above]; done || lia.
Qed.

End Clusters.

(** ** The partition *)

Definition pl_cb (p : plan) : Z := pl_cluster p * SECTOR.
Definition pl_fat (p : plan) : list Z := fs_fat (pl_state p).
Definition pl_data_at (p : plan) : Z := (FAT_RESERVED + 2 * pl_fat_sectors p) * SECTOR.

(** What a plan guarantees of its sizes. *)
Record plan_ok (p : plan) : Prop := {
  po_cluster : In (pl_cluster p) CLUSTER_SIZES;
  po_fat_sectors : 1 <= pl_fat_sectors p;
  po_clusters : pl_clusters p = (pl_part p - FAT_RESERVED - 2 * pl_fat_sectors p) / pl_cluster p;
  po_fat_fits : (pl_clusters p + 2) * 4 <= pl_fat_sectors p * SECTOR;
  po_bounded : bounded (pl_cb p) (pl_clusters p) (pl_state p);
  po_root : 2 <= pl_root p < len (pl_fat p)
}.

Lemma cluster_size_pos n : In n CLUSTER_SIZES -> 1 <= n <= 128 /\ n = 2 ^ Z.log2 n /\ is_power_of_two n = true.
Proof. cbn [In CLUSTER_SIZES]. intros H. repeat destruct H as [<-|H]; try done; lia. Qed.

Lemma plan_room p : plan_ok p -> 
  1 <= pl_clusters p /\ len (pl_fat p) <= pl_clusters p + 2 /\
  FAT_RESERVED + 2 * pl_fat_sectors p + pl_clusters p * pl_cluster p <= pl_part p /\
  4 * len (pl_fat p) <= pl_fat_sectors p * SECTOR.
Proof.
  intros [H1 H2 H3 H4 [H5 _] H6]. apply cluster_size_pos in H1 as [H1 _]. unfold pl_fat in *.
  assert (1 <= pl_clusters p) by lia. split; [done|]. split; [lia|]. split; [|lia].
  pose proof (Z.mul_div_le (pl_part p - FAT_RESERVED - 2 * pl_fat_sectors p) (pl_cluster p) ltac:(lia)).
  rewrite <- H3 in *. lia.
Qed.

Lemma plan_fits p : plan_ok p ->
  Forall (fits (pl_data_at p) (pl_cb p) (pl_part p * SECTOR)) (map_to_list (fs_data (pl_state p))).
Proof.
  intros Hp. destruct (plan_room p Hp) as (R1 & R2 & R3 & R4). destruct Hp as [H1 H2 H3 H4 [H5 H5'] H6].
  apply cluster_size_pos in H1 as [H1 _].
  rewrite Forall_forall. intros [c d] Hin. apply elem_of_map_to_list in Hin. apply H5' in Hin as [Hc Hd].
  unfold fits, cluster_pos, pl_data_at, pl_cb, pl_fat, SECTOR in *. cbn [fst snd]. split; [lia|]. split; [lia|].
  assert ((c - 1) * pl_cluster p <= pl_clusters p * pl_cluster p) by nia. nia.
Qed.

(** The partition's regions. *)
Lemma fill_part_spec p boot fsinfo raw :
  plan_ok p -> len boot = 512 -> len fsinfo = 512 -> len raw = 4 * len (pl_fat p) ->
  let part := fill_part p boot fsinfo raw in
  len part = pl_part p * 512 /\ slice part 0 512 = boot /\
  (forall n off, 0 <= off -> off + Z.of_nat n <= len raw ->
     unpack_uint n (FAT_RESERVED * 512 + off) part = unpack_uint n off raw) /\
  (forall c d, fs_data (pl_state p) !! c = Some d ->
     slice part (cluster_pos (pl_data_at p) (pl_cb p) c) (cluster_pos (pl_data_at p) (pl_cb p) c + pl_cb p)
       = ljust d (pl_cb p) x00).
Proof.
  intros Hp Lb Lf Lr part. pose proof (plan_fits p Hp) as Hfits.
  destruct (plan_room p Hp) as (R1 & R2 & R3 & R4). destruct Hp as [H1 H2 H3 H4 [H5 H5'] H6].
  apply cluster_size_pos in H1 as [H1 _]. unfold SECTOR, FAT_RESERVED in *.
  set (N := pl_part p * 512) in *. pose proof (len_nonneg (pl_fat p)).
  assert (16896 + 1024 * pl_fat_sectors p <= N) as HN by (unfold N; nia).
  unfold part, fill_part. cbn [fold_left]. unfold SECTOR, FAT_RESERVED.
  set (z := zeros (pl_part p * 512)). assert (len z = N) as Lz by (apply len_zeros; lia).
  change (0 * 512) with 0. change (1 * 512) with 512. change (6 * 512) with 3072. change (7 * 512) with 3584.
  set (s1 := put_at z 0 boot). assert (len s1 = N) as L1 by (unfold s1; rewrite len_put_at; lia).
  set (s2 := put_at s1 512 fsinfo). assert (len s2 = N) as L2 by (unfold s2; rewrite len_put_at; lia).
  set (s3 := put_at s2 3072 boot). assert (len s3 = N) as L3 by (unfold s3; rewrite len_put_at; lia).
  set (s4 := put_at s3 3584 fsinfo). assert (len s4 = N) as L4 by (unfold s4; rewrite len_put_at; lia).
  replace ((32 + 0 * pl_fat_sectors p) * 512) with 16384 by lia.
  set (s5 := put_at s4 16384 raw). assert (len s5 = N) as L5 by (unfold s5; rewrite len_put_at; lia).
  set (at2 := (32 + 1 * pl_fat_sectors p) * 512).
  set (s6 := put_at s5 at2 raw). assert (len s6 = N) as L6 by (unfold s6, at2; rewrite len_put_at; lia).
  fold (pl_data_at p).
  change (fun (part0 : bytes) '(c, content) =>
    put_at part0 ((32 + 2 * pl_fat_sectors p) * 512 + (c - 2) * (pl_cluster p * 512)) content)
    with (put_cluster (pl_data_at p) (pl_cb p)).
  set (l := map_to_list (fs_data (pl_state p))) in *.
  assert (Hfits' : Forall (fits (pl_data_at p) (pl_cb p) (len s6)) l) by by rewrite L6.
  assert (Hcb : 0 < pl_cb p) by (unfold pl_cb, SECTOR; lia).
  assert (Hda : 0 <= pl_data_at p) by (unfold pl_data_at, SECTOR, FAT_RESERVED; lia).
  assert (Hother : forall a e, 0 <= a <= e -> e <= pl_data_at p ->
    slice (fold_left (put_cluster (pl_data_at p) (pl_cb p)) l s6) a e = slice s6 a e).
  { intros a e Hae He. apply put_clusters_other; try done.
    eapply Forall_impl; [exact Hfits|]. intros [c d] (G1 & G2 & G3). left. unfold cluster_pos. cbn in *. nia. }
  split; [by rewrite put_clusters_len|]. split; [|split].
  - rewrite Hother by (unfold pl_data_at, SECTOR, FAT_RESERVED; lia).
    unfold s6, at2. rewrite put_at_below by lia. unfold s5. rewrite put_at_below by lia.
    unfold s4. rewrite put_at_below by lia. unfold s3. rewrite put_at_below by lia.
    unfold s2. rewrite put_at_below by lia. unfold s1. rewrite put_at_in by lia.
    apply slice_0_len. lia.
  - intros n off Hoff Hend. unfold unpack_uint. rewrite Hother by (unfold pl_data_at, SECTOR, FAT_RESERVED; lia).
    change (32 * 512) with 16384. fold (unpack_uint n (16384 + off) s6). unfold s6, at2.
    rewrite unpack_put_below by lia. unfold s5. rewrite unpack_put_in by lia. unfold unpack_uint. do 2 f_equal; lia.
  - intros c d Hd. rewrite put_clusters_in with (d := d); try done.
    2: { apply NoDup_fst_map_to_list. } 2: { by apply elem_of_map_to_list. }
    rewrite Forall_forall in Hfits. destruct (Hfits (c, d)) as (G1 & G2 & G3); [by apply elem_of_map_to_list|].
    cbn [fst snd] in *. pose proof (len_nonneg d). unfold ljust. f_equal.
    set (pos := cluster_pos (pl_data_at p) (pl_cb p) c) in *.
    assert (pl_data_at p <= pos) by (unfold pos, cluster_pos; nia).
    assert (16384 + 1024 * pl_fat_sectors p = pl_data_at p) by (unfold pl_data_at, SECTOR, FAT_RESERVED; lia).
    unfold s6, at2. rewrite put_at_above by lia. unfold s5. rewrite put_at_above by lia.
    unfold s4. rewrite put_at_above by lia. unfold s3. rewrite put_at_above by lia.
    unfold s2. rewrite put_at_above by lia. unfold s1. rewrite put_at_above by lia. unfold z. rewrite slice_zeros by lia.
    unfold zeros. f_equal. lia.
Qed.

(** ** The image *)

(** Sector [2048 + k] of an image is sector [k] of its partition. *)
Lemma image_dev_part mbr part k :
  len mbr = 512 -> 0 <= k -> (k + 1) * 512 <= len part ->
  image_dev (mbr ++ zeros ((FAT_PART_LBA - 1) * SECTOR) ++ part) (FAT_PART_LBA + k) =
    Some (slice part (k * 512) ((k + 1) * 512)).
Proof.
  unfold image_dev, FAT_PART_LBA, SECTOR. intros Hm Hk Hp.
  rewrite !len_app, Hm, len_zeros by lia.
  replace ((0 <=? 2048 + k) && _) with true by lia. f_equal.
  rewrite slice_app_r, Hm by lia. rewrite slice_app_r, len_zeros by (rewrite ?len_zeros; lia). f_equal; lia.
Qed.

Lemma image_dev_mbr mbr rest : len mbr = 512 -> image_dev (mbr ++ rest) 0 = Some mbr.
Proof.
  unfold image_dev, SECTOR. intros Hm. pose proof (len_nonneg rest). rewrite len_app, Hm.
  replace (_ && _) with true by lia. f_equal. rewrite slice_app_l by lia. apply slice_0_len. lia.
Qed.

(** The volume [mount] makes of a plan's image. *)
Definition plan_volume (p : plan) : Volume :=
  mkVolume FAT_PART_LBA (FAT_PART_LBA + 32) (pl_fat_sectors p) 2 (FAT_PART_LBA + (32 + 2 * pl_fat_sectors p))
    (Z.log2 (pl_cluster p)) (pl_clusters p + 2) (pl_root p) (FAT_PART_LBA + 1).

Lemma mount_boot_plan p b :
  plan_ok p -> boot_fields p b -> FAT_PART_LBA + pl_part p <= 0xFFFFFFFF -> pl_clusters p <= MAX_CLUSTERS ->
  mount_boot FAT_PART_LBA b = Good (plan_volume p).
Proof.
  intros Hp [B1 B2 B3 B4 B5 B6 B7 B8 B9 B10 B11 B12 B13 B14] Hpart Hmax. destruct (plan_room p Hp) as (R1 & R2 & R3 & R4).
  destruct Hp as [H1 H2 H3 H4 H5 H6]. apply cluster_size_pos in H1 as (H1 & H1' & H1'').
  unfold mount_boot, has_signature. rewrite bool_decide_true by done. cbn [negb].
  unfold le16, le32. rewrite !fw_le16_unpack, !fw_le32_unpack, !at_byte_unpack by lia.
  rewrite B3, B4, B5, B6, B7, B8, B9, B10, B11, B12, B13, B14. change (0 =? 0) with true. cbn [negb orb].
  unfold SECTOR, FAT_RESERVED, MAX_CLUSTERS in *. rewrite H1''. cbn [negb orb andb].
  change (negb (512 =? 512) || false || (32 =? 0)) with false. cbn [orb].
  replace (negb ((1 <=? 2) && (2 <=? 2)) || (pl_fat_sectors p =? 0))
    with false by lia.
  change (2 - 1) with 1. rewrite (shiftl_mul (pl_fat_sectors p) 1), (shiftl_mul (pl_fat_sectors p) 7) by lia.
  change (2 ^ 1) with 2. change (2 ^ 7) with 128.
  replace (pl_part p <=? 32 + pl_fat_sectors p * 2) with false by nia.
  rewrite shiftr_div by (apply Z.log2_nonneg). rewrite <- H1'.
  replace ((pl_part p - (32 + pl_fat_sectors p * 2)) / pl_cluster p) with (pl_clusters p) by (rewrite H3; f_equal; lia).
  change (Z.land 0 128) with 0.
  replace ((0x0FFFFFF5 <? pl_clusters p) || negb (0 =? 0)) with false by lia.
  replace ((pl_fat_sectors p * 128 <? pl_clusters p + 2) || (4294967295 <? FAT_PART_LBA + pl_part p)) with false by lia.
  unfold is_cluster. cbn [vol_root cluster_end]. unfold pl_fat in *.
  replace (negb ((2 <=? pl_root p) && (pl_root p <? pl_clusters p + 2))) with false by lia.
  unfold plan_volume. by rewrite (Z.mul_comm 2).
Qed.

(** The image shows the plan's tables to the reader. *)
Lemma image_shows p mbr boot fsinfo raw :
  plan_ok p -> pl_clusters p <= MAX_CLUSTERS -> len mbr = 512 -> len boot = 512 -> len fsinfo = 512 ->
  mapM (pack_uint 4) (pl_fat p) = Ok raw ->
  shows (image_dev (mbr ++ zeros ((FAT_PART_LBA - 1) * SECTOR) ++ fill_part p boot fsinfo (concat raw)))
    (plan_volume p) (pl_cb p) (pl_state p).
Proof.
  intros Hp Hmax Lm Lb Lf Hraw. destruct (fat_raw_spec _ _ Hraw) as [Lr Hx].
  destruct (plan_room p Hp) as (R1 & R2 & R3 & R4).
  destruct (fill_part_spec p boot fsinfo (concat raw) Hp Lb Lf Lr) as (Lp & _ & Pfat & Pdata).
  pose proof (po_cluster _ Hp) as Hcs. apply cluster_size_pos in Hcs as (H1 & H1' & _).
  pose proof (po_fat_sectors _ Hp) as Hfs. unfold FAT_RESERVED, SECTOR, MAX_CLUSTERS in *.
  set (part := fill_part p boot fsinfo (concat raw)) in *.
  split.
  - intros c x Hc Hfat Hr. unfold fat_at in Hfat. fold (pl_fat p) in Hfat.
    assert (c < len (pl_fat p)) as Hlt by (apply lookup_lt_Some in Hfat; unfold len; lia).
    unfold vol_fat_entry, read. cbn [fat_lba plan_volume].
    rewrite shiftr_div, (land_mask c 7), shiftl_mul by lia. change (2 ^ 7) with 128. change (2 ^ 2) with 4.
    pose proof (Z.div_mod c 128 ltac:(lia)). pose proof (Z.mod_pos_bound c 128 ltac:(lia)).
    assert (0 <= c / 128) by (apply Z.div_pos; lia).
    rewrite <- Z.add_assoc. rewrite image_dev_part by lia.
    cbn [mbind fres_bind mret fres_ret]. unfold le32.
    rewrite fw_le32_unpack by (rewrite ?len_slice; lia).
    rewrite unpack_slice by (simpl Z.of_nat; lia).
    replace ((32 + c / 128) * 512 + c mod 128 * 4) with (32 * 512 + 4 * c) by lia.
    rewrite Pfat by (simpl Z.of_nat; lia). rewrite (Hx c x Hfat) by lia.
    unfold ENTRY_MASK. rewrite (land_mask x 28) by lia. by rewrite Z.mod_small by lia.
  - intros c d s Hd Hs. destruct (Z.le_gt_cases 2 c) as [Hc|Hc].
    2: { destruct (po_bounded _ Hp) as [_ Hb]. apply Hb in Hd. lia. }
    assert (pl_cb p = 512 * 2 ^ Z.log2 (pl_cluster p)) as Hcb by (unfold pl_cb, SECTOR; lia).
    cbn [cluster_shift plan_volume] in Hs. rewrite <- H1' in *.
    unfold cluster_lba. cbn [data_lba cluster_shift plan_volume].
    rewrite shiftl_mul by (apply Z.log2_nonneg). rewrite <- H1'.
    destruct (po_bounded _ Hp) as [_ Hb]. pose proof (Hb _ _ Hd) as [Hc2 Hdl]. unfold pl_fat in *.
    assert ((c - 2) * pl_cluster p + pl_cluster p <= pl_clusters p * pl_cluster p) by nia.
    replace (FAT_PART_LBA + (32 + 2 * pl_fat_sectors p) + (c - 2) * pl_cluster p + s)
      with (FAT_PART_LBA + (32 + 2 * pl_fat_sectors p + (c - 2) * pl_cluster p + s)) by lia.
    rewrite image_dev_part by (try done; nia). f_equal.
    rewrite <- (Pdata c d Hd). rewrite slice_of_slice.
    + unfold cluster_pos, pl_data_at, pl_cb, FAT_RESERVED, SECTOR. f_equal; lia.
    + unfold cluster_pos, pl_data_at, pl_cb, FAT_RESERVED, SECTOR. nia.
    + lia.
    + unfold pl_cb, SECTOR. nia.
  - cbn [cluster_end plan_volume]. unfold pl_fat, EOC_MIN in *. lia.
Qed.

(** ** Every plan holds its tree *)

Lemma fat32_plan_spec files part_sectors cluster_sectors label p :
  fat32_plan files part_sectors cluster_sectors label = Ok p ->
  plan_ok p /\ pl_part p = part_sectors /\ pl_cluster p = cluster_sectors /\ pl_label p = label /\
  exists tree, build_tree files [] = Ok tree /\
    holds (pl_cb p) label (pl_state p) 2 (Dir tree) (pl_root p).
Proof.
  unfold fat32_plan. destruct (existsb _ _) eqn:Ecs; [|done]. cbn [negb].
  apply existsb_exists in Ecs as (cs & Hcs & ->%Z.eqb_eq).
  pose proof (cluster_size_pos _ Hcs) as (Hpos & _).
  destruct (fat_size _ _ _ _) as [[fs cl]|] eqn:Efs; [|done].
  apply fat_size_plan in Efs as (F1 & F2 & F3); [|lia]. intros H.
  apply bind_Ok in H as (tree & Ht & H). apply bind_Ok in H as ([root st] & Ha & H).
  apply bind_Ok in H as (st' & Hw & H). apply Ok_inj in H as <-.
  assert (Hcb : 0 < cs * SECTOR) by (unfold SECTOR; lia).
  assert (Hinit : bounded (cs * SECTOR) cl fat_init).
  { split; [unfold len, fat_init; simpl; lia|]. intros c d Hd. cbn in Hd. by rewrite lookup_empty in Hd. }
  destruct (alloc_spec _ _ Hcb _ _ _ _ Hinit Ha) as (Hr & Hr2 & Hr3 & Hb & He & _ & Heoc).
  destruct (write_dir_spec _ _ Hcb label (Dir tree) root 0 true st st' Hb ltac:(lia) (Heoc eq_refl) Hw)
    as (Hb' & He' & Hh).
  split; [|split; [done|split; [done|split; [done|]]]].
  - split; cbn [pl_cluster pl_fat_sectors pl_clusters pl_part pl_state pl_root pl_cb pl_fat]; try done.
    destruct He' as [He' _]. unfold pl_fat. cbn [pl_state]. lia.
  - exists tree. split; [done|]. cbn [pl_cb pl_cluster pl_state pl_root].
    eapply holds_lo; [lia| |exact Hh]. lia.
Qed.

(** ** Paths *)

(** Path bytes as the host's string. *)
Definition path_text (path : bytes) : text := map u8 path.

Lemma split_path_text path :
  split_slash (map (fun c => if c =? 92 then 47 else c) (path_text path)) = map path_text (split_path path).
Proof.
  induction path as [|c path IH]; [done|]. cbn [path_text map split_slash split_path]. fold (path_text path).
  assert (((if u8 c =? 92 then 47 else u8 c) =? 47) = bool_decide (c = x2f) || bool_decide (c = x5c)) as ->
    by (by destruct c).
  rewrite IH. destruct (bool_decide (c = x2f) || bool_decide (c = x5c)) eqn:E; [done|].
  apply orb_false_iff in E as [_ E]. apply bool_decide_eq_false in E.
  assert ((if u8 c =? 92 then 47 else u8 c) = u8 c) as ->.
  { destruct (u8 c =? 92) eqn:E2; [|done]. exfalso. apply E. by destruct c. }
  by destruct (split_path path).
Qed.

Lemma path_parts_text path :
  path_parts (path_text path) = map path_text (filter (fun q => q <> []) (split_path path)).
Proof.
  unfold path_parts. rewrite split_path_text. induction (split_path path) as [|q l IH]; [done|].
  cbn [map]. destruct q as [|c q].
  - rewrite !filter_cons_False by (by intros H). exact IH.
  - rewrite !filter_cons_True by done. cbn [map]. by rewrite IH.
Qed.

Lemma open_parts_filter dev v e parts :
  open_parts dev v e parts = open_parts dev v e (filter (fun q => q <> []) parts).
Proof.
  revert e. induction parts as [|[|c q] parts IH]; intros e; [done| |].
  - rewrite filter_cons_False by (by intros H). apply IH.
  - rewrite filter_cons_True by done. cbn [open_parts]. destruct (negb _); [done|].
    destruct (short_name (c :: q)); [|done]. destruct (vol_find _ _ _ _) as [[|]|]; [|done..]. apply IH.
Qed.

(** The parts the host accepts are the ones the firmware does. *)
Lemma parts_agree parts names :
  Forall (fun q => q <> []) parts -> mapM fat_short_name (map path_text parts) = Ok names ->
  Forall2 (fun q n => q <> [] /\ short_name q = Some n /\ valid_name n) parts names.
Proof.
  revert names. induction parts as [|q parts IH]; intros names Hne H.
  - apply Ok_inj in H as <-. constructor.
  - cbn [map] in H. rewrite mapM_cons in H. invert_res. inversion Hne as [|? ? Hq Hne']; subst.
    constructor; [|by apply IH]. split; [done|]. pose proof (fat_short_name_valid _ _ Ha) as Hv.
    split; [|done].
    assert (forallb (fun c => u8 c <? 128) q = true) as Hasc.
    { unfold fat_short_name in Ha. destruct (forallb (fun c => c <? 128) (path_text q)) eqn:E; [|done].
      unfold path_text in E. rewrite forallb_forall in *. intros c Hc. apply (E (u8 c)), in_map, Hc. }
    unfold path_text in Ha. rewrite (short_names_same q Hasc) in Ha.
    destruct (short_name q); [by injection Ha as <-|done].
Qed.

Definition host_files (files : list (bytes * bytes)) : list (text * bytes) :=
  map (fun pc => (path_text pc.1, pc.2)) files.

(** An image built mounts and reads back. *)
Lemma mkfat_mounts (files : list (bytes * bytes)) (part_sectors cluster_sectors : Z) (label : text)
    (img : bytes) :
  build_fat32_image (host_files files) part_sectors cluster_sectors label = Ok img ->
  label_ok label -> FAT_PART_LBA + part_sectors <= 0xFFFFFFFF ->
  (part_sectors - FAT_RESERVED) / cluster_sectors <= MAX_CLUSTERS ->
  exists v, mount (image_dev img) = Good v /\
    forall path content dst_len, (path, content) ∈ files -> len content <= dst_len ->
      exists e, vol_open (image_dev img) v path = Good e /\ read_to (image_dev img) v e dst_len = Good content.
Proof.
  unfold build_fat32_image. intros H Hlab Hpart Hmax. apply bind_Ok in H as (p & Hp & H).
  apply fat32_plan_spec in Hp as (Hok & Hpp & Hpc & Hpl & tree & Htree & Hholds).
  unfold render in H. apply bind_Ok in H as (boot & Hboot & H). apply bind_Ok in H as (fsinfo & Hfs & H).
  apply bind_Ok in H as (raw & Hraw & H). apply bind_Ok in H as (mbr & Hmbr & H). apply Ok_inj in H.
  destruct (boot_sector_fields _ _ Hboot) as (Hbf & _). pose proof (mbr_sector_fields _ _ Hmbr) as Hmf.
  assert (Hlf : len fsinfo = 512).
  { by eapply fsinfo_sector_len. }
  destruct (plan_room p Hok) as (R1 & R2 & R3 & R4).
  assert (Hclmax : pl_clusters p <= MAX_CLUSTERS).
  { rewrite (po_clusters _ Hok), Hpp, Hpc. etransitivity; [|exact Hmax].
    pose proof (po_fat_sectors _ Hok). pose proof (cluster_size_pos _ (po_cluster _ Hok)) as (Hc & _).
    apply Z.div_le_mono; lia. }
  assert (Hdev : shows (image_dev img) (plan_volume p) (pl_cb p) (pl_state p)).
  { subst img. eapply image_shows; try done; [apply Hmf|apply Hbf]. }
  exists (plan_volume p). split.
  - subst img. unfold mount, read. rewrite image_dev_mbr by apply Hmf. cbn [mbind fres_bind].
    unfold has_signature. rewrite bool_decide_true by apply Hmf. cbn [negb]. unfold le32.
    destruct Hmf as [M1 M2 M3 M4].
    rewrite fw_le32_unpack, !at_byte_unpack by lia. change (446 + 4) with 450. change (446 + 8) with 454.
    rewrite M3, M4. change (12 =? 0) with false. change ((12 =? 11) || (12 =? 12)) with true. cbn iota.
    destruct (fat_raw_spec _ _ Hraw) as [Lr _].
    destruct (fill_part_spec p boot fsinfo (concat raw) Hok (bf_len _ _ Hbf) Hlf Lr) as (Lp & Hp0 & _).
    rewrite <- (Z.add_0_r FAT_PART_LBA) at 2.
    pose proof (po_fat_sectors _ Hok). pose proof (cluster_size_pos _ (po_cluster _ Hok)) as (Hc1 & _).
    rewrite image_dev_part by (try done; unfold FAT_RESERVED in *; nia).
    change (0 * 512) with 0. change ((0 + 1) * 512) with 512. rewrite Hp0. cbn [mbind fres_bind].
    apply mount_boot_plan; try done. lia.
  - intros path content dst Hin Hlen.
    destruct (build_tree_spec _ _ _ Htree) as (Hnamed & _ & Hfiles); [repeat constructor|].
    destruct (Hfiles (path_text path) content) as (names & Hnames & Hfind).
    { apply list_elem_of_fmap. by exists (path, content). }
    rewrite path_parts_text in Hnames. apply parts_agree in Hnames.
    2: { apply Forall_forall. intros q Hq. by apply list_elem_of_filter in Hq as [? _]. }
    pose proof (cluster_size_pos _ (po_cluster _ Hok)) as (_ & Hpow & _).
    assert (Hcb : pl_cb p = 512 * 2 ^ cluster_shift (plan_volume p))
      by (cbn [cluster_shift plan_volume]; unfold pl_cb, SECTOR; lia).
    assert (Hsh : 0 <= cluster_shift (plan_volume p)) by apply Z.log2_nonneg.
    destruct (open_parts_spec (image_dev img) (plan_volume p) (pl_cb p) (pl_state p) label Hsh Hcb Hdev Hlab
      (label_field_len label) _ _ (root_entry (pl_root p)) (Dir tree) (File content) Hnames) as (e & He & Hd);
      [by split|done|done|].
    exists e. split; [|by eapply read_to_spec].
    unfold vol_open. by rewrite open_parts_filter.
Qed.

(** C1: a card image the host tool makes is one the firmware can use: it mounts, and every
    file given to [build_fat32_image] is found at its path (through directories made as
    needed, whatever the case and the separators) and read back byte for byte. The label must
    not start with a NUL, and the partition must end on a 32-bit sector number. *)
Theorem mkfat_reads_back (files : list (bytes * bytes)) (part_sectors cluster_sectors : Z) (label : text)
    (img : bytes) :
  build_fat32_image (host_files files) part_sectors cluster_sectors label = Ok img ->
  label_ok label -> FAT_PART_LBA + part_sectors <= 0xFFFFFFFF ->
  (part_sectors - FAT_RESERVED) / cluster_sectors <= MAX_CLUSTERS ->
  exists v, mount (image_dev img) = Good v /\
    forall path content dst_len, (path, content) ∈ files -> len content <= dst_len ->
      exists e, vol_open (image_dev img) v path = Good e /\ read_to (image_dev img) v e dst_len = Good content.
Proof. apply mkfat_mounts. Qed.

(** ** A concrete image *)

Definition demo_files : list (bytes * bytes) :=
  [(bstr "vux9k/stage2.bin", bstr "hello"); (bstr "A.TXT", zeros 600); (bstr "VUX9K\EMPTY", [])].

Definition demo_build : res bytes := build_fat32_image (host_files demo_files) 40 1 (txt "VUX9K").
Definition demo_image : bytes := match demo_build with Ok img => img | Raise _ => [] end.

Lemma mkfat_reads_back_witness :
  exists v, mount (image_dev demo_image) = Good v /\
    forall path content dst_len, (path, content) ∈ demo_files -> len content <= dst_len ->
      exists e, vol_open (image_dev demo_image) v path = Good e /\
        read_to (image_dev demo_image) v e dst_len = Good content.
Proof.
  apply (mkfat_reads_back demo_files 40 1 (txt "VUX9K") demo_image).
  - assert (is_ok demo_build = true) as H by (lazy; reflexivity).
    unfold demo_image. fold demo_build. destruct demo_build; [reflexivity|discriminate].
  - unfold label_ok. vm_compute. discriminate.
  - vm_compute. congruence.
  - vm_compute. congruence.
Defined.
