(* ===== verification/FatWriter.v ===== *)
(** * The firmware's FAT32 writer

    firmware/fw_common/src/fat/write.rs and the directory walk of dir.rs as the writer uses it
    (where an entry lies, its long name's slots): a volume with its FAT sector cache on a card
    whose accesses may fail at any point. *)
From S2P Require Import Prelude Header Image Text FatImage FatReader.
#[local] Open Scope Z_scope.

(** ** The card and the volume *)

(** What happens to an access: it is done; it fails and nothing is written; a write is done but
    reported as failed (as when reading it back to compare fails). *)
Inductive fate := Fine | Lost | Unsure.

(** [Volume]'s parts that change, with the card ([dev]) and the accesses made so far. [fat_cached]
    is None for u32::MAX; the data buffer holds nothing from one call to the next. *)
Record vol := mkVol { card : gmap Z bytes; tick : nat; fat_buf : bytes; fat_cached : option Z; fat_dirty : bool; next_free : Z; fsinfo_done : bool }.
(** A result; [OutOfFuel] is for the loops that Rust doesn't bound. *)
Inductive out (A : Type) := Done (a : A) | Fail (e : FatError) | OutOfFuel.
Arguments Done {A}. Arguments Fail {A}. Arguments OutOfFuel {A}.
Definition wr (A : Type) : Type := vol -> out A * vol.
#[export] Instance wr_ret : MRet wr := fun _ a s => (Done a, s).
#[export] Instance wr_bind : MBind wr := fun _ _ f m s =>
  match m s with (Done a, s) => f a s | (Fail e, s) => (Fail e, s) | (OutOfFuel, s) => (OutOfFuel, s) end.
Definition throw {A} (e : FatError) : wr A := fun s => (Fail e, s).
(** A call whose Err is looked at instead of passed on. *)
Definition attempt {A} (m : wr A) : wr (A + FatError) := fun s =>
  match m s with (Done a, s) => (Done (inl a), s) | (Fail e, s) => (Done (inr e), s) | (OutOfFuel, s) => (OutOfFuel, s) end.
Definition get : wr vol := fun s => (Done s, s).
Definition set_cache (buf : bytes) (cached : option Z) (dirty : bool) : wr unit := fun s =>
  (Done tt, mkVol (card s) (tick s) buf cached dirty (next_free s) (fsinfo_done s)).
Definition set_next_free (c : Z) : wr unit := fun s => (Done tt, mkVol (card s) (tick s) (fat_buf s) (fat_cached s) (fat_dirty s) c (fsinfo_done s)).
Definition set_fsinfo_done : wr unit := fun s => (Done tt, mkVol (card s) (tick s) (fat_buf s) (fat_cached s) (fat_dirty s) (next_free s) true).

(** A directory entry and where it is. *)
Record went := mkWent { w_entry : DirEntry; w_lba : Z; w_index : Z; w_lfn_lba : Z; w_lfn_index : Z }.
Definition w_root (v : Volume) : went := mkWent (root_entry (vol_root v)) 0 0 0 0.
Definition w_cluster (e : went) : Z := e_cluster (w_entry e).
Definition w_is_dir (e : went) : bool := entry_is_dir (w_entry e).

Definition ATTR_ARCHIVE : Z := 0x20.
Definition DATE_1980 : Z := Z.lor (Z.shiftl 1 5) 1.
Definition FSINFO_LEAD : Z := 0x41615252.
Definition FSINFO_STRUCT : Z := 0x61417272.
Definition DOT : bytes := bstr ".          ".
Definition DOTDOT : bytes := bstr "..         ".
Definition REPLACE_TMP : bytes := bstr "~PUT    TMP".

(** [entry_bytes]: 32 bytes. *)
Definition entry_bytes (name : bytes) (attr first size : Z) : bytes :=
  name ++ le_split 1 attr ++ zeros 4 ++ le_split 2 DATE_1980 ++ le_split 2 DATE_1980 ++ le_split 2 (Z.shiftr first 16) ++ zeros 2
  ++ le_split 2 DATE_1980 ++ le_split 2 (Z.land first 0xFFFF) ++ le_split 4 size.
(** [checksum]: a rotation and a sum of bytes. *)
Definition checksum (name : bytes) : Z :=
  fold_left (fun sum c => (Z.lor (Z.shiftr sum 1) (Z.shiftl (Z.land sum 1) 7) + u8 c) mod 256) name 0.

Section Writer.
Variables (fates : nat -> fate) (v : Volume).

Definition ticked (s : vol) (c : gmap Z bytes) : vol := mkVol c (S (tick s)) (fat_buf s) (fat_cached s) (fat_dirty s) (next_free s) (fsinfo_done s).
(** [read] and [write_sector]: only the card's own sectors can be. *)
Definition read_at (lba : Z) : wr bytes := fun s =>
  match fates (tick s), card s !! lba with
  | Fine, Some buf => (Done buf, ticked s (card s))
  | _, _ => (Fail (Io lba), ticked s (card s))
  end.
Definition write_at (lba : Z) (buf : bytes) : wr unit := fun s =>
  match card s !! lba, fates (tick s) with
  | Some _, Fine => (Done tt, ticked s (<[lba := buf]> (card s)))
  | Some _, Unsure => (Fail (Io lba), ticked s (<[lba := buf]> (card s)))
  | _, _ => (Fail (Io lba), ticked s (card s))
  end.

(** ** The FAT *)

Definition flush_fat : wr unit :=
  s ← get;
  match fat_dirty s, fat_cached s with
  | true, Some k =>
      _ ← write_at (fat_lba v + k) (fat_buf s);
      _ ← (if num_fats v =? 2 then write_at (fat_lba v + fat_sectors v + k) (fat_buf s) else mret tt);
      set_cache (fat_buf s) (Some k) false
  | _, _ => mret tt
  end.
Definition load_fat (index : Z) : wr unit :=
  s ← get;
  if bool_decide (fat_cached s = Some index) then mret tt
  else
    _ ← flush_fat;
    s ← get;
    _ ← set_cache (fat_buf s) None (fat_dirty s);
    buf ← read_at (fat_lba v + index);
    s ← get;
    set_cache buf (Some index) (fat_dirty s).
(** An entry's place in its sector. *)
Definition fat_pos (c : Z) : Z := Z.shiftl (Z.land c 127) 2.
Definition fat_entry (c : Z) : wr Z :=
  _ ← load_fat (Z.shiftr c 7);
  s ← get;
  mret (Z.land (le32 (fat_buf s) (fat_pos c)) ENTRY_MASK).
(** [set_fat]: the top 4 bits are kept. *)
Definition put_fat (buf : bytes) (c value : Z) : bytes :=
  let at0 := fat_pos c in
  slice_assign buf at0 (at0 + 4) (le_split 4 (Z.lor (Z.land (le32 buf at0) 0xF0000000) value)).
Definition set_fat (c value : Z) : wr unit :=
  _ ← load_fat (Z.shiftr c 7);
  s ← get;
  set_cache (put_fat (fat_buf s) c value) (fat_cached s) true.
Definition w_next_cluster (c : Z) : wr (option Z) :=
  e ← fat_entry c;
  if EOC_MIN <=? e then mret None
  else if is_cluster v e then mret (Some e)
  else throw (BadChain c).

(** [begin_change]. *)
Definition begin_change : wr unit :=
  s ← get;
  if fsinfo_done s then mret tt
  else
    _ ← set_fsinfo_done;
    if (fsinfo_lba v <=? part_lba v) || (fat_lba v <=? fsinfo_lba v) then mret tt
    else
      buf ← read_at (fsinfo_lba v);
      if negb (le32 buf 0 =? FSINFO_LEAD) || negb (le32 buf 484 =? FSINFO_STRUCT) then mret tt
      else write_at (fsinfo_lba v) (slice_assign buf 488 496 (replicate 8 xff)).

(** [alloc_cluster]: a turn for each cluster. *)
Fixpoint alloc_loop (fuel : nat) (prev : option Z) (c : Z) : wr Z :=
  match fuel with
  | O => throw DiskFull
  | S fuel =>
      let c := if cluster_end v <=? c then 2 else c in
      e ← fat_entry c;
      if e =? 0 then
        _ ← set_fat c ENTRY_MASK;
        _ ← (match prev with Some p => set_fat p c | None => mret tt end);
        _ ← set_next_free (c + 1);
        mret c
      else alloc_loop fuel prev (c + 1)
  end.
Definition alloc_cluster (prev : option Z) : wr Z :=
  s ← get; alloc_loop (Z.to_nat (cluster_end v - 2)) prev (next_free s).
(** [free_chain]: the loop comes to a freed cluster at the latest after all of them. *)
Fixpoint free_loop (fuel : nat) (c : Z) : wr unit :=
  match fuel with
  | O => fun s => (OutOfFuel, s)
  | S fuel =>
      if negb (is_cluster v c) then throw (BadChain c)
      else
        next ← fat_entry c;
        _ ← set_fat c 0;
        if EOC_MIN <=? next then flush_fat else free_loop fuel next
  end.
Definition free_chain (first : Z) : wr unit := free_loop (Z.to_nat (cluster_end v)) first.

(** ** Directories *)

(** [walk_slots]: the closure's state is threaded through [f], which says whether to stop. *)
Section Walk.
Context {S : Type}.
Variable f : S -> Z -> Z -> bytes -> S * bool.
Fixpoint w_entries (acc : S) (lba i : Z) (slots : list bytes) : S * option (Z * Z) :=
  match slots with
  | [] => (acc, None)
  | e :: slots => let '(acc, stop) := f acc lba i e in if stop then (acc, Some (lba, i)) else w_entries acc lba (i + 1) slots
  end.
Fixpoint w_sectors (n : nat) (acc : S) (lba : Z) : wr (S * option (Z * Z)) :=
  match n with
  | O => mret (acc, None)
  | Datatypes.S n =>
      buf ← read_at lba;
      let '(acc, r) := w_entries acc lba 0 (chunks ENTRY buf) in
      match r with Some at0 => mret (acc, Some at0) | None => w_sectors n acc (lba + 1) end
  end.
Fixpoint w_slots (fuel : nat) (acc : S) (c : Z) : wr (S * ((Z * Z) + Z)) :=
  match fuel with
  | O => throw (BadChain c)
  | Datatypes.S fuel =>
      if negb (is_cluster v c) then throw (BadChain c)
      else
        '(acc, r) ← w_sectors (Z.to_nat (Z.shiftl 1 (cluster_shift v))) acc (cluster_lba v c);
        match r with
        | Some at0 => mret (acc, inl at0)
        | None =>
            n ← w_next_cluster c;
            match n with Some next => w_slots fuel acc next | None => mret (acc, inr c) end
        end
  end.
Definition w_walk (acc : S) (first : Z) : wr (S * ((Z * Z) + Z)) := w_slots (Z.to_nat (cluster_end v)) acc first.
End Walk.

(** [find_entry]: the long-name run before the next entry (where it starts, its checksum), and
    what was found. *)
Definition find_step (f : went -> bool) (acc : option (Z * Z * Z) * option went) (lba i : Z) (e : bytes) : (option (Z * Z * Z) * option went) * bool :=
  let '(lfn, found) := acc in
  if at_byte e 0 =? 0 then (acc, true)
  else if at_byte e 0 =? DELETED then ((None, found), false)
  else if at_byte e 11 =? ATTR_LFN then
    let other := match lfn with Some (_, _, sum) => negb (sum =? at_byte e 13) | None => true end in
    if negb (Z.land (at_byte e 0) 0x40 =? 0) || other then ((Some (lba, i, at_byte e 13), found), false) else (acc, false)
  else
    let run := match lfn with Some (l, k, sum) => if sum =? checksum (take 11 e) then Some (l, k) else None | None => None end in
    if negb (Z.land (at_byte e 11) ATTR_VOLUME =? 0) then ((None, found), false)
    else
      let '(l, k) := default (lba, i) run in
      let entry := mkWent (parse_entry e) lba i l k in
      if f entry then ((None, Some entry), true) else ((None, found), false).
Definition w_find_entry (dir : went) (f : went -> bool) : wr (option went) :=
  if negb (w_is_dir dir) then throw WrongType
  else '(acc, _) ← w_walk (find_step f) (None, None) (w_cluster dir); mret (snd acc).
Definition w_find (dir : went) (name : bytes) : wr (option went) := w_find_entry dir (fun e => bool_decide (e_name (w_entry e) = name)).

(** [next_slot] and [delete_slots]. *)
Definition next_slot (lba index : Z) : wr (Z * Z) :=
  if index + 1 <? SECTOR / ENTRY then mret (lba, index + 1)
  else
    let rel := lba - data_lba v in
    if negb (Z.land (rel + 1) (Z.shiftl 1 (cluster_shift v) - 1) =? 0) then mret (lba + 1, 0)
    else
      let c := Z.shiftr rel (cluster_shift v) + 2 in
      n ← w_next_cluster c;
      match n with Some next => mret (cluster_lba v next, 0) | None => throw (BadChain c) end.
Fixpoint delete_loop (fuel : nat) (entry : went) (keep : bool) (lba index : Z) : wr unit :=
  match fuel with
  | O => fun s => (OutOfFuel, s)
  | S fuel =>
      let last := (lba =? w_lba entry) && (index =? w_index entry) in
      if last && keep then mret tt
      else
        buf ← read_at lba;
        _ ← write_at lba (slice_assign buf (index * ENTRY) (index * ENTRY + 1) (le_split 1 DELETED));
        if last then mret tt
        else '(lba, index) ← next_slot lba index; delete_loop fuel entry keep lba index
  end.
(** A turn for each slot of the volume. *)
Definition delete_slots (entry : went) (keep : bool) : wr unit :=
  delete_loop (Z.to_nat (Z.shiftl (cluster_end v * (SECTOR / ENTRY)) (cluster_shift v))) entry keep (w_lfn_lba entry) (w_lfn_index entry).

(** [free_slot]. *)
Definition is_free (_ : unit) (_ _ : Z) (e : bytes) : unit * bool := (tt, (at_byte e 0 =? 0) || (at_byte e 0 =? DELETED)).
Fixpoint zero_sectors (n : nat) (lba : Z) : wr unit :=
  match n with O => mret tt | S n => _ ← write_at lba (zeros SECTOR); zero_sectors n (lba + 1) end.
Definition free_slot (dir : went) : wr (Z * Z) :=
  '(_, r) ← w_walk is_free tt (w_cluster dir);
  match r with
  | inl slot => mret slot
  | inr last =>
      new ← alloc_cluster (Some last);
      let lba := cluster_lba v new in
      _ ← zero_sectors (Z.to_nat (Z.shiftl 1 (cluster_shift v))) lba;
      _ ← flush_fat;
      mret (lba, 0)
  end.
(** [write_entry]. *)
Definition write_entry (lba index : Z) (raw : bytes) : wr unit :=
  buf ← read_at lba;
  write_at lba (slice_assign buf (index * ENTRY) (index * ENTRY + ENTRY) raw).

(** ** Files *)

(** [write_chain]: the sectors of a cluster, the last one padded; and the clusters, with the
    first one taken, whatever comes of the rest. *)
Fixpoint write_sectors (lba : Z) (chs : list bytes) : wr unit :=
  match chs with [] => mret tt | ch :: chs => _ ← write_at lba (ljust ch SECTOR x00); write_sectors (lba + 1) chs end.
Fixpoint write_clusters (prev : option Z) (first : Z) (cls : list bytes) : vol -> out Z * Z * vol := fun s =>
  match cls with
  | [] => (Done first, first, s)
  | cluster :: cls =>
      match alloc_cluster prev s with
      | (Done c, s) =>
          let first := if first =? 0 then c else first in
          match write_sectors (cluster_lba v c) (chunks SECTOR cluster) s with
          | (Done _, s) => write_clusters (Some c) first cls s
          | (Fail e, s) => (Fail e, first, s)
          | (OutOfFuel, s) => (OutOfFuel, first, s)
          end
      | (Fail e, s) => (Fail e, first, s)
      | (OutOfFuel, s) => (OutOfFuel, first, s)
      end
  end.
(** Giving the clusters back, whatever comes of it. *)
Definition give_back (first : Z) : wr unit := if first =? 0 then mret tt else _ ← attempt (free_chain first); mret tt.
Definition write_chain (data : bytes) : wr Z := fun s =>
  match write_clusters None 0 (chunks (Z.shiftl SECTOR (cluster_shift v)) data) s with
  | (Done _, first, s) => (r ← attempt flush_fat; match r with inl _ => mret first | inr e => _ ← give_back first; throw e end) s
  | (Fail e, first, s) => (_ ← give_back first; throw e) s
  | (OutOfFuel, _, s) => (OutOfFuel, s)
  end.

Definition create (dir : went) (name data : bytes) : wr went :=
  found ← w_find dir name;
  match found with
  | Some _ => throw FileExists
  | None =>
      _ ← begin_change;
      first ← write_chain data;
      r ← attempt (free_slot dir);
      match r with
      | inr e => _ ← give_back first; throw e
      | inl (lba, index) =>
          let size := len data mod 2 ^ 32 in
          _ ← write_entry lba index (entry_bytes name ATTR_ARCHIVE first size);
          mret (mkWent (mkEntry name ATTR_ARCHIVE first size) lba index lba index)
      end
  end.

Definition rename (dir entry : went) (name : bytes) : wr unit :=
  if w_is_dir entry then throw WrongType
  else
    found ← w_find dir name;
    match found with
    | Some _ => throw FileExists
    | None =>
        _ ← begin_change;
        _ ← delete_slots entry true;
        buf ← read_at (w_lba entry);
        let at0 := w_index entry * ENTRY in
        write_at (w_lba entry) (slice_assign buf at0 (at0 + 11) name)
    end.
Definition remove (entry : went) : wr unit :=
  if w_is_dir entry then throw WrongType
  else
    _ ← begin_change;
    _ ← delete_slots entry false;
    if w_cluster entry =? 0 then mret tt else free_chain (w_cluster entry).

(** ** Directories made and removed, files replaced and moved *)

Definition dir_sector (c up : Z) : bytes :=
  entry_bytes DOT ATTR_DIR c 0 ++ entry_bytes DOTDOT ATTR_DIR up 0 ++ zeros (SECTOR - 2 * ENTRY).
Definition mkdir (parent : went) (name : bytes) : wr went :=
  if negb (w_is_dir parent) then throw WrongType
  else
    found ← w_find parent name;
    match found with
    | Some _ => throw FileExists
    | None =>
        _ ← begin_change;
        c ← alloc_cluster None;
        let up := if w_cluster parent =? vol_root v then 0 else w_cluster parent in
        r ← attempt (
          let lba := cluster_lba v c in
          _ ← zero_sectors (Z.to_nat (Z.shiftl 1 (cluster_shift v) - 1)) (lba + 1);
          _ ← write_at lba (dir_sector c up);
          _ ← flush_fat;
          '(lba, index) ← free_slot parent;
          _ ← write_entry lba index (entry_bytes name ATTR_DIR c 0);
          mret (lba, index));
        match r with
        | inl (lba, index) => mret (mkWent (mkEntry name ATTR_DIR c 0) lba index lba index)
        | inr e => _ ← attempt (free_chain c); throw e
        end
    end.
Definition rmdir (entry : went) : wr unit :=
  if negb (w_is_dir entry) then throw WrongType
  else if (w_lba entry =? 0) || (at_byte (e_name (w_entry entry)) 0 =? 46) then throw BadName
  else
    found ← w_find_entry entry (fun e => negb (bool_decide (e_name (w_entry e) = DOT)) && negb (bool_decide (e_name (w_entry e) = DOTDOT)));
    match found with
    | Some _ => throw NotEmpty
    | None => _ ← begin_change; _ ← delete_slots entry false; free_chain (w_cluster entry)
    end.
Definition with_name (e : went) (name : bytes) (lba index lfn_lba lfn_index : Z) : went :=
  mkWent (mkEntry name (e_attr (w_entry e)) (w_cluster e) (e_size (w_entry e))) lba index lfn_lba lfn_index.
Definition replace (dir : went) (name data : bytes) : wr went :=
  found ← w_find dir name;
  if match found with Some e => w_is_dir e | None => false end then throw WrongType
  else
    stale ← w_find dir REPLACE_TMP;
    _ ← (match stale with Some e => remove e | None => mret tt end);
    if bool_decide (name = REPLACE_TMP) then create dir name data
    else
      new ← create dir REPLACE_TMP data;
      old ← w_find dir name;
      _ ← (match old with Some e => remove e | None => mret tt end);
      _ ← rename dir new name;
      mret (with_name new name (w_lba new) (w_index new) (w_lfn_lba new) (w_lfn_index new)).
Definition move_to (src_dir entry dst_dir : went) (name : bytes) : wr went :=
  if w_is_dir entry || negb (w_is_dir dst_dir) then throw WrongType
  else if w_cluster src_dir =? w_cluster dst_dir then
    _ ← rename src_dir entry name; mret (with_name entry name (w_lba entry) (w_index entry) (w_lba entry) (w_index entry))
  else
    found ← w_find dst_dir name;
    match found with
    | Some _ => throw FileExists
    | None =>
        _ ← begin_change;
        buf ← read_at (w_lba entry);
        let at0 := w_index entry * ENTRY in
        let raw := name ++ slice buf (at0 + 11) (at0 + ENTRY) in
        '(lba, index) ← free_slot dst_dir;
        _ ← write_entry lba index raw;
        _ ← delete_slots entry false;
        mret (with_name entry name lba index lba index)
    end.

(** [free_clusters]: a FAT sector at a time. *)
Definition free_in (buf : bytes) (c n : Z) : Z :=
  len (List.filter (fun e => Z.lor (Z.lor (at_byte e 0) (at_byte e 1)) (Z.lor (at_byte e 2) (Z.land (at_byte e 3) 0x0F)) =? 0)
    (chunks 4 (slice buf (fat_pos c) (fat_pos c + Z.shiftl n 2)))).
Fixpoint free_count (fuel : nat) (c n : Z) : wr Z :=
  match fuel with
  | O => fun s => (OutOfFuel, s)
  | S fuel =>
      if c <? cluster_end v then
        _ ← load_fat (Z.shiftr c 7);
        s ← get;
        let end_ := Z.min (Z.lor c 127 + 1) (cluster_end v) in
        free_count fuel end_ (n + free_in (fat_buf s) c (end_ - c))
      else mret n
  end.
Definition free_clusters : wr Z := free_count (Z.to_nat (cluster_end v)) 2 0.

End Writer.
