(* ===== verification/FatSafe.v ===== *)
(** * Writing to a card keeps what is on it

    FatWriter.v's [create], whatever happens to its accesses: what the reader of FatReader.v
    finds on the card afterwards. *)
From S2P Require Import Prelude Header Image Text FatImage FatReader FatRead FatWriter.
#[local] Open Scope Z_scope.

(** ** A FAT entry in its sector *)

Definition entry_in (buf : bytes) (c : Z) : Z := Z.land (le32 buf (fat_pos c)) ENTRY_MASK.

Lemma fat_pos_eq c : fat_pos c = 4 * (c mod 128).
Proof. unfold fat_pos. rewrite (land_mask c 7), shiftl_mul by lia. change (2 ^ 7) with 128. change (2 ^ 2) with 4. lia. Qed.
Lemma fat_pos_range c : 0 <= fat_pos c /\ fat_pos c + 4 <= 512.
Proof. rewrite fat_pos_eq. pose proof (Z.mod_pos_bound c 128 ltac:(lia)). lia. Qed.
Lemma len_split4 x : len (le_split 4 x) = 4. Proof. apply len_le_split. Qed.
Lemma len_put_fat buf c x : len buf = 512 -> len (put_fat buf c x) = 512.
Proof. intros H. pose proof (fat_pos_range c). unfold put_fat. rewrite <- (len_split4 (Z.lor (Z.land (le32 buf (fat_pos c)) 0xF0000000) x)) at 1. rewrite len_slice_assign; rewrite ?len_split4; lia. Qed.
Lemma put_fat_same buf c x : len buf = 512 -> 0 <= x < 2 ^ 28 -> entry_in (put_fat buf c x) c = x.
Proof.
  intros H Hx. pose proof (fat_pos_range c) as Hp. unfold entry_in, le32. rewrite fw_le32_unpack by (rewrite ?len_put_fat; lia). unfold unpack_uint, put_fat. change (Z.of_nat 4) with 4.
  set (w := Z.lor _ _). replace (fat_pos c + 4) with (fat_pos c + len (le_split 4 w)) by (rewrite len_split4; lia).
  rewrite slice_assign_same by lia. set (hi := Z.land (le32 buf (fat_pos c)) 0xF0000000) in *.
  assert (Hhi : 0 <= hi < 2 ^ 32 /\ Z.land hi ENTRY_MASK = 0).
  { unfold hi. split; [|rewrite <- Z.land_assoc; by rewrite Z.land_0_r].
    assert (0 <= Z.land (le32 buf (fat_pos c)) 0xF0000000) by (apply Z.land_nonneg; right; lia). split; [done|].
    apply Z.log2_lt_cancel. eapply Z.le_lt_trans; [apply Z.log2_land; [|lia]|].
    - unfold le32. rewrite fw_le32_unpack by lia. apply le_combine_range.
    - eapply Z.le_lt_trans; [apply Z.le_min_r|]. reflexivity. }
  assert (Hw : 0 <= w < 2 ^ 32).
  { unfold w. split; [apply Z.lor_nonneg; lia|]. destruct (Z.eq_dec (Z.lor hi x) 0) as [->|]; [lia|]. apply Z.log2_lt_cancel. rewrite Z.log2_lor by lia. change (Z.log2 (2 ^ 32)) with 32.
    destruct (Z.eq_dec hi 0) as [->|]; destruct (Z.eq_dec x 0) as [->|]; change (Z.log2 0) with 0; try lia.
    - enough (Z.log2 x < 32) by lia. apply Z.log2_lt_pow2; lia.
    - enough (Z.log2 hi < 32) by lia. apply Z.log2_lt_pow2; lia.
    - enough (Z.log2 hi < 32 /\ Z.log2 x < 32) by lia. split; apply Z.log2_lt_pow2; lia. }
  rewrite le_combine_split_in by (change (Z.of_nat 4 * 8) with 32; lia). unfold w. rewrite Z.land_lor_distr_l. destruct Hhi as [_ ->]. rewrite Z.lor_0_l. unfold ENTRY_MASK. rewrite (land_mask x 28) by lia. by rewrite Z.mod_small by lia.
Qed.
Lemma put_fat_other buf c c' x : len buf = 512 -> c mod 128 <> c' mod 128 -> entry_in (put_fat buf c x) c' = entry_in buf c'.
Proof.
  intros H Hne. pose proof (fat_pos_range c) as Hp. pose proof (fat_pos_range c') as Hp'. unfold entry_in, le32. rewrite !fw_le32_unpack by (rewrite ?len_put_fat; lia). unfold unpack_uint, put_fat. change (Z.of_nat 4) with 4.
  set (w := Z.lor _ _). replace (fat_pos c + 4) with (fat_pos c + len (le_split 4 w)) by (rewrite len_split4; lia). rewrite !fat_pos_eq in *.
  do 2 f_equal. destruct (Z.lt_ge_cases (c' mod 128) (c mod 128)).
  - apply slice_assign_below; lia.
  - apply slice_assign_above; rewrite ?len_split4; lia.
Qed.
Lemma entry_range buf c : 0 <= entry_in buf c < 2 ^ 28.
Proof. unfold entry_in, ENTRY_MASK. rewrite (land_mask _ 28) by lia. apply Z.mod_pos_bound. lia. Qed.

Section Filter.
Context {A : Type} (P Q : A -> Prop) `{forall x, Decision (P x), forall x, Decision (Q x)}.
Lemma filter_le (l : list A) : (forall y, y ∈ l -> Q y -> P y) -> (length (filter Q l) <= length (filter P l))%nat.
Proof.
  induction l as [|y l IH]; intros Hpq; [done|]. rewrite !filter_cons. specialize (IH ltac:(intros; apply Hpq; [by right|done])). destruct (decide (Q y)) as [Hy|].
  - rewrite decide_True by (apply Hpq; [by left|done]). cbn. lia.
  - destruct (decide (P y)); cbn; lia.
Qed.
Lemma filter_strict (l : list A) x : (forall y, y ∈ l -> Q y -> P y) -> x ∈ l -> P x -> ~ Q x -> (length (filter Q l) < length (filter P l))%nat.
Proof.
  intros Hpq Hx Hp Hq. apply list_elem_of_split in Hx as (l1 & l2 & ->). rewrite !filter_app, !length_app, !filter_cons, (decide_True _ _ Hp), (decide_False _ _ Hq). cbn.
  assert (length (filter Q l1) <= length (filter P l1))%nat by (apply filter_le; intros; apply Hpq; [apply elem_of_app; by left|done]).
  assert (length (filter Q l2) <= length (filter P l2))%nat by (apply filter_le; intros; apply Hpq; [apply elem_of_app; right; by right|done]). lia.
Qed.
End Filter.

(** ** The volume on a card *)

Definition dev_of (m : gmap Z bytes) : Z -> option bytes := fun lba => m !! lba.

(** What [mount] makes sure of. *)
Record geometry (v : Volume) : Prop := {
  g_shift : 0 <= cluster_shift v;
  g_fats : num_fats v = 1 \/ num_fats v = 2;
  g_part : 0 <= part_lba v < fat_lba v;
  g_data : data_lba v = fat_lba v + fat_sectors v * num_fats v;
  g_end : cluster_end v <= 128 * fat_sectors v;
  g_max : cluster_end v < EOC_MIN;
  g_root : is_cluster v (vol_root v) = true
}.
Lemma le16_nonneg b i : 0 <= le16 b i.
Proof. unfold le16, Fw.le16. pose proof (byte.unsigned_range (nth (Z.to_nat (i + 0)) b x00)). pose proof (byte.unsigned_range (nth (Z.to_nat (i + 1)) b x00)). lia. Qed.
Lemma le32_nonneg b i : 0 <= le32 b i.
Proof.
  unfold le32, Fw.le32. pose proof (byte.unsigned_range (nth (Z.to_nat (i + 0)) b x00)). pose proof (byte.unsigned_range (nth (Z.to_nat (i + 1)) b x00)).
  pose proof (byte.unsigned_range (nth (Z.to_nat (i + 2)) b x00)). pose proof (byte.unsigned_range (nth (Z.to_nat (i + 3)) b x00)). lia.
Qed.
Lemma mount_boot_geometry plba buf v : 0 <= plba -> mount_boot plba buf = Good v -> geometry v /\ part_lba v = plba.
Proof.
  intros Hp. unfold mount_boot. destruct (negb (has_signature buf)); [done|]. destruct (_ || _); [done|].
  pose proof (le16_nonneg buf 14) as H14. pose proof (le32_nonneg buf 36) as H36. pose proof (le32_nonneg buf 44).
  set (nf := at_byte buf 16). set (fs := le32 buf 36) in *. set (rs := le16 buf 14) in *. set (total := if le16 buf 19 =? 0 then _ else _). set (sh := Z.log2 (at_byte buf 13)).
  destruct (negb (le16 buf 11 =? SECTOR) || _ || _ || negb _ || _) eqn:E; [done|]. rewrite !orb_false_iff, !negb_false_iff, andb_true_iff, !Z.leb_le, !Z.eqb_neq in E. destruct E as ((((_ & _) & Hrs) & Hnf1 & Hnf2) & Hfs).
  assert (Hnf : nf = 1 \/ nf = 2) by lia. assert (Hmeta : Z.shiftl fs (nf - 1) = fs * nf) by (rewrite shiftl_mul by lia; destruct Hnf as [-> | ->]; lia). rewrite Hmeta.
  destruct (total <=? rs + fs * nf) eqn:Et; [done|]. set (cl := Z.shiftr (total - (rs + fs * nf)) sh). destruct ((MAX_CLUSTERS <? cl) || _) eqn:E1; [done|]. destruct ((Z.shiftl fs 7 <? cl + 2) || _) eqn:E2; [done|].
  apply orb_false_iff in E1 as [E1 _]. apply orb_false_iff in E2 as [E2 _]. rewrite (shiftl_mul fs 7) in E2 by lia. change (2 ^ 7) with 128 in E2. unfold MAX_CLUSTERS, EOC_MIN in *.
  destruct (negb (is_cluster _ _)) eqn:Er; [done|]. apply negb_false_iff in Er. intros [= <-]. split; [|done].
  split; cbn [cluster_shift num_fats part_lba fat_lba data_lba fat_sectors cluster_end vol_root]; try done; unfold EOC_MIN; try lia. apply Z.log2_nonneg.
Qed.
Lemma mount_geometry dev v : mount dev = Good v -> geometry v.
Proof.
  unfold mount, read. destruct (dev 0) as [buf|]; [|done]. cbn [mbind fres_bind]. destruct (negb _); [done|]. destruct (_ =? 0); [done|]. destruct (_ || _); [|done].
  pose proof (le32_nonneg buf (446 + 8)). destruct (dev (le32 buf (446 + 8))) as [b|]; [|done]. cbn [mbind fres_bind]. intros Hm. by apply mount_boot_geometry in Hm as [? _].
Qed.
(** It reads no sector past the partition's first. *)
Lemma mount_head dev dev' v : mount dev = Good v -> (forall l, 0 <= l <= part_lba v -> dev' l = dev l) -> mount dev' = Good v.
Proof.
  unfold mount, read. destruct (dev 0) as [buf|] eqn:E0; [|done]. cbn [mbind fres_bind]. destruct (negb (has_signature buf)) eqn:Es; [done|]. destruct (_ =? 0) eqn:Et; [done|]. destruct (_ || _) eqn:Ek; [|done].
  pose proof (le32_nonneg buf (446 + 8)) as Hp. destruct (dev (le32 buf (446 + 8))) as [b|] eqn:E1; [|done]. cbn [mbind fres_bind]. intros Hm Hh.
  pose proof (mount_boot_geometry _ _ _ Hp Hm) as [_ Hl]. rewrite (Hh 0), E0 by lia. cbn [mbind fres_bind]. rewrite Es, Et, Ek, Hh, E1 by lia. done.
Qed.

Section Safe.
Variables (fates : nat -> fate) (v : Volume).
Hypothesis Hg : geometry v.

(** Sectors in a cluster. *)
Definition spc : Z := 2 ^ cluster_shift v.
Lemma spc_pos : 0 < spc.
Proof. apply Z.pow_pos_nonneg; [lia|]. apply (g_shift _ Hg). Qed.
Lemma cluster_lba_eq c : cluster_lba v c = data_lba v + (c - 2) * spc.
Proof. unfold cluster_lba. rewrite shiftl_mul; [done|apply (g_shift _ Hg)]. Qed.
Lemma sectors_spc : Z.of_nat (Z.to_nat (Z.shiftl 1 (cluster_shift v))) = spc.
Proof. rewrite Z.shiftl_1_l. pose proof spc_pos. unfold spc in *. lia. Qed.
Lemma cluster_range c : is_cluster v c = true <-> 2 <= c < cluster_end v.
Proof. unfold is_cluster. lia. Qed.
Lemma fat_index c : is_cluster v c = true -> 0 <= c / 128 < fat_sectors v.
Proof. rewrite cluster_range. pose proof (g_end _ Hg). split; [apply Z.div_pos; lia|apply Z.div_lt_upper_bound; lia]. Qed.
Lemma fat_sectors_pos : 0 < fat_sectors v.
Proof. pose proof (fat_index _ (g_root _ Hg)). lia. Qed.
Lemma shift7 c : Z.shiftr c 7 = c / 128.
Proof. by rewrite shiftr_div. Qed.
(** Sectors of different clusters are different, and no sector of the FAT. *)
Lemma cluster_sector_inj c i c' i' : 0 <= i < spc -> 0 <= i' < spc -> cluster_lba v c + i = cluster_lba v c' + i' -> c = c' /\ i = i'.
Proof. rewrite !cluster_lba_eq. intros Hi Hi' E. assert (c = c') by nia. subst. split; [done|lia]. Qed.
Lemma data_above c i : is_cluster v c = true -> 0 <= i -> data_lba v <= cluster_lba v c + i.
Proof. rewrite cluster_range, cluster_lba_eq. pose proof spc_pos. nia. Qed.
Lemma fat_below k : 0 <= k < fat_sectors v -> fat_lba v <= fat_lba v + k < data_lba v.
Proof. intros. rewrite (g_data _ Hg). destruct (g_fats _ Hg) as [-> | ->]; lia. Qed.

(** The FAT on the card, and as the volume sees it with the sector it keeps. *)
Definition fat_of (m : gmap Z bytes) (c : Z) : option Z := (fun b => entry_in b c) <$> m !! (fat_lba v + c / 128).
Definition lfat (s : vol) (c : Z) : option Z :=
  if bool_decide (fat_cached s = Some (c / 128)) then Some (entry_in (fat_buf s) c) else fat_of (card s) c.
Lemma reader_fat m c : vol_fat_entry (dev_of m) v c = match fat_of m c with Some e => Good e | None => Bad (Io (fat_lba v + c / 128)) end.
Proof. unfold vol_fat_entry, read, dev_of, fat_of. rewrite shift7. by destruct (m !! _). Qed.
Lemma fat_of_range m c e : fat_of m c = Some e -> 0 <= e < 2 ^ 28.
Proof. unfold fat_of. destruct (m !! _); [|done]. intros [= <-]. apply entry_range. Qed.

(** A card: whole sectors, the volume's FAT and clusters all there. *)
Record sound (m : gmap Z bytes) : Prop := {
  sound_len l b : m !! l = Some b -> len b = 512;
  sound_there l : fat_lba v <= l < data_lba v + (cluster_end v - 2) * spc -> is_Some (m !! l)
}.
Lemma data_end : data_lba v <= data_lba v + (cluster_end v - 2) * spc.
Proof. pose proof (proj1 (cluster_range _) (g_root _ Hg)). pose proof spc_pos. nia. Qed.
Lemma sound_fat m k : sound m -> 0 <= k < fat_sectors v -> is_Some (m !! (fat_lba v + k)).
Proof. intros [_ H] Hk. apply H. pose proof (fat_below k Hk). pose proof data_end. lia. Qed.
Lemma sound_data m c i : sound m -> is_cluster v c = true -> 0 <= i < spc -> is_Some (m !! (cluster_lba v c + i)).
Proof.
  intros [_ H] Hc Hi. apply H. pose proof (data_above c i Hc ltac:(lia)). pose proof (fat_below 0 ltac:(pose proof fat_sectors_pos; lia)). apply cluster_range in Hc. rewrite cluster_lba_eq in *. nia.
Qed.
(** The clusters in use. *)
Definition used (m : gmap Z bytes) (c : Z) : Prop := is_cluster v c = true /\ exists e, fat_of m c = Some e /\ e <> 0.

(** The cache is of the card's FAT. *)
Record coherent (s : vol) : Prop := {
  co_cache k : fat_cached s = Some k -> 0 <= k < fat_sectors v /\ len (fat_buf s) = 512 /\ (fat_dirty s = false -> card s !! (fat_lba v + k) = Some (fat_buf s));
  co_dirty : fat_cached s = None -> fat_dirty s = false
}.
(** Nothing that [m0] uses has changed, on the card or in the FAT; what it doesn't use leads to
    nothing that it does. *)
Record inv (m0 : gmap Z bytes) (s : vol) : Prop := {
  i_sound : sound (card s);
  i_coherent : coherent s;
  i_head l : l <= part_lba v -> card s !! l = m0 !! l;
  i_data c i : used m0 c -> 0 <= i < spc -> card s !! (cluster_lba v c + i) = m0 !! (cluster_lba v c + i);
  i_fat c : used m0 c -> fat_of (card s) c = fat_of m0 c;
  i_log c : used m0 c -> lfat s c = fat_of m0 c;
  i_closed c e : is_cluster v c = true -> ~ used m0 c -> lfat s c = Some e -> is_cluster v e = true -> ~ used m0 e;
  i_next : 2 <= next_free s
}.
(** A step that changes nothing but the cache and the FAT's sectors, and not what it says. *)
Record quiet (s s' : vol) : Prop := {
  q_log c : is_cluster v c = true -> lfat s' c = lfat s c;
  q_data l : l < fat_lba v \/ data_lba v <= l -> card s' !! l = card s !! l;
  q_dom l : is_Some (card s' !! l) <-> is_Some (card s !! l);
  q_next : next_free s' = next_free s
}.
#[local] Instance quiet_refl : Reflexive quiet.
Proof. by split. Qed.
#[local] Instance quiet_trans : Transitive quiet.
Proof.
  intros a b c [A1 A2 A3 A4] [B1 B2 B3 B4]. split; [intros; by rewrite B1, A1|intros; by rewrite B2, A2|intros; by rewrite B3, A3|congruence].
Qed.

(** ** The cache *)

Lemma write_cases lba buf s : exists r s', write_at fates lba buf s = (r, s') /\
  ((s' = ticked s (card s) /\ exists e, r = Fail e) \/ (is_Some (card s !! lba) /\ s' = ticked s (<[lba := buf]> (card s)) /\ (r = Done tt \/ exists e, r = Fail e))).
Proof.
  unfold write_at. destruct (card s !! lba) as [b|].
  - destruct (fates (tick s)); (eexists _, _; split; [reflexivity|]).
    + right. split; [by eexists|]. split; [done|by left].
    + left. split; [done|by eexists].
    + right. split; [by eexists|]. split; [done|right; by eexists].
  - eexists _, _. split; [reflexivity|]. left. split; [done|by eexists].
Qed.
Lemma lfat_ticked s m c : fat_cached s = Some (c / 128) -> lfat (ticked s m) c = lfat s c.
Proof. intros H. unfold lfat. cbn [ticked fat_cached fat_buf]. by rewrite !bool_decide_true. Qed.
Lemma fat_of_other m l b c : l <> fat_lba v + c / 128 -> fat_of (<[l := b]> m) c = fat_of m c.
Proof. intros H. unfold fat_of. by rewrite lookup_insert_ne. Qed.
Lemma fat_of_same m b c : fat_of (<[fat_lba v + c / 128 := b]> m) c = Some (entry_in b c).
Proof. unfold fat_of. by rewrite lookup_insert_eq. Qed.
Lemma used_cluster m c : used m c -> is_cluster v c = true. Proof. by intros [? _]. Qed.
#[local] Hint Resolve used_cluster : core.
Lemma is_Some_insert (m : gmap Z bytes) l b l' : is_Some (m !! l) -> is_Some (<[l := b]> m !! l') <-> is_Some (m !! l').
Proof. intros H. destruct (decide (l = l')) as [->|]; [rewrite lookup_insert_eq; by split; [|intros _; eexists]|by rewrite lookup_insert_ne]. Qed.
Lemma sound_insert m l b : sound m -> len b = 512 -> is_Some (m !! l) -> sound (<[l := b]> m).
Proof.
  intros [H1 H2] Hb Hl. split.
  - intros l' b' H. destruct (decide (l = l')) as [->|]; [rewrite lookup_insert_eq in H; by injection H as <-|rewrite lookup_insert_ne in H by done; by apply H1 in H].
  - intros k Hk. apply is_Some_insert; [done|by apply H2].
Qed.

(** Writing the cached sector to a copy of the FAT. *)
Lemma flush_write m0 s k l : inv m0 s -> fat_cached s = Some k -> fat_dirty s = true -> is_Some (card s !! l) ->
  l = fat_lba v + k \/ fat_lba v + fat_sectors v <= l < data_lba v ->
  let s' := ticked s (<[l := fat_buf s]> (card s)) in inv m0 s' /\ quiet s s'.
Proof.
  intros H Hk Hd Hl Hw s'. destruct (co_cache _ (i_coherent _ _ H) k Hk) as (Hkr & Hlen & _). pose proof (fat_below k Hkr) as Hb.
  assert (Hlog : forall c, is_cluster v c = true -> lfat s' c = lfat s c).
  { intros c Hc. destruct (decide (k = c / 128)) as [->|Hne]; [by apply lfat_ticked|]. unfold lfat. cbn [s' ticked fat_cached fat_buf card]. rewrite Hk.
    rewrite !bool_decide_false by congruence. apply fat_of_other. pose proof (fat_index c Hc). destruct Hw as [-> | Hw]; lia. }
  assert (Hout : fat_lba v <= l < data_lba v) by (pose proof fat_sectors_pos; destruct Hw as [-> | Hw]; lia).
  split; [|split; [done| |intros l'; by apply is_Some_insert|done]].
  - split; cbn [s' ticked card next_free].
    + by apply sound_insert; [apply (i_sound _ _ H)| |].
    + split; cbn [s' ticked fat_cached fat_buf fat_dirty card]; [|intros Hn; exfalso; change (fat_cached s = None) in Hn; congruence]. intros k' Hk'. rewrite Hk in Hk'. injection Hk' as <-. split; [done|]. split; [done|]. congruence.
    + intros l' Hl'. pose proof (g_part _ Hg). rewrite lookup_insert_ne by lia. by apply (i_head _ _ H).
    + intros c i Hc Hi. pose proof (data_above c i (used_cluster _ _ Hc) ltac:(lia)). rewrite lookup_insert_ne by lia. by apply (i_data _ _ H).
    + intros c Hc. destruct (decide (l = fat_lba v + c / 128)) as [->|Hne]; [|rewrite fat_of_other by done; by apply (i_fat _ _ H)].
      rewrite fat_of_same. pose proof (fat_index c (used_cluster _ _ Hc)). assert (k = c / 128) as -> by (destruct Hw; lia). rewrite <- (i_log _ _ H c Hc). unfold lfat. by rewrite bool_decide_true.
    + intros c Hc. rewrite Hlog by eauto. by apply (i_log _ _ H).
    + intros c e Hc Hn He. rewrite Hlog in He by auto. by apply (i_closed _ _ H c e).
    + apply (i_next _ _ H).
  - intros l' Hl'. cbn [s' ticked card]. rewrite lookup_insert_ne by lia. done.
Qed.
Lemma inv_ticked m0 s : inv m0 s -> inv m0 (ticked s (card s)) /\ quiet s (ticked s (card s)).
Proof. intros [A [B1 B2] C D E F G K]. split; [split; try done; by split|by split]. Qed.

(** A call ends and leaves the invariant, whatever comes of it; and says something of a result. *)
Definition keeping {A} (I : vol -> Prop) (m : wr A) (s : vol) (Q : A -> vol -> Prop) : Prop :=
  match m s with (Done a, s') => I s' /\ Q a s' | (Fail _, s') => I s' | (OutOfFuel, _) => False end.
Lemma keeping_bind {A B} I (m : wr A) (f : A -> wr B) s Q R : keeping I m s Q -> (forall a s', I s' -> Q a s' -> keeping I (f a) s' R) -> keeping I (m ≫= f) s R.
Proof. unfold keeping. change ((m ≫= f) s) with (match m s with (Done a, s) => f a s | (Fail e, s) => (Fail e, s) | (OutOfFuel, s) => (OutOfFuel, s) end). destruct (m s) as [[a|e|] s']; [|done..]. intros [H1 H2] Hf. by apply Hf. Qed.
Lemma keeping_weaken {A} (I J : vol -> Prop) (m : wr A) s Q R : keeping I m s Q -> (forall s', I s' -> J s') -> (forall a s', I s' -> Q a s' -> R a s') -> keeping J m s R.
Proof. unfold keeping. destruct (m s) as [[a|e|] s']; [intros [H1 H2]|intros H1..]; auto. Qed.
Lemma keeping_ret {A} (I : vol -> Prop) (a : A) s (Q : A -> vol -> Prop) : I s -> Q a s -> keeping I (mret a) s Q.
Proof. by split. Qed.
Lemma keeping_throw {A} (I : vol -> Prop) e s (Q : A -> vol -> Prop) : I s -> keeping I (throw e) s Q.
Proof. done. Qed.
Lemma keeping_get {A} I (f : vol -> wr A) s Q : keeping I (f s) s Q -> keeping I (get ≫= f) s Q.
Proof. done. Qed.
Lemma keeping_cache {A} I (f : wr A) buf k d s Q : keeping I f (mkVol (card s) (tick s) buf k d (next_free s) (fsinfo_done s)) Q -> keeping I (set_cache buf k d ≫= fun _ => f) s Q.
Proof. done. Qed.
Lemma keeping_attempt {A} I (m : wr A) s Q : keeping I m s Q -> keeping I (attempt m) s (fun r s' => match r with inl a => Q a s' | inr _ => True end).
Proof. unfold keeping, attempt. destruct (m s) as [[a|e|] s']; [done|by split|done]. Qed.

(** [I] for the calls that leave the FAT: the invariant, and [quiet] since [s]. *)
Definition still (m0 : gmap Z bytes) (s : vol) : vol -> Prop := fun s' => inv m0 s' /\ quiet s s'.
Lemma flush_keeps m0 s : inv m0 s -> keeping (still m0 s) (flush_fat fates v) s (fun _ s' => fat_dirty s' = false /\ fat_cached s' = fat_cached s).
Proof.
  intros H. unfold flush_fat, get. unfold keeping, mbind, wr_bind, mret, wr_ret. destruct (fat_dirty s) eqn:Ed; [|by split_and!].
  destruct (fat_cached s) as [k|] eqn:Ek; [|by rewrite (co_dirty _ (i_coherent _ _ H)) in Ed].
  destruct (co_cache _ (i_coherent _ _ H) k Ek) as (Hkr & Hlen & _).
  destruct (write_cases (fat_lba v + k) (fat_buf s) s) as (r1 & s1 & -> & [[-> [e ->]]|(Hl & -> & Hr)]); [by apply inv_ticked|].
  destruct (flush_write m0 s k _ H Ek Ed Hl (or_introl eq_refl)) as [H1 Q1]. destruct Hr as [-> | [e ->]]; [|done].
  set (s1 := ticked s _) in *.
  assert (Hend : forall s2, inv m0 s2 -> quiet s1 s2 -> fat_cached s2 = Some k -> fat_buf s2 = fat_buf s -> card s2 !! (fat_lba v + k) = Some (fat_buf s) ->
    still m0 s (mkVol (card s2) (tick s2) (fat_buf s) (Some k) false (next_free s2) (fsinfo_done s2))).
  { intros s2 H2 Q2 Ek2 Eb2 Hc2. assert (Hlog : forall c, lfat (mkVol (card s2) (tick s2) (fat_buf s) (Some k) false (next_free s2) (fsinfo_done s2)) c = lfat s2 c) by (intros c; unfold lfat; cbn [fat_cached fat_buf card]; by rewrite Ek2, Eb2).
    split.
    - destruct H2 as [A B C D E F G K]. split; cbn [card next_free]; try done.
      + split; cbn [fat_cached fat_buf fat_dirty card]; [|done]. intros k' [= <-]. done.
      + intros c Hc. rewrite Hlog. by apply F.
      + intros c e Hc Hn He. rewrite Hlog in He. by apply (G c e).
    - transitivity s1; [done|]. transitivity s2; [done|]. split; cbn [card next_free]; try done; by intros. }
  destruct (num_fats v =? 2) eqn:En.
  - destruct (write_cases (fat_lba v + fat_sectors v + k) (fat_buf s) s1) as (r2 & s2 & -> & Hw2). assert (Ek1 : fat_cached s1 = Some k) by done. assert (Ed1 : fat_dirty s1 = true) by done.
    assert (H2 : inv m0 s2 /\ quiet s1 s2 /\ fat_cached s2 = Some k /\ fat_buf s2 = fat_buf s /\ card s2 !! (fat_lba v + k) = Some (fat_buf s) /\ r2 <> OutOfFuel).
    { destruct Hw2 as [[-> [e2 ->]]|(Hl2 & -> & Hr2)].
      - destruct (inv_ticked m0 s1 H1). split_and!; try done. cbn [s1 ticked card]. by rewrite lookup_insert_eq.
      - destruct (flush_write m0 s1 k (fat_lba v + fat_sectors v + k) H1 Ek1 Ed1 Hl2) as [A B]; [right; rewrite (g_data _ Hg); apply Z.eqb_eq in En; rewrite En; lia|]. split_and!; try done; [|by destruct Hr2 as [-> | [e2 ->]]].
        cbn [s1 ticked card fat_buf]. rewrite lookup_insert_ne by (pose proof fat_sectors_pos; lia). by rewrite lookup_insert_eq. }
    destruct H2 as (H2 & Q2 & Ek2 & Eb2 & Hc2 & Hne2). destruct r2 as [[]|e|]; [|split; [done|by transitivity s1]|done]. unfold set_cache. split; [by apply Hend|done].
  - unfold set_cache. split; [|done]. apply Hend; try done. cbn [s1 ticked card]. by rewrite lookup_insert_eq.
Qed.

(** The cache without the sector it has, and with one just read. *)
Lemma uncached m0 s : inv m0 s -> fat_dirty s = false -> still m0 s (mkVol (card s) (tick s) (fat_buf s) None (fat_dirty s) (next_free s) (fsinfo_done s)).
Proof.
  intros H Hd. set (s' := mkVol _ _ _ _ _ _ _). assert (Hlog : forall c, lfat s' c = lfat s c).
  { intros c. unfold lfat at 1. cbn [s' fat_cached card]. rewrite bool_decide_false by done. unfold lfat. destruct (decide (fat_cached s = Some (c / 128))) as [E|]; [rewrite bool_decide_true by done|by rewrite bool_decide_false].
    destruct (co_cache _ (i_coherent _ _ H) _ E) as (_ & _ & Hc). unfold fat_of. by rewrite Hc. }
  split; [|by split]. destruct H as [A B C D E F G K]. split; cbn [s' card next_free]; try done.
  - intros c e Hc Hn He. rewrite Hlog in He. by apply (G c e).
Qed.
Lemma cached_from m0 s k b : inv m0 s -> fat_cached s = None -> 0 <= k < fat_sectors v -> card s !! (fat_lba v + k) = Some b ->
  still m0 s (mkVol (card s) (tick s) b (Some k) (fat_dirty s) (next_free s) (fsinfo_done s)).
Proof.
  intros H Hn Hk Hb. set (s' := mkVol _ _ _ _ _ _ _). assert (Hlog : forall c, lfat s' c = lfat s c).
  { intros c. unfold lfat. cbn [s' fat_cached card fat_buf]. rewrite Hn, (bool_decide_false (None = _)) by done. destruct (decide (Some k = Some (c / 128))) as [E|]; [rewrite bool_decide_true by done|by rewrite bool_decide_false].
    injection E as ->. unfold fat_of. by rewrite Hb. }
  split; [|by split]. destruct H as [A B C D E F G K]. split; cbn [s' card next_free]; try done.
  - split; cbn [s' fat_cached fat_buf fat_dirty card]; [|done]. intros k' [= <-]. split; [done|]. split; [by apply (sound_len _ A) in Hb|done].
  - intros c Hc. rewrite Hlog. by apply F.
  - intros c e Hc Hm He. rewrite Hlog in He. by apply (G c e).
Qed.
Lemma still_trans m0 a b c : still m0 a b -> still m0 b c -> still m0 a c.
Proof. intros [_ Q1] [H2 Q2]. split; [done|by transitivity b]. Qed.
Lemma still_refl m0 s : inv m0 s -> still m0 s s. Proof. by split. Qed.
Lemma read_keeps m0 s lba : inv m0 s -> keeping (still m0 s) (read_at fates lba) s (fun b s' => card s !! lba = Some b /\ card s' = card s /\ fat_cached s' = fat_cached s /\ fat_dirty s' = fat_dirty s /\ fat_buf s' = fat_buf s).
Proof. intros H. pose proof (inv_ticked _ _ H) as Ht. unfold keeping, read_at. destruct (fates (tick s)), (card s !! lba); done. Qed.
Lemma load_keeps m0 s k : inv m0 s -> 0 <= k < fat_sectors v -> keeping (still m0 s) (load_fat fates v k) s (fun _ s' => fat_cached s' = Some k).
Proof.
  intros H Hk. unfold load_fat. apply keeping_get. destruct (decide (fat_cached s = Some k)) as [E|E]; [rewrite bool_decide_true by done; by split|rewrite bool_decide_false by done].
  eapply keeping_bind; [by apply flush_keeps|]. intros u s1 H1 [Hd1 Hc1]. apply keeping_get, keeping_cache. destruct H1 as [I1 Q1].
  pose proof (still_trans _ _ _ _ (conj I1 Q1) (uncached _ _ I1 Hd1)) as Hs2. set (s2 := mkVol _ _ _ _ _ _ _) in *.
  eapply keeping_bind; [eapply keeping_weaken; [apply (read_keeps m0 s2); apply Hs2| |]|].
  - intros s' Hs'. exact (still_trans _ _ _ _ Hs2 Hs').
  - intros b s' _ Hb. exact Hb.
  - intros b s3 Hs3 (Hb & Hc3 & Hn3 & Hd3 & _). apply keeping_get. unfold keeping, set_cache. split; [|done].
    eapply still_trans; [exact Hs3|]. apply cached_from; [apply Hs3|by rewrite Hn3|done|by rewrite Hc3].
Qed.
Lemma entry_keeps m0 s c : inv m0 s -> is_cluster v c = true -> keeping (still m0 s) (fat_entry fates v c) s (fun e s' => lfat s c = Some e).
Proof.
  intros H Hc. unfold fat_entry. rewrite shift7. eapply keeping_bind; [apply load_keeps; [done|by apply fat_index]|]. intros u s1 H1 Hk. apply keeping_get, keeping_ret; [done|].
  rewrite <- (q_log _ _ (proj2 H1)) by done. unfold lfat. by rewrite bool_decide_true.
Qed.
Lemma next_keeps m0 s c : inv m0 s -> is_cluster v c = true -> keeping (still m0 s) (w_next_cluster fates v c) s
  (fun r s' => exists e, lfat s c = Some e /\ r = if EOC_MIN <=? e then None else Some e).
Proof.
  intros H Hc. unfold w_next_cluster. eapply keeping_bind; [by apply entry_keeps|]. intros e s1 H1 He. destruct (EOC_MIN <=? e) eqn:E; [apply keeping_ret; [done|]; exists e; by rewrite E|].
  destruct (is_cluster v e) eqn:Ee; [|by apply keeping_throw]. apply keeping_ret; [done|]. exists e. by rewrite E.
Qed.
(** One entry changed. *)
Record set_in (s s' : vol) (c x : Z) : Prop := {
  set_log c' : is_cluster v c' = true -> lfat s' c' = if decide (c' = c) then Some x else lfat s c';
  set_data l : l < fat_lba v \/ data_lba v <= l -> card s' !! l = card s !! l;
  set_dom l : is_Some (card s' !! l) <-> is_Some (card s !! l);
  set_next : next_free s' = next_free s
}.
(** [set_fat]'s last step, on a volume whose cache is of the right sector. *)
Definition put (s : vol) (c x : Z) : vol := mkVol (card s) (tick s) (put_fat (fat_buf s) c x) (fat_cached s) true (next_free s) (fsinfo_done s).
Lemma put_log s c x : is_cluster v c = true -> fat_cached s = Some (c / 128) -> len (fat_buf s) = 512 -> 0 <= x < 2 ^ 28 -> set_in s (put s c x) c x.
Proof.
  intros Hc Hk Hl Hx. split; try done. intros c' Hc'. unfold lfat. cbn [put fat_cached fat_buf card]. rewrite Hk. destruct (decide (c' = c)) as [->|Hne].
  - rewrite bool_decide_true by done. by rewrite put_fat_same.
  - destruct (decide (c / 128 = c' / 128)) as [E|E]; [|by rewrite bool_decide_false by congruence]. rewrite bool_decide_true by congruence. rewrite put_fat_other; [done|done|].
    intros Hm. apply Hne. rewrite (Z.div_mod c 128), (Z.div_mod c' 128) by lia. congruence.
Qed.
Lemma set_keeps m0 s c x : inv m0 s -> is_cluster v c = true -> ~ used m0 c -> 0 <= x < 2 ^ 28 -> (is_cluster v x = true -> ~ used m0 x) ->
  keeping (inv m0) (set_fat fates v c x) s (fun _ s' => set_in s s' c x).
Proof.
  intros H Hc Hn Hx Hcl. unfold set_fat. rewrite shift7.
  eapply keeping_bind; [eapply keeping_weaken; [apply (load_keeps m0 s (c / 128) H); by apply fat_index| |]|].
  - by intros s' [? _].
  - intros a s' Hs' Hk. exact (conj Hk (proj2 Hs')).
  - intros u s1 H1 [Hk Q1]. apply keeping_get. unfold keeping, set_cache. fold (put s1 c x). destruct (co_cache _ (i_coherent _ _ H1) _ Hk) as (Hkr & Hl & _).
    pose proof (put_log s1 c x Hc Hk Hl Hx) as Hp. destruct H1 as [A B C D E F G K]. split.
    + split; cbn [put card next_free]; try done.
      * split; cbn [put fat_cached fat_buf fat_dirty card]; [|congruence]. intros k' Hk'. split; [by apply (co_cache _ B)|]. split; [by apply len_put_fat|done].
      * intros c' Hc'. rewrite (set_log _ _ _ _ Hp) by eauto. destruct (decide (c' = c)) as [->|]; [done|by apply F].
      * intros c' e Hc' Hm He. rewrite (set_log _ _ _ _ Hp) in He by done. destruct (decide (c' = c)) as [->|]; [injection He as <-; done|by apply (G c' e)].
    + destruct Q1 as [Q1 Q2 Q3 Q4]. split; cbn [put card next_free]; try done. intros c' Hc'. rewrite (set_log _ _ _ _ Hp) by done. destruct (decide _); [done|by apply Q1].
Qed.

(** ** Clusters taken and given back *)

(** A call whose other calls before it were [still]. *)
Lemma keeping_step {A B} (I : vol -> Prop) m0 (m : wr A) (f : A -> wr B) s Q R : keeping (still m0 s) m s Q -> (forall s', inv m0 s' -> I s') ->
  (forall a s', still m0 s s' -> Q a s' -> keeping I (f a) s' R) -> keeping I (m ≫= f) s R.
Proof.
  intros Hm HI Hf. eapply (keeping_bind I m f s (fun a s' => still m0 s s' /\ Q a s')); [|intros a s' _ [? ?]; by apply Hf].
  unfold keeping in *. destruct (m s) as [[a|e|] s']; [destruct Hm as [Hst Hq]; split; [apply HI, Hst|done]|apply HI, Hm|done].
Qed.
Lemma keeping_still {A B} m0 (m : wr A) (f : A -> wr B) s Q R : keeping (still m0 s) m s Q ->
  (forall a s', still m0 s s' -> Q a s' -> keeping (still m0 s') (f a) s' R) -> keeping (still m0 s) (m ≫= f) s R.
Proof.
  intros Hm Hf. eapply (keeping_bind _ m f s (fun a s' => still m0 s s' /\ Q a s')).
  - unfold keeping in *. destruct (m s) as [[a|e|] s']; [by destruct Hm|done..].
  - intros a s' _ [Hs Hq]. eapply keeping_weaken; [by apply Hf| |by intros]. intros s2 Hs2. by apply (still_trans _ _ s').
Qed.
Record allocated (s s' : vol) (prev : option Z) (c : Z) : Prop := {
  al_cluster : is_cluster v c = true;
  al_free : lfat s c = Some 0;
  al_log c' : is_cluster v c' = true -> lfat s' c' = if decide (prev = Some c') then Some c else if decide (c' = c) then Some ENTRY_MASK else lfat s c';
  al_data l : l < fat_lba v \/ data_lba v <= l -> card s' !! l = card s !! l;
  al_dom l : is_Some (card s' !! l) <-> is_Some (card s !! l)
}.
Lemma unused m0 s c : inv m0 s -> lfat s c = Some 0 -> ~ used m0 c.
Proof. intros H Hc Hu. pose proof (i_log _ _ H c Hu) as E. destruct Hu as [_ (e & He & Hn)]. congruence. Qed.
Lemma mask_range : 0 <= ENTRY_MASK < 2 ^ 28. Proof. by unfold ENTRY_MASK. Qed.
Lemma mask_no_cluster : is_cluster v ENTRY_MASK = false.
Proof. apply not_true_is_false. rewrite cluster_range. pose proof (g_max _ Hg). unfold EOC_MIN, ENTRY_MASK in *. lia. Qed.
Lemma cluster_small c : is_cluster v c = true -> 0 <= c < 2 ^ 28.
Proof. rewrite cluster_range. pose proof (g_max _ Hg). unfold EOC_MIN in *. lia. Qed.
Lemma set_next_keeps m0 s c : inv m0 s -> 2 <= c -> inv m0 (mkVol (card s) (tick s) (fat_buf s) (fat_cached s) (fat_dirty s) c (fsinfo_done s)).
Proof. intros [A [B1 B2] C D E F G K] Hc. split; done. Qed.
Lemma alloc_keeps m0 fuel prev c s : inv m0 s -> 2 <= c -> (forall p, prev = Some p -> is_cluster v p = true /\ ~ used m0 p) ->
  keeping (inv m0) (alloc_loop fates v fuel prev c) s (fun c' s' => allocated s s' prev c').
Proof.
  revert c s. induction fuel as [|fuel IH]; intros c s H Hc Hp; [by apply keeping_throw|]. cbn [alloc_loop]. set (c1 := if cluster_end v <=? c then 2 else c).
  assert (Hc1 : is_cluster v c1 = true) by (pose proof (g_root _ Hg) as Hr; apply cluster_range in Hr; apply cluster_range; unfold c1; destruct (Z.leb_spec (cluster_end v) c); lia).
  eapply keeping_step; [by apply entry_keeps|done|]. intros e s1 H1 He. destruct (Z.eqb_spec e 0) as [->|Hne].
  - assert (Hf : ~ used m0 c1) by (apply (unused m0 s); [done|done]). destruct H1 as [I1 Q1].
    assert (HM : is_cluster v ENTRY_MASK = true -> ~ used m0 ENTRY_MASK) by (rewrite mask_no_cluster; done).
    eapply keeping_bind; [by apply set_keeps; [| | |apply mask_range|]|]. intros u s2 I2 S2.
    eapply (keeping_bind _ _ _ _ (fun _ s3 => match prev with Some p => set_in s2 s3 p c1 | None => s3 = s2 end)).
    { destruct prev as [p|]; [|by apply keeping_ret]. destruct (Hp p eq_refl) as [Hpc Hpu]. apply set_keeps; try done. by apply cluster_small. }
    intros u3 s3 I3 H3. unfold keeping, mbind, wr_bind, set_next_free, mret, wr_ret. split; [apply set_next_keeps; [done|apply cluster_range in Hc1; lia]|].
    destruct Q1 as [L1 D1 M1 _]. destruct S2 as [L2 D2 M2 _]. split; cbn [card]; [done|done| | |].
    + intros c' Hc'. change (lfat (mkVol _ _ _ _ _ _ _) c') with (lfat s3 c'). destruct prev as [p|].
      * rewrite (set_log _ _ _ _ H3) by done. destruct (decide (c' = p)) as [->|]; [by rewrite decide_True|]. rewrite decide_False by congruence. rewrite L2 by done. destruct (decide _); [done|by apply L1].
      * subst s3. rewrite decide_False by done. rewrite L2 by done. destruct (decide _); [done|by apply L1].
    + intros l Hl. destruct prev as [p|]; [rewrite (set_data _ _ _ _ H3) by done|subst s3]; by rewrite D2, D1.
    + intros l. destruct prev as [p|]; [rewrite (set_dom _ _ _ _ H3)|subst s3]; by rewrite M2, M1.
  - eapply keeping_weaken; [apply (IH (c1 + 1) s1); [apply H1|apply cluster_range in Hc1; lia|done]|done|]. intros c' s' I' [A B C D E]. destruct H1 as [_ [L1 D1 M1 _]].
    split; [done|by rewrite <- L1| | |].
    + intros c2 Hc2. rewrite C by done. destruct (decide _); [done|]. destruct (decide _); [done|by apply L1].
    + intros l Hl. by rewrite D, D1.
    + intros l. by rewrite E, M1.
Qed.
Lemma alloc_cluster_keeps m0 prev s : inv m0 s -> (forall p, prev = Some p -> is_cluster v p = true /\ ~ used m0 p) ->
  keeping (inv m0) (alloc_cluster fates v prev) s (fun c' s' => allocated s s' prev c').
Proof. intros H Hp. unfold alloc_cluster. apply keeping_get. apply alloc_keeps; [done|apply (i_next _ _ H)|done]. Qed.
(** Freeing a chain of its own clusters: each cluster is freed once, and a free one ends it. *)
Definition taken (s : vol) : nat := length (filter (fun c => lfat s c <> Some 0) (seqZ 2 (cluster_end v - 2))).
Lemma taken_most s : (taken s <= Z.to_nat (cluster_end v - 2))%nat.
Proof. unfold taken. etransitivity; [apply length_filter|]. by rewrite length_seqZ. Qed.
Lemma taken_ext s s' : (forall c, is_cluster v c = true -> lfat s' c = lfat s c) -> taken s' = taken s.
Proof.
  intros H. apply Nat.le_antisymm; apply filter_le; intros c Hc%elem_of_seqZ; (rewrite H by (apply cluster_range; lia)); done.
Qed.
Lemma taken_less s s' c : is_cluster v c = true -> set_in s s' c 0 -> lfat s c <> Some 0 -> (taken s' < taken s)%nat.
Proof.
  intros Hc [L _ _ _] Hn. unfold taken. apply (filter_strict _ _ _ c); [|apply elem_of_seqZ; apply cluster_range in Hc; lia|done|rewrite L by done; rewrite decide_True by done; by intros []].
  intros c' Hc'%elem_of_seqZ. rewrite L by (apply cluster_range; lia). destruct (decide _); [by intros []|done].
Qed.
Lemma free_keeps m0 fuel c s : inv m0 s -> (is_cluster v c = true -> ~ used m0 c) -> (if is_cluster v c then taken s + 2 <= fuel else 1 <= fuel)%nat -> keeping (inv m0) (free_loop fates v fuel c) s (fun _ _ => True).
Proof.
  revert c s. induction fuel as [|fuel IH]; intros c s H Hc Hm; [destruct (is_cluster v c); lia|]. cbn [free_loop]. destruct (is_cluster v c) eqn:Ec; cbn [negb]; [|by apply keeping_throw].
  eapply keeping_step; [by apply entry_keeps|done|]. intros e s1 [I1 Q1] He. eapply keeping_bind; [apply (set_keeps m0 s1 c 0); [done|done|by apply Hc|done|done]|]. intros u s2 I2 S2.
  destruct (EOC_MIN <=? e); [eapply keeping_weaken; [by apply flush_keeps|by intros s' [? _]|done]|]. apply IH; [done| |].
  - intros Hce. apply (i_closed _ _ H c e); auto.
  - destruct (is_cluster v e) eqn:Ece; [|lia]. enough (taken s2 < taken s)%nat by lia. rewrite <- (taken_ext s s1) by apply Q1. apply (taken_less s1 s2 c Ec S2). rewrite (q_log _ _ Q1), He by done. intros [= ->]. apply cluster_range in Ece. lia.
Qed.
Lemma free_fuel c s : (if is_cluster v c then taken s + 2 <= Z.to_nat (cluster_end v) else 1 <= Z.to_nat (cluster_end v))%nat.
Proof. pose proof (taken_most s). pose proof (proj1 (cluster_range _) (g_root _ Hg)). destruct (is_cluster v c); lia. Qed.
Lemma give_back_keeps m0 first s : inv m0 s -> (is_cluster v first = true -> ~ used m0 first) -> keeping (inv m0) (give_back fates v first) s (fun _ _ => True).
Proof.
  intros H Hf. unfold give_back. destruct (first =? 0); [by apply keeping_ret|]. eapply keeping_bind; [eapply keeping_attempt, (free_keeps m0); [done|done|by apply free_fuel]|]. intros a s' H' _. by apply keeping_ret.
Qed.

(** ** Sectors outside the FAT *)

Lemma write_out_keeps m0 s l buf : inv m0 s -> len buf = 512 -> part_lba v < l -> l < fat_lba v \/ data_lba v <= l ->
  (forall c i, used m0 c -> 0 <= i < spc -> l <> cluster_lba v c + i) ->
  keeping (inv m0) (write_at fates l buf) s (fun _ s' => card s' = <[l := buf]> (card s) /\ is_Some (card s !! l) /\ forall c, is_cluster v c = true -> lfat s' c = lfat s c).
Proof.
  intros H Hb Hp Hl Hne. unfold keeping. destruct (write_cases l buf s) as (r & s' & -> & [[-> [e ->]]|(Hs & -> & Hr)]); [by apply inv_ticked|].
  assert (Hfat : forall c, is_cluster v c = true -> l <> fat_lba v + c / 128) by (intros c Hc; pose proof (fat_below _ (fat_index c Hc)); lia).
  assert (Hlog : forall c, is_cluster v c = true -> lfat (ticked s (<[l := buf]> (card s))) c = lfat s c).
  { intros c Hc. unfold lfat. cbn [ticked fat_cached fat_buf card]. destruct (bool_decide _); [done|]. by apply fat_of_other, Hfat. }
  assert (Hi : inv m0 (ticked s (<[l := buf]> (card s)))); [|by destruct Hr as [-> | [e ->]]]. destruct H as [A [B1 B2] C D E F G K]. split; cbn [ticked card next_free].
  - by apply sound_insert.
  - split; cbn [ticked fat_cached fat_buf fat_dirty card]; [|done]. intros k Hk. destruct (B1 k Hk) as (H1 & H2 & H3). split; [done|]. split; [done|]. intros Hd.
    rewrite lookup_insert_ne; [by apply H3|]. pose proof (fat_below k H1). lia.
  - intros l' Hl'. rewrite lookup_insert_ne by lia. by apply C.
  - intros c i Hc Hi. rewrite lookup_insert_ne by (by apply Hne). by apply D.
  - intros c Hc. rewrite fat_of_other by (apply Hfat; by eauto). by apply E.
  - intros c Hc. rewrite Hlog by eauto. by apply F.
  - intros c e Hc Hn He. rewrite Hlog in He by done. by apply (G c e).
  - done.
Qed.
Lemma data_sector m0 c i : is_cluster v c = true -> ~ used m0 c -> 0 <= i < spc ->
  part_lba v < cluster_lba v c + i /\ data_lba v <= cluster_lba v c + i /\ (forall c' i', used m0 c' -> 0 <= i' < spc -> cluster_lba v c + i <> cluster_lba v c' + i').
Proof.
  intros Hc Hn Hi. pose proof (data_above c i Hc ltac:(lia)). pose proof (fat_below 0 ltac:(pose proof fat_sectors_pos; lia)). pose proof (g_part _ Hg). split; [lia|]. split; [done|].
  intros c' i' Hc' Hi' E. apply cluster_sector_inj in E as [-> _]; done.
Qed.
Lemma begin_keeps m0 s : inv m0 s -> keeping (inv m0) (begin_change fates v) s
  (fun _ s' => (forall c, is_cluster v c = true -> lfat s' c = lfat s c) /\ forall l, data_lba v <= l -> card s' !! l = card s !! l).
Proof.
  intros H. unfold begin_change. apply keeping_get. destruct (fsinfo_done s); [by apply keeping_ret|].
  unfold keeping, mbind, wr_bind, set_fsinfo_done. cbv beta iota. set (s1 := mkVol _ _ _ _ _ _ _). assert (H1 : inv m0 s1) by (destruct H as [A [B1 B2] C D E F G K]; done).
  destruct (_ || _) eqn:Ef; [by split|]. apply orb_false_iff in Ef as [Ef1 Ef2]. apply (keeping_step (inv m0) m0 (read_at fates (fsinfo_lba v))
    (fun buf => if negb (le32 buf 0 =? FSINFO_LEAD) || negb (le32 buf 484 =? FSINFO_STRUCT) then mret tt else write_at fates (fsinfo_lba v) (slice_assign buf 488 496 (replicate 8 xff))) s1 _ _ (read_keeps m0 s1 _ H1)); [by intros|].
  intros b s2 [I2 Q2] (Hb & Hc2 & _). assert (Hlog : forall c, is_cluster v c = true -> lfat s2 c = lfat s c) by (intros c Hc; by rewrite (q_log _ _ Q2)).
  destruct (_ || _); [apply keeping_ret; [done|]; split; [done|]; intros l Hl; by rewrite Hc2|].
  assert (Hl8 : len (slice_assign b 488 496 (replicate 8 xff)) = 512).
  { pose proof (sound_len _ (i_sound _ _ H1) _ _ Hb) as Hb5. change 496 with (488 + len (replicate 8 xff)). rewrite len_slice_assign; [done|lia|]. rewrite len_replicate, Hb5. lia. }
  pose proof (fat_below 0 ltac:(pose proof fat_sectors_pos; lia)) as Hb0.
  eapply keeping_weaken; [apply (write_out_keeps m0 s2 _ _ I2 Hl8); [lia|left; lia|]|done|].
  - intros c i Hc Hi. pose proof (data_above c i (used_cluster _ _ Hc) ltac:(lia)). lia.
  - intros a s3 _ (Hc3 & _ & L3). split; [intros c Hc; by rewrite L3, Hlog|]. intros l Hl. rewrite Hc3, lookup_insert_ne by lia. by rewrite Hc2.
Qed.
Lemma write_sectors_keeps m0 s c k chs : inv m0 s -> is_cluster v c = true -> ~ used m0 c -> 0 <= k -> k + len chs <= spc -> Forall (fun ch => len ch <= 512) chs ->
  keeping (inv m0) (write_sectors fates (cluster_lba v c + k) chs) s (fun _ s' =>
    (forall j ch, chs !! j = Some ch -> card s' !! (cluster_lba v c + k + Z.of_nat j) = Some (ljust ch SECTOR x00)) /\
    (forall l, ~ (cluster_lba v c + k <= l < cluster_lba v c + k + len chs) -> card s' !! l = card s !! l) /\ (forall c', is_cluster v c' = true -> lfat s' c' = lfat s c') /\ (forall l, is_Some (card s' !! l) <-> is_Some (card s !! l))).
Proof.
  intros H Hc Hn Hk Hl Hf. revert k s H Hk Hl. induction Hf as [|ch chs Hch Hf IH]; intros k s H Hk Hl; cbn [write_sectors]; [apply keeping_ret; [done|]; by split_and!|].
  rewrite len_cons in Hl. pose proof (len_nonneg chs). destruct (data_sector m0 c k Hc Hn ltac:(lia)) as (D1 & D2 & D3).
  eapply keeping_bind; [apply (write_out_keeps m0 s _ _ H); [rewrite len_ljust; unfold SECTOR; lia|done|by right|done]|].
  intros u s1 I1 (Hc1 & Hs1 & L1). rewrite <- Z.add_assoc. eapply keeping_weaken; [apply IH; [done|lia|lia]|done|]. intros u2 s2 I2 (W2 & O2 & L2 & M2). split_and!.
  - intros [|j] ch' Hj; cbn in Hj.
    + injection Hj as <-. rewrite O2 by (pose proof (len_nonneg chs); lia). rewrite Hc1, Z.add_0_r. by rewrite lookup_insert_eq.
    + rewrite <- (W2 j ch' Hj). f_equal. lia.
  - intros l Hl'. rewrite O2, Hc1 by (rewrite len_cons in Hl'; lia). rewrite lookup_insert_ne; [done|]. rewrite len_cons in Hl'. lia.
  - intros c' Hc'. by rewrite L2, L1.
  - intros l. rewrite M2, Hc1. by apply is_Some_insert.
Qed.

(** ** A file's chain *)

(** Each cluster's entry names the next, the last one ends the chain. *)
Fixpoint links (f : Z -> option Z) (cs : list Z) : Prop :=
  match cs with
  | [] => True
  | c :: t => f c = Some (match t with c' :: _ => c' | [] => ENTRY_MASK end) /\ links f t
  end.
Lemma links_nonzero f cs c : links f cs -> Forall (fun c => is_cluster v c = true) cs -> c ∈ cs -> exists e, f c = Some e /\ e <> 0.
Proof.
  induction cs as [|c' cs IH]; [by intros _ _ ?%not_elem_of_nil|]. cbn [links]. intros [Hf Hl] Hc [->|Hin]%elem_of_cons; [|inversion_clear Hc; by apply IH].
  eexists. split; [exact Hf|]. destruct cs as [|c2 cs]; [done|]. inversion_clear Hc as [|? ? _ Hc']. inversion_clear Hc' as [|? ? Hc2 _]. apply cluster_range in Hc2. lia.
Qed.
Lemma links_ext f f' cs : links f cs -> (forall c, c ∈ cs -> f' c = f c) -> links f' cs.
Proof. induction cs as [|c cs IH]; [done|]. cbn [links]. intros [Hf Hl] He. split; [rewrite He; [done|by left]|]. apply IH; [done|]. intros x Hx. apply He. by right. Qed.
Lemma links_snoc f f' cs p c : links f (cs ++ [p]) -> (forall x, x ∈ cs -> f' x = f x) -> f' p = Some c -> f' c = Some ENTRY_MASK -> links f' ((cs ++ [p]) ++ [c]).
Proof.
  intros Hl He Hp Hc. rewrite <- app_assoc. induction cs as [|x cs IH]; cbn [app links] in *; [done|]. destruct Hl as [Hx Hl]. split.
  - rewrite He by (by left). rewrite Hx. by destruct cs.
  - apply IH; [done|]. intros y Hy. apply He. by right.
Qed.
Definition cl_bytes : Z := 512 * spc.
Lemma cl_bytes_eq : Z.shiftl SECTOR (cluster_shift v) = cl_bytes.
Proof. rewrite shiftl_mul by apply (g_shift _ Hg). done. Qed.

(** A cluster's sectors as [write_chain] leaves them. *)
Definition stored (m : gmap Z bytes) (c : Z) (d : bytes) : Prop :=
  forall j ch, chunks SECTOR d !! j = Some ch -> m !! (cluster_lba v c + Z.of_nat j) = Some (ljust ch SECTOR x00).
Record built (m0 : gmap Z bytes) (s : vol) (cs : list Z) (ds : list bytes) : Prop := {
  b_nodup : NoDup cs;
  b_own : Forall (fun c => is_cluster v c = true /\ ~ used m0 c) cs;
  b_links : links (lfat s) cs;
  b_stored : Forall2 (stored (card s)) cs ds;
  b_size : Forall (fun d => len d <= cl_bytes) ds
}.
Lemma own_clusters m0 cs : Forall (fun c => is_cluster v c = true /\ ~ used m0 c) cs -> Forall (fun c => is_cluster v c = true) cs.
Proof. intros H. eapply Forall_impl; [exact H|]. by intros c []. Qed.
Lemma chunks_at_most {A} n (l : list A) : 0 < n -> Forall (fun ch => len ch <= n) (chunks n l).
Proof.
  intros Hn. induction l as [|l Hl IH] using (chunk_ind n Hn); [constructor|]. rewrite chunks_step by done. constructor; [|done]. rewrite len_take. lia.
Qed.
Lemma chunks_count {A} n k (l : list A) : 0 < n -> 0 <= k -> len l <= n * k -> len (chunks n l) <= k.
Proof. intros Hn Hk Hl. rewrite len_chunks by done. unfold cdiv. apply Z.opp_le_mono. rewrite Z.opp_involutive. apply Z.div_le_lower_bound; lia. Qed.
Lemma stored_kept m0 s s' cs ds c n : built m0 s cs ds -> c ∉ cs -> n <= spc ->
  (forall l, data_lba v <= l -> ~ (cluster_lba v c <= l < cluster_lba v c + n) -> card s' !! l = card s !! l) -> Forall2 (stored (card s')) cs ds.
Proof.
  intros [_ Hown _ Hst Hsz] Hnew Hn Hout. apply own_clusters in Hown. revert Hown Hnew Hsz. induction Hst as [|x d cs ds Hx Hst IH]; [constructor|]. intros Hown Hnew Hsz.
  inversion_clear Hown as [|? ? Hxc Hown']. inversion_clear Hsz as [|? ? Hd Hsz']. apply not_elem_of_cons in Hnew as [Hne Hnew]. constructor; [|by apply IH].
  intros j ch Hj. rewrite <- (Hx j ch Hj). pose proof (chunks_count 512 spc d ltac:(lia) ltac:(pose proof spc_pos; lia) ltac:(unfold cl_bytes in *; lia)) as Hk.
  apply lookup_lt_Some in Hj. unfold SECTOR, len in *. apply Hout; [apply data_above; [done|lia]|]. intros Hr.
  apply Hne. symmetry. apply (cluster_sector_inj x (Z.of_nat j) c (cluster_lba v x + Z.of_nat j - cluster_lba v c)); lia.
Qed.

(** [write_clusters]' result and state, with the first cluster whatever comes of it. *)
Lemma clusters_keep m0 cls cs0 ds s first prev : inv m0 s -> built m0 s cs0 ds -> Forall (fun d => len d <= cl_bytes) cls ->
  prev = last cs0 -> first = hd 0 cs0 ->
  match write_clusters fates v prev first cls s with
  | (Done _, first', s') => inv m0 s' /\ exists cs1, first' = hd 0 (cs0 ++ cs1) /\ built m0 s' (cs0 ++ cs1) (ds ++ cls)
  | (Fail _, first', s') => inv m0 s' /\ (is_cluster v first' = true -> ~ used m0 first')
  | (OutOfFuel, _, _) => False
  end.
Proof.
  intros H Hb Hd -> ->. revert cs0 ds s H Hb. induction Hd as [|d cls Hd Hds IH]; intros cs0 ds s H Hb; cbn [write_clusters].
  { split; [done|]. exists []. rewrite !app_nil_r. done. }
  assert (Hfirst : is_cluster v (hd 0 cs0) = true -> ~ used m0 (hd 0 cs0)).
  { destruct cs0 as [|c0 cs0]; [done|]. intros _. pose proof (b_own _ _ _ _ Hb) as Hown. inversion_clear Hown as [|? ? [_ Hn] _]. done. }
  assert (Hprev : forall p, last cs0 = Some p -> is_cluster v p = true /\ ~ used m0 p).
  { intros p Hp. apply last_Some in Hp as [l ->]. pose proof (b_own _ _ _ _ Hb) as Hown. apply Forall_app in Hown as [_ Hown]. by inversion_clear Hown. }
  pose proof (alloc_cluster_keeps m0 (last cs0) s H Hprev) as Ha. unfold keeping in Ha. destruct (alloc_cluster fates v (last cs0) s) as [[c|e|] s1]; [|by split|done]. destruct Ha as [I1 Al].
  pose proof (al_cluster _ _ _ _ Al) as Hc. assert (Hcu : ~ used m0 c) by (apply (unused m0 s); [done|apply (al_free _ _ _ _ Al)]).
  assert (Hnew : c ∉ cs0). { intros Hin. destruct (links_nonzero _ _ _ (b_links _ _ _ _ Hb) (own_clusters _ _ (b_own _ _ _ _ Hb)) Hin) as (e & He & Hne). rewrite (al_free _ _ _ _ Al) in He. congruence. }
  assert (Hb1 : NoDup (cs0 ++ [c]) /\ Forall (fun c => is_cluster v c = true /\ ~ used m0 c) (cs0 ++ [c]) /\ links (lfat s1) (cs0 ++ [c])).
  { destruct Hb as [B1 B2 B3 _ _]. split; [apply NoDup_app; split; [done|]; split; [by intros x Hx ->%list_elem_of_singleton|apply NoDup_singleton]|]. split; [apply Forall_app; split; [done|by constructor]|].
    pose proof (own_clusters _ _ B2) as Hcl. rewrite Forall_forall in Hcl. destruct (last cs0) as [p|] eqn:Ep.
    - apply last_Some in Ep as [l ->]. apply NoDup_app in B1 as (_ & Hp & _). assert (Hcp : is_cluster v p = true) by (apply Hcl, elem_of_app; right; by left). apply (links_snoc (lfat s)); [done| | |].
      + intros x Hx. rewrite (al_log _ _ _ _ Al) by (apply Hcl, elem_of_app; by left). rewrite decide_False by (intros [= ->]; apply (Hp x Hx); by left).
        rewrite decide_False; [done|]. intros ->. apply Hnew, elem_of_app. by left.
      + rewrite (al_log _ _ _ _ Al) by done. by rewrite decide_True.
      + rewrite (al_log _ _ _ _ Al) by done. rewrite decide_False by (intros [= ->]; apply Hnew, elem_of_app; right; by left). by rewrite decide_True.
    - apply last_None in Ep as ->. cbn [app links]. split; [|done]. rewrite (al_log _ _ _ _ Al) by done. rewrite decide_False by done. by rewrite decide_True. }
  destruct Hb1 as (N1 & O1 & L1).
  assert (Hf1 : (if hd 0 cs0 =? 0 then c else hd 0 cs0) = hd 0 (cs0 ++ [c])).
  { destruct cs0 as [|c0 cs0]; [done|]. cbn [hd app]. inversion_clear O1 as [|? ? [Hc0 _] _]. apply cluster_range in Hc0. by rewrite (proj2 (Z.eqb_neq c0 0)) by lia. }
  rewrite Hf1.
  assert (Hfirst1 : is_cluster v (hd 0 (cs0 ++ [c])) = true -> ~ used m0 (hd 0 (cs0 ++ [c]))).
  { intros _. destruct cs0 as [|c0 cs0]; [done|]. inversion_clear O1 as [|? ? [_ Hn] _]. done. }
  pose proof (write_sectors_keeps m0 s1 c 0 (chunks SECTOR d) I1 Hc Hcu ltac:(lia)) as Hw. unfold keeping in Hw. rewrite Z.add_0_r in Hw.
  pose proof spc_pos. specialize (Hw ltac:(rewrite Z.add_0_l; apply chunks_count; unfold SECTOR, cl_bytes in *; lia) ltac:(apply chunks_at_most; unfold SECTOR; lia)).
  destruct (write_sectors fates (cluster_lba v c) (chunks SECTOR d) s1) as [[u|e|] s2]; [|done..]. destruct Hw as (I2 & W2 & Out2 & L2 & _).
  assert (Hb2 : built m0 s2 (cs0 ++ [c]) (ds ++ [d])).
  { split; [done|done| | |].
    - apply (links_ext (lfat s1)); [done|]. intros x Hx. apply L2. pose proof (own_clusters _ _ O1) as Hcl. rewrite Forall_forall in Hcl. by apply Hcl.
    - apply Forall2_app; [|constructor; [by intros j ch Hj; apply W2|constructor]]. apply (stored_kept m0 s s2 cs0 ds c (len (chunks SECTOR d))); [done|done|apply chunks_count; unfold SECTOR, cl_bytes in *; lia|].
      intros l Hl Hl2. rewrite Out2 by done. apply (al_data _ _ _ _ Al). by right.
    - apply Forall_app. split; [apply (b_size _ _ _ _ Hb)|by constructor]. }
  specialize (IH (cs0 ++ [c]) (ds ++ [d]) s2 I2 Hb2). rewrite last_snoc in IH. destruct (write_clusters fates v (Some c) (hd 0 (cs0 ++ [c])) cls s2) as [[[f|e|] f'] s3]; [|done..].
  destruct IH as (I3 & cs1 & -> & Hb3). split; [done|]. exists (c :: cs1). by rewrite <- !app_assoc in *.
Qed.

Lemma built_still m0 s s' cs ds : built m0 s cs ds -> still m0 s s' -> built m0 s' cs ds.
Proof.
  intros [A B C D E] [_ [Q1 Q2 _ _]]. pose proof (own_clusters _ _ B) as Hcl. split; try done.
  - apply (links_ext (lfat s)); [done|]. intros c Hc. apply Q1. rewrite Forall_forall in Hcl. by apply Hcl.
  - clear -D Hcl Q2 Hg. induction D as [|c d cs ds Hc D IH]; [constructor|]. inversion_clear Hcl as [|? ? Hcc Hcl']. constructor; [|by apply IH].
    intros j ch Hj. rewrite <- (Hc j ch Hj). apply Q2. right. apply data_above; [done|lia].
Qed.
Lemma built_first m0 s cs ds : built m0 s cs ds -> is_cluster v (hd 0 cs) = true -> ~ used m0 (hd 0 cs).
Proof. intros Hb. destruct cs as [|c cs]; [done|]. intros _. pose proof (b_own _ _ _ _ Hb) as Hown. inversion_clear Hown as [|? ? [_ Hn] _]. done. Qed.
Lemma chain_keeps m0 data s : inv m0 s ->
  match write_chain fates v data s with
  | (Done first, s') => inv m0 s' /\ fat_dirty s' = false /\ exists cs, first = hd 0 cs /\ built m0 s' cs (chunks cl_bytes data)
  | (Fail _, s') => inv m0 s'
  | (OutOfFuel, _) => False
  end.
Proof.
  intros H. unfold write_chain. rewrite cl_bytes_eq. assert (Hcb : 0 < cl_bytes) by (unfold cl_bytes; pose proof spc_pos; lia).
  assert (Hb0 : built m0 s [] []) by (split; constructor). pose proof (clusters_keep m0 (chunks cl_bytes data) [] [] s 0 None H Hb0 (chunks_at_most _ _ Hcb) eq_refl eq_refl) as Hw.
  destruct (write_clusters fates v None 0 (chunks cl_bytes data) s) as [[[f|e|] first] s1].
  - destruct Hw as (I1 & cs & Hfirst & Hb). cbn [app] in *. pose proof (flush_keeps m0 s1 I1) as Hfl. apply keeping_attempt in Hfl.
    change ((r ← attempt (flush_fat fates v); match r with inl _ => mret first | inr e => _ ← give_back fates v first; throw e end) s1)
      with (match attempt (flush_fat fates v) s1 with (Done r, s2) => match r with inl _ => mret first | inr e => _ ← give_back fates v first; throw e end s2 | (Fail e, s2) => (Fail e, s2) | (OutOfFuel, s2) => (OutOfFuel, s2) end).
    unfold keeping in Hfl. destruct (attempt (flush_fat fates v) s1) as [[[u|e]|e|] s2]; [| |apply Hfl|done].
    + destruct Hfl as (Hst & Hd & _). split; [apply Hst|]. split; [done|]. exists cs. split; [done|]. by apply (built_still m0 s1).
    + destruct Hfl as [[I2 Q2] _]. assert (Hfu : is_cluster v first = true -> ~ used m0 first) by (rewrite Hfirst; by apply (built_first m0 s1 _ (chunks cl_bytes data))).
      assert (Hk : keeping (inv m0) (_ ← give_back fates v first; throw (A := Z) e) s2 (fun _ _ => False)).
      { eapply keeping_bind; [by apply (give_back_keeps m0)|]. intros a s3 I3 _. by apply keeping_throw. }
      unfold keeping in Hk. destruct ((_ ← give_back fates v first; throw e) s2) as [[|e'|] s3]; [by destruct Hk|done|done].
  - destruct Hw as [I1 Hfu]. assert (Hk : keeping (inv m0) (_ ← give_back fates v first; throw (A := Z) e) s1 (fun _ _ => False)).
    { eapply keeping_bind; [by apply (give_back_keeps m0)|]. intros a s3 I3 _. by apply keeping_throw. }
    unfold keeping in Hk. destruct ((_ ← give_back fates v first; throw e) s1) as [[|e'|] s3]; [by destruct Hk|done|done].
  - done.
Qed.
(** With nothing waiting in the cache, the card itself can be the start. *)
Lemma clean_log m0 s c : inv m0 s -> fat_dirty s = false -> lfat s c = fat_of (card s) c.
Proof.
  intros H Hd. unfold lfat. destruct (decide (fat_cached s = Some (c / 128))) as [E|]; [rewrite bool_decide_true by done|by rewrite bool_decide_false].
  destruct (co_cache _ (i_coherent _ _ H) _ E) as (_ & _ & Hc). unfold fat_of. by rewrite Hc.
Qed.
Lemma fat_readable m c : sound m -> is_cluster v c = true -> exists e, fat_of m c = Some e.
Proof. intros Hs Hc. destruct (sound_fat m (c / 128) Hs (fat_index c Hc)) as [b Hb]. unfold fat_of. rewrite Hb. by eexists. Qed.
Lemma not_used m c : sound m -> is_cluster v c = true -> ~ used m c -> fat_of m c = Some 0.
Proof. intros Hs Hc Hn. destruct (fat_readable m c Hs Hc) as [e He]. rewrite He. f_equal. destruct (Z.eq_dec e 0) as [->|Hne]; [done|]. destruct Hn. split; [done|]. by exists e. Qed.
Lemma start_inv s : sound (card s) -> coherent s -> fat_dirty s = false -> (forall c, lfat s c = fat_of (card s) c) -> 2 <= next_free s -> inv (card s) s.
Proof.
  intros Hs Hc Hd Hl Hn. split; try done. intros c e Hcc Hu He Hce. rewrite Hl, (not_used _ _ Hs Hcc Hu) in He. injection He as <-. apply cluster_range in Hce. lia.
Qed.
Lemma rebase m0 s : inv m0 s -> fat_dirty s = false -> inv (card s) s.
Proof. intros H Hd. apply start_inv; [apply (i_sound _ _ H)|apply (i_coherent _ _ H)|done| |apply (i_next _ _ H)]. intros c. by apply (clean_log m0). Qed.

(** ** A directory's slots *)

(** A directory's chain on a card, to its end, every sector there. *)
Fixpoint dir_chain (m : gmap Z bytes) (cs : list Z) : Prop :=
  match cs with
  | [] => False
  | c :: t => is_cluster v c = true /\ (forall i, 0 <= i < spc -> is_Some (m !! (cluster_lba v c + i))) /\
      match t with [] => exists e, fat_of m c = Some e /\ EOC_MIN <= e | c' :: _ => fat_of m c = Some c' /\ dir_chain m t end
  end.
Definition secs (m : gmap Z bytes) (c k n : Z) : list bytes := concat (map (fun i => chunks ENTRY (default [] (m !! (cluster_lba v c + i)))) (seqZ k n)).
Definition slots (m : gmap Z bytes) (cs : list Z) : list bytes := concat (map (fun c => secs m c 0 spc) cs).
Lemma secs_split m c k j n : 0 <= j -> j <= n -> secs m c k n = secs m c k j ++ secs m c (k + j) (n - j).
Proof. intros Hj Hn. unfold secs. replace n with (j + (n - j)) at 1 by lia. by rewrite seqZ_app, map_app, concat_app by lia. Qed.
Lemma secs_cons m c k n : 0 < n -> secs m c k n = chunks ENTRY (default [] (m !! (cluster_lba v c + k))) ++ secs m c (k + 1) (n - 1).
Proof. intros Hn. unfold secs. rewrite seqZ_cons by done. cbn [map concat]. by rewrite <- Z.add_1_r, <- Z.sub_1_r. Qed.
Lemma secs_nil m c k n : n <= 0 -> secs m c k n = []. Proof. intros Hn. unfold secs. by rewrite seqZ_nil. Qed.
Lemma slots_app m a b : slots m (a ++ b) = slots m a ++ slots m b. Proof. unfold slots. by rewrite map_app, concat_app. Qed.
Lemma secs_ext m m' c k n : (forall i, k <= i < k + n -> m' !! (cluster_lba v c + i) = m !! (cluster_lba v c + i)) -> secs m' c k n = secs m c k n.
Proof.
  intros H. unfold secs. f_equal. apply map_ext_in. intros i Hi. apply list_elem_of_In, elem_of_seqZ in Hi. by rewrite H by lia.
Qed.
Lemma slots_ext m m' cs : (forall c i, c ∈ cs -> 0 <= i < spc -> m' !! (cluster_lba v c + i) = m !! (cluster_lba v c + i)) -> slots m' cs = slots m cs.
Proof.
  induction cs as [|c cs IH]; intros H; [done|]. unfold slots in *. cbn [map concat]. rewrite IH by (intros; apply H; [by right|done]). f_equal. apply secs_ext. intros i Hi. apply H; [by left|lia].
Qed.
Lemma chunks_cut {A} n i (l : list A) : 0 < n -> 0 <= i -> n * i <= len l -> chunks n (take (Z.to_nat (n * i)) l) = take (Z.to_nat i) (chunks n l) /\ chunks n (drop (Z.to_nat (n * i)) l) = drop (Z.to_nat i) (chunks n l).
Proof.
  intros Hn Hi Hl. assert (E : chunks n l = chunks n (take (Z.to_nat (n * i)) l) ++ chunks n (drop (Z.to_nat (n * i)) l)).
  { rewrite <- chunks_app; [by rewrite take_drop|done|]. rewrite len_take. replace (Z.min (Z.of_nat (Z.to_nat (n * i))) (len l)) with (i * n) by lia. apply Z_mod_mult. }
  assert (Hlen : length (chunks n (take (Z.to_nat (n * i)) l)) = Z.to_nat i).
  { enough (len (chunks n (take (Z.to_nat (n * i)) l)) = i) by (unfold len in *; lia). rewrite len_chunks, len_take by done. replace (Z.min (Z.of_nat (Z.to_nat (n * i))) (len l)) with (n * i) by lia. apply cdiv_unique; lia. }
  rewrite E, <- Hlen. by rewrite take_app_length, drop_app_length.
Qed.
(** A sector with one slot changed. *)
Lemma chunks_put (buf : bytes) i e raw : 0 <= i -> len buf mod ENTRY = 0 -> len raw = ENTRY -> chunks ENTRY buf !! Z.to_nat i = Some e ->
  chunks ENTRY (slice_assign buf (i * ENTRY) (i * ENTRY + ENTRY) raw) = take (Z.to_nat i) (chunks ENTRY buf) ++ raw :: drop (S (Z.to_nat i)) (chunks ENTRY buf) /\
  chunks ENTRY buf = take (Z.to_nat i) (chunks ENTRY buf) ++ e :: drop (S (Z.to_nat i)) (chunks ENTRY buf).
Proof.
  intros Hi Hm Hr He. split; [|by rewrite take_drop_middle]. unfold ENTRY in *. apply lookup_lt_Some in He.
  assert (Hl : 32 * (i + 1) <= len buf). { assert (len (chunks 32 buf) = len buf / 32) as E by (rewrite len_chunks by lia; apply cdiv_unique; [lia|dlia]). unfold len at 1 in E. assert (i + 1 <= len buf / 32) by lia. dlia. }
  unfold slice_assign. destruct (chunks_cut 32 i buf) as [Ht _]; [lia..|]. destruct (chunks_cut 32 (i + 1) buf) as [_ Hd]; [lia..|].
  replace (i * 32 + 32) with (32 * (i + 1)) by lia. replace (i * 32) with (32 * i) by lia. rewrite !chunks_app; [|lia| |lia|].
  - rewrite Ht, Hd. f_equal. rewrite chunks_step; [|lia|intros ->; rewrite len_nil in Hr; lia]. rewrite take_ge, drop_ge by (unfold len in Hr; lia). cbn [app chunks chunks_fuel length]. f_equal. f_equal. lia.
  - by rewrite Hr.
  - rewrite len_take. replace (Z.min (Z.of_nat (Z.to_nat (32 * i))) (len buf)) with (i * 32) by lia. apply Z_mod_mult.
Qed.
(** Where slot [i] of sector [lba] is among the slots of [cs]: what is before it, it, the rest. *)
Definition at_slot (m : gmap Z bytes) (cs : list Z) (lba i : Z) (A : list bytes) (e : bytes) (B : list bytes) : Prop :=
  exists pre c post j buf, cs = pre ++ c :: post /\ 0 <= j < spc /\ lba = cluster_lba v c + j /\ m !! lba = Some buf /\ 0 <= i /\ chunks ENTRY buf !! Z.to_nat i = Some e /\
    A = slots m pre ++ secs m c 0 j ++ take (Z.to_nat i) (chunks ENTRY buf) /\ B = drop (S (Z.to_nat i)) (chunks ENTRY buf) ++ secs m c (j + 1) (spc - j - 1) ++ slots m post.
Lemma slots_cons m c cs : slots m (c :: cs) = secs m c 0 spc ++ slots m cs. Proof. done. Qed.
Lemma at_slot_put m cs lba i A e B raw : sound m -> NoDup cs -> at_slot m cs lba i A e B -> len raw = ENTRY ->
  slots m cs = A ++ e :: B /\ exists buf, m !! lba = Some buf /\ let b := slice_assign buf (i * ENTRY) (i * ENTRY + ENTRY) raw in len b = 512 /\ slots (<[lba := b]> m) cs = A ++ raw :: B.
Proof.
  intros Hs Hd (pre & c & post & j & buf & -> & Hj & -> & Hb & Hi & He & -> & ->) Hr. pose proof (sound_len _ Hs _ _ Hb) as Hlen.
  destruct (chunks_put buf i e raw Hi ltac:(by rewrite Hlen) Hr He) as [Hput Hold]. rewrite !slots_app, !slots_cons. split.
  - rewrite (secs_split m c 0 j spc), (secs_cons m c (0 + j)) by lia. rewrite Z.add_0_l, Hb. cbn [default from_option id]. rewrite Hold at 1. by rewrite <- !app_assoc.
  - exists buf. split; [done|]. set (b := slice_assign _ _ _ _) in *. split.
    { unfold b. replace (i * ENTRY + ENTRY) with (i * ENTRY + len raw) by (rewrite Hr; lia). rewrite len_slice_assign; [done|unfold ENTRY; lia|]. apply lookup_lt_Some in He.
      assert (len (chunks ENTRY buf) = 16) as E by (rewrite len_chunks, Hlen by (unfold ENTRY; lia); done). rewrite Hr, Hlen. unfold ENTRY, len in *. lia. }
    apply NoDup_app in Hd as (_ & Hpre & Hpost). inversion_clear Hpost as [|? ? Hcn _].
    assert (Hne : forall c' k, c' ∈ pre ++ post -> 0 <= k < spc -> <[cluster_lba v c + j := b]> m !! (cluster_lba v c' + k) = m !! (cluster_lba v c' + k)).
    { intros c' k Hin Hk. apply lookup_insert_ne. intros E. apply cluster_sector_inj in E as [-> _]; [|done..]. apply elem_of_app in Hin as [Hin|Hin]; [apply (Hpre _ Hin); by left|done]. }
    rewrite !slots_app, slots_cons. rewrite (slots_ext m) by (intros c' k Hin Hk; apply Hne; [apply elem_of_app; by left|done]). rewrite (slots_ext m _ post) by (intros c' k Hin Hk; apply Hne; [apply elem_of_app; by right|done]).
    rewrite (secs_split _ c 0 j spc), (secs_cons _ c (0 + j)) by lia. rewrite Z.add_0_l, lookup_insert_eq. cbn [default from_option id]. rewrite Hput.
    rewrite (secs_ext m _ c 0 j) by (intros k Hk; apply lookup_insert_ne; lia). rewrite (secs_ext m _ c (j + 1)) by (intros k Hk; apply lookup_insert_ne; lia). by rewrite <- !app_assoc.
Qed.

Definition freeb (e : bytes) : bool := (at_byte e 0 =? 0) || (at_byte e 0 =? DELETED).
Definition nonfree (e : bytes) : Prop := freeb e = false.
Lemma dir_chain_cons m c cs : dir_chain m (c :: cs) -> used m c /\ (cs <> [] -> dir_chain m cs /\ fat_of m c = Some (hd 0 cs) /\ is_cluster v (hd 0 cs) = true).
Proof.
  cbn [dir_chain]. intros (Hc & Hs & Ht). destruct cs as [|c' cs].
  - destruct Ht as (e & He & Hm). split; [|done]. split; [done|]. exists e. split; [done|]. unfold EOC_MIN in Hm. lia.
  - destruct Ht as [He Ht]. pose proof Ht as Ht'. cbn [dir_chain] in Ht'. destruct Ht' as (Hc' & _). split; [|done]. split; [done|]. exists c'. split; [done|]. apply cluster_range in Hc'. lia.
Qed.
Lemma dir_chain_used m cs c : dir_chain m cs -> c ∈ cs -> used m c.
Proof.
  induction cs as [|c' cs IH]; [by intros _ ?%not_elem_of_nil|]. intros [Hu Ht]%dir_chain_cons [->|Hin]%elem_of_cons; [done|]. apply IH; [|done]. apply Ht. by intros ->; apply not_elem_of_nil in Hin.
Qed.
Lemma entries_spec lba i sl : snd (w_entries is_free tt lba i sl) = None /\ Forall nonfree sl \/
  exists k e, snd (w_entries is_free tt lba i sl) = Some (lba, i + Z.of_nat k) /\ sl !! k = Some e /\ freeb e = true /\ Forall nonfree (take k sl).
Proof.
  revert i. induction sl as [|e sl IH]; intros i; cbn [w_entries is_free]; [left; split; [done|constructor]|]. fold (freeb e). destruct (freeb e) eqn:E.
  - right. exists 0%nat, e. split; [cbn; do 2 f_equal; lia|]. split; [done|]. split; [done|constructor].
  - destruct (IH (i + 1)) as [[H1 H2]|(k & e' & H1 & H2 & H3 & H4)]; [left; split; [done|by constructor]|]. right. exists (S k), e'. rewrite H1. split; [do 2 f_equal; lia|]. split; [done|]. split; [done|]. cbn [take]. by constructor.
Qed.
Lemma free_sectors_keep m0 s c k n : inv m0 s -> used m0 c -> 0 <= k -> k + Z.of_nat n = spc ->
  keeping (still m0 s) (w_sectors fates is_free n tt (cluster_lba v c + k)) s (fun r s' =>
    match snd r with
    | None => Forall nonfree (secs m0 c k (Z.of_nat n))
    | Some (lba, i) => exists j buf e, k <= j < spc /\ lba = cluster_lba v c + j /\ m0 !! lba = Some buf /\ 0 <= i /\ chunks ENTRY buf !! Z.to_nat i = Some e /\ freeb e = true /\
        Forall nonfree (secs m0 c k (j - k) ++ take (Z.to_nat i) (chunks ENTRY buf))
    end).
Proof.
  intros H Hu Hk Hn. revert k s H Hk Hn. induction n as [|n IH]; intros k s H Hk Hn; cbn [w_sectors]; [apply keeping_ret; [by apply still_refl|]; cbn; rewrite secs_nil by lia; constructor|].
  eapply keeping_still; [by apply (read_keeps m0)|]. intros buf s1 [I1 Q1] (Hb & _). rewrite (i_data _ _ H) in Hb by (done || lia).
  pose proof (entries_spec (cluster_lba v c + k) 0 (chunks ENTRY buf)) as He. destruct (w_entries is_free tt (cluster_lba v c + k) 0 (chunks ENTRY buf)) as [[] r]. cbn [snd] in He.
  pose proof (still_refl _ _ I1) as Hst.
  destruct He as [[-> Hf]|(i & e & -> & Hi & Hfe & Hf)].
  - rewrite <- Z.add_assoc. eapply keeping_weaken; [apply (IH (k + 1) s1 I1); lia|done|]. intros [[] r] s2 _. cbn [snd]. destruct r as [[lba i]|].
    + intros (j & b & e & Hj & -> & Hbj & Hi & He & Hfe & Hall). exists j, b, e. split; [lia|]. split; [done|]. split; [done|]. split; [done|]. split; [done|]. split; [done|].
      rewrite secs_cons by lia. rewrite Hb. cbn [default from_option id]. rewrite <- app_assoc. apply Forall_app. split; [done|]. by replace (j - k - 1) with (j - (k + 1)) by lia.
    + intros Hall. rewrite secs_cons by lia. rewrite Hb. cbn [default from_option id]. apply Forall_app. split; [done|]. by replace (Z.of_nat (S n) - 1) with (Z.of_nat n) by lia.
  - apply keeping_ret; [done|]. cbn [snd]. exists k, buf, e. split; [lia|]. split; [done|]. split; [done|]. split; [lia|]. rewrite Z.add_0_l, Nat2Z.id. split; [done|]. split; [done|]. rewrite secs_nil by lia. done.
Qed.
Lemma free_walk_keeps m0 fuel s cs : inv m0 s -> dir_chain m0 cs ->
  keeping (still m0 s) (w_slots fates v is_free fuel tt (hd 0 cs)) s (fun r s' =>
    match snd r with
    | inl (lba, i) => exists A e B, at_slot m0 cs lba i A e B /\ Forall nonfree A /\ freeb e = true
    | inr l => last cs = Some l /\ Forall nonfree (slots m0 cs)
    end).
Proof.
  revert s cs. induction fuel as [|fuel IH]; intros s cs H Hd; cbn [w_slots]; [apply keeping_throw; by apply still_refl|]. destruct cs as [|c cs]; [done|]. cbn [hd].
  destruct (dir_chain_cons _ _ _ Hd) as [Hu Ht]. rewrite (used_cluster _ _ Hu). cbn [negb].
  eapply keeping_still; [rewrite <- (Z.add_0_r (cluster_lba v c)); apply (free_sectors_keep m0 s c 0); [done|done|lia|rewrite sectors_spc; lia]|]. intros [[] r] s1 Hs1. cbn [snd]. rewrite sectors_spc.
  destruct r as [[lba i]|].
  - intros (j & buf & e & Hj & -> & Hb & Hi & He & Hfe & Hall). apply keeping_ret; [apply still_refl, Hs1|]. cbn [snd]. rewrite Z.sub_0_r in Hall.
    eexists _, e, _. split; [exists [], c, cs, j, buf; split_and!; try done; lia|]. done.
  - intros Hall. pose proof Hs1 as [I1 Q1]. eapply keeping_still; [apply (next_keeps m0 s1 c I1); by apply (used_cluster m0)|].
    intros n s2 Hs2 (e & He & ->). rewrite (i_log _ _ I1 c Hu) in He. destruct cs as [|c' cs].
    + cbn [dir_chain] in Hd. destruct Hd as (_ & _ & e' & He' & Hm). rewrite He' in He. injection He as <-. rewrite (proj2 (Z.leb_le _ _) Hm). apply keeping_ret; [apply still_refl, Hs2|]. cbn [snd last]. split; [done|].
      rewrite slots_cons. apply Forall_app. split; [done|constructor].
    + destruct (Ht ltac:(done)) as (Hd' & Hc' & Hcl). rewrite Hc' in He. injection He as <-. cbn [hd] in Hcl |- *. pose proof (cluster_range c') as Hr. destruct (Z.leb_spec EOC_MIN c') as [Hm|_]; [apply Hr in Hcl; pose proof (g_max _ Hg); lia|].
      pose proof Hs2 as [I2 Q2]. eapply keeping_weaken; [apply (IH s2 (c' :: cs) I2 Hd')|done|]. intros [[] r] s3 _. cbn [snd]. destruct r as [[lba i]|l].
      * intros (A & e & B & (pre & c2 & post & j & buf & E & Hj & -> & Hb & Hi & He2 & -> & ->) & HA & Hfe). eexists _, e, _. split.
        { exists (c :: pre), c2, post, j, buf. split; [by rewrite E|]. split_and!; try done; lia. }
        split; [|done]. rewrite slots_cons, <- app_assoc. apply Forall_app. by split.
      * intros [Hl Hf]. split; [done|]. rewrite slots_cons. apply Forall_app. by split.
Qed.

(** ** What the reader finds *)

Lemma dir_chain_det m c cs cs' : dir_chain m (c :: cs) -> dir_chain m (c :: cs') -> cs = cs'.
Proof.
  revert c cs'. induction cs as [|c1 cs IH]; intros c cs' H H'; cbn [dir_chain] in H, H'; destruct H as (_ & _ & H), H' as (_ & _ & H'), cs' as [|c1' cs'].
  - done.
  - destruct H as (e & He & Hm), H' as [He' H']. cbn [dir_chain] in H'. destruct H' as (Hc & _). rewrite He in He'. injection He' as ->. apply cluster_range in Hc. pose proof (g_max _ Hg). lia.
  - destruct H' as (e & He & Hm), H as [He' H]. cbn [dir_chain] in H. destruct H as (Hc & _). rewrite He in He'. injection He' as ->. apply cluster_range in Hc. pose proof (g_max _ Hg). lia.
  - destruct H as [E H], H' as [E' H']. rewrite E in E'. injection E' as <-. f_equal. by apply (IH c1).
Qed.
Lemma dir_chain_suffix m a b : b <> [] -> dir_chain m (a ++ b) -> dir_chain m b.
Proof. intros Hb. induction a as [|c a IH]; [done|]. cbn [app]. intros [_ Ht]%dir_chain_cons. apply IH, Ht. by destruct a, b. Qed.
Lemma dir_chain_nodup m cs : dir_chain m cs -> NoDup cs.
Proof.
  induction cs as [|c cs IH]; [constructor|]. intros H. constructor.
  - intros Hin. apply list_elem_of_split in Hin as (a & b & ->). pose proof (dir_chain_suffix m (c :: a) (c :: b) ltac:(done) H) as H'. apply (dir_chain_det _ _ _ _ H) in H'. apply (f_equal length) in H'. rewrite length_app in H'. cbn in H'. lia.
  - destruct (dir_chain_cons _ _ _ H) as [_ Ht]. destruct cs as [|c' cs]; [constructor|]. apply IH. by apply Ht.
Qed.
Lemma nodup_clusters cs : NoDup cs -> Forall (fun c => is_cluster v c = true) cs -> (length cs <= Z.to_nat (cluster_end v))%nat.
Proof.
  intros Hd Hc. assert (Hsub : cs ⊆+ seqZ 0 (cluster_end v)).
  { apply NoDup_submseteq; [done|]. intros c Hin. rewrite Forall_forall in Hc. apply elem_of_seqZ. pose proof (proj1 (cluster_range c) (Hc c Hin)). lia. }
  apply submseteq_length in Hsub. by rewrite length_seqZ in Hsub.
Qed.
Lemma walk_sectors_secs {R} (f : bytes -> option R) m c k n : (forall i, k <= i < k + Z.of_nat n -> is_Some (m !! (cluster_lba v c + i))) ->
  walk_sectors (dev_of m) f n (cluster_lba v c + k) = Good (walk_entries f (secs m c k (Z.of_nat n))).
Proof.
  revert k. induction n as [|n IH]; intros k H; cbn [walk_sectors]; [by rewrite secs_nil|]. unfold read. destruct (H k ltac:(lia)) as [b Hb]. change (dev_of m (cluster_lba v c + k)) with (m !! (cluster_lba v c + k)). rewrite Hb. cbn [mbind fres_bind].
  rewrite secs_cons by lia. rewrite Hb. cbn [default from_option id]. rewrite walk_entries_app. destruct (walk_entries f (chunks ENTRY b)); [done|]. rewrite <- Z.add_assoc, IH by (intros; apply H; lia). do 3 f_equal. lia.
Qed.
Lemma next_of m c : next_cluster (dev_of m) v c = match fat_of m c with Some e => if EOC_MIN <=? e then Good None else if is_cluster v e then Good (Some e) else Bad (BadChain c) | None => Bad (Io (fat_lba v + c / 128)) end.
Proof. unfold next_cluster. rewrite reader_fat. by destruct (fat_of m c). Qed.
Lemma walk_chain {R} (f : bytes -> option R) m cs fuel : dir_chain m cs -> (length cs <= fuel)%nat -> walk_slots (dev_of m) v f fuel (hd 0 cs) = Good (walk_entries f (slots m cs)).
Proof.
  revert cs. induction fuel as [|fuel IH]; intros cs H Hl; destruct cs as [|c cs]; [done|cbn in Hl; lia|done|]. cbn [walk_slots hd]. pose proof H as H'. cbn [dir_chain] in H'. destruct H' as (Hc & Hs & Ht). rewrite Hc. cbn [negb].
  rewrite <- (Z.add_0_r (cluster_lba v c)), walk_sectors_secs by (rewrite sectors_spc; intros; apply Hs; lia). rewrite sectors_spc. cbn [mbind fres_bind]. rewrite slots_cons, walk_entries_app.
  destruct (walk_entries f (secs m c 0 spc)); [done|]. rewrite next_of. destruct cs as [|c' cs].
  - destruct Ht as (e & -> & Hm). by rewrite (proj2 (Z.leb_le _ _) Hm).
  - destruct Ht as [-> Ht]. pose proof Ht as Ht'. cbn [dir_chain] in Ht'. destruct Ht' as (Hc' & _). rewrite Hc'. pose proof (proj1 (cluster_range c') Hc'). pose proof (g_max _ Hg).
    rewrite (proj2 (Z.leb_gt _ _)) by lia. cbn [mbind fres_bind]. apply (IH (c' :: cs)); [done|]. cbn in *. lia.
Qed.
(** A name among slots. *)
Definition lookup_name (n : bytes) (sl : list bytes) : option DirEntry :=
  match walk_entries (find_slot (fun e => bool_decide (e_name e = n))) sl with Some found => found | None => None end.
Lemma find_in m cs d n : dir_chain m cs -> e_cluster d = hd 0 cs -> entry_is_dir d = true -> vol_find (dev_of m) v d n = Good (lookup_name n (slots m cs)).
Proof.
  intros H Hd Hdir. unfold vol_find, find_entry. rewrite Hdir, Hd. cbn [negb]. rewrite walk_chain; [done|done|]. apply nodup_clusters; [by apply (dir_chain_nodup m)|]. apply Forall_forall. intros c Hc. apply (used_cluster m). by apply (dir_chain_used m cs).
Qed.

Definition unused_slot (e : bytes) : Prop := at_byte e 0 = 0.
(** Past the first unused slot, all are. *)
Definition zero_tail (D : list bytes) : Prop := forall A e B, D = A ++ e :: B -> unused_slot e -> Forall unused_slot B.

Lemma find_nonfree f e : nonfree e -> find_slot f e = None \/ exists d, find_slot f e = Some (Some d) /\ f d = true.
Proof.
  unfold nonfree, freeb, find_slot. intros [H1 H2]%orb_false_iff. rewrite H1, H2. destruct (_ =? ATTR_LFN); [by left|]. destruct (negb _); [by left|]. destruct (f (parse_entry e)) eqn:E; [right; by eexists|by left].
Qed.
Lemma find_unused f e : unused_slot e -> find_slot f e = Some None.
Proof. unfold unused_slot, find_slot. by intros ->. Qed.
Lemma find_unused_all f Z : Forall unused_slot Z -> walk_entries (find_slot f) Z = None \/ walk_entries (find_slot f) Z = Some None.
Proof. intros H. destruct H as [|e Z He _]; [by left|]. cbn [walk_entries]. rewrite find_unused by done. by right. Qed.
Lemma find_nonfree_all f A : Forall nonfree A -> walk_entries (find_slot f) A = None \/ exists d, walk_entries (find_slot f) A = Some (Some d).
Proof.
  induction 1 as [|e A He _ IH]; [by left|]. cbn [walk_entries]. destruct (find_nonfree f e He) as [-> |(d & -> & _)]; [done|right; by eexists].
Qed.
(** Names other than the entry's stay as they were. *)
Lemma entered_other n raw A e B : zero_tail (A ++ e :: B) -> freeb e = true -> find_slot (fun e => bool_decide (e_name e = n)) raw = None -> lookup_name n (A ++ raw :: B) = lookup_name n (A ++ e :: B).
Proof.
  intros Hz He Hr. unfold lookup_name. set (f := fun e => bool_decide (e_name e = n)) in *. rewrite !walk_entries_app. destruct (walk_entries (find_slot f) A) as [[]|]; [done..|]. cbn [walk_entries]. rewrite Hr.
  unfold freeb in He. apply orb_true_iff in He as [He|He]; apply Z.eqb_eq in He.
  - rewrite (find_unused f e He). destruct (find_unused_all f B (Hz A e B eq_refl He)) as [-> | ->]; done.
  - replace (find_slot f e) with (@None (option DirEntry)); [done|]. unfold find_slot. by rewrite He.
Qed.
(** And the entry is found by its name, if it wasn't there. *)
Lemma entered_found n raw A e B d : Forall nonfree A -> lookup_name n (A ++ e :: B) = None -> find_slot (fun e => bool_decide (e_name e = n)) raw = Some (Some d) -> lookup_name n (A ++ raw :: B) = Some d.
Proof.
  intros HA Hn Hr. unfold lookup_name in *. rewrite walk_entries_app in *. destruct (find_nonfree_all (fun e => bool_decide (e_name e = n)) A HA) as [E|[x E]]; rewrite E in *; [|done]. cbn [walk_entries]. by rewrite Hr.
Qed.
Lemma entry_bytes_spec name attr c size : len name = 11 -> 0 <= attr < 256 -> 0 <= c < 2 ^ 32 -> 0 <= size < 2 ^ 32 ->
  len (entry_bytes name attr c size) = ENTRY /\ parse_entry (entry_bytes name attr c size) = mkEntry name attr c size /\ at_byte (entry_bytes name attr c size) 11 = attr /\ at_byte (entry_bytes name attr c size) 0 = at_byte name 0.
Proof.
  intros Hn Ha Hc Hs. assert (Hlen : length name = 11%nat) by (unfold len in Hn; lia). set (e := entry_bytes name attr c size).
  assert (He : len e = 32) by (unfold e, entry_bytes; autorewrite with lens; rewrite Hn, !len_zeros by lia; reflexivity).
  assert (Ht : take 11 e = name) by (unfold e, entry_bytes; by rewrite take_app_length').
  assert (H11 : at_byte e 11 = attr). { unfold e, entry_bytes. rewrite at_byte_app_r, Hn by lia. simpl (_ - _). rewrite at_byte_app_l by (unfold len; simpl; lia). by apply at_byte_split1. }
  split; [done|]. split; [|split; [done|unfold e, entry_bytes; by rewrite at_byte_app_l by lia]]. unfold parse_entry, le16, le32. rewrite !fw_le16_unpack, fw_le32_unpack by (rewrite ?He; lia). rewrite Ht, H11. f_equal.
  - assert (unpack_uint 2 20 e = Z.shiftr c 16) as ->.
    { assert (0 <= Z.shiftr c 16 < 65536) by (rewrite shiftr_div by lia; dlia). unfold unpack_uint, e, entry_bytes, zeros. entry_field. }
    assert (unpack_uint 2 26 e = Z.land c 0xFFFF) as ->.
    { assert (0 <= Z.land c 0xFFFF < 65536) by (rewrite (land_mask c 16) by lia; apply Z.mod_pos_bound; lia). unfold unpack_uint, e, entry_bytes, zeros. entry_field. }
    rewrite shiftr_div, (land_mask c 16) by lia. rewrite lor_shiftl_add by (try lia; apply Z.mod_pos_bound; lia). pose proof (Z.div_mod c (2 ^ 16)). lia.
  - unfold unpack_uint, e, entry_bytes, zeros. entry_field.
Qed.

(** A card without the sectors of some clusters. *)
Definition hidden (m : gmap Z bytes) (cs : list Z) (l : Z) : option bytes :=
  if existsb (fun c => (cluster_lba v c <=? l) && (l <? cluster_lba v c + spc)) cs then None else m !! l.
Lemma hidden_in m cs c i b : 0 <= i < spc -> hidden m cs (cluster_lba v c + i) = Some b -> (c ∉ cs) /\ m !! (cluster_lba v c + i) = Some b.
Proof.
  unfold hidden. intros Hi. destruct (existsb _ cs) eqn:E; [done|]. intros Hb. split; [|done]. intros Hin. apply not_true_iff_false in E. apply E. apply existsb_exists. exists c. split; [by apply list_elem_of_In|]. lia.
Qed.
Lemma hidden_out m cs c i : 0 <= i < spc -> c ∉ cs -> hidden m cs (cluster_lba v c + i) = m !! (cluster_lba v c + i).
Proof.
  unfold hidden. intros Hi Hn. destruct (existsb _ cs) eqn:E; [|done]. apply existsb_exists in E as (c' & Hin & E). destruct Hn. apply list_elem_of_In in Hin.
  assert (c = c') as ->; [|done]. apply (cluster_sector_inj c i c' (cluster_lba v c + i - cluster_lba v c')); lia.
Qed.
Lemma hidden_fat m cs c : Forall (fun c => is_cluster v c = true) cs -> is_cluster v c = true -> vol_fat_entry (hidden m cs) v c = vol_fat_entry (dev_of m) v c.
Proof.
  intros Hcs Hc. unfold vol_fat_entry, read. rewrite shift7. unfold dev_of. pose proof (fat_below _ (fat_index c Hc)). replace (hidden m cs (fat_lba v + c / 128)) with (m !! (fat_lba v + c / 128)); [done|].
  unfold hidden. destruct (existsb _ cs) eqn:E; [|done]. apply existsb_exists in E as (c' & Hin & E). rewrite Forall_forall in Hcs. apply list_elem_of_In, Hcs in Hin. pose proof (data_above c' 0 Hin). lia.
Qed.
(** What a change of [m0] outside [cs] leaves for the reader. *)
Record after (m0 m : gmap Z bytes) (cs : list Z) : Prop := {
  af_data c i : used m0 c -> c ∉ cs -> 0 <= i < spc -> m !! (cluster_lba v c + i) = m0 !! (cluster_lba v c + i);
  af_fat c : used m0 c -> c ∉ cs -> fat_of m c = fat_of m0 c
}.
Lemma read_sectors_ext dev dev' n lba rest acc : (forall i, 0 <= i < Z.of_nat n -> dev' (lba + i) = dev (lba + i)) -> read_sectors dev' n lba rest acc = read_sectors dev n lba rest acc.
Proof.
  revert lba rest acc. induction n as [|n IH]; intros lba rest acc H; [done|]. cbn [read_sectors]. unfold read. rewrite <- (Z.add_0_r lba), (H 0) by lia. destruct (dev (lba + 0)); [|done]. cbn [mbind fres_bind].
  destruct (_ =? 0); [done|]. rewrite Z.add_0_r. apply IH. intros i Hi. rewrite <- !Z.add_assoc. apply H. lia.
Qed.
Lemma entry_used m c e : is_cluster v c = true -> fat_of m c = Some e -> EOC_MIN <= e \/ is_cluster v e = true -> used m c.
Proof. intros Hc He H. split; [done|]. exists e. split; [done|]. unfold EOC_MIN in H. destruct H as [H|H%cluster_range]; lia. Qed.
Lemma read_clusters_after m0 m cs fuel c rest acc content : after m0 m cs -> Forall (fun c => is_cluster v c = true) cs ->
  read_clusters (hidden m0 cs) v fuel c rest acc = Good content -> read_clusters (dev_of m) v fuel c rest acc = Good content.
Proof.
  intros Ha Hcs. revert c rest acc. induction fuel as [|fuel IH]; intros c rest acc; cbn [read_clusters]; [done|]. destruct (is_cluster v c) eqn:Hc; cbn [negb]; [|done].
  destruct (read_sectors (hidden m0 cs) _ (cluster_lba v c) rest acc) as [[acc1 rest1]|] eqn:Er; [|done]. cbn [mbind fres_bind]. unfold next_cluster at 1. rewrite hidden_fat, reader_fat by done.
  destruct (fat_of m0 c) as [e|] eqn:He; [|done]. cbn [mbind fres_bind mret fres_ret].
  assert (Hin : c ∉ cs).
  { pose proof sectors_spc as Hn. pose proof spc_pos. destruct (Z.to_nat (Z.shiftl 1 (cluster_shift v))) as [|n]; [lia|]. cbn [read_sectors] in Er. unfold read in Er. destruct (hidden m0 cs (cluster_lba v c)) as [b|] eqn:Eh; [|done].
    rewrite <- (Z.add_0_r (cluster_lba v c)) in Eh. by apply hidden_in in Eh as [? _]. }
  assert (Hgo : used m0 c -> read_sectors (dev_of m) (Z.to_nat (Z.shiftl 1 (cluster_shift v))) (cluster_lba v c) rest acc = Good (acc1, rest1) /\ fat_of m c = Some e).
  { intros Hu. rewrite (af_fat _ _ _ Ha) by done. split; [|done]. rewrite <- Er. apply read_sectors_ext. rewrite sectors_spc. intros i Hi. unfold dev_of. rewrite (af_data _ _ _ Ha) by done. by rewrite hidden_out. }
  destruct (EOC_MIN <=? e) eqn:Ee; cbn [mbind fres_bind mret fres_ret].
  - destruct Hgo as [-> Hf]; [apply (entry_used m0 c e); [done|done|left; lia]|]. cbn [mbind fres_bind]. rewrite next_of, Hf, Ee. done.
  - destruct (is_cluster v e) eqn:Ece; cbn [mbind fres_bind mret fres_ret]; [|done]. destruct Hgo as [-> Hf]; [apply (entry_used m0 c e); [done|done|by right]|]. cbn [mbind fres_bind]. rewrite next_of, Hf, Ee, Ece. cbn [mbind fres_bind].
    destruct (rest1 =? 0); [done|apply IH].
Qed.
Lemma read_to_after m0 m cs f k content : after m0 m cs -> Forall (fun c => is_cluster v c = true) cs -> read_to (hidden m0 cs) v f k = Good content -> read_to (dev_of m) v f k = Good content.
Proof.
  intros Ha Hcs. unfold read_to, for_each_sector. destruct (_ <? _); [done|]. destruct (entry_is_dir f); [done|]. destruct (_ =? 0); [done|]. by apply read_clusters_after.
Qed.
(** A new file's clusters read back. *)
Lemma read_sectors_stored dev n lba d rest acc : d <> [] -> (forall j ch, chunks SECTOR d !! j = Some ch -> dev (lba + Z.of_nat j) = Some (ljust ch SECTOR x00)) ->
  len d <= rest -> len d = rest \/ len d = 512 * Z.of_nat n -> len d <= 512 * Z.of_nat n -> read_sectors dev n lba rest acc = Good (acc ++ d, rest - len d).
Proof.
  intros Hd. revert d lba rest acc Hd. induction n as [|n IH]; intros d lba rest acc Hd Hdev Hr Hor Hn; [destruct d; [done|]; rewrite len_cons in Hn; pose proof (len_nonneg d); lia|].
  cbn [read_sectors]. rewrite chunks_step in Hdev by (unfold SECTOR; done || lia). pose proof (Hdev 0%nat _ eq_refl) as H0. rewrite Z.add_0_r in H0. unfold read. rewrite H0. cbn [mbind fres_bind]. unfold SECTOR in *.
  change (Z.to_nat 512) with 512%nat in *. assert (Hpos : 0 < len d) by (destruct d; [done|]; rewrite len_cons; pose proof (len_nonneg d); lia).
  destruct (Z.le_gt_cases (len d) 512) as [Hle|Hgt].
  - rewrite (take_ge d) by (unfold len in *; lia). destruct (Z.eq_dec (len d) rest) as [<-|Hne].
    + replace (Z.min (len d) 512) with (len d) by lia. replace (take (Z.to_nat (len d)) (ljust d 512 x00)) with d; [by rewrite Z.sub_diag|]. unfold ljust, len. rewrite Nat2Z.id. by rewrite take_app_length.
    + assert (len d = 512) as E by lia. replace (Z.min rest 512) with 512 by lia. unfold ljust. rewrite E. cbn [Z.sub replicate]. rewrite app_nil_r, take_ge by (unfold len in *; lia). rewrite (proj2 (Z.eqb_neq _ _)) by lia.
      assert (n = 0%nat) as -> by lia. done.
  - assert (Ht : len (take 512 d) = 512) by (rewrite len_take; lia). replace (Z.min rest 512) with 512 by lia. replace (take (Z.to_nat 512) (ljust (take 512 d) 512 x00)) with (take 512 d).
    2: { unfold ljust. rewrite Ht. cbn [Z.sub replicate]. rewrite app_nil_r. change (Z.to_nat 512) with 512%nat. by rewrite take_take. }
    rewrite (proj2 (Z.eqb_neq _ _)) by lia. rewrite (IH (drop 512 d)).
    + rewrite <- app_assoc, take_drop, len_drop. do 2 f_equal. lia.
    + intros E. assert (E0 : len (drop 512 d) = 0) by (by rewrite E). rewrite len_drop in E0. lia.
    + intros j ch Hj. rewrite <- (Hdev (S j) ch Hj). f_equal. lia.
    + rewrite len_drop. lia.
    + rewrite len_drop. lia.
    + rewrite len_drop. lia.
Qed.
Lemma cl_bytes_pos : 0 < cl_bytes. Proof. unfold cl_bytes. pose proof spc_pos. lia. Qed.
Lemma read_built m h cs d fuel acc : Forall (fun c => is_cluster v c = true) h -> Forall (fun c => is_cluster v c = true /\ c ∉ h) cs -> links (fat_of m) cs ->
  Forall2 (stored m) cs (chunks cl_bytes d) -> d <> [] -> (length cs <= fuel)%nat -> read_clusters (hidden m h) v fuel (hd 0 cs) (len d) acc = Good (acc ++ d).
Proof.
  intros Hh. pose proof cl_bytes_pos as Hcb. revert cs fuel acc. induction d as [|d Hd IH] using (chunk_ind cl_bytes Hcb); [done|]. intros cs fuel acc Hcs Hl Hst _ Hf.
  rewrite chunks_step in Hst by done. set (d1 := take (Z.to_nat cl_bytes) d) in *. set (d2 := drop (Z.to_nat cl_bytes) d) in *. inversion Hst as [|c ? cs' ? Hc Hst' E1 E2]; subst. clear Hst.
  inversion_clear Hcs as [|? ? [Hcl Hn] Hcs']. destruct fuel as [|fuel]; [cbn in Hf; lia|]. cbn [read_clusters hd]. rewrite Hcl. cbn [negb]. cbn [links] in Hl. destruct Hl as [Hfat Hl].
  assert (Hpos : 0 < len d) by (destruct d; [done|]; rewrite len_cons; pose proof (len_nonneg d); lia). assert (Hd1 : len d1 = Z.min cl_bytes (len d)) by (unfold d1; rewrite len_take; lia).
  assert (Hcount : len (chunks SECTOR d1) <= spc) by (apply chunks_count; unfold SECTOR, cl_bytes in *; pose proof spc_pos; lia).
  rewrite (read_sectors_stored _ _ _ d1); [| | |lia| |].
  - cbn [mbind fres_bind]. unfold next_cluster. rewrite hidden_fat, reader_fat, Hfat by done. cbn [mbind fres_bind]. destruct cs' as [|c' cs'].
    + assert (Hd2 : d2 = []). { destruct (decide (d2 = [])) as [|Hne]; [done|]. rewrite (chunks_step _ d2 Hcb Hne) in Hst'. inversion Hst'. }
      assert (E : d1 = d) by (unfold d1; rewrite <- (take_drop (Z.to_nat cl_bytes) d) at 2; fold d2; by rewrite Hd2, app_nil_r). rewrite E, Z.sub_diag. done.
    + assert (Hd2 : d2 <> []) by (intros E; rewrite E in Hst'; inversion Hst'). inversion Hcs' as [|? ? [Hcl' _] _]; subst. pose proof (proj1 (cluster_range c') Hcl'). pose proof (g_max _ Hg).
      rewrite (proj2 (Z.leb_gt EOC_MIN c')) by lia. rewrite Hcl'. cbn [mbind fres_bind mret fres_ret]. assert (Hl2 : len d2 = len d - len d1) by (unfold d1, d2; rewrite len_take, len_drop; lia).
      assert (0 < len d2) by (destruct d2; [done|]; rewrite len_cons; pose proof (len_nonneg d2); lia). rewrite (proj2 (Z.eqb_neq _ 0)) by lia. rewrite <- Hl2.
      change c' with (hd 0 (c' :: cs')). rewrite IH; [|done|done|done|done|cbn in *; lia]. rewrite <- app_assoc. unfold d1, d2. by rewrite take_drop.
  - intros E. rewrite E, len_nil in Hd1. lia.
  - intros j ch Hj. rewrite hidden_out; [by apply Hc| |done]. apply lookup_lt_Some in Hj. unfold len in *. lia.
  - rewrite sectors_spc. unfold cl_bytes in *. lia.
  - rewrite sectors_spc. unfold cl_bytes in *. lia.
Qed.

(** ** The directory's free slot *)

(** Nothing that [m0] uses changed. *)
Record kept (m0 m : gmap Z bytes) : Prop := {
  ke_sound : sound m;
  ke_head l : l <= part_lba v -> m !! l = m0 !! l;
  ke_data c i : used m0 c -> 0 <= i < spc -> m !! (cluster_lba v c + i) = m0 !! (cluster_lba v c + i);
  ke_fat c : used m0 c -> fat_of m c = fat_of m0 c
}.
Lemma inv_kept m0 s : inv m0 s -> kept m0 (card s).
Proof. by intros [A B C D E F G K]. Qed.
Lemma dir_chain_same m m' cs : dir_chain m cs -> (forall c i, c ∈ cs -> 0 <= i < spc -> m' !! (cluster_lba v c + i) = m !! (cluster_lba v c + i)) -> (forall c, c ∈ cs -> fat_of m' c = fat_of m c) -> dir_chain m' cs.
Proof.
  induction cs as [|c cs IH]; [done|]. intros H Hd Hf. cbn [dir_chain] in *. destruct H as (Hc & Hs & Ht). split; [done|]. split; [intros i Hi; rewrite Hd by (done || by left); by apply Hs|].
  rewrite (Hf c) by (by left). destruct cs as [|c' cs]; [done|]. destruct Ht as [He Ht]. split; [done|]. apply IH; [done| |]; [intros x i Hx; apply Hd; by right|intros x Hx; apply Hf; by right].
Qed.
Lemma kept_chain m0 m cs : kept m0 m -> dir_chain m0 cs -> dir_chain m cs /\ slots m cs = slots m0 cs.
Proof.
  intros [A B C D] Hd. assert (Hu : forall c, c ∈ cs -> used m0 c) by (intros c Hc; by apply (dir_chain_used m0 cs)). split.
  - apply (dir_chain_same m0); [done| |]; [intros c i Hc Hi; by apply C, Hi; apply Hu|intros c Hc; by apply D, Hu].
  - apply slots_ext. intros c i Hc Hi. apply C; [by apply Hu|done].
Qed.

(** The writer's [find] is the reader's. *)
Section Find.
Variables (f : went -> bool) (g : DirEntry -> bool).
Hypothesis Hfg : forall e, f e = g (w_entry e).
Definition found_as (r : option (option DirEntry)) (stop : option (Z * Z)) (found : option went) : Prop :=
  match stop with Some _ => r = Some (w_entry <$> found) | None => r = None /\ found = None end.
Lemma find_entries lba i sl lfn : let '((_, found), stop) := w_entries (find_step f) (lfn, None) lba i sl in found_as (walk_entries (find_slot g) sl) stop found.
Proof.
  revert i lfn. induction sl as [|e sl IH]; intros i lfn; cbn [w_entries walk_entries]; [done|]. unfold find_step at 1, find_slot at 1.
  destruct (_ =? 0); [done|]. destruct (_ =? DELETED); [apply IH|]. destruct (_ =? ATTR_LFN); [destruct (_ || _); apply IH|]. destruct (negb _); [apply IH|].
  destruct (default _ _) as [l k]. rewrite Hfg. cbn [w_entry]. destruct (g (parse_entry e)); [done|apply IH].
Qed.
Lemma find_sectors_keep m0 s c k n lfn : inv m0 s -> used m0 c -> 0 <= k -> k + Z.of_nat n <= spc ->
  keeping (still m0 s) (w_sectors fates (find_step f) n (lfn, None) (cluster_lba v c + k)) s (fun r s' => found_as (walk_entries (find_slot g) (secs m0 c k (Z.of_nat n))) (snd r) (snd (fst r))).
Proof.
  intros H Hu Hk Hn. revert k s lfn H Hk Hn. induction n as [|n IH]; intros k s lfn H Hk Hn; cbn [w_sectors]; [apply keeping_ret; [by apply still_refl|]; by rewrite secs_nil by lia|].
  eapply keeping_still; [by apply (read_keeps m0)|]. intros buf s1 [I1 Q1] (Hb & _). rewrite (i_data _ _ H) in Hb by (done || lia). pose proof (still_refl _ _ I1) as Hst.
  rewrite secs_cons, Hb by lia. cbn [default from_option id]. rewrite walk_entries_app.
  pose proof (find_entries (cluster_lba v c + k) 0 (chunks ENTRY buf) lfn) as He. destruct (w_entries (find_step f) _ _ _ _) as [[lfn' found] [at0|]]; cbn in He.
  - apply keeping_ret; [done|]. cbn [snd fst found_as]. by rewrite He.
  - destruct He as [-> ->]. rewrite <- Z.add_assoc. replace (Z.of_nat (S n) - 1) with (Z.of_nat n) by lia. apply IH; [done|lia|lia].
Qed.
Lemma find_walk_keeps m0 fuel s cs lfn : inv m0 s -> dir_chain m0 cs ->
  keeping (still m0 s) (w_slots fates v (find_step f) fuel (lfn, None) (hd 0 cs)) s (fun r s' => default None (walk_entries (find_slot g) (slots m0 cs)) = w_entry <$> snd (fst r)).
Proof.
  revert s cs lfn. induction fuel as [|fuel IH]; intros s cs lfn H Hd; cbn [w_slots]; [apply keeping_throw; by apply still_refl|]. destruct cs as [|c cs]; [done|]. cbn [hd].
  destruct (dir_chain_cons _ _ _ Hd) as [Hu Ht]. rewrite (used_cluster _ _ Hu). cbn [negb].
  eapply keeping_still; [rewrite <- (Z.add_0_r (cluster_lba v c)); apply (find_sectors_keep m0 s c 0); [done|done|lia|rewrite sectors_spc; lia]|]. intros [[lfn' found] r] s1 Hs1. cbn [snd fst]. rewrite sectors_spc, slots_cons, walk_entries_app.
  destruct r as [at0|]; [intros ->; apply keeping_ret; [apply still_refl, Hs1|done]|]. intros [-> ->]. pose proof Hs1 as [I1 Q1]. eapply keeping_still; [apply (next_keeps m0 s1 c I1); by apply (used_cluster m0)|].
  intros n s2 Hs2 (e & He & ->). rewrite (i_log _ _ I1 c Hu) in He. destruct cs as [|c' cs].
  - cbn [dir_chain] in Hd. destruct Hd as (_ & _ & e' & He' & Hm). rewrite He' in He. injection He as <-. rewrite (proj2 (Z.leb_le _ _) Hm). apply keeping_ret; [apply still_refl, Hs2|done].
  - destruct (Ht ltac:(done)) as (Hd' & Hc' & Hcl). rewrite Hc' in He. injection He as <-. cbn [hd] in Hcl |- *. pose proof (cluster_range c') as Hr. destruct (Z.leb_spec EOC_MIN c') as [Hm|_]; [apply Hr in Hcl; pose proof (g_max _ Hg); lia|].
    apply (IH s2 (c' :: cs)); [apply Hs2|done].
Qed.
End Find.
Lemma w_find_keeps m0 s cs dir name : inv m0 s -> dir_chain m0 cs -> w_cluster dir = hd 0 cs -> w_is_dir dir = true ->
  keeping (still m0 s) (w_find fates v dir name) s (fun r s' => lookup_name name (slots m0 cs) = w_entry <$> r).
Proof.
  intros H Hd Hc Hdir. unfold w_find, w_find_entry, w_walk. rewrite Hdir, Hc. cbn [negb]. set (g := fun e => bool_decide (e_name e = name)).
  eapply keeping_still; [apply (find_walk_keeps _ g); [done|exact H|exact Hd]|]. intros [acc r] s1 Hs1 Hr. apply keeping_ret; [apply still_refl, Hs1|]. cbn [fst snd] in Hr |- *. rewrite <- Hr. by unfold lookup_name.
Qed.

(** A directory with a free slot gives it; nothing is taken for it. *)
Lemma free_slot_keeps m0 s cs dir : inv m0 s -> dir_chain m0 cs -> w_cluster dir = hd 0 cs -> Exists (fun e => freeb e = true) (slots m0 cs) ->
  keeping (still m0 s) (free_slot fates v dir) s (fun r s' => exists A e B, at_slot m0 cs (fst r) (snd r) A e B /\ Forall nonfree A /\ freeb e = true).
Proof.
  intros H Hd Hc Hex. unfold free_slot, w_walk. rewrite Hc. eapply keeping_still; [by apply (free_walk_keeps m0)|]. intros [acc r] s1 Hs1. cbn [snd]. destruct r as [[lba i]|l].
  - intros Hr. apply keeping_ret; [apply still_refl, Hs1|done].
  - intros [_ Hall]. exfalso. apply Exists_exists in Hex as (e & Hin & He). rewrite Forall_forall in Hall. specialize (Hall e Hin). unfold nonfree in Hall. congruence.
Qed.
Lemma at_slot_ext m m' cs lba i A e B : (forall c k, c ∈ cs -> 0 <= k < spc -> m' !! (cluster_lba v c + k) = m !! (cluster_lba v c + k)) -> at_slot m cs lba i A e B -> at_slot m' cs lba i A e B.
Proof.
  intros H (pre & c & post & j & buf & -> & Hj & -> & Hb & Hi & He & -> & ->). assert (Hc : c ∈ pre ++ c :: post) by (apply elem_of_app; right; by left).
  exists pre, c, post, j, buf. rewrite !H by done. do 6 (split; [done|]). split; f_equal.
  - symmetry. apply slots_ext. intros c' k Hin Hk. apply H; [apply elem_of_app; by left|done].
  - f_equal. symmetry. apply secs_ext. intros k Hk. apply H; [done|lia].
  - f_equal; symmetry; [apply secs_ext; intros k Hk; apply H; [done|lia]|]. apply slots_ext. intros c' k Hin Hk. apply H; [apply elem_of_app; right; by right|done].
Qed.
Lemma write_entry_cases lba i raw s : exists r s', write_entry fates lba i raw s = (r, s') /\
  ((card s' = card s /\ exists e, r = Fail e) \/
   exists buf, card s !! lba = Some buf /\ card s' = <[lba := slice_assign buf (i * ENTRY) (i * ENTRY + ENTRY) raw]> (card s) /\ (r = Done tt \/ exists e, r = Fail e)).
Proof.
  unfold write_entry. unfold mbind, wr_bind, read_at. destruct (fates (tick s)), (card s !! lba) as [buf|] eqn:Eb; try (eexists _, _; split; [reflexivity|]; left; by eauto).
  destruct (write_cases lba (slice_assign buf (i * ENTRY) (i * ENTRY + ENTRY) raw) (ticked s (card s))) as (r & s' & -> & [[-> He]|(Hl & -> & Hr)]); (eexists _, _; split; [reflexivity|]); [by left|right].
  exists buf. split_and!; done.
Qed.

(** ** What [create] leaves on the card *)

(** All that isn't the directory [cs]'s [name] is found and read as before. *)
Record others_kept (m0 m : gmap Z bytes) (cs : list Z) (name : bytes) : Prop := {
  ok_mount : mount (dev_of m) = Good v;
  ok_find cs' d n : dir_chain m0 cs' -> e_cluster d = hd 0 cs' -> entry_is_dir d = true -> cs' = cs /\ n <> name \/ cs' ## cs -> vol_find (dev_of m) v d n = vol_find (dev_of m0) v d n;
  ok_files f k content : read_to (hidden m0 cs) v f k = Good content -> read_to (dev_of m) v f k = Good content
}.
Lemma kept_others m0 m cs name : mount (dev_of m0) = Good v -> dir_chain m0 cs -> kept m0 m -> others_kept m0 m cs name /\ forall d n, e_cluster d = hd 0 cs -> entry_is_dir d = true -> vol_find (dev_of m) v d n = vol_find (dev_of m0) v d n.
Proof.
  intros Hm Hd Hk. assert (Hfind : forall cs' d n, dir_chain m0 cs' -> e_cluster d = hd 0 cs' -> entry_is_dir d = true -> vol_find (dev_of m) v d n = vol_find (dev_of m0) v d n).
  { intros cs' d n Hd' Hc Hdir. destruct (kept_chain m0 m cs' Hk Hd') as [Hd2 E]. by rewrite (find_in m cs'), (find_in m0 cs'), E. }
  split; [split|intros d n; by apply Hfind].
  - apply (mount_head (dev_of m0)); [done|]. intros l Hl. apply (ke_head _ _ Hk); lia.
  - intros; by eapply Hfind.
  - intros f k content. apply read_to_after; [|apply Forall_forall; intros c Hc; by apply (used_cluster m0), (dir_chain_used m0 cs)]. split; intros; [by apply (ke_data _ _ Hk)|by apply (ke_fat _ _ Hk)].
Qed.
Lemma sector_of cs lba i m A e B : at_slot m cs lba i A e B -> exists c j, c ∈ cs /\ 0 <= j < spc /\ lba = cluster_lba v c + j.
Proof. intros (pre & c & post & j & buf & -> & Hj & -> & _). exists c, j. split; [apply elem_of_app; right; by left|done]. Qed.
Lemma entered_others m0 m cs name lba i A e B raw : mount (dev_of m0) = Good v -> dir_chain m0 cs -> zero_tail (slots m0 cs) -> kept m0 m ->
  at_slot m0 cs lba i A e B -> freeb e = true -> len raw = ENTRY -> (forall n, n <> name -> find_slot (fun e => bool_decide (e_name e = n)) raw = None) ->
  exists buf, m !! lba = Some buf /\ let m' := <[lba := slice_assign buf (i * ENTRY) (i * ENTRY + ENTRY) raw]> m in
    others_kept m0 m' cs name /\ dir_chain m' cs /\ slots m0 cs = A ++ e :: B /\ slots m' cs = A ++ raw :: B.
Proof.
  intros Hm Hd Hz Hk Hat Hfe Hr Hother. destruct (kept_chain m0 m cs Hk Hd) as [Hdm Hsl]. pose proof (dir_chain_nodup _ _ Hd) as Hnd.
  assert (Hu : forall c, c ∈ cs -> used m0 c) by (intros c Hc; by apply (dir_chain_used m0 cs)).
  assert (Hat' : at_slot m cs lba i A e B). { apply (at_slot_ext m0); [|done]. intros c k Hc Hk'. apply (ke_data _ _ Hk); [by apply Hu|done]. }
  destruct (at_slot_put m cs lba i A e B raw (ke_sound _ _ Hk) Hnd Hat' Hr) as (E & buf & Hb & Hlen & Eraw). exists buf. split; [done|]. intros m'.
  destruct (sector_of _ _ _ _ _ _ _ Hat) as (c0 & j & Hc0 & Hj & El). pose proof (data_above c0 j (used_cluster _ _ (Hu c0 Hc0)) ltac:(lia)) as Hda. pose proof (fat_below 0 ltac:(pose proof fat_sectors_pos; lia)) as Hfb. pose proof (g_part _ Hg) as Hp.
  assert (Hfat : forall c, is_cluster v c = true -> fat_of m' c = fat_of m c) by (intros c Hc; apply fat_of_other; pose proof (fat_below _ (fat_index c Hc)); lia).
  assert (Hother_c : forall c k, c ∉ cs -> 0 <= k < spc -> m' !! (cluster_lba v c + k) = m !! (cluster_lba v c + k)).
  { intros c k Hc Hk'. apply lookup_insert_ne. rewrite El. intros [-> _]%cluster_sector_inj; done. }
  assert (Hchain : forall cs', dir_chain m cs' -> dir_chain m' cs').
  { intros cs' Hd'. assert (Hcl : forall c, c ∈ cs' -> is_cluster v c = true) by (intros c Hc; by apply (used_cluster m), (dir_chain_used m cs')). clear -Hd' Hcl Hfat Hg Hb. induction cs' as [|c cs' IH]; [done|]. cbn [dir_chain] in *. destruct Hd' as (Hc & Hs & Ht). split; [done|].
    split; [intros k Hk'; apply is_Some_insert; [by eexists|by apply Hs]|]. rewrite Hfat by done. destruct cs' as [|c' cs']; [done|]. destruct Ht as [He Ht]. split; [done|]. apply IH; [done|]. intros x Hx. apply Hcl. by right. }
  split; [|split; [by apply Hchain|split; [by rewrite <- Hsl|done]]]. split.
  - apply (mount_head (dev_of m0)); [done|]. intros l Hl. unfold dev_of, m'. rewrite lookup_insert_ne by lia. apply (ke_head _ _ Hk). lia.
  - intros cs' d n Hd' Hc Hdir Hor. destruct (kept_chain m0 m cs' Hk Hd') as [Hd2 E2]. rewrite (find_in m' cs'), (find_in m0 cs') by auto. f_equal. destruct Hor as [[-> Hn]|Hdis].
    + unfold m'. rewrite Eraw. rewrite <- Hsl, E in Hz. rewrite <- Hsl, E. apply entered_other; auto.
    + rewrite <- E2. f_equal. apply slots_ext. intros c k Hin Hk'. apply Hother_c; [|done]. intros Hc'. by apply (Hdis c).
  - intros f k content. apply read_to_after; [|apply Forall_forall; intros c Hc; apply (used_cluster m0), Hu, Hc]. split.
    + intros c k' Hc Hn Hk'. rewrite Hother_c by done. by apply (ke_data _ _ Hk).
    + intros c Hc Hn. rewrite Hfat by (by apply (used_cluster m0)). by apply (ke_fat _ _ Hk).
Qed.

(** The new file's data, once its entry is in one of [cs]' sectors. *)
Lemma file_reads m0 s1 m fcs data name (cs : list Z) c0 j b : inv m0 s1 -> fat_dirty s1 = false -> built m0 s1 fcs (chunks cl_bytes data) -> kept (card s1) m ->
  (forall c, c ∈ cs -> used m0 c) -> c0 ∈ cs -> 0 <= j < spc ->
  read_to (dev_of (<[cluster_lba v c0 + j := b]> m)) v (mkEntry name ATTR_ARCHIVE (hd 0 fcs) (len data)) (len data) = Good data.
Proof.
  intros H Hd Hb Hk Hu Hc0 Hj. set (m' := <[_ := b]> m). destruct Hb as [_ Hown Hl Hst Hsz]. unfold read_to, for_each_sector, entry_is_dir. cbn [e_size e_attr e_cluster]. rewrite Z.ltb_irrefl. change (negb (Z.land ATTR_ARCHIVE ATTR_DIR =? 0)) with false. cbv iota.
  pose proof cl_bytes_pos as Hcb. destruct (Z.eqb_spec (len data) 0) as [E|E].
  { destruct data; [|rewrite len_cons in E; pose proof (len_nonneg data); lia]. inversion Hst. done. }
  assert (Hne : data <> []) by (intros ->; done). pose proof (own_clusters _ _ Hown) as Hcl. rewrite Forall_forall in Hown, Hcl.
  assert (Hu1 : forall c, c ∈ fcs -> used (card s1) c).
  { intros c Hc. split; [by apply Hcl|]. destruct (links_nonzero _ _ c Hl ltac:(by apply Forall_forall) Hc) as (e & He & Hn). exists e. by rewrite <- (clean_log m0 s1). }
  assert (Hfat : forall c, c ∈ fcs -> fat_of m' c = lfat s1 c).
  { intros c Hc. rewrite (clean_log m0 s1) by done. rewrite <- (ke_fat _ _ Hk) by auto. apply fat_of_other. pose proof (data_above c0 j (used_cluster _ _ (Hu c0 Hc0)) ltac:(lia)). pose proof (fat_below _ (fat_index c (Hcl c Hc))). lia. }
  assert (Hdata : forall c i, c ∈ fcs -> 0 <= i < spc -> m' !! (cluster_lba v c + i) = card s1 !! (cluster_lba v c + i)).
  { intros c i Hc Hi. rewrite <- (ke_data _ _ Hk) by auto. apply lookup_insert_ne. intros [-> _]%cluster_sector_inj; [|done..]. destruct (Hown c Hc) as [_ Hn]. by apply Hn, Hu. }
  change (dev_of m') with (hidden m' []). apply (read_built m' [] fcs data _ []); [constructor|apply Forall_forall; intros c Hc; split; [by apply Hcl|by apply not_elem_of_nil]|by apply (links_ext (lfat s1))| |done|].
  - clear -Hst Hsz Hdata Hg. induction Hst as [|c d fcs ds Hc Hst IH]; [constructor|]. inversion_clear Hsz. constructor; [|apply IH; [done|intros; apply Hdata; [by right|done]]]. intros k ch Hk. rewrite Hdata; [by apply Hc|by left|].
    assert (len (chunks SECTOR d) <= spc) by (apply chunks_count; unfold SECTOR, cl_bytes in *; pose proof spc_pos; lia). apply lookup_lt_Some in Hk. unfold len in *. lia.
  - apply Forall2_length in Hst. assert (len (chunks cl_bytes data) <= len data); [|unfold len in *; lia]. pose proof (len_nonneg data). apply chunks_count; nia.
Qed.

(** A call's outcome, an error's too. *)
Definition outcome {A} (R : out A -> vol -> Prop) (m : wr A) (s : vol) : Prop := let (r, s') := m s in R r s'.
Lemma outcome_bind {A B} I (m : wr A) (f : A -> wr B) s Q R : keeping I m s Q -> (forall e s', I s' -> R (Fail e) s') -> (forall a s', I s' -> Q a s' -> outcome R (f a) s') -> outcome R (m ≫= f) s.
Proof. unfold keeping, outcome. change ((m ≫= f) s) with (match m s with (Done a, s) => f a s | (Fail e, s) => (Fail e, s) | (OutOfFuel, s) => (OutOfFuel, s) end). destruct (m s) as [[a|e|] s']; [|auto|done]. intros [H1 H2] _ Hf. by apply Hf. Qed.
Lemma keeping_both {A} I J (m : wr A) s Q R : keeping I m s Q -> keeping J m s R -> keeping (fun s' => I s' /\ J s') m s (fun a s' => Q a s' /\ R a s').
Proof. unfold keeping. destruct (m s) as [[a|e|] s']; [|by split|done]. by intros [] []. Qed.

(** [name] is as it was, or the file's. *)
Definition created (m0 : gmap Z bytes) (dir : DirEntry) (cs : list Z) (name data : bytes) (r : out went) (s' : vol) : Prop :=
  let found m := vol_find (dev_of m) v dir name in
  others_kept m0 (card s') cs name /\
  match r with
  | Done e => found m0 = Good None /\ found (card s') = Good (Some (w_entry e)) /\ read_to (dev_of (card s')) v (w_entry e) (len data) = Good data
  | Fail _ => found (card s') = found m0 \/
      found m0 = Good None /\ exists e, found (card s') = Good (Some e) /\ read_to (dev_of (card s')) v e (len data) = Good data
  | OutOfFuel => False
  end.
Lemma raw_slot name c size n : len name = 11 -> at_byte name 0 <> 0 -> at_byte name 0 <> DELETED -> 0 <= c < 2 ^ 32 -> 0 <= size < 2 ^ 32 ->
  find_slot (fun e => bool_decide (e_name e = n)) (entry_bytes name ATTR_ARCHIVE c size) = if bool_decide (name = n) then Some (Some (mkEntry name ATTR_ARCHIVE c size)) else None.
Proof.
  intros Hn H0 HE Hc Hs. destruct (entry_bytes_spec name ATTR_ARCHIVE c size Hn ltac:(by unfold ATTR_ARCHIVE) Hc Hs) as (_ & Hp & H11 & H1). unfold find_slot. rewrite Hp, H11, H1. cbn [e_name].
  rewrite (proj2 (Z.eqb_neq _ 0)), (proj2 (Z.eqb_neq _ DELETED)) by done. done.
Qed.
Section Create.
Context (s : vol) (dir : went) (cs : list Z) (name data : bytes).
Hypotheses (Hmount : mount (dev_of (card s)) = Good v) (Hsound : sound (card s)) (Hco : coherent s) (Hclean : fat_dirty s = false) (Hnext : 2 <= next_free s)
  (Hdir : dir_chain (card s) cs) (Hcl : w_cluster dir = hd 0 cs) (Hisdir : w_is_dir dir = true) (Htail : zero_tail (slots (card s) cs)) (Hfree : Exists (fun e => freeb e = true) (slots (card s) cs))
  (Hname : len name = 11) (Hn0 : at_byte name 0 <> 0) (HnE : at_byte name 0 <> DELETED) (Hlen : len data < 2 ^ 32).
Lemma unchanged r s' : inv (card s) s' -> match r with Fail _ => True | _ => False end -> created (card s) (w_entry dir) cs name data r s'.
Proof. intros H Hr. destruct (kept_others (card s) (card s') cs name Hmount Hdir (inv_kept _ _ H)) as [Ho Hf]. destruct r; [done| |done]. split; [done|]. left. by apply Hf. Qed.
Lemma put_entry s1 s2 fcs lba i A e B : lookup_name name (slots (card s) cs) = None -> inv (card s) s1 -> fat_dirty s1 = false -> built (card s) s1 fcs (chunks cl_bytes data) -> inv (card s) s2 -> inv (card s1) s2 ->
  at_slot (card s) cs lba i A e B -> Forall nonfree A -> freeb e = true ->
  outcome (created (card s) (w_entry dir) cs name data) (_ ← write_entry fates lba i (entry_bytes name ATTR_ARCHIVE (hd 0 fcs) (len data)); mret (mkWent (mkEntry name ATTR_ARCHIVE (hd 0 fcs) (len data)) lba i lba i)) s2.
Proof.
  intros Habs H1 Hd1 Hb H2 H2' Hat HA He. set (d := mkEntry _ _ _ _). set (raw := entry_bytes _ _ _ _). pose proof (len_nonneg data).
  assert (Hfirst : 0 <= hd 0 fcs < 2 ^ 32). { destruct fcs as [|c fcs]; [done|]. pose proof (b_own _ _ _ _ Hb) as Ho. inversion_clear Ho as [|? ? [Hc _] _]. pose proof (cluster_small c Hc). cbn. lia. }
  pose proof (fun n => raw_slot name (hd 0 fcs) (len data) n Hname Hn0 HnE Hfirst ltac:(lia)) as Hraw. fold raw d in Hraw.
  destruct (entry_bytes_spec name ATTR_ARCHIVE (hd 0 fcs) (len data) Hname ltac:(by unfold ATTR_ARCHIVE) Hfirst ltac:(lia)) as (Hrl & _).
  destruct (entered_others (card s) (card s2) cs name lba i A e B raw Hmount Hdir Htail (inv_kept _ _ H2) Hat He Hrl) as (buf & Hbuf & Ho & Hdc & E & E').
  { intros n Hn. rewrite Hraw. by rewrite bool_decide_false by congruence. }
  unfold outcome. unfold mbind, wr_bind. destruct (write_entry_cases lba i raw s2) as (r & s3 & -> & [[Hc3 [e3 ->]]|(buf' & Hb' & Hc3 & Hr)]).
  - destruct (kept_others (card s) (card s2) cs name Hmount Hdir (inv_kept _ _ H2)) as [Ho2 Hf2]. split; [by rewrite Hc3|]. left. rewrite Hc3. by apply Hf2.
  - rewrite Hbuf in Hb'. injection Hb' as <-. rewrite <- Hc3 in *.
    assert (Hf0 : vol_find (dev_of (card s)) v (w_entry dir) name = Good None) by (by rewrite (find_in (card s) cs), Habs).
    assert (Hf3 : vol_find (dev_of (card s3)) v (w_entry dir) name = Good (Some d)).
    { rewrite (find_in (card s3) cs) by done. f_equal. rewrite E'. apply (entered_found name raw A e B); [done|by rewrite <- E|]. rewrite Hraw. by rewrite bool_decide_true. }
    assert (Hrd : read_to (dev_of (card s3)) v d (len data) = Good data).
    { rewrite Hc3. destruct (sector_of _ _ _ _ _ _ _ Hat) as (c0 & j & Hc0 & Hj & ->). apply (file_reads (card s) s1 (card s2) fcs data name cs); try done; [by apply inv_kept|]. intros c Hc. by apply (dir_chain_used (card s) cs). }
    destruct Hr as [-> | [e3 ->]]; (split; [done|]); [done|]. right. split; [done|]. by exists d.
Qed.
Lemma create_ends : outcome (created (card s) (w_entry dir) cs name data) (create fates v dir name data) s.
Proof.
  assert (Hi : inv (card s) s) by (apply start_inv; try done; intros c; unfold lfat; destruct (decide (fat_cached s = Some (c / 128))) as [E|]; [rewrite bool_decide_true by done|by rewrite bool_decide_false]; destruct (co_cache _ Hco _ E) as (_ & _ & Hc); unfold fat_of; by rewrite Hc).
  assert (Hfail : forall (e : FatError) s', inv (card s) s' -> created (card s) (w_entry dir) cs name data (Fail e) s') by (intros e s' H; by apply unchanged).
  unfold create. eapply outcome_bind; [by apply (w_find_keeps (card s) s cs)|intros e s' [H _]; by apply Hfail|]. intros found s1 [I1 _] Hfound. destruct found as [x|]; [by apply Hfail|].
  eapply outcome_bind; [by apply (begin_keeps (card s))|by apply Hfail|]. intros u s2 I2 _.
  eapply outcome_bind; [exact (chain_keeps (card s) data s2 I2)|by apply Hfail|]. intros first s3 I3 (Hd3 & fcs & -> & Hb). cbv beta in *.
  pose proof (rebase (card s) s3 I3 Hd3) as R3. destruct (kept_chain (card s) (card s3) cs (inv_kept _ _ I3) Hdir) as [Hd3' Hs3].
  pose proof (keeping_both _ _ _ _ _ _ (keeping_attempt _ _ _ _ (free_slot_keeps (card s) s3 cs dir I3 Hdir Hcl Hfree)) (keeping_attempt _ _ _ _ (free_slot_keeps (card s3) s3 cs dir R3 Hd3' Hcl ltac:(by rewrite Hs3)))) as Hslot.
  eapply outcome_bind; [exact Hslot|intros e s' [[H _] _]; by apply Hfail|]. intros r s4 [[I4 _] [R4 _]] [Hr _]. destruct r as [[lba i]|e].
  - destruct Hr as (A & e & B & Hat & HA & He). rewrite (Z.mod_small (len data)) by (pose proof (len_nonneg data); lia). by apply (put_entry s3 s4 fcs lba i A e B).
  - eapply outcome_bind; [apply (give_back_keeps (card s)); [done|by apply (built_first (card s) s3 _ _ Hb)]|by apply Hfail|]. intros a s5 I5 _. by apply Hfail.
Qed.
End Create.
End Safe.

(** C3: [create] in a directory with a free slot, on a mounted volume whose FAT cache holds no change, whatever fails on the card and whenever: it ends; the card mounts as before, every other name is found as before in the directory, and every name in a directory that shares no cluster with it, and every file whose clusters are not the directory's reads as before; and the name is either as it was or that of a file that reads back as the data, which it is when [create] succeeds. *)
Theorem create_safe fates v s dir cs name data :
  mount (dev_of (card s)) = Good v -> sound v (card s) -> coherent v s -> fat_dirty s = false -> 2 <= next_free s ->
  dir_chain v (card s) cs -> w_cluster dir = hd 0 cs -> w_is_dir dir = true -> zero_tail (slots v (card s) cs) -> Exists (fun e => freeb e = true) (slots v (card s) cs) ->
  len name = 11 -> at_byte name 0 <> 0 -> at_byte name 0 <> DELETED -> len data < 2 ^ 32 ->
  outcome (created v (card s) (w_entry dir) cs name data) (create fates v dir name data) s.
Proof. intros. apply create_ends; try done. by apply (mount_geometry (dev_of (card s))). Qed.

(** ** A small card *)

Module Demo.
Definition put_at (buf : bytes) (p : Z * bytes) : bytes := slice_assign buf (fst p) (fst p + len (snd p)) (snd p).
Definition sector (ps : list (Z * bytes)) : bytes := fold_left put_at ps (zeros SECTOR).
Definition sig : Z * bytes := (510, [x55; xaa]).
Definition mbr : bytes := sector [(446 + 4, le_split 1 12); (446 + 8, le_split 4 1); sig].
Definition boot : bytes := sector [(11, le_split 2 512); (13, le_split 1 1); (14, le_split 2 2); (16, le_split 1 2); (19, le_split 2 10); (36, le_split 4 1); (44, le_split 4 2); (48, le_split 2 1); sig].
Definition fat : bytes := sector [(0, le_split 4 0x0FFFFFF8); (4, le_split 4 ENTRY_MASK); (8, le_split 4 ENTRY_MASK)].
(** The root directory in cluster 2, clusters 3 to 7 free. *)
Definition empty_card (root junk : bytes) : gmap Z bytes := list_to_map (zip (seqZ 0 11) [mbr; boot; zeros SECTOR; fat; fat; root; junk; junk; junk; junk; junk]).
Definition volume : Volume := mkVolume 1 3 1 2 5 0 8 2 2.
Definition fresh (m : gmap Z bytes) : vol := mkVol m 0 (zeros SECTOR) None false 2 false.
Definition name : bytes := bstr "NEW     TXT".
Definition data : bytes := replicate 700 x41.
Example mounts : mount (dev_of (empty_card (zeros SECTOR) (zeros SECTOR))) = Good volume. Proof. vm_compute. reflexivity. Qed.
Definition run (fates : nat -> fate) (m : gmap Z bytes) : out went * vol := create fates volume (w_root volume) name data (fresh m).
Definition once (t : nat) (k : fate) (n : nat) : fate := if Nat.eqb n t then k else Fine.
Example creates : fst (run (fun _ => Fine) (empty_card (zeros SECTOR) (zeros SECTOR))) = Done (mkWent (mkEntry name ATTR_ARCHIVE 3 700) 5 0 5 0). Proof. vm_compute. reflexivity. Qed.

(** A full root directory, and free clusters with an entry left in them. *)
Definition full_root : bytes := concat (map (fun i => entry_bytes (bstr "FILE    " ++ le_split 3 (0x303030 + i)) ATTR_ARCHIVE 0 0) (seqZ 0 16)).
Definition ghost : bytes := bstr "GHOST      ".
Definition junk : bytes := entry_bytes ghost ATTR_ARCHIVE 5 100 ++ zeros 480.
Definition full_card : gmap Z bytes := empty_card full_root junk.
End Demo.

(** A directory that must grow: when zeroing its new cluster fails, the link to it waits in the FAT cache and the freeing of the file's clusters writes it, so the old bytes of the cluster are read as entries. *)
Theorem full_directory_link : exists fates lba,
  let '(r, s') := Demo.run fates Demo.full_card in
  r = Fail (Io lba) /\ vol_find (dev_of Demo.full_card) Demo.volume (root_entry 2) Demo.ghost = Good None /\
  vol_find (dev_of (card s')) Demo.volume (root_entry 2) Demo.ghost = Good (Some (mkEntry Demo.ghost ATTR_ARCHIVE 5 100)).
Proof. exists (Demo.once 8 Lost), 8. vm_compute. done. Qed.
(** [mkdir]: when the write of the parent's entry is done but reported as failed, the cluster is freed and the entry stays. *)
Theorem mkdir_freed : exists fates lba,
  let '(r, s') := mkdir fates Demo.volume (w_root Demo.volume) Demo.name (Demo.fresh (Demo.empty_card (zeros SECTOR) (zeros SECTOR))) in
  r = Fail (Io lba) /\ vol_find (dev_of (card s')) Demo.volume (root_entry 2) Demo.name = Good (Some (mkEntry Demo.name ATTR_DIR 3 0)) /\ fat_of Demo.volume (card s') 3 = Some 0.
Proof. exists (Demo.once 8 Unsure), 5. vm_compute. done. Qed.

(** Its root directory is empty. *)
Lemma demo_ready : let m := Demo.empty_card (zeros SECTOR) (zeros SECTOR) in
  sound Demo.volume m /\ dir_chain Demo.volume m [2] /\ zero_tail (slots Demo.volume m [2]) /\ Exists (fun e => freeb e = true) (slots Demo.volume m [2]).
Proof.
  intros m. assert (Hsp : spc Demo.volume = 1) by done. assert (Hall : forall l, 3 <= l < 11 -> is_Some (m !! l)).
  { intros l Hl. assert (Hin : l ∈ seqZ 3 8) by (apply elem_of_seqZ; lia). revert l Hin Hl. assert (Hf : Forall (fun l => is_Some (m !! l)) (seqZ 3 8)) by (repeat (constructor; [vm_compute; by eexists|]); constructor). rewrite Forall_forall in Hf. auto. }
  assert (Hlen : forall l b, m !! l = Some b -> len b = 512).
  { intros l b Hb. unfold m, Demo.empty_card in Hb. apply elem_of_list_to_map_2, elem_of_zip_r in Hb. revert b Hb. apply Forall_forall. repeat (constructor; [done|]). constructor. }
  assert (Hs : slots Demo.volume m [2] = replicate 16 (zeros 32)) by (vm_compute; reflexivity).
  split; [split; [exact Hlen|intros l Hl; apply Hall; rewrite Hsp in Hl; change (3 <= l < 5 + (8 - 2) * 1) in Hl; lia]|]. split; [|rewrite Hs; split].
  - cbn [dir_chain]. split; [done|]. split; [intros i Hi; rewrite Hsp in Hi; assert (i = 0) as -> by lia; apply Hall; change (3 <= 5 + 0 + 0 < 11); lia|]. exists ENTRY_MASK. split; [vm_compute; reflexivity|done].
  - intros A e B E _. assert (Hf : Forall unused_slot (replicate 16 (zeros 32))) by (apply Forall_replicate; done). rewrite E in Hf. apply Forall_app in Hf as [_ Hf]. by inversion_clear Hf.
  - by left.
Qed.
Lemma create_safe_witness : let m := Demo.empty_card (zeros SECTOR) (zeros SECTOR) in
  outcome (created Demo.volume m (root_entry 2) [2] Demo.name Demo.data) (create (Demo.once 7 Unsure) Demo.volume (w_root Demo.volume) Demo.name Demo.data) (Demo.fresh m).
Proof.
  destruct demo_ready as (Hs & Hd & Hz & Hf).
  apply (create_safe (Demo.once 7 Unsure) Demo.volume (Demo.fresh (Demo.empty_card (zeros SECTOR) (zeros SECTOR))) (w_root Demo.volume) [2] Demo.name Demo.data Demo.mounts Hs); try done.
Defined.
