(* ===== verification/SdCard.v ===== *)
(** * The SD card models

    The byte-level SD card of the RTL tests (sim/integration/sdcard_protocol.py), its bit-level
    driver (sim/integration/sdcard_model.py) and the emulator's card
    (emu/crates/vux9k_emu/src/sdcard.rs), which implements the same rules. *)
From S2P Require Import Prelude Image Text.

Definition SECTOR : Z := 512.
Definition POWER_UP_CLOCKS : Z := 74.
Definition INIT_SCLK_HZ : Z := 400000.

(** Recorded problems; each is one of the messages, with what it prints. *)
Inductive violation : Type :=
| FastSclk (hz : Z)
| PowerUp (idle_clocks cmd : Z)
| Unaligned (cmd arg : Z).

(** The card's type and faults, fixed when it is made. *)
Record card_config := mkConfig {
  sdhc : bool; strict : bool; mute_cmds : list Z; never_ready : bool; read_error : bool;
  bad_sectors : list Z; write_reject : bool
}.

Inductive card_state : Type := Idle | Cmd | WaitToken | Data | Resync.
#[export] Instance card_state_eq_dec : EqDecision card_state.
Proof. solve_decision. Defined.

(** ** sim/integration/sdcard_protocol.py *)

Record SdCardProtocol := mkCard {
  sectors : gmap Z bytes;
  commands : list (Z * Z);
  violations : list violation;
  idle_clocks : Z;
  first_cmd_seen : bool;
  ready : bool;
  sclk_hz : Z;
  fast_reported : bool;
  resp : bytes;
  answering : bool;
  state : card_state;
  buf : bytes;
  lba : Z
}.

Definition card_init : SdCardProtocol :=
  mkCard ∅ [] [] 0 false false INIT_SCLK_HZ false [] false Idle [] 0.

(** Field updates. *)
Definition set_sectors m c := mkCard m (commands c) (violations c) (idle_clocks c) (first_cmd_seen c)
  (ready c) (sclk_hz c) (fast_reported c) (resp c) (answering c) (state c) (buf c) (lba c).
Definition add_command cm c := mkCard (sectors c) (commands c ++ [cm]) (violations c) (idle_clocks c)
  (first_cmd_seen c) (ready c) (sclk_hz c) (fast_reported c) (resp c) (answering c) (state c) (buf c) (lba c).
Definition add_violation v c := mkCard (sectors c) (commands c) (violations c ++ [v]) (idle_clocks c)
  (first_cmd_seen c) (ready c) (sclk_hz c) (fast_reported c) (resp c) (answering c) (state c) (buf c) (lba c).
Definition set_idle_clocks n c := mkCard (sectors c) (commands c) (violations c) n (first_cmd_seen c)
  (ready c) (sclk_hz c) (fast_reported c) (resp c) (answering c) (state c) (buf c) (lba c).
Definition set_first_cmd_seen b c := mkCard (sectors c) (commands c) (violations c) (idle_clocks c) b
  (ready c) (sclk_hz c) (fast_reported c) (resp c) (answering c) (state c) (buf c) (lba c).
Definition set_ready b c := mkCard (sectors c) (commands c) (violations c) (idle_clocks c)
  (first_cmd_seen c) b (sclk_hz c) (fast_reported c) (resp c) (answering c) (state c) (buf c) (lba c).
Definition set_sclk_hz hz c := mkCard (sectors c) (commands c) (violations c) (idle_clocks c)
  (first_cmd_seen c) (ready c) hz (fast_reported c) (resp c) (answering c) (state c) (buf c) (lba c).
Definition set_fast_reported b c := mkCard (sectors c) (commands c) (violations c) (idle_clocks c)
  (first_cmd_seen c) (ready c) (sclk_hz c) b (resp c) (answering c) (state c) (buf c) (lba c).
Definition set_resp r c := mkCard (sectors c) (commands c) (violations c) (idle_clocks c)
  (first_cmd_seen c) (ready c) (sclk_hz c) (fast_reported c) r (answering c) (state c) (buf c) (lba c).
Definition set_answering b c := mkCard (sectors c) (commands c) (violations c) (idle_clocks c)
  (first_cmd_seen c) (ready c) (sclk_hz c) (fast_reported c) (resp c) b (state c) (buf c) (lba c).
Definition set_state s c := mkCard (sectors c) (commands c) (violations c) (idle_clocks c)
  (first_cmd_seen c) (ready c) (sclk_hz c) (fast_reported c) (resp c) (answering c) s (buf c) (lba c).
Definition set_buf b c := mkCard (sectors c) (commands c) (violations c) (idle_clocks c)
  (first_cmd_seen c) (ready c) (sclk_hz c) (fast_reported c) (resp c) (answering c) (state c) b (lba c).
Definition set_lba l c := mkCard (sectors c) (commands c) (violations c) (idle_clocks c)
  (first_cmd_seen c) (ready c) (sclk_hz c) (fast_reported c) (resp c) (answering c) (state c) (buf c) l.

(** [get_sector] and [set_sector]. *)
Definition get_sector (l : Z) (c : SdCardProtocol) : bytes := default (zeros SECTOR) (sectors c !! l).
Definition set_sector (l : Z) (data : bytes) (c : SdCardProtocol) : SdCardProtocol :=
  set_sectors (<[l := ljust (take (Z.to_nat SECTOR) data) SECTOR x00]> (sectors c)) c.

(** [set_cs]. *)
Definition set_cs (selected : bool) (c : SdCardProtocol) : SdCardProtocol :=
  if negb selected then set_buf [] (set_state Idle c) else c.

(** [r += data]. *)
Definition add_resp (data : bytes) (c : SdCardProtocol) : SdCardProtocol := set_resp (resp c ++ data) c.

Section Card.
Variable cfg : card_config.

(** [_addr_lba]. *)
Definition addr_lba (cmd arg : Z) (c : SdCardProtocol) : Z * SdCardProtocol :=
  if negb (strict cfg) then ((if arg <? 0x10000 then arg else Z.shiftr arg 9), c)
  else if sdhc cfg then (arg, c)
  else
    let c := if negb (arg mod SECTOR =? 0) then add_violation (Unaligned cmd arg) c else c in
    (Z.shiftr arg 9, c).

(** [_command]: the log, and the check of the first command. *)
Definition logged (cmd arg : Z) (c : SdCardProtocol) : SdCardProtocol :=
  let c := add_command (cmd, arg) c in
  if negb (first_cmd_seen c) then
    let c := set_first_cmd_seen true c in
    if strict cfg && (idle_clocks c <? POWER_UP_CLOCKS)
    then add_violation (PowerUp (idle_clocks c) cmd) c else c
  else c.

(** [_command]. *)
Definition command (cmd arg : Z) (c : SdCardProtocol) : SdCardProtocol :=
  let c := logged cmd arg c in
  if existsb (Z.eqb cmd) (mute_cmds cfg) then c
  else if cmd =? 0 then add_resp [xff; x01] (set_ready false c)
  else if cmd =? 8 then add_resp [xff; x01; x00; x00; x01; xaa] c
  else if cmd =? 55 then add_resp (if ready c then [xff; x00] else [xff; x01]) c
  else if (cmd =? 1) || (cmd =? 41) then
    let c := set_ready (negb (never_ready cfg)) c in
    let c := set_fast_reported (fast_reported c && negb (ready c)) c in
    add_resp (if ready c then [xff; x00] else [xff; x01]) c
  else if cmd =? 58 then add_resp [xff; x00; if sdhc cfg then xc0 else x80; xff; x80; x00] c
  else if cmd =? 16 then add_resp [xff; x00] c
  else if cmd =? 17 then
    let '(l, c) := addr_lba cmd arg c in
    if read_error cfg || existsb (Z.eqb l) (bad_sectors cfg) then add_resp [xff; x00; xff; x08] c
    else add_resp ([xff; x00; xff; xfe] ++ get_sector l c ++ [x12; x34]) c
  else if cmd =? 24 then
    let '(l, c) := addr_lba cmd arg c in
    set_state WaitToken (add_resp [xff; x00] (set_lba l c))
  else c.

(** [begin_byte]. *)
Definition begin_byte (c : SdCardProtocol) : byte * SdCardProtocol :=
  match resp c with
  | b :: r => (b, set_resp r (set_answering true c))
  | [] => (xff, set_answering false c)
  end.

(** [end_byte]: what every byte counts towards, selected or not. *)
Definition clocked (selected : bool) (c : SdCardProtocol) : SdCardProtocol :=
  let c := if negb selected && negb (first_cmd_seen c) then set_idle_clocks (idle_clocks c + 8) c else c in
  if strict cfg && negb (ready c) && (INIT_SCLK_HZ <? sclk_hz c) && negb (fast_reported c)
  then add_violation (FastSclk (sclk_hz c)) (set_fast_reported true c) else c.

(** [end_byte]: the byte received, by the card's state. *)
Definition receive (mosi : byte) (c : SdCardProtocol) : SdCardProtocol :=
  match state c with
  | Idle => if Z.land (u8 mosi) 0xC0 =? 0x40 then set_buf [mosi] (set_state Cmd c) else c
  | Cmd =>
      let c := set_buf (buf c ++ [mosi]) c in
      if len (buf c) =? 6 then
        let cmd := Z.land (u8 (nth 0 (buf c) x00)) 0x3F in
        let arg := be_combine (slice (buf c) 1 5) in
        command cmd arg (set_state Idle c)
      else c
  | WaitToken => if u8 mosi =? 0xFE then set_buf [] (set_state Data c) else c
  | Data =>
      let c := set_buf (buf c ++ [mosi]) c in
      if len (buf c) =? SECTOR + 2 then
        let c := set_state Resync c in
        if write_reject cfg then add_resp [x0b] c
        else add_resp [x05; x3f] (set_sector (lba c) (take (Z.to_nat SECTOR) (buf c)) c)
      else c
  | Resync => c
  end.

(** [end_byte]. *)
Definition end_byte (mosi : byte) (selected : bool) (c : SdCardProtocol) : SdCardProtocol :=
  let c := clocked selected c in
  if answering c || negb selected then c else receive mosi c.

(** [exchange]. *)
Definition exchange (mosi : byte) (selected : bool) (c : SdCardProtocol) : byte * SdCardProtocol :=
  let '(miso, c) := begin_byte c in (miso, end_byte mosi selected c).

(** Bytes exchanged one after the other, CS low. *)
Fixpoint exchanges (mosi : bytes) (c : SdCardProtocol) : bytes * SdCardProtocol :=
  match mosi with
  | [] => ([], c)
  | m :: mosi =>
      let '(b, c) := exchange m true c in
      let '(bs, c) := exchanges mosi c in (b :: bs, c)
  end.

(** What happens on the card's pins, byte by byte. *)
Inductive card_op : Type :=
| OpCs (selected : bool)
| OpSclk (hz : Z)
| OpByte (mosi : byte) (selected : bool).

Definition card_step (op : card_op) (c : SdCardProtocol) : option byte * SdCardProtocol :=
  match op with
  | OpCs s => (None, set_cs s c)
  | OpSclk hz => (None, set_sclk_hz hz c)
  | OpByte m s => let '(b, c) := exchange m s c in (Some b, c)
  end.

Fixpoint card_run (ops : list card_op) (c : SdCardProtocol) : list (option byte) * SdCardProtocol :=
  match ops with
  | [] => ([], c)
  | op :: ops =>
      let '(o, c) := card_step op c in let '(os, c) := card_run ops c in (o :: os, c)
  end.

(** ** sim/integration/sdcard_model.py *)

(** The bits [(miso >> i) & 1] for i from 7 down to 0. *)
Definition miso_bits (miso : byte) : list bool := map (fun i => Z.testbit (u8 miso) i) [7; 6; 5; 4; 3; 2; 1; 0].

(** [mosi = (mosi << 1) | bit], over the bits sampled (an unresolved pin reads 1). *)
Definition shift_in (mosi : Z) (bit : option bool) : Z :=
  Z.lor (Z.shiftl mosi 1) (match bit with Some false => 0 | _ => 1 end).

(** One turn of [run]'s loop: the MISO bits driven, and the card after the byte. The MOSI
    pin's samples, CS at the first rising edge and the byte's SCLK are inputs. *)
Definition spi_byte (mosi : list (option bool)) (cs_low : bool) (hz : Z) (c : SdCardProtocol)
    : list bool * SdCardProtocol :=
  let '(miso, c) := begin_byte c in
  let c := set_sclk_hz hz c in
  (miso_bits miso, end_byte (byte.of_Z (fold_left shift_in mosi 0)) cs_low c).

End Card.

(** ** emu/crates/vux9k_emu/src/sdcard.rs *)
Module Emu.

Inductive State : Type :=
| SIdle | SCmd (buf : bytes) | SWaitToken (lba : Z) | SData (lba : Z) (buf : bytes) | SResync.

Record SdCard := mkSd {
  image : bytes; st : State; eresp : bytes; eready : bool; efirst : bool; eidle : Z; ehz : Z;
  efast : bool; ecommands : list (Z * Z); reads : gmap Z Z; eviolations : list violation
}.

Definition new (img : bytes) : SdCard :=
  mkSd img SIdle [] false false 0 INIT_SCLK_HZ false [] ∅ [].

(** [sector] and [set_sector]. *)
Definition sector (l : Z) (s : SdCard) : bytes :=
  ljust (slice (image s) (l * SECTOR) (l * SECTOR + SECTOR)) SECTOR x00.
Definition set_sector (l : Z) (data : bytes) (s : SdCard) : SdCard :=
  let off := l * SECTOR in
  let img := if len (image s) <? off + SECTOR then ljust (image s) (off + SECTOR) x00 else image s in
  let d := take (Z.to_nat SECTOR) data in
  let img := slice_assign img off (off + len d) d in
  let img := slice_assign img (off + len d) (off + SECTOR) (zeros (SECTOR - len d)) in
  mkSd img (st s) (eresp s) (eready s) (efirst s) (eidle s) (ehz s) (efast s) (ecommands s) (reads s) (eviolations s).

Definition set_sclk_hz hz s := mkSd (image s) (st s) (eresp s) (eready s) (efirst s) (eidle s) hz (efast s)
  (ecommands s) (reads s) (eviolations s).
Definition set_st x s := mkSd (image s) x (eresp s) (eready s) (efirst s) (eidle s) (ehz s) (efast s)
  (ecommands s) (reads s) (eviolations s).
Definition set_eresp r s := mkSd (image s) (st s) r (eready s) (efirst s) (eidle s) (ehz s) (efast s)
  (ecommands s) (reads s) (eviolations s).
Definition extend data s := set_eresp (eresp s ++ data) s.
Definition push_violation v s := mkSd (image s) (st s) (eresp s) (eready s) (efirst s) (eidle s) (ehz s) (efast s)
  (ecommands s) (reads s) (eviolations s ++ [v]).
Definition set_efast b s := mkSd (image s) (st s) (eresp s) (eready s) (efirst s) (eidle s) (ehz s) b
  (ecommands s) (reads s) (eviolations s).
Definition set_eready b s := mkSd (image s) (st s) (eresp s) b (efirst s) (eidle s) (ehz s) (efast s)
  (ecommands s) (reads s) (eviolations s).
Definition set_efirst b s := mkSd (image s) (st s) (eresp s) (eready s) b (eidle s) (ehz s) (efast s)
  (ecommands s) (reads s) (eviolations s).
Definition set_eidle n s := mkSd (image s) (st s) (eresp s) (eready s) (efirst s) n (ehz s) (efast s)
  (ecommands s) (reads s) (eviolations s).
Definition push_command cm s := mkSd (image s) (st s) (eresp s) (eready s) (efirst s) (eidle s) (ehz s) (efast s)
  (ecommands s ++ [cm]) (reads s) (eviolations s).
Definition set_reads m s := mkSd (image s) (st s) (eresp s) (eready s) (efirst s) (eidle s) (ehz s) (efast s)
  (ecommands s) m (eviolations s).

Definition set_cs (selected : bool) (s : SdCard) : SdCard := if negb selected then set_st SIdle s else s.

Section Card.
Variable cfg : card_config.
(** [Faults::fail_after]. *)
Variable fail_after : list (Z * Z).

(** [SdCard::lba]. *)
Definition lba_of (cmd arg : Z) (s : SdCard) : Z * SdCard :=
  if negb (strict cfg) then ((if arg <? 0x10000 then arg else Z.shiftr arg 9), s)
  else if sdhc cfg then (arg, s)
  else
    let s := if negb (arg mod SECTOR =? 0) then push_violation (Unaligned cmd arg) s else s in
    (Z.shiftr arg 9, s).

(** [SdCard::command]: the log, and the check of the first command. *)
Definition logged (cmd arg : Z) (s : SdCard) : SdCard :=
  let s := push_command (cmd, arg) s in
  if negb (efirst s) then
    let s := set_efirst true s in
    if strict cfg && (eidle s <? POWER_UP_CLOCKS) then push_violation (PowerUp (eidle s) cmd) s else s
  else s.

(** [SdCard::command]. *)
Definition command (cmd arg : Z) (s : SdCard) : SdCard :=
  let s := logged cmd arg s in
  if existsb (Z.eqb cmd) (mute_cmds cfg) then s
  else if cmd =? 0 then extend [xff; x01] (set_eready false s)
  else if cmd =? 8 then extend [xff; x01; x00; x00; x01; xaa] s
  else if cmd =? 55 then extend [xff; if eready s then x00 else x01] s
  else if (cmd =? 1) || (cmd =? 41) then
    let s := set_eready (negb (never_ready cfg)) s in
    let s := set_efast (efast s && negb (eready s)) s in
    extend [xff; if eready s then x00 else x01] s
  else if cmd =? 58 then extend [xff; x00; if sdhc cfg then xc0 else x80; xff; x80; x00] s
  else if cmd =? 16 then extend [xff; x00] s
  else if cmd =? 17 then
    let '(l, s) := lba_of cmd arg s in
    let n := default 0 (reads s !! l) in
    let s := set_reads (<[l := n]> (reads s)) s in
    let worn := existsb (fun sn => (sn.1 =? l) && (sn.2 <=? n)) fail_after in
    if read_error cfg || existsb (Z.eqb l) (bad_sectors cfg) || worn
    then extend [xff; x00; xff; x08] s
    else
      let s := set_reads (<[l := n + 1]> (reads s)) s in
      let s := extend [xff; x00; xff; xfe] s in
      let s := extend (sector l s) s in
      extend [x12; x34] s
  else if cmd =? 24 then
    let '(l, s) := lba_of cmd arg s in
    set_st (SWaitToken l) (extend [xff; x00] s)
  else s.

(** [SdCard::exchange]: what every byte counts towards. *)
Definition clocked (selected : bool) (s : SdCard) : SdCard :=
  let s := if negb selected && negb (efirst s) then set_eidle (eidle s + 8) s else s in
  if strict cfg && negb (eready s) && (INIT_SCLK_HZ <? ehz s) && negb (efast s)
  then push_violation (FastSclk (ehz s)) (set_efast true s) else s.

(** [SdCard::exchange]: the byte received, by the card's state. *)
Definition receive (mosi : byte) (s : SdCard) : SdCard :=
  match st s with
  | SIdle => if Z.land (u8 mosi) 0xC0 =? 0x40 then set_st (SCmd [mosi]) s else s
  | SCmd b =>
      let b := b ++ [mosi] in
      if len b =? 6 then
        command (Z.land (u8 (nth 0 b x00)) 0x3F) (be_combine (slice b 1 5)) (set_st SIdle s)
      else set_st (SCmd b) s
  | SWaitToken l => if u8 mosi =? 0xFE then set_st (SData l []) s else s
  | SData l b =>
      let b := b ++ [mosi] in
      if len b =? SECTOR + 2 then
        let s := set_st SResync s in
        if write_reject cfg then extend [x0b] s
        else extend [x05; x3f] (set_sector l (take (Z.to_nat SECTOR) b) s)
      else set_st (SData l b) s
  | SResync => s
  end.

(** [SdCard::exchange]. *)
Definition exchange (mosi : byte) (selected : bool) (s : SdCard) : byte * SdCard :=
  let s := clocked selected s in
  match eresp s with
  | b :: r => (b, set_eresp r s)
  | [] => (xff, if negb selected then s else receive mosi s)
  end.

Definition step (op : card_op) (s : SdCard) : option byte * SdCard :=
  match op with
  | OpCs b => (None, set_cs b s)
  | OpSclk hz => (None, set_sclk_hz hz s)
  | OpByte m b => let '(x, s) := exchange m b s in (Some x, s)
  end.

Fixpoint run (ops : list card_op) (s : SdCard) : list (option byte) * SdCard :=
  match ops with
  | [] => ([], s)
  | op :: ops => let '(o, s) := step op s in let '(os, s) := run ops s in (o :: os, s)
  end.

End Card.
End Emu.

(** ** The two cards agree *)

(** The state each card keeps, as the other has it. *)
Definition states_agree (c : SdCardProtocol) (s : Emu.SdCard) : Prop :=
  match state c, Emu.st s with
  | Idle, Emu.SIdle => True
  | Cmd, Emu.SCmd b => buf c = b
  | WaitToken, Emu.SWaitToken l => lba c = l /\ 0 <= l
  | Data, Emu.SData l b => lba c = l /\ 0 <= l /\ buf c = b
  | Resync, Emu.SResync => True
  | _, _ => False
  end.

Record agree (c : SdCardProtocol) (s : Emu.SdCard) : Prop := {
  ag_sectors l : 0 <= l -> get_sector l c = Emu.sector l s;
  ag_commands : commands c = Emu.ecommands s;
  ag_violations : violations c = Emu.eviolations s;
  ag_idle : idle_clocks c = Emu.eidle s;
  ag_first : first_cmd_seen c = Emu.efirst s;
  ag_ready : ready c = Emu.eready s;
  ag_hz : sclk_hz c = Emu.ehz s;
  ag_fast : fast_reported c = Emu.efast s;
  ag_resp : resp c = Emu.eresp s;
  ag_state : states_agree c s
}.

Lemma ljust_nth (l : bytes) n k : nth k (ljust l n x00) x00 = nth k l x00.
Proof.
  unfold ljust. destruct (Nat.lt_ge_cases k (length l)); [by rewrite app_nth1|].
  rewrite app_nth2, (nth_overflow l) by lia.
  generalize (k - length l)%nat, (Z.to_nat (n - len l)). intros i m. revert i.
  induction m; intros [|i]; simpl; auto.
Qed.

Lemma nth_slice_in (l : bytes) a e k :
  0 <= a -> (Z.of_nat k < e - a) -> nth k (slice l a e) x00 = nth (Z.to_nat a + k) l x00.
Proof.
  intros. rewrite <- (Nat2Z.id k) at 1. rewrite nth_slice by lia. f_equal. lia.
Qed.

(** A sector of the image, byte by byte. *)
Lemma sector_nth img l k :
  0 <= l -> (k < 512)%nat ->
  nth k (ljust (slice img (l * SECTOR) (l * SECTOR + SECTOR)) SECTOR x00) x00 =
    nth (Z.to_nat (l * SECTOR) + k) img x00.
Proof. intros. rewrite ljust_nth. apply nth_slice_in; unfold SECTOR; lia. Qed.

Lemma sector_ext (d e : bytes) :
  len d = 512 -> len e = 512 -> (forall k, (k < 512)%nat -> nth k d x00 = nth k e x00) -> d = e.
Proof.
  unfold len. intros Hd He H. apply (nth_ext d e x00 x00); [lia|]. intros k Hk. apply H. lia.
Qed.

Lemma len_sector_slice (img : bytes) l : 0 <= l -> len (ljust (slice img (l * 512) (l * 512 + 512)) 512 x00) = 512.
Proof.
  intros. rewrite len_ljust. assert (len (slice img (l * 512) (l * 512 + 512)) <= 512); [|lia].
  unfold slice. rewrite len_take. lia.
Qed.

Lemma len_sector s l : 0 <= l -> len (Emu.sector l s) = 512.
Proof. apply len_sector_slice. Qed.

(** Writing a sector of the image changes that sector and no other. *)
Lemma emu_sector_set l l' data s :
  0 <= l -> 0 <= l' ->
  Emu.sector l' (Emu.set_sector l data s) =
    if decide (l' = l) then ljust (take (Z.to_nat SECTOR) data) SECTOR x00 else Emu.sector l' s.
Proof.
  intros Hl Hl'. unfold Emu.sector at 1. cbn [Emu.image Emu.set_sector].
  set (d := take (Z.to_nat SECTOR) data).
  set (im := if _ <? _ then _ else _).
  assert (0 <= len d <= 512) as Hd by (unfold d, SECTOR; rewrite len_take; pose proof (len_nonneg data); lia).
  assert (Him : l * SECTOR + SECTOR <= len im).
  { unfold im. destruct (_ <? _) eqn:E; [|lia]. rewrite len_ljust. lia. }
  assert (Hnth : forall k, nth k im x00 = nth k (Emu.image s) x00).
  { intros k. unfold im. destruct (_ <? _); [apply ljust_nth|done]. }
  assert (Hz : len (zeros (SECTOR - len d)) = SECTOR - len d) by (apply len_zeros; unfold SECTOR; lia).
  unfold SECTOR in *.
  assert (H1 : len (slice_assign im (l * 512) (l * 512 + len d) d) = len im) by (apply len_slice_assign; lia).
  apply sector_ext.
  - by apply len_sector_slice.
  - destruct (decide (l' = l)); [rewrite len_ljust; lia|]. by apply len_sector.
  - intros k Hk. pose proof (sector_nth (slice_assign (slice_assign im (l * 512) (l * 512 + len d) d)
      (l * 512 + len d) (l * 512 + 512) (zeros (512 - len d))) l' k Hl' Hk) as Hs. unfold SECTOR in Hs.
    rewrite Hs. replace (Z.to_nat (l' * 512) + k)%nat with (Z.to_nat (l' * 512 + Z.of_nat k)) by lia.
    replace (l * 512 + 512) with (l * 512 + len d + len (zeros (512 - len d))) by lia.
    rewrite nth_slice_assign by (rewrite ?H1; lia). rewrite nth_slice_assign by lia. rewrite Hz, Hnth.
    destruct (decide (l' = l)) as [->|Hne].
    + rewrite ljust_nth.
      destruct (Z.lt_ge_cases (Z.of_nat k) (len d)).
      * replace (_ && _) with false by lia. replace (_ && _) with true by lia. f_equal. lia.
      * replace (_ && _) with true by lia. unfold zeros. rewrite (nth_overflow d) by (unfold len in *; lia).
        generalize (Z.to_nat (l * 512 + Z.of_nat k - (l * 512 + len d))), (Z.to_nat (512 - len d)).
        intros i m. revert i. induction m; intros [|i]; simpl; auto.
    + replace (_ && _) with false by lia. replace (_ && _) with false by lia.
      unfold Emu.sector, SECTOR. pose proof (sector_nth (Emu.image s) l' k Hl' Hk) as Hs'. unfold SECTOR in Hs'.
      rewrite Hs'. f_equal. lia.
Qed.

Lemma get_sector_set l l' data c :
  get_sector l' (set_sector l data c) =
    if decide (l' = l) then ljust (take (Z.to_nat SECTOR) data) SECTOR x00 else get_sector l' c.
Proof.
  unfold get_sector, set_sector. cbn [sectors set_sectors]. destruct (decide (l' = l)) as [->|].
  - by rewrite lookup_insert_eq.
  - by rewrite lookup_insert_ne by done.
Qed.

(** Both cards update the same way: the fields not updated agree as before. *)
Ltac agree_field :=
  match goal with H : agree ?c ?s |- agree _ _ =>
    destruct H as [A1 A2 A3 A4 A5 A6 A7 A8 A9 A10]; split;
    first [assumption | (cbn; congruence) | (unfold states_agree in *; cbn in *; assumption) | idtac] end.

Lemma agree_resp c s d : agree c s -> agree (add_resp d c) (Emu.extend d s).
Proof. intros H. agree_field. Qed.

Lemma agree_violation c s v : agree c s -> agree (add_violation v c) (Emu.push_violation v s).
Proof. intros H. agree_field. Qed.

Lemma agree_command c s x : agree c s -> agree (add_command x c) (Emu.push_command x s).
Proof. intros H. agree_field. Qed.

Lemma agree_ready c s b : agree c s -> agree (set_ready b c) (Emu.set_eready b s).
Proof. intros H. agree_field. Qed.

Lemma agree_fast c s b : agree c s -> agree (set_fast_reported b c) (Emu.set_efast b s).
Proof. intros H. agree_field. Qed.

Lemma agree_first c s b : agree c s -> agree (set_first_cmd_seen b c) (Emu.set_efirst b s).
Proof. intros H. agree_field. Qed.

Lemma agree_idle c s n : agree c s -> agree (set_idle_clocks n c) (Emu.set_eidle n s).
Proof. intros H. agree_field. Qed.

Lemma agree_hz c s n : agree c s -> agree (set_sclk_hz n c) (Emu.set_sclk_hz n s).
Proof. intros H. agree_field. Qed.

Lemma agree_reads c s m : agree c s -> agree c (Emu.set_reads m s).
Proof. intros H. agree_field. Qed.

Lemma agree_answering c s b : agree c s -> agree (set_answering b c) s.
Proof. intros H. agree_field. Qed.

Lemma agree_st c s x y : agree c s -> (forall c' s', state c' = x -> buf c' = buf c -> lba c' = lba c -> Emu.st s' = y -> states_agree c' s') ->
  agree (set_state x c) (Emu.set_st y s).
Proof.
  intros H Hs. destruct H as [A1 A2 A3 A4 A5 A6 A7 A8 A9 A10]. split; try assumption. by apply Hs.
Qed.

Create HintDb agree.
#[local] Hint Resolve agree_resp agree_violation agree_command agree_ready agree_fast agree_first agree_idle
  agree_hz agree_reads agree_answering : agree.

Lemma addr_lba_agree cfg cmd arg c s :
  agree c s -> 0 <= arg ->
  (addr_lba cfg cmd arg c).1 = (Emu.lba_of cfg cmd arg s).1 /\ 0 <= (addr_lba cfg cmd arg c).1 /\
  agree (addr_lba cfg cmd arg c).2 (Emu.lba_of cfg cmd arg s).2.
Proof.
  intros H Ha. assert (0 <= Z.shiftr arg 9) by (apply Z.shiftr_nonneg; lia).
  unfold addr_lba, Emu.lba_of. destruct (strict cfg); cbn [negb].
  - destruct (sdhc cfg); [done|]. destruct (arg mod SECTOR =? 0); cbn [negb fst snd]; auto with agree.
  - cbn [fst snd]. by destruct (arg <? 0x10000).
Qed.

Lemma logged_agree cfg cmd arg c s :
  agree c s -> agree (logged cfg cmd arg c) (Emu.logged cfg cmd arg s).
Proof.
  intros H. unfold logged, Emu.logged. apply (agree_command _ _ (cmd, arg)) in H.
  rewrite (ag_first _ _ H). destruct (negb _); [|done].
  apply (agree_first _ _ true) in H. rewrite (ag_idle _ _ H). destruct (strict cfg && _); auto with agree.
Qed.

(** The same answer to every command. *)
Lemma command_agree cfg cmd arg c s :
  agree c s -> 0 <= arg -> agree (command cfg cmd arg c) (Emu.command cfg [] cmd arg s).
Proof.
  intros H Ha. unfold command, Emu.command. pose proof (logged_agree cfg cmd arg _ _ H) as H2.
  set (c2 := logged cfg cmd arg c) in *. set (s2 := Emu.logged cfg cmd arg s) in *.
  clearbody c2 s2. clear H. destruct (existsb (Z.eqb cmd) (mute_cmds cfg)); [done|].
  destruct (cmd =? 0); [auto with agree|]. destruct (cmd =? 8); [auto with agree|].
  destruct (cmd =? 55); [rewrite (ag_ready _ _ H2); destruct (Emu.eready s2); auto with agree|].
  destruct ((cmd =? 1) || (cmd =? 41)).
  { pose proof (agree_ready _ _ (negb (never_ready cfg)) H2) as H3. cbv zeta.
    set (c3 := set_ready (negb (never_ready cfg)) c2) in *. set (s3 := Emu.set_eready _ s2) in *.
    rewrite (ag_fast _ _ H3), (ag_ready _ _ H3). clearbody c3 s3.
    pose proof (agree_fast _ _ (Emu.efast s3 && negb (Emu.eready s3)) H3) as H4.
    rewrite (ag_ready _ _ H4). destruct (Emu.eready _); apply agree_resp, H4. }
  destruct (cmd =? 58); [auto with agree|]. destruct (cmd =? 16); [auto with agree|].
  destruct (addr_lba_agree cfg cmd arg c2 s2 H2 Ha) as (E1 & E2 & E3).
  destruct (cmd =? 17); [|destruct (cmd =? 24); [|done]].
  - destruct (addr_lba cfg cmd arg c2) as [l c3], (Emu.lba_of cfg cmd arg s2) as [l' s3]. cbn [fst snd] in *. subst l'.
    cbn [existsb]. rewrite orb_false_r. destruct (read_error cfg || _); [auto with agree|].
    rewrite (ag_sectors _ _ E3 l E2).
    set (n := default 0 (Emu.reads s3 !! l)).
    replace (add_resp ([xff; x00; xff; xfe] ++ Emu.sector l s3 ++ [x12; x34]) c3)
      with (add_resp [x12; x34] (add_resp (Emu.sector l s3) (add_resp [xff; x00; xff; xfe] c3)))
      by (unfold add_resp, set_resp; cbn [resp]; rewrite <- !app_assoc; done).
    do 3 apply agree_resp. auto with agree.
  - destruct (addr_lba cfg cmd arg c2) as [l c3], (Emu.lba_of cfg cmd arg s2) as [l' s3]. cbn [fst snd] in *. subst l'.
    pose proof (agree_resp c3 s3 [xff; x00] E3) as H3.
    destruct H3 as [A1 A2 A3 A4 A5 A6 A7 A8 A9 A10]. split; try assumption. by split.
Qed.


Lemma be_combine_nonneg l : 0 <= be_combine l.
Proof. apply le_combine_range. Qed.

(** Counting the byte touches neither the answer nor the card's state. *)
Lemma clocked_set_resp cfg sel r a c :
  clocked cfg sel (set_resp r (set_answering a c)) = set_resp r (set_answering a (clocked cfg sel c)).
Proof.
  unfold clocked. cbn [first_cmd_seen set_resp set_answering].
  destruct (negb sel && _); cbn; by destruct (strict cfg && _ && _ && _).
Qed.

Lemma clocked_set_answering cfg sel a c :
  clocked cfg sel (set_answering a c) = set_answering a (clocked cfg sel c).
Proof.
  unfold clocked. cbn [first_cmd_seen set_answering].
  destruct (negb sel && _); cbn; by destruct (strict cfg && _ && _ && _).
Qed.

(** One byte, by what the card has to say. *)
Lemma exchange_answer cfg m sel c b r :
  resp c = b :: r -> exchange cfg m sel c = (b, set_resp r (set_answering true (clocked cfg sel c))).
Proof.
  intros Hr. unfold exchange, begin_byte. rewrite Hr. unfold end_byte. by rewrite clocked_set_resp.
Qed.

Lemma exchange_listen cfg m sel c :
  resp c = [] ->
  exchange cfg m sel c =
    (xff, let c := set_answering false (clocked cfg sel c) in if negb sel then c else receive cfg m c).
Proof.
  intros Hr. unfold exchange, begin_byte. rewrite Hr. unfold end_byte. rewrite clocked_set_answering. by destruct sel.
Qed.

Lemma clocked_agree cfg sel c s : agree c s -> agree (clocked cfg sel c) (Emu.clocked cfg sel s).
Proof.
  intros H. unfold clocked, Emu.clocked. rewrite (ag_first _ _ H), (ag_idle _ _ H).
  set (c1 := if negb sel && _ then set_idle_clocks _ c else c). set (s1 := if negb sel && _ then _ else s).
  assert (H1 : agree c1 s1) by (unfold c1, s1; clear c1 s1; destruct (negb sel && _); auto with agree).
  clearbody c1 s1. rewrite (ag_ready _ _ H1), (ag_hz _ _ H1), (ag_fast _ _ H1).
  destruct (_ && _ && _ && _); auto with agree.
Qed.

Lemma receive_agree cfg m c s : agree c s -> agree (receive cfg m c) (Emu.receive cfg [] m s).
Proof.
  intros H. pose proof (ag_state _ _ H) as Hs. unfold receive, Emu.receive. unfold states_agree in Hs.
  destruct (state c) eqn:Ec, (Emu.st s) as [|b|l|l b|] eqn:Es; try done.
  - destruct (_ =? _); [|done]. destruct H as [A1 A2 A3 A4 A5 A6 A7 A8 A9 A10]. by split.
  - cbn [buf set_buf]. rewrite Hs. destruct (_ =? 6).
    + apply command_agree; [|apply be_combine_nonneg]. destruct H as [A1 A2 A3 A4 A5 A6 A7 A8 A9 A10]. by split.
    + destruct H as [A1 A2 A3 A4 A5 A6 A7 A8 A9 A10]. split; try assumption. unfold states_agree. cbn. by rewrite Ec.
  - destruct Hs as [Hl Hl0]. destruct (_ =? 0xFE); [|done].
    destruct H as [A1 A2 A3 A4 A5 A6 A7 A8 A9 A10]. by split.
  - destruct Hs as (Hl & Hl0 & Hb). cbn [buf set_buf]. rewrite Hb. destruct (_ =? SECTOR + 2).
    + destruct (write_reject cfg); [apply agree_resp; destruct H as [A1 A2 A3 A4 A5 A6 A7 A8 A9 A10]; by split|].
      apply agree_resp. cbn [lba set_state set_buf]. rewrite Hl.
      destruct H as [A1 A2 A3 A4 A5 A6 A7 A8 A9 A10]. split; try assumption; [|done].
      intros l' Hl'. rewrite get_sector_set, emu_sector_set by done. destruct (decide (l' = l)); [done|]. by apply A1.
    + destruct H as [A1 A2 A3 A4 A5 A6 A7 A8 A9 A10]. split; try assumption. unfold states_agree. cbn. by rewrite Ec.
Qed.

Lemma exchange_agree cfg m sel c s :
  agree c s ->
  (exchange cfg m sel c).1 = (Emu.exchange cfg [] m sel s).1 /\
  agree (exchange cfg m sel c).2 (Emu.exchange cfg [] m sel s).2.
Proof.
  intros H. pose proof (clocked_agree cfg sel _ _ H) as H1. unfold Emu.exchange.
  assert (Hr : resp c = Emu.eresp (Emu.clocked cfg sel s)).
  { rewrite (ag_resp _ _ H). unfold Emu.clocked. cbv zeta.
    destruct (negb sel && _); cbn; by destruct (strict cfg && _ && _ && _). }
  rewrite <- Hr. destruct (resp c) as [|b r] eqn:Er.
  - rewrite exchange_listen by done. split; [done|]. cbn [snd].
    destruct sel; cbn [negb]; [apply receive_agree|]; auto with agree.
  - erewrite exchange_answer by done. split; [done|]. cbn [snd].
    destruct H1 as [A1 A2 A3 A4 A5 A6 A7 A8 A9 A10]. by split.
Qed.

Lemma card_step_agree cfg op c s :
  agree c s ->
  (card_step cfg op c).1 = (Emu.step cfg [] op s).1 /\ agree (card_step cfg op c).2 (Emu.step cfg [] op s).2.
Proof.
  intros H. destruct op as [b|hz|m b]; cbn [card_step Emu.step].
  - split; [done|]. cbn [snd]. unfold set_cs, Emu.set_cs. destruct b; cbn [negb]; [done|].
    destruct H as [A1 A2 A3 A4 A5 A6 A7 A8 A9 A10]. by split.
  - split; [done|]. cbn [snd]. auto with agree.
  - destruct (exchange_agree cfg m b c s H) as [E1 E2].
    destruct (exchange cfg m b c), (Emu.exchange cfg [] m b s). cbn in *. by subst.
Qed.

Lemma card_run_agree cfg ops c s :
  agree c s ->
  (card_run cfg ops c).1 = (Emu.run cfg [] ops s).1 /\ agree (card_run cfg ops c).2 (Emu.run cfg [] ops s).2.
Proof.
  revert c s. induction ops as [|op ops IH]; intros c s H; [done|]. cbn [card_run Emu.run].
  destruct (card_step_agree cfg op c s H) as [E1 E2].
  destruct (card_step cfg op c) as [o c1], (Emu.step cfg [] op s) as [o' s1]. cbn [fst snd] in *. subst o'.
  destruct (IH _ _ E2) as [E3 E4]. destruct (card_run cfg ops c1), (Emu.run cfg [] ops s1). cbn in *. by subst.
Qed.

(** C9: the RTL tests' card and the emulator's are the same card: started with the same contents,
    they answer every byte of any sequence of CS changes, SCLK settings and bytes alike, with
    the same command log and protocol violations, and hold the same sectors afterwards. *)
Theorem cards_agree cfg m img ops
    (Hm : forall l, 0 <= l -> default (zeros SECTOR) (m !! l) = Emu.sector l (Emu.new img)) :
  let '(os, c) := card_run cfg ops (set_sectors m card_init) in
  let '(os', s) := Emu.run cfg [] ops (Emu.new img) in
  os = os' /\ commands c = Emu.ecommands s /\ violations c = Emu.eviolations s /\
  forall l, 0 <= l -> get_sector l c = Emu.sector l s.
Proof.
  assert (H : agree (set_sectors m card_init) (Emu.new img)) by by split.
  destruct (card_run_agree cfg ops _ _ H) as [E1 E2].
  destruct (card_run cfg ops _) as [os c], (Emu.run cfg [] ops _) as [os' s]. cbn [fst snd] in *.
  destruct E2 as [A1 A2 A3 A4 A5 A6 A7 A8 A9 A10]. done.
Qed.

Definition example_config : card_config := mkConfig false true [] false false [7] false.

Lemma cards_agree_witness :
  let ops := [OpSclk 1000000; OpByte xff false; OpCs true; OpByte x51 true; OpByte x00 true; OpByte x00 true;
              OpByte x02 true; OpByte x01 true; OpByte xff true] ++ repeat (OpByte xff true) 516 in
  let '(os, c) := card_run example_config ops (set_sectors (<[1 := replicate 512 xa5]> ∅) card_init) in
  let '(os', s) := Emu.run example_config [] ops (Emu.new (zeros 512 ++ replicate 512 xa5)) in
  os = os' /\ commands c = Emu.ecommands s /\ violations c = Emu.eviolations s /\
  forall l, 0 <= l -> get_sector l c = Emu.sector l s.
Proof.
  apply (cards_agree example_config). intros l Hl. destruct (decide (l = 1)) as [->|H1]; [reflexivity|].
  rewrite lookup_insert_ne, lookup_empty by done. unfold Emu.sector, SECTOR. cbn [Emu.image Emu.new default].
  destruct (decide (l = 0)) as [->|H0]; [reflexivity|].
  unfold slice. rewrite drop_ge, take_nil; [reflexivity|].
  unfold zeros. rewrite length_app, !length_replicate. lia.
Defined.

(** ** Frames, blocks and the card's store *)

Definition core (c : SdCardProtocol) := (sectors c, resp c, state c, buf c, lba c).

Lemma core_clocked cfg sel c : core (clocked cfg sel c) = core c.
Proof. unfold clocked. cbv zeta. destruct (negb sel && _); cbn; by destruct (strict cfg && _ && _ && _). Qed.

(** While the card answers it only gives out its answer. *)
Lemma exchanges_answer cfg ms : forall c,
  len (resp c) = len ms ->
  exists c', exchanges cfg ms c = (resp c, c') /\ core c' = (sectors c, [], state c, buf c, lba c).
Proof.
  induction ms as [|m ms IH]; intros c Hl.
  - destruct (resp c) as [|b r] eqn:Er; [|exfalso; revert Hl; len_solve]. exists c. split; [done|].
    unfold core. by rewrite Er.
  - destruct (resp c) as [|b r] eqn:Er; [exfalso; revert Hl; len_solve|]. cbn [exchanges].
    erewrite exchange_answer by done.
    destruct (IH (set_resp r (set_answering true (clocked cfg true c)))) as (c' & E1 & E2).
    { cbn. revert Hl. len_solve. }
    rewrite E1. cbn in E2. pose proof (core_clocked cfg true c) as Hc. unfold core in Hc.
    injection Hc as H1 H2 H3 H4 H5. exists c'. split; [done|]. by rewrite E2, H1, H3, H4, H5.
Qed.

(** One byte received by a card with nothing to say. *)
Lemma exchange_receive cfg m c :
  resp c = [] -> exists c1, exchange cfg m true c = (xff, receive cfg m c1) /\ core c1 = core c.
Proof.
  intros Hr. rewrite exchange_listen by done. cbn [negb]. eexists. split; [done|].
  rewrite <- (core_clocked cfg true c). done.
Qed.

Lemma core_inv c c' :
  core c = core c' -> sectors c = sectors c' /\ resp c = resp c' /\ state c = state c' /\ buf c = buf c' /\ lba c = lba c'.
Proof. intros [= -> -> -> -> ->]. done. Qed.

(** Bytes of a frame after its first, up to the fifth. *)
Lemma exchanges_cmd cfg ms : forall c,
  resp c = [] -> state c = Cmd -> len (buf c) + len ms <= 5 ->
  exists c', exchanges cfg ms c = (repeat xff (length ms), c') /\
    core c' = (sectors c, [], Cmd, buf c ++ ms, lba c).
Proof.
  induction ms as [|m ms IH]; intros c Hr Hs Hl.
  - exists c. split; [done|]. unfold core. by rewrite app_nil_r, Hr, Hs.
  - cbn [exchanges]. destruct (exchange_receive cfg m c Hr) as (c1 & -> & Hc).
    apply core_inv in Hc as (H1 & H2 & H3 & H4 & H5).
    unfold receive. rewrite H3, Hs. cbn [buf set_buf]. rewrite H4.
    replace (len (buf c ++ [m]) =? 6) with false by (revert Hl; len_solve).
    destruct (IH (set_buf (buf c ++ [m]) c1)) as (c' & -> & Hc').
    { cbn. congruence. } { cbn. congruence. } { cbn. revert Hl. len_solve. }
    exists c'. split; [done|]. rewrite Hc'. cbn. by rewrite H1, H5, <- app_assoc.
Qed.

Definition cmd_frame (cmd arg : Z) (crc : byte) : bytes :=
  byte.of_Z (0x40 + cmd) :: rev (le_split 4 arg) ++ [crc].

Lemma exchanges_app cfg a b c :
  exchanges cfg (a ++ b) c =
    ((exchanges cfg a c).1 ++ (exchanges cfg b (exchanges cfg a c).2).1, (exchanges cfg b (exchanges cfg a c).2).2).
Proof.
  revert c. induction a as [|m a IH]; intros c; [cbn; by destruct (exchanges cfg b c)|].
  cbn [app exchanges]. destruct (exchange cfg m true c) as [x c1]. rewrite IH.
  destruct (exchanges cfg a c1) as [y c2]. cbn [fst snd]. by destruct (exchanges cfg b c2).
Qed.

(** A listening card takes six bytes as a command. *)
Lemma exchanges_frame cfg cmd arg crc c :
  0 <= cmd < 64 -> 0 <= arg < 2 ^ 32 -> resp c = [] -> state c = Idle ->
  exists c1, exchanges cfg (cmd_frame cmd arg crc) c = (repeat xff 6, command cfg cmd arg c1) /\
    sectors c1 = sectors c /\ resp c1 = [] /\ state c1 = Idle.
Proof.
  intros Hcmd Harg Hr Hs.
  assert (Hlc : Z.land (0x40 + cmd) 0xC0 = 0x40 /\ Z.land (0x40 + cmd) 0x3F = cmd).
  { assert (forallb (fun x => (Z.land (0x40 + x) 0xC0 =? 0x40) && (Z.land (0x40 + x) 0x3F =? x))
      (map Z.of_nat (seq 0 64)) = true) as Hall by reflexivity.
    rewrite forallb_forall in Hall. assert (In cmd (map Z.of_nat (seq 0 64))) as Hin.
    { apply in_map_iff. exists (Z.to_nat cmd). split; [lia|]. apply in_seq. lia. }
    specialize (Hall _ Hin). cbv beta in Hall. apply andb_true_iff in Hall as [? ?]. by split; apply Z.eqb_eq. }
  unfold cmd_frame. set (f := byte.of_Z (0x40 + cmd)).
  assert (Hf : u8 f = 0x40 + cmd) by (apply u8_of_Z; lia).
  change (f :: rev (le_split 4 arg) ++ [crc]) with ([f] ++ rev (le_split 4 arg) ++ [crc]).
  cbn [app exchanges]. destruct (exchange_receive cfg f c Hr) as (c1 & -> & Hc).
  apply core_inv in Hc as (H1 & H2 & H3 & H4 & H5).
  unfold receive at 1. rewrite H3, Hs, Hf. destruct Hlc as [-> Hlc]. change (64 =? 64) with true. cbv iota.
  rewrite exchanges_app. set (ad := rev (le_split 4 arg)).
  assert (Had : length ad = 4%nat) by (unfold ad; by rewrite length_rev, length_le_split).
  destruct (exchanges_cmd cfg ad (set_buf [f] (set_state Cmd c1))) as (c2 & E2 & Hc2).
  { cbn. congruence. } { done. } { cbn [buf set_buf]. unfold len. rewrite Had. done. }
  rewrite E2. cbn [fst snd exchanges]. unfold core in Hc2. injection Hc2 as K1 K2 K3 K4 K5.
  cbn in K1, K4, K5.
  destruct (exchange_receive cfg crc c2 K2) as (c3 & -> & Hc3).
  apply core_inv in Hc3 as (M1 & M2 & M3 & M4 & M5).
  unfold receive. rewrite M3, K3. cbn [buf set_buf]. rewrite M4, K4.
  replace (len ((f :: ad) ++ [crc]) =? 6) with true by (unfold len; rewrite length_app; cbn; rewrite Had; done).
  change (nth 0 ((f :: ad) ++ [crc]) x00) with f. rewrite Hf, Hlc.
  assert (Hs5 : slice ((f :: ad) ++ [crc]) 1 5 = ad).
  { change ((f :: ad) ++ [crc]) with ([f] ++ ad ++ [crc]). apply slice_mid; [done|]. unfold len. rewrite Had. done. }
  assert (Hbe : be_combine ad = arg) by (unfold be_combine, ad; rewrite rev_involutive; by apply le_combine_split_in).
  rewrite Hs5, Hbe, Had. eexists. split; [reflexivity|]. cbn. repeat split; congruence.
Qed.

(** A block's bytes, up to the last. *)
Lemma exchanges_data cfg ms : forall c,
  resp c = [] -> state c = Data -> len (buf c) + len ms <= 513 ->
  exists c', exchanges cfg ms c = (repeat xff (length ms), c') /\
    core c' = (sectors c, [], Data, buf c ++ ms, lba c).
Proof.
  induction ms as [|m ms IH]; intros c Hr Hs Hl.
  - exists c. split; [done|]. unfold core. by rewrite app_nil_r, Hr, Hs.
  - cbn [exchanges]. destruct (exchange_receive cfg m c Hr) as (c1 & -> & Hc).
    apply core_inv in Hc as (H1 & H2 & H3 & H4 & H5).
    unfold receive. rewrite H3, Hs. cbn [buf set_buf]. rewrite H4.
    replace (len (buf c ++ [m]) =? SECTOR + 2) with false by (revert Hl; unfold SECTOR; len_solve).
    destruct (IH (set_buf (buf c ++ [m]) c1)) as (c' & -> & Hc').
    { cbn. congruence. } { cbn. congruence. } { cbn. revert Hl. len_solve. }
    exists c'. split; [done|]. rewrite Hc'. cbn. by rewrite H1, H5, <- app_assoc.
Qed.

(** What CMD24 and CMD17 leave to be done. *)
Lemma core_logged cfg cmd arg c : core (logged cfg cmd arg c) = core c.
Proof. unfold logged. cbv zeta. destruct (negb _); [|done]. by destruct (strict cfg && _). Qed.

Lemma core_addr_lba cfg cmd arg c : core (addr_lba cfg cmd arg c).2 = core c.
Proof. unfold addr_lba. destruct (negb (strict cfg)), (sdhc cfg), (negb (arg mod SECTOR =? 0)); done. Qed.

Lemma addr_lba_fst cfg cmd cmd' arg c c' : (addr_lba cfg cmd arg c).1 = (addr_lba cfg cmd' arg c').1.
Proof. unfold addr_lba. by destruct (strict cfg), (sdhc cfg). Qed.

Lemma command_write cfg arg c :
  existsb (Z.eqb 24) (mute_cmds cfg) = false -> resp c = [] ->
  core (command cfg 24 arg c) = (sectors c, [xff; x00], WaitToken, buf c, (addr_lba cfg 24 arg c).1).
Proof.
  intros Hm Hr. unfold command. rewrite Hm.
  rewrite (addr_lba_fst cfg 24 24 arg c (logged cfg 24 arg c)).
  pose proof (core_addr_lba cfg 24 arg (logged cfg 24 arg c)) as Hc. rewrite core_logged in Hc.
  destruct (addr_lba cfg 24 arg (logged cfg 24 arg c)) as [l c1]. cbn [fst snd] in *.
  apply core_inv in Hc as (H1 & H2 & H3 & H4 & H5). unfold core. cbn. rewrite H1, H2, H4, Hr. done.
Qed.

Lemma command_read cfg arg c l :
  existsb (Z.eqb 17) (mute_cmds cfg) = false -> read_error cfg = false ->
  l = (addr_lba cfg 17 arg c).1 -> existsb (Z.eqb l) (bad_sectors cfg) = false -> resp c = [] ->
  core (command cfg 17 arg c) =
    (sectors c, [xff; x00; xff; xfe] ++ get_sector l c ++ [x12; x34], state c, buf c, lba c).
Proof.
  intros Hm Hre Hl Hb Hr. unfold command. rewrite Hm.
  rewrite (addr_lba_fst cfg 17 17 arg c (logged cfg 17 arg c)) in Hl.
  pose proof (core_addr_lba cfg 17 arg (logged cfg 17 arg c)) as Hc. rewrite core_logged in Hc.
  destruct (addr_lba cfg 17 arg (logged cfg 17 arg c)) as [l' c1]. cbn [fst snd] in *. subst l'.
  apply core_inv in Hc as (H1 & H2 & H3 & H4 & H5).
  change (17 =? 0) with false. change (17 =? 8) with false. change (17 =? 55) with false.
  change ((17 =? 1) || (17 =? 41)) with false. change (17 =? 58) with false. change (17 =? 16) with false.
  change (17 =? 17) with true. cbv iota. rewrite Hre, Hb. cbn [orb]. unfold core, get_sector, add_resp. cbn.
  rewrite H1, H2, Hr, H3, H4, H5. done.
Qed.

(** The bytes a host clocks to write a block, and to read one. *)
Definition write_bytes (arg : Z) (crc : byte) (data crc2 : bytes) : bytes :=
  cmd_frame 24 arg crc ++ [xff; xff] ++ [xfe] ++ data ++ crc2 ++ [xff; xff].
Definition read_bytes (arg : Z) (crc : byte) : bytes := cmd_frame 17 arg crc ++ repeat xff 518.

Lemma card_writes cfg arg crc data crc2 c l :
  existsb (Z.eqb 24) (mute_cmds cfg) = false -> write_reject cfg = false ->
  0 <= arg < 2 ^ 32 -> len data = 512 -> len crc2 = 2 -> resp c = [] -> state c = Idle ->
  l = (addr_lba cfg 24 arg c).1 ->
  exists c', exchanges cfg (write_bytes arg crc data crc2) c =
      (repeat xff 6 ++ [xff; x00] ++ repeat xff 515 ++ [x05; x3f], c') /\
    sectors c' = <[l := data]> (sectors c) /\ resp c' = [] /\ state c' = Resync.
Proof.
  intros Hm Hw Harg Hd Hd2 Hr Hs ->. unfold write_bytes.
  destruct (exchanges_frame cfg 24 arg crc c) as (c1 & E1 & S1 & R1 & T1); [lia|done..|].
  rewrite exchanges_app, E1. cbn [fst snd].
  pose proof (command_write cfg arg c1 Hm R1) as Hc. set (c2 := command cfg 24 arg c1) in *. clearbody c2.
  rewrite (addr_lba_fst cfg 24 24 arg c1 c) in Hc. set (l := (addr_lba cfg 24 arg c).1) in *.
  injection Hc as A1 A2 A3 A4 A5.
  destruct (exchanges_answer cfg [xff; xff] c2) as (c3 & E3 & Hc3); [by rewrite A2|].
  rewrite exchanges_app, E3. cbn [fst snd]. injection Hc3 as B1 B2 B3 B4 B5.
  rewrite (exchanges_app _ [xfe]). cbn [exchanges].
  destruct (exchange_receive cfg xfe c3 B2) as (c4 & -> & Hc4). apply core_inv in Hc4 as (C1 & C2 & C3 & C4 & C5).
  unfold receive. rewrite C3, B3, A3. change (u8 xfe =? 0xFE) with true. cbv iota. cbn [fst snd].
  set (c5 := set_buf [] (set_state Data c4)).
  assert (Hlast : exists p x y, data ++ crc2 = p ++ [x] /\ len p = 513 /\ take 512 (p ++ [x]) = data /\ crc2 = [y; x]).
  { destruct crc2 as [|x [|y [|]]]; try (exfalso; clear - Hd2; revert Hd2; len_solve; fail).
    exists (data ++ [x]), y, x. rewrite <- app_assoc. split; [done|]. split; [revert Hd; len_solve|].
    split; [|done]. cbn [app]. assert (length data = 512%nat) by (unfold len in Hd; lia).
    by rewrite take_app_length'. }
  destruct Hlast as (p & x & y & Hpx & Hlp & Htake & _).
  rewrite (app_assoc data), Hpx, <- app_assoc.
  rewrite (exchanges_app _ p).
  destruct (exchanges_data cfg p c5) as (c6 & E6 & Hc6); [cbn; congruence|done|cbn; rewrite Hlp; done|].
  rewrite E6. cbn [fst snd]. unfold core in Hc6. injection Hc6 as D1 D2 D3 D4 D5. cbn in D1, D4, D5.
  rewrite (exchanges_app _ [x]). cbn [exchanges].
  destruct (exchange_receive cfg x c6 D2) as (c7 & -> & Hc7). apply core_inv in Hc7 as (F1 & F2 & F3 & F4 & F5).
  unfold receive. rewrite F3, D3. cbn [buf set_buf]. rewrite F4, D4.
  replace (len (p ++ [x]) =? SECTOR + 2) with true by (rewrite len_app, Hlp; done). rewrite Hw.
  set (c8 := add_resp _ _).
  assert (R8 : resp c8 = [x05; x3f]) by (cbn; by rewrite F2, D2).
  destruct (exchanges_answer cfg [xff; xff] c8) as (c9 & E9 & Hc9); [by rewrite R8|].
  cbn [exchanges] in E9. cbn [fst snd]. rewrite E9. cbn [fst snd]. exists c9. injection Hc9 as G1 G2 G3 G4 G5. split.
  - rewrite R8. rewrite A2. assert (length p = 513%nat) as -> by (unfold len in Hlp; lia). reflexivity.
  - split; [|by split]. rewrite G1. cbn. rewrite F1, D1, C1, B1, A1, S1, F5, D5, C5, B5, A5.
    f_equal. rewrite take_take, Nat.min_id. change (Z.to_nat SECTOR) with 512%nat. rewrite Htake.
    unfold ljust. rewrite Hd. by rewrite app_nil_r.
Qed.

Lemma card_reads cfg arg crc c l :
  existsb (Z.eqb 17) (mute_cmds cfg) = false -> read_error cfg = false ->
  0 <= arg < 2 ^ 32 -> resp c = [] -> state c = Idle ->
  l = (addr_lba cfg 17 arg c).1 -> existsb (Z.eqb l) (bad_sectors cfg) = false -> len (get_sector l c) = 512 ->
  exists c', exchanges cfg (read_bytes arg crc) c =
      (repeat xff 6 ++ [xff; x00; xff; xfe] ++ get_sector l c ++ [x12; x34], c') /\
    sectors c' = sectors c /\ resp c' = [] /\ state c' = Idle.
Proof.
  intros Hm Hre Harg Hr Hs Hl Hb Hlen. unfold read_bytes.
  destruct (exchanges_frame cfg 17 arg crc c) as (c1 & E1 & S1 & R1 & T1); [lia|done..|].
  rewrite exchanges_app, E1. cbn [fst snd].
  rewrite (addr_lba_fst cfg 17 17 arg c c1) in Hl.
  pose proof (command_read cfg arg c1 l Hm Hre Hl Hb R1) as Hc. set (c2 := command cfg 17 arg c1) in *. clearbody c2.
  assert (Hg : get_sector l c1 = get_sector l c) by (unfold get_sector; by rewrite S1). rewrite Hg in Hc.
  unfold core in Hc. injection Hc as A1 A2 A3 A4 A5.
  destruct (exchanges_answer cfg (repeat xff 518) c2) as (c3 & E3 & Hc3).
  { rewrite A2. cbn [app]. revert Hlen. len_solve. unfold len. rewrite repeat_length. len_solve. }
  rewrite E3. cbn [fst snd]. unfold core in Hc3. injection Hc3 as B1 B2 B3 B4 B5.
  exists c3. split; [by rewrite A2|]. repeat split; congruence.
Qed.

(** A block written over SPI is the block read back: with the card listening, a CMD24 with its
    data block is accepted, and after CS has gone high a CMD17 of the same address answers that
    block; the other sectors keep their contents. Any card type and addressing, strict or not. *)
Theorem card_write_read cfg arg crc crc' data crc2 c l
    (Hmute : existsb (Z.eqb 24) (mute_cmds cfg) = false /\ existsb (Z.eqb 17) (mute_cmds cfg) = false)
    (Hok : write_reject cfg = false /\ read_error cfg = false)
    (Harg : 0 <= arg < 2 ^ 32) (Hdata : len data = 512) (Hcrc2 : len crc2 = 2)
    (Hidle : resp c = [] /\ state c = Idle)
    (Hl : l = (addr_lba cfg 24 arg c).1) (Hgood : existsb (Z.eqb l) (bad_sectors cfg) = false) :
  let '(w, c1) := exchanges cfg (write_bytes arg crc data crc2) c in
  let '(r, c2) := exchanges cfg (read_bytes arg crc') (set_cs true (set_cs false c1)) in
  w = repeat xff 6 ++ [xff; x00] ++ repeat xff 515 ++ [x05; x3f] /\
  r = repeat xff 6 ++ [xff; x00; xff; xfe] ++ data ++ [x12; x34] /\
  (forall l', l' <> l -> get_sector l' c2 = get_sector l' c) /\ resp c2 = [] /\ state c2 = Idle.
Proof.
  destruct Hmute as [Hm1 Hm2], Hok as [Hw Hre], Hidle as [Hr Hs].
  destruct (card_writes cfg arg crc data crc2 c l) as (c1 & -> & S1 & R1 & T1); [done..|].
  set (c1' := set_cs true (set_cs false c1)).
  assert (Hget : get_sector l c1' = data) by (unfold get_sector; cbn; by rewrite S1, lookup_insert_eq).
  destruct (card_reads cfg arg crc' c1' l) as (c2 & -> & S2 & R2 & T2); try done.
  { rewrite Hl. apply addr_lba_fst. } { by rewrite Hget. }
  rewrite Hget. split; [done|]. split; [done|]. split; [|done].
  intros l' Hl'. unfold get_sector. rewrite S2. cbn. by rewrite S1, lookup_insert_ne.
Qed.

Lemma card_write_read_witness :
  let '(w, c1) := exchanges example_config (write_bytes 1024 x01 (replicate 512 x5a) [x00; x01]) card_init in
  let '(r, c2) := exchanges example_config (read_bytes 1024 x02) (set_cs true (set_cs false c1)) in
  w = repeat xff 6 ++ [xff; x00] ++ repeat xff 515 ++ [x05; x3f] /\
  r = repeat xff 6 ++ [xff; x00; xff; xfe] ++ replicate 512 x5a ++ [x12; x34] /\
  (forall l', l' <> 2 -> get_sector l' c2 = get_sector l' card_init) /\ resp c2 = [] /\ state c2 = Idle.
Proof. apply (card_write_read example_config); try (split; reflexivity); try reflexivity; lia. Defined.

(** ** What holds of every card, whatever is clocked *)

Record card_ok (cfg : card_config) (c : SdCardProtocol) : Prop := {
  ok_cmd : state c = Cmd -> 1 <= len (buf c) < 6;
  ok_data : state c = Data -> len (buf c) < SECTOR + 2;
  ok_sectors : map_Forall (fun _ d => len d = SECTOR) (sectors c);
  ok_resp : len (resp c) <= 4 + SECTOR + 2;
  ok_commands : Forall (fun x => 0 <= x.1 < 64 /\ 0 <= x.2 < 2 ^ 32) (commands c);
  ok_violations : strict cfg = false -> violations c = [];
  ok_fast : fast_reported c = true -> ready c = false
}.

Lemma len_get_sector c l : map_Forall (fun _ d => len d = SECTOR) (sectors c) -> len (get_sector l c) = SECTOR.
Proof.
  intros H. unfold get_sector. destruct (sectors c !! l) as [d|] eqn:E; [exact (H l d E)|]. apply len_zeros. unfold SECTOR. lia.
Qed.

Lemma clocked_ok cfg sel c : card_ok cfg c -> card_ok cfg (clocked cfg sel c).
Proof.
  intros [I1 I2 I3 I4 I5 I6 I7]. unfold clocked. cbv zeta.
  destruct (negb sel && _); cbn; destruct (strict cfg && _ && _ && _) eqn:E;
    split; try assumption; cbn; intros Hs; rewrite ?Hs in E; try discriminate; auto;
    apply andb_prop in E as [E _]; apply andb_prop in E as [E _]; apply andb_prop in E as [_ E];
    by destruct (ready c).
Qed.

Lemma logged_ok cfg cmd arg c :
  0 <= cmd < 64 -> 0 <= arg < 2 ^ 32 -> card_ok cfg c -> card_ok cfg (logged cfg cmd arg c).
Proof.
  intros Hc Ha [I1 I2 I3 I4 I5 I6 I7]. unfold logged. cbv zeta.
  assert (Forall (fun x => 0 <= x.1 < 64 /\ 0 <= x.2 < 2 ^ 32) (commands c ++ [(cmd, arg)])) by
    (apply Forall_app; auto).
  destruct (negb _); [destruct (strict cfg && _) eqn:E|]; split; try assumption; cbn.
  intros Hs. by rewrite Hs in E.
Qed.

Lemma addr_lba_ok cfg cmd arg c : card_ok cfg c -> card_ok cfg (addr_lba cfg cmd arg c).2.
Proof.
  intros H. pose proof H as [I1 I2 I3 I4 I5 I6 I7]. unfold addr_lba. destruct (strict cfg) eqn:Es; cbn [negb]; [|done].
  destruct (sdhc cfg); [done|]. destruct (negb _); [|done]. split; try assumption. rewrite Es. done.
Qed.

Lemma add_resp_ok cfg d c :
  len (resp c ++ d) <= 4 + SECTOR + 2 -> card_ok cfg c -> card_ok cfg (add_resp d c).
Proof. intros Hd [I1 I2 I3 I4 I5 I6 I7]. by split. Qed.

Lemma set_ready_ok cfg b c :
  card_ok cfg c -> card_ok cfg (set_fast_reported (fast_reported c && negb b) (set_ready b c)).
Proof.
  intros [I1 I2 I3 I4 I5 I6 I7]. split; try assumption. cbn. intros H.
  apply andb_prop in H as [_ H]. by destruct b.
Qed.

Lemma set_unready_ok cfg c : card_ok cfg c -> card_ok cfg (set_ready false c).
Proof. intros [I1 I2 I3 I4 I5 I6 I7]. by split. Qed.

Lemma resp_logged cfg cmd arg c : resp (logged cfg cmd arg c) = resp c.
Proof. pose proof (core_logged cfg cmd arg c) as H. by apply core_inv in H as (_ & H & _). Qed.

Lemma resp_addr_lba cfg cmd arg c : resp (addr_lba cfg cmd arg c).2 = resp c.
Proof. pose proof (core_addr_lba cfg cmd arg c) as H. by apply core_inv in H as (_ & H & _). Qed.

Lemma command_ok cfg cmd arg c :
  0 <= cmd < 64 -> 0 <= arg < 2 ^ 32 -> resp c = [] -> card_ok cfg c -> card_ok cfg (command cfg cmd arg c).
Proof.
  intros Hc Ha Hr H. unfold command. apply (logged_ok cfg cmd arg) in H; [|done..].
  rewrite <- (resp_logged cfg cmd arg) in Hr. set (c1 := logged cfg cmd arg c) in *. clearbody c1. cbv zeta.
  destruct (existsb _ _); [done|].
  destruct (cmd =? 0). { apply add_resp_ok; [cbn; by rewrite Hr|]. by apply set_unready_ok. }
  destruct (cmd =? 8). { by apply add_resp_ok; [cbn; rewrite Hr|]. }
  destruct (cmd =? 55). { apply add_resp_ok; [|done]. rewrite Hr. by destruct (ready c1). }
  destruct (_ || _).
  { apply add_resp_ok; [|exact (set_ready_ok cfg (negb (never_ready cfg)) c1 H)]. cbn.
    rewrite Hr. by destruct (never_ready cfg). }
  destruct (cmd =? 58). { apply add_resp_ok; [|done]. by rewrite Hr. }
  destruct (cmd =? 16). { apply add_resp_ok; [|done]. by rewrite Hr. }
  destruct (cmd =? 17); [|destruct (cmd =? 24); [|done]];
    pose proof (addr_lba_ok cfg cmd arg _ H) as H2; pose proof (resp_addr_lba cfg cmd arg c1) as Hr2;
    destruct (addr_lba cfg cmd arg c1) as [l c2]; cbn [fst snd] in *; rewrite Hr in Hr2.
  - destruct (_ || _); apply add_resp_ok; try done; rewrite Hr2; [done|].
    pose proof (len_get_sector c2 l (ok_sectors _ _ H2)). unfold SECTOR in *. len_solve.
  - destruct H2 as [I1 I2 I3 I4 I5 I6 I7]. split; try assumption; try done. cbn. by rewrite Hr2.
Qed.

Lemma be_combine_4_range l : len l = 4 -> 0 <= be_combine l < 2 ^ 32.
Proof. intros H. unfold be_combine. pose proof (le_combine_range (rev l)) as Hr. unfold len in *. rewrite length_rev, H in Hr. done. Qed.

Lemma receive_ok cfg m c : resp c = [] -> card_ok cfg c -> card_ok cfg (receive cfg m c).
Proof.
  intros Hr H. pose proof H as [I1 I2 I3 I4 I5 I6 I7]. unfold receive. destruct (state c) eqn:Es; try done.
  - destruct (_ =? _); [|done]. split; try assumption; done.
  - cbn [buf set_buf]. pose proof (I1 eq_refl) as Hb. destruct (_ =? 6) eqn:E6.
    + apply command_ok; [| |done|split; try assumption; done].
      * pose proof (Z.land_nonneg (u8 (nth 0 (buf c ++ [m]) x00)) 0x3F).
        rewrite (land_mask _ 6) by done. apply Z.mod_pos_bound. lia.
      * apply be_combine_4_range. rewrite len_slice; lia.
    + split; try assumption; cbn; [|by rewrite Es]. intros _. revert E6 Hb. len_solve.
  - destruct (_ =? _); [|done]. split; try assumption; done.
  - pose proof (I2 eq_refl) as Hb. destruct (_ =? SECTOR + 2) eqn:E.
    + set (c1 := set_state Resync _). assert (H1 : card_ok cfg c1) by (split; try assumption; done).
      destruct (write_reject cfg); (apply add_resp_ok; [cbn; by rewrite Hr|]); [done|].
      destruct H1 as [J1 J2 J3 J4 J5 J6 J7]. split; try assumption. cbn [sectors set_sector set_sectors].
      apply map_Forall_insert_2; [|done]. rewrite len_ljust, len_take. unfold SECTOR. lia.
    + split; try assumption; cbn; [by rewrite Es|]. intros _. cbn [buf set_buf] in E. revert E Hb. len_solve.
Qed.

Lemma exchange_ok cfg m sel c : card_ok cfg c -> card_ok cfg (exchange cfg m sel c).2.
Proof.
  intros H. pose proof (clocked_ok cfg sel _ H) as H1. pose proof (core_clocked cfg sel c) as Hc.
  apply core_inv in Hc as (_ & H2 & _). destruct (resp c) as [|b r] eqn:Er.
  - rewrite exchange_listen by done. cbn [snd].
    assert (card_ok cfg (set_answering false (clocked cfg sel c))) as H3 by (destruct H1; by split).
    destruct sel; cbn [negb]; [|done]. by apply receive_ok.
  - erewrite exchange_answer by done. cbn [snd]. destruct H1 as [I1 I2 I3 I4 I5 I6 I7]. split; try assumption.
    cbn. rewrite H2, len_cons in I4. lia.
Qed.

Lemma card_run_ok cfg ops c : card_ok cfg c -> card_ok cfg (card_run cfg ops c).2.
Proof.
  revert c. induction ops as [|op ops IH]; intros c H; [done|]. cbn [card_run].
  assert (H1 : card_ok cfg (card_step cfg op c).2).
  { destruct op as [b|hz|m b]; cbn [card_step].
    - destruct b; cbn; [done|]. destruct H. split; try assumption; done.
    - destruct H. by split.
    - pose proof (exchange_ok cfg m b c H). by destruct (exchange cfg m b c). }
  destruct (card_step cfg op c) as [o c1]. cbn [snd] in H1. apply IH in H1. by destruct (card_run cfg ops c1).
Qed.

(** Whatever is clocked, the card keeps its bounds: a frame being received has fewer than six
    bytes and a block fewer than 514, every stored sector is 512 bytes, an answer is at most one
    block long, every logged command number has six bits and its argument 32, a card that is not
    strict reports nothing, and a too-fast SCLK is on record only while the card is not ready. *)
Theorem card_invariant cfg ops : card_ok cfg (card_run cfg ops card_init).2.
Proof. apply card_run_ok. by split. Qed.

(** ** The bit-level driver *)

Lemma miso_bits_spec b :
  miso_bits b = map (fun i => Z.testbit (u8 b) i) [7; 6; 5; 4; 3; 2; 1; 0] /\
  fold_left shift_in (map Some (miso_bits b)) 0 = u8 b.
Proof. split; [done|]. by destruct b. Qed.

(** Eight bits on the pins are one byte of the protocol: driving the eight bits of [m] into the
    driver, most significant first, puts on MISO the bits of the byte [exchange] answers, and the
    bits a host reassembles from MISO the same way are that byte again. *)
Theorem spi_byte_exchange cfg m cs_low hz c :
  let '(bits, c1) := spi_byte cfg (map Some (miso_bits m)) cs_low hz c in
  let '(b, c2) := exchange cfg m cs_low (set_sclk_hz hz c) in
  bits = miso_bits b /\ c1 = c2 /\ fold_left shift_in (map Some bits) 0 = u8 b.
Proof.
  unfold spi_byte, exchange. destruct (miso_bits_spec m) as [_ ->]. unfold u8. rewrite byte.of_Z_unsigned.
  unfold begin_byte. cbn [resp set_sclk_hz]. destruct (resp c) as [|b r].
  - split; [done|]. split; [done|]. by destruct (miso_bits_spec xff).
  - split; [done|]. split; [done|]. by destruct (miso_bits_spec b).
Qed.
