(* ===== verification/Rv32Asm.v ===== *)
(** * The RV32 assembler of the test programs

    sim/integration/rv32_asm.py: instruction formats, the two-pass assembler with its labels
    and pseudo-instructions, and its self-test; with the field helpers of the emulator's
    decoder (emu/crates/vux9k_emu/src/soc.rs), against which the formats are proved. *)
From S2P Require Import Prelude.
From stdpp Require Import pretty.
#[local] Open Scope Z_scope.

(** ** Registers and CSRs *)

(** [f"{s}{i}"]. *)
Definition fstr (s : string) (i : Z) : string := (s ++ pretty i)%string.

Definition ABI_NAMES : list string :=
  ["zero"; "ra"; "sp"; "gp"; "tp"; "t0"; "t1"; "t2"; "s0"; "s1"; "a0"; "a1"; "a2"; "a3"; "a4"; "a5"; "a6"; "a7";
   "s2"; "s3"; "s4"; "s5"; "s6"; "s7"; "s8"; "s9"; "s10"; "s11"; "t3"; "t4"; "t5"; "t6"].

(** [REGS]: the numeric names, then the ABI's, then "fp". *)
Definition REG_TABLE : list (string * Z) :=
  ("fp"%string, 8) :: map (fun '(i, n) => (n, Z.of_nat i)) (imap pair ABI_NAMES)
    ++ map (fun i => (fstr "x" (Z.of_nat i), Z.of_nat i)) (seq 0 32).
Definition REGS : gmap string Z := list_to_map REG_TABLE.

Definition CSR_TABLE : list (string * Z) := [
  ("mstatus", 0x300); ("mie", 0x304); ("mtvec", 0x305); ("misa", 0x301); ("mscratch", 0x340); ("mepc", 0x341);
  ("mcause", 0x342); ("mtval", 0x343); ("mip", 0x344); ("mcycle", 0xB00); ("minstret", 0xB02);
  ("mcycleh", 0xB80); ("minstreth", 0xB82); ("cycle", 0xC00); ("time", 0xC01); ("instret", 0xC02);
  ("cycleh", 0xC80); ("timeh", 0xC81); ("instreth", 0xC82)]%string.
Definition CSRS : gmap string Z := list_to_map CSR_TABLE.

(** [_r]. *)
Definition reg (name : string) : res Z := getitem (REGS !! name).

Definition signed_fits (value bits : Z) : bool :=
  (- Z.shiftl 1 (bits - 1) <=? value) && (value <? Z.shiftl 1 (bits - 1)).

(** ** Formats *)

(** [a | b | ...]. *)
Definition lor_all (l : list Z) : Z := match l with [] => 0 | x :: l => fold_left Z.lor l x end.

Definition r_type (funct7 : Z) (rs2 rs1 : string) (funct3 : Z) (rd : string) (opcode : Z) : res Z :=
  r2 ← reg rs2; r1 ← reg rs1; d ← reg rd;
  Ok (lor_all [Z.shiftl funct7 25; Z.shiftl r2 20; Z.shiftl r1 15; Z.shiftl funct3 12; Z.shiftl d 7; opcode]).

Definition i_type (imm : Z) (rs1 : string) (funct3 : Z) (rd : string) (opcode : Z) : res Z :=
  py_assert (signed_fits imm 12);;
  r1 ← reg rs1; d ← reg rd;
  Ok (lor_all [Z.shiftl (Z.land imm 0xFFF) 20; Z.shiftl r1 15; Z.shiftl funct3 12; Z.shiftl d 7; opcode]).

Definition s_type (imm : Z) (rs2 rs1 : string) (funct3 : Z) : res Z :=
  py_assert (signed_fits imm 12);;
  let imm := Z.land imm 0xFFF in
  r2 ← reg rs2; r1 ← reg rs1;
  Ok (lor_all [Z.shiftl (Z.shiftr imm 5) 25; Z.shiftl r2 20; Z.shiftl r1 15; Z.shiftl funct3 12;
               Z.shiftl (Z.land imm 0x1F) 7; 0x23]).

Definition b_type (offset : Z) (rs2 rs1 : string) (funct3 : Z) : res Z :=
  py_assert ((offset mod 2 =? 0) && signed_fits offset 13);;
  let o := Z.land offset 0x1FFF in
  r2 ← reg rs2; r1 ← reg rs1;
  Ok (lor_all [Z.shiftl (Z.land (Z.shiftr o 12) 1) 31; Z.shiftl (Z.land (Z.shiftr o 5) 0x3F) 25; Z.shiftl r2 20;
               Z.shiftl r1 15; Z.shiftl funct3 12; Z.shiftl (Z.land (Z.shiftr o 1) 0xF) 8;
               Z.shiftl (Z.land (Z.shiftr o 11) 1) 7; 0x63]).

Definition u_type (imm20 : Z) (rd : string) (opcode : Z) : res Z :=
  d ← reg rd; Ok (lor_all [Z.shiftl (Z.land imm20 0xFFFFF) 12; Z.shiftl d 7; opcode]).

Definition j_type (offset : Z) (rd : string) : res Z :=
  py_assert ((offset mod 2 =? 0) && signed_fits offset 21);;
  let o := Z.land offset 0x1FFFFF in
  d ← reg rd;
  Ok (lor_all [Z.shiftl (Z.land (Z.shiftr o 20) 1) 31; Z.shiftl (Z.land (Z.shiftr o 1) 0x3FF) 21;
               Z.shiftl (Z.land (Z.shiftr o 11) 1) 20; Z.shiftl (Z.land (Z.shiftr o 12) 0xFF) 12;
               Z.shiftl d 7; 0x6F]).

Definition lo12 (value : Z) : Z :=
  let lo := Z.land value 0xFFF in if negb (Z.land lo 0x800 =? 0) then lo - 0x1000 else lo.
Definition hi20 (value : Z) : Z := Z.land (Z.shiftr (value - lo12 value) 12) 0xFFFFF.

(** ** The assembler *)

(** An item: a word, or a function of its address and the labels, called by [assemble]. *)
Inductive item : Type :=
| Word (w : Z)
| Late (f : Z -> gmap string Z -> res Z).

Record Asm := mkAsm { origin : Z; items : list item; labels : gmap string Z }.

(** [Asm(origin)]. *)
Definition new_asm (origin : Z) : Asm := mkAsm origin [] ∅.

(** Calls on an assembler: state passing, with exceptions. *)
Definition asm (A : Type) : Type := Asm -> res (A * Asm).
#[export] Instance asm_ret : MRet asm := fun _ v a => Ok (v, a).
#[export] Instance asm_bind : MBind asm := fun _ _ f m a =>
  match m a with Ok (v, a) => f v a | Raise e => Raise e end.

(** A computation that doesn't touch the assembler. *)
Definition lift {A} (m : res A) : asm A := fun a => match m with Ok v => Ok (v, a) | Raise e => Raise e end.

(** [pc]. *)
Definition here (a : Asm) : Z := origin a + 4 * len (items a).

Definition emit (i : item) : asm unit := fun a => Ok (tt, mkAsm (origin a) (items a ++ [i]) (labels a)).
Definition emit_word (m : res Z) : asm unit := w ← lift m; emit (Word w).

Definition label (name : string) : asm unit := fun a =>
  if bool_decide (labels a !! name = None)
  then Ok (tt, mkAsm (origin a) (items a) (<[name := here a]> (labels a))) else Raise AssertionError.

Definition word (value : Z) : asm unit := emit (Word (Z.land value 0xFFFFFFFF)).

Definition assemble_item (pc : Z) (ls : gmap string Z) (i : item) : res Z :=
  match i with Word w => Ok w | Late f => f pc ls end.

(** [assemble]'s loop, from [pc] on. *)
Fixpoint assemble_items (pc : Z) (ls : gmap string Z) (l : list item) : res (list Z) :=
  match l with
  | [] => Ok []
  | i :: l => w ← assemble_item pc ls i; ws ← assemble_items (pc + 4) ls l; Ok (w :: ws)
  end.

Definition assemble (a : Asm) : res (list Z) := assemble_items (origin a) (labels a) (items a).

(** An assembler made and used. *)
Definition build (origin : Z) (code : asm unit) : res Asm := snd <$> code (new_asm origin).

(** Base integer instructions. *)
Definition lui rd imm20 : asm unit := emit_word (u_type imm20 rd 0x37).
Definition auipc rd imm20 : asm unit := emit_word (u_type imm20 rd 0x17).
Definition addi rd rs1 imm : asm unit := emit_word (i_type imm rs1 0 rd 0x13).
Definition andi rd rs1 imm : asm unit := emit_word (i_type imm rs1 7 rd 0x13).
Definition ori rd rs1 imm : asm unit := emit_word (i_type imm rs1 6 rd 0x13).
Definition slli rd rs1 shamt : asm unit := emit_word (i_type shamt rs1 1 rd 0x13).
Definition add rd rs1 rs2 : asm unit := emit_word (r_type 0 rs2 rs1 0 rd 0x33).
Definition sub rd rs1 rs2 : asm unit := emit_word (r_type 0x20 rs2 rs1 0 rd 0x33).

Definition MUL_OPS : list string := ["mul"; "mulh"; "mulhsu"; "mulhu"; "div"; "divu"; "rem"; "remu"].
(** [MUL_OPS.index(name)]: a [ValueError] when it isn't there. *)
Definition mul_index (name : string) : res Z :=
  match list_find (fun n => n = name) MUL_OPS with
  | Some (i, _) => Ok (Z.of_nat i) | None => Raise (ValueError "tuple.index(x): x not in tuple") end.
Definition muldiv name rd rs1 rs2 : asm unit := emit_word (f3 ← mul_index name; r_type 1 rs2 rs1 f3 rd 0x33).

Definition lw rd imm rs1 : asm unit := emit_word (i_type imm rs1 2 rd 0x03).
Definition lb rd imm rs1 : asm unit := emit_word (i_type imm rs1 0 rd 0x03).
Definition lbu rd imm rs1 : asm unit := emit_word (i_type imm rs1 4 rd 0x03).
Definition lh rd imm rs1 : asm unit := emit_word (i_type imm rs1 1 rd 0x03).
Definition sw rs2 imm rs1 : asm unit := emit_word (s_type imm rs2 rs1 2).
Definition sh rs2 imm rs1 : asm unit := emit_word (s_type imm rs2 rs1 1).
Definition sb rs2 imm rs1 : asm unit := emit_word (s_type imm rs2 rs1 0).

Definition branch funct3 rs1 rs2 target : asm unit :=
  emit (Late (fun pc labels => t ← getitem (labels !! target); b_type (t - pc) rs2 rs1 funct3)).
Definition beq rs1 rs2 target : asm unit := branch 0 rs1 rs2 target.
Definition bne rs1 rs2 target : asm unit := branch 1 rs1 rs2 target.
Definition bltu rs1 rs2 target : asm unit := branch 6 rs1 rs2 target.
Definition bgeu rs1 rs2 target : asm unit := branch 7 rs1 rs2 target.
Definition jal rd target : asm unit :=
  emit (Late (fun pc labels => t ← getitem (labels !! target); j_type (t - pc) rd)).
Definition jalr rd rs1 imm : asm unit := emit_word (i_type imm rs1 0 rd 0x67).

(** Zicsr and privileged instructions. *)
Definition csr_word (rs1 : string) (funct3 : Z) (rd csr : string) : res Z :=
  w ← i_type 0 rs1 funct3 rd 0x73; c ← getitem (CSRS !! csr); Ok (Z.lor w (Z.shiftl c 20)).
Definition csrrw rd csr rs1 : asm unit := emit_word (csr_word rs1 1 rd csr).
Definition csrrs rd csr rs1 : asm unit := emit_word (csr_word rs1 2 rd csr).
Definition mret_ : asm unit := emit (Word 0x30200073).
Definition amo funct5 rd rs2 rs1 : asm unit := emit_word (r_type (Z.shiftl funct5 2) rs2 rs1 2 rd 0x2F).
Definition wfi : asm unit := emit (Word 0x10500073).
Definition ecall : asm unit := emit (Word 0x00000073).
Definition ebreak : asm unit := emit (Word 0x00100073).

(** Nothing emitted. *)
Definition nothing : asm unit := fun a => Ok (tt, a).

(** Pseudo-instructions. *)
Definition li rd value : asm unit :=
  let value := Z.land value 0xFFFFFFFF in
  let signed := if negb (Z.land value 0x80000000 =? 0) then value - Z.shiftl 1 32 else value in
  if signed_fits signed 12 then addi rd "zero"%string signed
  else
    let lo := Z.land value 0xFFF in
    let lo := if negb (Z.land lo 0x800 =? 0) then lo - 0x1000 else lo in
    lui rd (Z.land (Z.shiftr (value - lo) 12) 0xFFFFF);;
    if negb (lo =? 0) then addi rd rd lo else nothing.

(** [la]: a label's absolute address. *)
Definition la rd target : asm unit :=
  emit (Late (fun _ labels => t ← getitem (labels !! target); u_type (hi20 t) rd 0x37));;
  emit (Late (fun _ labels => t ← getitem (labels !! target); i_type (lo12 t) rd 0 rd 0x13)).

Definition mv rd rs : asm unit := addi rd rs 0.
Definition nop : asm unit := addi "zero"%string "zero"%string 0.
Definition j target : asm unit := jal "zero"%string target.
Definition call target : asm unit := jal "ra"%string target.
Definition ret : asm unit := jalr "zero"%string "ra"%string 0.
Definition beqz rs target : asm unit := beq rs "zero"%string target.
Definition bnez rs target : asm unit := bne rs "zero"%string target.
Definition csrw csr rs : asm unit := csrrw "zero"%string csr rs.
Definition csrr rd csr : asm unit := csrrs rd csr "zero"%string.
Definition csrs csr rs : asm unit := csrrs "zero"%string csr rs.
Definition csrc csr rs : asm unit := emit_word (csr_word rs 3 "zero"%string csr).

(** ** The self-test *)

(** [assert got == want], for a value that may raise. *)
Definition assert_eq (got : res Z) (want : Z) : res unit := g ← got; py_assert (g =? want).

Definition selftest_checks : list (res Z * Z) := [
  (s_type (-4) "t0" "s2" 2, 0xFE592E23);
  (i_type 8 "s4" 2 "t3" 0x03, 0x008A2E03);
  (i_type 1 "s2" 0 "t3" 0x03, 0x00190E03);
  (b_type 64 "t2" "t3" 1, 0x047E1063);
  (b_type (-8) "t1" "t0" 0, 0xFE628CE3);
  (j_type 2048 "ra", 0x001000EF);
  (w ← i_type 0 "t0" 1 "zero" 0x73; Ok (Z.lor w (Z.shiftl 0x305 20)), 0x30529073);
  (w ← i_type 0 "zero" 2 "t0" 0x73; Ok (Z.lor w (Z.shiftl 0x342 20)), 0x342022F3);
  (r_type 0x20 "t2" "t1" 0 "t0" 0x33, 0x407302B3);
  (f3 ← mul_index "mulhsu"; r_type 1 "a1" "a0" f3 "a2" 0x33, 0x02B52633);
  (f3 ← mul_index "remu"; r_type 1 "t2" "t1" f3 "t0" 0x33, 0x027372B3)]%string.

Definition selftest : res unit :=
  a ← build 0 (
    label "top";;
    lui "a1" 0x40000;;
    addi "a0" "zero" 0x23;;
    sb "a0" 0 "a1";;
    jal "zero" "top0";;
    label "top0");
  words ← assemble a;
  w3 ← j_type 0 "zero";
  let words := <[3%nat := w3]> words in
  py_assert (bool_decide (words = [0x400005B7; 0x02300513; 0x00A58023; 0x0000006F]));;
  foldr (fun c rest => assert_eq c.1 c.2;; rest) (Ok tt) selftest_checks.

(** ** The emulator's field helpers *)
Module Field.

(** [i as i32 >> n]. *)
Definition i32 (i : Z) : Z := if i <? 2 ^ 31 then i else i - 2 ^ 32.
Definition u32 (i : Z) : Z := i mod 2 ^ 32.

Definition rd (i : Z) : Z := Z.land (Z.shiftr i 7) 31.
Definition rs1 (i : Z) : Z := Z.land (Z.shiftr i 15) 31.
Definition rs2 (i : Z) : Z := Z.land (Z.shiftr i 20) 31.
Definition funct3 (i : Z) : Z := Z.land (Z.shiftr i 12) 7.
Definition funct7 (i : Z) : Z := Z.shiftr i 25.
Definition imm_i (i : Z) : Z := u32 (Z.shiftr (i32 i) 20).
Definition imm_s (i : Z) : Z := Z.lor (u32 (Z.shiftl (Z.shiftr (i32 i) 25) 5)) (Z.land (Z.shiftr i 7) 0x1F).
Definition imm_b (i : Z) : Z :=
  lor_all [u32 (Z.shiftl (Z.shiftr (i32 i) 31) 12); Z.land (u32 (Z.shiftl i 4)) 0x800;
           Z.land (Z.shiftr i 20) 0x7E0; Z.land (Z.shiftr i 7) 0x1E].
Definition imm_u (i : Z) : Z := Z.land i 0xFFFFF000.
Definition imm_j (i : Z) : Z :=
  lor_all [u32 (Z.shiftl (Z.shiftr (i32 i) 31) 20); Z.land i 0xFF000; Z.land (Z.shiftr i 9) 0x800;
           Z.land (Z.shiftr i 20) 0x7FE].

End Field.

(** The assembler's own check of its encodings against GNU as passes. *)
Theorem selftest_passes : selftest = Ok tt.
Proof. vm_compute. reflexivity. Qed.

(** ** Every format decodes to what was given *)

Lemma reg_range name r : reg name = Ok r -> 0 <= r < 32.
Proof.
  unfold reg. rewrite getitem_Ok. revert name r.
  change (map_Forall (fun (_ : string) r => 0 <= r < 32) REGS). apply (bool_decide_unpack _). vm_compute. exact I.
Qed.

Lemma lor_field acc v k n :
  0 <= k -> 0 <= n -> acc mod 2 ^ (k + n) = 0 -> 0 <= v < 2 ^ n -> Z.lor acc (Z.shiftl v k) = acc + v * 2 ^ k.
Proof.
  intros Hk Hn Hacc Hv. rewrite shiftl_mul by lia. apply (lor_add _ _ (k + n)); [lia|done|].
  rewrite Z.pow_add_r by lia. nia.
Qed.

(** [lor_field]'s side conditions, at constant positions. *)
Ltac field_lia :=
  repeat match goal with |- context [2 ^ (?a + ?b)] => let c := eval vm_compute in (a + b) in change (a + b) with c end;
  dlia.

(** The words, as the sums of their fields. *)
Lemma i_word imm r1 f3 d op :
  0 <= imm < 2 ^ 12 -> 0 <= r1 < 2 ^ 5 -> 0 <= f3 < 2 ^ 3 -> 0 <= d < 2 ^ 5 -> 0 <= op < 2 ^ 7 ->
  lor_all [Z.shiftl imm 20; Z.shiftl r1 15; Z.shiftl f3 12; Z.shiftl d 7; op] =
    imm * 2 ^ 20 + r1 * 2 ^ 15 + f3 * 2 ^ 12 + d * 2 ^ 7 + op.
Proof.
  intros. unfold lor_all. cbn [fold_left]. rewrite (shiftl_mul imm) by lia.
  rewrite (lor_field _ r1 15 5) by field_lia. rewrite (lor_field _ f3 12 3) by field_lia. rewrite (lor_field _ d 7 5) by field_lia.
  rewrite (lor_add _ op 7) by dlia. lia.
Qed.

Lemma r_word f7 r2 r1 f3 d op :
  0 <= f7 < 2 ^ 7 -> 0 <= r2 < 2 ^ 5 -> 0 <= r1 < 2 ^ 5 -> 0 <= f3 < 2 ^ 3 -> 0 <= d < 2 ^ 5 -> 0 <= op < 2 ^ 7 ->
  lor_all [Z.shiftl f7 25; Z.shiftl r2 20; Z.shiftl r1 15; Z.shiftl f3 12; Z.shiftl d 7; op] =
    f7 * 2 ^ 25 + r2 * 2 ^ 20 + r1 * 2 ^ 15 + f3 * 2 ^ 12 + d * 2 ^ 7 + op.
Proof.
  intros. unfold lor_all. cbn [fold_left]. rewrite (shiftl_mul f7) by lia.
  rewrite (lor_field _ r2 20 5) by field_lia. rewrite (lor_field _ r1 15 5) by field_lia.
  rewrite (lor_field _ f3 12 3) by field_lia. rewrite (lor_field _ d 7 5) by field_lia.
  rewrite (lor_add _ op 7) by dlia. lia.
Qed.

Lemma u_word imm d op :
  0 <= imm < 2 ^ 20 -> 0 <= d < 2 ^ 5 -> 0 <= op < 2 ^ 7 ->
  lor_all [Z.shiftl imm 12; Z.shiftl d 7; op] = imm * 2 ^ 12 + d * 2 ^ 7 + op.
Proof.
  intros. unfold lor_all. cbn [fold_left]. rewrite (shiftl_mul imm) by lia.
  rewrite (lor_field _ d 7 5) by field_lia. rewrite (lor_add _ op 7) by dlia. lia.
Qed.

Lemma b_word b12 b10 r2 r1 f3 b4 b11 :
  0 <= b12 < 2 ^ 1 -> 0 <= b10 < 2 ^ 6 -> 0 <= r2 < 2 ^ 5 -> 0 <= r1 < 2 ^ 5 -> 0 <= f3 < 2 ^ 3 ->
  0 <= b4 < 2 ^ 4 -> 0 <= b11 < 2 ^ 1 ->
  lor_all [Z.shiftl b12 31; Z.shiftl b10 25; Z.shiftl r2 20; Z.shiftl r1 15; Z.shiftl f3 12; Z.shiftl b4 8;
           Z.shiftl b11 7; 0x63] =
    b12 * 2 ^ 31 + b10 * 2 ^ 25 + r2 * 2 ^ 20 + r1 * 2 ^ 15 + f3 * 2 ^ 12 + b4 * 2 ^ 8 + b11 * 2 ^ 7 + 0x63.
Proof.
  intros. unfold lor_all. cbn [fold_left]. rewrite (shiftl_mul b12) by lia.
  rewrite (lor_field _ b10 25 6) by field_lia. rewrite (lor_field _ r2 20 5) by field_lia.
  rewrite (lor_field _ r1 15 5) by field_lia. rewrite (lor_field _ f3 12 3) by field_lia.
  rewrite (lor_field _ b4 8 4) by field_lia. rewrite (lor_field _ b11 7 1) by field_lia.
  rewrite (lor_add _ 0x63 7) by dlia. lia.
Qed.

Lemma j_word b20 b10 b11 b19 d :
  0 <= b20 < 2 ^ 1 -> 0 <= b10 < 2 ^ 10 -> 0 <= b11 < 2 ^ 1 -> 0 <= b19 < 2 ^ 8 -> 0 <= d < 2 ^ 5 ->
  lor_all [Z.shiftl b20 31; Z.shiftl b10 21; Z.shiftl b11 20; Z.shiftl b19 12; Z.shiftl d 7; 0x6F] =
    b20 * 2 ^ 31 + b10 * 2 ^ 21 + b11 * 2 ^ 20 + b19 * 2 ^ 12 + d * 2 ^ 7 + 0x6F.
Proof.
  intros. unfold lor_all. cbn [fold_left]. rewrite (shiftl_mul b20) by lia.
  rewrite (lor_field _ b10 21 10) by field_lia. rewrite (lor_field _ b11 20 1) by field_lia.
  rewrite (lor_field _ b19 12 8) by field_lia. rewrite (lor_field _ d 7 5) by field_lia.
  rewrite (lor_add _ 0x6F 7) by dlia. lia.
Qed.

(** A word's fields, in arithmetic. *)
Lemma field_arith w :
  Field.rd w = w / 2 ^ 7 mod 2 ^ 5 /\ Field.rs1 w = w / 2 ^ 15 mod 2 ^ 5 /\ Field.rs2 w = w / 2 ^ 20 mod 2 ^ 5 /\
  Field.funct3 w = w / 2 ^ 12 mod 2 ^ 3 /\ Field.funct7 w = w / 2 ^ 25 /\ Z.land w 0x7F = w mod 2 ^ 7.
Proof.
  unfold Field.rd, Field.rs1, Field.rs2, Field.funct3, Field.funct7. rewrite !shiftr_div by lia.
  rewrite !(land_mask _ 5) by lia. rewrite (land_mask _ 3) by lia. rewrite (land_mask _ 7) by lia. done.
Qed.

Lemma land_masked a m k n : 0 <= k -> 0 <= n -> m = (2 ^ n - 1) * 2 ^ k -> Z.land a m = a / 2 ^ k mod 2 ^ n * 2 ^ k.
Proof.
  intros Hk Hn ->. rewrite <- (shiftl_mul (2 ^ n - 1)), <- (shiftl_mul (a / 2 ^ k mod 2 ^ n)) by done.
  rewrite <- (shiftr_div a) by done. rewrite <- (land_mask _ n (2 ^ n - 1)) by done.
  rewrite Z.shiftl_land, <- Z.ldiff_ones_r by done. apply Z.bits_inj'. intros i Hi.
  rewrite !Z.land_spec, Z.ldiff_spec, Z.testbit_ones_nonneg by lia.
  destruct (Z.ltb_spec i k); cbn [negb]; rewrite ?andb_true_r, ?andb_false_r; [|done].
  by rewrite (Z.shiftl_spec_low _ _ i), andb_false_r by done.
Qed.

Lemma imm_arith w :
  0 <= w < 2 ^ 32 ->
  let s := if w <? 2 ^ 31 then w else w - 2 ^ 32 in
  Field.imm_i w = s / 2 ^ 20 mod 2 ^ 32 /\
  Field.imm_s w = s / 2 ^ 25 * 2 ^ 5 mod 2 ^ 32 + w / 2 ^ 7 mod 2 ^ 5 /\
  Field.imm_u w = w / 2 ^ 12 * 2 ^ 12 /\
  Field.imm_b w = s / 2 ^ 31 * 2 ^ 12 mod 2 ^ 32 + w / 2 ^ 7 mod 2 * 2 ^ 11 + w / 2 ^ 25 mod 2 ^ 6 * 2 ^ 5
    + w / 2 ^ 8 mod 2 ^ 4 * 2 /\
  Field.imm_j w = s / 2 ^ 31 * 2 ^ 20 mod 2 ^ 32 + w / 2 ^ 12 mod 2 ^ 8 * 2 ^ 12 + w / 2 ^ 20 mod 2 * 2 ^ 11
    + w / 2 ^ 21 mod 2 ^ 10 * 2.
Proof.
  intros Hw. unfold Field.imm_i, Field.imm_s, Field.imm_u, Field.imm_b, Field.imm_j, Field.i32, Field.u32.
  set (s := if w <? 2 ^ 31 then w else w - 2 ^ 32). rewrite !shiftr_div, !shiftl_mul by lia.
  assert (Hs : - 2 ^ 31 <= s < 2 ^ 31) by (unfold s; destruct (Z.ltb_spec w (2 ^ 31)); lia). clearbody s.
  split; [done|]. split.
  { rewrite (land_mask _ 5) by lia. rewrite (lor_add _ _ 5) by dlia. done. }
  split; [rewrite (land_masked _ _ 12 20) by lia; dlia|].
  unfold lor_all. cbn [fold_left]. split.
  - rewrite (land_masked (w * 2 ^ 4 mod 2 ^ 32) _ 11 1), (land_masked _ 0x7E0 5 6), (land_masked _ 0x1E 1 4) by lia.
    rewrite (lor_add _ (_ * 2 ^ 11) 12) by dlia. rewrite (lor_add _ (_ * 2 ^ 5) 11) by dlia. rewrite (lor_add _ (_ * 2 ^ 1) 5) by dlia.
    dlia.
  - rewrite (land_masked w _ 12 8), (land_masked _ 0x800 11 1), (land_masked _ 0x7FE 1 10) by lia.
    rewrite (lor_add _ (_ * 2 ^ 12) 20) by dlia. rewrite (lor_add _ (_ * 2 ^ 11) 12) by dlia. rewrite (lor_add _ (_ * 2 ^ 1) 11) by dlia.
    dlia.
Qed.

(** A call of one of the formats. *)
Inductive format : Type :=
| FR (funct7 : Z) (rs2 rs1 : string) (funct3 : Z) (rd : string) (opcode : Z)
| FI (imm : Z) (rs1 : string) (funct3 : Z) (rd : string) (opcode : Z)
| FS (imm : Z) (rs2 rs1 : string) (funct3 : Z)
| FB (offset : Z) (rs2 rs1 : string) (funct3 : Z)
| FU (imm20 : Z) (rd : string) (opcode : Z)
| FJ (offset : Z) (rd : string).

Definition encode (f : format) : res Z :=
  match f with
  | FR funct7 rs2 rs1 funct3 rd opcode => r_type funct7 rs2 rs1 funct3 rd opcode
  | FI imm rs1 funct3 rd opcode => i_type imm rs1 funct3 rd opcode
  | FS imm rs2 rs1 funct3 => s_type imm rs2 rs1 funct3
  | FB offset rs2 rs1 funct3 => b_type offset rs2 rs1 funct3
  | FU imm20 rd opcode => u_type imm20 rd opcode
  | FJ offset rd => j_type offset rd
  end.

(** The functs and opcodes given fit their fields (the formats don't check them). *)
Definition fields_fit (f : format) : bool :=
  let fits v n := (0 <=? v) && (v <? 2 ^ n) in
  match f with
  | FR funct7 _ _ funct3 _ opcode => fits funct7 7 && fits funct3 3 && fits opcode 7
  | FI _ _ funct3 _ opcode => fits funct3 3 && fits opcode 7
  | FS _ _ _ funct3 | FB _ _ _ funct3 => fits funct3 3
  | FU _ _ opcode => fits opcode 7
  | FJ _ _ => true
  end.

(** What the emulator's helpers take out of a word: the fields given. *)
Definition decodes (f : format) (w : Z) : Prop :=
  0 <= w < 2 ^ 32 /\
  match f with
  | FR funct7 rs2 rs1 funct3 rd opcode =>
      Z.land w 0x7F = opcode /\ Field.funct7 w = funct7 /\ reg rs2 = Ok (Field.rs2 w) /\
      reg rs1 = Ok (Field.rs1 w) /\ Field.funct3 w = funct3 /\ reg rd = Ok (Field.rd w)
  | FI imm rs1 funct3 rd opcode =>
      Z.land w 0x7F = opcode /\ Field.imm_i w = Field.u32 imm /\ reg rs1 = Ok (Field.rs1 w) /\
      Field.funct3 w = funct3 /\ reg rd = Ok (Field.rd w)
  | FS imm rs2 rs1 funct3 =>
      Z.land w 0x7F = 0x23 /\ Field.imm_s w = Field.u32 imm /\ reg rs2 = Ok (Field.rs2 w) /\
      reg rs1 = Ok (Field.rs1 w) /\ Field.funct3 w = funct3
  | FB offset rs2 rs1 funct3 =>
      Z.land w 0x7F = 0x63 /\ Field.imm_b w = Field.u32 offset /\ reg rs2 = Ok (Field.rs2 w) /\
      reg rs1 = Ok (Field.rs1 w) /\ Field.funct3 w = funct3
  | FU imm20 rd opcode =>
      Z.land w 0x7F = opcode /\ Field.imm_u w = Field.u32 (imm20 * 2 ^ 12) /\ reg rd = Ok (Field.rd w)
  | FJ offset rd => Z.land w 0x7F = 0x6F /\ Field.imm_j w = Field.u32 offset /\ reg rd = Ok (Field.rd w)
  end.

Lemma signed_fits_range v n : signed_fits v n = true -> 1 <= n -> - 2 ^ (n - 1) <= v < 2 ^ (n - 1).
Proof. unfold signed_fits. intros H Hn. rewrite shiftl_mul, andb_true_iff, Z.leb_le, Z.ltb_lt in H by lia. lia. Qed.

(** Takes apart a format that succeeded. *)
Ltac invert_format :=
  repeat match goal with
  | H : _ ≫= _ = Ok _ |- _ => let a := fresh "a" in let Ha := fresh "Ha" in apply bind_Ok in H as (a & Ha & H)
  | H : py_assert _ = Ok _ |- _ => apply py_assert_Ok in H
  | H : reg _ = Ok ?r |- _ => lazymatch goal with
      | _ : 0 <= r < 32 |- _ => fail | _ => pose proof (reg_range _ _ H) end
  | H : _ && _ = true |- _ => apply andb_true_iff in H as [? ?]
  | H : signed_fits _ _ = true |- _ => apply signed_fits_range in H; [|lia]
  | H : Ok _ = Ok _ |- _ => apply Ok_inj in H; subst
  end.

(** A word given as the sum of its fields has those fields. *)
Ltac solve_fields w Hw :=
  let E1 := fresh "E" in let E2 := fresh "E" in let E3 := fresh "E" in let E4 := fresh "E" in let E5 := fresh "E" in
  let E6 := fresh "E" in let F1 := fresh "F" in let F2 := fresh "F" in let F3 := fresh "F" in let F4 := fresh "F" in
  let F5 := fresh "F" in
  destruct (field_arith w) as (E1 & E2 & E3 & E4 & E5 & E6);
  destruct (imm_arith w Hw) as (F1 & F2 & F3 & F4 & F5);
  repeat match goal with H : reg ?n = Ok _ |- context [reg ?n] => rewrite H end;
  unfold Field.u32; rewrite ?E1, ?E2, ?E3, ?E4, ?E5, ?E6, ?F1, ?F2, ?F3, ?F4, ?F5;
  clear E1 E2 E3 E4 E5 E6 F1 F2 F3 F4 F5;
  repeat match goal with H : reg _ = Ok _ |- _ => clear H end;
  (split; [exact Hw|]); split_and?; subst w;
  try match goal with |- context [if ?a <? ?b then _ else _] => destruct (Z.ltb_spec a b) end;
  first [dlia | f_equal; dlia].

Lemma r_decodes f7 rs2 rs1 f3 rd op w :
  fields_fit (FR f7 rs2 rs1 f3 rd op) = true -> r_type f7 rs2 rs1 f3 rd op = Ok w -> decodes (FR f7 rs2 rs1 f3 rd op) w.
Proof.
  intros Hf H. unfold r_type in H. cbn [fields_fit] in Hf. invert_format. rewrite r_word by lia.
  unfold decodes. set (w := _ + op). assert (Hw : 0 <= w < 2 ^ 32) by (unfold w; lia). solve_fields w Hw.
Qed.

Lemma i_decodes imm rs1 f3 rd op w :
  fields_fit (FI imm rs1 f3 rd op) = true -> i_type imm rs1 f3 rd op = Ok w -> decodes (FI imm rs1 f3 rd op) w.
Proof.
  intros Hf H. unfold i_type in H. cbn [fields_fit] in Hf. invert_format.
  rewrite (land_mask imm 12) by lia. rewrite i_word by dlia.
  unfold decodes. set (w := _ + op). assert (Hw : 0 <= w < 2 ^ 32) by (unfold w; dlia). solve_fields w Hw.
Qed.

Lemma s_decodes imm rs2 rs1 f3 w :
  fields_fit (FS imm rs2 rs1 f3) = true -> s_type imm rs2 rs1 f3 = Ok w -> decodes (FS imm rs2 rs1 f3) w.
Proof.
  intros Hf H. unfold s_type in H. cbn [fields_fit] in Hf. invert_format.
  rewrite (land_mask imm 12), (land_mask _ 5), shiftr_div by lia. rewrite r_word by dlia.
  unfold decodes. set (w := _ + 0x23). assert (Hw : 0 <= w < 2 ^ 32) by (unfold w; dlia). solve_fields w Hw.
Qed.

Lemma u_decodes imm20 rd op w :
  fields_fit (FU imm20 rd op) = true -> u_type imm20 rd op = Ok w -> decodes (FU imm20 rd op) w.
Proof.
  intros Hf H. unfold u_type in H. cbn [fields_fit] in Hf. invert_format.
  rewrite (land_mask imm20 20) by lia. rewrite u_word by dlia.
  unfold decodes. set (w := _ + op). assert (Hw : 0 <= w < 2 ^ 32) by (unfold w; dlia). solve_fields w Hw.
Qed.

(** A branch's and a jump's offset in the pieces the formats scatter. *)
Lemma b_pieces offset :
  offset mod 2 = 0 -> - 2 ^ 12 <= offset < 2 ^ 12 ->
  let o := offset mod 2 ^ 13 in
  exists s h m l, o / 2 ^ 12 mod 2 ^ 1 = s /\ o / 2 ^ 5 mod 2 ^ 6 = h /\ o / 2 ^ 1 mod 2 ^ 4 = l /\
    o / 2 ^ 11 mod 2 ^ 1 = m /\ 0 <= s < 2 /\ 0 <= h < 2 ^ 6 /\ 0 <= l < 2 ^ 4 /\ 0 <= m < 2 /\
    offset = - s * 2 ^ 12 + m * 2 ^ 11 + h * 2 ^ 5 + l * 2.
Proof. intros H1 H2 o. do 4 eexists. split_and!; try reflexivity; unfold o; dlia. Qed.

Lemma j_pieces offset :
  offset mod 2 = 0 -> - 2 ^ 20 <= offset < 2 ^ 20 ->
  let o := offset mod 2 ^ 21 in
  exists s h m l, o / 2 ^ 20 mod 2 ^ 1 = s /\ o / 2 ^ 12 mod 2 ^ 8 = h /\ o / 2 ^ 1 mod 2 ^ 10 = l /\
    o / 2 ^ 11 mod 2 ^ 1 = m /\ 0 <= s < 2 /\ 0 <= h < 2 ^ 8 /\ 0 <= l < 2 ^ 10 /\ 0 <= m < 2 /\
    offset = - s * 2 ^ 20 + h * 2 ^ 12 + m * 2 ^ 11 + l * 2.
Proof. intros H1 H2 o. do 4 eexists. split_and!; try reflexivity; unfold o; dlia. Qed.

Lemma b_decodes offset rs2 rs1 f3 w :
  fields_fit (FB offset rs2 rs1 f3) = true -> b_type offset rs2 rs1 f3 = Ok w -> decodes (FB offset rs2 rs1 f3) w.
Proof.
  intros Hf H. unfold b_type in H. cbn [fields_fit] in Hf. invert_format.
  rewrite (land_mask offset 13), !(land_mask _ 1 1), (land_mask _ 6 0x3F), (land_mask _ 4 0xF), !shiftr_div by lia.
  destruct (b_pieces offset) as (s & h & m & l & -> & -> & -> & -> & Hs & Hh & Hl & Hm & ->); [lia..|].
  repeat match goal with H : _ <= _ + _ < _ |- _ => clear H | H : (_ mod _ =? _) = _ |- _ => clear H end.
  rewrite b_word by lia. assert (s = 0 \/ s = 1) as [-> | ->] by lia; clear Hs;
  unfold decodes; set (w := _ + 0x63); (assert (Hw : 0 <= w < 2 ^ 32) by (unfold w; lia)); solve_fields w Hw.
Qed.

Lemma j_decodes offset rd w : j_type offset rd = Ok w -> decodes (FJ offset rd) w.
Proof.
  intros H. unfold j_type in H. invert_format.
  rewrite (land_mask offset 21), !(land_mask _ 1 1), (land_mask _ 10 0x3FF), (land_mask _ 8 0xFF), !shiftr_div by lia.
  destruct (j_pieces offset) as (s & h & m & l & -> & -> & -> & -> & Hs & Hh & Hl & Hm & ->); [lia..|].
  repeat match goal with H : _ <= _ + _ < _ |- _ => clear H | H : (_ mod _ =? _) = _ |- _ => clear H end.
  rewrite j_word by lia. assert (s = 0 \/ s = 1) as [-> | ->] by lia; clear Hs;
  unfold decodes; set (w := _ + 0x6F); (assert (Hw : 0 <= w < 2 ^ 32) by (unfold w; lia)); solve_fields w Hw.
Qed.

(** Whatever the formats are given, the emulator's field helpers take out of the word
    exactly that: opcode, functs, registers, and the immediate or offset sign-extended to 32
    bits; and the word has 32 bits. *)
Theorem formats_decode f w (Hf : fields_fit f = true) (He : encode f = Ok w) : decodes f w.
Proof.
  destruct f; cbn [encode] in He; [by apply r_decodes|by apply i_decodes|by apply s_decodes|by apply b_decodes
    |by apply u_decodes|by apply j_decodes].
Qed.

Lemma formats_decode_witness :
  decodes (FB (-3072) "t6" "s11" 5) 0xC1FDD063 /\ decodes (FJ 0xFFFFE "a0") 0x7FFFF56F /\
  decodes (FS (-1) "x31" "fp" 1) 0xFFF41FA3.
Proof.
  split; [|split].
  - apply (formats_decode (FB (-3072) "t6" "s11" 5)); vm_compute; reflexivity.
  - apply (formats_decode (FJ 0xFFFFE "a0")); vm_compute; reflexivity.
  - apply (formats_decode (FS (-1) "x31" "fp" 1)); vm_compute; reflexivity.
Defined.

(** ** Labels *)

Lemma assemble_items_lookup pc ls l ws i it w :
  assemble_items pc ls l = Ok ws -> l !! i = Some it -> ws !! i = Some w ->
  assemble_item (pc + 4 * Z.of_nat i) ls it = Ok w.
Proof.
  revert pc ws i. induction l as [|x l IH]; intros pc ws i H Hi Hw; [done|].
  cbn [assemble_items] in H. invert_res. destruct i as [|i]; cbn in Hi, Hw.
  - injection Hi as ->. injection Hw as ->. by replace (pc + 4 * Z.of_nat 0) with pc by lia.
  - replace (pc + 4 * Z.of_nat (S i)) with (pc + 4 + 4 * Z.of_nat i) by lia. by eapply IH.
Qed.

Lemma assemble_items_length pc ls l ws : assemble_items pc ls l = Ok ws -> length ws = length l.
Proof.
  revert pc ws. induction l as [|x l IH]; intros pc ws H; cbn [assemble_items] in H; invert_res; [done|].
  cbn. f_equal. by eapply IH.
Qed.

(** Instruction [k] of a finished assembler: the one a call emitted as item [k]. *)
Definition emitted (code : asm unit) (k : nat) (fin : Asm) : Prop :=
  exists a, len (items a) = Z.of_nat k /\ exists a', code a = Ok (tt, a') /\ exists rest, items fin = items a' ++ rest.

Lemma emitted_item i k fin : emitted (emit i) k fin -> items fin !! k = Some i.
Proof.
  intros (a & Hk & a' & [= <-] & rest & ->). cbn [items]. unfold len in Hk.
  rewrite <- app_assoc. apply list_lookup_middle. lia.
Qed.

(** Both passes together: in an assembled program every branch and jump goes where its
    label is, before or after it. The offset in the word, added to the instruction's own
    address, is the label's address (a jump out of range raises instead). *)
Theorem jumps_reach fin ws k w target
    (Hws : assemble fin = Ok ws) (Hw : ws !! k = Some w) :
  let pc := origin fin + 4 * Z.of_nat k in
  (forall f3 rs1 rs2, 0 <= f3 < 8 -> emitted (branch f3 rs1 rs2 target) k fin ->
     exists t, labels fin !! target = Some t /\ Field.u32 (pc + Field.imm_b w) = Field.u32 t) /\
  (forall rd, emitted (jal rd target) k fin ->
     exists t, labels fin !! target = Some t /\ Field.u32 (pc + Field.imm_j w) = Field.u32 t).
Proof.
  intros pc. split.
  - intros f3 rs1 rs2 Hf3 He. apply emitted_item in He.
    pose proof (assemble_items_lookup _ _ _ _ _ _ _ Hws He Hw) as Ha. cbn [assemble_item] in Ha. invert_res.
    exists a. split; [done|]. apply b_decodes in Ha as (_ & _ & -> & _); [|cbn [fields_fit]; lia].
    unfold Field.u32, pc in *. rewrite Zplus_mod_idemp_r. f_equal. lia.
  - intros rd He. apply emitted_item in He.
    pose proof (assemble_items_lookup _ _ _ _ _ _ _ Hws He Hw) as Ha. cbn [assemble_item] in Ha. invert_res.
    exists a. split; [done|]. apply j_decodes in Ha as (_ & _ & -> & _).
    unfold Field.u32, pc in *. rewrite Zplus_mod_idemp_r. f_equal. lia.
Qed.

(** A loop with a branch back and a jump ahead. *)
Definition demo_code : asm unit := label "loop";; addi "t0" "t0" 1;; bnez "t0" "loop";; j "end";; nop;; label "end".
Definition demo_asm : Asm := match build 0x80000000 demo_code with Ok a => a | Raise _ => new_asm 0 end.

Lemma jumps_reach_witness :
  (exists t, labels demo_asm !! "loop" = Some t /\ Field.u32 (0x80000004 + Field.imm_b 0xFE029EE3) = Field.u32 t) /\
  (exists t, labels demo_asm !! "end" = Some t /\ Field.u32 (0x80000008 + Field.imm_j 0x0080006F) = Field.u32 t).
Proof.
  split.
  - apply (proj1 (jumps_reach demo_asm [0x00128293; 0xFE029EE3; 0x0080006F; 0x13] 1 0xFE029EE3 "loop" eq_refl eq_refl)
      1 "t0" "zero"); [lia|].
    exists (mkAsm 0x80000000 [Word 0x00128293] {["loop"%string := 0x80000000]}). split; [done|].
    eexists. split; [reflexivity|]. eexists. cbn. reflexivity.
  - apply (proj2 (jumps_reach demo_asm [0x00128293; 0xFE029EE3; 0x0080006F; 0x13] 2 0x0080006F "end" eq_refl eq_refl)
      "zero"%string).
    exists (mkAsm 0x80000000 (take 2 (items demo_asm)) {["loop"%string := 0x80000000]}). split; [done|].
    eexists. split; [reflexivity|]. eexists. cbn. reflexivity.
Defined.
