(* ===== verification/HackAsm.v ===== *)
(** * The Hack assembler of the test programs

    sim/integration/hack_asm.py: C-instructions from their text, A-instructions of values and
    labels, and the packing of two instructions per word. *)
From S2P Require Import Prelude Image Rv32Asm.

Module Hack.

(** ** C-instructions *)

Definition COMP_A : list (string * Z) := [
  ("0", 0x2A); ("1", 0x3F); ("-1", 0x3A); ("D", 0x0C); ("A", 0x30); ("!D", 0x0D); ("!A", 0x31); ("-D", 0x0F);
  ("-A", 0x33); ("D+1", 0x1F); ("A+1", 0x37); ("D-1", 0x0E); ("A-1", 0x32); ("D+A", 0x02); ("D-A", 0x13);
  ("A-D", 0x07); ("D&A", 0x00); ("D|A", 0x15)]%string.

Definition chars := list ascii.

(** [k.replace("A", "M")]. *)
Definition a_to_m (k : chars) : chars := map (fun c => if Ascii.eqb c "A" then "M"%char else c) k.

(** [COMP], its M-forms included. *)
Definition COMP_TABLE : list (chars * Z) :=
  let base := map (fun '(k, v) => (list_ascii_of_string k, v)) COMP_A in
  base ++ map (fun '(k, v) => (a_to_m k, Z.lor v 64)) (filter (fun '(k, _) => existsb (Ascii.eqb "A") k = true) base).
Definition COMP : gmap string Z := list_to_map (map (fun '(k, v) => (string_of_list_ascii k, v)) COMP_TABLE).

Definition DEST_BITS (ch : ascii) : res Z :=
  if Ascii.eqb ch "A" then Ok 4 else if Ascii.eqb ch "D" then Ok 2 else if Ascii.eqb ch "M" then Ok 1 else Raise KeyError.

Definition JUMP_TABLE : list (string * Z) :=
  [("", 0); ("JGT", 1); ("JEQ", 2); ("JGE", 3); ("JLT", 4); ("JNE", 5); ("JLE", 6); ("JMP", 7)]%string.
Definition JUMP : gmap string Z := list_to_map JUMP_TABLE.

(** [s.partition(c)] without the separator: before and after the first [c]. *)
Fixpoint partition (c : ascii) (l : chars) : chars * chars :=
  match l with
  | [] => ([], [])
  | x :: l => if Ascii.eqb x c then ([], l) else let '(h, t) := partition c l in (x :: h, t)
  end.

(** [s.rpartition(c)] without the separator: before and after the last [c], or none before. *)
Definition rpartition (c : ascii) (l : chars) : chars * chars :=
  if existsb (Ascii.eqb c) l then
    let '(t, h) := partition c (rev l) in (rev h, rev t)
  else ([], l).

(** [COMP[comp.strip()]]. *)
Definition strip_key (l : chars) : string := string_of_list_ascii (strip (string_of_list_ascii l)).

(** The loop over the destinations. *)
Fixpoint dest_bits (d : Z) (l : chars) : res Z :=
  match l with
  | [] => Ok d
  | ch :: l => b ← DEST_BITS ch; dest_bits (Z.lor d b) l
  end.

Definition encode_c (text : string) : res Z :=
  let '(dest, rest) := rpartition "=" (list_ascii_of_string text) in
  let '(comp, jump) := partition ";" rest in
  d ← dest_bits 0 dest;
  c ← getitem (COMP !! strip_key comp);
  j ← getitem (JUMP !! strip_key jump);
  Ok (lor_all [0xE000; Z.shiftl c 6; Z.shiftl d 3; j]).

(** ** The assembler *)

(** An item: an instruction, or the label an [@label] names. *)
Inductive hitem : Type :=
| Int (v : Z)
| Str (name : string).

Record Asm := mkAsm { items : list hitem; labels : gmap string Z }.
Definition new_asm : Asm := mkAsm [] ∅.

Definition asm (A : Type) : Type := Asm -> res (A * Asm).
#[global] Instance asm_ret : MRet asm := fun _ v a => Ok (v, a).
#[global] Instance asm_bind : MBind asm := fun _ _ f m a =>
  match m a with Ok (v, a) => f v a | Raise e => Raise e end.

Definition append (i : hitem) : asm unit := fun a => Ok (tt, mkAsm (items a ++ [i]) (labels a)).

Definition label (name : string) : asm unit := fun a =>
  if bool_decide (labels a !! name = None)
  then Ok (tt, mkAsm (items a) (<[name := len (items a)]> (labels a))) else Raise AssertionError.

(** [at] of a label, and of a value. *)
Definition at_label (name : string) : asm unit := append (Str name).
Definition at_ (value : Z) : asm unit := fun a =>
  if (0 <=? value) && (value <=? 0x7FFF) then append (Int value) a else Raise AssertionError.

Definition c (text : string) : asm unit := fun a =>
  match encode_c text with Ok w => append (Int w) a | Raise e => Raise e end.

Definition resolve (ls : gmap string Z) (i : hitem) : res Z :=
  match i with Int v => Ok v | Str name => getitem (ls !! name) end.

Definition instructions (a : Asm) : res (list Z) := mapM (resolve (labels a)) (items a).

(** [[(instrs[i + 1] << 16) | instrs[i] for i in range(0, len(instrs), 2)]]. *)
Fixpoint pairs (l : list Z) : list Z :=
  match l with
  | i0 :: i1 :: l => Z.lor (Z.shiftl i1 16) i0 :: pairs l
  | _ => []
  end.

Definition assemble (a : Asm) : res (list Z) :=
  instrs ← instructions a;
  let instrs := if len instrs mod 2 =? 0 then instrs else instrs ++ [0] in
  Ok (pairs instrs).

Definition build (code : asm unit) : res Asm := snd <$> code new_asm.

Definition selftest_cases : list (string * Z) := [
  ("D=M", 0xFC10); ("M=D", 0xE308); ("0;JMP", 0xEA87); ("D;JGT", 0xE301); ("D;JNE", 0xE305); ("D=D+A", 0xE090);
  ("AM=M-1", 0xFCA8); ("D=D&A", 0xE010); ("MD=M+1", 0xFDD8); ("AMD=D|M", 0xF578); ("D=A-D", 0xE1D0)]%string.

Definition selftest : res unit :=
  foldr (fun x rest => assert_eq (encode_c x.1) x.2;; rest) (Ok tt) selftest_cases;;
  a ← build (at_label "end";; c "0;JMP";; label "end";; at_ 0x6000);
  ws ← assemble a;
  py_assert (bool_decide (ws = [0xEA870002; 0x00006000])).

End Hack.

(** The Hack assembler's own check against the reference encodings passes. *)
Theorem hack_selftest_passes : Hack.selftest = Ok tt.
Proof. vm_compute. reflexivity. Qed.

(** ** C-instructions decode *)

(** The destinations in their usual order, and the text of a C-instruction. *)
Definition dest_texts : list (string * Z) :=
  [("", 0); ("M", 1); ("D", 2); ("MD", 3); ("A", 4); ("AM", 5); ("AD", 6); ("AMD", 7)]%string.
Definition c_text (dest comp jump : string) : string :=
  ((if String.eqb dest "" then "" else dest ++ "=") ++ comp ++ (if String.eqb jump "" then "" else ";" ++ jump))%string.

(** What the emulator takes out of a C-instruction ([step_hack]): the comp with its a-bit, the
    destinations and the jump. *)
Definition c_fields (ins : Z) : bool * Z * Z * Z :=
  (negb (Z.land ins 0x8000 =? 0), Z.land (Z.shiftr ins 6) 0x7F, Z.land (Z.shiftr ins 3) 7, Z.land ins 7).

(** Every C-instruction, written [dest=comp;jump] with the destination and the jump left out
    or not, encodes to the word from which the CPU takes that comp, those destinations and
    that jump. *)
Theorem encode_c_decodes dest d comp cv jump jv
    (Hd : (dest, d) ∈ dest_texts) (Hc : Hack.COMP !! comp = Some cv) (Hj : (jump, jv) ∈ Hack.JUMP_TABLE) :
  exists ins, Hack.encode_c (c_text dest comp jump) = Ok ins /\ 0 <= ins < 2 ^ 16 /\ c_fields ins = (true, cv, d, jv).
Proof.
  assert (Hall : forallb (fun '(dest, d) => forallb (fun '(comp, cv) => forallb (fun '(jump, jv) =>
      match Hack.encode_c (c_text dest comp jump) with
      | Ok ins => (0 <=? ins) && (ins <? 2 ^ 16) && bool_decide (c_fields ins = (true, cv, d, jv))
      | Raise _ => false end) Hack.JUMP_TABLE) (map_to_list Hack.COMP)) dest_texts = true) by (vm_compute; reflexivity).
  rewrite forallb_forall in Hall. specialize (Hall _ (proj1 (list_elem_of_In _ _) Hd)). cbv beta iota in Hall.
  rewrite forallb_forall in Hall. apply elem_of_map_to_list in Hc.
  specialize (Hall _ (proj1 (list_elem_of_In _ _) Hc)). cbv beta iota in Hall.
  rewrite forallb_forall in Hall. specialize (Hall _ (proj1 (list_elem_of_In _ _) Hj)). cbv beta iota in Hall.
  destruct (Hack.encode_c _) as [ins|]; [|done]. exists ins.
  apply andb_true_iff in Hall as [Hr Hb]. apply bool_decide_eq_true in Hb. split; [done|]. split; [lia|done].
Qed.

Lemma encode_c_decodes_witness :
  exists ins, Hack.encode_c "AM=M+1;JNE" = Ok ins /\ 0 <= ins < 2 ^ 16 /\ c_fields ins = (true, 0x77, 5, 5).
Proof.
  apply (encode_c_decodes "AM" 5 "M+1" 0x77 "JNE" 5); [apply (bool_decide_unpack _); vm_compute; exact I
    |vm_compute; reflexivity|apply (bool_decide_unpack _); vm_compute; exact I].
Defined.

(** ** A program in its instruction segment *)

Lemma list_two_ind {A} (P : list A -> Prop) :
  P [] -> (forall a, P [a]) -> (forall a c l, P l -> P (a :: c :: l)) -> forall l, P l.
Proof.
  intros H0 H1 H2.
  refine (fix IH l := match l with [] => H0 | [a] => H1 a | a :: c :: l => H2 a c l (IH l) end).
Qed.

(** The half of a word an instruction is in. *)
Definition half_at (img : bytes) (k : Z) : Z :=
  if k mod 2 =? 1 then unpack_uint 4 (4 * (k / 2)) img / 2 ^ 16 else unpack_uint 4 (4 * (k / 2)) img mod 2 ^ 16.

Lemma half_at_word i0 i1 rest k :
  0 <= i0 < 2 ^ 16 -> 0 <= i1 < 2 ^ 16 -> 0 <= k ->
  half_at (le_split 4 (Z.lor (Z.shiftl i1 16) i0) ++ rest) k =
    if k =? 0 then i0 else if k =? 1 then i1 else half_at rest (k - 2).
Proof.
  intros H0 H1 Hk. rewrite lor_shiftl_add by lia. set (w := i1 * 2 ^ 16 + i0).
  assert (Hw : unpack_uint 4 0 (le_split 4 w ++ rest) = w).
  { unfold unpack_uint. change (0 + Z.of_nat 4) with 4. rewrite slice_app_l by (rewrite ?len_le_split; lia).
    rewrite slice_0_len by (rewrite len_le_split; lia). apply le_combine_split_in. unfold w. lia. }
  unfold half_at. destruct (Z.eqb_spec k 0) as [->|]; [|destruct (Z.eqb_spec k 1) as [->|]].
  - change (4 * (0 / 2)) with 0. rewrite Hw. change (0 mod 2 =? 1) with false. cbv iota. unfold w. dlia.
  - change (4 * (1 / 2)) with 0. rewrite Hw. change (1 mod 2 =? 1) with true. cbv iota. unfold w. dlia.
  - assert (Hs : unpack_uint 4 (4 * (k / 2)) (le_split 4 w ++ rest) = unpack_uint 4 (4 * ((k - 2) / 2)) rest).
    { unfold unpack_uint. rewrite slice_app_r by (rewrite len_le_split; dlia). rewrite len_le_split. f_equal.
      f_equal; dlia. }
    rewrite Hs. by replace (k mod 2) with ((k - 2) mod 2) by dlia.
Qed.

Lemma image_halves instrs :
  len instrs mod 2 = 0 -> Forall (fun i => 0 <= i < 2 ^ 16) instrs ->
  exists img, hack_image_bytes (Hack.pairs instrs) = Ok img /\
    forall k, 0 <= k < len instrs -> half_at img k = nth (Z.to_nat k) instrs 0.
Proof.
  induction instrs as [|i|i0 i1 l IH] using list_two_ind; intros Hlen Hr.
  - exists []. split; [done|]. intros k Hk. unfold len in Hk. cbn in Hk. lia.
  - done.
  - inversion_clear Hr as [|? ? H0 Hr']. inversion_clear Hr' as [|? ? H1 Hl].
    assert (Hlen' : len l mod 2 = 0) by (rewrite !len_cons in Hlen; dlia).
    destruct (IH Hlen' Hl) as (img & Himg & Hk). cbn [Hack.pairs].
    rewrite image_bytes_cons by (rewrite lor_shiftl_add by lia; lia). rewrite Himg.
    eexists. split; [reflexivity|]. intros k Hlt. rewrite half_at_word by lia.
    destruct (Z.eqb_spec k 0) as [->|]; [done|]. destruct (Z.eqb_spec k 1) as [->|]; [done|].
    rewrite Hk by (rewrite !len_cons in Hlt; lia).
    replace (Z.to_nat k) with (S (S (Z.to_nat (k - 2)))) by lia. done.
Qed.

(** An assembled Hack program in its segment runs as written: at [pc] = 2k the CPU fetches
    instruction [k], its labels resolved, from the words the assembler packs. *)
Theorem hack_program_fetch a instrs
    (Hi : Hack.instructions a = Ok instrs) (Hr : Forall (fun i => 0 <= i < 2 ^ 16) instrs) :
  exists ws img, Hack.assemble a = Ok ws /\ hack_image_bytes ws = Ok img /\
    forall k, 0 <= k < Z.min (len instrs) (2 ^ 15) -> hack_fetch img (2 * k) = nth (Z.to_nat k) instrs 0.
Proof.
  unfold Hack.assemble. rewrite Hi. cbn [mbind res_bind].
  destruct (Z.eqb_spec (len instrs mod 2) 0) as [He|Ho].
  - destruct (image_halves instrs He Hr) as (img & Himg & Hk). eexists _, img. split; [reflexivity|]. split; [exact Himg|].
    intros k Hlt. rewrite hack_fetch_arith by lia. apply Hk. lia.
  - destruct (image_halves (instrs ++ [0])) as (img & Himg & Hk).
    { rewrite len_app. change (len [0]) with 1. dlia. }
    { apply Forall_app. split; [done|]. constructor; [lia|done]. }
    eexists _, img. split; [reflexivity|]. split; [exact Himg|]. intros k Hlt. rewrite hack_fetch_arith by lia.
    unfold half_at in Hk. rewrite Hk by (rewrite len_app; change (len [0]) with 1; lia).
    apply app_nth1. unfold len in Hlt. lia.
Qed.

Definition demo_hack_asm : Hack.Asm :=
  match Hack.build (Hack.at_label "end";; Hack.c "0;JMP";; Hack.label "end";; Hack.at_ 0x6000) with
  | Ok a => a | Raise _ => Hack.new_asm end.

Lemma hack_program_fetch_witness :
  exists ws img, Hack.assemble demo_hack_asm = Ok ws /\ hack_image_bytes ws = Ok img /\
    forall k, 0 <= k < Z.min (len [2; 0xEA87; 0x6000]) (2 ^ 15) ->
      hack_fetch img (2 * k) = nth (Z.to_nat k) [2; 0xEA87; 0x6000] 0.
Proof.
  apply (hack_program_fetch demo_hack_asm [2; 0xEA87; 0x6000]); [vm_compute; reflexivity|].
  repeat constructor; lia.
Defined.
