(* ===== verification/Lockstep.v ===== *)
(** * The lockstep programs: common parts, the Hack programs and the launcher

    sim/integration/lockstep_programs.py: the constants, the helpers the programs share, the
    programs that start Hack code, the second stage's launcher by hand, the card the first
    stage boots from. *)
From S2P Require Import Prelude Header Image Text FatImage Rv32Asm HackAsm.
#[local] Open Scope Z_scope.

(** ** Python's loops *)

(** [for x in l: f(x)]. *)
Fixpoint for_each {M : Type -> Type} `{MRet M, MBind M} {A} (l : list A) (f : A -> M unit) : M unit :=
  match l with [] => mret tt | x :: l => f x;; for_each l f end.

(** [range(a, b)], and with a positive step. *)
Definition range (a b : Z) : list Z := map (fun k => a + Z.of_nat k) (seq 0 (Z.to_nat (b - a))).
Definition range_step (a b step : Z) : list Z :=
  map (fun k => a + step * Z.of_nat k) (seq 0 (Z.to_nat (cdiv (b - a) step))).

(** [enumerate(l)]. *)
Definition enumerate {A} (l : list A) : list (Z * A) := imap (fun k x => (Z.of_nat k, x)) l.

(** [ord(s)] of a one-character string. *)
Definition ord (s : string) : Z := match s with String c _ => Z.of_N (N_of_ascii c) | EmptyString => 0 end.

(** [a.word(m)] for a word that may raise. *)
Definition word_of (m : res Z) : asm unit := w ← lift m; word w.

(** [l[0]]. *)
Definition first_of {A} (l : list A) : res A := match l with x :: _ => Ok x | [] => Raise IndexError end.

(** [a = Asm(); ...; return a.assemble()], and with the check that the code fits 14 KB. *)
Definition rom_code (code : asm unit) : res (list Z) := a ← build 0 code; assemble a.
Definition rom_code_14k (code : asm unit) : res (list Z) :=
  words ← rom_code code; py_assert (len words <=? 0x3800 / 4);; Ok words.
Definition hack_code (code : Hack.asm unit) : res (list Z) := a ← Hack.build code; Hack.assemble a.

(** ** Constants *)

Definition UART_BIT : Z := 156.
Definition UART_FRAME : Z := 10 * UART_BIT.
Definition XMEM : Z := 0x80000000.
Definition XMEM_BYTES : Z := 0x800000.
Definition XMEM_WAIT : Z := 35.
Definition XMEM_WRITE_WAIT : Z := 34.
Definition XMEM_LINE_WORDS : Z := 8.
Definition XMEM_BURST_EXTRA : Z := 2 * (XMEM_LINE_WORDS - 1).
Definition XMEM_LINE_FILL : Z := XMEM_WAIT + XMEM_BURST_EXTRA.
Definition XMEM_LINE_DIRTY : Z := XMEM_WRITE_WAIT + XMEM_BURST_EXTRA + 2 + XMEM_LINE_FILL.
Definition XMEM_FETCH_FILL : Z := XMEM_LINE_FILL.
Definition XMEM_FETCH_PROBE : Z := XMEM_WRITE_WAIT + XMEM_BURST_EXTRA + 3 + XMEM_FETCH_FILL.
Definition HACK_I_BASE : Z := 0x80000000.
Definition HACK_D_BASE : Z := 0x80020000.

Definition XMEM_IRQS : Z := 4.
Definition XMEM_ADDR_LINES : list Z := range 9 21.
Definition STAGE2_BASE : Z := 0x80700000.
Definition XCACHE_I_BYTES : Z := 0x4000.
Definition XCACHE_D_BYTES : Z := 0x800.
Definition XCACHE_A : Z := 0x600.
Definition XCACHE_B : Z := 0x600 + XCACHE_I_BYTES.
Definition XCACHE_D : Z := 0x700.
Definition XCACHE_D2 : Z := XCACHE_D + 0x1000.
Definition XCACHE_P : Z := 0x780.
Definition XCACHE_P2 : Z := XCACHE_P + XCACHE_D_BYTES.
Definition XCACHE_C : Z := 0x7D8.
Definition XCACHE_C2 : Z := XCACHE_C + 0x800.
Definition HACK_DEMO_BYTES : Z := 0x1600.
Definition HACK_STUB_FLAG : Z := XMEM + 0x400000.
Definition XCACHE_HACK_WORDS : Z * Z * Z := (3, 3 + 512, 3 + 1024).
Definition RV_DATA : Z := XMEM + 0x50000.
Definition XMEM_ASIDE : Z := XMEM + 0x60000.
Definition MULDIV_CODE : Z := XMEM + 0x3000.
Definition AMO_DATA : Z := XMEM + 0x70000.
Definition AMO_CODE : Z := AMO_DATA + 0x20.
Definition CLINT : Z := 0x20000000.
Definition CLINT_MTIMECMP : Z := CLINT + 0x4000.
Definition CLINT_MTIME : Z := CLINT + 0xBFF8.
Definition UART : Z := 0x40000000.

(** The window's words the programs read or write, as [start, end) byte ranges. *)
Definition XMEM_USED : list (Z * Z) :=
  [(0, 0x800); (0x7FF840, 0x7FF848)] ++ map (fun b => (Z.shiftl 4 b, Z.shiftl 4 b + 4)) XMEM_ADDR_LINES
  ++ [(0x6F0000, 0x6F0100); (0x6FE000, 0x700000); (0x700000, 0x700100)]
  ++ [(0x1000, 0x1200); (0x1800, 0x1A00); (0x2000, 0x2200)]
  ++ [(XCACHE_B, XCACHE_B + 0x40); (XCACHE_D2, XCACHE_D2 + 0x20); (XCACHE_P2, XCACHE_P2 + 0x20)]
  ++ [(Z.land XCACHE_C2 (Z.lnot 0x1F), Z.land XCACHE_C2 (Z.lnot 0x1F) + 0x20)]
  ++ [(0x800, HACK_DEMO_BYTES); (0x20000, 0x20400); (0x2F800, 0x30000)]
  ++ [(HACK_STUB_FLAG - XMEM, HACK_STUB_FLAG - XMEM + 4)]
  ++ map (fun w => (0x20000 + 4 * Z.land w (Z.lnot 7), 0x20000 + 4 * Z.land w (Z.lnot 7) + 0x20)) [3 + 512; 3 + 1024]
  ++ [(RV_DATA - XMEM - 0x200, RV_DATA - XMEM + 0x200); (XMEM_ASIDE - XMEM + 0x40, XMEM_ASIDE - XMEM + 0x44)]
  ++ [(MULDIV_CODE - XMEM, MULDIV_CODE - XMEM + 0x100)]
  ++ [(AMO_DATA - XMEM, AMO_DATA - XMEM + 0x40); (AMO_DATA - XMEM + XCACHE_D_BYTES, AMO_DATA - XMEM + 0x840)].

(** ** Helpers *)

(** [_csr_read]: the word of [csrrs rd, csr, x0]. *)
Definition csr_read (rd csr : Z) : Z := lor_all [Z.shiftl csr 20; Z.shiftl 2 12; Z.shiftl rd 7; 0x73].

(** [_soft_reset_key]. *)
Definition soft_reset_key (gpio : string) : asm unit := lui "t0" 0xA;; addi "t0" "t0" 0x55A;; sw "t0" 0xC gpio.

(** [_put_char]. *)
Definition put_char (ch : Z) (tag : string) : asm unit :=
  label tag;; lw "t0" 4 "s1";; bnez "t0" tag;; li "t0" ch;; sb "t0" 0 "s1".

(** ** Hack programs and what starts them *)

Definition HACK_BACK : Z := ord "S".

Definition hack_stub : res (list Z) :=
  rom_code (
    li "s0" HACK_STUB_FLAG;; lui "s1" 0x40003;; lw "t0" 0 "s0";; bnez "t0" "back";; addi "t0" "zero" 1;;
    sw "t0" 0 "s0";; addi "t0" "zero" 0x100;; sw "t0" 8 "s1";; soft_reset_key "s1";; label "spin";; j "spin";;
    label "back";; lui "s1" 0x40000;; put_char HACK_BACK "wait";; label "halt";; j "halt").

Definition hack_soft_reset (key_by_addition mode_rv32 : bool) : res (list Z) :=
  hack_code (
    Hack.at_ (ord "R");; Hack.c "D=A";; Hack.at_ 0x6000;; Hack.c "M=D";;
    (if mode_rv32 then Hack.at_ 0x101;; Hack.c "D=A";; Hack.at_ 0x6008;; Hack.c "M=D";; Hack.c "D=M" else mret tt);;
    (if key_by_addition then Hack.at_ 0x255A;; Hack.c "D=A";; Hack.at_ 0x4000;; Hack.c "D=D+A";; Hack.at_ 0x4000;; Hack.c "D=D+A" else Hack.at_ 0x5AA5;; Hack.c "D=!A");;
    Hack.at_ 0x600C;; Hack.c "M=D";; Hack.label "spin";; Hack.at_label "spin";; Hack.c "0;JMP").

Definition xcache_hack : res (list Z) :=
  let '(w3, w515, w1027) := XCACHE_HACK_WORDS in
  hack_code (
    Hack.at_ w3;; Hack.c "M=1";; Hack.at_ w515;; Hack.c "AM=M+1";;
    Hack.at_ w3;; Hack.c "D=M";; Hack.at_ w1027;; Hack.c "M=-1";; Hack.at_ w3;; Hack.c "AMD=M+1";;
    Hack.at_ (ord "0");; Hack.c "D=D+A";; Hack.at_ 0x6000;; Hack.c "M=D";; Hack.label "spin";;
    Hack.at_label "spin";; Hack.c "0;JMP").

Definition boot_mode_hack : res (list Z) :=
  h ← Hack.build (
    Hack.at_ 0;; Hack.c "D=A";; Hack.at_ (ord "H");; Hack.c "D=D+A";; Hack.at_ 0x6000;; Hack.c "M=D";;
    Hack.label "halt";; Hack.at_label "halt";; Hack.c "0;JMP");
  h_words ← Hack.assemble h;
  rom_code (
    li "s0" HACK_I_BASE;; for_each (enumerate h_words) (fun '(i, w) => li "t0" w;; sw "t0" (4 * i) "s0");;
    lui "s1" 0x40003;; addi "t0" "zero" 0x100;; sw "t0" 8 "s1";; lw "s2" 8 "s1";; soft_reset_key "s1";;
    label "spin";; j "spin").

Definition liteuart_hack : res (list Z) :=
  hack_code (
    Hack.label "wait";; Hack.at_ 0x6002;; Hack.c "D=M";; Hack.at_label "wait";; Hack.c "D;JNE";; Hack.at_ 0x6001;;
    Hack.c "D=M";; Hack.at_ 0x6003;; Hack.c "D=M";;
    for_each [0x6001; 0x6002; 0x6003] (fun w => Hack.at_ w;; Hack.c "M=-1");; Hack.at_ 0x6000;; Hack.c "D=M";;
    Hack.at_ 16;; Hack.c "M=D";; Hack.at_ 0x6002;; Hack.c "D=M";; Hack.at_ 0x6003;; Hack.c "D=M";; Hack.at_ 16;;
    Hack.c "D=M";; Hack.at_ 0x6000;; Hack.c "M=D";; Hack.label "spin";; Hack.at_label "spin";; Hack.c "0;JMP").

(** ** The second stage's launcher, by hand *)

Definition S2L_CODE : Z := XMEM + 0x1000.
Definition S2L_COPY : Z := XMEM + 0x1800.
Definition S2L_APP : Z := XMEM + 0x2000.
Definition S2L_BYTES : Z := 0x200.

(** The program started: Hack code for its instruction segment, or RV32 code at [S2L_APP]. *)
Definition s2l_target (hack : bool) : res (list Z) :=
  if hack then
    h ← Hack.build (
      Hack.at_ (ord "K");; Hack.c "D=A";; Hack.at_ 0x6000;; Hack.c "M=D";; Hack.label "halt";;
      Hack.at_label "halt";; Hack.c "0;JMP");
    Hack.assemble h
  else
    t ← build S2L_APP (lui "s1" 0x40000;; put_char (ord "L") "w";; label "halt";; j "halt");
    assemble t.

(** Words copied from a label on, one by one, to an address. *)
Definition s2l_copy (source : string) (to n : Z) : asm unit :=
  la "a0" source;; li "a1" to;; li "a2" n;; label "copy";; lw "t0" 0 "a0";; sw "t0" 0 "a1";; addi "a0" "a0" 4;;
  addi "a1" "a1" 4;; addi "a2" "a2" (-1);; bnez "a2" "copy".

(** The second part, with the target after it; the first part, with the second after it. *)
Definition s2l_second (hack : bool) (target : list Z) : res (list Z) :=
  s ← build S2L_COPY (
    put_char (ord "P") "w";; s2l_copy "target" (if hack then HACK_I_BASE else S2L_APP) (len target);;
    (if hack then
       word 0x0000100F;; lui "s2" 0x40003;; li "t0" 0x100;; sw "t0" 8 "s2";; lw "s3" 8 "s2";; soft_reset_key "s2"
     else
       li "a0" 1;; li "a1" 0x800;; li "a2" 1;; word 0x0000100F;; li "t0" S2L_APP;; jalr "zero" "t0" 0);;
    label "spin";; j "spin";; label "target";; for_each target (fun w => word w));
  assemble s.

Definition s2l_first (second : list Z) : res (list Z) :=
  r ← build S2L_CODE (
    s2l_copy "second" S2L_COPY (len second);; word 0x0000100F;; li "t0" S2L_COPY;; jalr "zero" "t0" 0;;
    label "second";; for_each second (fun w => word w));
  assemble r.

Definition s2_launch (hack : bool) : res (list Z) :=
  target ← s2l_target hack;
  second ← s2l_second hack target;
  first ← s2l_first second;
  py_assert ((4 * len first <=? S2L_BYTES) && (4 * len second <=? S2L_BYTES) && (4 * len target <=? S2L_BYTES));;
  rom_code_14k (
    li "s1" 0x40000000;; li "s0" S2L_CODE;;
    for_each (enumerate first) (fun '(k, w) => li "t0" w;; sw "t0" (4 * k) "s0");;
    word 0x0000100F;; jalr "zero" "s0" 0).

(** ** The first stage's card *)

Definition hash_program (origin : Z) (soft_reset : bool) : res bytes :=
  a ← build origin (
    lui "a1" 0x40000;; label "wait";; lw "t0" 4 "a1";; bne "t0" "zero" "wait";; addi "a0" "zero" (ord "#");;
    sb "a0" 0 "a1";;
    (if soft_reset then lui "a2" 0x40003;; lui "a3" 0xA;; addi "a3" "a3" 0x55A;; sw "a3" 0xC "a2" else nothing);;
    label "stop";; jal "zero" "stop");
  words ← assemble a;
  hack_image_bytes words.

(** [_card_sectors]: the image's sectors that aren't all zeros, by LBA. *)
Definition card_sectors (files : list (text * bytes)) : res (list (Z * bytes)) :=
  img ← build_fat32_image files 8192 1 (txt "VUX9K");
  let n := len img / 512 in
  Ok (filter (fun x => existsb (fun b => negb (u8 b =? 0)) x.2 = true)
    (map (fun lba => (lba, slice img (lba * 512) ((lba + 1) * 512))) (range 0 n))).

(** The image [stage2_card] puts on the card. *)
Definition stage2_image : res bytes :=
  code ← hash_program STAGE2_BASE false;
  fst <$> build_vux9_v4_image (code, None) (bstr "test") false 10 (Some STAGE2_BASE) None None None.
Definition stage2_card : res (list (Z * bytes)) :=
  data ← stage2_image; card_sectors [(txt "VUX9K/STAGE2.BIN", data)].
