(* ===== verification/LockstepRv.v ===== *)
(** * The lockstep programs: RV32

    sim/integration/lockstep_programs.py: the programs on the window and its caches, traps,
    U-mode, the atomics, the SD divider, RV32M, stores the SoC ignores, the UART and the
    CLINT. *)
From S2P Require Import Prelude Rv32Asm HackAsm Image Lockstep.
#[local] Open Scope Z_scope.

(** ** The window *)

Definition xmem : res (list Z) :=
  rom_code_14k (
    li "s0" XMEM;; li "s1" 0x40000000;; li "s2" CLINT_MTIMECMP;; li "a6" CLINT_MTIME;; li "s10" XMEM_ASIDE;;
    (* Stores of every size, loads back, an alias 8 MB up and one at the top of the region *)
    li "t0" 0x11223344;; sw "t0" 0x40 "s0";; li "t1" 0xA5;; sb "t1" 0x41 "s0";; li "t1" 0xBEEF;; sh "t1" 0x46 "s0";;
    lw "t2" 0x40 "s0";; lb "t3" 0x41 "s0";; lbu "t4" 0x41 "s0";; lh "t5" 0x46 "s0";;
    word_of (i_type 0x46 "s0" 5 "t6" 0x03);; li "s3" (XMEM + XMEM_BYTES);; lw "t2" 0x40 "s3";; li "s4" 0x8FFFF800;;
    sw "t0" 0x44 "s4";; li "t1" ((XMEM + XMEM_BYTES) - 0x800);; lw "t3" 0x44 "t1";; sw "t3" 0x40 "s10";;
    (* Not the register space: 0x8080_0020 is the word at 0x8000_0020 *)
    li "t1" 0xC0DE0020;; sw "t1" 0x20 "s3";; lw "t2" 0x20 "s0";;
    (* Each high word-address line on its own, then all read back *)
    for_each XMEM_ADDR_LINES (fun b =>
      li "t1" (XMEM + (Z.shiftl 4 b));; li "t0" (Z.lor (Z.lor 0x5A000000 (Z.shiftl b 8)) b);; sw "t0" 0 "t1");;
    for_each XMEM_ADDR_LINES (fun b => li "t1" (XMEM + (Z.shiftl 4 b));; lw "t2" 0 "t1");;
    r ← lift (build (XMEM + 0x100) (sb "a0" 0 "s1";; lw "t0" 0 "a6";; csrr "t1" "mcycle";; lw "t2" 0x40 "s0";; sw "t1" 0x48 "s0";;
        jalr "zero" "ra" 0;; label "spin";; addi "s6" "s6" 1;; li "t1" XMEM_IRQS;; bltu "s5" "t1" "spin";;
        jalr "zero" "ra" 0));
    routine ← lift (assemble r);
    for_each (enumerate routine) (fun '(k, w) => li "t0" w;; sw "t0" (0x100 + (4 * k)) "s0");; word 0x0000100F;;
    li "a0" (ord "W");; li "t0" (XMEM + 0x100);; jalr "ra" "t0" 0;; lw "t4" 0x48 "s0";;
    (* Timer interrupts while the window loop runs *)
    la "t0" "handler";; csrw "mtvec" "t0";; li "s7" 211;; call "arm";; li "t0" 0x80;; csrw "mie" "t0";; li "t0" 8;;
    csrs "mstatus" "t0";;
    v ← lift (getitem (labels r !! "spin")); li "t0" v;;
    jalr "ra" "t0" 0;; label "done";; j "done";; label "arm";; li "t0" (-1);; sw "t0" 4 "s2";; lw "t0" 0 "a6";;
    add "t0" "t0" "s7";; sw "t0" 0 "s2";; sw "zero" 4 "s2";; ret;; label "handler";; csrr "s8" "mepc";;
    addi "s5" "s5" 1;; addi "s7" "s7" 37;; mv "s9" "ra";; call "arm";; mv "ra" "s9";; mret_).

Definition XCACHE_LOOPS : Z := 40.
Definition XCACHE_IRQ_LOOPS : Z := 400.

Definition xcache : res (list Z) :=
  rom_code_14k (
    li "s0" XMEM;; li "s2" CLINT_MTIMECMP;; li "a6" CLINT_MTIME;;
    r ← lift (build (XMEM + XCACHE_A) (label "loop";; lw "a5" XCACHE_D "s0";; addi "s6" "s6" 1;; bltu "s6" "s7" "loop";; label "smc";;
        sw "t2" 4 "s5";; addi "a1" "zero" 1;; label "other";; sw "zero" 12 "s11";; addi "a2" "a2" 1;;
        jalr "zero" "ra" 0));
    ra_words ← lift (assemble r);
    smc ← lift (getitem (labels r !! "smc")); other ← lift (getitem (labels r !! "other"));
    lift (py_assert (other + 4 + XCACHE_I_BYTES =? smc + XCACHE_I_BYTES + 12));;
    lift (py_assert (XMEM + XCACHE_B + 8 <=? smc + XCACHE_I_BYTES + 12));;
    rb ← lift (build (XMEM + XCACHE_B) (addi "s8" "s8" 1;; jalr "zero" "ra" 0));
    rb_words ← lift (assemble rb);
    rc ← lift (build (XMEM + XCACHE_C) (addi "s9" "s9" 1;; addi "s9" "s9" 1;; addi "s9" "s9" 1;; jalr "zero" "ra" 0));
    rc_words ← lift (assemble rc);
    for_each [(XCACHE_A, ra_words); (XCACHE_B, rb_words); (XCACHE_C, rc_words)] (fun '(base, words) =>
      li "t1" (XMEM + base);; for_each (enumerate words) (fun '(k, w) => li "t0" w;; sw "t0" (4 * k) "t1"));;
    t ← lift (build 0 (addi "a1" "zero" 2));
    t_words ← lift (assemble t);
    t0 ← lift (first_of t_words); li "t2" t0;; li "s5" smc;; li "s11" (smc + XCACHE_I_BYTES);; li "s7" XCACHE_LOOPS;;
    li "s3" (XMEM + XCACHE_A);; li "s4" (XMEM + XCACHE_B);; jalr "ra" "s3" 0;;
    for_each (range 0 3) (fun _ => jalr "ra" "s4" 0;; mv "s6" "zero";; li "s7" 2;; jalr "ra" "s3" 0);;
    li "t0" ((XMEM + XMEM_BYTES) + XCACHE_A);; mv "s6" "zero";; jalr "ra" "t0" 0;;
    (* Routine C over a lines end *)
    li "s10" (XMEM + XCACHE_C);; li "t1" (XMEM + XCACHE_C2);; jalr "ra" "s10" 0;; jalr "ra" "s10" 0;;
    sw "zero" (-0x10) "s10";; jalr "ra" "s10" 0;; sw "zero" (-0x10) "s10";; lw "t0" 0 "t1";; jalr "ra" "s10" 0;;
    (* The last pass with a timer interrupt *)
    la "t0" "handler";; csrw "mtvec" "t0";; li "t0" (-1);; sw "t0" 4 "s2";; lw "t0" 0 "a6";; addi "t0" "t0" 523;;
    sw "t0" 0 "s2";; sw "zero" 4 "s2";; li "t0" 0x80;; csrw "mie" "t0";; li "t0" 8;; csrs "mstatus" "t0";;
    mv "s6" "zero";; li "s7" XCACHE_IRQ_LOOPS;; jalr "ra" "s3" 0;;
    (* The data cache *)
    li "s1" (XMEM + XCACHE_D);; li "s3" (XMEM + XCACHE_D2);; li "t0" 0x12345678;; sw "t0" 0 "s1";; lw "a3" 0 "s1";;
    li "t0" 0xA5;; sb "t0" 1 "s1";; lw "a3" 0 "s1";; lw "a4" 0 "s3";; lw "a3" 0 "s1";; li "t0" 0xBEEF;;
    sh "t0" 2 "s3";; lw "a3" 0 "s1";; li "t0" 0x0BADF00D;; sw "t0" 0 "s3";; lw "a4" 0 "s3";;
    li "t1" ((XMEM + XMEM_BYTES) + XCACHE_D2);; lw "a4" 0 "t1";;
    (* Partial masks: a byte and a halfword into Ps line, evicted, read back from the PSRAM *)
    li "s1" (XMEM + XCACHE_P);; li "s3" (XMEM + XCACHE_P2);; li "t0" 0x5A;; sb "t0" 1 "s1";; li "t0" 0xC3A5;;
    sh "t0" 6 "s1";; lw "a5" 0 "s3";; lw "a3" 0 "s1";; lw "a4" 4 "s1";; label "done";; j "done";; label "handler";;
    csrr "s10" "mepc";; addi "s9" "s9" 1;; li "t0" (-1);; sw "t0" 4 "s2";; mret_).

(** ** Traps, CSRs, interrupts *)

Definition traps : res (list Z) :=
  rom_code (
    (* Second pass (after the soft reset at the end): x5 survives, the CSRs dont *)
    bnez "x5" "second";; la "t0" "handler";; csrw "mtvec" "t0";; li "sp" RV_DATA;; li "s1" 0x40000000;;
    li "s2" CLINT_MTIMECMP;; li "a6" CLINT_MTIME;;
    (* Exceptions: the handler adds 4 to mepc and keeps mcause in s0 *)
    ecall;; ebreak;; word 0;; word 0xFFFFFFFF;; word 0x7C002073;; word 0xC0001073;; lw "t1" 1 "sp";;
    sh "t1" 3 "sp";; la "t1" "after_ma";; jalr "ra" "t1" 2;; label "after_ma";; nop;; lw "t1" 0 "zero";;
    lbu "t1" 8 "s1";;
    (* CSRs *)
    li "t1" 0x12345678;; csrw "mscratch" "t1";; csrr "t2" "mscratch";; csrw "mcycle" "zero";; csrr "t3" "mcycle";;
    csrw "minstret" "zero";; csrr "t4" "minstret";; csrr "t5" "mstatus";; csrr "t6" "mip";;
    word (Z.lor (Z.lor (Z.lor (Z.shiftl 0x320 20) (Z.shiftl 6 15)) (Z.shiftl 1 12)) 0x73);;
    word (Z.lor (Z.lor (Z.lor (Z.shiftl 0x33F 20) (Z.shiftl 6 15)) (Z.shiftl 1 12)) 0x73);;
    word (csr_read 7 0x320);; word (csr_read 28 0xB03);; word (csr_read 29 0xB9F);;
    (* UART TX: a few bytes, then read TXFULL *)
    for_each [72; 105; 33; 10] (fun ch => li "t1" ch;; sw "t1" 0 "s1");; lw "t1" 4 "s1";;
    (* Timer interrupt: mtimecmp = mtime + 200 *)
    lw "t1" 0 "a6";; addi "t1" "t1" 200;; sw "zero" 4 "s2";; sw "t1" 0 "s2";; li "t1" 2;; sw "t1" 0x14 "s1";;
    li "t1" 0x880;; csrw "mie" "t1";; li "t1" 8;; csrs "mstatus" "t1";;
    (* Wait for both interrupts (the handler counts them in s3) *)
    label "wait";; li "t1" 2;; bltu "s3" "t1" "wait";;
    (* Soft reset without a mode: RV32 again (x5 marks the second pass) *)
    li "x5" 1;; li "t1" 0x40003000;; li "t2" 0xA55A;; sw "t2" 0xC "t1";; label "spin_reset";; j "spin_reset";;
    label "second";; csrr "t1" "mtvec";; csrr "t2" "mcycle";; label "done";; j "done";; label "handler";;
    csrr "s0" "mcause";; csrr "s4" "mtval";; bltu "s0" "zero" "handler";; li "t0" 0x80000000;;
    bgeu "s0" "t0" "interrupt";; csrr "t0" "mepc";; addi "t0" "t0" 4;; csrw "mepc" "t0";; mret_;;
    label "interrupt";; addi "s3" "s3" 1;; li "t0" 0x8000000B;; beq "s0" "t0" "ext";; li "t0" (-1);;
    sw "t0" 4 "s2";; mret_;; label "ext";; lw "s5" 0 "s1";; mret_).

(** ** U-mode *)

Definition UMODE_MPP : Z := 0x1800.
Definition UMODE_MPRV : Z := Z.shiftl 1 17.
Definition UMODE_TW : Z := Z.shiftl 1 21.

Definition umode : res (list Z) :=
  rom_code (
    la "t0" "handler";; csrw "mtvec" "t0";; li "s2" CLINT_MTIMECMP;; li "a6" CLINT_MTIME;;
    (* MPP is {U, M}: 3 selects M, the rest U; MPRV and TW read back *)
    for_each [0; 0x0800; 0x1000; Z.lor (Z.lor UMODE_MPP UMODE_MPRV) UMODE_TW; 0xFFFFFFFF; 0] (fun value =>
      li "t0" value;; csrw "mstatus" "t0";; csrr "t1" "mstatus");;
    csrr "t2" "misa";;
    (* mcounteren reads 0 and ignores writes (M only) *)
    word (Z.lor (Z.lor (Z.lor (Z.lor (Z.shiftl 0x306 20) (Z.shiftl 5 15)) (Z.shiftl 1 12)) (Z.shiftl 6 7)) 0x73);;
    word (csr_read 7 0x306);; word (csr_read 7 0x30A);; word (csr_read 7 0x31A);;
    (* An MRET with MPP = M stays in M, and leaves MPP = U and MPRV alone *)
    li "t0" (Z.lor UMODE_MPP UMODE_MPRV);; csrw "mstatus" "t0";; la "t0" "in_m";; csrw "mepc" "t0";; mret_;;
    label "in_m";; csrr "s6" "mstatus";; csrr "s7" "mscratch";;
    (* Now MPP = U: into U, which clears MPRV *)
    la "t0" "user1";; csrw "mepc" "t0";; mret_;; label "user1";; addi "s5" "s5" 1;; wfi;; word (csr_read 8 0x300);;
    word (csr_read 8 0x340);; word (csr_read 8 0xC00);; word (csr_read 8 0xC01);; word (csr_read 8 0xC02);;
    word (csr_read 8 0x306);; mret_;; ecall;; j "bad";; label "in_m2";; csrr "s6" "mstatus";; li "t0" UMODE_TW;;
    csrs "mstatus" "t0";; wfi;; li "t0" 0x1800;; csrc "mstatus" "t0";; la "t0" "user2";; csrw "mepc" "t0";; mret_;;
    label "user2";; wfi;; ecall;; label "in_m3";; li "t0" UMODE_TW;; csrc "mstatus" "t0";;
    (* The timer in 100 cycles, MTIE, MIE clear: masked in M, taken in U *)
    li "t0" (-1);; sw "t0" 4 "s2";; lw "t0" 0 "a6";; addi "t0" "t0" 100;; sw "t0" 0 "s2";; sw "zero" 4 "s2";;
    li "t0" 0x80;; csrw "mie" "t0";; li "t3" 80;; label "m_wait";; addi "t3" "t3" (-1);; bnez "t3" "m_wait";;
    la "t0" "user3";; csrw "mepc" "t0";; li "s3" 0;; mret_;; label "user3";; beqz "s3" "user3";; ecall;;
    label "done";; j "done";; label "bad";; j "bad";; label "handler";; csrr "s0" "mcause";; csrr "s4" "mtval";;
    csrr "s8" "mstatus";; li "t0" 8;; beq "s0" "t0" "from_ecall";; bltu "s0" "zero" "handler";; li "t0" 0x80000000;;
    bgeu "s0" "t0" "from_irq";; csrr "t0" "mepc";; addi "t0" "t0" 4;; csrw "mepc" "t0";; mret_;; label "from_irq";;
    li "t0" (-1);; sw "t0" 4 "s2";; li "s3" 1;; mret_;; label "from_ecall";; addi "s9" "s9" 1;; li "t0" 0x1800;;
    csrs "mstatus" "t0";; li "t0" 1;; la "t1" "in_m2";; beq "s9" "t0" "go";; li "t0" 2;; la "t1" "in_m3";;
    beq "s9" "t0" "go";; la "t1" "done";; label "go";; csrw "mepc" "t1";; mret_).

(** ** The SD SPI master's divider *)

Definition sd_clkdiv : res (list Z) :=
  let xfer byte n : asm unit := for_each (range 0 n) (fun _ => li "a0" byte;; call "xfer") in
  let div v : asm unit := li "t4" v;; sw "t4" 0xC "s1";; lw "t2" 0xC "s1" in
  rom_code (
    li "s1" 0x40002000;; li "s2" 23;; lw "t2" 0xC "s1";; sw "zero" 4 "s1";;
    xfer 0x40 1;; xfer 0x00 4;; xfer 0x95 1;;
    xfer 0xFF 2;; div 0;; for_each [0x48; 0; 0; 1; 0xAA; 0x87] (fun b => xfer b 1);; xfer 0xFF 3;; div 5;; xfer 0xFF 1;;
    div 255;; xfer 0xFF 1;; div 2;; xfer 0xFF 1;; sw "s2" 4 "s1";; xfer 0xFF 1;; label "done";; j "done";; label "xfer";;
    sw "a0" 0 "s1";; lw "t0" 0 "s1";; sw "s2" 0xC "s1";; lw "t2" 0xC "s1";; label "poll";; lw "t1" 8 "s1";;
    lw "t0" 0 "s1";; bnez "t1" "poll";; lw "a0" 0 "s1";; ret).

(** ** Stores the SoC ignores *)

Definition rom_stores : res (list Z) :=
  rom_code (
    li "s1" 0x40000000;; li "t1" 0x12345678;;
    (* The ROM: a word, its aliases, then stores of every size and a load back of each *)
    lw "t2" 0x100 "zero";; li "s2" 0x00004100;; lw "t3" 0 "s2";; li "s3" 0x0FFFC100;; lw "t4" 0 "s3";;
    sw "t1" 0x100 "zero";; lw "t5" 0x100 "zero";; sh "t1" 0x102 "zero";; word_of (i_type 0x102 "zero" 5 "t5" 0x03);;
    sb "t1" 1 "s2";; lbu "t5" 0x101 "zero";; sw "t1" 0x200 "s3";; lw "t6" 0x300 "zero";;
    (* A store to the word of the very next instruction: the instruction runs unchanged *)
    la "t0" "next";; sw "zero" 0 "t0";; label "next";; addi "s4" "zero" 0x5A;; lw "s5" 0 "t0";;
    (* Unassigned regions (region 2, D-RAM until it went, is the CLINT now): stores ignored, 0 read *)
    for_each [0x30000000; 0x30001FFC; 0x10000000; 0xF0000000] (fun base =>
      li "s6" base;; lw "t2" 0 "s6";; sw "t1" 0 "s6";; lw "t3" 0 "s6";; sb "t1" 1 "s6";; lbu "t4" 1 "s6";;
      sh "t1" 2 "s6";; lh "t5" 2 "s6");;
    put_char (ord "K") "wait";; label "done";; j "done").

(** ** The UART's RX FIFO overflowing *)

Definition UART_DROP_RX_CYCLE : Z := 100.
Definition UART_DROP_READ : Z := UART_DROP_RX_CYCLE + 33 * UART_FRAME.
Definition UART_DROP_CYCLES : Z := UART_DROP_READ + 3000.

Definition uart_drop : res (list Z) :=
  rom_code (
    li "s1" 0x40000000;; li "t2" UART_DROP_READ;; label "wait";; csrr "t1" "mcycle";; bltu "t1" "t2" "wait";;
    for_each (range_step 4 0x20 4) (fun off => lw "s2" off "s1";; lw "s3" off "s1");; li "t3" 33;; label "drain";;
    lw "t1" 0 "s1";; lw "s4" 8 "s1";; lw "s5" 0x1C "s1";; addi "t3" "t3" (-1);; bnez "t3" "drain";;
    li "t1" (ord "D");; sw "t1" 0 "s1";; label "done";; j "done").

(** ** The CLINT *)

Definition clint : res (list Z) :=
  rom_code (
    la "t0" "handler";; csrw "mtvec" "t0";; li "s1" 0x40000000;; li "s2" CLINT;; li "s3" CLINT_MTIMECMP;;
    li "s4" CLINT_MTIME;; li "s5" 0x40001000;;
    (* msip: bit 0 only, word, byte and halfword stores, the whole word read *)
    lw "t2" 0 "s2";; li "t1" (-1);; sw "t1" 0 "s2";; lw "t2" 0 "s2";; lbu "t3" 0 "s2";; lbu "t4" 1 "s2";;
    csrr "t5" "mip";; li "t1" 2;; sw "t1" 0 "s2";; lw "t2" 0 "s2";; csrr "t5" "mip";; li "t1" 1;; sb "t1" 2 "s2";;
    lw "t2" 0 "s2";; sh "zero" 2 "s2";; lw "t2" 0 "s2";;
    (* The 64 KB aliases: msip and mtimecmp through other addresses of the region *)
    li "t6" 0x20010000;; sw "t1" 0 "t6";; lw "t2" 0 "s2";; li "t6" 0x2ABC0000;; sw "zero" 0 "t6";; lw "t2" 0 "s2";;
    (* Offsets that are no register: read 0, stores ignored *)
    for_each [CLINT + 0x4; CLINT + 0x4008; CLINT + 0x8000; CLINT + 0xBFF4; CLINT + 0xFFFC; CLINT + 0x1000] (fun addr =>
      li "t6" addr;; lw "t2" 0 "t6";; li "t1" (-1);; sw "t1" 0 "t6";; lw "t3" 0 "t6");;
    lw "t2" 0 "s2";; lw "t3" 0 "s3";; lw "t4" 4 "s3";;
    (* mtime, page 1 (reads 0) and the alias at 0x2001_xxxx *)
    lw "t2" 0 "s4";; lw "t3" 4 "s4";; lw "t4" 0 "s5";; li "t6" (CLINT_MTIME + 0x10000);; lw "t5" 0 "t6";;
    (* mtimecmp written through the CLINT; page 1s old mtimecmp offsets read 0 and a store
       there is ignored *)
    li "t1" 0x12345678;; sw "t1" 0 "s3";; li "t1" 0x9ABCDEF0;; sw "t1" 4 "s3";; sw "t1" 8 "s5";; lw "t2" 8 "s5";;
    lw "t3" 0xC "s5";; lw "t4" 0 "s3";; li "t1" (-1);; sw "t1" 4 "s3";;
    (* The software interrupt: taken on the fetch right after the store that sets msip *)
    li "t1" 8;; csrw "mie" "t1";; csrs "mstatus" "t1";; li "t1" 1;; sw "t1" 0 "s2";; addi "s8" "zero" 1;;
    li "t1" 1;; label "wait_msi";; bltu "s6" "t1" "wait_msi";;
    (* The timer interrupt from mtimecmp written through the CLINT (lo first, hi = 0 arms it);
       the handler disarms it *)
    li "t1" 0x80;; csrw "mie" "t1";; lw "t1" 0 "s4";; addi "t1" "t1" 150;; sw "t1" 0 "s3";; sw "zero" 4 "s3";;
    li "t1" 2;; label "wait_mti";; bltu "s6" "t1" "wait_mti";; lw "t2" 4 "s3";;
    (* All three pending with mstatus.MIE off: the RX byte, msip, mtimecmp = 0; then taken in
       priority order MEI, MSI, MTI *)
    li "t1" 8;; csrc "mstatus" "t1";; label "rx_wait";; lw "t1" 8 "s1";; bnez "t1" "rx_wait";; li "t1" 2;;
    sw "t1" 0x14 "s1";; li "t1" 1;; sw "t1" 0 "s2";; sw "zero" 0 "s3";; sw "zero" 4 "s3";; li "t1" 0x888;;
    csrw "mie" "t1";; csrr "t5" "mip";; li "t1" 8;; csrs "mstatus" "t1";; li "t1" 5;; label "wait_all";;
    bltu "s6" "t1" "wait_all";; li "t1" 8;; csrc "mstatus" "t1";;
    (* mtime written through the CLINT (hi, then lo just below the carry), the carry seen
       in both halves *)
    li "t1" 3;; sw "t1" 4 "s4";; li "t1" (-20);; sw "t1" 0 "s4";; lw "t2" 0 "s4";; lw "t3" 4 "s4";;
    for_each (range 0 6) (fun _ => nop);; lw "t4" 0 "s4";; lw "t5" 4 "s4";; put_char (ord "K") "wait";;
    label "done";; j "done";; label "handler";; csrr "s0" "mcause";; addi "s6" "s6" 1;; slli "s7" "s7" 8;;
    andi "t0" "s0" 0xFF;; add "s7" "s7" "t0";; li "t0" 0x8000000B;; beq "s0" "t0" "h_ext";; li "t0" 0x80000003;;
    beq "s0" "t0" "h_sw";; li "t0" (-1);; sw "t0" 4 "s3";; mret_;; label "h_sw";; sw "zero" 0 "s2";; mret_;;
    label "h_ext";; lw "t0" 0 "s1";; mret_).

(** ** The UART's registers *)

Definition liteuart : res (list Z) :=
  rom_code (
    bnez "x5" "second";; la "t0" "handler";; csrw "mtvec" "t0";; li "s1" UART;; li "s2" CLINT;;
    (* Every register, its repeat, offsets that read 0; byte loads
       (EV_PENDING with EV_ENABLE 0: the TX event, as Linuxs polled driver reads it) *)
    for_each ((range_step 0 0x20 4) ++ [0x20; 0x24; 0x80; 0xFC; 0x104; 0x114; 0x11C; 0x708; 0x718]) (fun off =>
      lw "t1" off "s1");;
    lbu "t2" 0x0C "s1";; lbu "t2" 0x0D "s1";; lbu "t2" 0x18 "s1";; word_of (i_type 0x1A "s1" 5 "t2" 0x03);;
    (* Stores the read-only registers and the unused offsets ignore *)
    li "t1" (-1);; for_each [0x04; 0x08; 0x0C; 0x10; 0x18; 0x1C; 0x20; 0xFC; 0x110] (fun off => sw "t1" off "s1");;
    for_each [0x04; 0x0C; 0x14; 0x18; 0x20; 0xFC] (fun off => lw "t2" off "s1");;
    (* EV_ENABLE: a word store takes bits 1:0; a byte store and a halfword store at its other
       bytes write it with their replicated data *)
    sw "t1" 0x14 "s1";; lw "t2" 0x14 "s1";; sb "zero" 0x15 "s1";; lw "t2" 0x14 "s1";; li "t1" 0x0102;;
    sh "t1" 0x16 "s1";; lw "t2" 0x14 "s1";; li "t1" 0x01010101;; sw "t1" 0x114 "s1";; lw "t2" 0x14 "s1";;
    sw "zero" 0x14 "s1";;
    (* TX: 34 bytes, each byte offset of RXTX: the first goes to the transmitter, 32 fill the
       FIFO, the last is dropped *)
    for_each (range 0 34) (fun k => li "t1" ((ord "a") + k);; sb "t1" (Z.land k 3) "s1");;
    for_each [0x04; 0x0C; 0x10; 0x18] (fun off => lw "t2" off "s1");;
    (* EV_TX enabled while the FIFO is full: taken once a byte leaves it *)
    li "t1" 0x800;; csrw "mie" "t1";; li "t1" 8;; csrs "mstatus" "t1";; li "t1" 1;; sw "t1" 0x14 "s1";;
    lw "t2" 0x10 "s1";; label "wait_tx";; addi "s6" "s6" 1;; beqz "s3" "wait_tx";;
    (* EV_RX: taken when the byte arrives *)
    li "t1" 2;; sw "t1" 0x14 "s1";; li "t1" 2;; label "wait_rx";; addi "s6" "s6" 1;; bltu "s3" "t1" "wait_rx";;
    (* MEI (EV_TX, the FIFO not full) and MSI pending with MIE clear: taken MEI first *)
    li "t1" 8;; csrc "mstatus" "t1";; li "t1" 1;; sw "t1" 0x14 "s1";; lw "t2" 0x10 "s1";; sw "t1" 0 "s2";;
    li "t1" 0x808;; csrw "mie" "t1";; csrr "t5" "mip";; li "t1" 8;; csrs "mstatus" "t1";; li "t1" 4;;
    label "wait_both";; bltu "s3" "t1" "wait_both";; li "t1" 8;; csrc "mstatus" "t1";;
    (* TXEMPTY once the FIFO has drained (the last byte still in the transmitter) *)
    label "wait_txempty";; lw "t1" 0x18 "s1";; beqz "t1" "wait_txempty";; lw "t2" 0x04 "s1";;
    (* A byte left in the RX FIFO, EV_ENABLE = 3, the soft reset *)
    label "wait_rx2";; lw "t1" 0x08 "s1";; bnez "t1" "wait_rx2";; lw "t2" 0x10 "s1";; li "t1" 1;;
    sw "t1" 0x14 "s1";; lw "t2" 0x10 "s1";; csrr "t5" "mip";; li "t1" 3;; sw "t1" 0x14 "s1";; lw "t2" 0x14 "s1";;
    lw "t2" 0x10 "s1";; li "x5" 1;; li "t1" 0x40003000;; soft_reset_key "t1";; label "spin_reset";; j "spin_reset";;
    (* The second pass: EV_ENABLE cleared, the RX FIFO kept *)
    label "second";; for_each [0x14; 0x08; 0x0C; 0x00; 0x08] (fun off => lw "t2" off "s1");;
    put_char (ord "L") "wait_l";; label "done";; j "done";; label "handler";; csrr "s0" "mcause";;
    addi "s3" "s3" 1;; slli "s7" "s7" 8;; andi "t0" "s0" 0xFF;; add "s7" "s7" "t0";; li "t0" 0x8000000B;;
    beq "s0" "t0" "h_ext";; sw "zero" 0 "s2";; mret_;; label "h_ext";; lw "t0" 0x10 "s1";; lw "t6" 0x14 "s1";;
    word_of (r_type 0 "t6" "t0" 7 "t0" 0x33);; andi "t6" "t0" 2;; beqz "t6" "h_tx";; lbu "s5" 0 "s1";; mret_;;
    label "h_tx";; sw "zero" 0x14 "s1";; mret_).

(** ** RV32A *)

Definition AMO_LR : Z := 0x2.
Definition AMO_SC : Z := 0x3.
Definition AMO_OPS : list Z := [0x00; 0x01; 0x04; 0x08; 0x0C; 0x10; 0x14; 0x18; 0x1C].

(** The program [amo]. *)
Definition amo_program : res (list Z) :=
  rom_code_14k (
    la "t0" "handler";; csrw "mtvec" "t0";; li "s1" AMO_DATA;; li "s2" (AMO_DATA + XCACHE_D_BYTES);;
    li "s3" 0x40000000;;
    (* Every AMO on signed and unsigned orders; rd = the old word. The first misses the cache *)
    for_each [(5, 9); ((-5), 3); (7, 7); (0x7FFFFFFF, 0x80000000)] (fun '(old, src) =>
      for_each AMO_OPS (fun op => li "t1" old;; sw "t1" 0 "s1";; li "t2" src;; amo op "t3" "t2" "s1";;
      lw "t4" 0 "s1"));;
    (* rd = rs1, rd = rs2, rd = x0; the store goes to rs1s old value *)
    mv "t3" "s1";; li "t2" 2;; amo 0 "t3" "t2" "t3";; amo 0 "t2" "t2" "s1";; amo 0 "zero" "t2" "s1";;
    lw "t4" 0 "s1";;
    (* A miss with a dirty victim, and a miss with a clean one (the line just written back) *)
    amo 0x1 "t3" "t2" "s2";; amo 0x1 "t3" "t2" "s1";; amo AMO_LR "t3" "zero" "s2";; lw "t4" 0 "s2";;
    (* LR/SC: success, a second SC fails, another word fails, a word never reserved fails *)
    amo AMO_LR "t3" "zero" "s1";; li "t2" 0x55;; amo AMO_SC "t5" "t2" "s1";; amo AMO_SC "t5" "t2" "s1";;
    amo AMO_LR "t3" "zero" "s1";; addi "t1" "s1" 4;; amo AMO_SC "t5" "t2" "t1";; amo AMO_SC "t5" "t2" "s1";;
    (* A store doesnt clear the reservation; a trap does; rd = rs1 on an SC *)
    amo AMO_LR "t3" "zero" "s1";; sw "t2" 8 "s1";; amo AMO_SC "t5" "t2" "s1";; amo AMO_LR "t3" "zero" "s1";; ecall;;
    amo AMO_SC "t5" "t2" "s1";; amo AMO_LR "t3" "zero" "s1";; mv "t5" "s1";; amo AMO_SC "t5" "t2" "t5";;
    (* Misaligned: LR cause 4, SC and AMO cause 6, nothing written *)
    addi "t1" "s1" 1;; amo AMO_LR "t3" "zero" "t1";; amo AMO_SC "t3" "t2" "t1";; addi "t1" "s1" 2;;
    amo 0 "t3" "t2" "t1";;
    (* Illegal: another width, LR with rs2, an unknown funct5 *)
    word (Z.lor 0x0023B1AF (Z.shiftl 0x0 27));;
    word (Z.lor (Z.lor (Z.lor (Z.lor (Z.lor (Z.shiftl AMO_LR 27) (Z.shiftl 2 20)) (Z.shiftl 9 15)) (Z.shiftl 2 12)) (Z.shiftl 28 7)) 0x2F);;
    word (Z.lor (Z.lor (Z.lor (Z.lor (Z.lor (Z.shiftl 0x5 27) (Z.shiftl 7 20)) (Z.shiftl 9 15)) (Z.shiftl 2 12)) (Z.shiftl 28 7)) 0x2F);;
    (* The ROM: reads it, the store is ignored; unassigned (region 1): reads 0 *)
    li "t1" 0x10;; amo 0 "t3" "t2" "t1";; amo AMO_LR "t3" "zero" "t1";; amo AMO_SC "t5" "t2" "t1";;
    li "t1" 0x10000000;; amo 0 "t3" "t2" "t1";;
    (* A fetch that probes the line an AMO dirtied, with the routine on it: the store also
       drops the instruction line *)
    li "t1" AMO_CODE;; li "t2" 0x00008067;; amo 0x1 "t3" "t2" "t1";; jalr "ra" "t1" 0;;
    (* minstret counts each once: an AMO, LR, SC, a failed SC between two reads *)
    for_each [(0, "t3"); (AMO_LR, "t3"); (AMO_SC, "t5"); (AMO_SC, "t5")] (fun '(op, rd) =>
      csrr "a0" "minstret";; li "t2" 1;; amo op rd (if (op =? AMO_LR) then "zero" else "t2") "s1";;
      csrr "a1" "minstret");;
    (* In U, after an interrupt-free trip: LR/SC work and an AMO too *)
    la "t0" "user";; csrw "mepc" "t0";; li "t0" 0x1800;; csrc "mstatus" "t0";; mret_;; label "user";;
    amo AMO_LR "t3" "zero" "s1";; amo AMO_SC "t5" "t2" "s1";; amo 0 "t3" "t2" "s1";; ecall;;
    (* The UART: wait for the byte, an AMO pops it once and sends the sum *)
    label "rx_wait";; lw "t1" 8 "s3";; bnez "t1" "rx_wait";; li "t2" 1;; amo 0 "t3" "t2" "s3";; lw "t1" 8 "s3";;
    label "done";; j "done";; label "handler";; csrr "s4" "mcause";; csrr "s5" "mtval";; li "t0" 8;;
    beq "s4" "t0" "stay_m";; j "skip";; label "stay_m";; li "t0" 0x1800;; csrs "mstatus" "t0";; label "skip";;
    csrr "t0" "mepc";; addi "t0" "t0" 4;; csrw "mepc" "t0";; mret_).

(** ** RV32M *)

Definition MULDIV_PAIRS : list (Z * Z) := [
  (7, 2); (-7, 2); (7, -2); (-7, -2); (- Z.shiftl 1 31, -1); (- Z.shiftl 1 31, 1); (-7, 0); (5, 0); (-1, -1);
  (Z.shiftl 1 31 - 1, Z.shiftl 1 31 - 1); (- Z.shiftl 1 31, - Z.shiftl 1 31)].

(** The program [muldiv]: the ROM's words and the routine's bytes. *)
Definition muldiv_program : res (list Z * bytes) :=
  a ← build 0 (
    li "s1" 0x40000000;;
    for_each MULDIV_PAIRS (fun '(x, y) =>
      li "a0" x;; li "a1" y;; for_each MUL_OPS (fun op => muldiv op "a2" "a0" "a1"));;
    li "a0" (-12345);; li "a1" 77;; muldiv "mul" "a0" "a0" "a1";; muldiv "rem" "a1" "a0" "a1";;
    muldiv "divu" "a3" "a0" "a1";; csrrs "t0" "minstret" "zero";; csrrs "t1" "mcycle" "zero";;
    muldiv "mulhu" "zero" "a0" "a1";; li "t2" MULDIV_CODE;; jalr "ra" "t2" 0;; put_char (ord "M") "wait";;
    label "halt";; j "halt");
  r ← build MULDIV_CODE (
    li "a0" 0x12345678;; li "a1" (-3);; for_each MUL_OPS (fun op => muldiv op "a2" "a0" "a1");;
    jalr "zero" "ra" 0);
  code ← assemble r;
  py_assert (len code * 4 <=? 0x100);;
  words ← assemble a; img ← hack_image_bytes code; Ok (words, img).
