(* ===== verification/RandomRv.v ===== *)
(** * Random RV32IM programs

    sim/integration/lockstep_programs.py, [random_rv]: straight-line arithmetic, loads and
    stores around sp, loads of the mtime words, forward branches and jumps, counted loops, from a source of random
    numbers that may give anything. *)
From S2P Require Import Prelude Rv32Asm HackAsm Image Lockstep.
From stdpp Require Import pretty.
#[local] Open Scope Z_scope.

(** ** Random numbers *)

(** What the code uses of [random.Random], with what the documentation promises: values of
    [getrandbits k] have [k] bits, [randbelow n] (under [choice] and [randrange]) is below
    [n]; [random] is a multiple of 2^-53, given as that multiple. *)
Class Random (G : Type) := {
  getrandbits : Z -> G -> Z * G;
  randbelow : Z -> G -> Z * G;
  random : G -> Z * G;
  getrandbits_range k g : 0 <= k -> 0 <= (getrandbits k g).1 < 2 ^ k;
  randbelow_range n g : 0 < n -> 0 <= (randbelow n g).1 < n;
}.

(** Numbers from any function of the count of draws, reduced into their range. *)
Record stream := mkStream { draws : nat -> Z; drawn : nat }.
Definition next (s : stream) : Z * stream := (draws s (drawn s), mkStream (draws s) (S (drawn s))).

#[export] Program Instance stream_random : Random stream := {|
  getrandbits k s := let '(v, s) := next s in (v mod 2 ^ k, s);
  randbelow n s := let '(v, s) := next s in (v mod n, s);
  random s := let '(v, s) := next s in (v mod 2 ^ 53, s);
|}.
Next Obligation. intros k g Hk. apply Z.mod_pos_bound. lia. Qed.
Next Obligation. intros n g Hn. by apply Z.mod_pos_bound. Qed.

(** ** Constants *)

Definition R_OPS : list (Z * Z) := [(0, 0); (0x20, 0); (0, 1); (0, 2); (0, 3); (0, 4); (0, 5); (0x20, 5); (0, 6); (0, 7)].
Definition M_OPS : list (Z * Z) := map (fun f3 => (1, f3)) (range 0 8).
Definition I_OPS : list Z := [0; 2; 3; 4; 6; 7].
Definition DEST : list string := map (fstr "x") (filter (fun i => i ≠ 2) (range 1 30)).

(** [int(name[1:])] of a register's name [x<i>]. *)
Definition reg_number (name : string) : res Z :=
  match name with
  | String _ d => match list_find (fun i => fstr "" i = d) (range 0 32) with
                  | Some (_, i) => Ok i | None => Raise (ValueError "invalid literal for int() with base 10") end
  | EmptyString => Raise (ValueError "invalid literal for int() with base 10")
  end.

(** ** The program *)
Section Random.
Context {G : Type} `{Random G}.

(** Code for an assembler that draws numbers. *)
Definition rasm (A : Type) : Type := G -> asm (A * G).
#[export] Instance rasm_ret : MRet rasm := fun _ v g => mret (v, g).
#[export] Instance rasm_bind : MBind rasm := fun _ _ f m g a =>
  match m g a with Ok ((v, g), a) => f v g a | Raise e => Raise e end.
Definition does {A} (c : asm A) : rasm A := fun g a => match c a with Ok (v, a) => Ok ((v, g), a) | Raise e => Raise e end.
Definition draw {A} (f : G -> A * G) : rasm A := fun g a => Ok (f g, a).

(** [rnd.random() < num / den]. *)
Definition random_lt (r num den : Z) : bool := r * den <? num * 2 ^ 53.

(** [rnd.randrange(a, b)], [rnd.choice(l)], and whether [rnd.random() < num / den]. *)
Definition randrange (a b : Z) : rasm Z := k ← draw (randbelow (b - a)); mret (a + k).
Definition choice {A} (l : list A) : rasm A :=
  k ← draw (randbelow (len l)); does (lift (match l !! Z.to_nat k with Some x => Ok x | None => Raise IndexError end)).
Definition chance (num den : Z) : rasm bool := draw (fun g => let '(r, g) := random g in (random_lt r num den, g)).

(** [reg]. *)
Definition some_reg : rasm string := choice DEST.

Definition alu : rasm unit :=
  k ← randrange 0 5;
  if k =? 0 then
    m ← chance 1 3; '(f7, f3) ← choice (if m : bool then M_OPS else R_OPS);
    rs2 ← some_reg; rs1 ← some_reg; rd ← some_reg; does (word_of (r_type f7 rs2 rs1 f3 rd 0x33))
  else if k =? 1 then
    imm ← randrange (-2048) 2048; rs1 ← some_reg; f3 ← choice I_OPS; rd ← some_reg;
    does (word_of (i_type imm rs1 f3 rd 0x13))
  else if k =? 2 then
    '(f3, f7) ← choice [(1, 0); (5, 0); (5, 0x20)];
    sh ← randrange 0 32; rs1 ← some_reg; rd ← some_reg;
    does (word_of (w ← i_type 0 rs1 f3 rd 0x13; Ok (lor_all [Z.shiftl f7 25; Z.shiftl sh 20; w])))
  else if k =? 3 then rd ← some_reg; imm ← draw (getrandbits 20); does (lui rd imm)
  else rd ← some_reg; imm ← draw (getrandbits 20); does (auipc rd imm).

(** [for _ in range(n): alu()]. *)
Definition alus (n : Z) : rasm unit := for_each (range 0 n) (fun _ => alu).

(** A load or a store around sp. *)
Definition load_store : rasm unit :=
  size ← choice [1; 2; 4]; off0 ← randrange (-512) 512;
  let off := Z.land off0 (Z.lnot (size - 1)) in
  l ← chance 1 2;
  if l : bool then
    b ← choice [0; 4]; h ← choice [1; 5];
    let f3 := if size =? 1 then b else if size =? 2 then h else 2 in
    rd ← some_reg; does (word_of (i_type off "sp" f3 rd 0x03))
  else
    rs2 ← some_reg;
    does (if size =? 1 then sb rs2 off "sp" else if size =? 2 then sh rs2 off "sp" else sw rs2 off "sp").

(** A branch over a few instructions. *)
Definition forward_branch (b : Z) : rasm unit :=
  f3 ← choice [0; 1; 4; 5; 6; 7];
  let lbl := fstr "f" b in
  rs1 ← some_reg; rs2 ← some_reg;
  does (emit (Late (fun pc labels => t ← getitem (labels !! lbl); b_type (t - pc) rs2 rs1 f3)));;
  n ← randrange 1 4; alus n;; does (label lbl).

Definition counted_loop (b : Z) : rasm unit :=
  let lbl := fstr "l" b in
  v ← randrange 1 6; does (li "x31" v);; does (label lbl);;
  n ← randrange 1 4; alus n;; does (addi "x31" "x31" (-1));; does (bnez "x31" lbl).

Definition forward_jump (b : Z) : rasm unit :=
  let lbl := fstr "j" b in
  direct ← chance 1 2;
  (if direct : bool then rd ← some_reg; does (jal rd lbl)
   else t ← some_reg; does (la t lbl);; rd ← some_reg; does (jalr rd t 0));;
  alu;; does (label lbl).

(** A counter, or mtime. *)
Definition counter : rasm unit :=
  c ← chance 1 2;
  if c : bool then
    r ← some_reg; csr ← choice [0xB00; 0xB02; 0xC00; 0xC01; 0xC02; 0xB80; 0xC81];
    does (word_of (i ← reg_number r; Ok (csr_read i csr)))
  else rd ← some_reg; off ← choice [0; 4; 8]; does (lw rd off "x30").

Definition block (b : Z) : rasm unit :=
  k ← randrange 0 10;
  if k <? 4 then alu
  else if k <? 6 then load_store
  else if k =? 6 then forward_branch b
  else if k =? 7 then counted_loop b
  else if k =? 8 then forward_jump b
  else counter.

(** Registers set before the blocks. *)
Definition prologue (base : Z) : rasm unit :=
  does (li "sp" base);; does (li "x30" CLINT_MTIME);;
  for_each DEST (fun r => v ← draw (getrandbits 32); does (li r v)).

Definition random_code (blocks base : Z) : rasm unit :=
  prologue base;; for_each (range 0 blocks) block;; does (label "end");; does (j "end").

(** [random_rv(seed, blocks, base)], the seed's generator given. *)
Definition random_rv (rnd : G) (blocks base : Z) : res (list Z) :=
  let base := if base =? 0 then RV_DATA else base in
  rom_code_14k ('(_, _) ← random_code blocks base rnd; mret tt).

End Random.

(** ** What every word is *)

(** The register, offset and size of a load or a store, as the emulator's decoder has them. *)
Definition access (w : Z) : option (Z * Z * Z) :=
  let size := 2 ^ (Field.funct3 w mod 4) in
  if Z.land w 0x7F =? 0x03 then Some (Field.rs1 w, Field.i32 (Field.imm_i w), size)
  else if Z.land w 0x7F =? 0x23 then Some (Field.rs1 w, Field.i32 (Field.imm_s w), size) else None.

(** Aligned, within 512 bytes of sp (x2), or a load from the three words at mtime (x30). *)
Definition access_ok (w : Z) : Prop :=
  match access w with
  | Some (r, off, size) => off mod size = 0 /\
      (r = 2 /\ -512 <= off /\ off + size <= 512 \/ r = 30 /\ Z.land w 0x7F = 0x03 /\ 0 <= off <= 8)
  | None => True
  end.

(** Only stores and branches leave out rd; no other instruction writes x2 or x30. *)
Definition keeps_bases (w : Z) : Prop :=
  Z.land w 0x7F = 0x23 \/ Z.land w 0x7F = 0x63 \/ Field.rd w <> 2 /\ Field.rd w <> 30.

(** A branch goes at most three instructions ahead, or back on x31 being nonzero. *)
Definition branch_ok (w : Z) : Prop :=
  Z.land w 0x7F = 0x63 ->
  let off := Field.i32 (Field.imm_b w) in
  4 <= off <= 16 \/ (-16 <= off <= -4 /\ Field.rs1 w = 31 /\ Field.rs2 w = 0 /\ Field.funct3 w = 1).

Definition plain (w : Z) : Prop := 0 <= w < 2 ^ 32 /\ access_ok w /\ branch_ok w.
Definition good (w : Z) : Prop := plain w /\ keeps_bases w.

(** ** Code that emits words *)

(** [l] appended. *)
Definition push (l : list item) (a : Asm) : Asm := mkAsm (origin a) (items a ++ l) (labels a).

Lemma push_push l k a : push k (push l a) = push (l ++ k) a.
Proof. unfold push. cbn. by rewrite app_assoc. Qed.

(** Total correctness, whatever is drawn. *)
Section Wp.
Context {G : Type} `{Random G}.

Definition wp {A} (m : rasm A) (Q : A -> Asm -> Prop) (a : Asm) : Prop :=
  forall g : G, exists v g' a', m g a = Ok ((v, g'), a') /\ Q v a'.

Lemma wp_weaken {A} (m : rasm A) (Q R : A -> Asm -> Prop) a : wp m Q a -> (forall v a', Q v a' -> R v a') -> wp m R a.
Proof. intros Hm HR g. destruct (Hm g) as (v & g' & a' & Hr & HQ). exists v, g', a'. auto. Qed.

Lemma wp_bind {A B} (m : rasm A) (f : A -> rasm B) Q a :
  wp m (fun v a' => wp (f v) Q a') a -> wp (rasm_bind A B f m) Q a.
Proof.
  intros Hm g. destruct (Hm g) as (v & g' & a' & Hr & HQ). destruct (HQ g') as (u & g'' & a'' & Hr' & HR).
  exists u, g'', a''. unfold rasm_bind. rewrite Hr. auto.
Qed.

Lemma wp_does {A} (c : asm A) (Q : A -> Asm -> Prop) a v a' : c a = Ok (v, a') -> Q v a' -> wp (does c) Q a.
Proof. intros Hc HQ g. exists v, g, a'. unfold does. rewrite Hc. auto. Qed.

Lemma wp_draw {A} (f : G -> A * G) (Q : A -> Asm -> Prop) a : (forall g, Q (f g).1 a) -> wp (draw f) Q a.
Proof. intros Hf g. exists (f g).1, (f g).2, a. unfold draw. destruct (f g) eqn:E. specialize (Hf g). rewrite E in Hf. auto. Qed.

Lemma wp_chance num den (Q : bool -> Asm -> Prop) a : (forall c, Q c a) -> wp (chance num den) Q a.
Proof. intros HQ. apply wp_draw. intros g. destruct (random g). apply HQ. Qed.

Lemma wp_bits k (Q : Z -> Asm -> Prop) a :
  0 <= k -> (forall v, 0 <= v < 2 ^ k -> Q v a) -> wp (draw (getrandbits k)) Q a.
Proof. intros Hk HQ. apply wp_draw. intros g. apply HQ. by apply getrandbits_range. Qed.

Lemma wp_randrange lo hi (Q : Z -> Asm -> Prop) a :
  lo < hi -> (forall k, lo <= k < hi -> Q k a) -> wp (randrange lo hi) Q a.
Proof.
  intros Hlt HQ. unfold randrange. apply wp_bind, wp_draw. intros g.
  pose proof (randbelow_range (hi - lo) g ltac:(lia)) as Hr. intros g'. eexists _, g', a. split; [reflexivity|].
  apply HQ. lia.
Qed.

Lemma wp_choice {A} (l : list A) (Q : A -> Asm -> Prop) a :
  l <> [] -> (forall x, x ∈ l -> Q x a) -> wp (choice l) Q a.
Proof.
  intros Hl HQ. assert (Hlen : 0 < len l) by (destruct l; [done|]; rewrite len_cons; pose proof (len_nonneg l); lia).
  unfold choice. apply wp_bind, wp_draw. intros g. pose proof (randbelow_range (len l) g Hlen) as Hr.
  destruct (lookup_lt_is_Some_2 l (Z.to_nat (randbelow (len l) g).1)) as [x Hx]; [unfold len in *; lia|].
  eapply wp_does; [rewrite Hx; reflexivity|]. apply HQ. by eapply list_elem_of_lookup_2.
Qed.

(** Code that appends at most [n] words, all of them [P], and does nothing else. *)
Context (P : Z -> Prop).
Definition emits (n : Z) (m : rasm unit) : Prop :=
  forall a (Q : unit -> Asm -> Prop),
    (forall ws, len ws <= n -> Forall P ws -> Q tt (push (map Word ws) a)) -> wp m Q a.

Lemma emits_word (m : res Z) n w : 1 <= n -> m = Ok w -> P w -> emits n (does (emit_word m)).
Proof.
  intros Hn -> Hw a Q HQ. eapply wp_does; [reflexivity|]. apply (HQ [w]); [rewrite len_cons, len_nil; lia|by constructor].
Qed.

Lemma emits_word_of (m : res Z) n w : 1 <= n -> m = Ok w -> 0 <= w < 2 ^ 32 -> P w -> emits n (does (word_of m)).
Proof.
  intros Hn -> Hr Hw. assert (Heq : Z.land w 0xFFFFFFFF = w) by (rewrite (land_mask w 32) by lia; dlia).
  intros a Q HQ. eapply wp_does; [reflexivity|]. rewrite Heq.
  apply (HQ [w]); [rewrite len_cons, len_nil; lia|by constructor].
Qed.

Lemma emits_bind {A} (m : rasm A) (f : A -> rasm unit) n (R : A -> Prop) :
  (forall a (Q : A -> Asm -> Prop), (forall v, R v -> Q v a) -> wp m Q a) ->
  (forall v, R v -> emits n (f v)) -> emits n (rasm_bind A unit f m).
Proof. intros Hm Hf a Q HQ. apply wp_bind, Hm. intros v Hv. by apply Hf. Qed.

Lemma emits_seq n k m (m' : rasm unit) : emits n m -> emits k m' -> emits (n + k) (rasm_bind unit unit (fun _ => m') m).
Proof.
  intros Hm Hm' a Q HQ. apply wp_bind, Hm. intros ws Hn Hws. apply Hm'. intros ws' Hk Hws'. rewrite push_push, <- map_app.
  apply HQ; [rewrite len_app; lia|by apply Forall_app].
Qed.

Lemma emits_repeat {A} (l : list A) (f : A -> rasm unit) n :
  0 <= n -> (forall x, x ∈ l -> emits n (f x)) -> emits (n * len l) (for_each l f).
Proof.
  intros Hn. induction l as [|x l IH]; intros Hf; cbn [for_each].
  - intros a Q HQ g. exists tt, g, a. split; [done|]. specialize (HQ [] ltac:(unfold len; cbn; lia) ltac:(constructor)).
    unfold push in HQ. cbn in HQ. rewrite app_nil_r in HQ. by destruct a.
  - rewrite len_cons. replace (n * (1 + len l)) with (n + n * len l) by lia.
    apply emits_seq; [apply Hf; by left|]. apply IH. intros y Hy. apply Hf. by right.
Qed.

Lemma emits_choice {A} (l : list A) (f : A -> rasm unit) n :
  l <> [] -> (forall x, x ∈ l -> emits n (f x)) -> emits n (rasm_bind A unit f (choice l)).
Proof. intros Hl Hf. apply (emits_bind _ _ _ (fun x => x ∈ l)); [|done]. intros a Q HQ. by apply wp_choice. Qed.

Lemma emits_range lo hi (f : Z -> rasm unit) n :
  lo < hi -> (forall k, lo <= k < hi -> emits n (f k)) -> emits n (rasm_bind Z unit f (randrange lo hi)).
Proof. intros Hl Hf. apply (emits_bind _ _ _ (fun k => lo <= k < hi)); [|done]. intros a Q HQ. by apply wp_randrange. Qed.

Lemma emits_chance num den (f : bool -> rasm unit) n :
  (forall c, emits n (f c)) -> emits n (rasm_bind bool unit f (chance num den)).
Proof. intros Hf. apply (emits_bind _ _ _ (fun _ => True)); [|done]. intros a Q HQ. apply wp_chance. auto. Qed.

Lemma emits_bits k (f : Z -> rasm unit) n :
  0 <= k -> (forall v, 0 <= v < 2 ^ k -> emits n (f v)) -> emits n (rasm_bind Z unit f (draw (getrandbits k))).
Proof. intros Hk Hf. apply (emits_bind _ _ _ (fun v => 0 <= v < 2 ^ k)); [|done]. intros a Q HQ. by apply wp_bits. Qed.

(** A register drawn: never x0, x2, x30 or x31. *)
Definition dest (name : string) (r : Z) : Prop := reg name = Ok r /\ 1 <= r < 30 /\ r <> 2 /\ reg_number name = Ok r.

Lemma DEST_dest name : name ∈ DEST -> exists r, dest name r.
Proof.
  intros Hn.
  assert (Hall : forallb (fun name => match reg name, reg_number name with
      | Ok r, Ok r' => (1 <=? r) && (r <? 30) && negb (r =? 2) && (r =? r') | _, _ => false end) DEST = true)
    by (vm_compute; reflexivity).
  rewrite forallb_forall in Hall. specialize (Hall name (proj1 (list_elem_of_In _ _) Hn)).
  destruct (reg name) as [r|] eqn:Er; [|done]. destruct (reg_number name) as [r'|] eqn:En; [|done].
  exists r. unfold dest. rewrite Er, En. split_and!; try done; try lia. f_equal. lia.
Qed.

Lemma wp_reg (Q : string -> Asm -> Prop) a : (forall name r, dest name r -> Q name a) -> wp some_reg Q a.
Proof.
  intros HQ. apply wp_choice; [done|]. intros name Hn. destruct (DEST_dest name Hn) as [r Hr]. by eapply HQ.
Qed.

Lemma emits_reg (f : string -> rasm unit) n :
  (forall name r, dest name r -> emits n (f name)) -> emits n (rasm_bind string unit f some_reg).
Proof.
  intros Hf. apply (emits_bind _ _ _ (fun name => exists r, dest name r)); [|intros name [r Hr]; by eapply Hf].
  intros a Q HQ. apply wp_reg. eauto.
Qed.

End Wp.

(** ** The words of each kind *)

Lemma good_opcode w :
  0 <= w < 2 ^ 32 -> Z.land w 0x7F <> 0x03 -> Z.land w 0x7F <> 0x23 -> Z.land w 0x7F <> 0x63 ->
  Field.rd w <> 2 -> Field.rd w <> 30 -> good w.
Proof.
  intros Hw H1 H2 H3 Hr Hr'. split; [|by right; right]. split; [done|]. split; [|by intros Hb; destruct H3]. unfold access_ok, access.
  rewrite (proj2 (Z.eqb_neq _ _) H1), (proj2 (Z.eqb_neq _ _) H2). exact I.
Qed.

Lemma plain_opcode w : 0 <= w < 2 ^ 32 -> Z.land w 0x7F <> 0x03 -> Z.land w 0x7F <> 0x23 -> Z.land w 0x7F <> 0x63 -> plain w.
Proof.
  intros Hw H1 H2 H3. split; [done|]. split; [|by intros Hb; destruct H3]. unfold access_ok, access.
  rewrite (proj2 (Z.eqb_neq _ _) H1), (proj2 (Z.eqb_neq _ _) H2). exact I.
Qed.

Lemma r_good f7 rs2 rs1 f3 rd a c r :
  0 <= f7 < 128 -> 0 <= f3 < 8 -> reg rs2 = Ok a -> reg rs1 = Ok c -> dest rd r ->
  exists w, r_type f7 rs2 rs1 f3 rd 0x33 = Ok w /\ 0 <= w < 2 ^ 32 /\ good w.
Proof.
  intros Hf7 Hf3 Ha Hc (Hr & Hr1 & Hr2 & _). eexists. split; [unfold r_type; rewrite Ha, Hc, Hr; reflexivity|].
  edestruct (r_decodes f7 rs2 rs1 f3 rd 0x33) as (Hw & Hop & _ & _ & _ & _ & Hd);
    [cbn [fields_fit]; lia|unfold r_type; rewrite Ha, Hc, Hr; reflexivity|].
  rewrite Hr in Hd. apply Ok_inj in Hd. split; [done|]. apply good_opcode; rewrite ?Hop, <- ?Hd; lia.
Qed.

Lemma fits_signed v n : 1 <= n -> - 2 ^ (n - 1) <= v < 2 ^ (n - 1) -> signed_fits v n = true.
Proof. intros Hn Hv. unfold signed_fits. rewrite shiftl_mul by lia. lia. Qed.

Lemma i_ok imm rs1 f3 rd op a r :
  -2048 <= imm < 2048 -> 0 <= f3 < 8 -> 0 <= op < 128 -> reg rs1 = Ok a -> reg rd = Ok r ->
  exists w, i_type imm rs1 f3 rd op = Ok w /\ decodes (FI imm rs1 f3 rd op) w.
Proof.
  intros Hi Hf3 Hop Ha Hr. assert (Hs : signed_fits imm 12 = true) by (apply fits_signed; lia).
  assert (Hok : exists w, i_type imm rs1 f3 rd op = Ok w) by (unfold i_type; rewrite Hs, Ha, Hr; eexists; reflexivity).
  destruct Hok as [w Hw]. exists w. split; [done|]. apply i_decodes; [cbn [fields_fit]; lia|done].
Qed.

Lemma i_good imm rs1 f3 rd op a r :
  -2048 <= imm < 2048 -> 0 <= f3 < 8 -> op = 0x13 \/ op = 0x67 -> reg rs1 = Ok a -> reg rd = Ok r -> r <> 2 -> r <> 30 ->
  exists w, i_type imm rs1 f3 rd op = Ok w /\ 0 <= w < 2 ^ 32 /\ good w.
Proof.
  intros Hi Hf3 Hop Ha Hr H2 H30. destruct (i_ok imm rs1 f3 rd op a r) as (w & Hw & Hw32 & Ho & _ & _ & _ & Hd); [lia|lia|lia|done|done|].
  exists w. rewrite Hr in Hd. apply Ok_inj in Hd. split; [done|]. split; [done|].
  apply good_opcode; rewrite ?Ho, <- ?Hd; try lia; destruct Hop as [-> | ->]; lia.
Qed.

Lemma u_ok imm rd op r : 0 <= op < 128 -> reg rd = Ok r -> exists w, u_type imm rd op = Ok w /\ decodes (FU imm rd op) w.
Proof.
  intros Hop Hr. assert (Hok : exists w, u_type imm rd op = Ok w) by (unfold u_type; rewrite Hr; eexists; reflexivity).
  destruct Hok as [w Hw]. exists w. split; [done|]. apply u_decodes; [cbn [fields_fit]; lia|done].
Qed.

Lemma u_good imm rd op r :
  op = 0x37 \/ op = 0x17 -> reg rd = Ok r -> r <> 2 -> r <> 30 -> exists w, u_type imm rd op = Ok w /\ 0 <= w < 2 ^ 32 /\ good w.
Proof.
  intros Hop Hr H2 H30. destruct (u_ok imm rd op r) as (w & Hw & Hw32 & Ho & _ & Hd); [destruct Hop; lia|done|].
  exists w. rewrite Hr in Hd. apply Ok_inj in Hd. split; [done|]. split; [done|].
  apply good_opcode; rewrite ?Ho, <- ?Hd; try lia; destruct Hop as [-> | ->]; lia.
Qed.

(** A shift: an [i_type] word with the amount and bit 30 put in. *)
Lemma shift_good f7 sh rs1 f3 rd a r :
  f7 = 0 \/ f7 = 0x20 -> 0 <= sh < 32 -> f3 = 1 \/ f3 = 5 -> reg rs1 = Ok a -> dest rd r ->
  exists w, (w ← i_type 0 rs1 f3 rd 0x13; Ok (lor_all [Z.shiftl f7 25; Z.shiftl sh 20; w])) = Ok w /\ 0 <= w < 2 ^ 32 /\ good w.
Proof.
  intros Hf7 Hsh Hf3 Ha (Hr & Hr1 & Hr2 & _). assert (Hf : 0 <= f3 < 8) by lia.
  destruct (i_good (f7 * 2 ^ 5 + sh) rs1 f3 rd 0x13 a r) as (w & Hw & Hw32 & Hg); try done; try lia.
  exists w. split; [|done]. rewrite <- Hw. clear w Hw Hw32 Hg. pose proof (reg_range _ _ Ha) as Har. pose proof (reg_range _ _ Hr) as Hrr.
  unfold i_type. rewrite Ha, Hr. assert (Hs : signed_fits (f7 * 2 ^ 5 + sh) 12 = true) by (apply fits_signed; lia).
  rewrite Hs. change (signed_fits 0 12) with true. cbn [py_assert mbind res_bind]. f_equal.
  change (Z.land 0 0xFFF) with 0. rewrite (land_mask _ 12), Z.mod_small by lia. rewrite !i_word by lia.
  unfold lor_all. cbn [fold_left]. rewrite !shiftl_mul by lia.
  rewrite (lor_add (f7 * 2 ^ 25) _ 25) by (destruct Hf7 as [-> | ->]; dlia).
  rewrite (lor_add (f7 * 2 ^ 25 + sh * 2 ^ 20) _ 20) by (destruct Hf7 as [-> | ->]; dlia). lia.
Qed.

(** Rounding an offset down to an access's size. *)
Lemma align_down off size k : size = 2 ^ k -> 0 <= k <= 9 -> -512 <= off < 512 ->
  let o := Z.land off (Z.lnot (size - 1)) in o mod size = 0 /\ -512 <= o /\ o + size <= 512.
Proof.
  intros -> Hk Hoff o. assert (Ho : o = off / 2 ^ k * 2 ^ k).
  { unfold o. rewrite <- Z.ldiff_land. replace (2 ^ k - 1) with (Z.ones k) by (rewrite Z.ones_equiv; lia).
    rewrite Z.ldiff_ones_r, shiftl_mul, shiftr_div by lia. done. }
  assert (H9 : 512 = 2 ^ k * 2 ^ (9 - k)) by (rewrite <- Z.pow_add_r by lia; by replace (k + (9 - k)) with 9 by lia).
  pose proof (Z.pow_pos_nonneg 2 k ltac:(lia) ltac:(lia)) as Hp. rewrite Ho. split; [apply Z.mod_mul; lia|].
  rewrite H9 in Hoff |- *. pose proof (Z.div_lt_upper_bound off (2 ^ k) (2 ^ (9 - k)) Hp ltac:(lia)).
  pose proof (Z.div_le_lower_bound off (2 ^ k) (- 2 ^ (9 - k)) Hp ltac:(lia)). nia.
Qed.

Lemma i32_u32 v : - 2 ^ 31 <= v < 2 ^ 31 -> Field.i32 (Field.u32 v) = v.
Proof. intros Hv. unfold Field.i32, Field.u32. destruct (Z.ltb_spec (v mod 2 ^ 32) (2 ^ 31)); dlia. Qed.

Lemma sp_reg : reg "sp" = Ok 2.
Proof. vm_compute. reflexivity. Qed.
Lemma x30_reg : reg "x30" = Ok 30.
Proof. vm_compute. reflexivity. Qed.
Lemma x31_reg : reg "x31" = Ok 31.
Proof. vm_compute. reflexivity. Qed.
Lemma zero_reg : reg "zero" = Ok 0.
Proof. vm_compute. reflexivity. Qed.

(** An offset that keeps an access of the size funct3 gives around sp. *)
Definition around (f3 off : Z) : Prop :=
  0 <= f3 < 8 /\ off mod 2 ^ (f3 mod 4) = 0 /\ -512 <= off /\ off + 2 ^ (f3 mod 4) <= 512.

Lemma load_good off f3 rd r : around f3 off -> dest rd r ->
  exists w, i_type off "sp" f3 rd 0x03 = Ok w /\ 0 <= w < 2 ^ 32 /\ good w.
Proof.
  intros (Hf3 & Hal & Hlo & Hhi) (Hr & Hr1 & Hr2 & _). pose proof (Z.pow_pos_nonneg 2 (f3 mod 4) ltac:(lia) ltac:(dlia)) as Hp.
  destruct (i_ok off "sp" f3 rd 0x03 2 r) as (w & Hw & Hw32 & Ho & Hi & Hs & Hf & Hd); [lia|lia|lia|done|done|].
  exists w. rewrite Hr in Hd. apply Ok_inj in Hd. rewrite sp_reg in Hs. apply Ok_inj in Hs.
  split; [done|]. split; [done|]. split; [split; [done|]; split|right; right; rewrite <- Hd; lia].
  - unfold access_ok, access. rewrite Ho, Hi, <- Hs, Hf, i32_u32 by lia. change (0x03 =? 0x03) with true. cbv iota. auto.
  - unfold branch_ok. rewrite Ho. discriminate.
Qed.

Lemma mtime_good off rd r : 0 <= off <= 8 -> off mod 4 = 0 -> dest rd r ->
  exists w, i_type off "x30" 2 rd 0x03 = Ok w /\ 0 <= w < 2 ^ 32 /\ good w.
Proof.
  intros Hoff Hal (Hr & Hr1 & Hr2 & _).
  destruct (i_ok off "x30" 2 rd 0x03 30 r) as (w & Hw & Hw32 & Ho & Hi & Hs & Hf & Hd); [lia|lia|lia|done|done|].
  exists w. rewrite Hr in Hd. apply Ok_inj in Hd. rewrite x30_reg in Hs. apply Ok_inj in Hs.
  split; [done|]. split; [done|]. split; [split; [done|]; split|right; right; rewrite <- Hd; lia].
  - unfold access_ok, access. rewrite Ho, Hi, <- Hs, Hf, i32_u32 by lia. change (0x03 =? 0x03) with true. cbv iota. auto.
  - unfold branch_ok. rewrite Ho. discriminate.
Qed.

Lemma store_good off f3 rs2 r : around f3 off -> dest rs2 r ->
  exists w, s_type off rs2 "sp" f3 = Ok w /\ 0 <= w < 2 ^ 32 /\ good w.
Proof.
  intros (Hf3 & Hal & Hlo & Hhi) (Hr & Hr1 & Hr2 & _). pose proof (Z.pow_pos_nonneg 2 (f3 mod 4) ltac:(lia) ltac:(dlia)) as Hp.
  assert (Hok : exists w, s_type off rs2 "sp" f3 = Ok w).
  { unfold s_type. rewrite fits_signed by lia. rewrite Hr, sp_reg. eexists. reflexivity. }
  destruct Hok as [w Hw]. destruct (s_decodes off rs2 "sp" f3 w) as (Hw32 & Ho & Hi & _ & Hs & Hf); [cbn [fields_fit]; lia|done|].
  exists w. rewrite sp_reg in Hs. apply Ok_inj in Hs. split; [done|]. split; [done|]. split; [split; [done|]; split|by left].
  - unfold access_ok, access. rewrite Ho, Hi, <- Hs, Hf, i32_u32 by lia. change (0x23 =? 0x03) with false.
    change (0x23 =? 0x23) with true. cbv iota. auto.
  - unfold branch_ok. rewrite Ho. discriminate.
Qed.

Lemma csr_good i csr : 0 <= i < 32 -> i <> 2 -> i <> 30 -> 0 <= csr < 2 ^ 12 ->
  0 <= csr_read i csr < 2 ^ 32 /\ good (csr_read i csr).
Proof.
  intros Hi H2 H30 Hc. unfold csr_read.
  replace (lor_all _) with (lor_all [Z.shiftl csr 20; Z.shiftl 0 15; Z.shiftl 2 12; Z.shiftl i 7; 0x73])
    by (unfold lor_all; cbn [fold_left]; by rewrite Z.shiftl_0_l, Z.lor_0_r).
  rewrite i_word by lia. set (w := _ + 0x73). assert (Hw : 0 <= w < 2 ^ 32) by (unfold w; lia).
  destruct (field_arith w) as (Hd & _ & _ & _ & _ & Ho). split; [done|].
  assert (Ho' : Z.land w 0x7F = 0x73) by (rewrite Ho; unfold w; dlia).
  assert (Hd' : Field.rd w = i) by (rewrite Hd; unfold w; dlia).
  apply good_opcode; rewrite ?Ho', ?Hd'; done.
Qed.

(** ** Blocks that only emit words *)
Section Blocks.
Context {G : Type} `{Random G}.

Lemma emits_among {A} (R : A -> Prop) P (l : list A) (f : A -> rasm (G := G) unit) n :
  l <> [] -> Forall R l -> (forall x, R x -> emits P n (f x)) -> emits P n (rasm_bind A unit f (choice l)).
Proof. intros Hl HR Hf. apply (emits_choice P); [done|]. intros x Hx. apply Hf. by eapply Forall_forall in HR. Qed.

(** Steps of code that draws. *)
Ltac draws :=
  repeat match goal with
  | |- emits _ _ (_ ≫= _) => first
      [apply (emits_reg good); intros ?name ?r ?Hname |apply (emits_chance good); intros ?c
      |apply (emits_range good); [lia|intros ?k ?Hk]|apply (emits_bits good); [lia|intros ?v ?Hv]]
  end.

Lemma dest_reg name r : dest name r -> reg name = Ok r.
Proof. by intros []. Qed.
Lemma dest_ne name r : dest name r -> r <> 2 /\ r <> 30 /\ 0 <= r < 32.
Proof. intros (_ & ? & ? & _). lia. Qed.

Lemma emits_alu : emits good 1 (alu (G := G)).
Proof.
  unfold alu. apply (emits_range good); [lia|]. intros k Hk.
  destruct (k =? 0); [|destruct (k =? 1); [|destruct (k =? 2); [|destruct (k =? 3)]]].
  - apply (emits_chance good). intros m.
    apply (emits_among (fun x => 0 <= x.1 < 128 /\ 0 <= x.2 < 8)); [by destruct m|destruct m; repeat constructor; cbn; lia|].
    intros [f7 f3] [Hf7 Hf3]. cbn in Hf7, Hf3. draws.
    destruct (r_good f7 name name0 f3 name1 r r0 r1) as (w & Hw & Hr & Hg); try done; try by apply dest_reg.
    by apply (emits_word_of good _ _ w).
  - draws. apply (emits_among (fun x => 0 <= x < 8)); [done|repeat constructor; lia|]. intros f3 Hf3. draws.
    pose proof (dest_ne _ _ Hname0) as (? & ? & ?).
    destruct (i_good k0 name f3 name0 0x13 r r0) as (w & Hw & Hr & Hg); try done; try by apply dest_reg. { by left. }
    by apply (emits_word_of good _ _ w).
  - apply (emits_among (fun x => (x.1 = 1 \/ x.1 = 5) /\ (x.2 = 0 \/ x.2 = 0x20))); [done|repeat constructor; cbn; lia|].
    intros [f3 f7] [Hf3 Hf7]. cbn in Hf3, Hf7. draws.
    destruct (shift_good f7 k0 name f3 name0 r r0) as (w & Hw & Hr & Hg); try done; try by apply dest_reg.
    by apply (emits_word_of good _ _ w).
  - draws. pose proof (dest_ne _ _ Hname) as (? & ? & ?).
    destruct (u_good v name 0x37 r) as (w & Hw & Hr & Hg); try done; try by apply dest_reg. { by left. }
    by apply (emits_word good _ _ w).
  - draws. pose proof (dest_ne _ _ Hname) as (? & ? & ?).
    destruct (u_good v name 0x17 r) as (w & Hw & Hr & Hg); try done; try by apply dest_reg. { by right. }
    by apply (emits_word good _ _ w).
Qed.

Lemma emits_alus n : 0 <= n -> emits good n (alus (G := G) n).
Proof.
  intros Hn. unfold alus. replace n with (1 * len (range 0 n)) at 1.
  - apply (emits_repeat good); [lia|]. intros x _. apply emits_alu.
  - unfold len, range. rewrite length_map, length_seq. lia.
Qed.

Lemma emits_load_store : emits good 1 (load_store (G := G)).
Proof.
  unfold load_store.
  apply (emits_among (fun x => x = 2 ^ 0 \/ x = 2 ^ 1 \/ x = 2 ^ 2)); [done|repeat constructor; lia|]. intros size Hsize.
  apply (emits_range good); [lia|]. intros off0 Hoff. set (off := Z.land off0 _).
  assert (Ha : forall f3, 0 <= f3 < 8 -> size = 2 ^ (f3 mod 4) -> around f3 off).
  { intros f3 Hf3 ->. split; [done|]. apply (align_down off0 _ (f3 mod 4)); [done|dlia|done]. }
  clearbody off. apply (emits_chance good). intros [|].
  - apply (emits_among (fun b => b = 0 \/ b = 4)); [done|repeat constructor; lia|]. intros b Hb.
    apply (emits_among (fun h => h = 1 \/ h = 5)); [done|repeat constructor; lia|]. intros h Hh. draws.
    destruct (load_good off (if size =? 1 then b else if size =? 2 then h else 2) name r) as (w & Hw & Hr & Hg);
      [apply Ha|done|by apply (emits_word_of good _ _ w)];
      destruct Hsize as [-> | [-> | ->]]; cbn; destruct Hb as [-> | ->], Hh as [-> | ->]; done.
  - draws. destruct Hsize as [-> | [-> | ->]]; cbn [Z.eqb Z.pow]; unfold sb, sh, sw.
    + destruct (store_good off 0 name r) as (w & Hw & Hr & Hg); [by apply Ha|done|]. by apply (emits_word good _ _ w).
    + destruct (store_good off 1 name r) as (w & Hw & Hr & Hg); [by apply Ha|done|]. by apply (emits_word good _ _ w).
    + destruct (store_good off 2 name r) as (w & Hw & Hr & Hg); [by apply Ha|done|]. by apply (emits_word good _ _ w).
Qed.

Lemma emits_counter : emits good 1 (counter (G := G)).
Proof.
  unfold counter. apply (emits_chance good). intros [|]; draws.
  - apply (emits_among (fun csr => 0 <= csr < 2 ^ 12)); [done|repeat constructor; lia|]. intros csr Hcsr.
    destruct (dest_ne _ _ Hname) as (? & ? & ?). destruct Hname as (_ & _ & _ & Hn).
    destruct (csr_good r csr) as [Hr Hg]; try done. apply (emits_word_of good _ _ (csr_read r csr)); [lia| |done..].
    by rewrite Hn.
  - apply (emits_among (fun off => 0 <= off <= 8 /\ off mod 4 = 0)); [done|repeat constructor; lia|]. intros off [Hoff Hal].
    destruct (mtime_good off name r) as (w & Hw & Hr & Hg); try done. by apply (emits_word good _ _ w).
Qed.

Lemma lo12_range v : -2048 <= lo12 v < 2048.
Proof.
  unfold lo12. cbv zeta. rewrite (land_mask v 12), (land_masked _ 0x800 11 1) by lia.
  destruct (Z.eqb_spec (v mod 2 ^ 12 / 2 ^ 11 mod 2 ^ 1 * 2 ^ 11) 0); cbn [negb]; dlia.
Qed.

(** [li]: one word or two. *)
Lemma emits_li P rd r v :
  reg rd = Ok r ->
  (forall w, Z.land w 0x7F = 0x13 \/ Z.land w 0x7F = 0x37 -> Field.rd w = r -> 0 <= w < 2 ^ 32 -> P w) ->
  emits P 2 (does (G := G) (li rd v)).
Proof.
  intros Hr HP. pose proof (reg_range _ _ Hr) as Hrr. unfold li. cbv zeta.
  assert (Hi : forall imm rs1 a, -2048 <= imm < 2048 -> reg rs1 = Ok a -> exists w, i_type imm rs1 0 rd 0x13 = Ok w /\ P w).
  { intros imm rs1 a Himm Ha. destruct (i_ok imm rs1 0 rd 0x13 a r) as (w & Hw & Hw32 & Ho & _ & _ & _ & Hd); [lia|lia|lia|done|done|].
    exists w. split; [done|]. rewrite Hr in Hd. apply Ok_inj in Hd. apply HP; auto. }
  assert (Hu : forall imm, exists w, u_type imm rd 0x37 = Ok w /\ P w).
  { intros imm. destruct (u_ok imm rd 0x37 r) as (w & Hw & Hw32 & Ho & _ & Hd); [lia|done|].
    exists w. split; [done|]. rewrite Hr in Hd. apply Ok_inj in Hd. apply HP; auto. }
  set (value := Z.land v _). set (signed := if negb (Z.land value 0x80000000 =? 0) then _ else _).
  destruct (signed_fits signed 12) eqn:Hf.
  - apply signed_fits_range in Hf; [|lia]. destruct (Hi signed "zero"%string 0) as (w & Hw & HPw); [lia|done|].
    apply (emits_word P _ _ w); [lia|done|done].
  - pose proof (lo12_range value) as Hlo. unfold lo12 in Hlo. cbv zeta in Hlo.
    set (lo := if negb (Z.land (Z.land value 0xFFF) 0x800 =? 0) then _ else _) in *.
    destruct (Hu (Z.land (Z.shiftr (value - lo) 12) 0xFFFFF)) as (w & Hw & HPw).
    destruct (Hi lo rd r Hlo Hr) as (w' & Hw' & HPw').
    intros a Q HQ. destruct (lo =? 0) eqn:Hz; cbn [negb].
    + eapply wp_does; [cbn; unfold lui, emit_word; rewrite Hw; reflexivity|]. apply (HQ [w]); [unfold len; cbn; lia|by constructor].
    + eapply wp_does; [unfold lui, addi, emit_word; cbn; rewrite Hw; cbn; rewrite Hw'; reflexivity|].
      cbn [items origin labels]. rewrite <- app_assoc. apply (HQ [w; w']); [unfold len; cbn; lia|by repeat constructor].
Qed.

End Blocks.

(** ** Blocks with labels *)

(** An item whose word is [P] whatever labels come later. *)
Definition settled (P : Z -> Prop) (ls : gmap string Z) (i : nat) (it : item) : Prop :=
  exists w, P w /\ forall ls', ls ⊆ ls' -> assemble_item (4 * Z.of_nat i) ls' it = Ok w.
(** Items from position [i] on. *)
Definition settles (P : Z -> Prop) (ls : gmap string Z) (i : nat) (l : list item) : Prop :=
  forall k it, l !! k = Some it -> settled P ls (i + k) it.

Lemma settles_nil P ls i : settles P ls i [].
Proof. by intros k it Hk. Qed.
Lemma settles_cons P ls i it l : settled P ls i it -> settles P ls (S i) l -> settles P ls i (it :: l).
Proof.
  intros Hit Hl [|k] it' Hk; cbn in Hk.
  - injection Hk as <-. by rewrite Nat.add_0_r.
  - replace (i + S k)%nat with (S i + k)%nat by lia. by apply Hl.
Qed.
Lemma settles_app P ls i l k : settles P ls i l -> settles P ls (i + length l) k -> settles P ls i (l ++ k).
Proof.
  intros Hl Hk n it Hn. apply lookup_app_Some in Hn as [Hn | [Hle Hn]]; [by apply Hl|].
  replace (i + n)%nat with (i + length l + (n - length l))%nat by lia. by apply Hk.
Qed.
Lemma settles_words (P : Z -> Prop) ls i ws : Forall P ws -> settles P ls i (map Word ws).
Proof.
  intros Hws k it Hk. apply list_lookup_fmap_Some in Hk as (w & -> & Hw). exists w.
  split; [by eapply Forall_lookup_1|done].
Qed.
Lemma settles_mono (P P' : Z -> Prop) ls ls' i l :
  ls ⊆ ls' -> (forall w, P w -> P' w) -> settles P ls i l -> settles P' ls' i l.
Proof.
  intros Hls HP Hl k it Hk. destruct (Hl k it Hk) as (w & Hw & Hall). exists w. split; [by apply HP|].
  intros ls'' Hls''. apply Hall. by etrans.
Qed.

(** A name some block before [n] made. *)
Definition used_name (n : Z) (name : string) : Prop := exists c b, name = String c (pretty b) /\ c <> "e"%char /\ 0 <= b < n.

(** The assembler after [n] blocks: a prologue of plain words, good ones after it, at most
    [m] in all. *)
Record Inv (p : nat) (n m : Z) (a : Asm) : Prop := mkInv {
  inv_origin : origin a = 0;
  inv_pro : exists pro l, items a = pro ++ l /\ length pro = p /\ settles plain (labels a) 0 pro /\ settles good (labels a) p l;
  inv_len : len (items a) <= m;
  inv_names : forall name, is_Some (labels a !! name) -> used_name n name;
}.

Lemma inv_extend p n m a n' l ls' k :
  Inv p n m a -> n <= n' -> labels a ⊆ ls' -> (forall name, is_Some (ls' !! name) -> used_name n' name) ->
  settles good ls' (length (items a)) l -> len l <= k -> Inv p n' (m + k) (mkAsm 0 (items a ++ l) ls').
Proof.
  intros [Ho (pro & l0 & Hi & Hp & Hpro & Hl0) Hlen Hn] Hle Hls Hn' Hl Hk. split; cbn [origin items labels].
  - done.
  - exists pro, (l0 ++ l). rewrite Hi, app_assoc. split_and!; [done|done|by eapply settles_mono|].
    apply settles_app; [by eapply settles_mono|]. rewrite Hi, length_app, Hp in Hl. done.
  - rewrite len_app. lia.
  - done.
Qed.

Lemma used_more n n' name : used_name n name -> n <= n' -> used_name n' name.
Proof. intros (c & b & -> & Hc & Hb) Hle. exists c, b. split; [done|]. split; [done|lia]. Qed.

Lemma used_fresh n c (ls : gmap string Z) : (forall name, is_Some (ls !! name) -> used_name n name) -> ls !! String c (pretty n) = None.
Proof.
  intros Hn. destruct (ls !! String c (pretty n)) eqn:E; [|done]. exfalso.
  destruct (Hn (String c (pretty n))) as (c' & b & [= _ Heq] & _ & Hb); [by eexists|]. apply (inj pretty) in Heq. lia.
Qed.

Lemma inv_label p n m a l c v k :
  Inv p n m a -> 0 <= n -> c <> "e"%char -> settles good (<[String c (pretty n) := v]> (labels a)) (length (items a)) l -> len l <= k ->
  Inv p (n + 1) (m + k) (mkAsm 0 (items a ++ l) (<[String c (pretty n) := v]> (labels a))).
Proof.
  intros HI Hn Hc Hl Hk. eapply inv_extend; [done|lia| |  |done|done].
  - apply insert_subseteq, used_fresh. apply HI.
  - intros name Hs. destruct (decide (name = String c (pretty n))) as [->|Hne].
    + exists c, n. split; [done|]. split; [done|lia].
    + rewrite lookup_insert_ne in Hs by done. apply (used_more n); [by apply HI|lia].
Qed.

Section Labels.
Context {G : Type} `{Random G}.

Lemma wp_label name (Q : unit -> Asm -> Prop) a :
  labels a !! name = None -> Q tt (mkAsm (origin a) (items a) (<[name := here a]> (labels a))) ->
  wp (G := G) (does (label name)) Q a.
Proof. intros Hn HQ. eapply wp_does; [|exact HQ]. unfold label. by rewrite bool_decide_true by done. Qed.

Lemma inv_words p n m a ws k : Inv p n m a -> Forall good ws -> len ws <= k -> Inv p (n + 1) (m + k) (push (map Word ws) a).
Proof.
  intros HI Hws Hk. unfold push. rewrite (inv_origin _ _ _ _ HI). eapply inv_extend; [done|lia|done| | |].
  - intros name Hs. eapply used_more; [by apply HI|lia].
  - by apply settles_words.
  - unfold len in *. by rewrite length_map.
Qed.

Lemma branch_settled lbl f3 rs1 rs2 a c t ls (i : nat) :
  0 <= f3 < 8 -> reg rs1 = Ok a -> reg rs2 = Ok c -> ls !! lbl = Some t ->
  (let off := t - 4 * Z.of_nat i in off mod 4 = 0 /\
     (4 <= off <= 16 \/ -16 <= off <= -4 /\ a = 31 /\ c = 0 /\ f3 = 1)) ->
  settled good ls i (Late (fun pc labels => t ← getitem (labels !! lbl); b_type (t - pc) rs2 rs1 f3)).
Proof.
  intros Hf3 Ha Hc Hlbl [Hal Hoff]. set (off := t - _) in *.
  assert (Hok : exists w, b_type off rs2 rs1 f3 = Ok w).
  { unfold b_type. rewrite fits_signed by lia. replace (off mod 2 =? 0) with true by dlia. rewrite Ha, Hc. eexists. reflexivity. }
  destruct Hok as [w Hw]. exists w. split.
  - destruct (b_decodes off rs2 rs1 f3 w) as (Hw32 & Ho & Hi & H2 & H1 & Hf); [cbn [fields_fit]; lia|done|].
    rewrite Ha in H1. rewrite Hc in H2. apply Ok_inj in H1, H2.
    split; [split; [done|]; split|by right; left].
    + unfold access_ok, access. by rewrite Ho.
    + intros _. rewrite Hi, i32_u32 by lia. subst. destruct Hoff as [|(? & ? & ? & ?)]; [by left|right]. split; [lia|]. done.
  - intros ls' Hls. cbn [assemble_item]. by rewrite (lookup_weaken _ _ _ _ Hlbl Hls).
Qed.

Lemma jump_settled lbl rd r t ls (i : nat) :
  reg rd = Ok r -> r <> 2 -> r <> 30 -> ls !! lbl = Some t -> (t - 4 * Z.of_nat i) mod 2 = 0 ->
  - 2 ^ 20 <= t - 4 * Z.of_nat i < 2 ^ 20 ->
  settled good ls i (Late (fun pc labels => t ← getitem (labels !! lbl); j_type (t - pc) rd)).
Proof.
  intros Hr H2 H30 Hlbl Hal Hoff. set (off := t - _) in *.
  assert (Hok : exists w, j_type off rd = Ok w).
  { unfold j_type. rewrite fits_signed by lia. replace (off mod 2 =? 0) with true by dlia. rewrite Hr. eexists. reflexivity. }
  destruct Hok as [w Hw]. exists w. split.
  - destruct (j_decodes off rd w Hw) as (Hw32 & Ho & _ & Hd). rewrite Hr in Hd. apply Ok_inj in Hd.
    apply good_opcode; rewrite ?Ho, <- ?Hd; done.
  - intros ls' Hls. cbn [assemble_item]. by rewrite (lookup_weaken _ _ _ _ Hlbl Hls).
Qed.

(** Words after a pending item, the label after them. *)
Definition after_block p n m (_ : unit) (a : Asm) : Prop := Inv p (n + 1) (m + 6) a.

Lemma here_push l a : here (push l a) = here a + 4 * len l.
Proof. unfold here, push. cbn. rewrite len_app. lia. Qed.

Lemma wp_forward_branch p n m a : Inv p n m a -> 0 <= n -> wp (forward_branch (G := G) n) (after_block p n m) a.
Proof.
  intros HI Hn. unfold forward_branch. apply wp_bind, wp_choice; [done|]. intros f3 Hf3. cbv zeta.
  assert (Hf : 0 <= f3 < 8).
  { assert (Hall : Forall (fun x => 0 <= x < 8) [0; 1; 4; 5; 6; 7]) by (repeat constructor; lia).
    by eapply Forall_forall in Hall. }
  apply wp_bind, wp_reg. intros rs1 r1 H1. apply wp_bind, wp_reg. intros rs2 r2 H2.
  apply wp_bind. eapply wp_does; [reflexivity|]. apply wp_bind, wp_randrange; [lia|]. intros k Hk.
  apply wp_bind. apply (emits_alus k); [lia|]. intros ws Hlen Hws.
  assert (Hnone : labels a !! fstr "f" n = None) by apply (used_fresh n), HI.
  apply wp_label; [done|]. unfold after_block, here, push. cbn [items origin labels].
  rewrite (inv_origin _ _ _ _ HI), <- app_assoc. change (fstr "f" n) with (String "f" (pretty n)).
  apply inv_label; [done|done|done| |rewrite len_app; unfold len in *; rewrite length_map; cbn; lia].
  apply settles_cons; [|by apply settles_words].
  eapply branch_settled; [done|by apply dest_reg|by apply dest_reg|apply lookup_insert_eq|].
  rewrite !len_app. unfold len in *. rewrite length_map. cbn [length]. split; [dlia|lia].
Qed.

Lemma emits_li_small v : 1 <= v < 6 -> emits good 1 (does (G := G) (li "x31" v)).
Proof.
  intros Hv. replace (li "x31" v) with (addi "x31" "zero" v).
  - destruct (i_good v "zero" 0 "x31" 0x13 0 31) as (w & Hw & _ & Hg); try done; try lia.
    by apply (emits_word good _ _ w).
  - assert (v = 1 \/ v = 2 \/ v = 3 \/ v = 4 \/ v = 5) as [-> | [-> | [-> | [-> | ->]]]] by lia; done.
Qed.

Lemma wp_counted_loop p n m a : Inv p n m a -> 0 <= n -> wp (counted_loop (G := G) n) (after_block p n m) a.
Proof.
  intros HI Hn. unfold counted_loop. cbv zeta. apply wp_bind, wp_randrange; [lia|]. intros v Hv.
  apply wp_bind. apply (emits_li_small v); [lia|]. intros ws0 Hlen0 Hws0.
  apply wp_bind. assert (Hnone : labels a !! fstr "l" n = None) by apply (used_fresh n), HI.
  apply wp_label; [done|]. apply wp_bind, wp_randrange; [lia|]. intros k Hk.
  apply wp_bind. apply (emits_alus k); [lia|]. intros ws Hlen Hws.
  apply wp_bind. destruct (i_good (-1) "x31" 0 "x31" 0x13 31 31) as (w & Hw & _ & Hg); try done; try lia.
  eapply wp_does; [unfold addi, emit_word; cbn; rewrite Hw; reflexivity|].
  eapply wp_does; [reflexivity|]. unfold after_block, here, push. cbn [items origin labels].
  rewrite (inv_origin _ _ _ _ HI), <- !app_assoc. change (fstr "l" n) with (String "l" (pretty n)).
  set (l0 := map Word ws0) in *. apply inv_label; [done|done|done| |unfold len in *; rewrite !length_app; subst l0; rewrite !length_map; cbn; lia].
  apply settles_app; [by apply settles_words|]. apply settles_app; [by apply settles_words|].
  apply settles_cons; [exists w; by split|]. apply settles_cons; [|apply settles_nil].
  eapply branch_settled; [lia|apply x31_reg|apply zero_reg|apply lookup_insert_eq|].
  rewrite len_app. unfold len in *. rewrite !length_map. subst l0. rewrite length_map. split; [dlia|right]. lia.
Qed.

Lemma wp_forward_jump p n m a : Inv p n m a -> 0 <= n -> wp (forward_jump (G := G) n) (after_block p n m) a.
Proof.
  intros HI Hn. unfold forward_jump. cbv zeta. apply wp_bind, wp_chance. intros [|]; apply wp_bind.
  - apply wp_bind, wp_reg. intros rd r Hr. eapply wp_does; [reflexivity|]. apply wp_bind.
    apply emits_alu. intros ws Hlen Hws.
    assert (Hnone : labels a !! fstr "j" n = None) by apply (used_fresh n), HI.
    apply wp_label; [done|]. unfold after_block, here, push. cbn [items origin labels].
    rewrite (inv_origin _ _ _ _ HI), <- app_assoc. change (fstr "j" n) with (String "j" (pretty n)).
    apply inv_label; [done|done|done| |rewrite len_app; unfold len in *; rewrite length_map; cbn; lia].
    apply settles_cons; [|by apply settles_words]. destruct (dest_ne _ _ Hr) as (? & ? & ?).
    eapply jump_settled; [by apply dest_reg|done|done|apply lookup_insert_eq|..];
      rewrite !len_app; unfold len in *; rewrite length_map; cbn [length]; [dlia|lia].
  - apply wp_bind, wp_reg. intros t r Hr. apply wp_bind. eapply wp_does; [reflexivity|].
    apply wp_bind, wp_reg. intros rd r' Hr'. destruct (dest_ne _ _ Hr) as (? & ? & ?). destruct (dest_ne _ _ Hr') as (? & ? & ?).
    destruct (i_good 0 t 0 rd 0x67 r r') as (w & Hw & _ & Hg); try done; try lia; try by apply dest_reg.
    eapply wp_does; [unfold jalr, emit_word; cbn; rewrite Hw; reflexivity|]. apply wp_bind.
    apply emits_alu. intros ws Hlen Hws.
    assert (Hnone : labels a !! fstr "j" n = None) by apply (used_fresh n), HI.
    apply wp_label; [done|]. unfold after_block, here, push. cbn [items origin labels].
    rewrite (inv_origin _ _ _ _ HI), <- !app_assoc. change (fstr "j" n) with (String "j" (pretty n)).
    set (target := 0 + _). clearbody target.
    apply inv_label; [done|done|done| |unfold len in *; rewrite !length_app, length_map; cbn; lia].
    apply settles_cons; [|apply settles_cons; [|apply settles_cons; [exists w; by split|by apply settles_words]]].
    + destruct (u_good (hi20 target) t 0x37 r) as (u & Hu & _ & Hgu); try done; try lia; try by apply dest_reg.
      exists u. split; [done|]. intros ls' Hls. cbn [assemble_item].
      by rewrite (lookup_weaken _ _ _ _ (lookup_insert_eq (labels a) _ target) Hls).
    + assert (Hlo : -2048 <= lo12 target < 2048) by apply lo12_range.
      destruct (i_good (lo12 target) t 0 t 0x13 r r) as (u & Hu & _ & Hgu); try done; try lia; try by apply dest_reg.
      exists u. split; [done|]. intros ls' Hls. cbn [assemble_item].
      by rewrite (lookup_weaken _ _ _ _ (lookup_insert_eq (labels a) _ target) Hls).
Qed.

(** A block of words alone. *)
Lemma wp_emits p n m a (k : rasm unit) : emits (G := G) good 1 k -> Inv p n m a -> wp k (after_block p n m) a.
Proof. intros Hk HI. apply Hk. intros ws Hlen Hws. apply inv_words; [done|done|lia]. Qed.

Lemma wp_block p n m a : Inv p n m a -> 0 <= n -> wp (block (G := G) n) (after_block p n m) a.
Proof.
  intros HI Hn. unfold block. apply wp_bind, wp_randrange; [lia|]. intros k Hk.
  destruct (k <? 4); [|destruct (k <? 6); [|destruct (k =? 6); [|destruct (k =? 7); [|destruct (k =? 8)]]]].
  - by apply wp_emits; [apply emits_alu|].
  - by apply wp_emits; [apply emits_load_store|].
  - by apply wp_forward_branch.
  - by apply wp_counted_loop.
  - by apply wp_forward_jump.
  - by apply wp_emits; [apply emits_counter|].
Qed.

(** ** The whole program *)

Lemma range_cons a b : a < b -> range a b = a :: range (a + 1) b.
Proof.
  intros Hab. unfold range. replace (Z.to_nat (b - a)) with (S (Z.to_nat (b - (a + 1)))) by lia.
  cbn [seq map]. rewrite <- seq_shift, map_map. f_equal; [lia|]. apply map_ext. intros k. lia.
Qed.
Lemma range_nil a b : b <= a -> range a b = [].
Proof. intros Hab. unfold range. by replace (Z.to_nat (b - a)) with 0%nat by lia. Qed.

Lemma emits_prologue base : emits (G := G) plain 60 (prologue base).
Proof.
  assert (Hli : forall rd r v, reg rd = Ok r -> emits (G := G) plain 2 (does (li rd v))).
  { intros rd r v Hr. eapply emits_li; [done|]. intros w Hop _ Hw. apply plain_opcode; [done|..]; destruct Hop as [-> | ->]; done. }
  unfold prologue. apply (emits_seq plain 2 58); [by eapply (Hli "sp"%string)|].
  apply (emits_seq plain 2 56); [by eapply (Hli "x30"%string)|].
  change 56 with (2 * len DEST). apply (emits_repeat plain); [lia|]. intros name Hn.
  apply (emits_bits plain); [lia|]. intros v Hv. destruct (DEST_dest name Hn) as [r Hr]. eapply Hli. by apply dest_reg.
Qed.

Lemma wp_blocks p j n m a :
  Inv p n m a -> 0 <= n -> wp (for_each (range n (n + Z.of_nat j)) (block (G := G)))
    (fun _ => Inv p (n + Z.of_nat j) (m + 6 * Z.of_nat j)) a.
Proof.
  revert n m a. induction j as [|j IH]; intros n m a HI Hn.
  - rewrite range_nil by lia. cbn [for_each]. intros g. exists tt, g, a. split; [done|].
    by replace (n + Z.of_nat 0) with n by lia; replace (m + 6 * Z.of_nat 0) with m by lia.
  - rewrite range_cons by lia. cbn [for_each]. apply wp_bind. eapply wp_weaken; [by apply wp_block|].
    intros [] a' HI'. replace (n + Z.of_nat (S j)) with (n + 1 + Z.of_nat j) by lia.
    replace (m + 6 * Z.of_nat (S j)) with (m + 6 + 6 * Z.of_nat j) by lia. apply IH; [done|lia].
Qed.

(** The finished assembler: plain words, then good ones, whatever the last label. *)
Definition finished (blocks : Z) (a : Asm) : Prop :=
  origin a = 0 /\ len (items a) <= 61 + 6 * blocks /\
  exists pro l, items a = pro ++ l /\ len pro <= 60 /\ settles plain (labels a) 0 pro /\ settles good (labels a) (length pro) l.

Lemma wp_random_code blocks base :
  0 <= blocks -> wp (random_code (G := G) blocks base) (fun _ => finished blocks) (new_asm 0).
Proof.
  intros Hb. unfold random_code. apply wp_bind. apply emits_prologue. intros ws Hlen Hws.
  assert (HI : Inv (length (map Word ws)) 0 60 (push (map Word ws) (new_asm 0))).
  { split; cbn; [done| |unfold len in *; by rewrite length_map|intros name [v Hv]; by rewrite lookup_empty in Hv].
    exists (map Word ws), []. rewrite app_nil_r. split_and!; [done|done|by apply settles_words|apply settles_nil]. }
  replace blocks with (0 + Z.of_nat (Z.to_nat blocks)) at 1 by lia.
  apply wp_bind. eapply wp_weaken; [apply wp_blocks; [exact HI|lia]|]. clear HI. intros [] a HI.
  assert (Hnone : labels a !! "end" = None).
  { destruct (labels a !! "end") eqn:E; [|done]. exfalso.
    destruct (inv_names _ _ _ _ HI "end") as (c & b & [= <- _] & Hc & _); [by eexists|]. by apply Hc. }
  apply wp_bind, wp_label; [done|]. eapply wp_does; [reflexivity|].
  destruct HI as [Ho (pro & l & Hi & Hp & Hpro & Hl) Hm _]. split; [done|]. cbn [items labels origin].
  split; [rewrite len_app; unfold len in *; cbn [length]; lia|]. exists pro, (l ++ [Late (fun pc labels => t ← getitem (labels !! "end"); j_type (t - pc) "zero")]).
  rewrite Hi, app_assoc. split; [done|]. unfold len in *. rewrite length_map in Hp. split; [lia|].
  assert (Hls : labels a ⊆ <["end":=here a]> (labels a)) by by apply insert_subseteq.
  split; [by eapply settles_mono|]. rewrite length_map in Hl. rewrite Hp.
  apply settles_app; [by eapply settles_mono|]. apply settles_cons; [|apply settles_nil].
  assert (Hhere : here a - 4 * Z.of_nat (length ws + length l) = 0).
  { unfold here. rewrite Ho, Hi. unfold len. rewrite length_app. lia. }
  eapply (jump_settled "end" "zero" 0 (here a)); [done|lia|lia|apply lookup_insert_eq|rewrite Hhere; done|rewrite Hhere; lia].
Qed.

End Labels.

Lemma assemble_items_ok pc ls l :
  (forall k it, l !! k = Some it -> exists w, assemble_item (pc + 4 * Z.of_nat k) ls it = Ok w) ->
  exists ws, assemble_items pc ls l = Ok ws.
Proof.
  revert pc. induction l as [|it l IH]; intros pc Hall; [by exists []|].
  destruct (Hall 0%nat it eq_refl) as [w Hw]. replace (pc + 4 * Z.of_nat 0) with pc in Hw by lia.
  destruct (IH (pc + 4)) as [ws Hws].
  { intros k it' Hk. destruct (Hall (S k) it' Hk) as [w' Hw']. exists w'.
    by replace (pc + 4 + 4 * Z.of_nat k) with (pc + 4 * Z.of_nat (S k)) by lia. }
  exists (w :: ws). cbn [assemble_items]. by rewrite Hw, Hws.
Qed.

Lemma random_rv_ok {G} `{Random G} (rnd : G) blocks base (Hb : 0 <= blocks) :
  exists ws pro, random_rv rnd blocks base = (if len ws <=? 0x3800 / 4 then Ok ws else Raise AssertionError) /\
    len ws <= 61 + 6 * blocks /\ pro <= 60 /\
    forall i w, ws !! i = Some w ->
      0 <= w < 2 ^ 32 /\ access_ok w /\ branch_ok w /\ (pro <= Z.of_nat i -> keeps_bases w).
Proof.
  set (b := if base =? 0 then RV_DATA else base).
  destruct (wp_random_code blocks b Hb rnd) as (v & g' & a & Hr & Ho & Hlen & pro & l & Hi & Hp & Hpro & Hl).
  assert (Hset : forall k it, items a !! k = Some it -> exists w, assemble_item (0 + 4 * Z.of_nat k) (labels a) it = Ok w /\
    plain w /\ (len pro <= Z.of_nat k -> keeps_bases w)).
  { intros k it Hk. rewrite Hi in Hk. apply lookup_app_Some in Hk as [Hk | [Hle Hk]].
    - destruct (Hpro k it Hk) as (w & Hw & Hall). exists w. split; [by apply (Hall (labels a))|]. split; [done|].
      apply lookup_lt_Some in Hk. unfold len. lia.
    - destruct (Hl _ it Hk) as (w & [Hw Hkeep] & Hall). exists w. split; [|done].
      replace k with (length pro + (k - length pro))%nat at 1 by lia. by apply (Hall (labels a)). }
  destruct (assemble_items_ok 0 (labels a) (items a)) as [ws Hws]; [intros k it Hk; destruct (Hset k it Hk) as (w & Hw & _); eauto|].
  pose proof (assemble_items_length _ _ _ _ Hws) as Hwl. exists ws, (len pro). split_and!.
  - assert (Hcode : ('(_, _) ← random_code blocks b rnd; mret tt) (new_asm 0) = Ok (tt, a)).
    { unfold mbind, asm_bind. rewrite Hr. by destruct v. }
    unfold random_rv. fold b. unfold rom_code_14k, rom_code, build. rewrite Hcode. cbn [fmap res_fmap snd mbind res_bind].
    unfold assemble. rewrite Ho, Hws. cbn [mbind res_bind]. unfold py_assert. by destruct (len ws <=? _).
  - unfold len in *. lia.
  - done.
  - intros i w Hw. destruct (lookup_lt_is_Some_2 (items a) i) as [it Hit]; [rewrite <- Hwl; by eapply lookup_lt_Some|].
    destruct (Hset i it Hit) as (w' & Hw' & (H1 & H2 & H3) & Hk).
    pose proof (assemble_items_lookup _ _ _ _ _ _ _ Hws Hit Hw) as Hw''. rewrite Hw' in Hw''. apply Ok_inj in Hw''. by subst.
Qed.

(** C20: whatever the random numbers, a program of any number of blocks assembles: no label or
    offset fails. It is at most six words a block, so up to 587 blocks (the list's programs have
    300) always fit the 14 KB of ROM; a longer one (those of LOCKSTEP_SEEDS have 1500) is
    returned if it fits and refused by the assertion if not. Its words have 32 bits; every load
    and store is aligned and within 512 bytes of sp, or reads one of the words at mtime; a
    branch goes a few instructions ahead, or back on the loop counter being nonzero; and after
    the prologue nothing writes sp or x30. *)
Theorem random_rv_words {G} `{Random G} (rnd : G) blocks base (Hb : 0 <= blocks) :
  exists ws pro, random_rv rnd blocks base = (if len ws <=? 0x3800 / 4 then Ok ws else Raise AssertionError) /\
    (blocks <= 587 -> random_rv rnd blocks base = Ok ws) /\ len ws <= 61 + 6 * blocks /\ pro <= 60 /\
    forall i w, ws !! i = Some w ->
      0 <= w < 2 ^ 32 /\ access_ok w /\ branch_ok w /\ (pro <= Z.of_nat i -> keeps_bases w).
Proof.
  destruct (random_rv_ok rnd blocks base Hb) as (ws & pro & Hr & Hl & Hp & Hw). exists ws, pro.
  split; [done|]. split; [|done]. intros Hmax. rewrite Hr. change (0x3800 / 4) with 3584. by replace (len ws <=? 3584) with true by lia.
Qed.

(** Numbers from a linear congruence. *)
Definition demo_stream : stream := mkStream (fun n => (Z.of_nat n * 7919 * (Z.of_nat n + 104729) + 31337) / 7) 0.

Lemma random_rv_words_witness :
  exists ws pro, random_rv demo_stream 300 0 = (if len ws <=? 0x3800 / 4 then Ok ws else Raise AssertionError) /\
    (300 <= 587 -> random_rv demo_stream 300 0 = Ok ws) /\ len ws <= 1861 /\ pro <= 60 /\
    forall i w, ws !! i = Some w ->
      0 <= w < 2 ^ 32 /\ access_ok w /\ branch_ok w /\ (pro <= Z.of_nat i -> keeps_bases w).
Proof. apply (random_rv_words demo_stream 300 0). lia. Defined.
