(* ===== verification/Programs.v ===== *)
(** * The list of lockstep programs

    sim/integration/lockstep_programs.py, [programs]: every program with its set-up, what the
    build makes (the Hack demo, the second stage, the hello demo) and the random numbers
    given; that all of them are made and fit, and that the first stage's card boots. *)
From Stdlib Require Import FunctionalExtensionality.
From S2P Require Import Prelude Header Image Text FatImage FatPlan FatReader FatMount RamBoot SdCard Rv32Asm HackAsm Lockstep LockstepRv RandomRv.
#[local] Open Scope Z_scope.

(** ** Constants *)

Definition HACK_DEMO_CYCLES : Z := 1480000.
Definition TRAPS_RX_CYCLE : Z := 1500.
Definition AMO_RX_CYCLE : Z := 100.
Definition XCACHE_HACK_CYCLES : Z := 6000.
Definition S2_LAUNCH_CYCLES : Z := 18000.
Definition S2_RUN_HELLO_AT : Z := 14600000.
Definition S2_RUN_HELLO_CYCLES : Z := 20300000.
Definition MULDIV_CYCLES : Z := 9000.
Definition CLINT_RX_CYCLE : Z := 100.
Definition CLINT_CYCLES : Z := 4000.
Definition LITEUART_RX_CYCLE : Z := 3000.
Definition LITEUART_RX2_CYCLE : Z := 40000.
Definition LITEUART_CYCLES : Z := 60000.
Definition LITEUART_HACK_RX_CYCLE : Z := 1000.
Definition LITEUART_HACK_CYCLES : Z := 8000.

Definition STAGE2_FILE : string := "build/firmware/stage2/STAGE2.BIN".
Definition HELLO_FILE : string := "build/firmware/apps/HELLO.BIN".

(** ** A program *)

(** [Program] (the boot ROM's words, the UART's bytes, the S2 button, the card's sectors, the
    window's bytes at power-on). *)
Record Program := mkProgram {
  p_name : string;
  p_cycles : Z;
  p_imem_words : option (list Z);
  p_uart_rx : list (Z * bytes);
  p_button : list (Z * bool);
  p_sd_sectors : list (Z * bytes);
  p_xmem : list (Z * bytes);
  p_slow : bool;
  p_needs : list string;
}.

(** [Program(name, cycles)], and the fields given by keyword. *)
Definition program (name : string) (cycles : Z) : Program := mkProgram name cycles None [] [] [] [] false [].
Definition with_words ws (p : Program) : Program :=
  mkProgram (p_name p) (p_cycles p) (Some ws) (p_uart_rx p) (p_button p) (p_sd_sectors p) (p_xmem p) (p_slow p) (p_needs p).
Definition with_rx rx (p : Program) : Program :=
  mkProgram (p_name p) (p_cycles p) (p_imem_words p) rx (p_button p) (p_sd_sectors p) (p_xmem p) (p_slow p) (p_needs p).
Definition with_card sectors (p : Program) : Program :=
  mkProgram (p_name p) (p_cycles p) (p_imem_words p) (p_uart_rx p) (p_button p) sectors (p_xmem p) (p_slow p) (p_needs p).
Definition with_xmem x (p : Program) : Program :=
  mkProgram (p_name p) (p_cycles p) (p_imem_words p) (p_uart_rx p) (p_button p) (p_sd_sectors p) x (p_slow p) (p_needs p).
Definition long_run needs (p : Program) : Program :=
  mkProgram (p_name p) (p_cycles p) (p_imem_words p) (p_uart_rx p) (p_button p) (p_sd_sectors p) (p_xmem p) true needs.

(** ** The list *)
Section List.
Context {G : Type} `{Random G}.
(** [random.Random(seed)]; the lines of build/hack/firmware.hex; what STAGE2_FILE and
    HELLO_FILE hold, if they are there; the seeds in LOCKSTEP_SEEDS. *)
Variable rng : Z -> G.
Variable hack_hex : list string.
Variable stage2_file hello_file : option bytes.
Variable seeds : list Z.

(** The real second stage and the hello demo on a card, or an empty one. *)
Definition s2_hello_card : res (list (Z * bytes)) :=
  match stage2_file, hello_file with
  | Some s2, Some hello => card_sectors [(txt "VUX9K/STAGE2.BIN", s2); (txt "VUX9K/APPS/HELLO.BIN", hello)]
  | _, _ => Ok []
  end.

Definition random_program (seed blocks cycles base : Z) (name : string) : res Program :=
  ws ← random_rv (rng seed) blocks base; Ok (with_words ws (program name cycles)).

(** A program in the ROM. *)
Definition in_rom (name : string) (cycles : Z) (code : res (list Z)) : res Program :=
  ws ← code; Ok (with_words ws (program name cycles)).

(** A Hack program in its segment, started by [hack_stub]. *)
Definition in_hack (name : string) (cycles : Z) (code : res (list Z)) : res Program :=
  stub ← hack_stub; ws ← code; img ← hack_image_bytes ws;
  Ok (with_xmem [(HACK_I_BASE, img)] (with_words stub (program name cycles))).

Definition hack_demo : res Program :=
  words ← hex_words hack_hex; demo ← hack_image_bytes words;
  py_assert (len demo <=? HACK_DEMO_BYTES);;
  stub ← hack_stub; Ok (with_xmem [(HACK_I_BASE, demo)] (with_words stub (program "hack_demo" HACK_DEMO_CYCLES))).

Definition programs : res (list Program) :=
  r123 ← mapM (fun seed => random_program seed 300 20000 0 (fstr "random_rv_" seed)) [1; 2; 3];
  p_traps ← in_rom "traps" 6000 traps;
  p_demo ← hack_demo;
  card ← stage2_card;
  p_soft ← in_hack "hack_soft_reset" 20000 (hack_soft_reset true false);
  p_boot ← in_rom "boot_mode_hack" 6000 boot_mode_hack;
  p_clk ← in_rom "sd_clkdiv" 30000 sd_clkdiv;
  p_launch ← in_rom "s2_launch" S2_LAUNCH_CYCLES (s2_launch false);
  p_launch_hack ← in_rom "s2_launch_hack" S2_LAUNCH_CYCLES (s2_launch true);
  p_xmem ← in_rom "xmem" 17500 xmem;
  r4 ← random_program 4 300 13000 (XMEM + 0x400) "random_rv_xmem_4";
  p_xcache ← in_rom "xcache" 18000 xcache;
  p_xcache_hack ← in_hack "xcache_hack" XCACHE_HACK_CYCLES xcache_hack;
  p_stores ← in_rom "rom_stores" 2000 rom_stores;
  '(md_rom, md_code) ← muldiv_program;
  p_boot_rv ← in_hack "boot_mode_rv32" 20000 (hack_soft_reset true true);
  hello_card ← s2_hello_card;
  p_umode ← in_rom "umode" 4000 umode;
  p_amo ← in_rom "amo" 9000 amo_program;
  p_clint ← in_rom "clint" CLINT_CYCLES clint;
  p_drop ← in_rom "uart_drop" UART_DROP_CYCLES uart_drop;
  p_lite ← in_rom "liteuart" LITEUART_CYCLES liteuart;
  p_lite_hack ← in_hack "liteuart_hack" LITEUART_HACK_CYCLES liteuart_hack;
  rs ← mapM (fun s => long_run [] <$> random_program s 1500 200000 0 (fstr "random_rv_" s)) seeds;
  Ok (r123 ++
    [with_rx [(TRAPS_RX_CYCLE, bstr "Z")] p_traps;
     p_demo;
     with_card card (program "s1_autoboot" 3300000);
     long_run [] (with_rx [(600000, [x0d]); (1300000, bstr "h"); (2000000, bstr "i")] (with_card card (program "s1_cli" 3600000)));
     p_soft; p_boot; p_clk; p_launch; p_launch_hack; p_xmem; r4; p_xcache; p_xcache_hack; p_stores;
     with_xmem [(MULDIV_CODE, md_code)] (with_words md_rom (program "muldiv" MULDIV_CYCLES));
     p_boot_rv;
     long_run [STAGE2_FILE; HELLO_FILE]
       (with_rx [(S2_RUN_HELLO_AT, bstr "run VUX9K/APPS/HELLO.BIN" ++ [x0d])]
         (with_card hello_card (program "s2_run_hello" S2_RUN_HELLO_CYCLES)));
     p_umode;
     with_rx [(AMO_RX_CYCLE, bstr "Z")] p_amo;
     with_rx [(CLINT_RX_CYCLE, bstr "Z")] p_clint;
     with_rx [(UART_DROP_RX_CYCLE, map byte.of_Z (range 0x40 0x61))] p_drop;
     with_rx [(LITEUART_RX_CYCLE, bstr "R"); (LITEUART_RX2_CYCLE, bstr "S")] p_lite;
     with_rx [(LITEUART_HACK_RX_CYCLE, bstr "h")] p_lite_hack] ++ rs).

End List.

(** ** Cards *)

(** A card given sectors (as start_soc and soc_env insert them), and the first [n] of its
    sectors as the firmware reads them. *)
Definition card_of (ss : list (Z * bytes)) : SdCardProtocol :=
  fold_left (fun c x => SdCard.set_sector x.1 x.2 c) ss card_init.
Definition card_dev (n : Z) (c : SdCardProtocol) (lba : Z) : option bytes :=
  if (0 <=? lba) && (lba <? n) then Some (SdCard.get_sector lba c) else None.

Lemma get_sector_fold (f : Z -> bytes) ss c lba :
  Forall (fun x => x.2 = f x.1 /\ len x.2 = 512) ss ->
  SdCard.get_sector lba (fold_left (fun c x => SdCard.set_sector x.1 x.2 c) ss c) =
    if decide (lba ∈ map fst ss) then f lba else SdCard.get_sector lba c.
Proof.
  intros Hss. revert c. induction Hss as [|[l d] ss [Hd Hlen] Hss IH]; intros c; cbn [fold_left map fst].
  - by rewrite decide_False by apply not_elem_of_nil.
  - cbn [fst snd] in *. rewrite IH, get_sector_set. unfold SdCard.SECTOR. rewrite take_ge by (unfold len in Hlen; lia).
    unfold ljust. rewrite Hlen. cbn [Z.sub Z.to_nat replicate Z.opp Z.add Z.pos_sub]. rewrite app_nil_r.
    destruct (decide (lba ∈ map fst ss)) as [Hin|Hout].
    + by rewrite decide_True by by right.
    + destruct (decide (lba = l)) as [->|Hne]; [by rewrite decide_True by by left|].
      by rewrite decide_False by (rewrite elem_of_cons; tauto).
Qed.

Lemma range_elem a b x : x ∈ range a b <-> a <= x < b.
Proof.
  unfold range. rewrite list_elem_of_fmap. split.
  - intros (k & -> & Hk). apply elem_of_seq in Hk. lia.
  - intros Hx. exists (Z.to_nat (x - a)). split; [lia|]. apply elem_of_seq. lia.
Qed.

Lemma all_zero (d : bytes) : existsb (fun b => negb (u8 b =? 0)) d = false -> d = zeros (len d).
Proof.
  intros Hd. unfold zeros, len. rewrite Nat2Z.id. induction d as [|b d IH]; [done|].
  cbn [existsb length replicate] in *. apply orb_false_iff in Hd as [Hb Hd]. rewrite <- IH by done. f_equal.
  apply byte.unsigned_inj. change (byte.unsigned x00) with 0. unfold u8 in Hb. lia.
Qed.

(** The sectors of an image, the zero ones left out, on a card: the image. *)
Lemma card_sectors_dev files img ss :
  build_fat32_image files 8192 1 (txt "VUX9K") = Ok img -> len img mod 512 = 0 -> card_sectors files = Ok ss ->
  card_dev (len img / 512) (card_of ss) = image_dev img.
Proof.
  unfold card_sectors. intros -> Hmod Hss. cbn [mbind res_bind] in Hss. apply Ok_inj in Hss.
  set (f lba := slice img (lba * 512) ((lba + 1) * 512)). set (n := len img / 512) in *.
  change (map _ (range 0 n)) with (map (fun lba => (lba, f lba)) (range 0 n)) in Hss.
  assert (Hf : forall lba, 0 <= lba < n -> len (f lba) = 512) by (intros lba Hl; unfold f; rewrite len_slice; unfold n in *; dlia).
  apply functional_extensionality. intros lba. unfold card_dev, image_dev, Header.SECTOR.
  replace ((lba + 1) * 512 <=? len img) with (lba <? n)
    by (unfold n; destruct (Z.ltb_spec lba (len img / 512)), (Z.leb_spec ((lba + 1) * 512) (len img)); dlia).
  destruct ((0 <=? lba) && (lba <? n)) eqn:Hr; [|done]. f_equal. assert (Hl : 0 <= lba < n) by lia.
  unfold card_of. rewrite (get_sector_fold f).
  - case_decide as Hin; [done|]. change (SdCard.get_sector lba card_init) with (zeros SdCard.SECTOR).
    change (slice img _ _) with (f lba). rewrite (all_zero (f lba)), (Hf lba Hl); [done|]. destruct (existsb _ (f lba)) eqn:E; [|done]. exfalso. apply Hin.
    apply list_elem_of_fmap. exists (lba, f lba). split; [done|]. rewrite <- Hss. apply list_elem_of_filter. split; [exact E|].
    apply list_elem_of_fmap. exists lba. split; [done|]. by apply range_elem.
  - rewrite <- Hss. apply Forall_forall. intros x Hx. apply list_elem_of_filter in Hx as [_ Hx].
    apply list_elem_of_fmap in Hx as (l & -> & Hl'). cbn. split; [done|]. apply Hf. by apply range_elem.
Qed.

(** An image whose parts pack is built, in whole sectors. *)
Lemma build_ok files part_sectors cluster_sectors label p :
  fat32_plan files part_sectors cluster_sectors label = Ok p ->
  is_ok (boot_sector p) && is_ok (fsinfo_sector p) && is_ok (mapM (pack_uint 4) (fs_fat (pl_state p))) && is_ok (FatImage.mbr_sector p) = true ->
  0 <= part_sectors ->
  exists img, build_fat32_image files part_sectors cluster_sectors label = Ok img /\ len img = (2048 + part_sectors) * 512.
Proof.
  intros Hp Hok Hps. unfold build_fat32_image, render. rewrite Hp. cbn [mbind res_bind].
  destruct (boot_sector p) as [boot|] eqn:Hb; [|done]. destruct (fsinfo_sector p) as [fsi|] eqn:Hf; [|done].
  destruct (mapM _ _) as [raw|] eqn:Hr; [|done]. destruct (FatImage.mbr_sector p) as [mbr|] eqn:Hm; [|done].
  eexists. split; [reflexivity|]. apply fat32_plan_spec in Hp as (Hpo & <- & _).
  destruct (fill_part_spec p boot fsi (concat raw) Hpo (bf_len _ _ (proj1 (boot_sector_fields _ _ Hb)))
    (fsinfo_sector_len _ _ Hf)) as [Hl _]; [by destruct (fat_raw_spec _ _ Hr)|].
  destruct (mbr_sector_fields _ _ Hm) as [Hml _ _ _]. rewrite !len_app, Hml, len_zeros, Hl by (vm_compute; congruence).
  unfold FAT_PART_LBA, Header.SECTOR. lia.
Qed.

Definition stage2_bytes : bytes := match stage2_image with Ok d => d | Raise _ => [] end.
Definition stage2_path : bytes := bstr "VUX9K/STAGE2.BIN".
Definition stage2_header : ImageHeader :=
  match Fw.parse stage2_bytes with Some h => h | None => mkHeader 0 0 0 [] 0 0 0 end.

Lemma stage2_image_ok : stage2_image = Ok stage2_bytes.
Proof. vm_compute. reflexivity. Qed.

Lemma stage2_card_ok : exists img ss,
  build_fat32_image (host_files [(stage2_path, stage2_bytes)]) 8192 1 (txt "VUX9K") = Ok img /\ len img mod 512 = 0 /\
  card_sectors [(txt "VUX9K/STAGE2.BIN", stage2_bytes)] = Ok ss.
Proof.
  assert (Hp : is_ok (fat32_plan (host_files [(stage2_path, stage2_bytes)]) 8192 1 (txt "VUX9K")) = true) by (vm_compute; reflexivity).
  destruct (fat32_plan _ _ _ _) as [p|] eqn:E; [|done].
  destruct (build_ok _ _ _ _ p E) as (img & Himg & Hlen); [|lia|].
  { assert (Hparts : match fat32_plan (host_files [(stage2_path, stage2_bytes)]) 8192 1 (txt "VUX9K") with
      | Ok p => is_ok (boot_sector p) && is_ok (fsinfo_sector p) && is_ok (mapM (pack_uint 4) (fs_fat (pl_state p))) && is_ok (FatImage.mbr_sector p)
      | Raise _ => false end = true) by (vm_compute; reflexivity).
    by rewrite E in Hparts. }
  exists img. unfold card_sectors. change [(txt "VUX9K/STAGE2.BIN", stage2_bytes)] with (host_files [(stage2_path, stage2_bytes)]).
  rewrite Himg. eexists. split; [done|]. split; [|reflexivity]. rewrite Hlen. reflexivity.
Qed.

(** The card the first stage boots from in the lockstep runs is bootable: holding only the
    image's nonzero sectors, it mounts, \VUX9K\STAGE2.BIN is found and reads back as the file
    the host tool built, whose header fits the second stage's window with an RV32 entry point
    and a version the first stage starts, whose payload has the header's CRC and is the
    program that prints '#'. *)
Theorem stage2_card_boots : exists img ss v e,
  build_fat32_image (host_files [(stage2_path, stage2_bytes)]) 8192 1 (txt "VUX9K") = Ok img /\
  stage2_card = Ok ss /\
  (let dev := card_dev (len img / 512) (card_of ss) in
   mount dev = Good v /\ vol_open dev v stage2_path = Good e /\
   read_to dev v e (len stage2_bytes) = Good stage2_bytes) /\
  Fw.parse stage2_bytes = Some stage2_header /\ Fw.check stage2_header STAGE2_BASE 0x100000 = None /\
  check_stage2 stage2_header = None /\ Fw.crc_matches stage2_header (drop 64 stage2_bytes) = true /\
  hash_program STAGE2_BASE false = Ok (drop 64 stage2_bytes).
Proof.
  destruct stage2_card_ok as (img & ss & Himg & Hmod & Hss).
  destruct (mkfat_mounts [(stage2_path, stage2_bytes)] 8192 1 (txt "VUX9K") img Himg) as (v & Hv & Hread);
    [vm_compute; discriminate|vm_compute; congruence|vm_compute; congruence|].
  destruct (Hread stage2_path stage2_bytes (len stage2_bytes)) as (e & He & Hr); [by left|done|].
  exists img, ss, v, e. split; [exact Himg|]. split; [unfold stage2_card; rewrite stage2_image_ok; exact Hss|].
  rewrite (card_sectors_dev _ _ _ Himg Hmod Hss). split; [exact (conj Hv (conj He Hr))|]. clear.
  split_and!; vm_compute; reflexivity.
Qed.

(** ** Every program is made and fits *)

Definition fits_rom (ws : list Z) : bool := (len ws <=? 0x3800 / 4) && forallb (fun w => (0 <=? w) && (w <? 2 ^ 32)) ws.

(** Bytes written only where the RTL's window is zeroed beforehand. *)
Definition in_used (x : Z * bytes) : Prop :=
  forall k, 0 <= k < len x.2 -> exists r, r ∈ XMEM_USED /\ r.1 <= x.1 - XMEM + k < r.2.

(** Bytes that don't overlap on the line, all of them in before the run ends. *)
Fixpoint rx_ok (from cycles : Z) (rx : list (Z * bytes)) : bool :=
  match rx with
  | [] => from <=? cycles
  | (c, data) :: rx => (from <=? c) && rx_ok (c + UART_FRAME * len data) cycles rx
  end.

Definition program_ok (p : Program) : Prop :=
  match p_imem_words p with Some ws => fits_rom ws = true | None => True end /\
  rx_ok 0 (p_cycles p) (p_uart_rx p) = true /\ Forall in_used (p_xmem p).

Definition code_fits (code : res (list Z)) : bool := match code with Ok ws => fits_rom ws | Raise _ => false end.
Definition hack_fits (code : res (list Z)) : bool :=
  match (ws ← code; hack_image_bytes ws) with Ok img => len img <=? 0x800 | Raise _ => false end.

Lemma in_rom_ok name cycles code :
  code_fits code = true -> exists ws, in_rom name cycles code = Ok (with_words ws (program name cycles)) /\ fits_rom ws = true.
Proof. intros Hc. destruct code as [ws|]; [|done]. by exists ws. Qed.

Lemma stub_ok : exists stub, hack_stub = Ok stub /\ fits_rom stub = true.
Proof. assert (H : code_fits hack_stub = true) by (vm_compute; reflexivity). destruct hack_stub as [ws|]; [by exists ws|done]. Qed.

(** A byte of Hack's instruction segment, up to the demo's end. *)
Lemma hack_in_used img : len img <= HACK_DEMO_BYTES -> in_used (HACK_I_BASE, img).
Proof.
  unfold HACK_DEMO_BYTES. intros Hl k Hk. cbn [fst snd] in *. unfold HACK_I_BASE, XMEM.
  destruct (Z.ltb_spec k 0x800).
  - exists (0, 0x800). split; [by left|cbn; lia].
  - exists (0x800, HACK_DEMO_BYTES). split; [|unfold HACK_DEMO_BYTES; cbn; lia].
    apply (list_elem_of_lookup_2 _ 24). vm_compute. reflexivity.
Qed.

Lemma in_hack_ok name cycles code :
  hack_fits code = true -> exists stub img, in_hack name cycles code =
    Ok (with_xmem [(HACK_I_BASE, img)] (with_words stub (program name cycles))) /\ fits_rom stub = true /\ in_used (HACK_I_BASE, img).
Proof.
  unfold hack_fits. intros Hc. destruct code as [ws|]; [|discriminate Hc]. cbn [mbind res_bind] in Hc.
  destruct (hack_image_bytes ws) as [img|] eqn:Hi; [|discriminate Hc].
  destruct stub_ok as (stub & Hs & Hf). exists stub, img. split; [|split; [exact Hf|]].
  - unfold in_hack. rewrite Hs. cbn [mbind res_bind]. rewrite Hi. reflexivity.
  - apply hack_in_used. unfold HACK_DEMO_BYTES. lia.
Qed.

Lemma random_program_ok {G} `{Random G} (rng : Z -> G) seed blocks cycles base name :
  0 <= blocks <= 587 -> exists ws, random_program rng seed blocks cycles base name = Ok (with_words ws (program name cycles)) /\ fits_rom ws = true.
Proof.
  intros Hb. destruct (random_rv_ok (rng seed) blocks base (proj1 Hb)) as (ws & pro & Hr & Hl & _ & Hw). exists ws.
  assert (Hfit : (len ws <=? 0x3800 / 4) = true) by (change (0x3800 / 4) with 3584; lia). rewrite Hfit in Hr.
  unfold random_program. rewrite Hr. split; [done|]. unfold fits_rom. rewrite Hfit.
  cbn [andb]. apply forallb_forall. intros w Hin. apply list_elem_of_In, list_elem_of_lookup in Hin as [i Hi].
  destruct (Hw i w Hi) as (Hr' & _). lia.
Qed.

(** The programs that are the same in every run. *)
Lemma rom_programs_fit : forallb code_fits
  [traps; boot_mode_hack; sd_clkdiv; s2_launch false; s2_launch true; xmem; xcache; rom_stores; umode; amo_program; clint;
   uart_drop; liteuart] = true.
Proof. vm_compute. reflexivity. Qed.

Lemma hack_programs_fit :
  forallb hack_fits [hack_soft_reset true false; xcache_hack; hack_soft_reset true true; liteuart_hack] = true.
Proof. vm_compute. reflexivity. Qed.

Lemma muldiv_ok : exists ws img, muldiv_program = Ok (ws, img) /\ fits_rom ws = true /\ in_used (MULDIV_CODE, img).
Proof.
  assert (H : match muldiv_program with Ok (ws, img) => fits_rom ws && (len img <=? 0x100) | Raise _ => false end = true)
    by (vm_compute; reflexivity).
  destruct muldiv_program as [[ws img]|]; [|done]. apply andb_true_iff in H as [Hf Hl]. exists ws, img. split; [done|]. split; [done|].
  intros k Hk. cbn [fst snd] in *. exists (MULDIV_CODE - XMEM, MULDIV_CODE - XMEM + 0x100).
  split; [apply (list_elem_of_lookup_2 _ 32); vm_compute; reflexivity|]. cbn. unfold MULDIV_CODE. lia.
Qed.

Lemma rom_program_ok name cycles rx ws :
  rx_ok 0 cycles rx = true -> fits_rom ws = true -> program_ok (with_rx rx (with_words ws (program name cycles))).
Proof. intros Hrx Hws. split_and!; [exact Hws|exact Hrx|constructor]. Qed.

Lemma segment_program_ok name cycles rx x ws :
  rx_ok 0 cycles rx = true -> fits_rom ws = true -> in_used x ->
  program_ok (with_rx rx (with_xmem [x] (with_words ws (program name cycles)))).
Proof. intros Hrx Hws Hx. split_and!; [exact Hws|exact Hrx|by repeat constructor]. Qed.

(** The part of a list that comes before [rs]. *)
Ltac before rs l :=
  match l with
  | rs => constr:(@nil Program)
  | ?x :: ?l' => let k := before rs l' in constr:(x :: k)
  | ?a ++ ?l' => let k := before rs l' in constr:(a ++ k)
  end.

(** The programs of LOCKSTEP_SEEDS: made if each fits, else the assertion of the first that doesn't. *)
Lemma seeds_ok {G} `{Random G} (rng : Z -> G) seeds :
  let longs := mapM (fun s => long_run [] <$> random_program rng s 1500 200000 0 (fstr "random_rv_" s)) seeds in
  (exists ps, longs = Ok ps /\ map p_name ps = map (fstr "random_rv_") seeds /\ Forall program_ok ps) \/
  longs = Raise AssertionError /\ exists s, s ∈ seeds /\ random_rv (rng s) 1500 0 = Raise AssertionError.
Proof.
  induction seeds as [|s seeds IH]; cbv zeta; [left; by exists []|]. rewrite mapM_cons.
  destruct (random_rv_ok (rng s) 1500 0 ltac:(lia)) as (ws & pro & Hr & _ & _ & Hw).
  assert (Hone : random_program rng s 1500 200000 0 (fstr "random_rv_" s) = (ws ← random_rv (rng s) 1500 0; Ok (with_words ws (program (fstr "random_rv_" s) 200000)))) by done.
  rewrite Hone, Hr. clear Hone. destruct (len ws <=? 0x3800 / 4) eqn:Hfit; [|right; split; [done|]; exists s; split; [by left|done]].
  destruct IH as [(ps & E & Hn & Hps)|[E (s' & Hin & Hs')]].
  - left. cbn [mbind res_bind fmap res_fmap]. rewrite E. eexists. split; [reflexivity|]. split; [cbn [map]; by rewrite Hn|].
    constructor; [|done]. split_and!; [|done|constructor]. cbn [long_run with_words p_imem_words]. unfold fits_rom. rewrite Hfit. cbn [andb].
    apply forallb_forall. intros w Hin. apply list_elem_of_In, list_elem_of_lookup in Hin as [i Hi]. destruct (Hw i w Hi) as (Hr' & _). lia.
  - right. split; [cbn [mbind res_bind fmap res_fmap]; by rewrite E|]. exists s'. split; [by right|done].
Qed.

Lemma programs_ok {G} `{Random G} (rng : Z -> G) hack_hex words demo s2 hello hello_card :
  hex_words hack_hex = Ok words -> hack_image_bytes words = Ok demo -> len demo <= HACK_DEMO_BYTES ->
  s2_hello_card s2 hello = Ok hello_card ->
  exists ps, (forall seeds, programs rng hack_hex s2 hello seeds =
    (rs ← mapM (fun s => long_run [] <$> random_program rng s 1500 200000 0 (fstr "random_rv_" s)) seeds; Ok (ps ++ rs))) /\
    length ps = 26%nat /\ NoDup (map p_name ps) /\ Forall program_ok ps.
Proof.
  intros Hw Hd Hl Hc. pose proof rom_programs_fit as Hrom. pose proof hack_programs_fit as Hhack. cbn [forallb] in Hrom, Hhack.
  apply andb_true_iff in Hrom as [R1 Hrom]. apply andb_true_iff in Hrom as [R2 Hrom]. apply andb_true_iff in Hrom as [R3 Hrom].
  apply andb_true_iff in Hrom as [R4 Hrom]. apply andb_true_iff in Hrom as [R5 Hrom]. apply andb_true_iff in Hrom as [R6 Hrom].
  apply andb_true_iff in Hrom as [R7 Hrom]. apply andb_true_iff in Hrom as [R8 Hrom]. apply andb_true_iff in Hrom as [R9 Hrom].
  apply andb_true_iff in Hrom as [R10 Hrom]. apply andb_true_iff in Hrom as [R11 Hrom]. apply andb_true_iff in Hrom as [R12 Hrom].
  apply andb_true_iff in Hrom as [R13 _]. apply andb_true_iff in Hhack as [K1 Hhack]. apply andb_true_iff in Hhack as [K2 Hhack].
  apply andb_true_iff in Hhack as [K3 Hhack]. apply andb_true_iff in Hhack as [K4 _].
  destruct stage2_card_ok as (_ & card & _ & _ & Hcard). destruct stub_ok as (stub & Hs & Hstub).
  destruct (random_program_ok rng 1 300 20000 0 (fstr "random_rv_" 1) ltac:(lia)) as (w1 & E1 & F1).
  destruct (random_program_ok rng 2 300 20000 0 (fstr "random_rv_" 2) ltac:(lia)) as (w2 & E2 & F2).
  destruct (random_program_ok rng 3 300 20000 0 (fstr "random_rv_" 3) ltac:(lia)) as (w3 & E3 & F3).
  destruct (random_program_ok rng 4 300 13000 (XMEM + 0x400) "random_rv_xmem_4" ltac:(lia)) as (w4 & E4 & F4).
  destruct muldiv_ok as (md & mdi & Hmd & Hmdf & Hmdu).
  destruct (in_rom_ok "traps" 6000 traps R1) as (r1 & A1 & B1).
  destruct (in_rom_ok "boot_mode_hack" 6000 boot_mode_hack R2) as (r2 & A2 & B2).
  destruct (in_rom_ok "sd_clkdiv" 30000 sd_clkdiv R3) as (r3 & A3 & B3).
  destruct (in_rom_ok "s2_launch" S2_LAUNCH_CYCLES (s2_launch false) R4) as (r4 & A4 & B4).
  destruct (in_rom_ok "s2_launch_hack" S2_LAUNCH_CYCLES (s2_launch true) R5) as (r5 & A5 & B5).
  destruct (in_rom_ok "xmem" 17500 xmem R6) as (r6 & A6 & B6).
  destruct (in_rom_ok "xcache" 18000 xcache R7) as (r7 & A7 & B7).
  destruct (in_rom_ok "rom_stores" 2000 rom_stores R8) as (r8 & A8 & B8).
  destruct (in_rom_ok "umode" 4000 umode R9) as (r9 & A9 & B9).
  destruct (in_rom_ok "amo" 9000 amo_program R10) as (r10 & A10 & B10).
  destruct (in_rom_ok "clint" CLINT_CYCLES clint R11) as (r11 & A11 & B11).
  destruct (in_rom_ok "uart_drop" UART_DROP_CYCLES uart_drop R12) as (r12 & A12 & B12).
  destruct (in_rom_ok "liteuart" LITEUART_CYCLES liteuart R13) as (r13 & A13 & B13).
  destruct (in_hack_ok "hack_soft_reset" 20000 (hack_soft_reset true false) K1) as (t1 & i1 & C1 & D1 & U1).
  destruct (in_hack_ok "xcache_hack" XCACHE_HACK_CYCLES xcache_hack K2) as (t2 & i2 & C2 & D2 & U2).
  destruct (in_hack_ok "boot_mode_rv32" 20000 (hack_soft_reset true true) K3) as (t3 & i3 & C3 & D3 & U3).
  destruct (in_hack_ok "liteuart_hack" LITEUART_HACK_CYCLES liteuart_hack K4) as (t4 & i4 & C4 & D4 & U4).
  eexists. split; [|split; [|split]].
  - intros seeds. unfold programs, hack_demo, stage2_card. rewrite (mapM_cons _ 1), (mapM_cons _ 2), (mapM_cons _ 3), E1, E2, E3, E4, Hw. cbn [mbind res_bind mapM].
    rewrite Hd, stage2_image_ok, Hmd, Hs. cbn [mbind res_bind]. rewrite Hcard, Hc. rewrite (proj2 (Z.leb_le _ _) Hl).
    rewrite A1, A2, A3, A4, A5, A6, A7, A8, A9, A10, A11, A12, A13, C1, C2, C3, C4. cbn [mbind res_bind].
    match goal with |- context [mapM ?f seeds] => destruct (mapM f seeds) as [rs|e] end; [|reflexivity]. cbn [mbind res_bind].
    cbn [mbind res_bind mret res_ret py_assert app].
    match goal with |- Ok ?l = Ok (?ps ++ rs) => let k := before rs l in unify ps k; reflexivity end.
  - reflexivity.
  - apply (bool_decide_unpack _). vm_compute. exact I.
  - repeat (apply List.Forall_cons; [first
      [apply (rom_program_ok _ _ []); [reflexivity|assumption]|apply (rom_program_ok _ _ [_]); [reflexivity|assumption]
      |apply (segment_program_ok _ _ []); [reflexivity|assumption|first [assumption|by apply hack_in_used]]
      |apply (segment_program_ok _ _ [_]); [reflexivity|assumption|assumption]
      |apply (rom_program_ok _ _ [_; _]); [reflexivity|assumption]|split_and!; [exact I|reflexivity|constructor]]|]).
    constructor.
Qed.

(** A range of whole words of the window. *)
Definition used_range (r : Z * Z) : bool :=
  (0 <=? r.1) && (r.1 <? r.2) && (r.2 <=? XMEM_BYTES) && (r.1 mod 4 =? 0) && (r.2 mod 4 =? 0).

(** C32: whatever the random numbers, and with a Hack demo that fits its range and the second
    stage's card built (or not there), the 26 programs of the list are made, with different
    names, and those of LOCKSTEP_SEEDS after them, each under its seed's name, unless one is too
    long for the ROM, which an assertion says. Every program made has ROM words of 32 bits that
    fit the 14 KB of the first stage; its bytes on the UART don't overlap and are all sent
    before the run ends; and the data it is given in the window before it starts lies within
    the ranges at which the RTL's window is zeroed, which are whole words of it. *)
Theorem programs_made {G} `{Random G} (rng : Z -> G) hack_hex words demo s2 hello hello_card
    (Hw : hex_words hack_hex = Ok words) (Hd : hack_image_bytes words = Ok demo) (Hl : len demo <= HACK_DEMO_BYTES)
    (Hc : s2_hello_card s2 hello = Ok hello_card) :
  (exists ps, length ps = 26%nat /\ NoDup (map p_name ps) /\ Forall program_ok ps /\ programs rng hack_hex s2 hello [] = Ok ps /\
    forall seeds,
      (exists rs, programs rng hack_hex s2 hello seeds = Ok (ps ++ rs) /\ map p_name rs = map (fstr "random_rv_") seeds /\ Forall program_ok rs) \/
      programs rng hack_hex s2 hello seeds = Raise AssertionError /\ exists s, s ∈ seeds /\ random_rv (rng s) 1500 0 = Raise AssertionError) /\
  forallb used_range XMEM_USED = true.
Proof.
  split; [|vm_compute; reflexivity]. destruct (programs_ok rng hack_hex words demo s2 hello hello_card Hw Hd Hl Hc) as (ps & Hp & Hn & Hd' & Hf).
  exists ps. split; [done|]. split; [done|]. split; [done|]. split; [rewrite Hp; cbn; by rewrite app_nil_r|].
  intros seeds. rewrite Hp. destruct (seeds_ok rng seeds) as [(rs & E & Hnames & Hok)|[E Hs]].
  - left. exists rs. by rewrite E.
  - right. by rewrite E.
Qed.

Lemma programs_made_witness :
  (exists ps, length ps = 26%nat /\ NoDup (map p_name ps) /\ Forall program_ok ps /\
    programs (fun _ => demo_stream) ["EA870002"; ""; "6000"] None None [] = Ok ps /\
    forall seeds,
      (exists rs, programs (fun _ => demo_stream) ["EA870002"; ""; "6000"] None None seeds = Ok (ps ++ rs) /\ map p_name rs = map (fstr "random_rv_") seeds /\ Forall program_ok rs) \/
      programs (fun _ => demo_stream) ["EA870002"; ""; "6000"] None None seeds = Raise AssertionError /\ exists s, s ∈ seeds /\ random_rv demo_stream 1500 0 = Raise AssertionError) /\
  forallb used_range XMEM_USED = true.
Proof.
  apply (programs_made (fun _ => demo_stream) ["EA870002"; ""; "6000"]%string [0xEA870002; 0x6000]
    [x02; x00; x87; xea; x00; x60; x00; x00] None None []); try (vm_compute; reflexivity). vm_compute. discriminate.
Defined.
