(* ===== verification/Models.v ===== *)
(** * The unit tests' reference models

    sim/unit/unit_models.py: the RV32I ALU, RV32M and the Hack comps as Python integers, with
    the random operands; and the emulator's computations of the same results
    (emu/crates/vux9k_emu/src/soc.rs: [muldiv], the register operations of [step_rv], the comp
    table of [step_hack]) in fixed-width arithmetic. They agree on every operand. *)
From S2P Require Import Prelude Rv32Asm HackAsm Lockstep RandomRv.
#[local] Open Scope Z_scope.

(** ** sim/unit/unit_models.py *)

Definition MASK32 : Z := 0xFFFFFFFF.

Definition EDGES32 : list Z :=
  [0x00000000; 0x00000001; 0x00000002; 0x0000001F; 0x00000020; 0x7FFFFFFE; 0x7FFFFFFF; 0x80000000; 0x80000001; 0xFFFFFFFE;
   0xFFFFFFFF; 0x55555555; 0xAAAAAAAA].

Definition signed32 (x : Z) : Z := if negb (Z.land x 0x80000000 =? 0) then x - Z.shiftl 1 32 else x.

Definition sext (value bits : Z) : Z :=
  let value := Z.land value (Z.shiftl 1 bits - 1) in
  let value := if negb (Z.land value (Z.shiftl 1 (bits - 1)) =? 0) then value - Z.shiftl 1 bits else value in
  Z.land value MASK32.

Inductive AluOp := ALU_ADD | ALU_SUB | ALU_SLL | ALU_SLT | ALU_SLTU | ALU_XOR | ALU_SRL | ALU_SRA | ALU_OR | ALU_AND | ALU_COPY_B | ALU_COPY_A.

(** [AluOp]'s values, [range(12)]. *)
Definition ALU_OPS : list AluOp :=
  [ALU_ADD; ALU_SUB; ALU_SLL; ALU_SLT; ALU_SLTU; ALU_XOR; ALU_SRL; ALU_SRA; ALU_OR; ALU_AND; ALU_COPY_B; ALU_COPY_A].

Definition alu_result (op : AluOp) (a b : Z) : Z :=
  let sh := Z.land b 0x1F in
  match op with
  | ALU_ADD => Z.land (a + b) MASK32
  | ALU_SUB => Z.land (a - b) MASK32
  | ALU_SLL => Z.land (Z.shiftl a sh) MASK32
  | ALU_SLT => Z.b2z (signed32 a <? signed32 b)
  | ALU_SLTU => Z.b2z (a <? b)
  | ALU_XOR => Z.lxor a b
  | ALU_SRL => Z.shiftr a sh
  | ALU_SRA => Z.land (Z.shiftr (signed32 a) sh) MASK32
  | ALU_OR => Z.lor a b
  | ALU_AND => Z.land a b
  | ALU_COPY_B => b
  | ALU_COPY_A => a
  end.

(** [.get(op, 0)]. *)
Definition alu_model (op a b : Z) : Z :=
  if op <? 0 then 0 else match ALU_OPS !! Z.to_nat op with Some o => alu_result o a b | None => 0 end.

Definition HACK_COMP : list (Z * (Z -> Z -> Z)) := [
  (0x2A, fun d y => 0); (0x3F, fun d y => 1); (0x3A, fun d y => -1); (0x0C, fun d y => d); (0x30, fun d y => y);
  (0x0D, fun d y => Z.lnot d); (0x31, fun d y => Z.lnot y); (0x0F, fun d y => -d); (0x33, fun d y => -y);
  (0x1F, fun d y => d + 1); (0x37, fun d y => y + 1); (0x0E, fun d y => d - 1); (0x32, fun d y => y - 1);
  (0x02, fun d y => d + y); (0x13, fun d y => d - y); (0x07, fun d y => y - d); (0x00, Z.land); (0x15, Z.lor);
  (0x05, Z.lxor)].

(** [MUL] to [REMU], [range(8)]. *)
Definition MUL := 0.
Definition MULH := 1.
Definition MULHSU := 2.
Definition MULHU := 3.
Definition DIV := 4.
Definition DIVU := 5.
Definition REM := 6.
Definition REMU := 7.

Definition muldiv_model (funct3 a b : Z) : Z :=
  let sa := signed32 a in
  let sb := signed32 b in
  let r :=
    if funct3 =? MUL then a * b
    else if funct3 =? MULH then Z.shiftr (sa * sb) 32
    else if funct3 =? MULHSU then Z.shiftr (sa * b) 32
    else if funct3 =? MULHU then Z.shiftr (a * b) 32
    else if (funct3 =? DIV) || (funct3 =? REM) then
      let '(q, rem) :=
        if b =? 0 then (-1, sa)
        else if (sa =? - Z.shiftl 1 31) && (sb =? -1) then (sa, 0)
        else
          let q := Z.abs sa / Z.abs sb * (if negb (Bool.eqb (sa <? 0) (sb <? 0)) then -1 else 1) in
          (q, sa - q * sb) in
      if funct3 =? DIV then q else rem
    else if b =? 0 then (if funct3 =? DIVU then MASK32 else a)
    else if funct3 =? DIVU then a / b else a mod b in
  Z.land r MASK32.

Section Random.
Context {G : Type} `{Random G}.

(** [random.choice(l)] of a list that isn't empty, [random.randint(a, b)]. *)
Definition choose (l : list Z) (g : G) : Z * G :=
  let '(k, g) := randbelow (len l) g in (nth (Z.to_nat k) l 0, g).
Definition randint (a b : Z) (g : G) : Z * G := let '(k, g) := randbelow (b - a + 1) g in (a + k, g).

Definition rand32 (g : G) : Z * G :=
  let '(r, g) := random g in
  if random_lt r 2 10 then choose EDGES32 g
  else if random_lt r 35 100 then
    let '(e, g) := choose EDGES32 g in let '(d, g) := randint (-3) 3 g in (Z.land (e + d) MASK32, g)
  else if random_lt r 45 100 then let '(n, g) := randint 1 8 g in getrandbits n g
  else getrandbits 32 g.

End Random.

(** ** The emulator *)
Module Emu.

(** Machine arithmetic: [wrapping_*] on u32, [as i32]. *)
Definition u32 (x : Z) : Z := x mod 2 ^ 32.
Definition i32 (x : Z) : Z := if x <? 2 ^ 31 then x else x - 2 ^ 32.

(** [muldiv]; [wrapping_div] and [wrapping_rem] of i32 are the truncated quotient and
    remainder, wrapped. *)
Definition muldiv (f3 a b : Z) : Z :=
  let sa := i32 a in
  let sb := i32 b in
  if f3 =? 0 then u32 (a * b)
  else if f3 =? 1 then u32 (Z.shiftr (sa * sb) 32)
  else if f3 =? 2 then u32 (Z.shiftr (sa * b) 32)
  else if f3 =? 3 then u32 (Z.shiftr (a * b) 32)
  else if ((f3 =? 4) || (f3 =? 5)) && (b =? 0) then 0xFFFFFFFF
  else if f3 =? 4 then u32 (Z.quot sa sb)
  else if f3 =? 5 then a / b
  else if b =? 0 then a
  else if f3 =? 6 then u32 (Z.rem sa sb)
  else a mod b.

(** [step_rv]'s OP_IMM and OP_REG: [sub] is OP_REG with funct7 0x20, [arith] funct7's bit 5. *)
Definition alu (f3 : Z) (sub arith : bool) (x1 b : Z) : Z :=
  let sh := Z.land b 31 in
  if f3 =? 0 then (if sub then u32 (x1 - b) else u32 (x1 + b))
  else if f3 =? 1 then u32 (Z.shiftl x1 sh)
  else if f3 =? 2 then Z.b2z (i32 x1 <? i32 b)
  else if f3 =? 3 then Z.b2z (x1 <? b)
  else if f3 =? 4 then Z.lxor x1 b
  else if f3 =? 5 then (if arith then u32 (Z.shiftr (i32 x1) sh) else Z.shiftr x1 sh)
  else if f3 =? 6 then Z.lor x1 b
  else Z.land x1 b.

(** [step_hack]'s comp. *)
Definition hack_out (comp d y : Z) : Z :=
  if comp =? 0x2A then 0
  else if comp =? 0x3F then 1
  else if comp =? 0x3A then 0xFFFFFFFF
  else if comp =? 0x0C then d
  else if comp =? 0x30 then y
  else if comp =? 0x0D then u32 (Z.lnot d)
  else if comp =? 0x31 then u32 (Z.lnot y)
  else if comp =? 0x0F then u32 (0 - d)
  else if comp =? 0x33 then u32 (0 - y)
  else if comp =? 0x1F then u32 (d + 1)
  else if comp =? 0x37 then u32 (y + 1)
  else if comp =? 0x0E then u32 (d - 1)
  else if comp =? 0x32 then u32 (y - 1)
  else if comp =? 0x02 then u32 (d + y)
  else if comp =? 0x13 then u32 (d - y)
  else if comp =? 0x07 then u32 (y - d)
  else if comp =? 0x00 then Z.land d y
  else if comp =? 0x15 then Z.lor d y
  else if comp =? 0x05 then Z.lxor d y
  else u32 (d + y).

End Emu.

(** ** They agree *)

Lemma signed32_i32 x : 0 <= x < 2 ^ 32 -> signed32 x = Emu.i32 x.
Proof.
  intros Hx. unfold signed32, Emu.i32. change (Z.shiftl 1 32) with (2 ^ 32). rewrite (land_masked x _ 31 1) by lia.
  destruct (Z.ltb_spec x (2 ^ 31)), (Z.eqb_spec (x / 2 ^ 31 mod 2 ^ 1 * 2 ^ 31) 0); cbn [negb]; dlia.
Qed.

Lemma mask32 x : Z.land x MASK32 = Emu.u32 x.
Proof. unfold MASK32, Emu.u32. by rewrite (land_mask x 32) by lia. Qed.

Lemma i32_range x : 0 <= x < 2 ^ 32 -> - 2 ^ 31 <= Emu.i32 x < 2 ^ 31.
Proof. intros Hx. unfold Emu.i32. destruct (Z.ltb_spec x (2 ^ 31)); lia. Qed.

(** Division rounding toward zero, by its signs. *)
Lemma quot_signs a b : b <> 0 -> Z.abs a / Z.abs b * (if negb (Bool.eqb (a <? 0) (b <? 0)) then -1 else 1) = Z.quot a b.
Proof.
  intros Hb. rewrite <- Z.quot_div_nonneg by lia.
  destruct (Z.ltb_spec a 0), (Z.ltb_spec b 0); cbn [Bool.eqb negb].
  - rewrite (Z.abs_neq a), (Z.abs_neq b) by lia. rewrite Z.quot_opp_opp by lia. lia.
  - rewrite (Z.abs_neq a), (Z.abs_eq b) by lia. rewrite Z.quot_opp_l by lia. lia.
  - rewrite (Z.abs_eq a), (Z.abs_neq b) by lia. rewrite Z.quot_opp_r by lia. lia.
  - rewrite (Z.abs_eq a), (Z.abs_eq b) by lia. lia.
Qed.

Lemma div_agree a b :
  0 <= a < 2 ^ 32 -> 0 <= b < 2 ^ 32 ->
  muldiv_model DIV a b = Emu.muldiv 4 a b /\ muldiv_model REM a b = Emu.muldiv 6 a b.
Proof.
  intros Ha Hb. unfold muldiv_model, Emu.muldiv. rewrite !mask32, !signed32_i32 by done.
  pose proof (i32_range a Ha) as Hra. pose proof (i32_range b Hb) as Hrb. cbn [Z.eqb Pos.eqb DIV DIVU REM MUL MULH MULHSU MULHU orb andb].
  destruct (Z.eqb_spec b 0) as [->|Hb0].
  - split; [reflexivity|]. unfold Emu.u32, Emu.i32. destruct (Z.ltb_spec a (2 ^ 31)); dlia.
  - assert (Hsb : Emu.i32 b <> 0) by (unfold Emu.i32; destruct (Z.ltb_spec b (2 ^ 31)); lia).
    change (- Z.shiftl 1 31) with (- 2 ^ 31).
    destruct (Z.eqb_spec (Emu.i32 a) (- 2 ^ 31)) as [Emin|]; [destruct (Z.eqb_spec (Emu.i32 b) (-1)) as [Em1|]|]; cbn [andb].
    + rewrite Emin, Em1. split; reflexivity.
    + rewrite quot_signs by done. split; [done|]. by rewrite Z.rem_eq, Z.mul_comm by done.
    + rewrite quot_signs by done. split; [done|]. by rewrite Z.rem_eq, Z.mul_comm by done.
Qed.

(** What an R-type's funct3 and funct7 ask of the ALU (rv32i_decode). *)
Definition alu_op (f3 : Z) (alt : bool) : Z :=
  if f3 =? 0 then (if alt then 1 else 0)
  else if f3 =? 5 then (if alt then 7 else 6)
  else nth (Z.to_nat f3) [0; 2; 3; 4; 5; 6; 8; 9] 0.

(** The emulator's division and remainder, in mathematics. *)
Definition division_spec (a b : Z) : Prop :=
  let sa := Emu.i32 a in
  let sb := Emu.i32 b in
  (b <> 0 -> exists q r, sa = q * sb + r /\ Z.abs r < Z.abs sb /\ (r = 0 \/ Z.sgn r = Z.sgn sa) /\
     Emu.muldiv 4 a b = Emu.u32 q /\ Emu.muldiv 6 a b = Emu.u32 r /\
     a = Emu.muldiv 5 a b * b + Emu.muldiv 7 a b /\ 0 <= Emu.muldiv 7 a b < b) /\
  (b = 0 -> Emu.muldiv 4 a b = 0xFFFFFFFF /\ Emu.muldiv 5 a b = 0xFFFFFFFF /\ Emu.muldiv 6 a b = a /\ Emu.muldiv 7 a b = a).

Lemma division_correct a b : 0 <= a < 2 ^ 32 -> 0 <= b < 2 ^ 32 -> division_spec a b.
Proof.
  intros Ha Hb. unfold division_spec. pose proof (i32_range a Ha) as Hra. pose proof (i32_range b Hb) as Hrb. split.
  - intros Hb0. assert (Hsb : Emu.i32 b <> 0) by (unfold Emu.i32; destruct (Z.ltb_spec b (2 ^ 31)); lia).
    exists (Z.quot (Emu.i32 a) (Emu.i32 b)), (Z.rem (Emu.i32 a) (Emu.i32 b)).
    pose proof (Z.quot_rem' (Emu.i32 a) (Emu.i32 b)). pose proof (Z.rem_bound_abs (Emu.i32 a) (Emu.i32 b) Hsb).
    unfold Emu.muldiv. rewrite !(proj2 (Z.eqb_neq _ _) Hb0). cbn [Z.eqb Pos.eqb orb andb]. split_and!; try done; try lia.
    + destruct (Z.eq_dec (Z.rem (Emu.i32 a) (Emu.i32 b)) 0) as [E|E]; [by left|right].
      by apply Z.rem_sign_nz.
    + dlia.
    + apply Z.mod_pos_bound. lia.
    + apply Z.mod_pos_bound. lia.
  - intros ->. by repeat split.
Qed.

(** C22: the reference RV32M agrees with the emulator's on every operand, division by zero and
    the signed overflow included; and the results are the quotient rounded toward zero and
    its remainder, with the sign of the dividend. *)
Theorem muldiv_agree f3 a b (Hf : 0 <= f3 < 8) (Ha : 0 <= a < 2 ^ 32) (Hb : 0 <= b < 2 ^ 32) :
  muldiv_model f3 a b = Emu.muldiv f3 a b /\ division_spec a b.
Proof.
  split; [|by apply division_correct]. destruct (div_agree a b Ha Hb) as [Hd Hr].
  assert (f3 = 0 \/ f3 = 1 \/ f3 = 2 \/ f3 = 3 \/ f3 = 4 \/ f3 = 5 \/ f3 = 6 \/ f3 = 7)
    as [-> | [-> | [-> | [-> | [-> | [-> | [-> | ->]]]]]]] by lia; try done;
    unfold muldiv_model, Emu.muldiv; rewrite mask32, ?signed32_i32 by done; try done;
    cbn [Z.eqb Pos.eqb DIV REM MUL MULH MULHSU MULHU DIVU orb andb]; destruct (Z.eqb_spec b 0) as [->|Hb0]; try done;
    unfold Emu.u32; apply Z.mod_small; unfold MASK32; first [lia
      |pose proof (Z.mod_pos_bound a b); pose proof (Z.div_pos a b); pose proof (Z.div_le_upper_bound a b a); nia].
Qed.

Lemma muldiv_agree_witness :
  muldiv_model DIV 0x80000000 0xFFFFFFFF = Emu.muldiv DIV 0x80000000 0xFFFFFFFF /\ division_spec 0x80000000 0xFFFFFFFF.
Proof. apply (muldiv_agree DIV 0x80000000 0xFFFFFFFF); unfold DIV; lia. Defined.

(** Bitwise operations keep their width. *)
Lemma high_bits x n : 0 <= n -> 0 <= x < 2 ^ n -> forall i, n <= i -> Z.testbit x i = false.
Proof. intros Hn Hx i Hi. rewrite <- (Z.mod_small x (2 ^ n)) by done. by apply Z.mod_pow2_bits_high. Qed.

Lemma bits_range x n : 0 <= n -> (forall i, n <= i -> Z.testbit x i = false) -> 0 <= x < 2 ^ n.
Proof.
  intros Hn Hx. assert (Heq : x mod 2 ^ n = x).
  { apply Z.bits_inj'. intros i Hi. destruct (Z.ltb_spec i n).
    - by apply Z.mod_pow2_bits_low.
    - rewrite Z.mod_pow2_bits_high, Hx by lia. done. }
  rewrite <- Heq. apply Z.mod_pos_bound. lia.
Qed.

Lemma alu_range f3 sub arith x1 b :
  0 <= x1 < 2 ^ 32 -> 0 <= b < 2 ^ 32 -> 0 <= Emu.alu f3 sub arith x1 b < 2 ^ 32.
Proof.
  intros Hx Hb. assert (Hu : forall v, 0 <= Emu.u32 v < 2 ^ 32) by (intros v; apply Z.mod_pos_bound; lia).
  assert (Hbit : forall c : bool, 0 <= Z.b2z c < 2 ^ 32) by (intros []; cbn; lia).
  pose proof (high_bits x1 32 ltac:(lia) Hx) as Bx. pose proof (high_bits b 32 ltac:(lia) Hb) as Bb.
  unfold Emu.alu. repeat match goal with |- context [if ?c then _ else _] => destruct c end; auto;
    try (apply bits_range; [lia|]; intros i Hi; rewrite ?Z.lxor_spec, ?Z.lor_spec, ?Z.land_spec, Bx, Bb by lia; done).
  rewrite (land_mask b 5), shiftr_div by dlia. pose proof (Z.pow_pos_nonneg 2 (b mod 2 ^ 5) ltac:(lia) ltac:(dlia)) as Hp.
  split; [apply Z.div_pos; lia|]. apply Z.div_lt_upper_bound; [lia|]. nia.
Qed.

(** Modulo 2^16 the emulator's comp is the model's. *)
Lemma hack_comp_out comp f d y : (comp, f) ∈ HACK_COMP -> f d y mod 2 ^ 16 = Emu.hack_out comp d y mod 2 ^ 16.
Proof.
  intros Hcomp. unfold HACK_COMP in Hcomp.
  repeat (apply elem_of_cons in Hcomp as [[= -> ->] | Hcomp]; [unfold Emu.hack_out; cbn -[Z.modulo Z.land Z.lor Z.lxor Z.lnot Emu.u32];
    try reflexivity; unfold Emu.u32; dlia|]).
  by apply not_elem_of_nil in Hcomp.
Qed.

(** The reference ALU agrees with the emulator's on every operand, for every R-type
    operation, its results 32-bit values; and a Hack comp's low 16 bits, all that its callers
    look at, are those of the emulator's 32-bit result for every comp of the table. *)
Theorem alu_agree f3 alt a b comp f d y
    (Hf : 0 <= f3 < 8) (Halt : alt = true -> f3 = 0 \/ f3 = 5) (Ha : 0 <= a < 2 ^ 32) (Hb : 0 <= b < 2 ^ 32)
    (Hcomp : (comp, f) ∈ HACK_COMP) :
  alu_model (alu_op f3 alt) a b = Emu.alu f3 alt alt a b /\ 0 <= Emu.alu f3 alt alt a b < 2 ^ 32 /\
  f d y mod 2 ^ 16 = Emu.hack_out comp d y mod 2 ^ 16.
Proof.
  split; [|split; [by apply alu_range|]].
  - assert (f3 = 0 \/ f3 = 1 \/ f3 = 2 \/ f3 = 3 \/ f3 = 4 \/ f3 = 5 \/ f3 = 6 \/ f3 = 7) as Hc by lia.
    destruct alt; [destruct (Halt eq_refl) as [-> | ->]|destruct Hc as [-> | [-> | [-> | [-> | [-> | [-> | [-> | ->]]]]]]]];
      match goal with |- alu_model ?n a b = _ =>
        let o := eval vm_compute in (ALU_OPS !! Z.to_nat n) in
        match o with Some ?o' => change (alu_model n a b) with (alu_result o' a b) end end;
      unfold alu_result; rewrite ?mask32, ?signed32_i32 by done; reflexivity.
  - by apply hack_comp_out.
Qed.

Lemma alu_agree_witness :
  alu_model 7 0x80000000 0xFF = Emu.alu 5 true true 0x80000000 0xFF /\ 0 <= Emu.alu 5 true true 0x80000000 0xFF < 2 ^ 32 /\
  - (5) mod 2 ^ 16 = Emu.hack_out 0x0F 5 7 mod 2 ^ 16.
Proof.
  apply (alu_agree 5 true 0x80000000 0xFF 0x0F (fun d y => - d) 5 7); [lia|by right|lia|lia|].
  apply (list_elem_of_lookup_2 _ 7). reflexivity.
Defined.

(** ** Random operands *)

(** The random operands are 32-bit values, whatever the numbers drawn. *)
Theorem rand32_range {G} `{Random G} (g : G) : 0 <= (rand32 g).1 < 2 ^ 32.
Proof.
  assert (Hmask : forall v, 0 <= Z.land v MASK32 < 2 ^ 32) by (intros v; rewrite mask32; apply Z.mod_pos_bound; lia).
  unfold rand32, choose, randint. destruct (random g) as [r g1]. destruct (random_lt r 2 10).
  - pose proof (randbelow_range (len EDGES32) g1 ltac:(vm_compute; reflexivity)) as Hk.
    destruct (randbelow (len EDGES32) g1) as [k g2]. cbn [fst] in *.
    assert (Hall : Forall (fun e => 0 <= e < 2 ^ 32) EDGES32) by (repeat constructor; lia).
    rewrite Forall_nth in Hall. apply Hall. change (len EDGES32) with 13 in Hk. cbn. lia.
  - destruct (random_lt r 35 100).
    + destruct (randbelow (len EDGES32) g1) as [k g2]. destruct (randbelow (3 - -3 + 1) g2) as [k' g3]. apply Hmask.
    + destruct (random_lt r 45 100).
      * pose proof (randbelow_range (8 - 1 + 1) g1 ltac:(lia)) as Hn. destruct (randbelow (8 - 1 + 1) g1) as [n g2]. cbn [fst] in Hn.
        pose proof (getrandbits_range (1 + n) g2 ltac:(lia)) as Hb.
        pose proof (Z.pow_le_mono_r 2 (1 + n) 32 ltac:(lia) ltac:(lia)). lia.
      * by apply getrandbits_range.
Qed.
