(* ===== verification/MuldivRtl.v ===== *)
(** * The multiplier and divider of the RTL

    soc/cpu/rv32m_muldiv.veryl, clock by clock: one 34-bit adder, 32 steps. What it gives is the
    unit tests' reference model (Models.v) on every operand, 33 cycles after the start. The
    step counter's reads are a parameter: with them as written it is the module; with bit 4
    read inverted while bit 3 is 0 it is a mutant that scripts/mcy/mutation.py accepts as
    equivalent, which it is. *)
From S2P Require Import Prelude Models.
#[local] Open Scope Z_scope.

(** ** Vectors *)

(** [x[hi:lo]], [x[i]], and [{a, b}] with [b] of [w] bits. *)
Definition bits (x hi lo : Z) : Z := x / 2 ^ lo mod 2 ^ (hi - lo + 1).
Definition bit (x i : Z) : bool := bits x i i =? 1.
Definition cat (a w b : Z) : Z := a * 2 ^ w + b.
(** [~x], [~x + 1] of [w] bits. *)
Definition inv (w x : Z) : Z := 2 ^ w - 1 - x.
Definition neg (w x : Z) : Z := (inv w x + 1) mod 2 ^ w.

(** ** The module *)

Record muldiv := mkMuldiv {
  hi : Z; lo : Z; mcand : Z; count : Z; active : bool; fin : bool; is_div : bool; msub : bool; sel_hi : bool; neg_res : bool
}.

(** The registers after [start]'s clock; the operands' signs and magnitudes. *)
Definition signed_a (f3 : Z) : bool := (f3 =? 1) || (f3 =? 2) || (f3 =? 4) || (f3 =? 6).
Definition signed_b (f3 : Z) : bool := (f3 =? 1) || (f3 =? 4) || (f3 =? 6).
Definition magnitude (s : bool) (x : Z) : Z := if s then neg 32 x else x.
Definition started (f3 a b : Z) : muldiv :=
  let sa := signed_a f3 && bit a 31 in
  let sb := signed_b f3 && bit b 31 in
  let div := bit f3 2 in
  mkMuldiv 0 (if div then magnitude sa a else b)
    (if div then magnitude sb b else cat (Z.b2z (negb (f3 =? 3) && negb (f3 =? 0) && bit a 31)) 32 a)
    31 true false div (f3 =? 1)
    (negb (bits f3 1 0 =? 0) && negb div || div && bit f3 1)
    (div && (if bit f3 1 then sa else negb (Bool.eqb sa sb) && negb (b =? 0))).

Section Module.
(** What a read of [count] gives. *)
Variable readc : Z -> Z.

Definition shifted (s : muldiv) : Z := cat (bits (hi s) 31 0) 1 (bits (lo s) 31 31).
Definition sum (s : muldiv) : Z :=
  let add_m := bit (lo s) 0 in
  let sub := is_div s || (msub s && (readc (count s) =? 0)) in
  let x := if is_div s then shifted s else cat (bits (hi s) 32 32) 33 (hi s) in
  let y0 := if is_div s then mcand s else if add_m then cat (bits (mcand s) 32 32) 33 (mcand s) else 0 in
  let y := if sub then inv 34 y0 else y0 in
  (x + y + Z.b2z sub) mod 2 ^ 34.

(** One clock out of reset. *)
Definition step (s : muldiv) : muldiv :=
  let sm := sum s in
  let h := if is_div s then (if bit sm 33 then shifted s else bits sm 32 0) else bits sm 33 1 in
  let l := if is_div s then cat (bits (lo s) 30 0) 1 (Z.b2z (negb (bit sm 33))) else cat (bits sm 0 0) 31 (bits (lo s) 31 1) in
  let last := readc (count s) =? 0 in
  mkMuldiv h l (mcand s) ((readc (count s) - 1) mod 2 ^ 5) (if last then false else active s) (if last then true else fin s)
    (is_div s) (msub s) (sel_hi s) (neg_res s).
Definition idle (s : muldiv) : muldiv :=
  mkMuldiv (hi s) (lo s) (mcand s) (count s) (active s) false (is_div s) (msub s) (sel_hi s) (neg_res s).
Definition clock (start : bool) (f3 a b : Z) (s : muldiv) : muldiv :=
  if start then started f3 a b else if active s then step s else idle s.

(** [done] and [result]. *)
Definition done_out (s : muldiv) : bool := fin s.
Definition result (s : muldiv) : Z :=
  let raw := if sel_hi s then bits (hi s) 31 0 else lo s in
  if neg_res s then neg 32 raw else raw.

(** [n] clocks without a start, whatever the other inputs. *)
Fixpoint run (ins : list (Z * Z * Z)) (s : muldiv) : muldiv :=
  match ins with [] => s | (f3, a, b) :: ins => run ins (clock false f3 a b s) end.

(** The values the counter's register takes. *)
Fixpoint counts (n : nat) : Z := match n with O => 31 | S n => (readc (counts n) - 1) mod 2 ^ 5 end.

(** The reads: 0 at the 32nd step and not before. *)
Hypothesis last_step : forall n, (n < 32)%nat -> (readc (counts n) =? 0) = (n =? 31)%nat.

(** ** Arithmetic of one step *)

(** A 33-bit number sign-extended to 34. *)
Lemma sext34 h : - 2 ^ 32 <= h < 2 ^ 32 -> cat (bits (h mod 2 ^ 33) 32 32) 33 (h mod 2 ^ 33) = h mod 2 ^ 34.
Proof. intros Hh. unfold cat, bits. change (32 - 32 + 1) with 1. dlia. Qed.
Lemma bit0_even x y n : 0 < n -> bit (x + 2 ^ n * y) 0 = bit x 0.
Proof.
  intros Hn. unfold bit, bits. change (0 - 0 + 1) with 1. rewrite !Z.pow_0_r, !Z.div_1_r.
  replace (2 ^ n * y) with (2 ^ (n - 1) * y * 2 ^ 1); [by rewrite Z.mod_add|]. replace n with (n - 1 + 1) at 2 by lia. rewrite Z.pow_add_r by lia. lia.
Qed.

(** Restoring division: with [A_k] the dividend's first [k] bits, the register pair holds the
    partial remainder and the quotient of [A_k], and the bits to come. A divisor 0 is never
    above the remainder. *)
Definition dividing (A B k h l : Z) : Prop :=
  exists q, l = A mod 2 ^ (32 - k) * 2 ^ k + q /\ 0 <= q < 2 ^ k /\ h + B * q = A / 2 ^ (32 - k) /\ 0 <= h /\
    (h < B \/ (B = 0 /\ q = 2 ^ k - 1)).

Lemma div_step A B k h l : 0 <= A < 2 ^ 32 -> 0 <= B < 2 ^ 32 -> 0 <= k < 32 -> dividing A B k h l ->
  let sh := cat (bits h 31 0) 1 (bits l 31 31) in
  let sm := (sh + inv 34 B + 1) mod 2 ^ 34 in
  dividing A B (k + 1) (if bit sm 33 then sh else bits sm 32 0) (cat (bits l 30 0) 1 (Z.b2z (negb (bit sm 33)))).
Proof.
  intros HA HB Hk (q & Hl & Hq & Hh & Hh0 & Hlt) sh sm.
  set (m := 2 ^ (31 - k)). set (p := 2 ^ k) in *. assert (Hm : 0 < m) by (unfold m; lia). assert (Hp : 0 < p) by (unfold p; lia).
  assert (Hmp : m * p = 2 ^ 31) by (unfold m, p; rewrite <- Z.pow_add_r by lia; f_equal; lia).
  assert (H2m : 2 ^ (32 - k) = 2 * m) by (unfold m; rewrite <- (Z.pow_succ_r 2) by lia; f_equal; lia). rewrite H2m in Hl, Hh.
  assert (Hnext : 2 ^ (32 - (k + 1)) = m) by (unfold m; f_equal; lia). assert (Hp2 : 2 ^ (k + 1) = 2 * p) by (unfold p; rewrite Z.pow_add_r by lia; lia).
  set (r := A mod (2 * m)) in *. set (Ak := A / (2 * m)) in *. assert (EA : A = Ak * (2 * m) + r) by (unfold Ak, r; pose proof (Z.div_mod A (2 * m)); lia).
  assert (Hr : 0 <= r < 2 * m) by (unfold r; apply Z.mod_pos_bound; lia).
  set (t := r / m). set (r' := r mod m). assert (Er : r = t * m + r') by (unfold t, r'; pose proof (Z.div_mod r m); lia).
  assert (Hr' : 0 <= r' < m) by (unfold r'; apply Z.mod_pos_bound; lia). assert (Ht : 0 <= t < 2) by (split; [unfold t; apply Z.div_pos; lia|unfold t; apply Z.div_lt_upper_bound; lia]).
  clearbody r Ak t r'. assert (EA1 : A / m = 2 * Ak + t) by (symmetry; apply (Z.div_unique _ _ _ r'); lia).
  assert (EA2 : A mod m = r') by (symmetry; apply (Z.mod_unique _ _ (2 * Ak + t)); lia).
  assert (Hlow : 0 <= r' * p + q < 2 ^ 31) by nia. assert (El : l = t * 2 ^ 31 + (r' * p + q)) by (rewrite Hl, Er; nia).
  assert (Hh32 : h < 2 ^ 32) by (destruct Hlt as [|[-> _]]; [lia|]; assert (Ak < 2 ^ 32) by nia; lia).
  assert (Hb1 : bits l 31 31 = t) by (unfold bits; change (31 - 31 + 1) with 1; rewrite El; dlia).
  assert (Hb2 : bits l 30 0 = r' * p + q) by (unfold bits; change (30 - 0 + 1) with 31; rewrite El; dlia).
  assert (Esh : sh = 2 * h + t) by (unfold sh; rewrite Hb1; unfold cat, bits; change (31 - 0 + 1) with 32; dlia).
  clearbody sh. rewrite Hb2. unfold dividing. rewrite Hnext, Hp2, EA1, EA2. destruct (Z.ltb_spec sh B) as [Hc|Hc].
  - assert (Hs : bit sm 33 = true) by (unfold bit, bits, sm, inv; change (33 - 33 + 1) with 1; apply Z.eqb_eq; dlia).
    rewrite Hs. exists (2 * q). unfold cat, Z.b2z. cbn [negb]. split_and!; [lia|lia|lia|lia|lia|left; lia].
  - assert (Hs : bit sm 33 = false) by (unfold bit, bits, sm, inv; change (33 - 33 + 1) with 1; apply Z.eqb_neq; dlia).
    assert (Hv : bits sm 32 0 = sh - B) by (unfold bits, sm, inv; change (32 - 0 + 1) with 33; dlia).
    rewrite Hs, Hv. exists (2 * q + 1). unfold cat, Z.b2z. cbn [negb]. split_and!; [lia|lia|lia|lia|lia|].
    destruct Hlt as [|[-> ->]]; [left; lia|right; lia].
Qed.

(** Shift and add: the accumulator and the product's low bits, with the multiplier's bits to
    come; [M] the multiplicand's value, [t] what it has been multiplied by. *)
Definition multiplying (M b k h l t : Z) : Prop :=
  exists g x, h = g mod 2 ^ 33 /\ - 2 ^ 32 <= g < 2 ^ 32 /\ l = b / 2 ^ k + 2 ^ (32 - k) * x /\ 0 <= x < 2 ^ k /\ g * 2 ^ k + x = M * t.

Lemma mul_step M b k h l t (subtract : bool) : - 2 ^ 32 < M < 2 ^ 32 -> 0 <= b < 2 ^ 32 -> 0 <= k < 32 -> multiplying M b k h l t ->
  let t' := t + (if subtract then -1 else 1) * (b / 2 ^ k mod 2) * 2 ^ k in
  - 2 ^ (k + 1) <= t' < 2 ^ (k + 1) -> (t' < 0 -> - 2 ^ 31 <= M < 2 ^ 31 /\ - 2 ^ k <= t') ->
  let y0 := if bit l 0 then cat (bits (M mod 2 ^ 33) 32 32) 33 (M mod 2 ^ 33) else 0 in
  let sm := (cat (bits h 32 32) 33 h + (if subtract then inv 34 y0 else y0) + Z.b2z subtract) mod 2 ^ 34 in
  multiplying M b (k + 1) (bits sm 33 1) (cat (bits sm 0 0) 31 (bits l 31 1)) t'.
Proof.
  intros HM Hb Hk (g & x & -> & Hg & Hl & Hx & E) t' Ht Hneg y0 sm.
  set (add := b / 2 ^ k mod 2) in *. assert (Hadd : 0 <= add < 2) by (apply Z.mod_pos_bound; lia).
  assert (Hbit : bit l 0 = (add =? 1)).
  { rewrite Hl. rewrite bit0_even by lia. unfold bit, bits, add. change (0 - 0 + 1) with 1. by rewrite Z.pow_0_r, Z.div_1_r. }
  set (S := g + (if subtract then -1 else 1) * add * M). assert (HS : - 2 ^ 33 <= S < 2 ^ 33) by (unfold S; destruct subtract; nia).
  assert (Esm : sm = S mod 2 ^ 34).
  { unfold sm, y0. rewrite (sext34 g) by lia. rewrite Hbit. unfold S. destruct (Z.eqb_spec add 1) as [->|Ha]; [rewrite sext34 by lia|replace add with 0 by lia];
      unfold inv, Z.b2z; destruct subtract; dlia. }
  clearbody sm. subst sm. set (p := 2 ^ k) in *. assert (Hp : 0 < p) by (unfold p; lia). assert (Hp2 : 2 ^ (k + 1) = 2 * p) by (unfold p; rewrite Z.pow_add_r by lia; lia).
  assert (ES : S * p + x = M * t') by (unfold S, t'; destruct subtract; lia).
  set (c := S mod 2). assert (Hc : 0 <= c < 2) by (apply Z.mod_pos_bound; lia). assert (ES2 : S = 2 * (S / 2) + c) by (unfold c; pose proof (Z.div_mod S 2); lia).
  exists (S / 2), (x + p * c). rewrite Hp2. split_and!.
  - unfold bits. change (33 - 1 + 1) with 33. dlia.
  - nia.
  - nia.
  - assert (Hlow : bits (S mod 2 ^ 34) 0 0 = c) by (unfold bits, c; change (0 - 0 + 1) with 1; dlia).
    set (m := 2 ^ (31 - k)). assert (Hm : 2 ^ (32 - k) = 2 * m) by (unfold m; rewrite <- (Z.pow_succ_r 2) by lia; f_equal; lia).
    assert (Hm' : 2 ^ (32 - (k + 1)) = m) by (unfold m; f_equal; lia). assert (Hmp : m * p = 2 ^ 31) by (unfold m, p; rewrite <- Z.pow_add_r by lia; f_equal; lia).
    rewrite Hlow, Hm'. rewrite Hm in Hl. assert (Hbd : b / (2 * p) = b / p / 2) by (rewrite Z.div_div by lia; f_equal; lia). rewrite Hbd.
    assert (Hbk : 0 <= b / p < 2 * m) by (split; [apply Z.div_pos; lia|apply Z.div_lt_upper_bound; lia]).
    assert (Hl2 : l / 2 = b / p / 2 + m * x) by (rewrite Hl; replace (2 * m * x) with (m * x * 2) by lia; by rewrite Z.div_add by lia).
    assert (Hl31 : 0 <= l / 2 < 2 ^ 31) by (rewrite Hl2; assert (b / p / 2 < m) by (apply Z.div_lt_upper_bound; lia); assert (0 <= b / p / 2) by (apply Z.div_pos; lia); nia).
    assert (Hbl : bits l 31 1 = l / 2) by (unfold bits; change (31 - 1 + 1) with 31; rewrite Z.pow_1_r; by apply Z.mod_small).
    rewrite Hbl, Hl2. unfold cat. rewrite <- Hmp. lia.
  - lia.
  - nia.
  - lia.
Qed.

(** ** The 32 steps *)

(** What the registers stand for: the operands' values, and how much of the multiplier has
    been taken after [n] steps. *)
Definition value_a (f3 a : Z) : Z := if signed_a f3 then Emu.i32 a else a.
Definition value_b (f3 b : Z) : Z := if signed_b f3 then Emu.i32 b else b.
Definition taken (f3 b : Z) (n : nat) : Z := if (f3 =? 1) && (n =? 32)%nat then Emu.i32 b else b mod 2 ^ Z.of_nat n.

Record at_step (f3 a b : Z) (n : nat) (s : muldiv) : Prop := {
  as_count : count s = counts n; as_active : active s = negb (n =? 32)%nat; as_fin : fin s = (n =? 32)%nat;
  as_div : is_div s = (4 <=? f3); as_msub : msub s = (f3 =? 1);
  as_sel : sel_hi s = ((f3 =? 1) || (f3 =? 2) || (f3 =? 3) || (6 <=? f3));
  as_neg : neg_res s = (if f3 =? 4 then negb (Bool.eqb (Emu.i32 a <? 0) (Emu.i32 b <? 0)) && negb (b =? 0) else (f3 =? 6) && (Emu.i32 a <? 0));
  as_mcand : mcand s = if 4 <=? f3 then Z.abs (value_b f3 b) else value_a f3 a mod 2 ^ 33;
  as_data : if 4 <=? f3 then dividing (Z.abs (value_a f3 a)) (Z.abs (value_b f3 b)) (Z.of_nat n) (hi s) (lo s)
    else multiplying (value_a f3 a) b (Z.of_nat n) (hi s) (lo s) (taken f3 b n)
}.

Lemma sign_bit x : 0 <= x < 2 ^ 32 -> bit x 31 = (Emu.i32 x <? 0).
Proof.
  intros Hx. unfold bit, bits, Emu.i32. change (31 - 31 + 1) with 1. rewrite Z.mod_small by dlia.
  destruct (Z.ltb_spec x (2 ^ 31)) as [H|H].
  - rewrite (proj2 (Z.ltb_ge x 0)) by lia. apply Z.eqb_neq. dlia.
  - rewrite (proj2 (Z.ltb_lt (x - 2 ^ 32) 0)) by lia. apply Z.eqb_eq. dlia.
Qed.
Lemma magnitude_abs x (sg : bool) : 0 <= x < 2 ^ 32 -> magnitude (sg && bit x 31) x = Z.abs (if sg then Emu.i32 x else x).
Proof.
  intros Hx. rewrite (sign_bit x Hx). destruct sg; cbn [andb]; [|cbn; lia]. unfold magnitude, neg, inv, Emu.i32.
  destruct (Z.ltb_spec x (2 ^ 31)); [rewrite (proj2 (Z.ltb_ge x 0)) by lia; lia|]. rewrite (proj2 (Z.ltb_lt (x - 2 ^ 32) 0)) by lia. dlia.
Qed.
Lemma mcand_value f3 a : 0 <= f3 < 4 -> 0 <= a < 2 ^ 32 -> cat (Z.b2z (negb (f3 =? 3) && negb (f3 =? 0) && bit a 31)) 32 a = value_a f3 a mod 2 ^ 33.
Proof.
  intros Hf Ha. rewrite (sign_bit a Ha). unfold value_a, cat, Emu.i32.
  assert (f3 = 0 \/ f3 = 1 \/ f3 = 2 \/ f3 = 3) as [->|[->|[->| ->]]] by lia; cbn [Z.eqb Pos.eqb signed_a orb negb andb];
    try (change (Z.b2z false) with 0; symmetry; apply Z.mod_small; lia);
    (destruct (Z.ltb_spec a (2 ^ 31)); [rewrite (proj2 (Z.ltb_ge a 0)) by lia|rewrite (proj2 (Z.ltb_lt (a - 2 ^ 32) 0)) by lia]; unfold Z.b2z; dlia).
Qed.

Ltac funct3_cases f3 :=
  assert (f3 = 0 \/ f3 = 1 \/ f3 = 2 \/ f3 = 3 \/ f3 = 4 \/ f3 = 5 \/ f3 = 6 \/ f3 = 7) as [->|[->|[->|[->|[->|[->|[->| ->]]]]]]] by lia.

Lemma started_at f3 a b : 0 <= f3 < 8 -> 0 <= a < 2 ^ 32 -> 0 <= b < 2 ^ 32 -> at_step f3 a b 0 (started f3 a b).
Proof.
  intros Hf Ha Hb. assert (Hdiv : bit f3 2 = (4 <=? f3)) by (funct3_cases f3; reflexivity). constructor; cbn -[Z.pow cat neg dividing multiplying]; try done.
  - funct3_cases f3; reflexivity.
  - rewrite !sign_bit by done. funct3_cases f3; cbn; try done; by rewrite ?andb_true_l.
  - rewrite Hdiv. destruct (Z.leb_spec 4 f3); [by apply magnitude_abs|apply mcand_value; lia].
  - rewrite Hdiv. destruct (Z.leb_spec 4 f3).
    + rewrite magnitude_abs by done. fold (value_a f3 a). assert (HA : 0 <= Z.abs (value_a f3 a) < 2 ^ 32).
      { unfold value_a. destruct (signed_a f3); [|lia]. pose proof (i32_range a Ha). lia. }
      exists 0. rewrite Z.sub_0_r, (Z.mod_small _ _ HA), (Z.div_small _ _ HA), Z.pow_0_r, Z.mul_0_r. split_and!; lia.
    + exists 0, 0. unfold taken. rewrite andb_false_r. change (Z.of_nat 0) with 0. rewrite Z.pow_0_r, Z.div_1_r, Z.mod_1_r. rewrite !Z.mul_0_r. split_and!; try done; lia.
Qed.

Lemma run_step f3 a b n s i : 0 <= f3 < 8 -> 0 <= a < 2 ^ 32 -> 0 <= b < 2 ^ 32 -> (n < 32)%nat -> at_step f3 a b n s ->
  at_step f3 a b (S n) (clock false (fst (fst i)) (snd (fst i)) (snd i) s).
Proof.
  intros Hf Ha Hb Hn [Hc Hac Hfi Hd Hm Hs Hne Hmc Hda]. unfold clock. assert (Hx : (n =? 32)%nat = false) by (apply Nat.eqb_neq; lia). rewrite Hac, Hx. cbn [negb].
  assert (Hlast : (readc (count s) =? 0) = (n =? 31)%nat) by (rewrite Hc; by apply last_step). assert (HSn : (S n =? 32)%nat = (n =? 31)%nat) by done.
  unfold step. rewrite Hlast. constructor; cbn [count active fin is_div msub sel_hi neg_res mcand hi lo]; try done.
  - cbn [counts]. by rewrite Hc.
  - rewrite HSn, Hac, Hx. by destruct (n =? 31)%nat.
  - rewrite HSn, Hfi, Hx. by destruct (n =? 31)%nat.
  - rewrite Hd. unfold sum. rewrite Hlast, Hd, Hm, Hmc. replace (Z.of_nat (S n)) with (Z.of_nat n + 1) by lia.
    assert (HA : 0 <= Z.abs (value_a f3 a) < 2 ^ 32 /\ - 2 ^ 32 < value_a f3 a < 2 ^ 32).
    { unfold value_a. destruct (signed_a f3); [|lia]. pose proof (i32_range a Ha). lia. }
    assert (HB : 0 <= Z.abs (value_b f3 b) < 2 ^ 32).
    { unfold value_b. destruct (signed_b f3); [|lia]. pose proof (i32_range b Hb). lia. }
    destruct (Z.leb_spec 4 f3) as [H4|H4]; cbn [orb Z.b2z].
    + apply (div_step _ _ (Z.of_nat n)); [lia|lia|lia|done].
    + assert (Ht : taken f3 b (S n) = taken f3 b n + (if (f3 =? 1) && (n =? 31)%nat then -1 else 1) * (b / 2 ^ Z.of_nat n mod 2) * 2 ^ Z.of_nat n).
      { unfold taken. rewrite HSn, Hx, andb_false_r. pose proof (Z.div_mod (b / 2 ^ Z.of_nat n) 2). destruct (Nat.eqb_spec n 31) as [->|Hn31].
        - rewrite andb_true_r. change (Z.of_nat 32) with 32. change (Z.of_nat 31) with 31. unfold Emu.i32. destruct (f3 =? 1); [destruct (Z.ltb_spec b (2 ^ 31))|]; dlia.
        - rewrite andb_false_r. replace (Z.of_nat (S n)) with (Z.of_nat n + 1) by lia. rewrite Z.pow_add_r, Z.rem_mul_r by lia. change (2 ^ 1) with 2. lia. }
      rewrite Ht. pose proof (Z.mod_pos_bound b (2 ^ Z.of_nat n) ltac:(lia)) as Hr. pose proof (Z.mod_pos_bound (b / 2 ^ Z.of_nat n) 2 ltac:(lia)) as Hr2.
      assert (Htn : taken f3 b n = b mod 2 ^ Z.of_nat n) by (unfold taken; by rewrite Hx, andb_false_r). rewrite Htn in *.
      assert (Hp2 : 2 ^ (Z.of_nat n + 1) = 2 * 2 ^ Z.of_nat n) by (rewrite Z.pow_add_r by lia; lia).
      apply (mul_step (value_a f3 a) b (Z.of_nat n) (hi s) (lo s)); [lia|lia|lia|done| |].
      * rewrite Hp2. assert (b / 2 ^ Z.of_nat n mod 2 = 0 \/ b / 2 ^ Z.of_nat n mod 2 = 1) as [-> | ->] by lia; destruct ((f3 =? 1) && (n =? 31)%nat); lia.
      * assert (b / 2 ^ Z.of_nat n mod 2 = 0 \/ b / 2 ^ Z.of_nat n mod 2 = 1) as [-> | ->] by lia;
          (destruct (Z.eqb_spec f3 1) as [->|]; [|cbn [andb]; lia]); intros _; (split; [apply (i32_range a Ha)|]); destruct (n =? 31)%nat; cbn [andb]; lia.
Qed.
Lemma run_at f3 a b ins : 0 <= f3 < 8 -> 0 <= a < 2 ^ 32 -> 0 <= b < 2 ^ 32 -> (length ins <= 32)%nat -> at_step f3 a b (length ins) (run ins (started f3 a b)).
Proof.
  intros Hf Ha Hb. assert (H : forall ins n s, at_step f3 a b n s -> (n + length ins <= 32)%nat -> at_step f3 a b (n + length ins) (run ins s)).
  { clear ins. intros ins. induction ins as [|[[f x] y] ins IH]; intros n s Hs Hl; cbn [run length] in *; [by rewrite Nat.add_0_r|].
    rewrite Nat.add_succ_r. apply (IH (S n)); [|lia]. apply (run_step f3 a b n s ((f, x), y)); [done..|lia|done]. }
  intros Hl. apply (H ins 0%nat); [by apply started_at|lia].
Qed.

(** ** The result *)

Lemma signed_mul_high M t g x : g * 2 ^ 32 + x = M * t -> 0 <= x < 2 ^ 32 -> Z.shiftr (M * t) 32 = g.
Proof. intros H Hx. rewrite Z.shiftr_div_pow2 by lia. symmetry. apply (Z.div_unique _ _ _ x); lia. Qed.

Lemma neg_u32 x : 0 <= x < 2 ^ 32 -> neg 32 x = Emu.u32 (- x).
Proof. intros Hx. unfold neg, inv, Emu.u32. dlia. Qed.
Lemma i32_zero b : 0 <= b < 2 ^ 32 -> Emu.i32 b = 0 <-> b = 0.
Proof. intros Hb. unfold Emu.i32. destruct (Z.ltb_spec b (2 ^ 31)); lia. Qed.
(** The remainder left and the quotient, of a division by other than 0. *)
Lemma divided A B q h : h + B * q = A -> 0 <= h -> h < B \/ (B = 0 /\ q = 2 ^ 32 - 1) -> B <> 0 -> q = A / B /\ h = A mod B.
Proof. intros E Hh Hlt HB. destruct Hlt as [Hlt|[HB0 _]]; [|lia]. split; [apply (Z.div_unique _ _ _ h)|apply (Z.mod_unique _ _ q)]; [left; lia|lia|left; lia|lia]. Qed.

Lemma signed_division a b q h : 0 <= a < 2 ^ 32 -> 0 <= b < 2 ^ 32 -> 0 <= q < 2 ^ 32 -> 0 <= h < 2 ^ 32 ->
  h + Z.abs (Emu.i32 b) * q = Z.abs (Emu.i32 a) -> h < Z.abs (Emu.i32 b) \/ (Z.abs (Emu.i32 b) = 0 /\ q = 2 ^ 32 - 1) ->
  (if negb (Bool.eqb (Emu.i32 a <? 0) (Emu.i32 b <? 0)) && negb (b =? 0) then neg 32 q else q) = muldiv_model DIV a b /\
  (if Emu.i32 a <? 0 then neg 32 h else h) = muldiv_model REM a b.
Proof.
  intros Ha Hb Hq Hh E Hlt. unfold muldiv_model. rewrite !mask32, !signed32_i32, !neg_u32 by done. change (Z.shiftl 1 31) with (2 ^ 31).
  cbn [Z.eqb Pos.eqb DIV DIVU REM MUL MULH MULHSU MULHU orb andb]. pose proof (i32_range a Ha) as Ra. pose proof (i32_range b Hb) as Rb.
  assert (Hu : forall x, 0 <= x < 2 ^ 32 -> Emu.u32 x = x) by (intros x Hx; by apply Z.mod_small).
  destruct (Z.eqb_spec b 0) as [->|Hb0]; cbn [negb andb].
  - rewrite andb_false_r. change (Emu.i32 0) with 0 in *. destruct Hlt as [?|[_ ->]]; [lia|]. split; [done|].
    destruct (Z.ltb_spec (Emu.i32 a) 0); [f_equal; lia|]. rewrite Hu by lia. lia.
  - assert (Hsb : Emu.i32 b <> 0) by (by rewrite i32_zero). destruct (divided _ _ q h E ltac:(lia) Hlt ltac:(lia)) as [Eq _]. rewrite <- Eq, andb_true_r.
    destruct (Z.eqb_spec (Emu.i32 a) (- 2 ^ 31)) as [Emin|]; [destruct (Z.eqb_spec (Emu.i32 b) (-1)) as [Em1|]|]; cbn [andb].
    1: { rewrite Emin, Em1 in *. assert (q = 2 ^ 31 /\ h = 0) as [-> ->] by lia. split; reflexivity. }
    all: assert (Hq1 : q = Emu.u32 q) by (by rewrite Hu); assert (Hh1 : h = Emu.u32 h) by (by rewrite Hu).
    all: destruct (Z.ltb_spec (Emu.i32 a) 0) as [Sa|Sa], (Z.ltb_spec (Emu.i32 b) 0) as [Sb|Sb]; cbn [Bool.eqb negb];
      rewrite ?(Z.abs_neq (Emu.i32 a)), ?(Z.abs_neq (Emu.i32 b)), ?(Z.abs_eq (Emu.i32 a)), ?(Z.abs_eq (Emu.i32 b)) in E by lia;
      (split; [rewrite Hq1 at 1|rewrite Hh1 at 1]); try (f_equal; lia).
Qed.

Lemma result_model f3 a b s : 0 <= f3 < 8 -> 0 <= a < 2 ^ 32 -> 0 <= b < 2 ^ 32 -> at_step f3 a b 32 s -> result s = muldiv_model f3 a b.
Proof.
  intros Hf Ha Hb [_ _ _ _ _ Hs Hne _ Hda]. unfold result. rewrite Hs, Hne. pose proof (i32_range a Ha) as Ra. pose proof (i32_range b Hb) as Rb.
  change (Z.of_nat 32) with 32 in Hda. unfold bits. change (31 - 0 + 1) with 32. rewrite Z.pow_0_r, Z.div_1_r. destruct (Z.leb_spec 4 f3) as [H4|H4].
  - destruct Hda as (q & Hl & Hq & Hh & Hh0 & Hlt). change (32 - 32) with 0 in *. rewrite Z.pow_0_r, Z.mod_1_r, Z.mul_0_l, Z.add_0_l, Z.div_1_r in *. rewrite Hl.
    assert (Hhr : hi s < 2 ^ 32) by (unfold value_a in *; destruct (signed_a f3); nia). rewrite (Z.mod_small (hi s)) by lia.
    assert (f3 = 4 \/ f3 = 5 \/ f3 = 6 \/ f3 = 7) as [->|[->|[->| ->]]] by lia; cbn [Z.eqb Pos.eqb orb andb Z.leb Z.compare Pos.compare Pos.compare_cont] in *.
    + by apply (signed_division a b q (hi s)).
    + unfold muldiv_model, value_a, value_b in *. cbn -[Z.land Z.div Z.pow] in *. rewrite mask32, !Z.abs_eq in * by lia. unfold Emu.u32.
      destruct (Z.eqb_spec b 0) as [->|Hb0]; [destruct Hlt as [|[_ ->]]; [lia|done]|]. destruct (divided _ _ _ _ Hh Hh0 Hlt Hb0) as [<- _]. symmetry. by apply Z.mod_small.
    + by apply (signed_division a b q (hi s)).
    + unfold muldiv_model, value_a, value_b in *. cbn -[Z.land Z.modulo Z.pow] in *. rewrite mask32, !Z.abs_eq in * by lia. unfold Emu.u32.
      destruct (Z.eqb_spec b 0) as [->|Hb0]; [rewrite Z.mod_small by lia; lia|]. destruct (divided _ _ _ _ Hh Hh0 Hlt Hb0) as [_ <-]. symmetry. by apply Z.mod_small.
  - destruct Hda as (g & x & Hh & Hg & Hl & Hx & E). change (32 - 32) with 0 in *. rewrite Z.pow_0_r, Z.mul_1_l, Z.div_small, Z.add_0_l in Hl by lia.
    assert (Hg32 : (hi s) mod 2 ^ 32 = g mod 2 ^ 32) by (rewrite Hh; dlia). rewrite Hg32, Hl. clear Hg32 Hh Hl.
    pose proof (signed_mul_high _ _ _ _ E Hx) as Hhigh. unfold muldiv_model. rewrite mask32, !signed32_i32 by done. unfold taken, value_a, Emu.u32 in *.
    change (Z.of_nat 32) with 32 in *. rewrite (Z.mod_small b) in * by lia.
    assert (f3 = 0 \/ f3 = 1 \/ f3 = 2 \/ f3 = 3) as [->|[->|[->| ->]]] by lia; cbn [Z.eqb Pos.eqb orb andb signed_a Nat.eqb MUL MULH MULHSU MULHU] in *;
      [|by rewrite Hhigh..]. rewrite <- E, Z.add_comm, Z.mod_add by lia. symmetry. by apply Z.mod_small.
Qed.

End Module.

(** ** The counter as written, and as the accepted mutant reads it *)

Definition count_q (c : Z) : Z := c.
(** "cnot0 Q[4] ctrl 3 count[4]": the register's bit 4 is read inverted while bit 3 is 0. *)
Definition count_cnot0 (c : Z) : Z := if bit c 3 then c else Z.lxor c 16.

Lemma counts_down readc : readc ∈ [count_q; count_cnot0] -> forall n, (n < 32)%nat -> (readc (counts readc n) =? 0) = (n =? 31)%nat.
Proof.
  intros Hr n Hn. assert (H : forallb (fun n => Bool.eqb (readc (counts readc n) =? 0) (n =? 31)%nat) (seq 0 32) = true).
  { apply list_elem_of_In in Hr. destruct Hr as [<-|[<-|[]]]; vm_compute; reflexivity. }
  rewrite forallb_forall in H. apply eqb_prop, H, in_seq. lia.
Qed.

(** C38: started with any operation and operands, in any state, the unit is busy for 32 clocks
    whatever its other inputs, and then gives the reference model's result for one cycle of
    [done] and until the next start; the accepted mutant of its counter too. *)
Theorem rtl_muldiv readc f3 a b ins s :
  readc ∈ [count_q; count_cnot0] -> 0 <= f3 < 8 -> 0 <= a < 2 ^ 32 -> 0 <= b < 2 ^ 32 -> length ins = 32%nat ->
  let s1 := clock readc true f3 a b s in
  (forall k, (k < 32)%nat -> done_out (run readc (take k ins) s1) = false) /\
  done_out (run readc ins s1) = true /\ result (run readc ins s1) = muldiv_model f3 a b /\
  forall i, done_out (clock readc false (fst (fst i)) (snd (fst i)) (snd i) (run readc ins s1)) = false /\
    result (clock readc false (fst (fst i)) (snd (fst i)) (snd i) (run readc ins s1)) = muldiv_model f3 a b.
Proof.
  intros Hr Hf Ha Hb Hl s1. pose proof (counts_down readc Hr) as Hlast.
  assert (Hk : forall k, (k <= 32)%nat -> at_step readc f3 a b k (run readc (take k ins) s1)).
  { intros k Hk. pose proof (run_at readc Hlast f3 a b (take k ins) Hf Ha Hb) as H. rewrite length_take, Hl, Nat.min_l in H by done. by apply H. }
  assert (H32 : at_step readc f3 a b 32 (run readc ins s1)) by (rewrite <- (firstn_all ins), Hl; by apply Hk).
  pose proof (result_model readc f3 a b _ Hf Ha Hb H32) as Hres. split; [|split; [|split; [done|]]].
  - intros k Hk'. unfold done_out. rewrite (as_fin _ _ _ _ _ _ (Hk k ltac:(lia))). apply Nat.eqb_neq. lia.
  - apply (as_fin _ _ _ _ _ _ H32).
  - intros i. unfold clock. rewrite (as_active _ _ _ _ _ _ H32). cbn [Nat.eqb negb]. split; [done|exact Hres].
Qed.

Lemma rtl_muldiv_witness :
  let ins := replicate 32 (0, 0, 0) in
  let s1 := clock count_cnot0 true REM 0x80000000 0xFFFFFFFF (started MUL 3 5) in
  done_out (run count_cnot0 ins s1) = true /\ result (run count_cnot0 ins s1) = 0.
Proof.
  intros ins s1. destruct (rtl_muldiv count_cnot0 REM 0x80000000 0xFFFFFFFF ins (started MUL 3 5)) as (_ & H2 & H3 & _);
    [right; left|unfold REM; lia|lia|lia|reflexivity|]. split; [exact H2|exact H3].
Defined.
