(* ===== verification/Serial.v ===== *)
(** * A timed serial port

    What tools/vux_tool.py uses of a serial port and of the [time] module as an interface with
    its laws; state passing over it with exceptions and loops bounded by fuel; when such code
    ends; and Python's UTF-8 and line splitting. *)
From S2P Require Import Prelude Image Text.
#[local] Open Scope Z_scope.

(** ** The port *)

(** pyserial's Serial and the clock, time in clock cycles (18 MHz, emu's CLK_HZ). A read gives
    what has arrived. [backlog] is what a read could return at once. Time doesn't go backwards; a read that takes no time
    takes from the backlog; a read that returns nothing has waited; writes are sent in
    order, and only they are. *)
Class Port (P : Type) := {
  now : P -> Z;
  ser_read : Z -> P -> bytes * P;
  ser_write : bytes -> P -> P;
  ser_flush : P -> P;
  reset_input_buffer : P -> P;
  in_waiting : P -> Z;
  sleep : Z -> P -> P;
  backlog : P -> nat;
  sent : P -> bytes;
  read_time n p : 0 < n ->
    now p < now (ser_read n p).2 \/ now (ser_read n p).2 = now p /\ (backlog (ser_read n p).2 < backlog p)%nat;
  write_time d p :
    now p < now (ser_write d p) \/ now (ser_write d p) = now p /\ (backlog (ser_write d p) <= backlog p)%nat;
  flush_time p :
    now p < now (ser_flush p) \/ now (ser_flush p) = now p /\ (backlog (ser_flush p) <= backlog p)%nat;
  reset_time p : now p <= now (reset_input_buffer p);
  sleep_time t p : 0 <= t -> now p + t <= now (sleep t p);
  sent_read n p : sent (ser_read n p).2 = sent p;
  sent_write d p : sent (ser_write d p) = sent p ++ d;
  sent_flush p : sent (ser_flush p) = sent p;
  sent_reset p : sent (reset_input_buffer p) = sent p;
  sent_sleep t p : sent (sleep t p) = sent p;
}.

(** A port with pyserial's [read_until(b"\n")]: a line, or what arrives before the timeout. *)
Class LinePort (P : Type) `{Port P} := {
  ser_read_line : P -> bytes * P;
  line_time p :
    now p < now (ser_read_line p).2 \/ now (ser_read_line p).2 = now p /\ (backlog (ser_read_line p).2 < backlog p)%nat;
  sent_line p : sent (ser_read_line p).2 = sent p;
}.

Definition CLK_HZ : Z := 18000000.
(** [n] milliseconds. *)
Definition msec (n : Z) : Z := CLK_HZ * n / 1000.

(** ** Code on a port *)
Section Session.
Context {P : Type} `{Port P}.

(** A call: its result and the port after it, or [None] when the fuel ran out. *)
Definition sess (A : Type) : Type := P -> option (res A * P).
#[export] Instance sess_ret : MRet sess := fun _ v p => Some (Ok v, p).
#[export] Instance sess_bind : MBind sess := fun _ _ f m p =>
  match m p with
  | Some (Ok v, p) => f v p
  | Some (Raise e, p) => Some (Raise e, p)
  | None => None
  end.
Definition sess_raise {A} (e : exn) : sess A := fun p => Some (Raise e, p).
Definition sess_res {A} (m : res A) : sess A := fun p => Some (m, p).
(** A value of the port, an action on it, a read. *)
Definition get {A} (f : P -> A) : sess A := fun p => Some (Ok (f p), p).
Definition act (f : P -> P) : sess unit := fun p => Some (Ok tt, f p).
Definition read (n : Z) : sess bytes := fun p => Some (Ok (ser_read n p).1, (ser_read n p).2).
Definition read_line `{!LinePort P} : sess bytes := fun p => Some (Ok (ser_read_line p).1, (ser_read_line p).2).
Definition write (d : bytes) : sess unit := act (ser_write d);; act ser_flush.

(** [try: m except UploadError: handler; raise]. *)
Definition on_upload_error {A} (m : sess A) (handler : exn -> sess A) : sess A := fun p =>
  match m p with
  | Some (Raise (UploadError l), p) => handler (UploadError l) p
  | Some (Raise (UploadNoAnswer l), p) => handler (UploadNoAnswer l) p
  | r => r
  end.

(** A loop: the body goes on with [inl] and ends with [inr]. *)
Fixpoint loop {S R} (fuel : nat) (body : S -> sess (S + R)) (s : S) : sess R :=
  match fuel with
  | O => fun _ => None
  | S fuel => r ← body s; match r with inl s => loop fuel body s | inr v => mret v end
  end.

(** ** When code ends *)

(** With enough fuel, [f] ends, with the same result whatever the fuel. *)
Definition ends {A} (f : nat -> sess A) (p : P) (Q : res A -> P -> Prop) : Prop :=
  exists n0 r p', (forall n, (n0 <= n)%nat -> f n p = Some (r, p')) /\ Q r p'.

Lemma ends_weaken {A} (f : nat -> sess A) p (Q R : res A -> P -> Prop) :
  ends f p Q -> (forall r p', Q r p' -> R r p') -> ends f p R.
Proof. intros (n0 & r & p' & Hf & HQ) HR. exists n0, r, p'. auto. Qed.

Lemma ends_now {A} (f : nat -> sess A) p (Q : res A -> P -> Prop) r p' :
  (forall n, f n p = Some (r, p')) -> Q r p' -> ends f p Q.
Proof. intros Hf HQ. exists 0%nat, r, p'. auto. Qed.

Lemma ends_bind {A B} (f : nat -> sess A) (g : A -> nat -> sess B) p Q :
  ends f p (fun r p' => match r with Ok v => ends (g v) p' Q | Raise e => Q (Raise e) p' end) ->
  ends (fun n => v ← f n; g v n) p Q.
Proof.
  intros (n0 & [v|e] & p' & Hf & HQ).
  - destruct HQ as (n1 & r & p'' & Hg & HQ). exists (n0 `max` n1)%nat, r, p''. split; [|done].
    intros n Hn. unfold mbind, sess_bind. rewrite Hf by lia. apply Hg. lia.
  - exists n0, (Raise e), p'. split; [|done]. intros n Hn. unfold mbind, sess_bind. by rewrite Hf.
Qed.

Lemma ends_act {A} (f : P -> P) (g : nat -> sess A) p Q : ends g (f p) Q -> ends (fun n => act f;; g n) p Q.
Proof. intros Hg. apply (ends_bind (fun _ => act f) (fun _ => g)). by eapply ends_now. Qed.

Lemma ends_get {A B} (f : P -> A) (g : A -> nat -> sess B) p Q : ends (g (f p)) p Q -> ends (fun n => v ← get f; g v n) p Q.
Proof. intros Hg. apply (ends_bind (fun _ => get f) g). by eapply ends_now. Qed.

Lemma ends_read {A} k (g : bytes -> nat -> sess A) p Q :
  ends (g (ser_read k p).1) (ser_read k p).2 Q -> ends (fun n => c ← read k; g c n) p Q.
Proof. intros Hg. apply (ends_bind (fun _ => read k) g). by eapply ends_now. Qed.

Lemma ends_read_line `{!LinePort P} {A} (g : bytes -> nat -> sess A) p Q :
  ends (g (ser_read_line p).1) (ser_read_line p).2 Q -> ends (fun n => c ← read_line; g c n) p Q.
Proof. intros Hg. apply (ends_bind (fun _ => read_line) g). by eapply ends_now. Qed.

Lemma ends_write {A} d (g : nat -> sess A) p Q :
  ends g (ser_flush (ser_write d p)) Q -> ends (fun n => write d;; g n) p Q.
Proof. intros Hg. apply (ends_bind (fun _ => write d) (fun _ => g)). by eapply ends_now. Qed.

(** A loop ends when its body does, each time with a smaller port. *)
Lemma ends_loop {S R} (body : nat -> S -> sess (S + R)) (lt : relation (S * P)) (I : S -> P -> Prop) (Q : res R -> P -> Prop) s p :
  well_founded lt -> I s p ->
  (forall s p, I s p -> ends (fun n => body n s) p (fun r p' =>
     match r with Ok (inl s') => lt (s', p') (s, p) /\ I s' p' | Ok (inr v) => Q (Ok v) p' | Raise e => Q (Raise e) p' end)) ->
  ends (fun n => loop n (body n) s) p Q.
Proof.
  intros Hwf HI Hbody.
  assert (Hk : exists n0 r p', (forall n k, (n0 <= n)%nat -> (n0 <= k)%nat -> loop k (body n) s p = Some (r, p')) /\ Q r p').
  { revert HI. pattern s, p. set (G := fun _ _ => _). change (G (s, p).1 (s, p).2). generalize (s, p). clear s p. intros x.
    induction x as [[s p] IH] using (well_founded_induction Hwf). unfold G in *. cbn [fst snd]. intros HI.
    destruct (Hbody s p HI) as (n1 & r & p' & Hb & HQ). destruct r as [[s'|v]|e].
    - destruct HQ as [Hlt HI']. destruct (IH (s', p') Hlt HI') as (n2 & r & p'' & Hl & HQ). exists (Datatypes.S (n1 `max` n2))%nat, r, p''.
      split; [|done]. intros n [|k] Hn Hkk; [lia|]. cbn [loop]. unfold mbind, sess_bind. rewrite Hb by lia. cbn [fst snd] in Hl. apply Hl; lia.
    - exists (Datatypes.S n1), (Ok v), p'. split; [|done]. intros n [|k] Hn Hkk; [lia|]. cbn [loop]. unfold mbind, sess_bind. by rewrite Hb by lia.
    - exists (Datatypes.S n1), (Raise e), p'. split; [|done]. intros n [|k] Hn Hkk; [lia|]. cbn [loop]. unfold mbind, sess_bind. by rewrite Hb by lia. }
  destruct Hk as (n0 & r & p' & Hl & HQ). exists n0, r, p'. split; [|done]. intros n Hn. by apply Hl.
Qed.

(** One turn of a loop whose body needs no fuel. *)
Lemma ends_loop_turn {S R} (body : S -> sess (S + R)) s p r p' (Q : res R -> P -> Prop) :
  body s p = Some (r, p') ->
  match r with Ok (inl s') => ends (fun n => loop n body s') p' Q | Ok (inr v) => Q (Ok v) p' | Raise e => Q (Raise e) p' end ->
  ends (fun n => loop n body s) p Q.
Proof.
  intros Hb HQ. destruct r as [[s'|v]|e].
  - destruct HQ as (n0 & r & q & Hl & HQ). exists (Datatypes.S n0), r, q. split; [|done].
    intros [|n] Hn; [lia|]. cbn [loop]. unfold mbind, sess_bind. rewrite Hb. apply Hl. lia.
  - exists 1%nat, (Ok v), p'. split; [|done]. intros [|n] Hn; [lia|]. cbn [loop]. unfold mbind, sess_bind. by rewrite Hb.
  - exists 1%nat, (Raise e), p'. split; [|done]. intros [|n] Hn; [lia|]. cbn [loop]. unfold mbind, sess_bind. by rewrite Hb.
Qed.

(** [p'] is later than [p], or has no more (less) to read. *)
Definition weakly (p p' : P) : Prop := now p < now p' \/ now p' = now p /\ (backlog p' <= backlog p)%nat.
Definition strictly (p p' : P) : Prop := now p < now p' \/ now p' = now p /\ (backlog p' < backlog p)%nat.

Lemma weakly_refl p : weakly p p.
Proof. right. lia. Qed.
Lemma weakly_now p p' : weakly p p' -> now p <= now p'.
Proof. intros [|[]]; lia. Qed.
Lemma strictly_weakly p p' : strictly p p' -> weakly p p'.
Proof. intros [|[]]; [by left|right; lia]. Qed.
Lemma weakly_trans p q r : weakly p q -> weakly q r -> weakly p r.
Proof. intros [|[]] [|[]]; unfold weakly; lia. Qed.
Lemma weakly_strictly p q r : weakly p q -> strictly q r -> strictly p r.
Proof. intros [|[]] [|[]]; unfold strictly; lia. Qed.
Lemma strictly_weakly_trans p q r : strictly p q -> weakly q r -> strictly p r.
Proof. intros [|[]] [|[]]; unfold strictly; lia. Qed.
Lemma read_strictly k p : 0 < k -> strictly p (ser_read k p).2.
Proof. apply read_time. Qed.
Lemma written_weakly d p : weakly p (ser_flush (ser_write d p)).
Proof. eapply weakly_trans; [apply write_time|apply flush_time]. Qed.
Lemma sent_written d p : sent (ser_flush (ser_write d p)) = sent p ++ d.
Proof. by rewrite sent_flush, sent_write. Qed.

(** Before a deadline: time passes, or the backlog shrinks. *)
Definition sooner {S} (deadline : Z) : relation (S * P) := fun x y => strictly y.2 x.2 /\ now y.2 < deadline.

Lemma sooner_wf {S} deadline : well_founded (@sooner S deadline).
Proof.
  intros [s p]. remember (Z.to_nat (deadline - now p)) as t eqn:Ht. revert s p Ht.
  induction t as [t IHt] using lt_wf_ind. intros s p Ht. remember (backlog p) as b eqn:Hb. revert s p Ht Hb.
  induction b as [b IHb] using lt_wf_ind. intros s p Ht Hb. constructor. intros [s' p'] [[Hn | [Hn Hlt]] Hd]; cbn [snd] in *.
  - apply (IHt (Z.to_nat (deadline - now p'))); [lia|done].
  - apply (IHb (backlog p')); [lia| |done]. by rewrite Hn.
Qed.

End Session.
Arguments sess P A : clear implicits.

(** ** Strings *)

(** The values a first UTF-8 byte leaves and the ranges of the bytes that must follow it;
    [None] for a byte no character starts with. *)
Definition utf8_start (c : Z) : option (Z * list (Z * Z)) :=
  if c <? 0x80 then Some (c, [])
  else if (0xC2 <=? c) && (c <=? 0xDF) then Some (c - 0xC0, [(0x80, 0xBF)])
  else if c =? 0xE0 then Some (0, [(0xA0, 0xBF); (0x80, 0xBF)])
  else if c =? 0xED then Some (0xD, [(0x80, 0x9F); (0x80, 0xBF)])
  else if (0xE1 <=? c) && (c <=? 0xEF) then Some (c - 0xE0, [(0x80, 0xBF); (0x80, 0xBF)])
  else if c =? 0xF0 then Some (0, [(0x90, 0xBF); (0x80, 0xBF); (0x80, 0xBF)])
  else if c =? 0xF4 then Some (4, [(0x80, 0x8F); (0x80, 0xBF); (0x80, 0xBF)])
  else if (0xF1 <=? c) && (c <=? 0xF3) then Some (c - 0xF0, [(0x80, 0xBF); (0x80, 0xBF); (0x80, 0xBF)])
  else None.

(** [b.decode("utf-8", errors="replace")]: one U+FFFD for what of a character is there when
    the next byte can't follow, or the data ends. *)
Fixpoint utf8_run (st : option (Z * list (Z * Z))) (l : bytes) : text :=
  let start c l :=
    match utf8_start (u8 c) with
    | None => 0xFFFD :: utf8_run None l
    | Some (v, []) => v :: utf8_run None l
    | Some (v, rs) => utf8_run (Some (v, rs)) l
    end in
  match l, st with
  | [], None => []
  | [], Some _ => [0xFFFD]
  | c :: l, Some (v, (lo, hi) :: rs) =>
      if (lo <=? u8 c) && (u8 c <=? hi) then
        let v := v * 64 + Z.land (u8 c) 0x3F in
        match rs with [] => v :: utf8_run None l | _ => utf8_run (Some (v, rs)) l end
      else 0xFFFD :: start c l
  | c :: l, _ => start c l
  end.
Definition utf8_decode (l : bytes) : text := utf8_run None l.

Lemma utf8_ascii l : forallb (fun c => u8 c <? 128) l = true -> utf8_decode l = map u8 l.
Proof.
  unfold utf8_decode. induction l as [|c l IH]; [done|]. cbn [forallb utf8_run map]. intros [Hc Hl]%andb_true_iff.
  unfold utf8_start. rewrite Hc, IH by done. done.
Qed.

Example utf8_replaces :
  utf8_decode [x61; xe3; x81; x82; xff; xe3; x81; x62; xc3] = [0x61; 0x3042; 0xFFFD; 0xFFFD; 0x62; 0xFFFD].
Proof. vm_compute. reflexivity. Qed.

(** The characters [str.splitlines] splits at. *)
Definition line_break (c : Z) : bool :=
  ((10 <=? c) && (c <=? 13)) || ((28 <=? c) && (c <=? 30)) || (c =? 0x85) || (c =? 0x2028) || (c =? 0x2029).

(** [t.splitlines()]. *)
Fixpoint splitlines_from (cur t : text) : list text :=
  match t with
  | [] => match cur with [] => [] | _ => [rev cur] end
  | c :: t =>
      if line_break c then
        rev cur :: match c, t with 13, 10 :: t => splitlines_from [] t | _, _ => splitlines_from [] t end
      else splitlines_from (c :: cur) t
  end.
Definition splitlines (t : text) : list text := splitlines_from [] t.

(** [t.rfind(p)]: the last index where [p] occurs. *)
Definition rfind (p t : text) : option nat := (fun i => length t - length p - i)%nat <$> find (rev p) (rev t).

(** [t.endswith(p)]. *)
Definition endswith (p t : text) : bool := startswith (rev p) (rev t).
