(* ===== verification/Release.v ===== *)
(** * A release and the board it was tested on

    scripts/release_check.py: the annotated tag's message, which ties a [make dist] tree to the
    bitstream that was tested (Dist.v makes and checks the tree). A message is taken apart,
    checked against the tree and published as release notes. *)
From S2P Require Import Prelude Image Text PyFloat Str Serial Sha256.
#[local] Open Scope Z_scope.

(** ** The tree *)

(** What make_dist.py writes to MANIFEST.json. *)
Record bitstream := mkBitstream { file : text; pnr_seed : Z; sta_slack_ns : float; sta_target_mhz : float; sta_closure : bool }.
Record manifest := mkManifest {
  git_sha : text; git_describe : text; dirty : bool; m_bitstream : bitstream; stage1_version : Z; stage2_version : Z; pins : list (text * text)
}.
(** A distribution: MANIFEST.json's value, SHA256SUMS' text, and the files by their paths
    (MANIFEST.json's own bytes among them, SHA256SUMS not). *)
Record dist := mkDist { d_manifest : manifest; d_sums : text; d_files : gmap text bytes }.

(** The lines of a text file, without their newlines. *)
Fixpoint file_lines (t : text) : list text :=
  match t with
  | [] => []
  | c :: t =>
      if c =? 10 then [] :: file_lines t
      else match file_lines t with l :: ls => (c :: l) :: ls | [] => [[c]] end
  end.

(** [open(os.path.join(dist, rel), "rb").read()]. *)
Definition read_file (d : dist) (rel : text) : res bytes :=
  match d_files d !! rel with Some l => Ok l | None => Raise FileNotFoundError end.
(** [digest, rel = line.split("  ", 1)]. *)
Definition sums_line (line : text) : res (text * text) :=
  match partition (txt "  ") line with Some dr => Ok dr | None => Raise (ValueError "not enough values to unpack") end.
Definition blank (line : text) : bool := bool_decide (py_strip line = []).

(** [check_sums]. *)
Fixpoint check_sums_lines (d : dist) (lines : list text) : res unit :=
  match lines with
  | [] => Ok tt
  | line :: lines =>
      if blank line then check_sums_lines d lines
      else
        '(digest, rel) ← sums_line line;
        data ← read_file d rel;
        if bool_decide (hexdigest data = digest) then check_sums_lines d lines
        else Raise (Mismatch (rel ++ txt " doesn't match SHA256SUMS"))
  end.
Definition check_sums (d : dist) : res unit := check_sums_lines d (file_lines (d_sums d)).

(** ** Fields *)

Definition FILL : text := txt "<fill in>".
Definition NOTES_FILL : text := txt "<fill in: release notes (Markdown)>".
Definition FIELDS : list (text * option text) :=
  [(txt "commit", Some (txt "git_sha")); (txt "pack.fs sha256", Some (txt "pack_sha256")); (txt "pnr seed", Some (txt "seed"));
   (txt "first stage version", Some (txt "stage1_version")); (txt "second stage version", Some (txt "stage2_version"));
   (txt "test-hw", None); (txt "hw-smoke", None); (txt "test-hw-upgrade", None); (txt "compatibility", None)].

(** [str(n)]. *)
Definition int_text (n : Z) : text := if n <? 0 then txt "-" ++ dec (- n) else dec n.

(** How the seed is given. *)
Definition seed_text (b : bitstream) : text :=
  int_text (pnr_seed b) ++ txt " (STA slack " ++ fixed_text true 3 (sta_slack_ns b) ++ txt " ns at " ++ float_str (sta_target_mhz b) ++ txt " MHz)".
Definition load_dist (d : dist) : res (manifest * list (text * text)) :=
  let m := d_manifest d in
  _ ← check_sums d;
  let b := m_bitstream m in
  pack ← read_file d (file b);
  Ok (m, [(txt "git_sha", git_sha m); (txt "pack_sha256", hexdigest pack);
    (txt "seed", seed_text b);
    (txt "stage1_version", int_text (stage1_version m)); (txt "stage2_version", int_text (stage2_version m))]).

Definition get_fact (facts : list (text * text)) (src : text) : res text :=
  match dict_get src facts with Some v => Ok v | None => Raise KeyError end.
Fixpoint field_lines (facts : list (text * text)) (fields : list (text * option text)) : res (list text) :=
  match fields with
  | [] => Ok []
  | (key, src) :: fields =>
      v ← match src with Some src => get_fact facts src | None => Ok FILL end;
      rest ← field_lines facts fields;
      Ok ((key ++ txt ": " ++ v) :: rest)
  end.
Definition template (d : dist) (version : text) : res text :=
  '(_, facts) ← load_dist d;
  lines ← field_lines facts FIELDS;
  Ok (join [10] ([version; []] ++ lines ++ [[]; NOTES_FILL]) ++ [10]).

(** ** A message *)

(** [SIGNATURE.match(line.strip())]: "-----BEGIN [A-Z ]*SIGNATURE-----". *)
Definition is_signature (line : text) : bool :=
  let line := py_strip line in
  let head := txt "-----BEGIN " in
  let tail := txt "SIGNATURE-----" in
  let n := (length line - length tail)%nat in
  startswith head line && (length head + length tail <=? length line)%nat && bool_decide (drop n line = tail)
    && forallb (fun c => ((65 <=? c) && (c <=? 90)) || (c =? 32)) (drop (length head) (take n line)).
Fixpoint cut_signature (lines : list text) : list text :=
  match lines with
  | [] => []
  | l :: ls => if is_signature l then [] else l :: cut_signature ls
  end.
(** A paragraph past blank lines, and what is after it. *)
Fixpoint skip_blank (lines : list text) : list text :=
  match lines with
  | l :: ls => if blank l then skip_blank ls else lines
  | [] => []
  end.
Fixpoint para (lines : list text) : list text * list text :=
  match lines with
  | l :: ls => if blank l then ([], lines) else let '(p, r) := para ls in (l :: p, r)
  | [] => ([], [])
  end.
Definition paragraph (lines : list text) : list text * list text := para (skip_blank lines).
(** [t.strip("\n")]. *)
Fixpoint lstrip_nl (t : text) : text := match t with c :: k => if c =? 10 then lstrip_nl k else t | [] => [] end.
Definition strip_nl (t : text) : text := rev (lstrip_nl (rev (lstrip_nl t))).
Definition split (message : text) : list text * list text * text :=
  let lines := cut_signature (splitlines message) in
  let '(p1, r1) := paragraph lines in
  let '(p2, r2) := paragraph r1 in
  (p1, p2, strip_nl (join [10] r2)).

(** [parse]'s pattern on a line: a name of small letters, digits, dots, spaces and dashes that
    starts with a letter, a colon, white space, and the rest. *)
Definition key_start (c : Z) : bool := (97 <=? c) && (c <=? 122).
Definition key_char (c : Z) : bool := key_start c || ((48 <=? c) && (c <=? 57)) || (c =? 46) || (c =? 32) || (c =? 45).
Definition match_field (line : text) : option (text * text) :=
  match line with
  | c :: _ =>
      if key_start c then
        match span key_char line with
        | (key, 58 :: value) => Some (key, lstrip value)
        | _ => None
        end
      else None
  | [] => None
  end.
Fixpoint parse_lines (lines : list text) (fields : list (text * text)) : list (text * text) :=
  match lines with
  | [] => fields
  | line :: lines =>
      parse_lines lines
        (match match_field line with
         | Some (key, value) =>
             if bool_decide (key ∈ map fst FIELDS) && negb (bool_decide (key ∈ map fst fields)) then fields ++ [(key, py_strip value)] else fields
         | None => fields
         end)
  end.
Definition parse (message : text) : list (text * text) := let '(_, fields, _) := split message in parse_lines fields [].

(** ** Checking *)

Definition mismatch {A} (what : text) : res A := Raise (Mismatch what).
(** One field's checks. *)
Definition verify_field (facts fields : list (text * text)) (commit : text) (key : text) : res unit :=
  let value := default [] (dict_get key fields) in
  if bool_decide (value = []) || contains FILL value then mismatch (txt "tag message: '" ++ key ++ txt "' is missing or not filled in")
  else if bool_decide (key = txt "commit") && negb (startswith value commit)
  then mismatch (txt "tag message names commit " ++ value ++ txt ", the tag points to " ++ commit)
  else
    _ ← (if endswith (txt "stage version") key then
           src ← getitem (default None (dict_get key FIELDS));
           fact ← get_fact facts src;
           if bool_decide (value = fact) then Ok tt
           else mismatch (txt "tag message: " ++ key ++ txt " " ++ value ++ txt ", the dist's is " ++ fact)
         else Ok tt);
    if bool_decide (key = txt "pack.fs sha256") then
      fact ← get_fact facts (txt "pack_sha256");
      if bool_decide (value = fact) then Ok tt
      else mismatch (txt "pack.fs is " ++ fact ++ txt ", the tag message says " ++ value ++ txt ": this is not the bitstream that was tested")
    else Ok tt.
Fixpoint verify_fields (facts fields : list (text * text)) (commit : text) (keys : list text) : res unit :=
  match keys with
  | [] => Ok tt
  | key :: keys => _ ← verify_field facts fields commit key; verify_fields facts fields commit keys
  end.
Definition verify (d : dist) (message commit : text) (allow_dirty : bool) : res manifest :=
  '(m, facts) ← load_dist d;
  if dirty m && negb allow_dirty then mismatch (txt "the dist was built from a tree with uncommitted changes")
  else if negb (bool_decide (git_sha m = commit)) then mismatch (txt "the dist is of " ++ git_sha m ++ txt ", the tag points to " ++ commit)
  else
    let version := fst (fst (split message)) in
    if negb (length version =? 1)%nat || negb (startswith (txt "v") (hd [] version))
    then mismatch (txt "tag message: the first paragraph must be the version alone, then a blank line")
    else
      let fields := parse message in
      _ ← verify_fields facts fields commit (map fst FIELDS);
      if bool_decide (py_strip (snd (split message)) = []) then mismatch (txt "tag message: no release notes after the fields")
      else if contains (txt "<fill in") message then mismatch (txt "tag message: something is not filled in yet")
      else Ok m.

(** [notes]: what is published. *)
Definition notes (message commit : text) : text :=
  let '(_, fields, body) := split message in
  let out := [txt "Built by CI from " ++ commit ++ txt " and tested on a Tang Nano 9K:"; []; txt "```"] ++ fields ++ [txt "```"; []]
    ++ (match body with [] => [] | _ => [body; []] end)
    ++ [txt "Getting started: `docs/APP_DEVELOPMENT.md` in the archive. Tool versions: `MANIFEST.json`."] in
  join [10] out ++ [10].

(** ** Taking a message apart *)

Definition no_break (l : text) : bool := forallb (fun c => negb (line_break c)) l.
Lemma splitlines_from_line cur l t : no_break l = true -> splitlines_from cur (l ++ 10 :: t) = (rev cur ++ l) :: splitlines_from [] t.
Proof.
  revert cur. induction l as [|c l IH]; intros cur H; cbn [app splitlines_from].
  - cbn. by rewrite app_nil_r.
  - cbn [no_break forallb] in H. apply andb_true_iff in H as [Hc H]. apply negb_true_iff in Hc. rewrite Hc, IH by done. cbn [rev]. by rewrite <- app_assoc.
Qed.
Lemma splitlines_unlines ls t : forallb no_break ls = true -> splitlines (unlines ls ++ t) = ls ++ splitlines t.
Proof.
  intros H. unfold splitlines. induction ls as [|l ls IH]; [done|]. cbn [forallb] in H. apply andb_true_iff in H as [Hl H].
  unfold unlines. cbn [map concat]. rewrite <- !app_assoc. cbn [app]. rewrite splitlines_from_line by done. cbn [rev app]. by setoid_rewrite IH.
Qed.

Lemma nonblank_start c t : is_pyspace c = false -> blank (c :: t) = false.
Proof. intros H. unfold blank. apply bool_decide_eq_false. destruct (strip_begins c t H) as [k ->]. done. Qed.
Lemma not_signature c t : is_pyspace c = false -> c <> 45 -> is_signature (c :: t) = false.
Proof.
  intros H Hc. unfold is_signature. destruct (strip_begins c t H) as [k ->]. cbn [startswith].
  replace (startswith (txt "-----BEGIN ") (c :: k)) with false; [done|]. symmetry.
  change (txt "-----BEGIN ") with (45 :: txt "----BEGIN "). cbn [startswith]. by rewrite (proj2 (Z.eqb_neq 45 c)).
Qed.
Lemma para_run p r : forallb (fun l => negb (blank l)) p = true -> para (p ++ [] :: r) = (p, [] :: r).
Proof.
  intros H. induction p as [|l p IH]; [done|]. cbn [forallb] in H. apply andb_true_iff in H as [Hl H]. apply negb_true_iff in Hl. cbn [app para]. by rewrite Hl, IH.
Qed.
Lemma paragraph_run p r : p <> [] -> forallb (fun l => negb (blank l)) p = true -> paragraph (p ++ [] :: r) = (p, [] :: r).
Proof.
  intros Hp H. unfold paragraph. replace (skip_blank (p ++ [] :: r)) with (p ++ [] :: r); [by apply para_run|]. destruct p as [|l p]; [done|].
  cbn [forallb] in H. apply andb_true_iff in H as [Hl _]. apply negb_true_iff in Hl. cbn [app skip_blank]. by rewrite Hl.
Qed.
Lemma paragraph_after p r : p <> [] -> forallb (fun l => negb (blank l)) p = true -> paragraph ([] :: p ++ [] :: r) = (p, [] :: r).
Proof. intros Hp H. change (paragraph (p ++ [] :: r) = (p, [] :: r)). by apply paragraph_run. Qed.

(** A message: the version, the fields, the notes. *)
Definition field_line (kv : text * text) : text := fst kv ++ txt ": " ++ snd kv.
Definition message_lines (version : text) (fields : list (text * text)) (body : list text) : list text :=
  [version; []] ++ map field_line fields ++ [] :: body.
Definition message (version : text) (fields : list (text * text)) (body : list text) : text :=
  join [10] (message_lines version fields body) ++ [10].
Lemma message_unlines version fields body : message version fields body = unlines (message_lines version fields body).
Proof. apply join_unlines. done. Qed.

(** A line of a message: no line break in it, no signature's first line. *)
Definition line_ok (l : text) : bool := no_break l && negb (is_signature l).
(** A field's value: something on one line; and what the tree gives, or the maintainer has filled in. *)
Record shape_ok (v : text) : Prop := { value_some : v <> []; value_stripped : py_strip v = v; value_line : no_break v = true }.
Record value_ok (v : text) : Prop := { value_shape : shape_ok v; value_filled : contains (txt "<fill in") v = false }.
Record version_ok (v : text) : Prop := {
  version_v : startswith (txt "v") v = true; version_line : no_break v = true; version_filled : contains (txt "<fill in") v = false
}.
(** A field's name: as the parser's pattern has it. *)
Definition key_ok (k : text) : bool := match k with c :: _ => key_start c && forallb key_char k | [] => false end.

Lemma key_char_plain c : key_char c = true -> line_break c = false /\ c <> 60 /\ c <> 58.
Proof. unfold key_char, key_start, line_break. intros H. rewrite !orb_true_iff, !andb_true_iff, !Z.leb_le, !Z.eqb_eq in H. split; [|lia]. rewrite !orb_false_iff, !andb_false_iff, !Z.leb_gt, !Z.eqb_neq. lia. Qed.
Lemma key_start_plain c : key_start c = true -> is_pyspace c = false /\ c <> 45.
Proof. unfold key_start, is_pyspace. intros H. rewrite !andb_true_iff, !Z.leb_le in H. split; [|lia]. rewrite !orb_false_iff, !andb_false_iff, !Z.leb_gt, !Z.eqb_neq. lia. Qed.
Lemma field_line_ok k v : key_ok k = true -> no_break v = true -> line_ok (field_line (k, v)) = true /\ blank (field_line (k, v)) = false.
Proof.
  unfold key_ok, field_line. destruct k as [|c k]; [done|]. intros [Hc Hk]%andb_true_iff Hv. apply key_start_plain in Hc as [Hs Hd]. cbn [fst snd app].
  split; [|by apply nonblank_start]. unfold line_ok. rewrite not_signature by done. rewrite andb_true_r. change (no_break ((c :: k) ++ txt ": " ++ v) = true).
  unfold no_break. rewrite !forallb_app. apply andb_true_iff. split; [|by apply andb_true_iff]. revert Hk. generalize (c :: k). intros l. rewrite !forallb_forall. intros H x Hx.
  apply H, key_char_plain in Hx as [Hx _]. by rewrite Hx.
Qed.

(** Its version, fields and notes, whatever signature follows. *)
Record parts_ok (version : text) (fields : list (text * text)) (body : list text) : Prop := {
  parts_version : version_ok version;
  parts_fields : fields <> [] /\ forallb key_ok (map fst fields) = true /\ NoDup (map fst fields) /\ map fst fields ⊆ map fst FIELDS;
  parts_values : Forall shape_ok (map snd fields);
  parts_body : forallb line_ok body = true
}.
Lemma version_start v : startswith (txt "v") v = true -> exists k, v = 118 :: k.
Proof. intros H. apply startswith_iff in H as [k ->]. by exists k. Qed.
Lemma message_lines_ok version fields body : parts_ok version fields body -> forallb line_ok (message_lines version fields body) = true.
Proof.
  intros [[Hv Hb _] (_ & Hk & _ & _) Hf Hbody]. unfold message_lines. rewrite !forallb_app. cbn [forallb]. rewrite Hbody.
  assert (Hl : line_ok version = true).
  { unfold line_ok. rewrite Hb. destruct (version_start version Hv) as [k ->]. by rewrite not_signature. }
  rewrite Hl. change (line_ok []) with true. rewrite !andb_true_r. cbn [andb]. clear -Hk Hf. induction fields as [|[k v] fields IH]; [done|].
  cbn [map forallb fst snd] in *. apply andb_true_iff in Hk as [Hk Hks]. inversion_clear Hf as [|? ? [_ _ Hv] Hf']. rewrite (proj1 (field_line_ok k v Hk Hv)), IH by done. done.
Qed.
Lemma cut_signature_ok ls t : forallb line_ok ls = true -> cut_signature (ls ++ t) = ls ++ cut_signature t.
Proof.
  intros H. induction ls as [|l ls IH]; [done|]. cbn [forallb] in H. apply andb_true_iff in H as [[_ Hl]%andb_true_iff H]. apply negb_true_iff in Hl.
  cbn [app cut_signature]. by rewrite Hl, IH.
Qed.
Lemma lines_no_break ls : forallb line_ok ls = true -> forallb no_break ls = true.
Proof. rewrite !forallb_forall. intros H x Hx. apply H, andb_true_iff in Hx as [Hx _]. done. Qed.
(** What a signed tag's contents end in. *)
Definition signed (signature : list text) : list text := match signature with [] => [] | _ => txt "-----BEGIN PGP SIGNATURE-----" :: signature end.
Lemma cut_message version fields body signature : parts_ok version fields body -> forallb no_break signature = true ->
  cut_signature (splitlines (message version fields body ++ unlines (signed signature))) = message_lines version fields body.
Proof.
  intros H Hs. pose proof (message_lines_ok _ _ _ H) as Hl. rewrite message_unlines, splitlines_unlines by (by apply lines_no_break).
  rewrite cut_signature_ok by done. rewrite <- (app_nil_r (unlines (signed signature))), splitlines_unlines.
  - replace (cut_signature (signed signature ++ splitlines [])) with (@nil text); [by rewrite app_nil_r|]. destruct signature; [done|]. cbn [signed app cut_signature].
    replace (is_signature _) with true by (vm_compute; reflexivity). done.
  - destruct signature; [done|]. cbn [signed forallb]. apply andb_true_iff. split; [vm_compute; reflexivity|done].
Qed.
Lemma split_message version fields body signature : parts_ok version fields body -> forallb no_break signature = true ->
  split (message version fields body ++ unlines (signed signature)) = ([version], map field_line fields, strip_nl (join [10] ([] :: body))).
Proof.
  intros H Hs. unfold split. rewrite cut_message by done. destruct H as [[Hv _ _] (Hf & Hk & _ & _) Hvs _].
  unfold message_lines. change ([version; []] ++ map field_line fields ++ [] :: body) with ([version] ++ [] :: map field_line fields ++ [] :: body).
  rewrite paragraph_run; [|done|].
  2: { cbn [forallb]. destruct (version_start version Hv) as [k ->]. by rewrite nonblank_start. }
  rewrite paragraph_after; [done|by destruct fields|].
  clear -Hk Hvs. induction fields as [|[k v] fields IH]; [done|]. cbn [map forallb fst snd] in *. apply andb_true_iff in Hk as [Hk Hks]. inversion_clear Hvs as [|? ? [_ _ Hv] Hvs'].
  rewrite (proj2 (field_line_ok k v Hk Hv)), IH by done. done.
Qed.

(** The fields read back. *)
Lemma match_field_line k v : key_ok k = true -> match_field (field_line (k, v)) = Some (k, lstrip v).
Proof.
  unfold key_ok, field_line, match_field. destruct k as [|c k]; [done|]. intros [Hc Hk]%andb_true_iff. cbn [fst snd app]. rewrite Hc.
  change (c :: k ++ txt ": " ++ v) with ((c :: k) ++ 58 :: 32 :: v). rewrite span_all by done. done.
Qed.
Lemma strip_lstrip v : py_strip (lstrip v) = py_strip v.
Proof.
  unfold py_strip. f_equal. f_equal. f_equal. induction v as [|c v IH]; [done|]. cbn [lstrip]. destruct (is_pyspace c) eqn:E; [done|]. by rewrite lstrip_first.
Qed.
Lemma parse_lines_ok fields got : forallb key_ok (map fst fields) = true -> NoDup (map fst got ++ map fst fields) -> map fst fields ⊆ map fst FIELDS -> Forall shape_ok (map snd fields) ->
  parse_lines (map field_line fields) got = got ++ fields.
Proof.
  revert got. induction fields as [|[k v] fields IH]; intros got Hk Hd Hin Hv; cbn [map parse_lines fst snd forallb] in *; [by rewrite app_nil_r|].
  apply andb_true_iff in Hk as [Hk Hks]. inversion_clear Hv as [|? ? Hv1 Hvs]. rewrite match_field_line, strip_lstrip by done. rewrite (value_stripped v Hv1).
  rewrite bool_decide_true by (apply Hin; by left). rewrite bool_decide_false by (apply NoDup_app in Hd as (_ & Hd & _); intros Hg; apply (Hd k Hg); by left). cbn [andb negb].
  rewrite IH; [by rewrite <- app_assoc|done| |intros x Hx; apply Hin; by right|done]. rewrite map_app. cbn [map fst]. by rewrite <- app_assoc.
Qed.
Lemma parse_message version fields body signature : parts_ok version fields body -> forallb no_break signature = true ->
  parse (message version fields body ++ unlines (signed signature)) = fields.
Proof.
  intros H Hs. unfold parse. rewrite split_message by done. destruct H as [_ (_ & Hk & Hd & Hin) Hv _]. by apply (parse_lines_ok fields []).
Qed.

(** ** What the tree says of itself *)

(** Printable ASCII without the "<" of what is to be filled in. *)
Definition quiet (c : Z) : bool := (32 <=? c) && (c <? 127) && negb (c =? 60).
Lemma plain_quiet l : forallb plain l = true -> forallb quiet l = true.
Proof. rewrite !forallb_forall. intros H c Hc. specialize (H c Hc). unfold plain, quiet in *. rewrite !andb_true_iff, Z.leb_le in *. lia. Qed.
Lemma quiet_line l : forallb quiet l = true -> no_break l = true /\ contains (txt "<fill in") l = false.
Proof.
  intros H. rewrite forallb_forall in H. split.
  - unfold no_break. apply forallb_forall. intros c Hc. specialize (H c Hc). unfold quiet in H. unfold line_break. rewrite !andb_true_iff, Z.leb_le, Z.ltb_lt, negb_true_iff in H.
    apply negb_true_iff. rewrite !orb_false_iff, !andb_false_iff, !Z.leb_gt, !Z.eqb_neq. lia.
  - apply (contains_none 60 (txt "fill in")). intros Hc. apply list_elem_of_In, H in Hc. done.
Qed.
Lemma quiet_value v c d : head v = Some c -> last v = Some d -> plain c = true -> plain d = true -> forallb quiet v = true -> value_ok v.
Proof.
  intros H1 H2 Hc Hd Hq. destruct (quiet_line _ Hq) as [H3 H4]. destruct v as [|c' t]; [done|]. injection H1 as ->. apply last_Some in H2 as [u E]. split; [split; [done| |done]|done].
  apply (strip_first c t d u); [by apply plain_nonspace|by apply plain_nonspace|done].
Qed.
Lemma plain_value v : v <> [] -> forallb plain v = true -> value_ok v.
Proof.
  intros Hv H. destruct v as [|c t] eqn:E; [done|]. rewrite <- E in *. destruct (last v) as [d|] eqn:Hl; [|by apply last_None in Hl; subst]. assert (Hd : plain d = true).
  { apply last_Some in Hl as [u Hl]. rewrite Hl, forallb_app in H. apply andb_true_iff in H as [_ H]. cbn [forallb] in H. by apply andb_true_iff in H as []. }
  apply (quiet_value _ c d); [by rewrite E|done| |done|by apply plain_quiet]. rewrite E in H. cbn [forallb] in H. by apply andb_true_iff in H as [].
Qed.
Lemma int_text_plain n : int_text n <> [] /\ forallb plain (int_text n) = true.
Proof. unfold int_text. destruct (n <? 0); (split; [|auto with plain]); [done|apply dec_some]. Qed.
Lemma hexdigest_plain l : hexdigest l <> [] /\ forallb plain (hexdigest l) = true.
Proof.
  split; [intros E; pose proof (hexdigest_length l) as H; by rewrite E in H|]. pose proof (hexdigest_hex l) as H. rewrite !forallb_forall in *. intros c Hc. specialize (H c Hc).
  unfold is_hex in H. unfold plain. rewrite orb_true_iff, !andb_true_iff, !Z.leb_le in H. rewrite !andb_true_iff, negb_true_iff, Z.leb_le, Z.ltb_lt, Z.eqb_neq. lia.
Qed.

(** The facts of a tree whose files are as listed. *)
Lemma load_facts d m facts : load_dist d = Ok (m, facts) ->
  m = d_manifest d /\ check_sums d = Ok tt /\
  exists pack, d_files d !! file (m_bitstream m) = Some pack /\ dict_get (txt "pack_sha256") facts = Some (hexdigest pack) /\
  dict_get (txt "git_sha") facts = Some (git_sha m) /\ (exists s, dict_get (txt "seed") facts = Some s /\ value_ok s) /\
  dict_get (txt "stage1_version") facts = Some (int_text (stage1_version m)) /\ dict_get (txt "stage2_version") facts = Some (int_text (stage2_version m)).
Proof.
  unfold load_dist, read_file. intros H. apply bind_Ok in H as ([] & Hs & H). apply bind_Ok in H as (pack & Hp & H). apply Ok_inj in H. injection H as <- <-.
  destruct (d_files d !! _) as [l|] eqn:E; [|done]. apply Ok_inj in Hp as ->. split; [done|]. split; [done|]. exists pack. split; [done|]. split; [reflexivity|]. split; [reflexivity|].
  split; [|by split]. exists (seed_text (m_bitstream (d_manifest d))). split; [reflexivity|]. generalize (m_bitstream (d_manifest d)). intros b. unfold seed_text.
  destruct (int_text_plain (pnr_seed b)) as [Hn Hi]. destruct (int_text (pnr_seed b)) as [|c t]; [done|]. apply (quiet_value _ c 41); [done| | |done|].
  - rewrite !last_app. done.
  - cbn [forallb] in Hi. by apply andb_true_iff in Hi as [].
  - rewrite !forallb_app, (plain_quiet _ Hi), (plain_quiet _ (fixed_text_plain true 3 _)), (plain_quiet _ (float_str_plain _)). reflexivity.
Qed.

(** ** The template, filled in *)

(** The fields as the template has them, with [results] where the maintainer fills in. *)
Definition filled (facts : list (text * text)) (results : text -> text) : list (text * text) :=
  map (fun ks => (fst ks, match snd ks with Some src => default [] (dict_get src facts) | None => results (fst ks) end)) FIELDS.
Lemma field_lines_filled facts fields :
  Forall (fun ks => match snd ks with Some src => is_Some (dict_get src facts) | None => True end) fields ->
  field_lines facts fields = Ok (map field_line (map (fun ks => (fst ks, match snd ks with Some src => default [] (dict_get src facts) | None => FILL end)) fields)).
Proof.
  induction 1 as [|[key src] fields H Hf IH]; [done|]. cbn [field_lines map fst snd] in *. destruct src as [src|].
  - destruct H as [v H]. unfold get_fact. rewrite H. cbn [from_option id]. change (Ok v ≫= ?f) with (f v). by rewrite IH.
  - change (Ok FILL ≫= ?f) with (f FILL). by rewrite IH.
Qed.
Lemma template_message d m facts version : load_dist d = Ok (m, facts) ->
  template d version = Ok (message version (filled facts (fun _ => FILL)) [NOTES_FILL]).
Proof.
  intros H. unfold template. rewrite H. change (Ok (m, facts) ≫= ?f) with (f (m, facts)). cbv beta iota.
  destruct (load_facts _ _ _ H) as (_ & _ & pack & _ & H1 & H2 & (s & H3 & _) & H4 & H5).
  rewrite field_lines_filled; [done|]. unfold FIELDS. repeat constructor; cbn [snd]; rewrite ?H1, ?H2, ?H3, ?H4, ?H5; by eexists.
Qed.

Lemma all_space_strip t : py_strip t = [] -> forallb is_pyspace t = true.
Proof.
  intros H. assert (Hl : forall l, lstrip l = [] -> forallb is_pyspace l = true).
  { induction l as [|c l IH]; [done|]. cbn [lstrip forallb]. destruct (is_pyspace c); [done|done]. }
  unfold py_strip in H. apply (f_equal (@rev Z)) in H. rewrite rev_involutive in H. apply Hl in H.
  assert (Ht : forallb is_pyspace (lstrip t) = true) by (rewrite forallb_forall in *; intros x Hx; apply H; by rewrite <- in_rev).
  clear -Ht. induction t as [|c t IH]; [done|]. cbn [lstrip forallb] in *. destruct (is_pyspace c) eqn:E; [by apply IH|]. cbn [forallb] in Ht. by rewrite E in Ht.
Qed.
Lemma in_strip_nl c t : c ∈ t -> c <> 10 -> c ∈ strip_nl t.
Proof.
  assert (Hl : forall l, c ∈ l -> c <> 10 -> c ∈ lstrip_nl l).
  { induction l as [|x l IH]; [done|]. intros Hin Hc. cbn [lstrip_nl]. destruct (Z.eqb_spec x 10) as [->|]; [|done]. apply elem_of_cons in Hin as [|Hin]; [done|by apply IH]. }
  intros H Hc. unfold strip_nl. apply list_elem_of_In. rewrite <- in_rev. apply list_elem_of_In, Hl; [|done]. apply list_elem_of_In. rewrite <- in_rev. apply list_elem_of_In. by apply Hl.
Qed.
Lemma in_join c l sep ls : l ∈ ls -> c ∈ l -> c ∈ join sep ls.
Proof.
  intros Hl Hc. induction ls as [|x ls IH]; [by apply not_elem_of_nil in Hl|]. apply elem_of_cons in Hl as [->|Hl].
  - destruct ls as [|y ls]; [done|]. cbn [join]. apply elem_of_app. by left.
  - destruct ls as [|y ls]; [by apply not_elem_of_nil in Hl|]. change (join sep (x :: y :: ls)) with (x ++ sep ++ join sep (y :: ls)). rewrite !elem_of_app. right. right. by apply IH.
Qed.
(** Notes with a line that isn't blank are notes. *)
Lemma notes_some body : existsb (fun l => negb (blank l)) body = true -> py_strip (strip_nl (join [10] ([] :: body))) <> [].
Proof.
  intros H E. apply existsb_exists in H as (l & Hl & H). apply negb_true_iff, bool_decide_eq_false in H. apply H. apply list_elem_of_In in Hl.
  apply all_space_strip in E. rewrite forallb_forall in E.
  assert (Hs : forall c, c ∈ l -> is_pyspace c = true).
  { intros c Hc. destruct (decide (c = 10)) as [->|Hn]; [done|]. apply E, list_elem_of_In, in_strip_nl; [|done]. apply (in_join c l); [by right|done]. }
  clear -Hs. assert (Hl : lstrip l = []).
  { induction l as [|c l IH]; [done|]. cbn [lstrip]. rewrite (Hs c) by (by left). apply IH. intros d Hd. apply Hs. by right. }
  unfold py_strip. by rewrite Hl.
Qed.

Lemma contains_message version fields body signature :
  contains (txt "<fill in") version = false -> forallb key_ok (map fst fields) = true -> Forall (fun v => contains (txt "<fill in") v = false) (map snd fields) ->
  existsb (contains (txt "<fill in")) (body ++ signed signature) = false ->
  contains (txt "<fill in") (message version fields body ++ unlines (signed signature)) = false.
Proof.
  intros Hv Hk Hf Hb. rewrite message_unlines, <- unlines_app, contains_unlines; [|done|]. 2: { apply (bool_decide_eq_false_1 _). vm_compute. reflexivity. }
  unfold message_lines. rewrite <- !app_assoc. cbn [app existsb]. rewrite Hv, !existsb_app. cbn [app existsb].
  change (contains (txt "<fill in") []) with false. cbn [orb]. rewrite Hb, orb_false_r.
  clear -Hk Hf. induction fields as [|[k v] fields IH]; [done|]. cbn [map fst snd forallb existsb] in *. apply andb_true_iff in Hk as [Hk Hks]. inversion_clear Hf as [|? ? Hv Hvs].
  rewrite IH, orb_false_r by done. unfold field_line. cbn [fst snd]. rewrite app_assoc. change (txt "<fill in") with (60 :: txt "fill in"). rewrite contains_skip; [done|].
  rewrite elem_of_app. intros [Hin|Hin]; [|revert Hin; apply (bool_decide_eq_false_1 _); vm_compute; reflexivity].
  unfold key_ok in Hk. destruct k as [|c k]; [done|]. apply andb_true_iff in Hk as [_ Hk]. rewrite forallb_forall in Hk. apply list_elem_of_In, Hk, key_char_plain in Hin as (_ & H & _). done.
Qed.

(** ** Properties *)

(** What the maintainer writes for a tree: a version, the results, and notes that are filled in. *)
Record release_ok (version : text) (results : text -> text) (body signature : list text) : Prop := {
  release_version : version_ok version;
  release_results : forall key, (key, None) ∈ FIELDS -> value_ok (results key);
  release_body : forallb line_ok body = true /\ existsb (fun l => negb (blank l)) body = true;
  release_signature : forallb no_break signature = true;
  release_filled : existsb (contains (txt "<fill in")) (body ++ signed signature) = false
}.
Lemma filled_keys facts results : map fst (filled facts results) = map fst FIELDS.
Proof. reflexivity. Qed.
Lemma filled_parts d m facts version results body : load_dist d = Ok (m, facts) -> version_ok version -> shape_ok (git_sha m) -> (forall key, (key, None) ∈ FIELDS -> shape_ok (results key)) ->
  forallb line_ok body = true -> parts_ok version (filled facts results) body.
Proof.
  intros H Hv Hg Hr Hb. destruct (load_facts _ _ _ H) as (_ & _ & pack & _ & H1 & H2 & (s & H3 & Hs) & H4 & H5). split; [done| | |done].
  - rewrite filled_keys. split; [done|]. split; [vm_compute; reflexivity|]. split; [apply (bool_decide_eq_true_1 _); vm_compute; reflexivity|done].
  - assert (Hn : forall n, shape_ok (int_text n)) by (intros n; destruct (int_text_plain n); by apply plain_value).
    unfold filled, FIELDS. cbn [map fst snd]. rewrite H1, H2, H3, H4, H5. cbn [from_option id]. destruct (hexdigest_plain pack).
    repeat eapply List.Forall_cons; try apply List.Forall_nil; first [done|apply Hn|apply Hs|by apply plain_value|apply Hr; apply (bool_decide_eq_true_1 _); vm_compute; reflexivity].
Qed.

(** What a field's checks ask for. *)
Record field_checked (facts fields : list (text * text)) (commit key v : text) : Prop := {
  checked_value : dict_get key fields = Some v /\ v <> [] /\ contains FILL v = false;
  checked_commit : key = txt "commit" -> startswith v commit = true;
  checked_version : endswith (txt "stage version") key = true -> exists src, dict_get key FIELDS = Some (Some src) /\ dict_get src facts = Some v;
  checked_pack : key = txt "pack.fs sha256" -> dict_get (txt "pack_sha256") facts = Some v
}.
Lemma verify_field_iff facts fields commit key : verify_field facts fields commit key = Ok tt <-> exists v, field_checked facts fields commit key v.
Proof.
  unfold verify_field, mismatch, get_fact. split.
  - destruct (dict_get key fields) as [v|] eqn:Ev; cbn [from_option id]; [|done]. destruct (decide (v = [])) as [->|Hv]; [done|].
    rewrite (bool_decide_false (v = [])) by done. cbn [orb]. destruct (contains FILL v) eqn:Ef; [done|]. intros H.
    destruct (bool_decide (key = txt "commit") && negb (startswith v commit)) eqn:Ec; [done|]. apply bind_Ok in H as ([] & Hs & Hp).
    exists v. split; [done| | |].
    + intros ->. rewrite bool_decide_true in Ec by done. cbn [andb] in Ec. by apply negb_false_iff in Ec.
    + intros He. rewrite He in Hs. apply bind_Ok in Hs as (src & Hsrc & Hs). destruct (dict_get key FIELDS) as [[src'|]|]; cbn in Hsrc; try done. apply Ok_inj in Hsrc as ->.
      exists src. split; [done|]. destruct (dict_get src facts) as [fact|]; [|done]. change (Ok fact ≫= ?f) with (f fact) in Hs. cbv beta in Hs. by destruct (decide (v = fact)) as [->|Hne]; [|rewrite bool_decide_false in Hs].
    + intros ->. rewrite bool_decide_true in Hp by done. destruct (dict_get (txt "pack_sha256") facts) as [fact|]; [|done]. change (Ok fact ≫= ?f) with (f fact) in Hp. cbv beta in Hp. by destruct (decide (v = fact)) as [->|Hne]; [|rewrite bool_decide_false in Hp].
  - intros (v & [(Ev & Hv & Hf) Hc Hs Hp]). rewrite Ev. cbn [from_option id]. rewrite (bool_decide_false (v = [])), Hf by done. cbn [orb].
    replace (bool_decide (key = txt "commit") && negb (startswith v commit)) with false by (destruct (decide (key = txt "commit")) as [E|E]; [by rewrite (Hc E), andb_false_r|by rewrite bool_decide_false]).
    destruct (endswith _ key).
    + destruct (Hs eq_refl) as (src & E1 & E2). rewrite E1. cbn [from_option id getitem]. change (Ok src ≫= ?f) with (f src). cbv beta. rewrite E2.
      change (Ok v ≫= ?f) with (f v) at 1. cbv beta. rewrite (bool_decide_true (v = v)) by done. change (Ok tt ≫= ?f) with (f tt). cbv beta. destruct (decide (key = txt "pack.fs sha256")) as [E|E]; [|by rewrite bool_decide_false].
      rewrite bool_decide_true, (Hp E) by done. change (Ok v ≫= ?f) with (f v). cbv beta. by rewrite bool_decide_true.
    + change (Ok tt ≫= ?f) with (f tt). cbv beta. destruct (decide (key = txt "pack.fs sha256")) as [E|E]; [|by rewrite bool_decide_false].
      rewrite bool_decide_true, (Hp E) by done. change (Ok v ≫= ?f) with (f v). cbv beta. by rewrite bool_decide_true.
Qed.
Lemma verify_fields_iff facts fields commit keys : verify_fields facts fields commit keys = Ok tt <-> Forall (fun key => exists v, field_checked facts fields commit key v) keys.
Proof.
  induction keys as [|key keys IH]; [by split; [constructor|]|]. cbn [verify_fields]. rewrite Forall_cons, <- IH, <- verify_field_iff. split.
  - intros H. apply bind_Ok in H as ([] & ? & ?). done.
  - intros [-> H]. done.
Qed.

(** The fields of a template pass: the tree's as they come, the others filled in. *)
Lemma value_checked facts fields commit key v : dict_get key fields = Some v -> value_ok v ->
  (bool_decide (key = txt "commit") = true -> startswith v commit = true) ->
  (endswith (txt "stage version") key = true -> exists src, dict_get key FIELDS = Some (Some src) /\ dict_get src facts = Some v) ->
  (bool_decide (key = txt "pack.fs sha256") = true -> dict_get (txt "pack_sha256") facts = Some v) -> exists v, field_checked facts fields commit key v.
Proof.
  intros Hd [[Hv _ _] Hf] A B C. exists v. split; [|intros E; by apply A, bool_decide_eq_true|done|intros E; by apply C, bool_decide_eq_true].
  split; [done|]. split; [done|]. change FILL with (txt "<fill in" ++ txt ">"). by apply contains_longer.
Qed.
Lemma facts_checked d m facts results : load_dist d = Ok (m, facts) -> value_ok (git_sha m) ->
  Forall (fun key => exists v, field_checked facts (filled facts results) (git_sha m) key v) (map fst (take 5 FIELDS)).
Proof.
  intros H Hg. destruct (load_facts _ _ _ H) as (_ & _ & pack & _ & H1 & H2 & (s & H3 & Hs) & H4 & H5). destruct (hexdigest_plain pack) as [Hp1 Hp2].
  assert (Hn : forall n, value_ok (int_text n)) by (intros n; destruct (int_text_plain n); by apply plain_value).
  unfold FIELDS at 1. cbn [take map fst]. repeat eapply List.Forall_cons; try apply List.Forall_nil; (eapply value_checked; [reflexivity| | | |]).
  all: cbn [fst snd]; rewrite ?H1, ?H2, ?H3, ?H4, ?H5; cbn [from_option id].
  all: try done; try apply Hn; try (by apply plain_value).
  - intros _. apply startswith_refl.
  - intros _. exists (txt "stage1_version"). split; [vm_compute; reflexivity|done].
  - intros _. exists (txt "stage2_version"). split; [vm_compute; reflexivity|done].
Qed.
Lemma results_checked facts results commit : (forall key, (key, None) ∈ FIELDS -> value_ok (results key)) ->
  Forall (fun key => exists v, field_checked facts (filled facts results) commit key v) (map fst (drop 5 FIELDS)).
Proof.
  intros Hr. unfold FIELDS at 1. cbn [drop map fst]. repeat eapply List.Forall_cons; try apply List.Forall_nil; (eapply value_checked; [reflexivity| | | |]).
  all: try done; apply Hr; apply (bool_decide_eq_true_1 _); vm_compute; reflexivity.
Qed.
Lemma verify_fields_app facts fields commit a b : verify_fields facts fields commit a = Ok tt -> verify_fields facts fields commit (a ++ b) = verify_fields facts fields commit b.
Proof.
  induction a as [|key a IH]; [done|]. cbn [app verify_fields]. intros H. apply bind_Ok in H as ([] & -> & H). change (Ok tt ≫= ?f) with (f tt). by apply IH.
Qed.

(** [verify] of a message of the right form, down to its fields and notes. *)
Lemma verify_message d m facts version fields body signature allow_dirty : load_dist d = Ok (m, facts) -> parts_ok version fields body -> forallb no_break signature = true ->
  dirty m = false \/ allow_dirty = true ->
  let msg := message version fields body ++ unlines (signed signature) in
  verify d msg (git_sha m) allow_dirty =
    (_ ← verify_fields facts fields (git_sha m) (map fst FIELDS);
     if bool_decide (py_strip (strip_nl (join [10] ([] :: body))) = []) then mismatch (txt "tag message: no release notes after the fields")
     else if contains (txt "<fill in") msg then mismatch (txt "tag message: something is not filled in yet") else Ok m).
Proof.
  intros H Hp Hs Hd msg. unfold verify. rewrite H. change (Ok (m, facts) ≫= ?f) with (f (m, facts)). cbv beta iota zeta.
  replace (dirty m && negb allow_dirty) with false by (destruct Hd as [-> | ->]; [done|by rewrite andb_false_r]). rewrite bool_decide_true by done. cbn [negb].
  unfold msg. rewrite split_message, parse_message by done. cbn [fst snd hd length Nat.eqb negb orb]. by rewrite (version_v _ (parts_version _ _ _ Hp)).
Qed.

(** The notes of a message are its last lines. *)
Lemma strip_notes body : body <> [] -> strip_nl (join [10] ([] :: body)) = strip_nl (join [10] body).
Proof. by destruct body. Qed.

(** C35: the template of a tree, with the board's results and notes filled in, is taken apart into
    just those, whatever signature git puts after it: the version, the tree's facts and the
    results under their names, and the notes whole. It verifies against the tree; as it comes,
    it doesn't. *)
Theorem filled_in_verifies d m facts version results body signature allow_dirty :
  load_dist d = Ok (m, facts) -> value_ok (git_sha m) -> dirty m = false \/ allow_dirty = true -> release_ok version results body signature ->
  let msg := message version (filled facts results) body ++ unlines (signed signature) in
  template d version = Ok (message version (filled facts (fun _ => FILL)) [NOTES_FILL]) /\
  verify d (message version (filled facts (fun _ => FILL)) [NOTES_FILL]) (git_sha m) allow_dirty = mismatch (txt "tag message: 'test-hw' is missing or not filled in") /\
  split msg = ([version], map field_line (filled facts results), strip_nl (join [10] body)) /\
  parse msg = filled facts results /\
  verify d msg (git_sha m) allow_dirty = Ok m.
Proof.
  intros H Hg Hd [Hv Hr [Hb1 Hb2] Hs Hf] msg. split; [by eapply template_message|].
  assert (Hfacts : forall results, verify_fields facts (filled facts results) (git_sha m) (map fst (take 5 FIELDS)) = Ok tt)
    by (intros r; apply verify_fields_iff; by eapply facts_checked). split.
  - assert (Hp : parts_ok version (filled facts (fun _ => FILL)) [NOTES_FILL]).
    { apply (filled_parts d m facts); [done|done|apply Hg| |vm_compute; reflexivity]. intros _ _. split; [done|vm_compute; reflexivity|vm_compute; reflexivity]. }
    rewrite <- (app_nil_r (message _ _ _)). rewrite (verify_message d m facts version _ _ [] _ H Hp) by done.
    change (map fst FIELDS) with (map fst (take 5 FIELDS) ++ map fst (drop 5 FIELDS)). by rewrite verify_fields_app.
  - assert (Hp : parts_ok version (filled facts results) body) by (apply (filled_parts d m facts); [done|done|apply Hg|intros k Hk; apply Hr, Hk|done]).
    unfold msg. split; [rewrite split_message, strip_notes by (done || by intros ->); done|]. split; [by apply parse_message|].
    rewrite (verify_message d m facts version _ _ signature _ H Hp) by done. cbv zeta.
    change (map fst FIELDS) with (map fst (take 5 FIELDS) ++ map fst (drop 5 FIELDS)) at 1. rewrite verify_fields_app by done.
    rewrite (proj2 (verify_fields_iff _ _ _ _)) by (by apply results_checked). change (Ok tt ≫= ?f) with (f tt). cbv beta.
    rewrite bool_decide_false by (by apply notes_some). rewrite contains_message; [done|apply Hv| | |done].
    + rewrite filled_keys. vm_compute. reflexivity.
    + destruct (load_facts _ _ _ H) as (_ & _ & pack & _ & H1 & H2 & (s & H3 & Hs') & H4 & H5). destruct (hexdigest_plain pack).
      assert (Hn : forall n, value_ok (int_text n)) by (intros n; destruct (int_text_plain n); by apply plain_value).
      unfold filled, FIELDS. cbn [map fst snd]. rewrite H1, H2, H3, H4, H5. cbn [from_option id].
      repeat eapply List.Forall_cons; try apply List.Forall_nil; apply value_filled; first [done|apply Hn|by apply plain_value|apply Hr; apply (bool_decide_eq_true_1 _); vm_compute; reflexivity].
Qed.

(** C16: what [verify] passes is a release: every file that SHA256SUMS lists is the one that was
    hashed, the tree is of the commit (and of no uncommitted change), the bitstream is the one
    that the message says was tested, the stages' versions are the tree's, and every field and
    the notes are filled in. *)
Theorem verify_passes d msg commit allow_dirty m : verify d msg commit allow_dirty = Ok m ->
  m = d_manifest d /\ git_sha m = commit /\ (dirty m = true -> allow_dirty = true) /\
  (forall line, line ∈ file_lines (d_sums d) -> blank line = false ->
    exists digest rel data, partition (txt "  ") line = Some (digest, rel) /\ d_files d !! rel = Some data /\ hexdigest data = digest) /\
  (exists pack, d_files d !! file (m_bitstream m) = Some pack /\ dict_get (txt "pack.fs sha256") (parse msg) = Some (hexdigest pack)) /\
  (exists c k, dict_get (txt "commit") (parse msg) = Some c /\ c <> [] /\ commit = c ++ k) /\
  dict_get (txt "first stage version") (parse msg) = Some (int_text (stage1_version m)) /\
  dict_get (txt "second stage version") (parse msg) = Some (int_text (stage2_version m)) /\
  Forall (fun key => exists v, dict_get key (parse msg) = Some v /\ v <> [] /\ contains FILL v = false) (map fst FIELDS) /\
  py_strip (snd (split msg)) <> [] /\ contains (txt "<fill in") msg = false.
Proof.
  unfold verify, mismatch. intros H. apply bind_Ok in H as ([m' facts] & Hl & H). cbv beta iota zeta in H.
  destruct (load_facts _ _ _ Hl) as (-> & Hsums & pack & Hp & H1 & H2 & _ & H4 & H5). set (m' := d_manifest d) in *.
  destruct (dirty m' && negb allow_dirty) eqn:Ed; [done|]. destruct (decide (git_sha m' = commit)) as [Ec|]; [|by rewrite bool_decide_false in H]. rewrite bool_decide_true in H by done. cbn [negb] in H.
  destruct (negb _ || negb _); [done|]. apply bind_Ok in H as ([] & Hf & H). destruct (decide (py_strip (snd (split msg)) = [])) as [|Hn]; [by rewrite bool_decide_true in H|].
  rewrite bool_decide_false in H by done. destruct (contains (txt "<fill in") msg) eqn:Ei; [done|]. apply Ok_inj in H as <-.
  apply verify_fields_iff in Hf. rewrite Forall_forall in Hf.
  assert (Hk : forall key, bool_decide (key ∈ map fst FIELDS) = true -> exists v, field_checked facts (parse msg) commit key v) by (intros key Hk; apply Hf, (bool_decide_eq_true_1 _ Hk)).
  split; [done|]. split; [done|]. split. { intros E. rewrite E in Ed. cbn [andb] in Ed. by apply negb_false_iff in Ed. }
  split. { clear -Hsums. unfold check_sums in Hsums. induction (file_lines (d_sums d)) as [|l ls IH]; intros line Hline Hb; [by apply not_elem_of_nil in Hline|].
    cbn [check_sums_lines] in Hsums. apply elem_of_cons in Hline as [->|Hline].
    - rewrite Hb in Hsums. apply bind_Ok in Hsums as ([digest rel] & Hs & Hsums). apply bind_Ok in Hsums as (data & Hr & Hsums). unfold sums_line in Hs. unfold read_file in Hr.
      destruct (partition _ l) as [dr|]; [|done]. apply Ok_inj in Hs as ->. destruct (d_files d !! rel) as [x|] eqn:Er; [|done]. apply Ok_inj in Hr as ->.
      exists digest, rel, data. split; [done|]. split; [done|]. by destruct (decide (hexdigest data = digest)) as [|Hne]; [|rewrite bool_decide_false in Hsums].
    - destruct (blank l); [by apply IH|]. apply bind_Ok in Hsums as ([digest rel] & _ & Hsums). apply bind_Ok in Hsums as (data & _ & Hsums). apply IH; [|done|done]. by destruct (bool_decide _). }
  split. { destruct (Hk (txt "pack.fs sha256") eq_refl) as (v & [(Hv & _) _ _ Hpack]). specialize (Hpack eq_refl). rewrite H1 in Hpack. injection Hpack as <-. by exists pack. }
  split. { destruct (Hk (txt "commit") eq_refl) as (v & [(Hv & Hne & _) Hc _ _]). apply startswith_iff in Hc as [k Hc]; [|done]. by exists v, k. }
  split. { destruct (Hk (txt "first stage version") eq_refl) as (v & [(Hv & _) _ Hs _]). destruct (Hs eq_refl) as (src & E & Hv'). vm_compute in E. injection E as <-. change (dict_get (txt "stage1_version") facts = Some v) in Hv'. congruence. }
  split. { destruct (Hk (txt "second stage version") eq_refl) as (v & [(Hv & _) _ Hs _]). destruct (Hs eq_refl) as (src & E & Hv'). vm_compute in E. injection E as <-. change (dict_get (txt "stage2_version") facts = Some v) in Hv'. congruence. }
  split; [|done]. apply Forall_forall. intros key Hin. destruct (Hf key Hin) as (v & [Hv _ _ _]). by exists v.
Qed.

(** A tree of one file beside its manifest, and its message. *)
Definition demo_pack : bytes := bstr "Gowin bitstream".
Definition demo_manifest : manifest :=
  mkManifest (txt "0123456789abcdef0123456789abcdef01234567") (txt "v1.0.0") false
    (mkBitstream (txt "bitstream/pack.fs") 7 (of_decimal 123 (-3)) (of_decimal 36 0) true) 3 12 [].
Definition demo_dist : dist :=
  mkDist demo_manifest (hexdigest demo_pack ++ txt "  bitstream/pack.fs" ++ [10]) {[ txt "bitstream/pack.fs" := demo_pack ]}.
Definition demo_facts : list (text * text) := match load_dist demo_dist with Ok (_, f) => f | Raise _ => [] end.
Definition demo_body : list text := [txt "## Notes"; []; txt "test-hw: a line in the notes is not a field"].
Definition demo_message : text := message (txt "v1.0.0") (filled demo_facts (fun _ => txt "16/16 PASS")) demo_body.

Lemma demo_loads : load_dist demo_dist = Ok (demo_manifest, demo_facts).
Proof. vm_compute. reflexivity. Qed.
Lemma demo_release : release_ok (txt "v1.0.0") (fun _ => txt "16/16 PASS") demo_body [txt "xyz"].
Proof. split; [split; vm_compute; reflexivity| |split; vm_compute; reflexivity|vm_compute; reflexivity|vm_compute; reflexivity]. intros _ _. split; [split|]; [done| | |]; vm_compute; reflexivity. Qed.
Lemma filled_in_verifies_witness :
  parse (demo_message ++ unlines (signed [txt "xyz"])) = filled demo_facts (fun _ => txt "16/16 PASS") /\
  verify demo_dist (demo_message ++ unlines (signed [txt "xyz"])) (git_sha demo_manifest) false = Ok demo_manifest.
Proof.
  refine ((fun H => proj2 (proj2 (proj2 H))) (filled_in_verifies demo_dist demo_manifest demo_facts (txt "v1.0.0") (fun _ => txt "16/16 PASS") demo_body [txt "xyz"] false _ _ _ _)).
  - exact demo_loads.
  - split; [split|]; [done| | |]; vm_compute; reflexivity.
  - left. reflexivity.
  - exact demo_release.
Defined.
Lemma verify_passes_witness :
  verify demo_dist demo_message (git_sha demo_manifest) false = Ok demo_manifest /\
  dict_get (txt "pack.fs sha256") (parse demo_message) = Some (hexdigest demo_pack).
Proof.
  assert (H : verify demo_dist demo_message (git_sha demo_manifest) false = Ok demo_manifest) by (vm_compute; reflexivity).
  split; [exact H|]. destruct (verify_passes demo_dist demo_message (git_sha demo_manifest) false demo_manifest H) as (_ & _ & _ & _ & (pack & Hp & Hv) & _).
  rewrite Hv. f_equal. vm_compute in Hp. injection Hp as <-. reflexivity.
Defined.
Example signature_unpublished :
  notes (demo_message ++ unlines (signed [txt "xyz"])) (txt "0123") = notes demo_message (txt "0123") /\ contains (txt "xyz") (notes demo_message (txt "0123")) = false.
Proof. vm_compute. done. Qed.
