(* ===== verification/Dist.v ===== *)
(** * The application developer's distribution

    scripts/make_dist.py and scripts/check_dist.py: the tree's files, SHA256SUMS, the license
    texts of the crates linked into its binaries, and the checks on them. The tools they run
    (git, cargo, tar, the emulator) give what is an argument here. *)
From stdpp Require Import sorting relations.
From S2P Require Import Prelude Image Header Text PyFloat Str Serial Sha256 Release.
#[local] Open Scope Z_scope.

Definition sys_exit {A} (message : text) : res A := Raise (Exit message).

(** ** make_dist.py: the files *)

Definition FILES : list (text * text) := map (fun p => (txt (fst p), txt (snd p))) [
  ("README.md", "docs/dist-README.md"); ("docs/APP_DEVELOPMENT.md", "docs/APP_DEVELOPMENT.md"); ("LICENSE", "LICENSE");
  ("bitstream/pack.fs", "build/synth/pack.fs"); ("sd/VUX9K/STAGE2.BIN", "build/firmware/stage2/STAGE2.BIN");
  ("sd/VUX9K/APPS/HELLO.BIN", "build/firmware/apps/HELLO.BIN"); ("sd/VUX9K/APPS/ZEPHYR.BIN", "build/firmware/apps/ZEPHYR.BIN");
  ("sd/VUX9K/APPS/IRQECHO.BIN", "build/firmware/apps/IRQECHO.BIN"); ("sd/VUX9K/APPS/BC.BIN", "build/firmware/apps/BC.BIN");
  ("sd/VUX9K/APPS/MPY.BIN", "build/firmware/apps/MPY.BIN"); ("sd/VUX9K/APPS/HACK.BIN", "build/firmware/apps/HACK.BIN");
  ("demos/zephyr-demo.bin", "build/zephyr-demo/zephyr/zephyr.bin"); ("demos/hack-demo.bin", "build/hack/firmware.bin");
  ("tools/vux_tool.py", "tools/vux_tool.py"); ("tools/requirements.txt", "tools/requirements.txt");
  ("tools/70-vux9k-board.rules", "tools/70-vux9k-board.rules"); ("hack/main.c", "hack_demo/src/main.c"); ("hack/uart.c", "hack_demo/src/uart.c");
  ("hack/uart.h", "hack_demo/src/uart.h"); ("emu/vux9k-emu", "build/emu/target/release/vux9k-emu");
  ("emu/vux9k_emu.abi3.so", "build/emu/python/vux9k_emu.abi3.so"); ("emu/firmware/firmware.hex", "build/firmware/firmware.hex")]%string.
Definition REPO_URL : text := txt "https://github.com/takayuki-nagata/VUX9K".
Definition BSP_ARCHIVE : text := txt "zephyr/vux9k-zephyr-bsp.tar.gz".
Definition BSP_PREFIX : text := txt "vux9k-zephyr-bsp".
Definition GUIDE : text := txt "docs/APP_DEVELOPMENT.md".
Definition LICENSES : text := txt "THIRD_PARTY_LICENSES.txt".
Definition MANIFEST : text := txt "MANIFEST.json".

(** The guide's links to the repository's README, on its characters. *)
Definition guide_text (sha guide : text) : text :=
  replace (txt "](../README.md") (txt "](" ++ REPO_URL ++ txt "/blob/" ++ sha ++ txt "/README.md") guide.
(** Text as bytes and back: one byte a character here, and what [guide_text] looks for and
    puts in is ASCII, which UTF-8 leaves as it is. *)
Definition to_bytes (t : text) : bytes := map byte.of_Z t.
Definition of_bytes (l : bytes) : text := map u8 l.

(** The archive's names: [tracked] is git's list of zephyr_workspace's files. *)
Definition bsp_names (tracked : list text) : list text :=
  map (fun name => BSP_PREFIX ++ drop (length (txt "zephyr_workspace")) name) (merge_sort text_le tracked).

(** The tree before SHA256SUMS, from the repository's files: a missing source ends it. *)
Definition copies (repo : gmap text bytes) (files : list (text * text)) : list (text * bytes) :=
  omap (fun ds => data ← repo !! snd ds; Some (fst ds, data)) files.
Definition copied (repo : gmap text bytes) : gmap text bytes := list_to_map (copies repo FILES).
Definition missing (repo : gmap text bytes) (files : list (text * text)) : list text :=
  List.filter (fun src => negb (bool_decide (is_Some (repo !! src)))) (map snd files).
Definition dist_tree (repo : gmap text bytes) (sha : text) (archive licenses manifest_json : bytes) : res (gmap text bytes) :=
  match missing repo FILES with
  | [] =>
      let tree := copied repo in
      let guide := default [] (tree !! GUIDE) in
      Ok (<[MANIFEST := manifest_json]> (<[LICENSES := licenses]> (<[BSP_ARCHIVE := archive]> (<[GUIDE := to_bytes (guide_text sha (of_bytes guide))]> tree))))
  | srcs => sys_exit (txt "make_dist: missing inputs (run `make dist`, not this script alone):" ++ [10] ++ txt "  " ++ join ([10] ++ txt "  ") srcs)
  end.

(** SHA256SUMS of the files in the order that os.walk gives them; only the one at the top is
    left out. *)
Definition SUMS : text := txt "SHA256SUMS".
Definition sum_line (nd : text * bytes) : text := hexdigest (snd nd) ++ txt "  " ++ fst nd.
Definition by_name (a b : text) : Prop := text_le (drop 66 a) (drop 66 b).
#[export] Instance by_name_dec a b : Decision (by_name a b) := _.
Definition sums_text (walk : list (text * bytes)) : text :=
  join [10] (merge_sort by_name (map sum_line (List.filter (fun nd => negb (bool_decide (fst nd = SUMS))) walk))) ++ [10].

(** ** make_dist.py: the crates *)

(** cargo metadata: a package's name, version, license and source, and whether a target of it
    is a proc-macro; a resolved node's dependencies with their kinds, None a normal one. *)
Record package := mkPackage { p_name : text; p_version : text; p_license : option text; p_source : option text; p_proc_macro : bool }.
Record dep := mkDep { d_pkg : text; d_kinds : list (option text) }.
Record metadata := mkMetadata { packages : list (text * package); nodes : gmap text (list dep) }.
Definition pkgs (meta : metadata) : gmap text package := list_to_map (rev (packages meta)).

Definition proc_macro (meta : metadata) (pid : text) : res bool :=
  match pkgs meta !! pid with Some p => Ok (p_proc_macro p) | None => Raise KeyError end.
Definition normal_deps (meta : metadata) (pid : text) : res (list text) :=
  match nodes meta !! pid with
  | Some ds => Ok (map d_pkg (List.filter (fun d => existsb (fun k => match k with None => true | Some _ => false end) (d_kinds d)) ds))
  | None => Raise KeyError
  end.
(** [linked_into]'s loop: [todo.pop()] is the list's end, which is first here. *)
Fixpoint link_loop (fuel : nat) (meta : metadata) (todo : list text) (seen : gset text) : option (res (gset text)) :=
  match fuel with
  | O => None
  | S fuel =>
      match todo with
      | [] => Some (Ok seen)
      | pid :: todo =>
          if bool_decide (pid ∈ seen) then link_loop fuel meta todo seen
          else
            match proc_macro meta pid with
            | Raise e => Some (Raise e)
            | Ok true => link_loop fuel meta todo seen
            | Ok false =>
                match normal_deps meta pid with
                | Raise e => Some (Raise e)
                | Ok ds => link_loop fuel meta (rev ds ++ todo) ({[pid]} ∪ seen)
                end
            end
      end
  end.
Definition roots (meta : metadata) (crate : text) : list text :=
  map fst (List.filter (fun ip => bool_decide (p_name (snd ip) = crate)) (packages meta)).
(** A turn for each root and each dependency of each node, and one to end. *)
Definition link_fuel (meta : metadata) (crate : text) : nat :=
  S (length (roots meta crate) + sum_list_with (fun nd => length (snd nd)) (map_to_list (nodes meta))).
Definition linked_set (meta : metadata) (crate : text) : option (res (gset text)) :=
  link_loop (link_fuel meta crate) meta (rev (roots meta crate)) ∅.
(** The crates from a registry, by name. *)
Definition crate_le (a b : package) : Prop := text_le (p_name a) (p_name b).
#[export] Instance crate_le_dec a b : Decision (crate_le a b) := _.
Definition linked_into (meta : metadata) (crate : text) : option (res (list package)) :=
  r ← linked_set meta crate;
  Some (seen ← r; Ok (merge_sort crate_le (List.filter (fun p => match p_source p with Some (_ :: _) => true | _ => false end)
    (omap (fun pid => pkgs meta !! pid) (elements seen))))).

(** ** make_dist.py: licenses *)

(** [re.split(r"\s+OR\s+|/", t)]: the separator at a place, and the pieces. *)
Definition match_or (t : text) : option text :=
  match t with
  | [] => None
  | c :: k =>
      if c =? 47 then Some k
      else if is_pyspace c then
        match snd (span is_pyspace t) with
        | 79 :: 82 :: r => match span is_pyspace r with ([], _) => None | (_, rest) => Some rest end
        | _ => None
        end
      else None
  end.
Fixpoint split_or (fuel : nat) (cur t : text) : list text :=
  match fuel with
  | O => [rev cur]
  | S fuel =>
      match match_or t with
      | Some rest => rev cur :: split_or fuel [] rest
      | None => match t with [] => [rev cur] | c :: t => split_or fuel (c :: cur) t end
      end
  end.
(** [a.strip(" ()")]. *)
Definition paren (c : Z) : bool := (c =? 32) || (c =? 40) || (c =? 41).
Definition strip_paren (t : text) : text := rev (snd (span paren (rev (snd (span paren t))))).
Definition APACHE : text := txt "Apache-2.0".
Definition offers_apache (expr : option text) : bool :=
  let e := default [] expr in existsb (fun a => bool_decide (strip_paren a = APACHE)) (split_or (S (length e)) [] e).

(** A linked crate: its id, its directory and the files in it. *)
Record crate := mkCrate { c_id : text; c_package : package; crate_dir : text; c_files : list (text * text) }.
Definition lower (t : text) : text := map (fun c => if (65 <=? c) && (c <=? 90) then c + 32 else c) t.
(** "(LICEN[CS]E|COPYING)" at a name's start, in any case. *)
Definition is_license (name : text) : bool :=
  let n := lower name in startswith (txt "license") n || startswith (txt "licence") n || startswith (txt "copying") n.
Definition name_le (a b : text * text) : Prop := text_le (fst a) (fst b).
#[export] Instance name_le_dec a b : Decision (name_le a b) := _.
Definition license_texts (c : crate) : list (text * text) := merge_sort name_le (List.filter (fun nt => is_license (fst nt)) (c_files c)).
(** [t.rstrip()], [t.lstrip()]. *)
Definition rstrip (t : text) : text := rev (lstrip (rev t)).
Definition rule : text := repeat 61 78.
Definition titled (c : package) : text := p_name c ++ txt " " ++ p_version c.
Definition section (title body : text) : list text := [[]; rule; title; rule; []; body].

(** The crates in turn: the lines, the crates without a file, and the first text of the Apache
    License with its crate. [p['license']!r] is the license's repr. *)
Section Licenses.
Variable repr : option text -> text.
Definition apache_here (c : crate) : option (text * text) :=
  match List.find (fun nt => contains (txt "apache") (lower (fst nt)) && startswith (txt "Apache License") (lstrip (rstrip (snd nt)))) (license_texts c) with
  | Some nt => Some (titled (c_package c), fst nt)
  | None => None
  end.
Fixpoint crate_texts (cs : list crate) (unshipped : list crate) (apache : option (text * text)) : res (list text * list crate * option (text * text)) :=
  match cs with
  | [] => Ok ([], unshipped, apache)
  | c :: cs =>
      let texts := license_texts c in
      unshipped ← (match texts with
                   | [] => if offers_apache (p_license (c_package c)) then Ok (unshipped ++ [c])
                           else sys_exit (txt "make_dist: no license file in " ++ crate_dir c ++ txt ", and " ++ repr (p_license (c_package c)) ++ txt " offers no Apache-2.0")
                   | _ => Ok unshipped end);
      let apache := match apache with Some a => Some a | None => apache_here c end in
      '(lines, unshipped, apache) ← crate_texts cs unshipped apache;
      Ok (concat (map (fun nt => section (titled (c_package c) ++ txt ": " ++ fst nt) (rstrip (snd nt))) texts) ++ lines, unshipped, apache)
  end.
Definition unshipped_lines (unshipped : list crate) (apache : option (text * text)) : res (list text) :=
  match unshipped, apache with
  | [], _ => Ok []
  | _, None => sys_exit (txt "make_dist: no license file in " ++ join (txt ", ") (map (fun c => titled (c_package c)) unshipped) ++ txt ", and no Apache License 2.0 text to refer to")
  | _, Some (crate, name) =>
      Ok ([[]; rule; txt "Crates without a license file"; rule; []]
        ++ map (fun c => titled (c_package c) ++ txt " ships no license file; it is offered under " ++ default (txt "None") (p_license (c_package c))
             ++ txt " (Cargo.toml) and is distributed here under Apache-2.0, whose text is above under " ++ crate ++ txt ": " ++ name ++ txt ".") unshipped)
  end.
(** [third_party_licenses]' lines: what each binary links, the texts of all the crates by name,
    the other trees' LICENSE files (MicroPython's and bc_clone_py's), and the crates without one. *)
Definition intro (micropython : text) : list text := [
  txt "Third-party software in this distribution"; [];
  txt "demos/zephyr-demo.bin and sd/VUX9K/APPS/ZEPHYR.BIN, IRQECHO.BIN, BC.BIN and MPY.BIN contain";
  txt "the Zephyr RTOS (https://zephyrproject.org), licensed under the Apache License 2.0;";
  txt "its text is the LICENSE file in zephyr/vux9k-zephyr-bsp.tar.gz. The Zephyr demo's";
  txt "Rust part, sd/VUX9K/STAGE2.BIN and sd/VUX9K/APPS/HELLO.BIN are built with Rust's";
  txt "core library (MIT OR Apache-2.0, https://github.com/rust-lang/rust). BC.BIN's Rust";
  txt "part is bc_clone_rs (MIT, the same author), built with Rust's core and alloc";
  txt "libraries and the crates listed below. MPY.BIN's Python part is";
  micropython ++ txt " (MIT, https://micropython.org; its port to";
  txt "Zephyr, built with no lib/ component), whose LICENSE file is below; its frozen modules";
  txt "are bc_clone_py (MIT, the same author; https://github.com/takayuki-nagata/bc_clone_py),";
  txt "whose LICENSE file is below too."].
(** The dict of the linked crates by id: each where it first comes. *)
Fixpoint dedup (cs : list crate) (seen : list text) : list crate :=
  match cs with
  | [] => []
  | c :: cs => if bool_decide (c_id c ∈ seen) then dedup cs seen else c :: dedup cs (c_id c :: seen)
  end.
Definition by_crate (a b : crate) : Prop := crate_le (c_package a) (c_package b).
#[export] Instance by_crate_dec a b : Decision (by_crate a b) := _.
Definition all_crates (linked : list (text * list crate)) : list crate := merge_sort by_crate (dedup (concat (map snd linked)) []).
Definition binary_lines (binary : text) (crates : list package) : list text :=
  [[]; binary ++ txt " links " ++ (match crates with [] => txt "no third-party Rust crates." | _ => txt "these Rust crates:" end)]
  ++ map (fun p => txt "  " ++ titled p ++ txt "  (" ++ default (txt "None") (p_license p) ++ txt ")") crates.
Definition third_party_licenses (linked : list (text * list crate)) (micropython : text * text) (bc_clone_py : text) : res (list text) :=
  let head := intro (fst micropython) ++ concat (map (fun bc => binary_lines (fst bc) (map c_package (snd bc))) linked) in
  '(texts, unshipped, apache) ← crate_texts (all_crates linked) [] None;
  tail ← unshipped_lines unshipped apache;
  Ok (head ++ texts ++ section (fst micropython ++ txt ": LICENSE") (rstrip (snd micropython)) ++ section (txt "bc_clone_py: LICENSE") (rstrip bc_clone_py) ++ tail).
End Licenses.

(** ** check_dist.py *)

Definition REQUIRED : list text := map txt [
  "README.md"; "LICENSE"; "THIRD_PARTY_LICENSES.txt"; "docs/APP_DEVELOPMENT.md"; "bitstream/pack.fs"; "sd/VUX9K/STAGE2.BIN"; "sd/VUX9K/APPS/HELLO.BIN";
  "sd/VUX9K/APPS/ZEPHYR.BIN"; "sd/VUX9K/APPS/IRQECHO.BIN"; "sd/VUX9K/APPS/BC.BIN"; "sd/VUX9K/APPS/MPY.BIN"; "sd/VUX9K/APPS/HACK.BIN"; "demos/zephyr-demo.bin";
  "demos/hack-demo.bin"; "tools/vux_tool.py"; "tools/requirements.txt"; "tools/70-vux9k-board.rules"; "hack/main.c"; "hack/uart.c"; "hack/uart.h"; "emu/vux9k-emu";
  "emu/vux9k_emu.abi3.so"; "emu/firmware/firmware.hex"; "zephyr/vux9k-zephyr-bsp.tar.gz"]%string.
Definition STAGE2 : text := txt "sd/VUX9K/STAGE2.BIN".
Definition CARD_FILES : list (text * (Z * Z)) := map (fun p => (txt (fst p), snd p)) [
  ("sd/VUX9K/APPS/HELLO.BIN", (1, 0x80000000)); ("sd/VUX9K/APPS/ZEPHYR.BIN", (1, 0x80000000)); ("sd/VUX9K/APPS/IRQECHO.BIN", (1, 0x80000000));
  ("sd/VUX9K/APPS/BC.BIN", (1, 0x80000000)); ("sd/VUX9K/APPS/MPY.BIN", (1, 0x80000000)); ("sd/VUX9K/APPS/HACK.BIN", (0, 0))]%string.

Definition fail {A} (msg : text) : res A := sys_exit (txt "check_dist: FAIL: " ++ msg).

(** [check_sums]: the dict of what is listed, by name; the messages here are without the files'
    names. *)
Fixpoint listed (lines : list text) (got : gmap text text) : res (gmap text text) :=
  match lines with
  | [] => Ok got
  | line :: lines => if blank line then listed lines got else '(digest, name) ← sums_line line; listed lines (<[name := digest]> got)
  end.
Definition check_sums (d : dist) : res unit :=
  l ← listed (file_lines (d_sums d)) ∅;
  let present := dom (d_files d) in
  if negb (bool_decide (dom l = present)) then fail (txt "SHA256SUMS lists files differently from the tree")
  else if negb (forallb (fun nd => bool_decide (hexdigest <$> (d_files d !! fst nd) = Some (snd nd))) (map_to_list l)) then fail (txt "sha256 mismatch")
  else if negb (forallb (fun rel => bool_decide (rel ∈ present)) (REQUIRED ++ [MANIFEST])) then fail (txt "missing")
  else Ok tt.

(** A card file's header: [struct.unpack_from("<IHHIIIIII", data)]. *)
Definition check_card (data : bytes) (mode load : Z) : res Z :=
  if len data <? 32 then Raise StructError
  else if negb (unpack_uint 4 0 data =? 0x56555839) || negb ((unpack_uint 4 8 data =? mode) && (unpack_uint 4 16 data =? load)) || negb (unpack_uint 4 12 data =? len data - 64)
  then fail (txt "not a v4 file with the mode and the load address")
  else Ok (unpack_uint 4 28 data).
Fixpoint check_cards (d : dist) (files : list (text * (Z * Z))) : res unit :=
  match files with
  | [] => Ok tt
  | (rel, (mode, load)) :: files =>
      data ← read_file d rel;
      version ← check_card data mode load;
      if endswith (txt "STAGE2.BIN") rel && negb (version =? stage2_version (d_manifest d)) then fail (txt "stage2_version")
      else check_cards d files
  end.
Definition BSP_FILES : list text := map txt ["zephyr/module.yml"; "LICENSE"; "README.md"; "boards/vux9k/vux9k/board.yml"; "app/CMakeLists.txt"]%string.
(** [check_manifest], whose keys a manifest has; [names] are the archive's. *)
Definition check_manifest (d : dist) (names : list text) : res manifest :=
  _ ← check_cards d (CARD_FILES ++ [(STAGE2, (1, 0x80700000))]);
  if forallb (fun rel => bool_decide (txt "vux9k-zephyr-bsp/" ++ rel ∈ names)) BSP_FILES then Ok (d_manifest d) else fail (txt "BSP archive lacks a file").
(** [check_guide]: its two examples are arguments. *)
Definition check_guide (guide : text) (examples : list text) : res unit :=
  if negb (forallb (fun e => contains (py_strip e) guide) examples) then fail (txt "docs/APP_DEVELOPMENT.md's Python example differs")
  else if contains (txt "](../README.md") guide then fail (txt "docs/APP_DEVELOPMENT.md still links ../README.md (make_dist rewrites those)")
  else Ok tt.

(** ** The crates linked *)

(** What cargo metadata gives: a package for every root and dependency that matters, a node
    for every package. *)
Record resolved (meta : metadata) (crate : text) : Prop := {
  resolved_roots : forall pid, pid ∈ roots meta crate -> is_Some (pkgs meta !! pid);
  resolved_nodes : forall pid p, pkgs meta !! pid = Some p -> is_Some (nodes meta !! pid);
  resolved_deps : forall pid ds q, normal_deps meta pid = Ok ds -> q ∈ ds -> is_Some (pkgs meta !! q)
}.
(** Linked in: a root, or a normal dependency of what is, and not a proc-macro. *)
Inductive linked_to (meta : metadata) (crate : text) : text -> Prop :=
| linked_root pid : pid ∈ roots meta crate -> proc_macro meta pid = Ok false -> linked_to meta crate pid
| linked_dep pid ds q : linked_to meta crate pid -> normal_deps meta pid = Ok ds -> q ∈ ds -> proc_macro meta q = Ok false -> linked_to meta crate q.

Section Linked.
Context (meta : metadata) (crate : text) (Hmeta : resolved meta crate).

Definition known (pid : text) : Prop := is_Some (pkgs meta !! pid).
Lemma known_macro pid : known pid -> exists b, proc_macro meta pid = Ok b.
Proof. intros [p H]. unfold proc_macro. rewrite H. by eexists. Qed.
Lemma known_deps pid : known pid -> exists ds all, normal_deps meta pid = Ok ds /\ nodes meta !! pid = Some all /\ (length ds <= length all)%nat /\ Forall known ds.
Proof.
  intros [p H]. destruct (resolved_nodes _ _ Hmeta pid p H) as [all Ha]. pose proof (resolved_deps _ _ Hmeta pid) as Hd. unfold normal_deps in *. rewrite Ha in *.
  eexists _, all. split; [reflexivity|]. split; [done|]. split; [rewrite length_map; apply List.filter_length_le|]. apply Forall_forall. intros q Hq. by apply (Hd _ q eq_refl).
Qed.

(** The dependencies of the nodes that have not been seen. *)
Definition left_over (seen : gset text) : nat :=
  sum_list_with (fun nd => if bool_decide (fst nd ∈ seen) then 0%nat else length (snd nd)) (map_to_list (nodes meta)).
Lemma left_over_seen pid all seen : nodes meta !! pid = Some all -> pid ∉ seen -> left_over seen = (length all + left_over ({[pid]} ∪ seen))%nat.
Proof.
  intros Ha Hs. unfold left_over. pose proof (map_to_list_delete (nodes meta) pid all Ha) as Hp.
  assert (Hsum : forall (f : text * list dep -> nat) l k, l ≡ₚ k -> sum_list_with f l = sum_list_with f k).
  { intros f l k Hl. induction Hl; cbn [sum_list_with]; lia. }
  rewrite <- !(Hsum _ _ _ Hp). cbn [sum_list_with fst snd]. rewrite (bool_decide_false (pid ∈ seen)) by done. rewrite (bool_decide_true (pid ∈ {[pid]} ∪ seen)) by set_solver.
  cbn [Nat.add]. f_equal. assert (Hd : Forall (fun nd => fst nd <> pid) (map_to_list (delete pid (nodes meta)))).
  { apply Forall_forall. intros [q ds] Hq. apply elem_of_map_to_list in Hq. cbn [fst]. intros E. rewrite E in Hq. by rewrite lookup_delete_eq in Hq. }
  clear Hp Hsum. induction Hd as [|[q ds] l Hq Hl IH]; [done|]. cbn [sum_list_with fst snd] in *. rewrite IH.
  rewrite (bool_decide_ext (q ∈ seen) (q ∈ {[pid]} ∪ seen)) by set_solver. done.
Qed.

(** What the loop keeps: what is seen is linked, and what is linked has been seen or is to be
    reached from what is to do. *)
Record link_inv (todo : list text) (seen : gset text) : Prop := {
  inv_todo : Forall (fun pid => known pid /\ (proc_macro meta pid = Ok false -> linked_to meta crate pid)) todo;
  inv_seen : forall pid, pid ∈ seen -> linked_to meta crate pid;
  inv_roots : forall pid, pid ∈ roots meta crate -> proc_macro meta pid = Ok false -> pid ∈ seen \/ pid ∈ todo;
  inv_deps : forall pid ds q, pid ∈ seen -> normal_deps meta pid = Ok ds -> q ∈ ds -> proc_macro meta q = Ok false -> q ∈ seen \/ q ∈ todo
}.
Lemma link_loop_ends fuel todo seen : link_inv todo seen -> (length todo + left_over seen < fuel)%nat ->
  exists seen', link_loop fuel meta todo seen = Some (Ok seen') /\ link_inv [] seen'.
Proof.
  revert todo seen. induction fuel as [|fuel IH]; intros todo seen Hi Hf; [lia|]. destruct todo as [|pid todo]; cbn [link_loop]; [by exists seen|].
  destruct Hi as [Ht Hs Hr Hd]. inversion_clear Ht as [|? ? [Hk Hl] Ht']. cbn [length] in Hf.
  assert (Hskip : (proc_macro meta pid = Ok false -> pid ∈ seen) -> link_inv todo seen).
  { intros Hp. split; [done|done| |].
    - intros q Hq Hm. destruct (Hr q Hq Hm) as [|Hin]; [by left|]. apply elem_of_cons in Hin as [->|Hin]; [left; by apply Hp|by right].
    - intros p ds q H1 H2 H3 Hm. destruct (Hd p ds q H1 H2 H3 Hm) as [|Hin]; [by left|]. apply elem_of_cons in Hin as [->|Hin]; [left; by apply Hp|by right]. }
  destruct (decide (pid ∈ seen)) as [Hin|Hin]; [rewrite bool_decide_true by done; apply IH; [by apply Hskip|lia]|]. rewrite bool_decide_false by done.
  destruct (known_macro pid Hk) as [b Hb]. rewrite Hb. destruct b; [apply IH; [apply Hskip; congruence|lia]|].
  destruct (known_deps pid Hk) as (ds & all & Hds & Ha & Hlen & Hkn). rewrite Hds. specialize (Hl Hb).
  apply IH; [|rewrite length_app, length_rev; rewrite (left_over_seen pid all seen) in Hf by done; lia]. split.
  - apply Forall_app. split; [|done]. apply Forall_rev, Forall_forall. intros q Hq. rewrite Forall_forall in Hkn. split; [by apply Hkn|]. intros Hm. by apply (linked_dep _ _ pid ds).
  - intros q Hq. apply elem_of_union in Hq as [Hq%elem_of_singleton|Hq]; [by subst|by apply Hs].
  - intros q Hq Hm. destruct (Hr q Hq Hm) as [|Hin']; [left; set_solver|]. apply elem_of_cons in Hin' as [->|Hin']; [left; set_solver|right; apply elem_of_app; by right].
  - intros p ds' q H1 H2 H3 Hm. apply elem_of_union in H1 as [->%elem_of_singleton|H1].
    + rewrite Hds in H2. apply Ok_inj in H2 as <-. right. apply elem_of_app. left. apply list_elem_of_In, in_rev. rewrite rev_involutive. by apply list_elem_of_In.
    + destruct (Hd p ds' q H1 H2 H3 Hm) as [|Hin']; [left; set_solver|]. apply elem_of_cons in Hin' as [->|Hin']; [left; set_solver|right; apply elem_of_app; by right].
Qed.
End Linked.

Lemma roots_fuel meta crate : (length (rev (roots meta crate)) + left_over meta ∅ < link_fuel meta crate)%nat.
Proof.
  assert (H : left_over meta ∅ = sum_list_with (fun nd => length (snd nd)) (map_to_list (nodes meta))).
  { unfold left_over. induction (map_to_list (nodes meta)) as [|nd l IH]; [done|]. cbn [sum_list_with]. rewrite IH, bool_decide_false by set_solver. done. }
  unfold link_fuel. rewrite length_rev, H. lia.
Qed.

(** ** License expressions *)

(** SPDX expressions, as Cargo.toml has them, and whether the Apache License alone will do. *)
Inductive spdx := License (id : text) | Or (a b : spdx) | And (a b : spdx) | Paren (e : spdx).
Fixpoint spdx_text (e : spdx) : text :=
  match e with
  | License id => id
  | Or a b => spdx_text a ++ txt " OR " ++ spdx_text b
  | And a b => spdx_text a ++ txt " AND " ++ spdx_text b
  | Paren e => txt "(" ++ spdx_text e ++ txt ")"
  end.
Fixpoint apache_alone (e : spdx) : bool :=
  match e with
  | License id => bool_decide (id = APACHE)
  | Or a b => apache_alone a || apache_alone b
  | And a b => apache_alone a && apache_alone b
  | Paren e => apache_alone e
  end.
(** A choice of licenses: names without spaces, slashes and parentheses. *)
Definition id_ok (id : text) : Prop := id <> [] /\ forallb (fun c => negb (is_pyspace c || paren c || (c =? 47))) id = true.
Fixpoint choice (e : spdx) : Prop :=
  match e with
  | License id => id_ok id
  | Or a b => choice a /\ choice b
  | And _ _ => False
  | Paren e => choice e
  end.
(** The pieces of its text: the names with their parentheses. *)
Fixpoint on_last (f : text -> text) (l : list text) : list text :=
  match l with [] => [] | [x] => [f x] | x :: l => x :: on_last f l end.
Definition on_first (f : text -> text) (l : list text) : list text := match l with [] => [] | x :: l => f x :: l end.
Fixpoint pieces (e : spdx) : list text :=
  match e with
  | License id => [id]
  | Or a b => pieces a ++ pieces b
  | And a b => []
  | Paren e => on_first (cons 40) (on_last (fun x => x ++ [41]) (pieces e))
  end.

Definition splits (cur t : text) : list text := split_or (S (length t)) cur t.
Lemma match_or_less t rest : match_or t = Some rest -> (length rest < length t)%nat.
Proof.
  assert (Hs : forall t, (length (snd (span is_pyspace t)) <= length t)%nat).
  { induction t0 as [|c t0 IH]; [done|]. cbn [span]. destruct (is_pyspace c); [|done]. destruct (span is_pyspace t0); cbn [snd length] in *. lia. }
  unfold match_or. destruct t as [|c k]; [done|]. destruct (c =? 47); [intros [= <-]; cbn; lia|]. destruct (is_pyspace c); [|done].
  pose proof (Hs (c :: k)) as H1. destruct (snd (span is_pyspace (c :: k))) as [|a [|b r]]; try done; destruct (decide (a = 79)) as [->|Ha].
  all: try (by (intros H; repeat (match type of H with context [match ?x with _ => _ end] => destruct x end; try done))).
  destruct (decide (b = 82)) as [->|Hb]; [|by (intros H; repeat (match type of H with context [match ?x with _ => _ end] => destruct x end; try done))].
  pose proof (Hs r) as H2. destruct (span is_pyspace r) as [[|d w] rest']; [done|]. intros [= <-]. cbn [snd length] in *. lia.
Qed.
Lemma split_or_fuel n k cur t : (length t < n)%nat -> (length t < k)%nat -> split_or n cur t = split_or k cur t.
Proof.
  revert k cur t. induction n as [|n IH]; intros [|k] cur t Hn Hk; try lia. cbn [split_or]. destruct (match_or t) as [rest|] eqn:E.
  - apply match_or_less in E. f_equal. apply IH; lia.
  - destruct t as [|c t]; [done|]. cbn [length] in *. apply IH; lia.
Qed.
Lemma splits_take cur t rest : match_or t = Some rest -> splits cur t = rev cur :: splits [] rest.
Proof. intros H. unfold splits at 1. cbn [split_or]. rewrite H. apply match_or_less in H. f_equal. apply split_or_fuel; lia. Qed.
Lemma splits_skip cur c t : match_or (c :: t) = None -> splits cur (c :: t) = splits (c :: cur) t.
Proof. intros H. unfold splits at 1. cbn [length split_or]. by rewrite H. Qed.
Lemma splits_word cur w t : forallb (fun c => negb (is_pyspace c || (c =? 47))) w = true -> splits cur (w ++ t) = splits (rev w ++ cur) t.
Proof.
  revert cur. induction w as [|c w IH]; intros cur H; [done|]. cbn [forallb] in H. apply andb_true_iff in H as [Hc H]. apply negb_true_iff, orb_false_iff in Hc as [Hs Hc].
  cbn [app]. rewrite splits_skip by (unfold match_or; by rewrite Hc, Hs). rewrite IH by done. cbn [rev]. by rewrite <- app_assoc.
Qed.

(** Pieces read one after another: the first goes on with [cur], the last is gone on with. *)
Fixpoint feed (cur : text) (ps : list text) (k : text -> list text) : list text :=
  match ps with
  | [] => k cur
  | [p] => k (rev p ++ cur)
  | p :: ps => (rev cur ++ p) :: feed [] ps k
  end.
Lemma feed_app cur a b k : a <> [] -> b <> [] -> feed cur (a ++ b) k = feed cur a (fun c => rev c :: feed [] b k).
Proof.
  intros Ha Hb. revert cur. induction a as [|p a IH]; intros cur; [done|]. destruct a as [|q a].
  - destruct b; [done|]. cbn [app feed]. by rewrite rev_app_distr, rev_involutive.
  - cbn [app] in *. change (feed cur (p :: q :: a ++ b) k) with ((rev cur ++ p) :: feed [] (q :: a ++ b) k). by rewrite IH.
Qed.
Lemma feed_last f w cur ps k : (forall x, f x = x ++ w) -> ps <> [] -> feed cur (on_last f ps) k = feed cur ps (fun c => k (rev w ++ c)).
Proof.
  intros Hf. revert cur. induction ps as [|p ps IH]; intros cur Hp; [done|]. destruct ps as [|q ps].
  - cbn [on_last feed]. by rewrite Hf, rev_app_distr, <- app_assoc.
  - change (on_last f (p :: q :: ps)) with (p :: on_last f (q :: ps)).
    assert (E : feed cur (p :: on_last f (q :: ps)) k = (rev cur ++ p) :: feed [] (on_last f (q :: ps)) k) by (by destruct ps). by rewrite E, IH.
Qed.
Lemma feed_first c cur ps k : ps <> [] -> feed cur (on_first (cons c) ps) k = feed (c :: cur) ps k.
Proof. destruct ps as [|p [|q ps]]; [done| |]; intros _; cbn [on_first feed rev]; by rewrite <- app_assoc. Qed.
Lemma feed_done ps : ps <> [] -> feed [] ps (fun c => [rev c]) = ps.
Proof.
  induction ps as [|p ps IH]; intros H; [done|]. destruct ps as [|q ps]; [cbn; by rewrite app_nil_r, rev_involutive|].
  change (feed [] (p :: q :: ps) (fun c => [rev c])) with (p :: feed [] (q :: ps) (fun c => [rev c])). by rewrite IH.
Qed.

Lemma pieces_some e : choice e -> pieces e <> [].
Proof.
  induction e as [id|a IHa b IHb|a _ b _|e IH]; cbn [choice pieces]; [done|intros [Ha Hb] [E _]%app_eq_nil; by apply IHa|done|].
  intros H. specialize (IH H). by destruct (pieces e) as [|p [|q l]].
Qed.
Lemma id_word id : id_ok id -> forallb (fun c => negb (is_pyspace c || (c =? 47))) id = true.
Proof. intros [_ H]. rewrite forallb_forall in *. intros c Hc. specialize (H c Hc). rewrite !negb_true_iff, !orb_false_iff in *. tauto. Qed.
Lemma text_begins e t : choice e -> exists c k, spdx_text e ++ t = c :: k /\ is_pyspace c = false.
Proof.
  revert t. induction e as [id|a IHa b IHb|a _ b _|e IH]; cbn [choice spdx_text]; intros t H; [|destruct H; rewrite <- app_assoc; by apply IHa|done|by exists 40, ((spdx_text e ++ txt ")") ++ t)].
  destruct H as [Hn H]. destruct id as [|c id]; [done|]. exists c, (id ++ t). split; [done|]. cbn [forallb] in H. apply andb_true_iff in H as [H _]. rewrite negb_true_iff, !orb_false_iff in H. tauto.
Qed.
Lemma splits_or cur t : (exists c k, t = c :: k /\ is_pyspace c = false) -> splits cur (txt " OR " ++ t) = rev cur :: splits [] t.
Proof.
  intros (c & k & -> & Hc). apply splits_take. change (txt " OR " ++ c :: k) with (32 :: 79 :: 82 :: 32 :: c :: k). cbn [match_or]. cbn [Z.eqb]. unfold span at 1. cbn [is_pyspace].
  change (is_pyspace 32) with true. change (is_pyspace 79) with false. cbn [snd span]. change (is_pyspace 32) with true. cbn iota. by rewrite Hc.
Qed.
Lemma splits_choice e cur t : choice e -> splits cur (spdx_text e ++ t) = feed cur (pieces e) (fun c => splits c t).
Proof.
  revert cur t. induction e as [id|a IHa b IHb|a _ b _|e IH]; cbn [choice spdx_text pieces]; intros cur t H; [|destruct H as [Ha Hb]|done|].
  - cbn [feed]. by rewrite splits_word by (by apply id_word).
  - rewrite <- !app_assoc, IHa by done. rewrite feed_app by (by apply pieces_some). assert (Hk : forall c, splits c (txt " OR " ++ spdx_text b ++ t) = rev c :: feed [] (pieces b) (fun c => splits c t)).
    { intros c. rewrite splits_or by (by apply text_begins). by rewrite IHb. }
    clear -Hk. revert cur. induction (pieces a) as [|p ps IH]; intros cur; [apply Hk|]. destruct ps; [apply Hk|]. cbn [feed] in *. by rewrite IH.
  - rewrite feed_first by (pose proof (pieces_some e H); by destruct (pieces e) as [|p [|q l]]). rewrite (feed_last _ [41]) by (done || by apply pieces_some).
    rewrite <- !app_assoc. rewrite (splits_word cur (txt "(")) by reflexivity. rewrite IH by done. change (rev (txt "(") ++ cur) with (40 :: cur).
    assert (Hk : forall c, splits c (txt ")" ++ t) = splits (rev [41] ++ c) t) by (intros c; by apply splits_word).
    clear -Hk. generalize (40 :: cur). induction (pieces e) as [|p ps IH]; intros cur'; [apply Hk|]. destruct ps; [apply Hk|]. cbn [feed] in *. by rewrite IH.
Qed.
Lemma split_choice e : choice e -> splits [] (spdx_text e) = pieces e.
Proof. intros H. rewrite <- (app_nil_r (spdx_text e)), splits_choice by done. by apply feed_done, pieces_some. Qed.

Lemma span_snd_app x w : snd (span paren (x ++ w)) = match snd (span paren x) with [] => snd (span paren w) | r => r ++ w end.
Proof.
  induction x as [|c x IH]; [by destruct (snd (span paren [])) eqn:E|]. cbn [app span]. destruct (paren c); [|done].
  destruct (span paren (x ++ w)), (span paren x). cbn [snd] in *. done.
Qed.
Lemma strip_paren_open x : strip_paren (40 :: x) = strip_paren x.
Proof. unfold strip_paren. cbn [span]. change (paren 40) with true. cbn iota. by destruct (span paren x). Qed.
Lemma strip_paren_close x : strip_paren (x ++ [41]) = strip_paren x.
Proof.
  unfold strip_paren. rewrite span_snd_app. destruct (snd (span paren x)) as [|c r]; [done|]. rewrite rev_app_distr. cbn [rev app span]. change (paren 41) with true. cbn iota.
  by destruct (span paren (rev r ++ [c])).
Qed.
Lemma strip_paren_id id : id_ok id -> strip_paren id = id.
Proof.
  intros [Hn H]. assert (Hs : forall l, forallb (fun c => negb (is_pyspace c || paren c || (c =? 47))) l = true -> snd (span paren l) = l).
  { intros [|c l]; [done|]. cbn [forallb span]. intros [Hc _]%andb_true_iff. rewrite negb_true_iff, !orb_false_iff in Hc. destruct Hc as [[_ ->] _]. done. }
  unfold strip_paren. rewrite (Hs id H). rewrite Hs by (rewrite forallb_forall in *; intros c Hc; apply H; by rewrite in_rev). apply rev_involutive.
Qed.
Lemma pieces_alone e : choice e -> existsb (fun a => bool_decide (strip_paren a = APACHE)) (pieces e) = apache_alone e.
Proof.
  induction e as [id|a IHa b IHb|a _ b _|e IH]; cbn [choice pieces apache_alone]; intros H; [|destruct H|done|].
  - cbn [existsb]. by rewrite orb_false_r, strip_paren_id.
  - by rewrite existsb_app, IHa, IHb.
  - rewrite <- IH by done. set (p := fun a => _).
    assert (Hf : forall l, existsb p (on_first (cons 40) l) = existsb p l) by (intros [|x l]; [done|]; cbn [on_first existsb]; unfold p; by rewrite strip_paren_open).
    assert (Hl : forall l, existsb p (on_last (fun x => x ++ [41]) l) = existsb p l).
    { induction l as [|x l IHl]; [done|]. destruct l as [|y l]; [cbn [on_last existsb]; unfold p; by rewrite strip_paren_close|].
      change (on_last (fun x => x ++ [41]) (x :: y :: l)) with (x :: on_last (fun x => x ++ [41]) (y :: l)). cbn [existsb] in *. by rewrite IHl. }
    by rewrite Hf, Hl.
Qed.

(** ** SHA256SUMS *)

Definition name_ok (n : text) : bool := forallb (fun c => negb (c =? 10)) n.
Lemma file_lines_line l t : forallb (fun c => negb (c =? 10)) l = true -> file_lines (l ++ 10 :: t) = l :: file_lines t.
Proof.
  induction l as [|c l IH]; [done|]. cbn [forallb app file_lines]. intros [Hc H]%andb_true_iff. apply negb_true_iff in Hc. by rewrite Hc, IH.
Qed.
Lemma file_lines_unlines ls : forallb (forallb (fun c => negb (c =? 10))) ls = true -> file_lines (unlines ls) = ls.
Proof.
  induction ls as [|l ls IH]; [done|]. cbn [forallb]. intros [Hl H]%andb_true_iff. unfold unlines. cbn [map concat]. rewrite <- app_assoc. cbn [app]. rewrite file_lines_line by done. f_equal. by apply IH.
Qed.
Lemma hex_not_space l : 32 ∉ hexdigest l.
Proof. intros H. pose proof (hexdigest_hex l) as Hh. rewrite forallb_forall in Hh. apply list_elem_of_In, Hh in H. done. Qed.
Lemma sum_line_parts nd : sums_line (sum_line nd) = Ok (hexdigest (snd nd), fst nd) /\ blank (sum_line nd) = false.
Proof.
  unfold sums_line, sum_line. change (txt "  ") with (32 :: [32]). split; [by rewrite partition_at by apply hex_not_space|]. destruct (hexdigest_plain (snd nd)) as [Hn Hp].
  destruct (hexdigest (snd nd)) as [|c h]; [done|]. apply nonblank_start, plain_nonspace. cbn [forallb] in Hp. by apply andb_true_iff in Hp as [].
Qed.
Lemma sum_line_ok nd : name_ok (fst nd) = true -> forallb (fun c => negb (c =? 10)) (sum_line nd) = true.
Proof.
  intros H. unfold sum_line. pose proof (hexdigest_hex (snd nd)) as Hh. revert Hh. generalize (hexdigest (snd nd)). intros h Hh.
  rewrite !forallb_app. unfold name_ok in H. rewrite H, andb_true_r.
  rewrite !forallb_forall in *. intros c Hc. specialize (Hh c Hc). unfold is_hex in Hh. rewrite orb_true_iff, !andb_true_iff, !Z.leb_le in Hh.
  apply negb_true_iff, Z.eqb_neq. lia.
Qed.
Lemma sum_line_name nd : drop 66 (sum_line nd) = fst nd.
Proof.
  unfold sum_line. rewrite app_assoc. replace 66%nat with (length (hexdigest (snd nd) ++ txt "  ")); [apply drop_app_length|].
  rewrite length_app, hexdigest_length. done.
Qed.
#[export] Instance by_name_total : Total by_name.
Proof. intros a b. apply (total text_le). Qed.
#[export] Instance by_name_trans : Transitive by_name.
Proof. intros a b c. apply (transitivity (R := text_le)). Qed.
Lemma text_le_antisym a b : text_le a b -> text_le b a -> a = b.
Proof.
  revert b. induction a as [|c a IH]; intros [|d b]; cbn [text_le]; try done. intros [H1|[-> H1]] [H2|[E H2]]; try lia. f_equal. by apply IH.
Qed.

(** The sums don't depend on the order of the walk. *)
Lemma sums_order walk walk' : walk ≡ₚ walk' -> NoDup (map fst walk) -> sums_text walk = sums_text walk'.
Proof.
  intros Hp Hd. unfold sums_text. set (keep := fun nd : text * bytes => negb (bool_decide (fst nd = SUMS))). f_equal. f_equal.
  assert (Hk : List.filter keep walk ≡ₚ List.filter keep walk').
  { clear Hd. induction Hp as [|x l l' Hp IH|x y l|]; cbn [List.filter]; [done| | |by etrans]; [destruct (keep x); [by constructor|done]|]. destruct (keep x), (keep y); done || apply perm_swap. }
  apply (StronglySorted_unique_strong by_name).
  - intros l1 l2 H1 H2 H12 H21. rewrite merge_sort_Permutation in H1. rewrite merge_sort_Permutation in H2. apply list_elem_of_fmap in H1 as (x & -> & H1). apply list_elem_of_fmap in H2 as (y & -> & H2).
    assert (Hx : x ∈ walk) by (apply list_elem_of_In, filter_In in H1 as [H1 _]; by apply list_elem_of_In).
    assert (Hy : y ∈ walk) by (rewrite Hp; apply list_elem_of_In, filter_In in H2 as [H2 _]; by apply list_elem_of_In).
    unfold by_name in *. rewrite !sum_line_name in *. assert (E : fst x = fst y) by (by apply text_le_antisym). f_equal.
    destruct x as [n dx], y as [n' dy]. cbn in E. subst n'. f_equal. pose proof (elem_of_list_to_map_1 (M := gmap text) walk n dx Hd Hx) as E1. rewrite (elem_of_list_to_map_1 (M := gmap text) walk n dy Hd Hy) in E1. congruence.
  - apply Sorted_StronglySorted; [apply _|]. apply Sorted_merge_sort, _.
  - apply Sorted_StronglySorted; [apply _|]. apply Sorted_merge_sort, _.
  - rewrite !merge_sort_Permutation. by apply fmap_Permutation.
Qed.

(** A tree whose SHA256SUMS lists its files. *)
Lemma filter_all {A} (f : A -> bool) l : Forall (fun x => f x = true) l -> List.filter f l = l.
Proof. induction 1 as [|x l H Hl IH]; [done|]. cbn [List.filter]. by rewrite H, IH. Qed.
Lemma listed_sums l got : NoDup (map fst l) ->
  exists m, listed (map sum_line l) got = Ok m /\ (forall n data, (n, data) ∈ l -> m !! n = Some (hexdigest data)) /\ (forall n, n ∉ map fst l -> m !! n = got !! n).
Proof.
  revert got. induction l as [|[n data] l IH]; intros got Hd; [exists got; split; [done|split; [intros ? ? H; by apply not_elem_of_nil in H|done]]|]. cbn [map fst listed] in *. inversion_clear Hd as [|? ? Hn Hd'].
  destruct (sum_line_parts (n, data)) as [Hs Hb]. rewrite Hb, Hs. cbn [fst snd]. change (Ok (hexdigest data, n) ≫= ?f) with (f (hexdigest data, n)). cbv beta iota.
  destruct (IH (<[n := hexdigest data]> got) Hd') as (m & Hm & H1 & H2). exists m. split; [done|]. split.
  - intros n' data' [[= -> ->]|Hin]%elem_of_cons; [|by apply H1]. rewrite H2 by done. by rewrite lookup_insert_eq.
  - intros n' Hn'. apply not_elem_of_cons in Hn' as [H Hn']. rewrite H2 by done. by rewrite lookup_insert_ne.
Qed.
Lemma release_sums d l : Forall (fun nd => d_files d !! fst nd = Some (snd nd)) l -> check_sums_lines d (map sum_line l) = Ok tt.
Proof.
  induction 1 as [|[n data] l H Hl IH]; [done|]. cbn [map check_sums_lines fst snd] in *. destruct (sum_line_parts (n, data)) as [Hs Hb]. rewrite Hb, Hs. cbn [fst snd].
  change (Ok (hexdigest data, n) ≫= ?f) with (f (hexdigest data, n)). cbv beta iota. unfold read_file. rewrite H. change (Ok data ≫= ?f) with (f data). cbv beta. by rewrite bool_decide_true.
Qed.
Lemma sums_accepted m walk tree : walk ≡ₚ map_to_list tree -> tree !! SUMS = None -> (forall n, is_Some (tree !! n) -> name_ok n = true) -> tree <> ∅ ->
  (forall rel, rel ∈ REQUIRED ++ [MANIFEST] -> is_Some (tree !! rel)) ->
  let d := mkDist m (sums_text walk) tree in check_sums d = Ok tt /\ Release.check_sums d = Ok tt.
Proof.
  intros Hw Hs Hn Hne Hr d. assert (Hin : forall n data, (n, data) ∈ walk <-> tree !! n = Some data) by (intros n data; rewrite Hw; apply elem_of_map_to_list).
  assert (Hkeep : List.filter (fun nd => negb (bool_decide (fst nd = SUMS))) walk = walk).
  { apply filter_all, Forall_forall. intros [n data] H%Hin. apply negb_true_iff, bool_decide_eq_false. cbn [fst]. intros ->. congruence. }
  set (l := merge_sort by_name (map sum_line walk)) in *. assert (Hl : l ≡ₚ map sum_line walk) by apply merge_sort_Permutation.
  destruct (Permutation_map_inv sum_line walk Hl) as (walk' & Hl' & Hw'). assert (Hlines : file_lines (sums_text walk) = map sum_line walk').
  { unfold sums_text. rewrite Hkeep. fold l. rewrite join_unlines.
    2: { intros E. rewrite E in Hl. apply Permutation_nil_l in Hl. destruct walk as [|nd w]; [|done]. apply Permutation_nil_l in Hw. apply Hne, map_to_list_empty_iff. by rewrite Hw. }
    rewrite Hl'. apply file_lines_unlines. apply forallb_forall. intros x Hx. apply in_map_iff in Hx as (nd & <- & Hx). apply sum_line_ok, Hn. destruct nd as [n data]. exists data. apply Hin. rewrite Hw'. by apply list_elem_of_In. }
  assert (Hd : NoDup (map fst walk')). { rewrite <- Hw', Hw. apply NoDup_fst_map_to_list. }
  assert (Hin' : forall n data, (n, data) ∈ walk' <-> tree !! n = Some data) by (intros n data; rewrite <- Hw'; apply Hin).
  split.
  - unfold check_sums. cbn [d_sums d]. rewrite Hlines. destruct (listed_sums walk' ∅ Hd) as (mm & -> & H1 & H2). change (Ok mm ≫= ?f) with (f mm). cbv beta iota zeta.
    assert (Em : forall n, mm !! n = hexdigest <$> tree !! n).
    { intros n. destruct (tree !! n) as [data|] eqn:E; [by apply H1, Hin'|]. rewrite H2; [done|]. intros H. apply list_elem_of_fmap in H as ([n' data] & -> & H). apply Hin' in H. cbn in E. congruence. }
    rewrite bool_decide_true. 2: { cbn [d_files d]. apply set_eq. intros n. rewrite !elem_of_dom, Em. by rewrite fmap_is_Some. }
    cbn [negb]. rewrite (proj2 (forallb_forall _ _)). 2: { intros [n h] Hx. apply list_elem_of_In, elem_of_map_to_list in Hx. apply bool_decide_eq_true. cbn [fst snd d_files d]. by rewrite <- Em. }
    cbn [negb]. rewrite (proj2 (forallb_forall _ _)); [done|]. intros rel Hx. apply bool_decide_eq_true. cbn [d_files d]. apply elem_of_dom, Hr. by apply list_elem_of_In.
  - unfold Release.check_sums. cbn [d_sums d]. rewrite Hlines. apply release_sums, Forall_forall. intros [n data] H. by apply Hin'.
Qed.

(** ** The tree that make_dist makes *)

Definition NAMES : list text := map fst FILES ++ [BSP_ARCHIVE; LICENSES; MANIFEST].
Definition CARDS : list (text * (Z * Z)) := CARD_FILES ++ [(STAGE2, (1, 0x80700000))].
Lemma names_facts : NoDup (map fst FILES) /\ forallb name_ok NAMES = true /\ (SUMS ∉ NAMES) /\ Forall (fun rel => rel ∈ NAMES) (REQUIRED ++ [MANIFEST]) /\
  Forall (fun card => fst card ∈ map fst FILES /\ fst card ∉ [GUIDE; BSP_ARCHIVE; LICENSES; MANIFEST]) CARDS.
Proof. split; [|split; [vm_compute; reflexivity|split; [|split]]]; eapply bool_decide_eq_true_1; vm_compute; reflexivity. Qed.

#[local] Opaque FILES.
Section Made.
Context (repo : gmap text bytes) (sha : text) (archive licenses manifest_json : bytes) (tree : gmap text bytes).
Hypothesis Hmade : dist_tree repo sha archive licenses manifest_json = Ok tree.

Lemma none_missing files : missing repo files = [] -> Forall (fun ds => is_Some (repo !! snd ds)) files.
Proof.
  unfold missing. induction files as [|[d s] files IH]; [constructor|]. cbn [map snd List.filter].
  destruct (decide (is_Some (repo !! s))) as [H|H]; [rewrite bool_decide_true by done|by rewrite bool_decide_false]. intros E. constructor; [done|by apply IH].
Qed.
Lemma made_present : Forall (fun ds => is_Some (repo !! snd ds)) FILES.
Proof. apply none_missing. unfold dist_tree, sys_exit in Hmade. destruct (missing repo FILES); [reflexivity|discriminate Hmade]. Qed.
Lemma keys_present files : Forall (fun ds => is_Some (repo !! snd ds)) files -> map fst (copies repo files) = map fst files.
Proof.
  induction 1 as [|[d s] l [data E] Hl IH]; [done|]. cbn [snd] in E. unfold copies in *. cbn [omap list_omap fst snd]. rewrite E. cbn [mbind option_bind map fst]. by rewrite <- IH.
Qed.
Lemma copied_keys : map fst (copies repo FILES) = map fst FILES.
Proof. apply keys_present, made_present. Qed.
Lemma copied_lookup d s : (d, s) ∈ FILES -> copied repo !! d = repo !! s.
Proof.
  intros Hin. pose proof made_present as H. rewrite Forall_forall in H. destruct (H _ Hin) as [data E]. cbn [snd] in E. rewrite E. unfold copied. apply elem_of_list_to_map_1.
  - change (NoDup (map fst (copies repo FILES))). rewrite copied_keys. apply names_facts.
  - unfold copies. apply list_elem_of_omap. exists (d, s). split; [done|]. cbn [fst snd]. by rewrite E.
Qed.
Lemma copied_names d : is_Some (copied repo !! d) <-> d ∈ map fst FILES.
Proof.
  rewrite <- copied_keys. unfold copied. set (l := copies repo FILES). destruct (decide (d ∈ map fst l)) as [Hin|Hin].
  - split; [done|]. intros _. apply not_eq_None_Some. intros E. by apply not_elem_of_list_to_map in E.
  - split; [|done]. intros [x E]. exfalso. by rewrite (not_elem_of_list_to_map_1 _ _ Hin) in E.
Qed.
Lemma made_tree : tree = <[MANIFEST := manifest_json]> (<[LICENSES := licenses]> (<[BSP_ARCHIVE := archive]>
  (<[GUIDE := to_bytes (guide_text sha (of_bytes (default [] (copied repo !! GUIDE))))]> (copied repo)))).
Proof. unfold dist_tree, sys_exit in Hmade. destruct (missing repo FILES); [|discriminate Hmade]. apply Ok_inj in Hmade. symmetry. exact Hmade. Qed.
Lemma made_names rel : is_Some (tree !! rel) <-> rel ∈ NAMES.
Proof.
  rewrite made_tree. unfold NAMES. rewrite elem_of_app, !elem_of_cons, <- copied_names. rewrite !lookup_insert_is_Some'.
  assert (Hg : is_Some (copied repo !! GUIDE)) by (apply copied_names; eapply bool_decide_eq_true_1; vm_compute; reflexivity).
  split.
  - intros [H|[H|[H|[H|H]]]]; rewrite <- ?H; auto 6.
  - intros [H|[H|[H|[H|H]]]]; rewrite ?H; auto 6. by apply not_elem_of_nil in H.
Qed.
Lemma made_card rel src : (rel, src) ∈ FILES -> rel ∉ [GUIDE; BSP_ARCHIVE; LICENSES; MANIFEST] -> tree !! rel = repo !! src.
Proof.
  intros Hin Hn. rewrite <- (copied_lookup _ _ Hin), made_tree. rewrite !not_elem_of_cons in Hn. destruct Hn as (H1 & H2 & H3 & H4 & _). by rewrite !lookup_insert_ne.
Qed.

(** The guide no longer links the repository's README. *)
Lemma u8_of_byte n : 0 <= n < 256 -> u8 (byte.of_Z n) = n.
Proof. apply u8_of_Z. Qed.
Lemma made_guide : forallb (fun c => (0 <=? c) && (c <? 256) && negb (c =? 93)) sha = true ->
  contains (txt "](../README.md") (of_bytes (default [] (tree !! GUIDE))) = false.
Proof.
  intros Hsha. rewrite forallb_forall in Hsha. assert (Hg : tree !! GUIDE = Some (to_bytes (guide_text sha (of_bytes (default [] (copied repo !! GUIDE)))))).
  { rewrite made_tree. rewrite !lookup_insert_ne by (eapply bool_decide_eq_false_1; vm_compute; reflexivity). apply lookup_insert_eq. }
  rewrite Hg. cbn [from_option id]. set (g := of_bytes (default [] (copied repo !! GUIDE))). unfold guide_text.
  set (new := txt "(" ++ REPO_URL ++ txt "/blob/" ++ sha ++ txt "/README.md").
  change (txt "](" ++ REPO_URL ++ txt "/blob/" ++ sha ++ txt "/README.md") with (93 :: new). change (txt "](../README.md") with (93 :: txt "(../README.md").
  assert (Hnew : forall x, x ∈ new -> 0 <= x < 256 /\ x <> 93).
  { intros x Hx. unfold new in Hx. rewrite !elem_of_app in Hx.
    assert (Hc : forall l, forallb (fun c => (0 <=? c) && (c <? 256) && negb (c =? 93)) l = true -> x ∈ l -> 0 <= x < 256 /\ x <> 93).
    { intros l Hl Hin. rewrite forallb_forall in Hl. apply list_elem_of_In, Hl in Hin. rewrite !andb_true_iff, negb_true_iff, Z.leb_le, Z.ltb_lt, Z.eqb_neq in Hin. lia. }
    destruct Hx as [Hx|[Hx|[Hx|[Hx|Hx]]]]; (eapply Hc; [|exact Hx]); first [vm_compute; reflexivity|by apply forallb_forall]. }
  assert (Hid : of_bytes (to_bytes (replace (93 :: txt "(../README.md") (93 :: new) g)) = replace (93 :: txt "(../README.md") (93 :: new) g).
  { unfold of_bytes at 1, to_bytes. rewrite map_map. rewrite <- (map_id (replace _ _ g)) at 2. apply map_ext_in. intros x Hx. apply u8_of_byte. apply list_elem_of_In, in_replace_loop in Hx as [Hx|Hx].
    - unfold g, of_bytes in Hx. apply list_elem_of_fmap in Hx as (b & -> & _). unfold u8. pose proof (byte.unsigned_range b). lia.
    - apply elem_of_cons in Hx as [->|Hx]; [lia|by apply Hnew]. }
  rewrite Hid. apply replace_loop_none; [eapply bool_decide_eq_true_1; vm_compute; reflexivity| |done|done].
  intros Hin. by apply Hnew in Hin as [].
Qed.
End Made.

(** ** The cards' files *)

Lemma parsed_card data h mode load : Header.parse data = Some h ->
  check_card data mode load = (if (Header.mode h =? mode) && (load_addr h =? load) && (size h =? len data - 64) then Ok (version h) else fail (txt "not a v4 file with the mode and the load address")).
Proof.
  unfold Header.parse, check_card, HEADER_LEN. destruct (Z.ltb_spec (len data) 64) as [|Hl]; [done|]. cbv zeta. rewrite (proj2 (Z.ltb_ge (len data) 32)) by lia.
  unfold VUX_MAGIC. destruct (unpack_uint 4 0 data =? 0x56555839); [|done]. destruct (unpack_uint 2 4 data =? HEADER_VERSION_V4); [|done]. destruct (unpack_uint 2 6 data =? 0); [|done].
  cbn [negb orb]. intros H. apply (inj Some) in H. subst h. cbn [Header.mode load_addr size version].
  destruct (unpack_uint 4 8 data =? mode), (unpack_uint 4 16 data =? load), (unpack_uint 4 12 data =? len data - 64); reflexivity.
Qed.
(** A file of vux_tool's builder for a mode and a load address. *)
Definition built_card (file : bytes) (mode load ver : Z) : Prop :=
  exists src nm is_hack loadopt entry h, build_vux9_v4_image src nm is_hack ver loadopt entry None None = Ok (file, h) /\ Header.mode h = mode /\ load_addr h = load.
Lemma built_card_checked file mode load ver : built_card file mode load ver -> check_card file mode load = Ok ver.
Proof.
  intros (src & nm & is_hack & loadopt & entry & h & Hb & <- & <-). destruct (build_inv _ _ _ _ _ _ _ _ Hb) as (hd & payload & -> & Hl & Hs & _ & _ & Hv & Hp & _).
  rewrite (parsed_card _ (stored_header h)) by (rewrite <- Header.fw_parse_same; apply Hp). unfold stored_header. cbn [Header.mode load_addr size version].
  rewrite !Z.eqb_refl, len_app, Hl, Hs. replace (64 + len payload - 64) with (len payload) by lia. rewrite Z.eqb_refl. cbn [andb]. by rewrite Hv.
Qed.
Lemma check_cards_ok d files : Forall (fun card => exists data ver, d_files d !! fst card = Some data /\ check_card data (fst (snd card)) (snd (snd card)) = Ok ver /\
    (endswith (txt "STAGE2.BIN") (fst card) = true -> ver = stage2_version (d_manifest d))) files -> check_cards d files = Ok tt.
Proof.
  induction 1 as [|[rel [mode load]] files (data & ver & Hd & Hc & Hv) Hf IH]; [done|]. cbn [check_cards fst snd] in *. unfold read_file. rewrite Hd.
  change (Ok data ≫= ?f) with (f data). cbv beta. rewrite Hc. change (Ok ver ≫= ?f) with (f ver). cbv beta.
  destruct (endswith _ rel); [|done]. rewrite (Hv eq_refl), Z.eqb_refl. done.
Qed.

(** The archive holds what git tracks. *)
Lemma bsp_held tracked rel : txt "zephyr_workspace/" ++ rel ∈ tracked -> txt "vux9k-zephyr-bsp/" ++ rel ∈ bsp_names tracked.
Proof.
  intros H. unfold bsp_names. apply list_elem_of_fmap. exists (txt "zephyr_workspace/" ++ rel). split; [done|]. by rewrite merge_sort_Permutation.
Qed.

(** ** Properties *)


(** C37: [linked_into]'s search always ends, with the crates that are reached through normal
    dependencies and aren't proc-macros: no other, none missing, in whatever shape the
    dependencies are. *)
Theorem linked_reached meta crate : resolved meta crate ->
  exists seen, linked_set meta crate = Some (Ok seen) /\ forall pid, pid ∈ seen <-> linked_to meta crate pid.
Proof.
  intros Hm. destruct (link_loop_ends meta crate Hm (link_fuel meta crate) (rev (roots meta crate)) ∅) as (seen & Hl & [_ Hs Hr Hd]); [|by apply roots_fuel|].
  - split; [|set_solver| |set_solver].
    + apply Forall_rev, Forall_forall. intros pid Hp. split; [by apply (resolved_roots _ _ Hm)|]. intros Hb. by apply linked_root.
    + intros pid Hp _. right. apply list_elem_of_In, in_rev. rewrite rev_involutive. by apply list_elem_of_In.
  - exists seen. split; [done|]. intros pid. split; [apply Hs|].
    induction 1 as [pid Hp Hb|pid ds q Hp IH Hn Hq Hb]; [destruct (Hr pid Hp Hb) as [|Hin]; [done|by apply not_elem_of_nil in Hin]|].
    destruct (Hd pid ds q IH Hn Hq Hb) as [|Hin]; [done|by apply not_elem_of_nil in Hin].
Qed.

(** [offers_apache] tells of a choice of licenses, however parenthesised, whether the Apache
    License alone will do. With an AND it may not: it accepts a crate that also asks for
    another license. *)
Theorem offers_apache_choice e : choice e ->
  offers_apache (Some (spdx_text e)) = apache_alone e /\
  (let both := And (Paren (Or (License APACHE) (License (txt "MIT")))) (License (txt "BSD-3-Clause")) in
   offers_apache (Some (spdx_text both)) = true /\ apache_alone both = false).
Proof.
  intros H. split; [|vm_compute; done]. unfold offers_apache. cbn [from_option id]. change (split_or (S (length (spdx_text e))) [] (spdx_text e)) with (splits [] (spdx_text e)).
  rewrite split_choice by done. by apply pieces_alone.
Qed.

(** A repository whose files are short, its cards' files built by the tool. *)
Definition demo_image (mode load : Z) : res (bytes * ImageHeader) :=
  build_vux9_v4_image (bstr "code", None) (bstr "demo") (mode =? 0) 12 (Some load) None None None.
Definition demo_file (rel : text) : bytes :=
  match List.find (fun card => bool_decide (fst card = rel)) CARDS with
  | Some (_, (mode, load)) => match demo_image mode load with Ok (f, _) => f | Raise _ => [] end
  | None => bstr "see ](../README.md)."
  end.
Definition demo_repo : gmap text bytes := list_to_map (map (fun ds => (snd ds, demo_file (fst ds))) FILES).
Definition demo_sha : text := txt "0123456789abcdef".
Definition demo_tree : gmap text bytes := match dist_tree demo_repo demo_sha [] [] [] with Ok t => t | Raise _ => ∅ end.

(** Crates: one linked through another, a proc-macro and a build-time one that aren't. *)
Definition demo_meta : metadata :=
  let p name src pm := (txt name, mkPackage (txt name) (txt "1.0.0") (Some (txt "MIT")) src pm) in
  let d name k := mkDep (txt name) [k] in
  mkMetadata [p "emu"%string None false; p "nb"%string (Some (txt "registry")) false; p "libc"%string (Some (txt "registry")) false; p "derive"%string (Some (txt "registry")) true; p "cc"%string (Some (txt "registry")) false]
    (list_to_map [(txt "emu", [d "nb"%string None; d "derive"%string None; d "cc"%string (Some (txt "build"))]); (txt "nb", [d "libc"%string None; d "emu"%string None]); (txt "libc", []); (txt "derive", [d "cc"%string None]); (txt "cc", [])]).
Definition resolvedb (meta : metadata) (crate : text) : bool :=
  let has pid := bool_decide (is_Some (pkgs meta !! pid)) in
  forallb has (roots meta crate) && forallb (fun ip => bool_decide (is_Some (nodes meta !! fst ip))) (map_to_list (pkgs meta))
  && forallb (fun nd => forallb (fun d => has (d_pkg d)) (snd nd)) (map_to_list (nodes meta)).
Lemma resolvedb_ok meta crate : resolvedb meta crate = true -> resolved meta crate.
Proof.
  unfold resolvedb. rewrite !andb_true_iff, !forallb_forall. intros [[H1 H2] H3]. split.
  - intros pid Hp. apply list_elem_of_In, H1, bool_decide_eq_true in Hp. done.
  - intros pid p Hp. apply elem_of_map_to_list, list_elem_of_In, H2, bool_decide_eq_true in Hp. done.
  - intros pid ds q Hd Hq. unfold normal_deps in Hd. destruct (nodes meta !! pid) as [all|] eqn:E; [|done]. apply Ok_inj in Hd. subst ds.
    apply list_elem_of_fmap in Hq as (d & -> & Hq). apply list_elem_of_In, filter_In in Hq as [Hq _]. apply elem_of_map_to_list, list_elem_of_In, H3 in E. cbn [snd] in E.
    rewrite forallb_forall in E. by apply E, bool_decide_eq_true in Hq.
Qed.
Lemma linked_reached_witness :
  linked_set demo_meta (txt "emu") = Some (Ok {[txt "emu"; txt "nb"; txt "libc"]}) /\ linked_to demo_meta (txt "emu") (txt "libc").
Proof.
  destruct (linked_reached demo_meta (txt "emu")) as (seen & Hs & Hl); [apply resolvedb_ok; vm_compute; reflexivity|].
  assert (E : linked_set demo_meta (txt "emu") = Some (Ok {[txt "emu"; txt "nb"; txt "libc"]})) by (vm_compute; reflexivity).
  split; [exact E|]. apply Hl. rewrite E in Hs. apply (inj Some), Ok_inj in Hs. rewrite <- Hs. set_solver.
Defined.
Lemma offers_apache_choice_witness :
  let e := Or (Paren (Or (License (txt "MIT")) (License APACHE))) (License (txt "Zlib")) in
  spdx_text e = txt "(MIT OR Apache-2.0) OR Zlib" /\ offers_apache (Some (spdx_text e)) = true.
Proof.
  intros e. split; [vm_compute; reflexivity|]. assert (H : choice e).
  { split; [split|]; cbn [choice e]; (split; [done|vm_compute; reflexivity]). }
  destruct (offers_apache_choice e H) as [E _]. rewrite E. vm_compute. reflexivity.
Defined.
Example older_form : offers_apache (Some (txt "MIT/Apache-2.0")) = true /\ offers_apache (Some (txt "MIT")) = false /\ offers_apache None = false.
Proof. vm_compute. done. Qed.
