(* ===== verification/Pnr.v ===== *)
(** * Place and route: which seed is adopted

    scripts/run_pnr.py's loop over the seeds, as a machine whose environment is nextpnr's
    processes: which of them have ended at each look, and with what report; and what it makes
    of the reports, with the two scripts that read them again (scripts/timing_summary.py,
    scripts/report_sta.py). *)
From stdpp Require Import sorting.
From Stdlib Require Import Floats.SpecFloat.
From S2P Require Import Prelude Image Text PyFloat Str Serial Release.
#[local] Open Scope Z_scope.

(** ** nextpnr's timing report *)

(** Where a path's element starts: no "loc", two coordinates, or something else. *)
Inductive location := LocNone | LocAt (x y : Z) | LocOther.
Record element := mkElement { e_delay : float; e_type : option text; e_net : text; e_from_cell : text; e_from_port : text; e_to_port : text; e_loc : location }.
Record cpath := mkPath { cp_from : text; cp_to : text; cp_path : list element }.
(** "critical_paths" of the file's value. *)
Definition report := list cpath.

Definition total_delay (p : cpath) : float := fsum (map e_delay (cp_path p)).
Definition period (freq : float) : float := fdiv (of_int 1000) freq.
Definition zero : float := of_int 0.
Definition slack_of (freq : float) (p : cpath) : float := fsub (period freq) (total_delay p).

(** [get_timing_info]: no file, or one that json can't read, is None; so is the division by zero
    of a frequency of 0, which the function catches. *)
Definition worst_loop (freq : float) (ps : list cpath) (worst : float) : float :=
  fold_left (fun worst p => let slack := slack_of freq p in if flt slack worst then slack else worst) ps worst.
Definition get_timing_info (r : option report) (freq : float) : bool * option float :=
  match r with
  | None => (false, None)
  | Some [] => (true, Some zero)
  | Some ps =>
      if SFeqb freq zero then (false, None)
      else
        let worst := worst_loop freq ps (S754_infinity false) in (fle zero worst, Some worst)
  end.

(** ** run_pnr.py *)

Record config := mkConfig { freq : float; seeds : list Z; jobs : nat; abort_slack : option float; all_seeds : bool }.
(** [seeds] without repetitions, the jobs and the stops, from the arguments. *)
Fixpoint unique (l : list Z) (seen : list Z) : list Z :=
  match l with
  | [] => []
  | s :: l => if bool_decide (s ∈ seen) then unique l seen else s :: unique l (s :: seen)
  end.
Definition configure (freq : float) (arg_seeds : list Z) (arg_jobs : option Z) (cpus : option Z) (arg_abort : option float) (all : bool) : config :=
  let ss := unique arg_seeds [] in
  let or_ o d := match o with Some n => if n =? 0 then d else n | None => d end in
  mkConfig freq ss (Z.to_nat (Z.max 1 (or_ arg_jobs (Z.min (len ss) (or_ cpus 1))))) (if all then None else arg_abort) all.

(** How a process ended: its exit code and the report it left. *)
Record ending := mkEnding { returncode : Z; left_report : option report }.
Inductive reason := Met (seed : Z) | Below (seed : Z).
(** [results] in the order of the endings: None where nextpnr failed or left no report. *)
Record state := mkState { pending : list Z; running : list Z; results : list (Z * option float); stop_reason : option reason }.
Definition initial (c : config) : state := mkState (seeds c) [] [] None.

(** Starting: as many as there is room for. *)
Fixpoint start (room : nat) (s : state) : state :=
  match room, pending s, stop_reason s with
  | S room, seed :: rest, None => start room (mkState rest (running s ++ [seed]) (results s) None)
  | _, _, _ => s
  end.
Definition start_all (c : config) (s : state) : state := start (jobs c - length (running s)) s.

(** One process that has ended. *)
Definition judge (c : config) (seed : Z) (closure : bool) (slack : float) (stop : option reason) : option reason :=
  match stop with
  | Some r => Some r
  | None =>
      if closure && negb (all_seeds c) then Some (Met seed)
      else match abort_slack c with Some a => if flt slack a then Some (Below seed) else None | None => None end
  end.
Definition ended (c : config) (seed : Z) (e : ending) (s : state) : state :=
  let s := mkState (pending s) (List.filter (fun x => negb (x =? seed)) (running s)) (results s) (stop_reason s) in
  let record v stop := mkState (pending s) (running s) (results s ++ [(seed, v)]) stop in
  if negb (returncode e =? 0) then record None (stop_reason s)
  else
    match get_timing_info (left_report e) (freq c) with
    | (_, None) => record None (stop_reason s)
    | (closure, Some slack) => record (Some slack) (judge c seed closure slack (stop_reason s))
    end.
(** The line printed of a seed divides by what its slack leaves of the period: none where no path
    has a delay. The exception ends the script, and the rest is killed. *)
Definition divides_by_zero (c : config) (e : ending) : bool :=
  match get_timing_info (left_report e) (freq c) with
  | (_, Some slack) => (returncode e =? 0) && SFeqb (fsub (period (freq c)) slack) zero
  | _ => false
  end.
Definition raises (c : config) (poll : Z -> option ending) (s : state) : bool :=
  existsb (fun seed => match poll seed with Some e => divides_by_zero c e | None => false end) (running s).
(** A look at the processes, in the order they were started; then the rest is stopped. *)
Definition look (c : config) (poll : Z -> option ending) (s : state) : state :=
  fold_left (fun s seed => match poll seed with Some e => ended c seed e s | None => s end) (running s) s.
Definition stop_rest (s : state) : state :=
  match stop_reason s with Some _ => mkState [] [] (results s) (stop_reason s) | None => s end.
(** The loop: [env k] is what the [k]-th look sees; [Some None] is the exception. *)
Fixpoint run (fuel : nat) (c : config) (env : nat -> Z -> option ending) (k : nat) (s : state) : option (option state) :=
  match fuel with
  | O => None
  | S fuel =>
      match pending s, running s with
      | [], [] => Some (Some s)
      | _, _ =>
          let s := start_all c s in
          match running s with
          | [] => Some (Some s)
          | _ => if raises c (env k) s then Some None else run fuel c env (S k) (stop_rest (look c (env k) s))
          end
      end
  end.

(** The seed adopted: the best worst slack, ties to the seed listed first. *)
Definition usable (s : state) : list (Z * float) := omap (fun sv => v ← snd sv; Some (fst sv, v)) (results s).
Fixpoint index (x : Z) (l : list Z) : Z := match l with [] => 0 | y :: l => if x =? y then 0 else 1 + index x l end.
(** [(a, -i) > (b, -j)] of tuples. *)
Definition better (ss : list Z) (x y : Z * float) : bool :=
  if SFeqb (snd x) (snd y) then index (fst x) ss <? index (fst y) ss else flt (snd y) (snd x).
Definition best_of (ss : list Z) (l : list (Z * float)) : option (Z * float) :=
  match l with [] => None | x :: l => Some (fold_left (fun b y => if better ss y b then y else b) l x) end.
(** What is written to --seed-info, with the slack to three places; None is exit code 1. *)
Record adopted := mkAdopted { a_seed : Z; a_slack : float; a_closure : bool; a_target : float }.
Definition adopt (c : config) (s : state) : option adopted :=
  '(best, slack) ← best_of (seeds c) (usable s);
  Some (mkAdopted best (round_to 3 slack) (fle zero slack) (freq c)).

(** ** timing_summary.py *)

(** [worst_slack]: Python's min keeps the first of the least. *)
Definition py_min (x : float) (l : list float) : float := fold_left (fun m y => if flt y m then y else m) l x.
Definition worst_slack (ps : report) (freq : float) : float :=
  match map (slack_of freq) ps with [] => zero | x :: l => py_min x l end.
(** [slacks]: the seeds with a report that isn't older than the netlist, each once. *)
Definition slacks (freq : float) (ss : list Z) (reports : Z -> option report) : list (Z * float) :=
  omap (fun seed => r ← reports seed; Some (seed, worst_slack r freq)) (unique ss []).
Definition best_seed (ss : list Z) (l : list (Z * float)) : option (Z * float) := best_of ss l.
(** [statistics.median]. *)
Definition float_le (a b : float) : Prop := fle a b = true.
#[export] Instance float_le_dec a b : Decision (float_le a b) := decide (fle a b = true).
Definition median (l : list float) : option float :=
  let s := merge_sort float_le l in
  let n := length s in
  if Nat.odd n then s !! (n / 2)%nat
  else a ← s !! (n / 2 - 1)%nat; b ← s !! (n / 2)%nat; Some (fdiv (fadd a b) (of_int 2)).

Definition CELL_GROUPS : list (text * list text) := map (fun p => (txt (fst p), map txt (snd p))) [
  ("LUT", ["LUT1"; "LUT2"; "LUT3"; "LUT4"]); ("MUX2", ["MUX2_LUT5"; "MUX2_LUT6"; "MUX2_LUT7"; "MUX2_LUT8"]);
  ("FF", ["DFF"; "DFFE"; "DFFC"; "DFFCE"; "DFFP"; "DFFPE"; "DFFS"; "DFFSE"; "DFFR"; "DFFRE"; "DFFN"; "DFFNE"]); ("ALU", ["ALU"]);
  ("BSRAM", ["DPB"; "DPX9B"; "SP"; "SPX9"; "SDPB"; "SDPX9B"]); ("SSRAM", ["RAM16SDP4"; "RAM16SDP2"; "RAM16SDP1"; "RAM16S4"])]%string.
Definition list_sum_Z (l : list Z) : Z := fold_right Z.add 0 l.
(** [cell_counts] of the types of the top module's cells. *)
Definition cell_counts (types : list text) : list (text * Z) :=
  map (fun g => (fst g, list_sum_Z (map (fun t => len (List.filter (fun u => bool_decide (u = t)) types)) (snd g)))) CELL_GROUPS.

(** ** report_sta.py *)

(** [f"{t:<n}"]. *)
Definition left_align (n : nat) (t : text) : text := t ++ repeat 32 (n - length t).
Definition sta_slack (freq : float) (p : cpath) : bool * float :=
  let slack := slack_of freq p in (fle zero slack, slack).
Definition delays (types : list text) (p : cpath) : float :=
  fsum (map e_delay (List.filter (fun e => match e_type e with Some t => bool_decide (t ∈ types) | None => false end) (cp_path p))).
(** [sorted(..., reverse=True)] by delay, stable. *)
Definition delay_ge (a b : element) : Prop := fle (e_delay b) (e_delay a) = true.
#[export] Instance delay_ge_dec a b : Decision (delay_ge a b) := decide (fle (e_delay b) (e_delay a) = true).
Definition element_line (e : element) : text :=
  let loc := match e_loc e with LocNone => txt "(-,-)" | LocAt x y => txt "(" ++ int_text x ++ txt "," ++ int_text y ++ txt ")" | LocOther => txt "-" end in
  let kind := default (txt "unknown") (e_type e) in
  let name := if bool_decide (kind = txt "routing") then txt "Net: " ++ e_net e
              else txt "Cell: " ++ e_from_cell e ++ txt " (" ++ e_from_port e ++ txt "->" ++ e_to_port e ++ txt ")" in
  let name := if (48 <? length name)%nat then take 45 name ++ txt "..." else name in
  txt "  " ++ left_align 10 kind ++ txt " " ++ left_align 10 (fixed_text false 2 (e_delay e) ++ txt " ns") ++ txt " " ++ left_align 12 loc ++ txt " " ++ name.
(** One clock domain's lines; [ends] are worst_path_endpoints' texts, for the first with a netlist. *)
Definition domain_lines (freq : float) (i : Z) (p : cpath) (ends : option (text * text)) : list text :=
  let total := total_delay p in
  let logic := delays (map txt ["logic"; "clk-to-q"; "setup"]%string) p in
  let routing := delays [txt "routing"] p in
  let pos := flt zero total in
  let pct x := if pos then fmul (fdiv x total) (of_int 100) else zero in
  let '(ok, slack) := sta_slack freq p in
  let ns x := fixed_text false 2 x ++ txt " ns" in
  [[]; txt "[Clock Domain #" ++ dec i ++ txt "] " ++ cp_from p ++ txt " -> " ++ cp_to p;
   txt "  Status              : [" ++ (if ok then txt "PASS" else txt "FAIL") ++ txt "] (Slack: " ++ fixed_text true 2 slack ++ txt " ns)"]
  ++ (match ends with Some (a, b) => [txt "  From flop           : " ++ a; txt "  To flop             : " ++ b] | None => [] end)
  ++ [txt "  Max Frequency (Fmax): " ++ fixed_text false 2 (if pos then fdiv (of_int 1000) total else zero) ++ txt " MHz";
      txt "  Total Data Delay    : " ++ ns total;
      txt "    - Logic Delay     : " ++ ns logic ++ txt " (" ++ fixed_text false 1 (pct logic) ++ txt "%)";
      txt "    - Routing Delay   : " ++ ns routing ++ txt " (" ++ fixed_text false 1 (pct routing) ++ txt "%)";
      []; txt "  Top Critical Path Delay Segments:";
      txt "  " ++ left_align 10 (txt "Type") ++ txt " " ++ left_align 10 (txt "Delay") ++ txt " " ++ left_align 12 (txt "Location") ++ txt " Cell / Net Name";
      txt "  " ++ repeat 45 8 ++ txt "   " ++ repeat 45 8 ++ txt "   " ++ repeat 45 10 ++ txt "   " ++ repeat 45 45]
  ++ map element_line (take 10 (merge_sort delay_ge (List.filter (fun e => flt zero (e_delay e)) (cp_path p)))).
Fixpoint all_domains (freq : float) (i : Z) (ps : report) (ends : option (text * text)) : list text :=
  match ps with [] => [] | p :: ps => domain_lines freq i p ends ++ all_domains freq (i + 1) ps None end.
(** [analyze_sta] of a report that can be read: whether it passes, and what it prints; [seed] is
    the seed info's seed, closure and slack. *)
Definition analyze_sta (path : text) (ps : report) (freq : float) (seed : option (Z * bool * float)) (ends : option (text * text)) : bool * list text :=
  match ps with
  | [] => (true, [txt "No critical path data found in timing report."])
  | _ =>
      let pass := forallb (fun p => fst (sta_slack freq p)) ps in
      let bar := repeat 61 80 in
      (pass,
       [bar; txt "           VUX9K STATIC TIMING ANALYSIS (STA) REPORT (nextpnr)"; bar;
        txt "Target Clock Frequency : " ++ fixed_text false 2 freq ++ txt " MHz (Period: " ++ fixed_text false 2 (period freq) ++ txt " ns)";
        txt "Report Source File     : " ++ path]
       ++ (match seed with
           | Some (s, closure, slack) => [txt "nextpnr Seed           : " ++ int_text s ++ txt " (" ++ (if closure then txt "met timing" else txt "no seed met timing") ++ txt ", slack " ++ fixed_text true 2 slack ++ txt " ns)"]
           | None => [] end)
       ++ [repeat 45 80] ++ all_domains freq 1 ps ends
       ++ [[]; bar; if pass then txt "  TIMING SUMMARY: ALL CLOCK DOMAINS MET TIMING CONSTRAINTS! [PASS]" else txt "  TIMING SUMMARY: TIMING CONSTRAINTS FAILED OR CRITICAL SLACK DETECTED! [FAIL]"; bar; []])
  end.
(** [main]'s exit code with --strict. *)
Definition strict_exit (strict pass : bool) : Z := if strict && negb pass then 1 else 0.

(** ** The best of a list *)

Lemma SFeqb_rank x y : is_nan x = false -> is_nan y = false -> SFeqb x y = true <-> rank x = rank y.
Proof.
  unfold SFeqb. intros Hx Hy. destruct x as [[]|[]| |[] m e], y as [[]|[]| |[] m' e']; try done; cbn [SFcompare rank].
  all: try (split; [done|intros E; injection E; lia]); try (split; done).
  all: change (Pos.compare_cont Eq m m') with (m ?= m')%positive; destruct (Z.compare_spec e e') as [->|H|H]; try (split; [done|intros E; injection E; lia]).
  all: destruct (Pos.compare_spec m m') as [->|H|H]; cbn [CompOpp]; try (split; done); (split; [done|intros E; injection E; lia]).
Qed.
Definition number (x : Z * float) : Prop := is_nan (snd x) = false.
(** Before in the order: a greater slack, or the same and listed before. *)
Definition before (ss : list Z) (x y : Z * float) : Prop :=
  lex_lt (rank (snd y)) (rank (snd x)) \/ (rank (snd x) = rank (snd y) /\ index (fst x) ss < index (fst y) ss).
Lemma better_before ss x y : number x -> number y -> better ss x y = true <-> before ss x y.
Proof.
  intros Hx Hy. unfold better, before. destruct (SFeqb (snd x) (snd y)) eqn:E.
  - apply SFeqb_rank in E; [|done..]. rewrite Z.ltb_lt. rewrite E. unfold lex_lt. split; [by right|]. intros [H|[_ H]]; [lia|done].
  - assert (Hn : rank (snd x) <> rank (snd y)) by (intros H; apply SFeqb_rank in H; [congruence|done..]). rewrite flt_rank by done. tauto.
Qed.
Lemma before_trans ss x y z : ~ before ss x y -> ~ before ss y z -> ~ before ss x z.
Proof.
  unfold before, lex_lt. destruct (rank (snd x)) as [[a1 a2] a3], (rank (snd y)) as [[b1 b2] b3], (rank (snd z)) as [[c1 c2] c3]. cbn [fst snd].
  intros H1 H2 H3. assert (E : forall p q r s t u : Z, (p, q, r) = (s, t, u) <-> p = s /\ q = t /\ r = u) by (intros; split; [by intros [= -> -> ->]|by intros (-> & -> & ->)]).
  rewrite !E in *. lia.
Qed.
Lemma before_total ss x y : ~ before ss x y -> ~ before ss y x -> rank (snd x) = rank (snd y) /\ index (fst x) ss = index (fst y) ss.
Proof.
  unfold before, lex_lt. destruct (rank (snd x)) as [[a1 a2] a3], (rank (snd y)) as [[b1 b2] b3]. cbn [fst snd]. intros H1 H2.
  assert (E : forall p q r s t u : Z, (p, q, r) = (s, t, u) <-> p = s /\ q = t /\ r = u) by (intros; split; [by intros [= -> -> ->]|by intros (-> & -> & ->)]).
  rewrite !E in *. lia.
Qed.
Lemma best_of_best ss l b : Forall number l -> best_of ss l = Some b -> b ∈ l /\ Forall (fun y => ~ before ss y b) l.
Proof.
  intros Hl. destruct l as [|x l]; [done|]. cbn [best_of]. inversion_clear Hl as [|? ? Hx Hl']. intros H. apply (inj Some) in H.
  assert (Hinv : forall seen b0, number b0 -> b0 ∈ seen -> Forall (fun y => ~ before ss y b0) seen ->
    fold_left (fun b y => if better ss y b then y else b) l b0 = b -> b ∈ seen ++ l /\ Forall (fun y => ~ before ss y b) (seen ++ l)).
  { clear H Hx x. induction Hl' as [|y l Hy Hl IH]; intros seen b0 Hn Hin Hb H; cbn [fold_left] in H; [rewrite app_nil_r; by subst|].
    change (y :: l) with ([y] ++ l). rewrite app_assoc. assert (Hself : forall z, ~ before ss z z) by (intros z; unfold before, lex_lt; lia).
    destruct (better ss y b0) eqn:E.
    - apply better_before in E; [|done..]. apply (IH (seen ++ [y]) y); [done|apply elem_of_app; right; by left| |done]. apply Forall_app. split; [|constructor; [apply Hself|constructor]].
      eapply Forall_impl; [exact Hb|]. intros z Hz. cbn beta. apply (before_trans ss z b0 y); [done|]. intros Hby. unfold before, lex_lt in *.
      destruct (rank (snd y)) as [[a1 a2] a3], (rank (snd b0)) as [[b1 b2] b3]. cbn [fst snd] in *. assert (Ep : forall p q r s t u : Z, (p, q, r) = (s, t, u) -> p = s /\ q = t /\ r = u) by (intros; by simplify_eq).
      destruct E as [E|[E1 E2]], Hby as [F|[F1 F2]]; try (apply Ep in E1); try (apply Ep in F1); lia.
    - assert (Hnb : ~ before ss y b0) by (rewrite <- better_before by done; congruence). apply (IH (seen ++ [y]) b0); [done|apply elem_of_app; by left| |done]. apply Forall_app. split; [done|by constructor]. }
  apply (Hinv [x] x); [done|by left| |done]. constructor; [|constructor]. unfold before, lex_lt. lia.
Qed.

(** ** The machine *)

(** One turn of the loop, whatever the processes do; and what can be reached. *)
Inductive turn (c : config) : state -> state -> Prop :=
| turn_look poll s : pending s <> [] \/ running s <> [] -> running (start_all c s) <> [] -> turn c s (stop_rest (look c poll (start_all c s))).
Definition reachable (c : config) : state -> Prop := rtc (turn c) (initial c).

Definition finished (s : state) : list Z := map fst (results s).
(** What holds at every point: the seeds are started in order and each once, no more than [jobs]
    at a time, what runs or has ended was started, and a stop has its reason in the results. *)
Record machine_ok (c : config) (s : state) : Prop := {
  ok_started : exists started rest, seeds c = started ++ rest /\ running s ++ finished s ⊆+ started /\
    ((pending s = rest /\ started ≡ₚ running s ++ finished s) \/ (stop_reason s <> None /\ pending s = [] /\ running s = []));
  ok_jobs : (length (running s) <= jobs c)%nat;
  ok_met : forall seed, stop_reason s = Some (Met seed) -> all_seeds c = false /\ exists v, (seed, Some v) ∈ results s /\ fle zero v = true;
  ok_below : forall seed, stop_reason s = Some (Below seed) -> exists a v, abort_slack c = Some a /\ (seed, Some v) ∈ results s /\ flt v a = true
}.
(** Started but not stopped: [machine_ok] before [stop_rest]. *)
Definition live (c : config) (s : state) : Prop :=
  exists started, seeds c = started ++ pending s /\ started ≡ₚ running s ++ finished s.

Lemma initial_ok c : machine_ok c (initial c).
Proof. split; [exists [], (seeds c); split; [done|]; split; [done|]; left; done|cbn; lia|done|done]. Qed.
Lemma start_ok c room s : machine_ok c s -> (length (running s) + room <= jobs c)%nat -> machine_ok c (start room s).
Proof.
  revert s. induction room as [|room IH]; intros s H Hj; [done|]. cbn [start]. destruct (pending s) as [|seed rest] eqn:Ep; [done|]. destruct (stop_reason s) eqn:Es; [done|].
  apply IH; [|cbn [running]; rewrite length_app; cbn; lia]. destruct H as [(st & r & Hs & Hsub & [[Hp Hst]|[Hn _]]) _ _ _]; [|done]. split; cbn [running stop_reason]; [|rewrite length_app; cbn; lia|done|done].
  exists (st ++ [seed]), rest. rewrite Ep in Hp. subst r. rewrite <- app_assoc. split; [done|]. unfold finished in *. cbn [results running pending].
  assert (Hperm : st ++ [seed] ≡ₚ (running s ++ [seed]) ++ map fst (results s)) by (rewrite Hst; solve_Permutation).
  split; [by rewrite Hperm|]. left. done.
Qed.
Lemma start_all_ok c s : machine_ok c s -> machine_ok c (start_all c s).
Proof. intros H. apply start_ok; [done|]. pose proof (ok_jobs _ _ H). lia. Qed.
Lemma judge_reason c seed closure slack stop r : judge c seed closure slack stop = Some r -> stop = Some r \/
  (stop = None /\ ((r = Met seed /\ closure = true /\ all_seeds c = false) \/ (r = Below seed /\ exists a, abort_slack c = Some a /\ flt slack a = true))).
Proof.
  unfold judge. destruct stop as [r'|]; [by left|]. destruct (closure && negb (all_seeds c)) eqn:E.
  - intros [= <-]. right. split; [done|]. left. apply andb_true_iff in E as [-> E]. by apply negb_true_iff in E.
  - destruct (abort_slack c) as [a|]; [|done]. destruct (flt slack a) eqn:Ea; [|done]. intros [= <-]. right. split; [done|]. right. split; [done|]. by exists a.
Qed.
Lemma filter_out seed l : NoDup l -> seed ∈ l -> l ≡ₚ seed :: List.filter (fun x => negb (x =? seed)) l.
Proof.
  intros Hd Hin. induction Hd as [|x l Hx Hd IH]; [by apply not_elem_of_nil in Hin|]. cbn [List.filter]. apply elem_of_cons in Hin as [->|Hin].
  - rewrite Z.eqb_refl. cbn [negb]. replace (List.filter (fun y => negb (y =? x)) l) with l; [done|]. symmetry. clear -Hx.
    induction l as [|y l IH]; [done|]. apply not_elem_of_cons in Hx as [Hy Hx]. cbn [List.filter]. rewrite (proj2 (Z.eqb_neq y x)) by done. cbn [negb]. by rewrite IH.
  - assert (Hne : x <> seed) by (by intros ->). rewrite (proj2 (Z.eqb_neq x seed)) by done. cbn [negb]. rewrite (IH Hin) at 1. apply perm_swap.
Qed.
(** The value recorded, and the reason to stop, of an ending. *)
Lemma ended_spec c seed e s : exists v stop, ended c seed e s = mkState (pending s) (List.filter (fun x => negb (x =? seed)) (running s)) (results s ++ [(seed, v)]) stop /\
  (stop = stop_reason s \/ (stop_reason s = None /\ exists slack, v = Some slack /\ snd (get_timing_info (left_report e) (freq c)) = Some slack /\
    ((stop = Some (Met seed) /\ fst (get_timing_info (left_report e) (freq c)) = true /\ all_seeds c = false) \/ (stop = Some (Below seed) /\ exists a, abort_slack c = Some a /\ flt slack a = true)))) /\
  (v = None \/ (returncode e = 0 /\ v = snd (get_timing_info (left_report e) (freq c)))).
Proof.
  unfold ended. destruct (Z.eqb_spec (returncode e) 0) as [E0|]; cbn [negb]; [|exists None, (stop_reason s); split; [done|split; by left]].
  destruct (get_timing_info (left_report e) (freq c)) as [closure [slack|]] eqn:E; [|exists None, (stop_reason s); split; [done|split; by left]].
  exists (Some slack), (judge c seed closure slack (stop_reason s)). split; [done|]. split; [|right; done]. destruct (judge c seed closure slack (stop_reason s)) as [r|] eqn:Ej.
  - apply judge_reason in Ej as [->|[Hs Hr]]; [by left|]. right. split; [done|]. exists slack. split; [done|]. split; [done|]. destruct Hr as [(-> & -> & Ha)|(-> & Ha)]; [left|right]; done.
  - left. unfold judge in Ej. destruct (stop_reason s); [done|]. by rewrite Ej || done.
Qed.
Lemma timing_closure r f slack : snd (get_timing_info r f) = Some slack -> fst (get_timing_info r f) = fle zero slack.
Proof. unfold get_timing_info. destruct r as [[|p ps]|]; cbn [fst snd]; [intros [= <-]|destruct (SFeqb f zero); cbn [fst snd]; [done|intros [= <-]; done]|done]. vm_compute. done. Qed.

Section Machine.
Context (c : config) (Hseeds : NoDup (seeds c)).

Lemma live_nodup s : live c s -> NoDup (running s).
Proof.
  intros (st & Hs & Hp). rewrite Hs in Hseeds. apply NoDup_app in Hseeds as (H & _ & _). rewrite Hp in H. by apply NoDup_app in H as (H & _ & _).
Qed.
Lemma ok_live s : machine_ok c s -> running s <> [] -> live c s.
Proof. intros [(st & r & Hs & _ & [[<- Hp]|(_ & _ & Hr)]) _ _ _] Hn; [by exists st|done]. Qed.
Lemma ended_ok seed e s : machine_ok c s -> live c s -> seed ∈ running s ->
  machine_ok c (ended c seed e s) /\ live c (ended c seed e s) /\ running (ended c seed e s) = List.filter (fun x => negb (x =? seed)) (running s).
Proof.
  intros H Hl Hin. destruct (ended_spec c seed e s) as (v & stop & -> & Hstop & _). pose proof (live_nodup s Hl) as Hnd. pose proof (filter_out seed (running s) Hnd Hin) as Hf.
  set (r' := List.filter _ (running s)) in *. destruct Hl as (st & Hs & Hp). assert (Hp' : st ≡ₚ r' ++ map fst (results s ++ [(seed, v)])).
  { rewrite Hp. unfold finished. rewrite Hf at 1. rewrite map_app. cbn [map fst]. solve_Permutation. }
  split; [|split; [by exists st|done]]. split; cbn [running stop_reason results pending].
  - exists st, (pending s). unfold finished. cbn [results]. split; [done|]. split; [by rewrite Hp'|]. left. done.
  - pose proof (ok_jobs _ _ H) as Hj. rewrite Hf in Hj. cbn [length] in Hj. lia.
  - intros seed' E. destruct Hstop as [->|(_ & slack & -> & Hi & [(-> & Hc & Ha)|(-> & _)])]; [| |done].
    + destruct (ok_met _ _ H seed' E) as (Ha & w & Hw & Hz). split; [done|]. exists w. split; [apply elem_of_app; by left|done].
    + injection E as <-. split; [done|]. exists slack. split; [apply elem_of_app; right; by left|]. by rewrite <- (timing_closure _ _ _ Hi).
  - intros seed' E. destruct Hstop as [->|(_ & slack & -> & _ & [(-> & _)|(-> & a & Ha & Hlt)])]; [|done|].
    + destruct (ok_below _ _ H seed' E) as (a & w & Ha & Hw & Hz). exists a, w. split; [done|]. split; [apply elem_of_app; by left|done].
    + injection E as <-. exists a, slack. split; [done|]. split; [apply elem_of_app; right; by left|done].
Qed.
Lemma look_ok poll l s : machine_ok c s -> live c s -> NoDup l -> l ⊆ running s ->
  let s' := fold_left (fun s seed => match poll seed with Some e => ended c seed e s | None => s end) l s in
  machine_ok c s' /\ live c s' /\ pending s' = pending s /\ (length (running s') <= length (running s))%nat /\
  (Exists (fun seed => is_Some (poll seed)) l -> (length (running s') < length (running s))%nat) /\
  (Forall (fun seed => poll seed = None) l -> s' = s).
Proof.
  revert s. induction l as [|seed l IH]; intros s H Hl Hd Hsub; cbn [fold_left]; [split_and!; try done; intros He; by inversion He|].
  inversion_clear Hd as [|? ? Hn Hd']. destruct (poll seed) as [e|] eqn:E.
  - destruct (ended_ok seed e s H Hl) as (H1 & H2 & H3); [apply Hsub; by left|].
    assert (Hlen : (length (running (ended c seed e s)) < length (running s))%nat).
    { rewrite H3. rewrite (filter_out seed (running s)) at 2; [cbn; lia|by apply live_nodup|apply Hsub; by left]. }
    destruct (IH (ended c seed e s) H1 H2 Hd') as (I1 & I2 & I3 & I4 & _ & _).
    { intros x Hx. rewrite H3. apply list_elem_of_In, filter_In. split; [apply list_elem_of_In, Hsub; by right|]. apply negb_true_iff, Z.eqb_neq. by intros ->. }
    split; [done|]. split; [done|]. split; [rewrite I3; by destruct (ended_spec c seed e s) as (? & ? & -> & _)|]. split; [lia|]. split; [intros _; lia|]. intros Hall. inversion_clear Hall. congruence.
  - destruct (IH s H Hl Hd') as (I1 & I2 & I3 & I4 & I5 & I6); [intros x Hx; apply Hsub; by right|]. split_and!; try done.
    + intros He. apply I5. by inversion_clear He as [? ? [? Hp]|]; [congruence|].
    + intros Hall. inversion_clear Hall. by apply I6.
Qed.
Lemma stop_rest_ok s : machine_ok c s -> machine_ok c (stop_rest s).
Proof.
  intros H. unfold stop_rest. destruct (stop_reason s) eqn:E; [|done]. destruct H as [(st & rest & Hs & Hsub & _) Hj Hm Hb]. split; cbn [running stop_reason results pending]; [|cbn; lia|by rewrite <- E|by rewrite <- E].
  exists st, rest. split; [done|]. unfold finished in *. cbn [results]. split; [|right; done]. etrans; [|exact Hsub]. cbn [app]. apply submseteq_inserts_l. done.
Qed.
Lemma turn_ok s s' : machine_ok c s -> turn c s s' -> machine_ok c s'.
Proof.
  intros H Ht. inversion Ht as [poll s0 Hp Hr]; subst. apply stop_rest_ok. pose proof (start_all_ok c s H) as Hs. pose proof (ok_live _ Hs Hr) as Hl.
  apply (look_ok poll (running (start_all c s)) _ Hs Hl); [by apply live_nodup|done].
Qed.
Lemma reachable_ok s : reachable c s -> machine_ok c s.
Proof.
  intros H. apply rtc_ind_r with (P := machine_ok c) (x := initial c) (z := s) in H; [done|apply initial_ok|]. intros y z _ Ht Hy. by apply (turn_ok y).
Qed.
Lemma run_reaches fuel env k s s' : reachable c s -> run fuel c env k s = Some (Some s') -> exists s0, reachable c s0 /\ s' = start_all c s0 /\ running s' = [].
Proof.
  revert k s. induction fuel as [|fuel IH]; intros k s Hs; cbn [run]; [done|].
  assert (Hgo : (pending s <> [] \/ running s <> []) -> match running (start_all c s) with [] => Some (Some (start_all c s)) | _ => if raises c (env k) (start_all c s) then Some None else run fuel c env (S k) (stop_rest (look c (env k) (start_all c s))) end = Some (Some s') ->
    exists s0, reachable c s0 /\ s' = start_all c s0 /\ running s' = []).
  { intros Hne H. destruct (running (start_all c s)) as [|r rs] eqn:Er; [injection H as <-; by exists s|]. destruct (raises _ _ _); [done|]. apply IH in H; [done|]. eapply rtc_r; [exact Hs|]. apply turn_look; [done|by rewrite Er]. }
  destruct (pending s) as [|p ps] eqn:Ep, (running s) as [|r rs] eqn:Er; [|by apply Hgo; right|by apply Hgo; left|by apply Hgo; left].
  intros [= <-]. exists s. split; [done|]. split; [|done]. unfold start_all. destruct (jobs c - length (running s))%nat; [done|]. cbn [start]. by rewrite Ep.
Qed.
(** The exception is of a report that was read. *)
Lemma run_raises fuel env k s : reachable c s -> run fuel c env k s = Some None ->
  exists k seed e, seed ∈ seeds c /\ env k seed = Some e /\ divides_by_zero c e = true.
Proof.
  revert k s. induction fuel as [|fuel IH]; intros k s Hs; cbn [run]; [done|].
  assert (Hgo : (pending s <> [] \/ running s <> []) -> match running (start_all c s) with [] => Some (Some (start_all c s)) | _ => if raises c (env k) (start_all c s) then Some None else run fuel c env (S k) (stop_rest (look c (env k) (start_all c s))) end = Some None ->
    exists k seed e, seed ∈ seeds c /\ env k seed = Some e /\ divides_by_zero c e = true).
  { intros Hne H. destruct (running (start_all c s)) as [|r rs] eqn:Er; [done|]. destruct (raises _ _ _) eqn:Ex.
    - unfold raises in Ex. apply existsb_exists in Ex as (seed & Hin & He). apply list_elem_of_In in Hin. destruct (env k seed) as [e|] eqn:Ee; [|done]. exists k, seed, e. split; [|done].
      destruct (start_all_ok c s (reachable_ok s Hs)) as [(st & rest & -> & Hsub & _) _ _ _]. apply elem_of_app. left. apply (elem_of_submseteq _ _ _ ltac:(apply elem_of_app; left; exact Hin) Hsub).
    - apply IH in H; [done|]. eapply rtc_r; [exact Hs|]. apply turn_look; [done|by rewrite Er]. }
  destruct (pending s) as [|p ps] eqn:Ep, (running s) as [|r rs] eqn:Er; [done|by apply Hgo; right|by apply Hgo; left|by apply Hgo; left].
Qed.
End Machine.

Lemma unique_nodup l seen : NoDup (unique l seen) /\ (forall x, x ∈ unique l seen <-> x ∈ l /\ x ∉ seen).
Proof.
  revert seen. induction l as [|s l IH]; intros seen; cbn [unique]; [split; [constructor|]; intros x; split; [by intros ?%not_elem_of_nil|by intros [?%not_elem_of_nil _]]|].
  destruct (decide (s ∈ seen)) as [Hs|Hs]; [rewrite bool_decide_true by done|rewrite bool_decide_false by done].
  - destruct (IH seen) as [H1 H2]. split; [done|]. intros x. rewrite H2, elem_of_cons. split; [tauto|]. intros [[->|H] Hn]; done.
  - destruct (IH (s :: seen)) as [H1 H2]. split; [constructor; [|done]; rewrite H2, not_elem_of_cons; tauto|]. intros x. rewrite !elem_of_cons, H2, not_elem_of_cons.
    destruct (decide (x = s)) as [->|]; tauto.
Qed.
Lemma start_stays room s : (0 < room)%nat -> running (start room s) = [] -> pending s = [] \/ stop_reason s <> None.
Proof.
  intros Hr H. destruct room as [|room]; [lia|]. cbn [start] in H. destruct (pending s) as [|seed rest]; [by left|]. destruct (stop_reason s); [by right|]. exfalso.
  assert (Hkeep : forall room s, running s <> [] -> running (start room s) <> []).
  { clear. induction room as [|room IH]; intros s Hs; [done|]. cbn [start]. destruct (pending s); [done|]. destruct (stop_reason s); [done|]. apply IH. cbn [running]. by destruct (running s). }
  by apply (Hkeep room (mkState rest (running s ++ [seed]) (results s) None)); [cbn [running]; destruct (running s)|].
Qed.
Lemma start_same room s : running (start room s) = [] -> pending s = [] \/ stop_reason s <> None -> start room s = s.
Proof. intros _ H. destruct room; [done|]. cbn [start]. destruct (pending s); [done|]. destruct (stop_reason s); [done|]. by destruct H. Qed.
(** What the loop ends in. *)
Lemma run_ends_in c env fuel s : NoDup (seeds c) -> (0 < jobs c)%nat -> run fuel c env 0 (initial c) = Some (Some s) ->
  machine_ok c s /\ running s = [] /\ (stop_reason s = None -> finished s ≡ₚ seeds c).
Proof.
  intros Hd Hj H. destruct (run_reaches c fuel env 0 (initial c) s) as (s0 & Hs0 & -> & Hr); [apply rtc_refl|done|]. pose proof (reachable_ok c Hd s0 Hs0) as H0.
  pose proof (start_all_ok c s0 H0) as Hok. split; [done|]. split; [done|].
  assert (Hrun : running s0 = []). { unfold start_all in Hr. destruct (jobs c - length (running s0))%nat eqn:E; [done|]. clear -Hr. revert s0 Hr. generalize (S n). intros room. induction room as [|room IH]; intros s Hr; [done|].
    cbn [start] in Hr. destruct (pending s); [done|]. destruct (stop_reason s); [done|]. apply IH in Hr. cbn [running] in Hr. by apply app_eq_nil in Hr as [_ ?]. }
  unfold start_all in *. rewrite Hrun in *. cbn [length] in *. rewrite Nat.sub_0_r in *. pose proof (start_stays _ _ Hj Hr) as Hp. rewrite (start_same _ _ Hr Hp) in *. intros Hn.
  destruct Hok as [(st & rest & Hs & _ & [[Hpr Hst]|[Hst _]]) _ _ _]; [|done]. destruct Hp as [Hp|Hp]; [|done]. rewrite Hs, <- Hpr, Hp, app_nil_r, Hst, Hrun. done.
Qed.
Lemma usable_results s seed v : (seed, v) ∈ usable s <-> (seed, Some v) ∈ results s.
Proof.
  unfold usable. rewrite list_elem_of_omap. split.
  - intros ([seed' [w|]] & Hin & E); [|done]. cbn in E. by injection E as -> ->.
  - intros H. exists (seed, Some v). by split.
Qed.

(** ** The three readers of a report *)

Definition numbers (freq : float) (r : report) : Prop := Forall (fun p => is_nan (slack_of freq p) = false) r.
Lemma py_min_least x l : is_nan x = false -> Forall (fun y => is_nan y = false) l ->
  is_nan (py_min x l) = false /\ fle zero (py_min x l) = fle zero x && forallb (fle zero) l.
Proof.
  intros Hx Hl. revert x Hx. induction Hl as [|y l Hy Hl IH]; intros x Hx; [by cbn; rewrite andb_true_r|]. cbn [py_min fold_left forallb].
  destruct (flt y x) eqn:E; [destruct (IH y Hy) as [? H]|destruct (IH x Hx) as [? H]]; (split; [done|]); unfold py_min in H; rewrite H, andb_assoc; f_equal.
  - destruct (fle zero y) eqn:Ey; [rewrite andb_true_r|by rewrite andb_false_r]. symmetry. apply fle_rank; [done..|]. apply fle_rank in Ey; [|done..]. apply flt_rank in E; [|done..].
    unfold lex_lt in *. destruct (rank y) as [[a1 a2] a3], (rank x) as [[b1 b2] b3]. cbn [rank zero fst snd] in *. lia.
  - destruct (fle zero x) eqn:Ex; [|done]. cbn [andb]. symmetry. apply fle_rank; [done..|]. apply fle_rank in Ex; [|done..]. assert (Hn : ~ lex_lt (rank y) (rank x)) by (rewrite <- flt_rank by done; congruence).
    unfold lex_lt in *. destruct (rank y) as [[a1 a2] a3], (rank x) as [[b1 b2] b3]. cbn [rank zero fst snd] in *. lia.
Qed.
Lemma worst_loop_min f ps w : worst_loop f ps w = py_min w (map (slack_of f) ps).
Proof. unfold worst_loop, py_min. revert w. induction ps as [|p ps IH]; intros w; [done|]. cbn [fold_left map]. apply IH. Qed.
Lemma inf_first x : is_nan x = false -> (if flt x (S754_infinity false) then x else S754_infinity false) = x.
Proof. by destruct x as [[]|[]| |[] m e]. Qed.
(** run_pnr.py's reading of a report is timing_summary.py's and report_sta.py's. *)
Lemma readers_agree f r path info ends : SFeqb f zero = false -> numbers f r ->
  get_timing_info (Some r) f = (fst (analyze_sta path r f info ends), Some (worst_slack r f)) /\ is_nan (worst_slack r f) = false.
Proof.
  intros Hf Hr. destruct r as [|p ps]; [done|]. inversion_clear Hr as [|? ? Hp Hps]. cbn [get_timing_info analyze_sta fst worst_slack map]. rewrite Hf.
  assert (Hps' : Forall (fun y => is_nan y = false) (map (slack_of f) ps)) by (by apply Forall_map).
  destruct (py_min_least _ _ Hp Hps') as [Hn Hz]. split; [|done].
  assert (E : worst_loop f (p :: ps) (S754_infinity false) = py_min (slack_of f p) (map (slack_of f) ps)).
  { rewrite worst_loop_min. cbn [map py_min fold_left]. by rewrite (inf_first _ Hp). }
  rewrite E, Hz. f_equal. cbn [forallb]. f_equal. clear. induction ps as [|p ps IH]; [done|]. cbn [map forallb]. by rewrite IH.
Qed.

(** The results are of endings that were seen. *)
Definition from_env (c : config) (env : nat -> Z -> option ending) (sv : Z * option float) : Prop :=
  match snd sv with
  | Some v => exists k e, env k (fst sv) = Some e /\ returncode e = 0 /\ snd (get_timing_info (left_report e) (freq c)) = Some v
  | None => True
  end.
Lemma start_results room s : results (start room s) = results s.
Proof. revert s. induction room as [|room IH]; intros s; [done|]. cbn [start]. destruct (pending s); [done|]. destruct (stop_reason s); [done|]. by rewrite IH. Qed.
Lemma look_results c env k l s : Forall (from_env c env) (results s) ->
  Forall (from_env c env) (results (fold_left (fun s seed => match env k seed with Some e => ended c seed e s | None => s end) l s)).
Proof.
  revert s. induction l as [|seed l IH]; intros s H; [done|]. cbn [fold_left]. apply IH. destruct (env k seed) as [e|] eqn:E; [|done].
  destruct (ended_spec c seed e s) as (v & stop & -> & _ & Hv). cbn [results]. apply Forall_app. split; [done|]. constructor; [|constructor]. unfold from_env. cbn [fst snd].
  destruct v as [v|]; [|done]. destruct Hv as [|[Hc Hv]]; [done|]. by exists k, e.
Qed.
Lemma run_results c fuel env k s s' : Forall (from_env c env) (results s) -> run fuel c env k s = Some (Some s') -> Forall (from_env c env) (results s').
Proof.
  revert k s. induction fuel as [|fuel IH]; intros k s Hs; cbn [run]; [done|].
  assert (Hgo : match running (start_all c s) with [] => Some (Some (start_all c s)) | _ => if raises c (env k) (start_all c s) then Some None else run fuel c env (S k) (stop_rest (look c (env k) (start_all c s))) end = Some (Some s') ->
    Forall (from_env c env) (results s')).
  { pose proof (start_results (jobs c - length (running s)) s) as Hst. fold (start_all c s) in Hst. intros H. destruct (running (start_all c s)) as [|r rs] eqn:Er; [injection H as <-; by rewrite Hst|].
    destruct (raises _ _ _); [done|]. apply IH in H; [done|]. assert (Hl : Forall (from_env c env) (results (look c (env k) (start_all c s)))) by (apply look_results; by rewrite Hst).
    unfold stop_rest. by destruct (stop_reason (look c (env k) (start_all c s))). }
  destruct (pending s), (running s); [by intros [= <-]|exact Hgo..].
Qed.

(** The best doesn't depend on the order of the endings. *)
Lemma index_inj l x y : x ∈ l -> y ∈ l -> index x l = index y l -> x = y.
Proof.
  assert (Hpos : forall z l, 0 <= index z l) by (intros z; induction l0 as [|w l0 IH]; cbn [index]; [lia|destruct (z =? w); lia]).
  induction l as [|z l IH]; [by intros ?%not_elem_of_nil|]. cbn [index]. rewrite !elem_of_cons. pose proof (Hpos x l). pose proof (Hpos y l).
  destruct (Z.eqb_spec x z) as [->|], (Z.eqb_spec y z) as [->|]; try done; try lia. intros [->|Hx] [->|Hy] E; try done. apply IH; [done..|lia].
Qed.
Lemma same_first {A B} (l : list (A * B)) x y : NoDup (map fst l) -> x ∈ l -> y ∈ l -> fst x = fst y -> x = y.
Proof.
  induction l as [|z l IH]; [by intros _ ?%not_elem_of_nil|]. cbn [map]. intros Hd Hx Hy E. inversion_clear Hd as [|? ? Hn Hd'].
  assert (Hin : forall w, w ∈ l -> fst w ∈ map fst l) by (intros w Hw; by apply list_elem_of_fmap_2).
  apply elem_of_cons in Hx as [->|Hx], Hy as [->|Hy]; [done|rewrite E in Hn; destruct Hn; by apply Hin|rewrite <- E in Hn; destruct Hn; by apply Hin|by apply IH].
Qed.
Lemma best_of_perm ss l l' : l ≡ₚ l' -> NoDup (map fst l) -> (forall x, x ∈ l -> fst x ∈ ss) -> Forall number l -> best_of ss l = best_of ss l'.
Proof.
  intros Hp Hd Hin Hn. assert (Hn' : Forall number l') by (by rewrite <- Hp).
  destruct (best_of ss l) as [b|] eqn:E, (best_of ss l') as [b'|] eqn:E'.
  - apply best_of_best in E as [Hb Hall]; [|done]. apply best_of_best in E' as [Hb' Hall']; [|done]. rewrite <- Hp in Hb', Hall'. rewrite Forall_forall in Hall, Hall'.
    destruct (before_total ss b b') as [_ Hi]; [by apply Hall'|by apply Hall|]. f_equal. apply (same_first l); [done..|]. apply (index_inj ss); [by apply Hin..|done].
  - destruct l'; [|done]. symmetry in Hp. apply Permutation_nil in Hp. by subst.
  - destruct l; [|done]. apply Permutation_nil in Hp. by subst.
  - done.
Qed.
Lemma unique_id l seen : NoDup l -> (forall x, x ∈ l -> x ∉ seen) -> unique l seen = l.
Proof.
  revert seen. induction l as [|x l IH]; intros seen Hd Hs; [done|]. inversion_clear Hd as [|? ? Hn Hd']. cbn [unique]. rewrite bool_decide_false by (apply Hs; by left). rewrite IH; [done|done|].
  intros y Hy. rewrite not_elem_of_cons. split; [by intros ->|apply Hs; by right].
Qed.
Lemma omap_firsts {A B C} (f : A -> option B) (g : A -> C) (h : B -> C) l : (forall a b, f a = Some b -> h b = g a) -> NoDup (map g l) -> NoDup (map h (omap f l)).
Proof.
  intros Hf. assert (Hin : forall c l, c ∈ map h (omap f l) -> c ∈ map g l).
  { intros c l0 (b & -> & Hb)%list_elem_of_fmap. apply list_elem_of_omap in Hb as (a & Ha & E). rewrite (Hf a b E). by apply list_elem_of_fmap_2. }
  induction l as [|a l IH]; cbn [map omap list_omap]; [done|]. intros Hd. inversion_clear Hd as [|? ? Hn Hd']. destruct (f a) as [b|] eqn:E; [|by apply IH]. cbn [map].
  constructor; [|by apply IH]. rewrite (Hf a b E). intros H. by apply Hn, Hin.
Qed.

(** ** The loop ends *)

Lemma start_count room s : (length (pending (start room s)) + length (running (start room s)) = length (pending s) + length (running s))%nat.
Proof.
  revert s. induction room as [|room IH]; intros s; [done|]. cbn [start]. destruct (pending s) as [|x l] eqn:E; [by rewrite E|]. destruct (stop_reason s); [by rewrite E|].
  rewrite IH. cbn [pending running]. rewrite length_app. cbn [length]. lia.
Qed.
Lemma run_ends c env K : NoDup (seeds c) -> (forall seed k, seed ∈ seeds c -> (K <= k)%nat -> is_Some (env k seed)) ->
  forall fuel k s, machine_ok c s -> (K - k + length (pending s) + length (running s) < fuel)%nat -> exists r, run fuel c env k s = Some r.
Proof.
  intros Hd Henv. induction fuel as [|fuel IH]; intros k s Hs Hf; [lia|]. cbn [run].
  assert (Hgo : exists r, match running (start_all c s) with [] => Some (Some (start_all c s)) | _ => if raises c (env k) (start_all c s) then Some None else run fuel c env (S k) (stop_rest (look c (env k) (start_all c s))) end = Some r).
  { pose proof (start_all_ok c s Hs) as Hok. pose proof (start_count (jobs c - length (running s)) s) as Hc. fold (start_all c s) in Hc.
    destruct (running (start_all c s)) as [|x l] eqn:Er; [by eexists|]. destruct (raises _ _ _); [by eexists|]. rewrite <- Er in Hc. assert (Hne : running (start_all c s) <> []) by (by rewrite Er).
    pose proof (ok_live c _ Hok Hne) as Hl. destruct (look_ok c Hd (env k) (running (start_all c s)) _ Hok Hl (live_nodup c Hd _ Hl)) as (Hm & _ & Hp & Hle & Hlt & _); [done|].
    fold (look c (env k) (start_all c s)) in *. apply IH; [by apply stop_rest_ok|]. unfold stop_rest.
    assert (Hlt' : (K <= k)%nat -> (length (running (look c (env k) (start_all c s))) < length (running (start_all c s)))%nat).
    { intros Hk. apply Hlt. rewrite Er. constructor. apply Henv; [|done]. destruct Hok as [(st & rest & -> & Hsub & _) _ _ _]. apply elem_of_app. left.
      apply (elem_of_submseteq _ _ x) in Hsub; [done|]. rewrite Er. by left. }
    assert (Hlt2 : (K <= k \/ k < K)%nat) by lia. clear IH. destruct (stop_reason (look c (env k) (start_all c s))); cbn [pending running length]; [destruct Hlt2; lia|]. rewrite Hp.
    destruct Hlt2 as [Hk|Hk]; [specialize (Hlt' Hk)|]; lia. }
  destruct (pending s), (running s); [by eexists|exact Hgo..].
Qed.

(** ** Properties *)

(** What a finished loop leaves. *)
Lemma loop_leaves freq arg_seeds arg_jobs cpus arg_abort all env fuel s :
  let c := configure freq arg_seeds arg_jobs cpus arg_abort all in
  run fuel c env 0 (initial c) = Some (Some s) -> Forall number (usable s) ->
  NoDup (finished s) /\ finished s ⊆ arg_seeds /\ (all = true -> stop_reason s = None) /\ (stop_reason s = None -> forall seed, seed ∈ arg_seeds -> seed ∈ finished s) /\
  match adopt c s with
  | None => usable s = []
  | Some a => exists v, (a_seed a, v) ∈ usable s /\ a_slack a = round_to 3 v /\ a_closure a = fle zero v /\
      Forall (fun y => ~ before (seeds c) y (a_seed a, v)) (usable s) /\ (Exists (fun y => fle zero (snd y) = true) (usable s) -> a_closure a = true)
  end /\
  (forall seed, stop_reason s = Some (Met seed) -> exists a, adopt c s = Some a /\ a_closure a = true).
Proof.
  intros c H Hn. destruct (unique_nodup arg_seeds []) as [Hd Hu]. assert (Hj : (0 < jobs c)%nat) by (cbn [c jobs configure]; lia).
  destruct (run_ends_in c env fuel s Hd Hj H) as (Hok & Hr & Hall). assert (Hfin : finished s ⊆+ seeds c).
  { destruct Hok as [(st & rest & -> & Hsub & _) _ _ _]. rewrite Hr in Hsub. etrans; [exact Hsub|]. by apply submseteq_inserts_r. }
  split. { apply submseteq_Permutation in Hfin as [k Hk]. unfold c in Hk. cbn [seeds configure] in Hk. rewrite Hk in Hd. by apply NoDup_app in Hd as (? & _). } split; [intros x Hx; apply (elem_of_submseteq _ (seeds c)) in Hx; [by apply Hu in Hx as []|done]|]. split.
  { intros ->. destruct (stop_reason s) as [[seed|seed]|] eqn:E; [|destruct (ok_below _ _ Hok seed E) as (a & v & Ha & _); done|done]. destruct (ok_met _ _ Hok seed E) as [Ha _]. done. }
  split. { intros E seed Hin. rewrite (Hall E). apply Hu. split; [done|by apply not_elem_of_nil]. }
  assert (Hbest : forall b, best_of (seeds c) (usable s) = Some b -> b ∈ usable s /\ Forall (fun y => ~ before (seeds c) y b) (usable s)) by (intros b; by apply best_of_best).
  assert (Hzero : forall b y, b ∈ usable s -> y ∈ usable s -> ~ before (seeds c) y b -> fle zero (snd y) = true -> fle zero (snd b) = true).
  { intros b y Hb Hy Hbef Hz. rewrite Forall_forall in Hn. pose proof (Hn b Hb) as Hnb. pose proof (Hn y Hy) as Hny. rewrite fle_rank in Hz |- * by done.
    unfold before, lex_lt in *. destruct (rank (snd y)) as [[a1 a2] a3], (rank (snd b)) as [[b1 b2] b3]. cbn [rank zero fst snd] in *. lia. }
  split.
  - unfold adopt. destruct (best_of (seeds c) (usable s)) as [[b v]|] eqn:E; cbn [mbind option_bind a_seed a_slack a_closure].
    + destruct (Hbest _ eq_refl) as [Hin Hb]. exists v. split; [done|]. split; [done|]. split; [done|]. split; [done|]. intros Hex. apply Exists_exists in Hex as (y & Hy & Hz).
      rewrite Forall_forall in Hb. apply (Hzero (b, v) y); [done|done|by apply Hb|done].
    + clear -E. by destruct (usable s).
  - intros seed E. destruct (ok_met _ _ Hok seed E) as (_ & v & Hv & Hz). apply usable_results in Hv. unfold adopt. destruct (best_of (seeds c) (usable s)) as [[b w]|] eqn:Eb; cbn [mbind option_bind].
    + eexists. split; [reflexivity|]. cbn [a_closure]. destruct (Hbest _ eq_refl) as [Hin Hb]. rewrite Forall_forall in Hb. apply (Hzero (b, w) (seed, v)); [done|done|by apply Hb|done].
    + clear -Eb Hv. revert Eb Hv. destruct (usable s); [intros _ ?%not_elem_of_nil; done|done].
Qed.

(** At every point of the loop, the seeds have been started in the order given and each once,
    and no more than the jobs asked for run. *)
Theorem seeds_in_order c s : NoDup (seeds c) -> reachable c s ->
  (length (running (start_all c s)) <= jobs c)%nat /\
  exists started rest, seeds c = started ++ rest /\ NoDup started /\ running (start_all c s) ++ finished (start_all c s) ⊆+ started /\
    pending (start_all c s) ∈ [rest; []].
Proof.
  intros Hd Hs. pose proof (start_all_ok c s (reachable_ok c Hd s Hs)) as H. split; [apply (ok_jobs _ _ H)|].
  destruct H as [(st & rest & E & Hsub & Hp) _ _ _]. exists st, rest. split; [done|]. split; [rewrite E in Hd; by apply NoDup_app in Hd as (? & _)|]. split; [done|].
  destruct Hp as [[-> _]|(_ & -> & _)]; [by left|right; by left].
Qed.

(** C36: the three scripts agree on the run's reports: where the files left are the finished seeds'
    and nothing in them is a nan, run_pnr.py adopts a seed exactly if timing_summary.py finds a
    report, and it adopts the summary's best seed, at its worst slack, with the verdict
    report_sta.py gives for that seed's report. *)
Theorem scripts_agree f arg_seeds arg_jobs cpus arg_abort all env fuel s reports path info ends :
  let c := configure f arg_seeds arg_jobs cpus arg_abort all in
  SFeqb f zero = false -> NoDup arg_seeds -> run fuel c env 0 (initial c) = Some (Some s) ->
  (forall k seed e, env k seed = Some e -> returncode e = 0 -> left_report e = reports seed) ->
  (forall seed r, reports seed = Some r -> numbers f r /\ exists v, (seed, Some v) ∈ results s) ->
  match adopt c s with
  | Some a => exists r, reports (a_seed a) = Some r /\ best_seed arg_seeds (slacks f arg_seeds reports) = Some (a_seed a, worst_slack r f) /\
      a_slack a = round_to 3 (worst_slack r f) /\ a_closure a = fst (analyze_sta path r f info ends)
  | None => slacks f arg_seeds reports = []
  end.
Proof.
  intros c Hf Hds Hrun Hleft Hfiles. assert (Hu : unique arg_seeds [] = arg_seeds) by (apply unique_id; [done|intros x _; apply not_elem_of_nil]).
  assert (Hsd : seeds c = arg_seeds) by done. assert (Hd : NoDup (seeds c)) by (by rewrite Hsd).
  assert (Hj : (0 < jobs c)%nat) by (cbn [c jobs configure]; lia). destruct (run_ends_in c env fuel s Hd Hj Hrun) as (Hok & Hr & _).
  assert (Hfrom : Forall (from_env c env) (results s)) by (apply (run_results c fuel env 0 (initial c)); [constructor|done]). rewrite Forall_forall in Hfrom.
  destruct Hok as [(st & rest & Hst & Hsub & _) _ _ _]. rewrite Hr in Hsub. cbn [app] in Hsub.
  assert (Hfd : NoDup (finished s)). { apply submseteq_Permutation in Hsub as [k Hk]. rewrite Hst, Hk, <- app_assoc in Hd. by apply NoDup_app in Hd as (? & _). }
  assert (Hin : forall seed v, (seed, v) ∈ results s -> seed ∈ arg_seeds).
  { intros seed v H. rewrite <- Hsd, Hst. apply elem_of_app. left. apply (elem_of_submseteq (finished s) st); [|done]. unfold finished. by apply (list_elem_of_fmap_2 fst _ (seed, v)). }
  assert (Hval : forall seed v, (seed, Some v) ∈ results s -> exists r, reports seed = Some r /\ v = worst_slack r f /\ is_nan v = false /\ fle zero v = fst (analyze_sta path r f info ends)).
  { intros seed v H. destruct (Hfrom _ H) as (k & e & He & Hc & Hv). cbn [fst] in He. pose proof (timing_closure _ _ _ Hv) as Hz. rewrite (Hleft _ _ _ He Hc) in Hv, Hz. destruct (reports seed) as [r|] eqn:Er; [|done].
    destruct (Hfiles _ _ Er) as [Hn _]. destruct (readers_agree f r path info ends Hf Hn) as [Eg Hnan]. change (freq c) with f in Hv, Hz. rewrite Eg in Hv, Hz. cbn [fst snd] in Hv, Hz. injection Hv as <-. by exists r. }
  assert (Hnum : Forall number (usable s)). { apply Forall_forall. intros [seed v] H%usable_results. by destruct (Hval _ _ H) as (r & _ & _ & Hn & _). }
  assert (Hud : NoDup (map fst (usable s))). { unfold usable. apply (omap_firsts _ fst fst); [|done]. intros [seed [v|]] b; [|done]. by intros [= <-]. }
  assert (Hperm : usable s ≡ₚ slacks f arg_seeds reports).
  { apply NoDup_Permutation; [by apply (NoDup_fmap_1 fst)|apply (NoDup_fmap_1 fst); unfold slacks; apply (omap_firsts _ (fun x => x) fst); [|by rewrite Hu, map_id]|].
    - intros seed b E. destruct (reports seed); [|done]. by injection E as <-.
    - intros [seed v]. rewrite usable_results. unfold slacks. rewrite Hu, list_elem_of_omap. split.
      + intros H. destruct (Hval _ _ H) as (r & Er & -> & _). exists seed. split; [by apply (Hin seed _ H)|]. by rewrite Er.
      + intros (seed' & Hs & E). destruct (reports seed') as [r|] eqn:Er; [|done]. injection E as <- <-. destruct (Hfiles _ _ Er) as [_ [v' Hv']].
        destruct (Hval _ _ Hv') as (r' & Er' & -> & _). congruence. }
  assert (Hbest : best_seed arg_seeds (slacks f arg_seeds reports) = best_of (seeds c) (usable s)).
  { unfold best_seed. rewrite Hsd. symmetry. apply best_of_perm; [done..| |done]. intros [seed v] H%usable_results. by apply (Hin seed (Some v)). }
  unfold adopt. destruct (best_of (seeds c) (usable s)) as [[b v]|] eqn:Eb; cbn [mbind option_bind a_seed a_slack a_closure].
  - apply best_of_best in Eb as [Hb _]; [|done]. apply usable_results in Hb. destruct (Hval _ _ Hb) as (r & Er & -> & _ & Hz). by exists r.
  - destruct (usable s); [|done]. by apply Permutation_nil in Hperm.
Qed.

(** The loop ends: where the processes have ended by look [K], it takes at most [K] looks and
    one for each seed. *)
Theorem loop_ends c env K : NoDup (seeds c) -> (forall seed k, seed ∈ seeds c -> (K <= k)%nat -> is_Some (env k seed)) ->
  exists r, run (K + S (length (seeds c))) c env 0 (initial c) = Some r.
Proof. intros Hd Henv. apply (run_ends c env K Hd Henv); [apply initial_ok|]. cbn [initial pending running length]. lia. Qed.

(** The slack read of a report of numbers is one. *)
Lemma timing_number r f v : (forall x, r = Some x -> numbers f x) -> snd (get_timing_info r f) = Some v -> is_nan v = false.
Proof.
  intros Hn. destruct r as [[|p ps]|]; [by intros [= <-]| |done]. specialize (Hn _ eq_refl). destruct (SFeqb f zero) eqn:Hf; [cbn [get_timing_info]; rewrite Hf; done|].
  destruct (readers_agree f (p :: ps) [] None None Hf Hn) as [E Hnan]. rewrite E. by intros [= <-].
Qed.


(** ** Witnesses *)

Definition demo_elem (thousandths : Z) : element := mkElement (of_ratio thousandths 1000) (Some (txt "logic")) [] (txt "u1") (txt "F") (txt "D") LocNone.
Definition demo_report (thousandths : Z) : report := [mkPath (txt "posedge clk") (txt "posedge clk") [demo_elem 1000; demo_elem (thousandths - 1000)]].
Definition demo_reports (seed : Z) : option report := if seed =? 7 then Some (demo_report 38000) else if seed =? 3 then Some (demo_report 36500) else None.
(** 100 fails, 7 ends first and misses by less than 1.5 ns, 3 meets 27 MHz; 5 would end last. *)
Definition demo_env (k : nat) (seed : Z) : option ending :=
  if (Z.of_nat k <? (if seed =? 7 then 0 else if seed =? 100 then 1 else if seed =? 3 then 2 else 9)) then None
  else Some (mkEnding (if seed =? 100 then 1 else 0) (demo_reports seed)).
Definition demo_config : config := configure (of_int 27) [100; 7; 3; 5] (Some 2) None (Some (of_decimal (-15) (-1))) false.
Definition demo_end : state := default (initial demo_config) (default None (run 20 demo_config demo_env 0 (initial demo_config))).

Lemma seeds_in_order_witness : running (start_all demo_config (initial demo_config)) = [100; 7] /\ (length (running (start_all demo_config (initial demo_config))) <= 2)%nat.
Proof.
  split; [by vm_compute|]. apply (seeds_in_order demo_config (initial demo_config)).
  - apply (bool_decide_unpack _). by vm_compute.
  - apply rtc_refl.
Defined.
Lemma scripts_agree_witness : best_seed [100; 7; 3; 5] (slacks (of_int 27) [100; 7; 3; 5] demo_reports) = Some (3, worst_slack (demo_report 36500) (of_int 27)) /\
  match adopt demo_config demo_end with Some a => exists r, demo_reports (a_seed a) = Some r /\ a_closure a = fst (analyze_sta [] r (of_int 27) None None) /\ a_slack a = round_to 3 (worst_slack r (of_int 27)) | None => False end.
Proof.
  split; [by vm_compute|].
  assert (H := scripts_agree (of_int 27) [100; 7; 3; 5] (Some 2) None (Some (of_decimal (-15) (-1))) false demo_env 20 demo_end demo_reports [] None None). cbv zeta in H. fold demo_config in H.
  destruct (adopt demo_config demo_end) as [a|] eqn:E; [|exfalso; revert E; by vm_compute]. destruct H as (r & H1 & _ & H2 & H3).
  - by vm_compute.
  - apply (bool_decide_unpack _). by vm_compute.
  - by vm_compute.
  - intros k seed e. unfold demo_env. destruct (_ <? _); [done|]. by intros [= <-].
  - intros seed r. unfold demo_reports. destruct (Z.eqb_spec seed 7) as [->|_]; [|destruct (Z.eqb_spec seed 3) as [->|_]; [|done]]; intros [= <-];
      (split; [apply Forall_cons; split; [by vm_compute|by apply Forall_nil]|]).
    + eexists. apply list_elem_of_In. vm_compute. left. reflexivity.
    + eexists. apply list_elem_of_In. vm_compute. right. right. left. reflexivity.
  - exists r. split; [exact H1|split; [exact H3|exact H2]].
Defined.
Lemma loop_ends_witness : run 14 demo_config demo_env 0 (initial demo_config) = Some (Some demo_end) /\ exists r, run (9 + S 4) demo_config demo_env 0 (initial demo_config) = Some r.
Proof.
  split; [by vm_compute|]. apply (loop_ends demo_config demo_env 9).
  - apply (bool_decide_unpack _). by vm_compute.
  - intros seed k _ Hk. unfold demo_env. destruct (Z.ltb_spec (Z.of_nat k) (if seed =? 7 then 0 else if seed =? 100 then 1 else if seed =? 3 then 2 else 9)) as [H|H]; [|by eexists].
    exfalso. destruct (seed =? 7), (seed =? 100), (seed =? 3); lia.
Defined.
