(* ===== verification/UploadPort.v ===== *)
(** * The upload over a timed port

    tools/vux_tool.py's [send_upload_v2] with its deadlines on the clock of a [Port]: what it
    sends and that it ends, whatever the device answers; and, on a port where each read of a
    line takes one tick, that it is the transfer of Upload.v. *)
From S2P Require Import Prelude Crc Header Image Text Upload Serial.
#[local] Open Scope Z_scope.

Section Upload.
Context {P : Type} `{LinePort P}.
Abbreviation sess := (sess P).

(** One turn of [_upload_line]'s loop. *)
Definition upload_turn (deadline : Z) (buf : bytes) : sess (bytes + text) :=
  c ← get now;
  if c <? deadline then
    d ← read_line;
    let buf := buf ++ d in
    if ends_nl buf then
      let line := py_strip (decode_ascii buf) in
      if is_tag_line line then mret (inr line) else mret (inl [])
    else mret (inl buf)
  else sess_raise (UploadNoAnswer buf).

(** [_upload_line]. *)
Definition _upload_line (n : nat) (deadline : Z) : sess text := loop n (upload_turn deadline) [].

(** [_upload_expect]. *)
Definition _upload_expect (n : nat) (want : text) (deadline : Z) : sess text :=
  line ← _upload_line n deadline;
  if startswith (txt "[ERR]") line || negb (startswith want line)
  then sess_raise (UploadError line) else mret line.

(** [_upload_expect] by the deadline of a line that starts now. *)
Definition expect_by (n : nat) (want : text) (timeout : Z) : sess text :=
  t0 ← get now; _upload_expect n want (t0 + timeout).

(** The loop over the blocks. *)
Fixpoint upload_blocks (n : nat) (i : Z) (blocks : list bytes) (timeout : Z) : sess unit :=
  match blocks with
  | [] => mret tt
  | b :: blocks =>
      expect_by n (txt "[READY-BLK:" ++ dec i ++ txt "]") timeout;;
      write b;;
      upload_blocks n (i + 1) blocks timeout
  end.

(** [send_upload_v2] (without the progress callback, which only watches). *)
Definition send_upload_v2 (n : nat) (data : bytes) (timeout : Z) (crc_override : option Z) : sess text :=
  expect_by n (txt "[READY-V2]") timeout;;
  l ← sess_res (pack_uint 4 (len data)); write l;;
  expect_by n (txt "[LEN:" ++ dec (len data) ++ txt "]") timeout;;
  upload_blocks n 0 (chunks UPLOAD_V2_BLOCK data) timeout;;
  expect_by n (txt "[READY-CRC]") timeout;;
  c ← sess_res (pack_uint 4 (sent_crc data crc_override)); write c;;
  expect_by n (txt "[OK]") timeout.

(** ** It ends *)

(** What waiting for a line ends with: the line, the device's error, or no answer. *)
Definition expected (want : text) (r : res text) : Prop :=
  match r with
  | Ok line => startswith want line = true
  | Raise (UploadError line) => startswith (txt "[ERR]") line = true \/ startswith want line = false
  | Raise (UploadNoAnswer buf) => ends_nl buf = false
  | Raise _ => False
  end.

Lemma ends_upload_line deadline p :
  ends (fun n => _upload_line n deadline) p (fun r q => sent q = sent p /\
    match r with Ok line => is_tag_line line = true
    | Raise e => exists buf, e = UploadNoAnswer buf /\ ends_nl buf = false end).
Proof.
  apply (ends_loop _ (sooner deadline) (fun buf q => sent q = sent p /\ ends_nl buf = false)); [apply sooner_wf|done|].
  intros buf q [Hs Hb]. apply ends_get. destruct (Z.ltb_spec (now q) deadline) as [Hlt|Hge].
  - apply ends_read_line. pose proof (line_time q) as Ht. pose proof (sent_line q) as Hsl.
    destruct (ser_read_line q) as [d q']. cbn [fst snd] in *.
    destruct (ends_nl (buf ++ d)) eqn:Hnl; [destruct (is_tag_line _) eqn:Htag|]; (eapply ends_now; [reflexivity|]).
    + split; [congruence|exact Htag].
    + split; [by split|]. split; [congruence|done].
    + split; [by split|]. split; [congruence|done].
  - eapply ends_now; [reflexivity|]. split; [done|]. by exists buf.
Qed.

Lemma ends_expect want timeout p :
  ends (fun n => expect_by n want timeout) p (fun r q => sent q = sent p /\ expected want r).
Proof.
  apply ends_get. apply (ends_bind (fun n => _upload_line n _) (fun line n => _)).
  eapply ends_weaken; [apply ends_upload_line|]. intros [line|e] q [Hs Hr].
  - destruct (startswith (txt "[ERR]") line) eqn:He; cbn [orb].
    { eapply ends_now; [reflexivity|]. split; [done|]. by left. }
    destruct (startswith want line) eqn:Hw; (eapply ends_now; [reflexivity|]); (split; [done|]).
    + exact Hw.
    + by right.
  - destruct Hr as (buf & -> & Hnl). by split.
Qed.

(** An upload's error: a line of the device, or no answer. *)
Definition upload_failed (e : exn) : Prop := (exists l, e = UploadError l) \/ (exists b, e = UploadNoAnswer b).

Lemma expected_failed want e : expected want (Raise e) -> upload_failed e.
Proof. destruct e; try done; intros _; [left|right]; by eexists. Qed.

(** Code that sends [w] when it returns, and a part of it when it fails. *)
Definition sends {A} (w : bytes) (s : bytes) (r : res A) (q : P) : Prop :=
  match r with
  | Ok _ => sent q = s ++ w
  | Raise e => upload_failed e /\ exists w1, sent q = s ++ w1 /\ w1 `prefix_of` w
  end.

Lemma sends_failed {A} want w s w1 e q :
  expected want (Raise e) -> sent q = s ++ w1 -> w1 `prefix_of` w -> sends (A := A) w s (Raise e) q.
Proof. intros He Hs Hp. split; [by eapply expected_failed|by exists w1]. Qed.

(** [m] sends [w1], then [g] sends [w2]. *)
Lemma ends_sends_bind {A B} (m : nat -> sess A) (g : A -> nat -> sess B) p w1 w2 s :
  ends m p (sends w1 s) -> (forall v q, sent q = s ++ w1 -> ends (g v) q (sends w2 (s ++ w1))) ->
  ends (fun n => v ← m n; g v n) p (sends (w1 ++ w2) s).
Proof.
  intros Hm Hg. apply ends_bind. eapply ends_weaken; [exact Hm|]. intros [v|e] q Hq.
  - eapply ends_weaken; [by apply Hg|]. intros [v'|e] q' Hq'; cbn in *.
    + by rewrite Hq', app_assoc.
    + destruct Hq' as [He (w & Hw & Hp)]. split; [done|]. exists (w1 ++ w). rewrite Hw, app_assoc.
      split; [done|by apply prefix_app].
  - destruct Hq as [He (w & Hw & Hp)]. split; [done|]. exists w. split; [done|by apply prefix_app_r].
Qed.

Lemma ends_expect_sends want timeout p s : sent p = s -> ends (fun n => expect_by n want timeout) p (sends [] s).
Proof.
  intros <-. eapply ends_weaken; [apply ends_expect|]. intros [l|e] q [Hs Hr].
  - cbn. by rewrite app_nil_r.
  - eapply sends_failed; [exact Hr|by rewrite app_nil_r|done].
Qed.

Lemma ends_write_sends d p s : sent p = s -> ends (fun _ => write d) p (sends d s).
Proof. intros <-. eapply ends_now; [reflexivity|]. apply sent_written. Qed.

Lemma ends_blocks i blocks timeout p s :
  sent p = s -> ends (fun n => upload_blocks n i blocks timeout) p (sends (concat blocks) s).
Proof.
  revert i p s. induction blocks as [|b blocks IH]; intros i p s Hs; cbn [upload_blocks concat].
  { eapply ends_now; [reflexivity|]. cbn. by rewrite app_nil_r. }
  apply (ends_sends_bind (fun n => expect_by n _ timeout) (fun _ n => write b;; upload_blocks n (i + 1) blocks timeout) p []);
    [by apply ends_expect_sends|]. intros _ q Hq.
  rewrite app_nil_r in *. apply (ends_sends_bind (fun _ => write b) (fun _ n => upload_blocks n (i + 1) blocks timeout));
    [by apply ends_write_sends|]. intros _ q1 Hq1. by apply IH.
Qed.

(** What is sent when the whole transfer is: the length, the data and the CRC. *)
Definition upload_wire (data : bytes) (crc : Z) : bytes := le_split 4 (len data) ++ data ++ le_split 4 crc.

Lemma ends_upload data timeout crc_override p :
  len data < 2 ^ 32 -> 0 <= sent_crc data crc_override < 2 ^ 32 ->
  ends (fun n => send_upload_v2 n data timeout crc_override) p (sends (upload_wire data (sent_crc data crc_override)) (sent p)).
Proof.
  intros Hlen Hcrc. pose proof (len_nonneg data). unfold send_upload_v2.
  rewrite (pack_uint_in 4 (len data)) by (cbn; lia). rewrite (pack_uint_in 4 (sent_crc _ _)) by exact Hcrc.
  unfold upload_wire. generalize (le_split 4 (sent_crc data crc_override)) (le_split 4 (len data)). intros c l.
  replace (l ++ data ++ c) with ([] ++ l ++ [] ++ data ++ [] ++ c ++ []) by (cbn [app]; by rewrite app_nil_r).
  apply (ends_sends_bind (fun n => expect_by n _ timeout) (fun _ n => _)); [by apply ends_expect_sends|]. intros _ q Hq.
  apply (ends_sends_bind (fun _ => write _) (fun _ n => _)); [by apply ends_write_sends|]. intros _ q1 Hq1.
  apply (ends_sends_bind (fun n => expect_by n _ timeout) (fun _ n => _)); [by apply ends_expect_sends|]. intros _ q2 Hq2.
  apply (ends_sends_bind (fun n => upload_blocks n _ _ timeout) (fun _ n => _)); [|intros _ q3 Hq3].
  { pose proof (ends_blocks 0 (chunks UPLOAD_V2_BLOCK data) timeout q2 _ Hq2) as He. by rewrite concat_chunks in He. }
  apply (ends_sends_bind (fun n => expect_by n _ timeout) (fun _ n => _)); [by apply ends_expect_sends|]. intros _ q4 Hq4.
  apply (ends_sends_bind (fun _ => write _) (fun _ n => _)); [by apply ends_write_sends|]. intros _ q5 Hq5.
  by apply ends_expect_sends.
Qed.

End Upload.

(** ** On Upload's port *)

(** Upload.v's port with a clock that each read and write moves on by one, and what was sent. *)
Record ticks (D : Type) := mkTicks { t_port : port D; t_now : Z; t_sent : bytes }.
Arguments mkTicks {D}. Arguments t_port {D}. Arguments t_now {D}. Arguments t_sent {D}.

Section Ticks.
Context {D : Type}.

(** What a read finds, up to [k] bytes. *)
Definition port_read (k : Z) (p : port D) : bytes * port D :=
  let avail := match p_sched p with [] => p_out p | n :: _ => take n (p_out p) end in
  let data := take (Z.to_nat k) avail in
  (data, mkPort (p_dev p) (drop (length data) (p_out p)) (tail (p_sched p))).

(** The same port, one tick later. *)
Definition tick (t : ticks D) (p : port D) (s : bytes) : ticks D := mkTicks p (t_now t + 1) (t_sent t ++ s).

#[export, program] Instance ticks_port : Port (ticks D) := {
  now := t_now;
  ser_read k t := (fst (port_read k (t_port t)), tick t (snd (port_read k (t_port t))) []);
  ser_write d t := tick t (snd (Upload.ser_write d (t_port t))) d;
  ser_flush t := t;
  reset_input_buffer t := tick t (mkPort (p_dev (t_port t)) [] (p_sched (t_port t))) [];
  in_waiting t := len (p_out (t_port t));
  sleep n t := mkTicks (t_port t) (t_now t + n) (t_sent t);
  backlog t := length (p_out (t_port t));
  sent := t_sent;
}.
Solve Obligations with (cbn; intros; rewrite ?app_nil_r; first [lia | reflexivity]).

#[export, program] Instance ticks_lines : LinePort (ticks D) := {
  ser_read_line t :=
    let '(r, p) := Upload.ser_read_line (t_port t) in (match r with Ok d => d | Raise _ => [] end, tick t p []);
}.
Solve Obligations with (cbn; intros; rewrite ?app_nil_r; first [lia | reflexivity]).

Lemma ticks_line deadline n buf (t : ticks D) :
  n = Z.to_nat (deadline - t_now t) ->
  ends (fun k => loop k (upload_turn deadline) buf) t
    (fun r q => Upload.upload_line n buf (t_port t) = (r, t_port q)).
Proof.
  revert buf t. induction n as [|n IH]; intros buf t Hn.
  - eapply ends_loop_turn; [unfold upload_turn, mbind, sess_bind, get; cbn [now ticks_port]; rewrite (proj2 (Z.ltb_ge _ _)) by lia; reflexivity|].
    reflexivity.
  - assert (Hlt : (t_now t <? deadline) = true) by (apply Z.ltb_lt; lia).
    cbn [Upload.upload_line]. unfold mbind at 1, io_bind at 1. destruct (Upload.ser_read_line (t_port t)) as [r p] eqn:Hr.
    assert (exists d, r = Ok d) as [d ->] by (unfold Upload.ser_read_line in Hr; injection Hr as <- _; by eexists).
    assert (Hturn : upload_turn deadline buf t = Some (Ok (if ends_nl (buf ++ d) then
        (if is_tag_line (py_strip (decode_ascii (buf ++ d))) then inr (py_strip (decode_ascii (buf ++ d))) else inl []) else inl (buf ++ d)), tick t p [])).
    { unfold upload_turn, mbind, sess_bind, get, read_line. cbn [now ticks_port ticks_lines ser_read_line]. rewrite Hlt, Hr. cbn [fst snd].
      destruct (ends_nl _); [|done]. by destruct (is_tag_line _). }
    eapply ends_loop_turn; [exact Hturn|]. destruct (ends_nl (buf ++ d)); [destruct (is_tag_line _)|].
    + reflexivity.
    + apply (IH [] (tick t p [])). cbn. lia.
    + apply (IH (buf ++ d) (tick t p [])). cbn. lia.
Qed.

(** [m] does on the ticking port what [f] does on Upload's. *)
Definition ticks_to {A} (m : nat -> sess (ticks D) A) (f : io D A) : Prop :=
  forall t, ends m t (fun r q => f (t_port t) = (r, t_port q)).

Lemma ticks_bind {A B} (m : nat -> sess (ticks D) A) (f : io D A) (g : A -> nat -> sess (ticks D) B) (h : A -> io D B) :
  ticks_to m f -> (forall v, ticks_to (g v) (h v)) -> ticks_to (fun n => v ← m n; g v n) (v ← f; h v).
Proof.
  intros Hm Hg t. apply (ends_bind m g). eapply ends_weaken; [apply Hm|]. intros [v|e] q Hq; unfold mbind, io_bind; rewrite Hq.
  - apply Hg.
  - reflexivity.
Qed.

Lemma ticks_expect want timeout :
  ticks_to (fun n => expect_by n want timeout) (Upload.upload_expect (Z.to_nat timeout) want).
Proof.
  intros t. apply ends_get. apply (ends_bind (fun n => _upload_line n _) (fun line n => _)).
  eapply ends_weaken; [apply ticks_line; reflexivity|]. cbn [now ticks_port]. replace (t_now t + timeout - t_now t) with timeout by lia.
  intros [line|e] q Hq; unfold Upload.upload_expect, mbind, io_bind; rewrite Hq; [|reflexivity].
  destruct (_ || _); eapply ends_now; reflexivity.
Qed.

Lemma ticks_res {A} (r : res A) : ticks_to (fun _ => sess_res r) (io_res r).
Proof. intros t. by eapply ends_now. Qed.

Lemma ticks_write d : ticks_to (fun _ => write d) (Upload.ser_write d).
Proof. intros t. eapply ends_now; [reflexivity|]. cbn. unfold Upload.ser_write. by destruct (feed _ _). Qed.

Lemma ticks_blocks i blocks timeout :
  ticks_to (fun n => upload_blocks n i blocks timeout) (Upload.send_blocks (Z.to_nat timeout) i blocks).
Proof.
  revert i. induction blocks as [|b blocks IH]; intros i; cbn [upload_blocks Upload.send_blocks].
  { intros t. by eapply ends_now. }
  apply (ticks_bind _ _ (fun _ n => _) (fun _ => _)); [apply ticks_expect|]. intros _.
  apply (ticks_bind _ _ (fun _ n => _) (fun _ => _)); [apply ticks_write|]. intros _. apply IH.
Qed.

(** When each read of a line takes one tick, [send_upload_v2] with its deadlines on the
    clock ends with what the transfer of Upload.v gives and leaves the device as it does:
    what is proved there of the host and the device is of the tool's code. *)
Theorem upload_on_clock data timeout crc_override (t : ticks D) :
  ends (fun n => send_upload_v2 n data timeout crc_override) t
    (fun r q => Upload.send_upload_v2 (Z.to_nat timeout) data crc_override (t_port t) = (r, t_port q)).
Proof.
  revert t. change (ticks_to (fun n => send_upload_v2 n data timeout crc_override)
    (Upload.send_upload_v2 (Z.to_nat timeout) data crc_override)). unfold send_upload_v2, Upload.send_upload_v2.
  repeat first [apply ticks_expect | apply (ticks_bind _ _ (fun _ n => _) (fun _ => _));
    [first [apply ticks_expect | apply ticks_res | apply ticks_write | apply ticks_blocks]|intros ?]].
Qed.

End Ticks.
