(* ===== verification/Session.v ===== *)
(** * Talking to the boot stages

    tools/vux_tool.py: reading until a prompt, getting to the first and the second stage's
    prompt, running their commands and reading what they print. Everything ends, whatever
    the device does, once the input has been drained. *)
From S2P Require Import Prelude Crc Header Image Text Str Upload RamBoot Serial UploadPort.
#[local] Open Scope Z_scope.

Definition S1_PROMPT : text := txt "s1> ".
Definition S2_PROMPT : text := txt "s2> ".

(** The first of the tokens the text holds. *)
Definition first_token (tokens : list text) (t : text) : option text := List.find (fun k => contains k t) tokens.

(** [next((ln for ln in lines if ...), None)]. *)
Definition first_line (q : text -> bool) (lines : list text) : option text := List.find q lines.

(** [_s2_reply]: what a command printed, without its echo and the prompt. *)
Definition s2_reply (t line : text) : text :=
  let echo := line ++ [10] in
  let t := match find echo t with Some k => drop (k + length echo) t | None => t end in
  match rfind S2_PROMPT t with Some k => take k t | None => t end.

(** [_s2_check]. *)
Definition s2_check (out : text) : res text :=
  match first_line (startswith (txt "[ERR]")) (splitlines out) with
  | Some err => Raise (S2Error err)
  | None => Ok out
  end.

(** [after_run]: what follows the [RUN] line. *)
Definition after_run (t : text) : text :=
  match find (txt "[RUN] ") t with
  | Some k => match find [10] (drop k t) with Some j => drop (k + j + 1) t | None => [] end
  | None => []
  end.

(** [t.encode()]: a [UnicodeEncodeError] on a surrogate. *)
Definition utf8_char (c : Z) : res bytes :=
  if c <? 0x80 then Ok [byte.of_Z c]
  else if c <? 0x800 then Ok (map byte.of_Z [0xC0 + c / 64; 0x80 + c mod 64])
  else if (0xD800 <=? c) && (c <=? 0xDFFF) then Raise UnicodeEncodeError
  else if c <? 0x10000 then Ok (map byte.of_Z [0xE0 + c / 4096; 0x80 + c / 64 mod 64; 0x80 + c mod 64])
  else Ok (map byte.of_Z [0xF0 + c / 262144; 0x80 + c / 4096 mod 64; 0x80 + c / 64 mod 64; 0x80 + c mod 64]).
Definition utf8_encode (t : text) : res bytes := @concat _ <$> mapM utf8_char t.

Definition CR : byte := x0d.

Section Session.
Context {P : Type} `{Port P}.
Abbreviation sess := (sess P).

(** ** Reading *)

(** [drain_serial]. *)
Definition drain_serial (n : nat) (timeout : Z) : sess unit :=
  act reset_input_buffer;;
  t0 ← get now;
  loop n (fun t0 =>
    t ← get now;
    if t - t0 <? timeout then
      w ← get in_waiting;
      t0 ← (if 0 <? w then read w;; get now else mret t0);
      act (sleep (msec 10));; mret (inl t0)
    else mret (inr tt)) t0.

(** [read_until]'s loop, and [read_until]: the token or [None], and the text. *)
Definition read_step (tokens : list text) (deadline : Z) (t : text) : sess (text + option text * text) :=
  c ← get now;
  if c <? deadline then
    d ← read 256;
    match d with
    | [] => mret (inl t)
    | _ =>
        let t := t ++ utf8_decode d in
        match first_token tokens t with
        | Some k => mret (inr (Some k, t))
        | None => mret (inl t)
        end
    end
  else mret (inr (None, t)).

Definition read_until (n : nat) (tokens : list text) (timeout : Z) (t : text) : sess (option text * text) :=
  match first_token tokens t with
  | Some k => mret (Some k, t)
  | None => t0 ← get now; loop n (read_step tokens (t0 + timeout)) t
  end.

(** [ord], as [f"{c:02X}"] for a character below 256. *)
Definition hex2 (c : Z) : text :=
  map (fun d => u8 (nth (Z.to_nat d) HEX x00)) [Z.land (Z.shiftr c 4) 0xF; Z.land c 0xF].

(** [send_cmd_and_wait] of a one-character command. *)
Definition send_cmd_and_wait (n : nat) (cmd : Z) (timeout : Z) (prompt : text) : sess text :=
  drain_serial n (msec 100);;
  d ← sess_res (utf8_char cmd); write d;;
  let mark := if bool_decide (prompt = S1_PROMPT) then txt "[CMD:0x" ++ hex2 cmd ++ txt "]" else [cmd] in
  start ← get now;
  loop n (fun buf =>
    t ← get now;
    if t - start <? timeout then
      d ← read 256;
      match d with
      | [] => mret (inl buf)
      | _ =>
          let buf := buf ++ utf8_decode d in
          match find mark buf with
          | Some k => if contains prompt (drop (k + length mark) buf) then mret (inr buf) else mret (inl buf)
          | None => mret (inl buf)
          end
      end
    else mret (inr buf)) [].

(** ** Getting to a prompt *)

Definition enter_s1 (n : nat) (timeout : Z) (drain : bool) : sess text :=
  (if drain then drain_serial n (msec 50) else mret tt);;
  t0 ← get now;
  let deadline := t0 + timeout in
  loop n (fun t =>
    c ← get now;
    if c <? deadline then
      write [CR];;
      '(got, more) ← read_until n [S1_PROMPT; S2_PROMPT] (msec 20) [];
      let t := t ++ more in
      if bool_decide (got = Some S1_PROMPT) then mret (inr t)
      else if bool_decide (got = Some S2_PROMPT) then write (bstr "reset" ++ [CR]);; mret (inl t)
      else mret (inl t)
    else sess_raise TimeoutError) [].

Definition enter_s2 (n : nat) (timeout : Z) : sess text :=
  drain_serial n (msec 50);;
  t0 ← get now;
  let deadline := t0 + timeout in
  loop n (fun t =>
    c ← get now;
    if c <? deadline then
      write [CR];;
      '(got, more) ← read_until n [S1_PROMPT; S2_PROMPT] (msec 50) [];
      let t := t ++ more in
      if bool_decide (got = Some S2_PROMPT) then mret (inr t)
      else if bool_decide (got = Some S1_PROMPT) then
        write (bstr "b");;
        c ← get now;
        '(got, more) ← read_until n [S2_PROMPT] (Z.max 0 (deadline - c)) [];
        let t := t ++ more in
        match got with Some _ => mret (inr t) | None => mret (inl t) end
      else mret (inl t)
    else sess_raise TimeoutError) [].

(** ** The second stage's commands *)

Definition s2_cmd (n : nat) (line : text) (timeout : Z) (check : bool) : sess text :=
  drain_serial n (msec 50);;
  d ← sess_res (utf8_encode line); write (d ++ [CR]);;
  '(got, t) ← read_until n [line ++ [10]] timeout [];
  '(got, t) ← match got with
    | Some k =>
        let at0 := (default 0%nat (find k t) + length k)%nat in
        '(got, rest) ← read_until n [S2_PROMPT] timeout (drop at0 t);
        mret (got, take at0 t ++ rest)
    | None => mret (None, t)
    end;
  match got with
  | None => sess_raise TimeoutError
  | Some _ => let out := s2_reply t line in if check then sess_res (s2_check out) else mret out
  end.

Definition run_app (n : nat) (path : text) (timeout : Z) : sess text :=
  drain_serial n (msec 50);;
  d ← sess_res (utf8_encode (txt "run " ++ path)); write (d ++ [CR]);;
  t0 ← get now;
  let deadline := t0 + timeout in
  loop n (fun t =>
    c ← get now;
    if c <? deadline then
      c ← get now;
      '(_, more) ← read_until n [[10]] (Z.max 0 (deadline - c)) [];
      let t := t ++ more in
      if match find (txt "[RUN] ") t with Some k => contains [10] (drop k t) | None => false end then mret (inr t)
      else if contains S2_PROMPT (drop (match find [10] t with Some k => S k | None => 0%nat end) t) then
        sess_res (s2_check t);; sess_raise (S2Error (py_strip t))
      else mret (inl t)
    else sess_raise TimeoutError) [].

(** ** Transfers *)
Context `{!LinePort P}.

Definition put (n : nat) (path : text) (data : bytes) (timeout : Z) : sess text :=
  drain_serial n (msec 50);;
  d ← sess_res (utf8_encode (txt "put " ++ path)); write (d ++ [CR]);;
  on_upload_error (send_upload_v2 n data timeout None) (fun e => read_until n [S2_PROMPT] timeout [];; sess_raise e);;
  '(got, t) ← read_until n [S2_PROMPT] (timeout + msec 2 * len data) [];
  match got with
  | None => sess_raise TimeoutError
  | Some _ =>
      sess_res (s2_check t);;
      mret (default (py_strip t) (first_line (startswith (txt "[PUT]")) (splitlines t)))
  end.

Definition ram_boot (n : nat) (data : bytes) (timeout : Z) : sess text :=
  drain_serial n (msec 50);;
  write (bstr "u");;
  ok ← on_upload_error (send_upload_v2 n data timeout None)
    (fun e => '(_, rest) ← read_until n [S1_PROMPT] timeout []; sess_raise (UploadRefused e (py_strip rest)));
  '(got, t) ← read_until n [S2_PROMPT; S1_PROMPT] timeout [];
  if bool_decide (got = Some S2_PROMPT) then mret (ok ++ [10] ++ t) else sess_raise (UploadNoStage ok t).

Definition install_stage2 (n : nat) (data : bytes) (unchecked : bool) (timeout : Z) : sess text :=
  drain_serial n (msec 50);;
  write (bstr (if unchecked then "install -u" else "install") ++ [CR]);;
  send_upload_v2 n data timeout None;;
  '(got, t) ← read_until n [S2_PROMPT] timeout [];
  let line := default [] (first_line (fun l => startswith (txt "[INSTALL]") l || startswith (txt "[UNCHECKED]") l) (splitlines t)) in
  if endswith (txt "OK") line then mret line
  else sess_raise (UploadError (match line with [] => t | _ => line end)).

(** ** Everything ends *)

Lemma startswith_split k t : startswith k t = true -> exists z, t = k ++ z.
Proof.
  revert t. induction k as [|c k IH]; intros t Hk; [by exists t|]. destruct t as [|d t]; [done|]. cbn in Hk.
  apply andb_true_iff in Hk as [->%Z.eqb_eq Hk]. destruct (IH t Hk) as [z ->]. by exists z.
Qed.

Lemma startswith_prefix k t x : (length k <= length t)%nat -> startswith k (t ++ x) = startswith k t.
Proof.
  revert t. induction k as [|c k IH]; intros [|d t] Hl; cbn in *; try done; [lia|]. f_equal. apply IH. lia.
Qed.

Lemma find_split k t i : find k t = Some i -> exists z, t = take i t ++ k ++ z /\ length (take i t) = i.
Proof.
  revert i. induction t as [|c t IH]; intros i Hf; cbn [find] in Hf.
  - destruct (startswith k []) eqn:Hs; [|done]. injection Hf as <-. apply startswith_split in Hs as [z Hz]. by exists z.
  - destruct (startswith k (c :: t)) eqn:Hs.
    + injection Hf as <-. apply startswith_split in Hs as [z Hz]. by exists z.
    + destruct (find k t) as [j|] eqn:Hj; [|done]. injection Hf as <-. destruct (IH j eq_refl) as (z & Hz & Hl).
      exists z. cbn [take app length]. by rewrite <- Hz, Hl.
Qed.

Lemma find_prefix k t x i : find k t = Some i -> find k (t ++ x) = Some i.
Proof.
  revert i. induction t as [|c t IH]; intros i Hf.
  - cbn in Hf. destruct k; [|done]. injection Hf as <-. by destruct x.
  - assert (Hlen : (length k <= length (c :: t))%nat).
    { destruct (find_split _ _ _ Hf) as (z & Hz & _). rewrite Hz, !length_app. lia. }
    cbn [find app]. change (c :: t ++ x) with ((c :: t) ++ x). rewrite startswith_prefix by done.
    cbn [find] in Hf. destruct (startswith k (c :: t)); [done|]. destruct (find k t) as [j|]; [|done].
    injection Hf as <-. by rewrite (IH j).
Qed.

Lemma contains_find k t : contains k t = true <-> exists i, find k t = Some i.
Proof. unfold contains. destruct (find k t); [|split; [done|by intros []]]. split; [by eexists|done]. Qed.

(** A prefix of a text that holds [k] holds it at its first place in the text. *)
Lemma find_in_prefix k t x i : find k (t ++ x) = Some i -> contains k t = true -> find k t = Some i.
Proof. intros Hf [j Hj]%contains_find. pose proof (find_prefix k t x j Hj) as Hp. congruence. Qed.

Lemma first_token_Some tokens t k : first_token tokens t = Some k -> k ∈ tokens /\ contains k t = true.
Proof. intros Hf. apply find_some in Hf as [Hin Hc]. split; [by apply list_elem_of_In|done]. Qed.

Lemma first_token_None tokens t : first_token tokens t = None -> forall k, k ∈ tokens -> contains k t = false.
Proof. intros Hf k Hk. by apply (find_none _ _ Hf), list_elem_of_In. Qed.

(** Text read, in the pieces the port gave. *)
Definition grown (t t' : text) : Prop := exists cs, t' = t ++ concat (map utf8_decode cs).

Lemma grown_refl t : grown t t.
Proof. exists []. cbn. by rewrite app_nil_r. Qed.
Lemma grown_snoc t t' d : grown t t' -> grown t (t' ++ utf8_decode d).
Proof. intros [cs ->]. exists (cs ++ [d]). rewrite map_app, concat_app. cbn. by rewrite app_nil_r, app_assoc. Qed.

(** What [read_until] ends with. *)
Definition read_result (tokens : list text) (timeout : Z) (t : text) (p : P) (r : res (option text * text)) (p' : P) : Prop :=
  exists o t', r = Ok (o, t') /\ grown t t' /\ weakly p p' /\ sent p' = sent p /\
    (first_token tokens t = None -> 0 < timeout -> strictly p p') /\
    match o with
    | Some k => k ∈ tokens /\ contains k t' = true
    | None => (forall k, k ∈ tokens -> contains k t' = false) /\ now p + timeout <= now p'
    end.

Lemma ends_read_until tokens timeout t p :
  ends (fun n => read_until n tokens timeout t) p (read_result tokens timeout t p).
Proof.
  unfold read_until. destruct (first_token tokens t) as [k|] eqn:Hf.
  { pose proof (first_token_Some _ _ _ Hf) as [Hin Hc]. eapply ends_now; [reflexivity|]. exists (Some k), t.
    split_and!; [done|apply grown_refl|apply weakly_refl|done|by rewrite Hf|done|done]. }
  apply ends_get. set (deadline := now p + timeout).
  apply (ends_loop _ (sooner deadline)
    (fun t' q => grown t t' /\ first_token tokens t' = None /\ weakly p q /\ sent q = sent p)).
  { apply sooner_wf. }
  { split_and!; [apply grown_refl|done|apply weakly_refl|done]. }
  intros t' q (Hg & Hn & Hle & Hs). apply ends_get. destruct (Z.ltb_spec (now q) deadline) as [Hlt|Hge].
  - apply ends_read. pose proof (read_strictly 256 q ltac:(lia)) as Hl. pose proof (sent_read 256 q) as Hsr.
    destruct (ser_read 256 q) as [[|c d] q']; cbn [fst snd] in *.
    + eapply ends_now; [reflexivity|]. cbn. split_and!; try done; [|by rewrite Hsr].
      eapply weakly_trans, strictly_weakly; eauto.
    + destruct (first_token tokens (t' ++ utf8_decode (c :: d))) as [k|] eqn:Hk; (eapply ends_now; [reflexivity|]); cbn -[utf8_decode].
      * exists (Some k), (t' ++ utf8_decode (c :: d)). apply first_token_Some in Hk as [Hin Hc].
        split_and!; [done|by apply grown_snoc| |by rewrite Hsr| |done|done].
        { eapply weakly_trans, strictly_weakly; eauto. }
        intros _ _. by eapply weakly_strictly.
      * split; [by split|]. split_and!; [by apply grown_snoc|done| |by rewrite Hsr].
        eapply weakly_trans, strictly_weakly; eauto.
  - eapply ends_now; [reflexivity|]. cbn. exists None, t'. split_and!; try done; [|by apply first_token_None].
    intros _ Hpos. left. lia.
Qed.

(** ** Draining *)

Lemma loop_keeps {S R} n (body : S -> sess (S + R)) (I : P -> Prop) s p r p' :
  (forall s p r p', I p -> body s p = Some (r, p') -> I p') -> I p -> loop n body s p = Some (r, p') -> I p'.
Proof.
  intros Hb. revert s p. induction n as [|n IH]; intros s p HI Hl; [done|]. cbn [loop] in Hl. unfold mbind, sess_bind in Hl.
  destruct (body s p) as [[r0 q]|] eqn:E; [|done]. pose proof (Hb _ _ _ _ HI E) as HI'.
  destruct r0 as [[s'|v]|e]; [by apply (IH s' q)|by injection Hl as <- <-..].
Qed.

(** Runs the primitive steps of a call in a hypothesis. *)
Ltac sess_steps Hb := unfold mbind, mret, sess_bind, sess_ret, get, act, read in Hb; cbn beta iota in Hb.

(** What draining the input leaves: time has passed, nothing was sent. *)
Lemma drain_keeps n timeout p r p' :
  drain_serial n timeout p = Some (r, p') -> now p <= now p' /\ sent p' = sent p.
Proof.
  intros Hd. unfold drain_serial in Hd. sess_steps Hd.
  apply (loop_keeps _ _ (fun q => now p <= now q /\ sent q = sent p)) in Hd; [done| |].
  - clear. intros t0 q r q' [Ht Hs] Hb. sess_steps Hb. assert (Hm : 0 <= msec 10) by (vm_compute; congruence). destruct (now q - t0 <? timeout); [|by injection Hb as <- <-].
    destruct (0 <? in_waiting q) eqn:Hw; cbn beta iota in Hb; injection Hb as <- <-.
    + pose proof (sleep_time (msec 10) (ser_read (in_waiting q) q).2 Hm) as Hsl.
      apply Z.ltb_lt in Hw. pose proof (weakly_now _ _ (strictly_weakly _ _ (read_strictly _ q Hw))).
      rewrite sent_sleep, sent_read. split; [lia|done].
    + pose proof (sleep_time (msec 10) q Hm) as Hsl. rewrite sent_sleep. split; [lia|done].
  - rewrite sent_reset. split; [apply reset_time|done].
Qed.

(** [drain_serial] leaves the port at [p0]: the device has been quiet for that long. *)
Definition drains (timeout : Z) (p p0 : P) : Prop :=
  exists n0, forall n, (n0 <= n)%nat -> drain_serial n timeout p = Some (Ok tt, p0).

Lemma ends_drain {A} timeout (g : nat -> sess A) p p0 Q :
  drains timeout p p0 -> (now p <= now p0 -> sent p0 = sent p -> ends g p0 Q) ->
  ends (fun n => drain_serial n timeout;; g n) p Q.
Proof.
  intros [n0 Hd] Hg. apply (ends_bind (fun n => drain_serial n timeout) (fun _ => g)). exists n0, (Ok tt), p0.
  split; [done|]. destruct (drain_keeps _ _ _ _ _ (Hd n0 (le_n _))) as [Ht Hs]. by apply Hg.
Qed.

(** ** The first stage's prompt *)

(** What knocking sends: Enter, or [reset] to a second stage. *)
Definition knocks (ks : list bool) : bytes := concat (map (fun k : bool => if k then [CR] else bstr "reset" ++ [CR]) ks).

Lemma knocks_snoc ks k : knocks (ks ++ [k]) = knocks ks ++ (if k then [CR] else bstr "reset" ++ [CR]).
Proof. unfold knocks. rewrite map_app, concat_app. cbn [map concat]. by rewrite app_nil_r. Qed.

(** What [enter_s1] ends with, from the port [p0] on. *)
Definition entered (prompt : text) (timeout : Z) (p0 : P) (r : res text) (p' : P) : Prop :=
  (exists t, r = Ok t /\ contains prompt t = true) \/ r = Raise TimeoutError /\ now p0 + timeout <= now p'.

Lemma ends_enter_s1 p p0 timeout :
  drains (msec 50) p p0 ->
  ends (fun n => enter_s1 n timeout true) p
    (fun r p' => entered S1_PROMPT timeout p0 r p' /\ exists ks, sent p' = sent p ++ knocks ks).
Proof.
  intros Hd. unfold enter_s1. apply (ends_drain (msec 50) _ p p0); [done|]. intros Ht Hs. apply ends_get.
  set (deadline := now p0 + timeout).
  apply (ends_loop _ (sooner deadline) (fun _ q => exists ks, sent q = sent p ++ knocks ks)).
  { apply sooner_wf. }
  { exists []. by rewrite Hs, app_nil_r. }
  intros t q [ks Hks]. apply ends_get. destruct (Z.ltb_spec (now q) deadline) as [Hlt|Hge].
  2: { eapply ends_now; [reflexivity|]. split; [right; split; [done|unfold deadline in *; lia]|]. by exists ks. }
  apply ends_write. set (q1 := ser_flush (ser_write [CR] q)). assert (Hw : weakly q q1) by apply written_weakly.
  assert (Hs1 : sent q1 = sent p ++ knocks (ks ++ [true])) by (unfold q1; by rewrite sent_written, Hks, knocks_snoc, app_assoc).
  apply (ends_bind (fun n => read_until n [S1_PROMPT; S2_PROMPT] (msec 20) [])
    (fun x n => let '(got, more) := x in _)).
  eapply ends_weaken; [apply ends_read_until|]. intros r q2 (o & more & -> & _ & Hw2 & Hs2 & Hst & Ho).
  assert (Hq : strictly q q2) by (eapply weakly_strictly; [exact Hw|apply Hst; vm_compute; reflexivity]).
  case_bool_decide as H1; [|case_bool_decide as H2].
  - eapply ends_now; [reflexivity|]. subst o. destruct Ho as [_ Hc]. split; [left|by exists (ks ++ [true]); rewrite Hs2].
    eexists. split; [done|]. by apply contains_app_r.
  - apply ends_write. eapply ends_now; [reflexivity|]. split.
    + split; [|done]. eapply strictly_weakly_trans; [exact Hq|apply written_weakly].
    + exists (ks ++ [true; false]). rewrite sent_written, Hs2, Hs1.
      change [true; false] with ([true] ++ [false]). rewrite (app_assoc ks), (knocks_snoc (ks ++ [true]) false), <- app_assoc. reflexivity.
  - eapply ends_now; [reflexivity|]. split; [by split|]. exists (ks ++ [true]). by rewrite Hs2.
Qed.

(** ** What a command prints *)

(** Reads that give the chunks [cs], each begun before [deadline]. *)
Inductive arrives (deadline : Z) : P -> list bytes -> P -> Prop :=
| arrives_nil p : arrives deadline p [] p
| arrives_read p c q cs p' :
    now p < deadline -> ser_read 256 p = (c, q) -> arrives deadline q cs p' -> arrives deadline p (c :: cs) p'.

Lemma arrives_later d d' p cs p' : d <= d' -> arrives d p cs p' -> arrives d' p cs p'.
Proof. intros Hd Ha. induction Ha; econstructor; eauto. lia. Qed.

Definition ascii_bytes (l : bytes) : bool := forallb (fun c => u8 c <? 128) l.

Lemma loop_arrives k deadline p cs p' t :
  arrives deadline p cs p' -> ascii_bytes (concat cs) = true -> contains k t = false ->
  contains k (t ++ map u8 (concat cs)) = true ->
  exists cs1 cs2 q, cs = cs1 ++ cs2 /\ arrives deadline q cs2 p' /\ weakly p q /\ sent q = sent p /\
    contains k (t ++ map u8 (concat cs1)) = true /\
    forall n, (S (length cs) <= n)%nat ->
      loop n (read_step [k] deadline) t p = Some (Ok (Some k, t ++ map u8 (concat cs1)), q).
Proof.
  intros Ha. revert t. induction Ha as [p|p c q cs p' Hlt Hr Ha IH]; intros t Hasc Hn Hc.
  { cbn in Hc. by rewrite app_nil_r, Hn in Hc. }
  cbn [concat] in *. unfold ascii_bytes in Hasc. rewrite forallb_app in Hasc. apply andb_true_iff in Hasc as [Hac Hasc].
  pose proof (read_strictly 256 p ltac:(lia)) as Hst. pose proof (sent_read 256 p) as Hsr. rewrite Hr in Hst, Hsr. cbn [fst snd] in Hst, Hsr.
  rewrite map_app, app_assoc in Hc.
  assert (Hstep : read_step [k] deadline t p =
    Some (Ok (if contains k (t ++ map u8 c) then inr (Some k, t ++ map u8 c) else inl (t ++ map u8 c)), q)).
  { unfold read_step, mbind, sess_bind, get, read. rewrite (proj2 (Z.ltb_lt _ _) Hlt). rewrite Hr. cbn [fst snd].
    destruct c as [|b c]; [by rewrite app_nil_r, Hn|]. unfold first_token. cbn [List.find]. rewrite utf8_ascii by done.
    by destruct (contains k (t ++ map u8 (b :: c))). }
  destruct (contains k (t ++ map u8 c)) eqn:Hk.
  - exists [c], cs, q. split_and!; [done|done|by apply strictly_weakly|done| |].
    + cbn [concat]. by rewrite app_nil_r.
    + intros [|n] Hle; [cbn in Hle; lia|]. cbn [loop concat]. rewrite app_nil_r. unfold mbind, sess_bind. by rewrite Hstep.
  - destruct (IH (t ++ map u8 c)) as (cs1 & cs2 & q' & -> & Ha2 & Hw & Hs & Hc1 & Hl); [done|done|done|].
    exists (c :: cs1), cs2, q'. cbn [concat]. rewrite map_app, app_assoc. split_and!; [done|done| |by rewrite Hs|done|].
    + eapply weakly_trans; [by apply strictly_weakly|done].
    + intros [|n] Hle; [cbn in Hle; lia|]. cbn [loop]. unfold mbind at 1, sess_bind at 1. rewrite Hstep. apply Hl. cbn in Hle. lia.
Qed.

Lemma ends_read_arrives k timeout p cs p' t :
  arrives (now p + timeout) p cs p' -> ascii_bytes (concat cs) = true -> contains k (t ++ map u8 (concat cs)) = true ->
  exists cs1 cs2 q, cs = cs1 ++ cs2 /\ arrives (now p + timeout) q cs2 p' /\ weakly p q /\ sent q = sent p /\
    contains k (t ++ map u8 (concat cs1)) = true /\
    ends (fun n => read_until n [k] timeout t) p (fun r p' => r = Ok (Some k, t ++ map u8 (concat cs1)) /\ p' = q).
Proof.
  intros Ha Hasc Hc. destruct (contains k t) eqn:Hk.
  - exists [], cs, p. cbn [concat map]. rewrite app_nil_r. split_and!; [done|done|apply weakly_refl|done|done|].
    eapply ends_now; [|done]. intros n. unfold read_until, first_token. cbn [List.find]. by rewrite Hk.
  - destruct (loop_arrives _ _ _ _ _ _ Ha Hasc Hk Hc) as (cs1 & cs2 & q & -> & Ha2 & Hw & Hs & Hc1 & Hl).
    exists cs1, cs2, q. split_and!; try done. exists (S (length (cs1 ++ cs2))), (Ok (Some k, t ++ map u8 (concat cs1))), q.
    split; [|done]. intros n Hn. unfold read_until, first_token. cbn [List.find]. rewrite Hk. by apply Hl.
Qed.

Lemma drop_two (a k z : text) : drop (length a + length k) (a ++ k ++ z) = z.
Proof. rewrite <- length_app, app_assoc. apply drop_app_length. Qed.

Lemma s2_reply_echo line pre reply :
  find (line ++ [10]) (pre ++ (line ++ [10]) ++ reply ++ S2_PROMPT) = Some (length pre) ->
  s2_reply (pre ++ (line ++ [10]) ++ reply ++ S2_PROMPT) line = reply.
Proof.
  intros Hf. unfold s2_reply. rewrite Hf, drop_two. unfold rfind. rewrite rev_app_distr.
  assert (H0 : find (rev S2_PROMPT) (rev S2_PROMPT ++ rev reply) = Some 0%nat).
  { destruct (rev S2_PROMPT ++ rev reply) eqn:E; [by destruct reply|]. cbn [find]. rewrite <- E. by rewrite startswith_app. }
  rewrite H0. cbn [fmap option_fmap option_map]. rewrite length_app.
  replace (length reply + length S2_PROMPT - length S2_PROMPT - 0)%nat with (length reply) by lia.
  apply take_app_length.
Qed.

(** A prefix of the reply and the prompt that holds the prompt is all of it. *)
Lemma prompt_last a x reply :
  a ++ x = reply ++ S2_PROMPT -> find S2_PROMPT (reply ++ S2_PROMPT) = Some (length reply) ->
  contains S2_PROMPT a = true -> a = reply ++ S2_PROMPT.
Proof.
  intros Heq Hf Hc. rewrite <- Heq in Hf. apply find_in_prefix in Hf; [|done].
  destruct (find_split _ _ _ Hf) as (z & Hz & Hl). assert (Hlen : length a = (length reply + length S2_PROMPT + length z)%nat)
    by (rewrite Hz at 1; rewrite !length_app, Hl; lia).
  apply (f_equal length) in Heq as Hlen2. rewrite !length_app in Hlen2. destruct x; [by rewrite app_nil_r in Heq|]. cbn [length] in Hlen2. lia.
Qed.

Lemma s2_cmd_run p p0 line lineb timeout check cs p' pre reply :
  drains (msec 50) p p0 -> utf8_encode line = Ok lineb ->
  let p1 := ser_flush (ser_write (lineb ++ [CR]) p0) in
  arrives (now p1 + timeout) p1 cs p' -> ascii_bytes (concat cs) = true ->
  map u8 (concat cs) = pre ++ (line ++ [10]) ++ reply ++ S2_PROMPT ->
  find (line ++ [10]) (pre ++ (line ++ [10]) ++ reply ++ S2_PROMPT) = Some (length pre) ->
  find S2_PROMPT (reply ++ S2_PROMPT) = Some (length reply) ->
  ends (fun n => s2_cmd n line timeout check) p
    (fun r q => r = (if check then s2_check reply else Ok reply) /\ sent q = sent p ++ lineb ++ [CR]).
Proof.
  intros Hd Henc p1 Ha Hasc Htext Hecho Hprompt. set (D := pre ++ _) in *. unfold s2_cmd.
  apply (ends_drain (msec 50) _ p p0); [done|]. intros _ Hs0.
  apply (ends_bind (fun _ => sess_res (utf8_encode line)) (fun d n => _)). eapply ends_now; [reflexivity|]. rewrite Henc.
  apply ends_write. fold p1. assert (Hs1 : sent p1 = sent p ++ lineb ++ [CR]) by (unfold p1; by rewrite sent_written, Hs0).
  destruct (ends_read_arrives (line ++ [10]) timeout p1 cs p' [] Ha Hasc) as (cs1 & cs2 & q & -> & Ha2 & Hw & Hs & Hc1 & He).
  { rewrite Htext. apply contains_find. eauto. }
  apply (ends_bind (fun n => read_until n [line ++ [10]] timeout []) (fun x n => let '(got, t) := x in _)).
  eapply ends_weaken; [exact He|]. intros r q1 [-> ->]. cbn [app] in *. clear He.
  rewrite concat_app, map_app in Htext. set (D1 := map u8 (concat cs1)) in *. set (X := map u8 (concat cs2)) in *.
  assert (Hf1 : find (line ++ [10]) D1 = Some (length pre)) by (eapply find_in_prefix; [rewrite Htext; exact Hecho|exact Hc1]).
  rewrite Hf1. cbn [default]. set (at0 := (length pre + length (line ++ [10%Z]))%nat).
  destruct (find_split _ _ _ Hf1) as (z & Hz & Hl). assert (Hat : (at0 <= length D1)%nat) by (unfold at0; rewrite Hz, !length_app, Hl; lia).
  assert (HX : drop at0 D1 ++ X = reply ++ S2_PROMPT).
  { rewrite <- drop_app_le by done. rewrite Htext. unfold D. apply drop_two. }
  unfold ascii_bytes in Hasc. rewrite concat_app, forallb_app in Hasc. apply andb_true_iff in Hasc as [_ Hasc].
  destruct (ends_read_arrives S2_PROMPT timeout q cs2 p' (drop at0 D1)) as (cs3 & cs4 & q2 & Hcs & _ & _ & Hs2 & Hc2 & He).
  { eapply arrives_later; [|exact Ha2]. apply weakly_now in Hw. lia. }
  { done. }
  { fold X. rewrite HX. apply contains_find. eauto. }
  assert (Hrest : drop at0 D1 ++ map u8 (concat cs3) = reply ++ S2_PROMPT).
  { eapply (prompt_last _ (map u8 (concat cs4))); [|done|done].
    rewrite <- app_assoc, <- map_app, <- concat_app, <- Hcs. exact HX. }
  apply (ends_bind (fun n => '(got, rest) ← read_until n [S2_PROMPT] timeout (drop at0 D1); mret (got, take at0 D1 ++ rest))
    (fun x n => let '(got, t) := x in _)).
  apply (ends_bind (fun n => read_until n [S2_PROMPT] timeout (drop at0 D1)) (fun x n => let '(got, rest) := x in _)).
  eapply ends_weaken; [exact He|]. intros r q3 [-> ->]. eapply ends_now; [reflexivity|]. rewrite Hrest.
  assert (Hall : take at0 D1 ++ reply ++ S2_PROMPT = D).
  { rewrite <- HX, app_assoc, take_drop. exact Htext. }
  rewrite Hall. pose proof (s2_reply_echo line pre reply Hecho) as Hreply. fold D in Hreply. rewrite !Hreply.
  destruct check; (eapply ends_now; [reflexivity|split; [reflexivity|by rewrite Hs2, Hs]]).
Qed.

(** ** A RAM boot *)

(** What [ram_boot] ends with, from the port [p] after the [u]: the second stage's prompt; no
    second stage; or the transfer's error with what the first stage printed up to its prompt.
    The whole wire form of the data was sent, or part of it. *)
Definition ram_booted (timeout : Z) (data : bytes) (s : bytes) (r : res text) (p' : P) : Prop :=
  let w := upload_wire data (sent_crc data None) in
  match r with
  | Ok t => exists ok rest, t = ok ++ [10] ++ rest /\ contains S2_PROMPT rest = true /\ sent p' = s ++ w
  | Raise (UploadNoStage ok rest) =>
      sent p' = s ++ w /\ (contains S2_PROMPT rest = false \/ contains S1_PROMPT rest = true)
  | Raise (UploadRefused e rest) => upload_failed e /\ exists w1, sent p' = s ++ w1 /\ w1 `prefix_of` w
  | Raise _ => False
  end.

Lemma ends_on_upload_error {A} (f : nat -> sess A) (handler : exn -> nat -> sess A) p Q :
  ends f p (fun r p' => match r with
    | Raise (UploadError _ as e) | Raise (UploadNoAnswer _ as e) => ends (handler e) p' Q
    | _ => Q r p' end) ->
  ends (fun n => on_upload_error (f n) (fun e => handler e n)) p Q.
Proof.
  intros (n0 & r & p' & Hf & HQ).
  destruct r as [v|e]; [|destruct e];
    try (eexists n0, _, p'; split; [|exact HQ]; intros n Hn; unfold on_upload_error; by rewrite Hf);
    destruct HQ as (n1 & r & q & Hh & HQ); exists (n0 `max` n1)%nat, r, q; (split; [|exact HQ]);
    intros n Hn; unfold on_upload_error; rewrite Hf by lia; apply Hh; lia.
Qed.

Lemma ends_refused {A} (e : exn) timeout p :
  ends (fun n => '(_, rest) ← read_until n [S1_PROMPT] timeout []; sess_raise (UploadRefused e (py_strip rest)) : sess A) p
    (fun r p' => (exists rest, r = Raise (UploadRefused e rest)) /\ sent p' = sent p).
Proof.
  apply (ends_bind (fun n => read_until n [S1_PROMPT] timeout []) (fun x n => let '(_, rest) := x in _)).
  eapply ends_weaken; [apply ends_read_until|]. intros r q (o & t & -> & _ & _ & Hs & _).
  eapply ends_now; [reflexivity|]. split; [by eexists|done].
Qed.

Lemma ends_ram_boot data timeout p p0 :
  len data < 2 ^ 32 -> drains (msec 50) p p0 ->
  ends (fun n => ram_boot n data timeout) p (ram_booted timeout data (sent p ++ bstr "u")).
Proof.
  intros Hlen Hd. unfold ram_boot. apply (ends_drain (msec 50) _ p p0); [done|]. intros _ Hs0. apply ends_write.
  set (p1 := ser_flush _). assert (Hs1 : sent p1 = sent p ++ bstr "u") by (unfold p1; by rewrite sent_written, Hs0).
  rewrite <- Hs1. generalize p1. clear - Hlen. intros p.
  apply (ends_bind (fun n => on_upload_error (send_upload_v2 n data timeout None) (fun e =>
      '(_, rest) ← read_until n [S1_PROMPT] timeout []; sess_raise (UploadRefused e (py_strip rest)))) (fun ok n => _)).
  apply (ends_on_upload_error (fun n => send_upload_v2 n data timeout None)
    (fun e n => '(_, rest) ← read_until n [S1_PROMPT] timeout []; sess_raise (UploadRefused e (py_strip rest)))).
  eapply ends_weaken; [apply ends_upload; [done|]|].
  { rewrite RamBoot.sent_crc_None. apply u32_binascii_crc32. }
  intros [ok|e] q Hq.
  - cbn in Hq. apply (ends_bind (fun n => read_until n [S2_PROMPT; S1_PROMPT] timeout []) (fun x n => let '(got, t) := x in _)).
    eapply ends_weaken; [apply ends_read_until|]. intros r q1 (o & t & -> & _ & _ & Hs & _ & Ho). rewrite Hq in Hs.
    case_bool_decide as H2; (eapply ends_now; [reflexivity|]).
    + subst o. exists ok, t. by destruct Ho.
    + split; [done|]. destruct o as [k|]; [right|left].
      * destruct Ho as [Hin Hc]. apply elem_of_cons in Hin as [->|Hin]; [done|]. by apply list_elem_of_singleton in Hin as ->.
      * apply Ho. by left.
  - destruct Hq as [[[l ->]|[b ->]] Hp];
      (eapply ends_weaken; [apply ends_refused|]; intros r q1 [[rest ->] Hs]; split; [first [by left; eexists|by right; eexists]|by rewrite Hs]).
Qed.

(** [read_until] always ends, whatever the port gives: with one of the tokens, in the text
    it was given with what the reads gave appended; or, when the timeout has passed, with none
    of them in the text. It sends nothing. *)
Theorem read_until_ends tokens timeout t p :
  ends (fun n => read_until n tokens timeout t) p (read_result tokens timeout t p).
Proof. apply ends_read_until. Qed.

(** Once the input has been drained, [enter_s1] ends, whatever the device does: at the
    first stage's prompt, or with a TimeoutError when the timeout has passed; and all it has
    sent is Enters and the second stage's [reset]s. *)
Theorem enter_s1_ends p p0 timeout :
  drains (msec 50) p p0 ->
  ends (fun n => enter_s1 n timeout true) p
    (fun r p' => entered S1_PROMPT timeout p0 r p' /\ exists ks, sent p' = sent p ++ knocks ks).
Proof. apply ends_enter_s1. Qed.

(** C12: [s2_cmd] gives exactly what the command printed between its echo and the next prompt,
    or raises its [ERR] line, however the port cuts the output into reads and whatever came
    before the echo; it sends the line and a carriage return. *)
Theorem s2_cmd_replies p p0 line lineb timeout check cs p' pre reply :
  drains (msec 50) p p0 -> utf8_encode line = Ok lineb ->
  let p1 := ser_flush (ser_write (lineb ++ [CR]) p0) in
  arrives (now p1 + timeout) p1 cs p' -> ascii_bytes (concat cs) = true ->
  map u8 (concat cs) = pre ++ (line ++ [10]) ++ reply ++ S2_PROMPT ->
  find (line ++ [10]) (pre ++ (line ++ [10]) ++ reply ++ S2_PROMPT) = Some (length pre) ->
  find S2_PROMPT (reply ++ S2_PROMPT) = Some (length reply) ->
  ends (fun n => s2_cmd n line timeout check) p
    (fun r q => r = (if check then s2_check reply else Ok reply) /\ sent q = sent p ++ lineb ++ [CR]).
Proof. apply s2_cmd_run. Qed.

(** C13: once the input has been drained, [ram_boot] ends, whatever the device does: at the
    second stage's prompt, and then the [u], the length, the whole image and its CRC have been
    sent; with an error after all of that when no second stage answers; or with the transfer's
    error and part of it sent. *)
Theorem ram_boot_ends data timeout p p0 :
  len data < 2 ^ 32 -> drains (msec 50) p p0 ->
  ends (fun n => ram_boot n data timeout) p (ram_booted timeout data (sent p ++ bstr "u")).
Proof. apply ends_ram_boot. Qed.

End Session.

(** ** A scripted device *)

(** A port whose reads give the chunks in turn, each 90 us after the last; then nothing. *)
Record script := mkScript { sc_now : Z; sc_in : list bytes; sc_sent : bytes }.

Definition sc_read (s : script) : bytes * script :=
  match sc_in s with
  | [] => ([], mkScript (sc_now s + 1560) [] (sc_sent s))
  | c :: cs => (c, mkScript (sc_now s + 1560) cs (sc_sent s))
  end.

#[export, program] Instance script_port : Port script := {
  now := sc_now;
  ser_read _ := sc_read;
  ser_write d s := mkScript (sc_now s) (sc_in s) (sc_sent s ++ d);
  ser_flush s := mkScript (sc_now s + 1560) (sc_in s) (sc_sent s);
  reset_input_buffer s := s;
  in_waiting _ := 0;
  sleep t s := mkScript (sc_now s + t) (sc_in s) (sc_sent s);
  backlog _ := 0%nat;
  sent := sc_sent;
}.
Solve Obligations with (intros; unfold sc_read; repeat match goal with |- context [sc_in ?s] => destruct (sc_in s) end; cbn; first [lia | reflexivity]).

#[export, program] Instance script_lines : LinePort script := { ser_read_line := sc_read }.
Solve Obligations with (intros; unfold sc_read; repeat match goal with |- context [sc_in ?s] => destruct (sc_in s) end; cbn; first [lia | reflexivity]).

(** Draining takes it five sleeps. *)
Lemma script_drains cs : drains (msec 50) (mkScript 0 cs []) (mkScript 900000 cs []).
Proof. exists 6%nat. intros n Hn. do 6 (destruct n as [|n]; [lia|]). vm_compute. reflexivity. Qed.

Lemma enter_s1_ends_witness :
  ends (fun n => enter_s1 n (msec 500) true) (mkScript 0 [[]; bstr "boot s2> "; bstr "s1> "] [])
    (fun r p' => entered S1_PROMPT (msec 500) (mkScript 900000 [[]; bstr "boot s2> "; bstr "s1> "] []) r p' /\
      exists ks, sent p' = [] ++ knocks ks).
Proof.
  exact (enter_s1_ends (mkScript 0 [[]; bstr "boot s2> "; bstr "s1> "] []) (mkScript 900000 [[]; bstr "boot s2> "; bstr "s1> "] [])
    (msec 500) (script_drains _)).
Defined.

Lemma s2_cmd_replies_witness :
  ends (fun n => s2_cmd n (txt "ls") (msec 500) true) (mkScript 0 [bstr "x l"; bstr "s" ++ [x0a]; bstr "A.TXT s2"; bstr "> "] [])
    (fun r q => r = s2_check (txt "A.TXT ") /\ sent q = [] ++ bstr "ls" ++ [CR]).
Proof.
  refine (s2_cmd_replies (mkScript 0 [bstr "x l"; bstr "s" ++ [x0a]; bstr "A.TXT s2"; bstr "> "] []) (mkScript 900000 [bstr "x l"; bstr "s" ++ [x0a]; bstr "A.TXT s2"; bstr "> "] [])
    (txt "ls") (bstr "ls") (msec 500) true [bstr "x l"; bstr "s" ++ [x0a]; bstr "A.TXT s2"; bstr "> "]
    (mkScript 907800 [] (bstr "ls" ++ [CR])) (txt "x ") (txt "A.TXT ") (script_drains _) _ _ _ _ _ _).
  - reflexivity.
  - repeat (eapply arrives_read; [vm_compute; reflexivity|vm_compute; reflexivity|]). apply arrives_nil.
  - reflexivity.
  - reflexivity.
  - reflexivity.
  - reflexivity.
Defined.

Lemma ram_boot_ends_witness :
  ends (fun n => ram_boot n (bstr "AB") (msec 500)) (mkScript 0 [bstr "[ERR] no"; bstr "s1> "] [])
    (ram_booted (msec 500) (bstr "AB") ([] ++ bstr "u")).
Proof.
  refine (ram_boot_ends (bstr "AB") (msec 500) (mkScript 0 [bstr "[ERR] no"; bstr "s1> "] []) (mkScript 900000 [bstr "[ERR] no"; bstr "s1> "] []) _ (script_drains _)). reflexivity.
Defined.
