(* ===== verification/Rv32Csr.v ===== *)
(** * The machine-mode CSRs

    emu/crates/vux9k_emu/src/csr.rs: which CSRs exist, what they read, what a write keeps, trap
    entry and return, and the interrupt taken. The CSRs keep their invariant, and a return
    undoes a trap entry. *)
From S2P Require Import Prelude Rv32Asm Models.
#[local] Open Scope Z_scope.

Definition MSTATUS : Z := 0x300.
Definition MISA : Z := 0x301.
Definition MIE : Z := 0x304.
Definition MTVEC : Z := 0x305.
Definition MENVCFG : Z := 0x30A.
Definition MENVCFGH : Z := 0x31A.
Definition MCOUNTEREN : Z := 0x306.
Definition MSCRATCH : Z := 0x340.
Definition MEPC : Z := 0x341.
Definition MCAUSE : Z := 0x342.
Definition MTVAL : Z := 0x343.
Definition MIP : Z := 0x344.
Definition MCYCLE : Z := 0xB00.
Definition MINSTRET : Z := 0xB02.
Definition MCYCLEH : Z := 0xB80.
Definition MINSTRETH : Z := 0xB82.
Definition CYCLE : Z := 0xC00.
Definition TIME : Z := 0xC01.
Definition INSTRET : Z := 0xC02.
Definition CYCLEH : Z := 0xC80.
Definition TIMEH : Z := 0xC81.
Definition INSTRETH : Z := 0xC82.

Definition MISA_VALUE : Z := 0x40101101.
Definition MISA_M : Z := Z.shiftl 1 12.
Definition MSTATUS_MIE : Z := Z.shiftl 1 3.
Definition MSTATUS_MPIE : Z := Z.shiftl 1 7.
Definition MSTATUS_MPRV : Z := Z.shiftl 1 17.
Definition MSTATUS_TW : Z := Z.shiftl 1 21.
Definition MSTATUS_MPP_M : Z := 0x1800.
Definition MSTATUS_MPP_SHIFT : Z := 11.
Definition MIP_MSIP : Z := Z.shiftl 1 3.
Definition MIP_MTIP : Z := Z.shiftl 1 7.
Definition MIP_MEIP : Z := Z.shiftl 1 11.

(** [matches!(x, ...)] of constants. *)
Definition one_of (x : Z) (l : list Z) : bool := existsb (Z.eqb x) l.

(** [exists]: the high performance counters and their events, and the listed ones. *)
Definition csr_exists (addr : Z) : bool :=
  let low := Z.land addr 0x1F in
  let hpm := (3 <=? low) && (low <=? 0x1F) && one_of (Z.shiftr addr 5) [0x19; 0x58; 0x5C] in
  hpm || one_of addr [MCOUNTEREN; MENVCFG; MENVCFGH; 0x300; 0x301; 0x304; 0x305; 0x340; 0x341; 0x342; 0x343; 0x344;
    0xB00; 0xB02; 0xB80; 0xB82; 0xC00; 0xC01; 0xC02; 0xC80; 0xC81; 0xC82; 0x310; 0xF11; 0xF12; 0xF13; 0xF14; 0xF15;
    0x7A0; 0x7A1; 0x7A2; 0x7A3; 0x320].

Definition read_only (addr : Z) : bool := Z.land (Z.shiftr addr 10) 3 =? 3.

Record Csrs := mkCsrs {
  mstatus : Z; mie : Z; mtvec : Z; mscratch : Z; mepc : Z; mcause : Z; mtval : Z; mcycle : Z; minstret : Z;
  user : bool; mpp_u : bool
}.

(** [Csrs::default]. *)
Definition csr_default : Csrs := mkCsrs 0 0 0 0 0 0 0 0 0 false false.

Definition set_mstatus v c := mkCsrs v (mie c) (mtvec c) (mscratch c) (mepc c) (mcause c) (mtval c) (mcycle c) (minstret c) (user c) (mpp_u c).
Definition set_mie v c := mkCsrs (mstatus c) v (mtvec c) (mscratch c) (mepc c) (mcause c) (mtval c) (mcycle c) (minstret c) (user c) (mpp_u c).
Definition set_mtvec v c := mkCsrs (mstatus c) (mie c) v (mscratch c) (mepc c) (mcause c) (mtval c) (mcycle c) (minstret c) (user c) (mpp_u c).
Definition set_mscratch v c := mkCsrs (mstatus c) (mie c) (mtvec c) v (mepc c) (mcause c) (mtval c) (mcycle c) (minstret c) (user c) (mpp_u c).
Definition set_mepc v c := mkCsrs (mstatus c) (mie c) (mtvec c) (mscratch c) v (mcause c) (mtval c) (mcycle c) (minstret c) (user c) (mpp_u c).
Definition set_mcause v c := mkCsrs (mstatus c) (mie c) (mtvec c) (mscratch c) (mepc c) v (mtval c) (mcycle c) (minstret c) (user c) (mpp_u c).
Definition set_mtval v c := mkCsrs (mstatus c) (mie c) (mtvec c) (mscratch c) (mepc c) (mcause c) v (mcycle c) (minstret c) (user c) (mpp_u c).
Definition set_mcycle v c := mkCsrs (mstatus c) (mie c) (mtvec c) (mscratch c) (mepc c) (mcause c) (mtval c) v (minstret c) (user c) (mpp_u c).
Definition set_minstret v c := mkCsrs (mstatus c) (mie c) (mtvec c) (mscratch c) (mepc c) (mcause c) (mtval c) (mcycle c) v (user c) (mpp_u c).

Definition u64 (x : Z) : Z := x mod 2 ^ 64.

(** [read]. *)
Definition csr_read (addr mip mtime : Z) (c : Csrs) : Z :=
  if addr =? MSTATUS then Z.lor (mstatus c) (if mpp_u c then 0 else MSTATUS_MPP_M)
  else if addr =? MISA then MISA_VALUE
  else if addr =? MIE then mie c
  else if addr =? MTVEC then mtvec c
  else if addr =? MSCRATCH then mscratch c
  else if addr =? MEPC then mepc c
  else if addr =? MCAUSE then mcause c
  else if addr =? MTVAL then mtval c
  else if addr =? MIP then mip
  else if (addr =? MCYCLE) || (addr =? CYCLE) then Emu.u32 (mcycle c)
  else if (addr =? MCYCLEH) || (addr =? CYCLEH) then Emu.u32 (Z.shiftr (mcycle c) 32)
  else if (addr =? MINSTRET) || (addr =? INSTRET) then Emu.u32 (minstret c)
  else if (addr =? MINSTRETH) || (addr =? INSTRETH) then Emu.u32 (Z.shiftr (minstret c) 32)
  else if addr =? TIME then Emu.u32 mtime
  else if addr =? TIMEH then Emu.u32 (Z.shiftr mtime 32)
  else 0.

(** A counter with its low or its high half replaced; [& !m] keeps the other bits. *)
Definition low_half (counter value : Z) : Z := Z.lor (Z.ldiff counter 0xFFFFFFFF) value.
Definition high_half (counter value : Z) : Z := Z.lor (Z.land counter 0xFFFFFFFF) (Z.shiftl value 32).

(** [write]. *)
Definition csr_write (addr value : Z) (c : Csrs) : Csrs :=
  if addr =? MSTATUS then set_mstatus (Z.land value (Z.lor MSTATUS_MIE MSTATUS_MPIE)) c
  else if addr =? MIE then set_mie (Z.land value (Z.lor (Z.lor MIP_MSIP MIP_MTIP) MIP_MEIP)) c
  else if addr =? MTVEC then set_mtvec (Z.ldiff value 3) c
  else if addr =? MSCRATCH then set_mscratch value c
  else if addr =? MEPC then set_mepc (Z.ldiff value 3) c
  else if addr =? MCAUSE then set_mcause value c
  else if addr =? MTVAL then set_mtval value c
  else if addr =? MCYCLE then set_mcycle (low_half (mcycle c) value) c
  else if addr =? MCYCLEH then set_mcycle (high_half (mcycle c) value) c
  else if addr =? MINSTRET then set_minstret (low_half (minstret c) value) c
  else if addr =? MINSTRETH then set_minstret (high_half (minstret c) value) c
  else c.

(** [write_mpp]. *)
Definition write_mpp (value : Z) (c : Csrs) : Csrs :=
  let c := set_mstatus (Z.lor (mstatus c) (Z.land value (Z.lor MSTATUS_MPRV MSTATUS_TW))) c in
  mkCsrs (mstatus c) (mie c) (mtvec c) (mscratch c) (mepc c) (mcause c) (mtval c) (mcycle c) (minstret c) (user c)
    (negb (Z.land (Z.shiftr value MSTATUS_MPP_SHIFT) 3 =? 3)).

(** [enter_trap]. *)
Definition enter_trap (pc cause tval : Z) (c : Csrs) : Csrs :=
  let mie_set := negb (Z.land (mstatus c) MSTATUS_MIE =? 0) in
  let st := Z.land (mstatus c) (Z.lor MSTATUS_MPRV MSTATUS_TW) in
  let st := Z.lor st (if mie_set then MSTATUS_MPIE else 0) in
  mkCsrs st (mie c) (mtvec c) (mscratch c) pc cause tval (mcycle c) (minstret c) false (user c).

(** [mret]. *)
Definition csr_mret (c : Csrs) : Csrs :=
  let mpie := negb (Z.land (mstatus c) MSTATUS_MPIE =? 0) in
  let st := Z.land (mstatus c) (Z.lor MSTATUS_MPRV MSTATUS_TW) in
  let st := Z.lor st (Z.lor MSTATUS_MPIE (if mpie then MSTATUS_MIE else 0)) in
  let st := if mpp_u c then Z.ldiff st MSTATUS_MPRV else st in
  mkCsrs st (mie c) (mtvec c) (mscratch c) (mepc c) (mcause c) (mtval c) (mcycle c) (minstret c) (mpp_u c) true.

Definition interrupts_on (c : Csrs) : bool := user c || negb (Z.land (mstatus c) MSTATUS_MIE =? 0).

(** [pending_interrupt]. *)
Definition pending_interrupt (mip : Z) (c : Csrs) : option Z :=
  if negb (interrupts_on c) then None
  else
    let pending := Z.land (mie c) mip in
    if negb (Z.land pending MIP_MEIP =? 0) then Some 0x8000000B
    else if negb (Z.land pending MIP_MSIP =? 0) then Some 0x80000003
    else if negb (Z.land pending MIP_MTIP =? 0) then Some 0x80000007
    else None.

(** ** What the CSRs keep *)

(** Nothing outside the mask's bits. *)
Definition within (mask x : Z) : Prop := Z.ldiff x mask = 0.
Definition MSTATUS_BITS : Z := Z.lor (Z.lor MSTATUS_MIE MSTATUS_MPIE) (Z.lor MSTATUS_MPRV MSTATUS_TW).
Definition MIE_BITS : Z := Z.lor (Z.lor MIP_MSIP MIP_MTIP) MIP_MEIP.

Definition is_u32 (x : Z) : Prop := 0 <= x < 2 ^ 32.
(** A 32-bit address of a word. *)
Definition word_aligned (x : Z) : Prop := is_u32 x /\ x mod 4 = 0.

Record csr_wf (c : Csrs) : Prop := {
  wf_mstatus : within MSTATUS_BITS (mstatus c);
  wf_mie : within MIE_BITS (mie c);
  wf_mtvec : word_aligned (mtvec c);
  wf_mscratch : is_u32 (mscratch c);
  wf_mepc : word_aligned (mepc c);
  wf_mcause : is_u32 (mcause c);
  wf_mtval : is_u32 (mtval c);
  wf_mcycle : 0 <= mcycle c < 2 ^ 64;
  wf_minstret : 0 <= minstret c < 2 ^ 64
}.

(** Reasoning bit by bit about masks: a bit of each constant is computed. *)
Lemma within_bits m x : within m x <-> forall i, 0 <= i -> Z.testbit m i = false -> Z.testbit x i = false.
Proof.
  unfold within. split.
  - intros H i Hi Hm. assert (Hb : Z.testbit (Z.ldiff x m) i = false) by (rewrite H; apply Z.bits_0).
    by rewrite Z.ldiff_spec, Hm, andb_true_r in Hb.
  - intros H. apply Z.bits_inj'. intros i Hi. rewrite Z.ldiff_spec, Z.bits_0. destruct (Z.testbit m i) eqn:Hm; [apply andb_false_r|].
    by rewrite H.
Qed.

Lemma within_land m x k : within m k -> within m (Z.land x k).
Proof. rewrite !within_bits. intros H i Hi Hm. by rewrite Z.land_spec, H, andb_false_r. Qed.
Lemma within_lor m x y : within m x -> within m y -> within m (Z.lor x y).
Proof. rewrite !within_bits. intros Hx Hy i Hi Hm. by rewrite Z.lor_spec, Hx, Hy. Qed.
Lemma within_ldiff m x y : within m x -> within m (Z.ldiff x y).
Proof. rewrite !within_bits. intros Hx i Hi Hm. by rewrite Z.ldiff_spec, Hx. Qed.
Lemma within_range m n x : 0 <= n -> 0 <= m < 2 ^ n -> within m x -> 0 <= x < 2 ^ n.
Proof.
  intros Hn Hm Hw. apply bits_range; [done|]. intros i Hi. rewrite within_bits in Hw. apply Hw; [lia|]. by apply (high_bits m n).
Qed.

Lemma u32_range x : is_u32 (Emu.u32 x).
Proof. apply Z.mod_pos_bound. lia. Qed.

Lemma u64_range x : 0 <= u64 x < 2 ^ 64.
Proof. apply Z.mod_pos_bound. lia. Qed.
Lemma ldiff3_aligned x : is_u32 x -> word_aligned (Z.ldiff x 3).
Proof.
  intros Hx. assert (He : Z.ldiff x 3 = x / 4 * 4).
  { change 3 with (Z.ones 2). rewrite Z.ldiff_ones_r, shiftr_div, shiftl_mul by lia. done. }
  rewrite He. unfold word_aligned, is_u32 in *. dlia.
Qed.

Lemma lor_range n x y : 0 <= n -> 0 <= x < 2 ^ n -> 0 <= y < 2 ^ n -> 0 <= Z.lor x y < 2 ^ n.
Proof.
  intros Hn Hx Hy. apply bits_range; [done|]. intros i Hi. by rewrite Z.lor_spec, (high_bits x n), (high_bits y n) by done.
Qed.

Lemma low_half_range c v : 0 <= c < 2 ^ 64 -> is_u32 v -> 0 <= low_half c v < 2 ^ 64.
Proof.
  intros Hc Hv. unfold is_u32 in Hv. apply lor_range; [lia| |lia]. apply bits_range; [lia|]. intros i Hi.
  by rewrite Z.ldiff_spec, (high_bits c 64).
Qed.

Lemma high_half_range c v : is_u32 v -> 0 <= high_half c v < 2 ^ 64.
Proof.
  intros Hv. unfold is_u32 in Hv. apply lor_range; [lia| |rewrite shiftl_mul by lia; lia]. rewrite (land_mask c 32) by lia. dlia.
Qed.

Lemma csr_read_range addr mip mtime c : csr_wf c -> is_u32 mip -> is_u32 (csr_read addr mip mtime c).
Proof.
  intros Hwf Hmip. destruct Hwf as [Hst Hie [Htv _] Hsc [Hep _] Hca Htl Hcy Hmi]. unfold csr_read.
  repeat match goal with |- context [if ?b then _ else _] => destruct b end;
    try apply u32_range; try done; try (unfold is_u32, MISA_VALUE, MSTATUS_MPP_M; lia).
  - rewrite Z.lor_0_r. apply (within_range MSTATUS_BITS 32); [lia|vm_compute; split; congruence|done].
  - apply lor_range; [lia| |vm_compute; split; congruence]. apply (within_range MSTATUS_BITS 32); [lia|vm_compute; split; congruence|done].
  - apply (within_range MIE_BITS 32); [lia|vm_compute; split; congruence|done].
Qed.

Lemma csr_write_wf addr value c : csr_wf c -> is_u32 value -> csr_wf (csr_write addr value c).
Proof.
  intros Hwf Hv. pose proof Hwf as [Hst Hie Htv Hsc Hep Hca Htl Hcy Hmi]. unfold csr_write.
  repeat match goal with |- context [if ?b then _ else _] => destruct b; [constructor; cbn; try done|] end; [..|done].
  all: try (by apply within_land); try (by apply ldiff3_aligned); try (by apply low_half_range); try (by apply high_half_range).
Qed.

Lemma write_mpp_wf value c : csr_wf c -> csr_wf (write_mpp value c).
Proof. intros [Hst Hie Htv Hsc Hep Hca Htl Hcy Hmi]. constructor; cbn; try done. apply within_lor; [done|]. by apply within_land. Qed.

Lemma enter_trap_wf pc cause tval c :
  csr_wf c -> word_aligned pc -> is_u32 cause -> is_u32 tval -> csr_wf (enter_trap pc cause tval c).
Proof.
  intros [Hst Hie Htv Hsc Hep Hca Htl Hcy Hmi] Hpc Hc Ht. constructor; cbn -[Z.land Z.lor]; try done.
  apply within_lor; [by apply within_land|]. by destruct (negb _).
Qed.

Lemma csr_mret_wf c : csr_wf c -> csr_wf (csr_mret c).
Proof.
  intros [Hst Hie Htv Hsc Hep Hca Htl Hcy Hmi]. constructor; cbn -[Z.land Z.lor Z.ldiff]; try done.
  destruct (mpp_u c); [apply within_ldiff|]; (apply within_lor; [by apply within_land|]); by destruct (negb _).
Qed.

Lemma csr_default_wf : csr_wf csr_default.
Proof. constructor; cbn; try done; unfold word_aligned, is_u32; lia. Qed.

(** ** A return undoes a trap entry *)

Lemma bit_one k i : 0 <= k -> 0 <= i -> Z.testbit (Z.shiftl 1 k) i = (i =? k).
Proof.
  intros Hk Hi. rewrite Z.shiftl_spec by done. destruct (Z.eqb_spec i k) as [->|Hne]; [by rewrite Z.sub_diag|].
  destruct (Z.ltb_spec i k); [by rewrite Z.testbit_neg_r by lia|]. replace (i - k) with (Z.succ (i - k - 1)) by lia.
  change 1 with (2 * 0 + 1). by rewrite Z.testbit_odd_succ, Z.bits_0 by lia.
Qed.

(** The test of a bit by its mask. *)
Lemma bit_test x k : 0 <= k -> negb (Z.land x (Z.shiftl 1 k) =? 0) = Z.testbit x k.
Proof.
  intros Hk. destruct (Z.testbit x k) eqn:Hx.
  - apply negb_true_iff, Z.eqb_neq. intros H. apply (f_equal (fun z => Z.testbit z k)) in H.
    by rewrite Z.land_spec, Hx, bit_one, Z.eqb_refl, Z.bits_0 in H by lia.
  - apply negb_false_iff, Z.eqb_eq, Z.bits_inj'. intros i Hi. rewrite Z.land_spec, bit_one, Z.bits_0 by lia.
    destruct (Z.eqb_spec i k) as [->|]; [by rewrite Hx|apply andb_false_r].
Qed.

Lemma bit_if (b : bool) m i : Z.testbit (if b then m else 0) i = b && Z.testbit m i.
Proof. destruct b; [done|]. by rewrite Z.bits_0. Qed.

Ltac csr_bits :=
  repeat first [rewrite Z.lor_spec | rewrite Z.land_spec | rewrite Z.ldiff_spec | rewrite bit_if | rewrite bit_one by lia].

(** MIE and the privilege as before, MPIE set, MPP the least mode, MPRV cleared on a return to
    U-mode. *)
Lemma mret_enter_trap pc cause tval c :
  csr_wf c ->
  csr_mret (enter_trap pc cause tval c) =
  mkCsrs (Z.lor (Z.ldiff (Z.ldiff (mstatus c) MSTATUS_MPIE) (if user c then MSTATUS_MPRV else 0)) MSTATUS_MPIE)
    (mie c) (mtvec c) (mscratch c) pc cause tval (mcycle c) (minstret c) (user c) true.
Proof.
  intros [Hst _ _ _ _ _ _ _ _]. rewrite within_bits in Hst. unfold csr_mret. cbn [mstatus enter_trap mie mtvec mscratch mepc mcause mtval mcycle minstret mpp_u].
  unfold MSTATUS_BITS, MSTATUS_MIE, MSTATUS_MPIE, MSTATUS_MPRV, MSTATUS_TW in *. rewrite !bit_test by lia.
  f_equal. set (x := mstatus c) in *.
  set (e := Z.lor (Z.land x _) (if Z.testbit x 3 then _ else 0)).
  assert (He : forall i, 0 <= i -> Z.testbit e i = (Z.testbit x i && ((i =? 17) || (i =? 21))) || (Z.testbit x 3 && (i =? 7))) by (intros i Hi; unfold e; by csr_bits).
  apply Z.bits_inj'. intros i Hi. specialize (Hst i Hi).
  assert (Hrest : Z.testbit x i = true -> (i =? 3) || (i =? 7) || ((i =? 17) || (i =? 21)) = true).
  { intros Hx. destruct (_ || _) eqn:Ho; [done|]. rewrite Hst in Hx; [done|]. by csr_bits. }
  assert (Hx7 : Z.testbit e 7 = Z.testbit x 3) by (rewrite He by lia; change ((7 =? 17) || (7 =? 21)) with false; change (7 =? 7) with true; by rewrite andb_false_r, andb_true_r).
  assert (Hlast : Z.testbit (if user c then Z.ldiff (Z.lor (Z.land e (Z.lor (Z.shiftl 1 17) (Z.shiftl 1 21))) (Z.lor (Z.shiftl 1 7) (if Z.testbit e 7 then Z.shiftl 1 3 else 0))) (Z.shiftl 1 17)
      else Z.lor (Z.land e (Z.lor (Z.shiftl 1 17) (Z.shiftl 1 21))) (Z.lor (Z.shiftl 1 7) (if Z.testbit e 7 then Z.shiftl 1 3 else 0))) i =
    ((Z.testbit e i && ((i =? 17) || (i =? 21))) || ((i =? 7) || (Z.testbit x 3 && (i =? 3)))) && negb (user c && (i =? 17))).
  { rewrite Hx7. destruct (user c); csr_bits; [done|]. by rewrite andb_true_r. }
  rewrite Hlast, He by lia. clear Hlast Hx7 He. clearbody x.
  assert (Hr : Z.testbit (Z.lor (Z.ldiff (Z.ldiff x (Z.shiftl 1 7)) (if user c then Z.shiftl 1 17 else 0)) (Z.shiftl 1 7)) i =
    (Z.testbit x i && negb (i =? 7) && negb (user c && (i =? 17))) || (i =? 7)) by (by csr_bits).
  rewrite Hr. clear Hr.
  destruct (Z.eqb_spec i 3) as [->|]; [|destruct (Z.eqb_spec i 7) as [->|]; [|destruct (Z.eqb_spec i 17) as [->|]; [|destruct (Z.eqb_spec i 21) as [->|]]]];
    cbn -[Z.testbit] in *; [by destruct (Z.testbit x 3), (user c)|by destruct (user c), (Z.testbit x 7), (Z.testbit x 3)|
      by destruct (Z.testbit x 17), (user c), (Z.testbit x 3)|by destruct (Z.testbit x 21), (user c), (Z.testbit x 3)|].
  destruct (Z.testbit x i); [by specialize (Hrest eq_refl)|]. by destruct (Z.testbit x 3), (user c).
Qed.
