(* ===== verification/Rv32Cpu.v ===== *)
(** * The emulator's RV32 CPU

    emu/crates/vux9k_emu/src/soc.rs: one RV32IMA instruction ([step_rv], [exec_csr],
    [exec_amo]) and one step of the CPU, over the memory and the peripherals as an interface;
    and the flat memory of the riscv-tests profile, which implements it. The CPU keeps its
    registers and addresses in range, and a trap leaves everything it doesn't name alone.
    Hack mode, the GPIO's soft reset and the coverage record are not modelled here. *)
From S2P Require Import Prelude Rv32Asm Models Rv32Csr.
#[local] Open Scope Z_scope.

(** ** The bus *)

(** What the CPU asks of the rest of the SoC: a fetch and the cycles it waits; a load's wait
    and the word at an address, by the instruction fetched in cycle [t]; a store of the lanes
    [be] and its wait; the interrupt lines and the timer in a cycle. Words are 32 bits while
    [bus_ok] holds, and nothing asked ends it. *)
Class Bus (B : Type) := {
  fetch : Z -> B -> Z * Z * B;
  rv_load_wait : Z -> B -> Z * B;
  rv_read_word : Z -> Z -> B -> Z * B;
  rv_write : Z -> Z -> Z -> Z -> B -> Z * B;
  meip : Z -> B -> bool;
  msip : Z -> B -> bool;
  mtip : Z -> B -> bool;
  mtime : Z -> B -> Z;
  bus_ok : B -> Prop;
  fetch_ok pc b : bus_ok b -> is_u32 (fetch pc b).1.1 /\ 0 <= (fetch pc b).1.2 /\ bus_ok (fetch pc b).2;
  load_wait_ok addr b : bus_ok b -> bus_ok (rv_load_wait addr b).2;
  read_ok addr t b : bus_ok b -> is_u32 (rv_read_word addr t b).1 /\ bus_ok (rv_read_word addr t b).2;
  write_ok addr data be t b : bus_ok b -> is_u32 data -> bus_ok (rv_write addr data be t b).2;
}.

(** What one instruction did. *)
Record Retire := mkRetire {
  r_cycle : Z; r_pc : Z; r_instr : Z; r_rd : option (Z * Z); r_store : option (Z * Z * Z);
  r_trap : option Z; r_branch_taken : option bool; r_cycles : Z
}.
Definition r_set_rd v r := mkRetire (r_cycle r) (r_pc r) (r_instr r) v (r_store r) (r_trap r) (r_branch_taken r) (r_cycles r).
Definition r_set_store v r := mkRetire (r_cycle r) (r_pc r) (r_instr r) (r_rd r) v (r_trap r) (r_branch_taken r) (r_cycles r).
Definition r_set_trap v r := mkRetire (r_cycle r) (r_pc r) (r_instr r) (r_rd r) (r_store r) v (r_branch_taken r) (r_cycles r).
Definition r_set_branch v r := mkRetire (r_cycle r) (r_pc r) (r_instr r) (r_rd r) (r_store r) (r_trap r) v (r_cycles r).
Definition r_set_cycles v r := mkRetire (r_cycle r) (r_pc r) (r_instr r) (r_rd r) (r_store r) (r_trap r) (r_branch_taken r) v.
Definition r_set_instr v r := mkRetire (r_cycle r) (r_pc r) v (r_rd r) (r_store r) (r_trap r) (r_branch_taken r) (r_cycles r).

Definition OP_LUI : Z := 0x37.
Definition OP_AUIPC : Z := 0x17.
Definition OP_JAL : Z := 0x6F.
Definition OP_JALR : Z := 0x67.
Definition OP_BRANCH : Z := 0x63.
Definition OP_LOAD : Z := 0x03.
Definition OP_STORE : Z := 0x23.
Definition OP_IMM : Z := 0x13.
Definition OP_REG : Z := 0x33.
Definition OP_FENCE : Z := 0x0F.
Definition OP_SYSTEM : Z := 0x73.
Definition OP_AMO : Z := 0x2F.

Definition AMO_ADD : Z := 0x00.
Definition AMO_SWAP : Z := 0x01.
Definition AMO_LR : Z := 0x02.
Definition AMO_SC : Z := 0x03.
Definition AMO_XOR : Z := 0x04.
Definition AMO_OR : Z := 0x08.
Definition AMO_AND : Z := 0x0C.
Definition AMO_MIN : Z := 0x10.
Definition AMO_MAX : Z := 0x14.
Definition AMO_MINU : Z := 0x18.
Definition AMO_MAXU : Z := 0x1C.

Definition MULDIV_WAIT_CYCLES : Z := 33.

(** [Legal]. *)
Record Legal := mkLegal { l_m_ext : bool; l_user : bool; l_tw : bool }.

Definition rv_illegal (i : Z) (x : Legal) : bool :=
  let f3 := Field.funct3 i in
  let f7 := Field.funct7 i in
  let op := Z.land i 0x7F in
  if one_of op [OP_LUI; OP_AUIPC; OP_JAL] then false
  else if op =? OP_JALR then negb (f3 =? 0)
  else if op =? OP_BRANCH then Z.shiftr f3 1 =? 1
  else if op =? OP_LOAD then (f3 =? 3) || (Z.shiftr f3 1 =? 3)
  else if op =? OP_STORE then negb (Z.land f3 4 =? 0) || (Z.land f3 3 =? 3)
  else if op =? OP_IMM then
    if f3 =? 1 then negb (f7 =? 0)
    else if f3 =? 5 then negb (f7 =? 0) && negb (f7 =? 0x20)
    else false
  else if op =? OP_REG then
    negb ((f7 =? 0) || (l_m_ext x && (f7 =? 1)) || ((f7 =? 0x20) && ((f3 =? 0) || (f3 =? 5))))
  else if op =? OP_AMO then
    let f5 := Z.shiftr i 27 in
    let known := one_of f5 [AMO_ADD; AMO_SWAP; AMO_LR; AMO_SC; AMO_XOR; AMO_OR; AMO_AND; AMO_MIN; AMO_MAX; AMO_MINU; AMO_MAXU] in
    negb (f3 =? 2) || negb known || ((f5 =? AMO_LR) && negb (Field.rs2 i =? 0))
  else if op =? OP_FENCE then negb (Z.shiftr f3 1 =? 0)
  else if op =? OP_SYSTEM then
    if f3 =? 0 then
      negb (one_of i [0x00000073; 0x00100073; 0x30200073; 0x10500073])
      || (l_user x && (i =? 0x30200073)) || (l_user x && (i =? 0x10500073) && l_tw x)
    else
      let addr := Z.land (Z.shiftr i 20) 0xFFFF in
      let writes := (Z.land f3 3 =? 1) || negb (Field.rs1 i =? 0) in
      let denied := l_user x && ((Z.land (Z.shiftr addr 8) 3 =? 3) || one_of (Z.land addr 0xF7F) [0xC00; 0xC01; 0xC02]) in
      (f3 =? 4) || (read_only addr && writes) || negb (csr_exists addr) || denied
  else true.

Definition misaligned (addr f3 : Z) : bool :=
  let k := Z.land f3 3 in
  if k =? 1 then negb (Z.land addr 1 =? 0) else if k =? 2 then negb (Z.land addr 3 =? 0) else false.

(** [as u8 as i8 as i32 as u32] and the like: the low [n] bits, their sign extended. *)
Definition sign_extend (n v : Z) : Z :=
  let v := v mod 2 ^ n in if v <? 2 ^ (n - 1) then v else Emu.u32 (v - 2 ^ n).

(** A load's value from its word. *)
Definition load_value (f3 addr word : Z) : Z :=
  let sh := Z.land addr 3 * 8 in
  if f3 =? 0 then sign_extend 8 (Z.shiftr word sh)
  else if f3 =? 4 then Z.land (Z.shiftr word sh) 0xFF
  else if f3 =? 1 then sign_extend 16 (Z.shiftr word (Z.land sh 16))
  else if f3 =? 5 then Z.land (Z.shiftr word (Z.land sh 16)) 0xFFFF
  else word.

(** A store's data, replicated over the lanes, and its byte enables. *)
Definition store_data (f3 addr x2 : Z) : Z * Z :=
  let lane := Z.land addr 3 in
  if f3 =? 0 then (Z.land x2 0xFF * 0x01010101, Z.shiftl 1 lane)
  else if f3 =? 1 then (Z.land x2 0xFFFF * 0x00010001, if Z.land lane 2 =? 0 then 3 else 12)
  else (x2, 15).

(** A branch's condition. *)
Definition branch_taken (f3 x1 x2 : Z) : bool :=
  if f3 =? 0 then x1 =? x2
  else if f3 =? 1 then negb (x1 =? x2)
  else if f3 =? 4 then Emu.i32 x1 <? Emu.i32 x2
  else if f3 =? 5 then Emu.i32 x2 <=? Emu.i32 x1
  else if f3 =? 6 then x1 <? x2
  else x2 <=? x1.

(** What an AMO stores. *)
Definition amo_value (f5 old src : Z) : Z :=
  if f5 =? AMO_SWAP then src
  else if f5 =? AMO_ADD then Emu.u32 (old + src)
  else if f5 =? AMO_XOR then Z.lxor old src
  else if f5 =? AMO_AND then Z.land old src
  else if f5 =? AMO_OR then Z.lor old src
  else if f5 =? AMO_MIN then Emu.u32 (Z.min (Emu.i32 old) (Emu.i32 src))
  else if f5 =? AMO_MAX then Emu.u32 (Z.max (Emu.i32 old) (Emu.i32 src))
  else if f5 =? AMO_MINU then Z.min old src
  else Z.max old src.

Section Cpu.
Context {B : Type} `{Bus B}.

(** The CPU's part of [Soc] and the rest as its bus. [mcycle_written] is the value a CSR write
    in this instruction gives mcycle. *)
Record cpu := mkCpu {
  cycle : Z; regs : list Z; pc : Z; csr : Csrs; reservation : option Z; mcycle_written : option Z; m_ext : bool; bus : B
}.
Definition set_cycle v s := mkCpu v (regs s) (pc s) (csr s) (reservation s) (mcycle_written s) (m_ext s) (bus s).
Definition set_regs v s := mkCpu (cycle s) v (pc s) (csr s) (reservation s) (mcycle_written s) (m_ext s) (bus s).
Definition set_pc v s := mkCpu (cycle s) (regs s) v (csr s) (reservation s) (mcycle_written s) (m_ext s) (bus s).
Definition set_csr v s := mkCpu (cycle s) (regs s) (pc s) v (reservation s) (mcycle_written s) (m_ext s) (bus s).
Definition set_reservation v s := mkCpu (cycle s) (regs s) (pc s) (csr s) v (mcycle_written s) (m_ext s) (bus s).
Definition set_mcycle_written v s := mkCpu (cycle s) (regs s) (pc s) (csr s) (reservation s) v (m_ext s) (bus s).
Definition set_bus v s := mkCpu (cycle s) (regs s) (pc s) (csr s) (reservation s) (mcycle_written s) (m_ext s) v.

(** [self.regs[n]]. *)
Definition xr (n : Z) (s : cpu) : Z := nth (Z.to_nat n) (regs s) 0.

(** The state and what the instruction has done so far. *)
Definition outcome : Type := cpu * Retire.

Definition write_rd (rd v : Z) (o : outcome) : outcome :=
  let '(s, r) := o in
  if rd =? 0 then o else (set_regs (<[Z.to_nat rd := v]> (regs s)) s, r_set_rd (Some (rd, v)) r).

Definition take_trap (cause tval : Z) (o : outcome) : outcome :=
  let '(s, r) := o in
  let s := set_reservation None (set_csr (enter_trap (pc s) cause tval (csr s)) s) in
  (set_pc (mtvec (csr s)) s, r_set_cycles 2 (r_set_trap (Some cause) r)).

(** [mip_at] the current cycle, and [sample_interrupt]. *)
Definition mip (s : cpu) : Z :=
  Z.lor (Z.lor (if mtip (cycle s) (bus s) then MIP_MTIP else 0) (if meip (cycle s) (bus s) then MIP_MEIP else 0))
    (if msip (cycle s) (bus s) then MIP_MSIP else 0).

Definition sample_interrupt (s : cpu) : option Z :=
  let enabled := mie (csr s) in
  let line bit on := if negb (Z.land enabled bit =? 0) && on then bit else 0 in
  if negb (interrupts_on (csr s)) || (enabled =? 0) then None
  else pending_interrupt (Z.lor (Z.lor (line MIP_MEIP (meip (cycle s) (bus s))) (line MIP_MSIP (msip (cycle s) (bus s))))
    (line MIP_MTIP (mtip (cycle s) (bus s)))) (csr s).

(** [exec_csr]; whether the instruction counts as retired itself. *)
Definition exec_csr (i : Z) (o : outcome) : outcome * bool :=
  let '(s, r) := o in
  let addr := Z.land (Z.shiftr i 20) 0xFFFF in
  let f3 := Field.funct3 i in
  let at_execute := set_mcycle (u64 (mcycle (csr s) + 1)) (csr s) in
  let old := csr_read addr (mip s) (u64 (mtime (cycle s) (bus s) + 1)) at_execute in
  let old := if (addr =? MISA) && negb (m_ext s) then Z.ldiff old MISA_M else old in
  let src := if negb (Z.land f3 4 =? 0) then Field.rs1 i else xr (Field.rs1 i) s in
  let writes := (Z.land f3 3 =? 1) || negb (Field.rs1 i =? 0) in
  let value := if Z.land f3 3 =? 1 then src else if Z.land f3 3 =? 2 then Z.lor old src else Z.ldiff old src in
  let '(s, counts) :=
    if negb writes then (s, true)
    else if (addr =? MCYCLE) || (addr =? MCYCLEH) then (set_mcycle_written (Some (mcycle (csr_write addr value at_execute))) s, true)
    else if (addr =? MINSTRET) || (addr =? MINSTRETH) then (set_csr (csr_write addr value (csr s)) s, false)
    else if addr =? MSTATUS then (set_csr (write_mpp value (csr_write addr value (csr s))) s, true)
    else (set_csr (csr_write addr value (csr s)) s, true) in
  (write_rd (Field.rd i) old (s, r), counts).

(** [exec_amo]; the cause of the trap taken instead. *)
Definition exec_amo (i : Z) (o : outcome) : option Z * outcome :=
  let '(s, r) := o in
  let f5 := Z.shiftr i 27 in
  let addr := xr (Field.rs1 i) s in
  if negb (Z.land addr 3 =? 0) then (Some (if f5 =? AMO_LR then 4 else 6), o)
  else
    let src := xr (Field.rs2 i) s in
    let t := cycle s in
    if f5 =? AMO_SC then
      let ok := bool_decide (reservation s = Some addr) in
      let s := set_reservation None s in
      let r := r_set_cycles 2 r in
      let '(s, r) := if ok then
          let '(wait, b) := rv_write addr src 15 t (bus s) in
          (set_bus b s, r_set_store (Some (addr, src, 15)) (r_set_cycles (3 + wait) r))
        else (s, r) in
      (None, write_rd (Field.rd i) (Z.b2z (negb ok)) (s, r))
    else
      let '(read_wait, b) := rv_load_wait addr (bus s) in
      let '(old, b) := rv_read_word addr t b in
      let s := set_bus b s in
      let r := r_set_cycles (3 + read_wait) r in
      if f5 =? AMO_LR then (None, write_rd (Field.rd i) old (set_reservation (Some addr) s, r))
      else
        let new := amo_value f5 old src in
        let '(write_wait, b) := rv_write addr new 15 (t + r_cycles r) (bus s) in
        let r := r_set_store (Some (addr, new, 15)) (r_set_cycles (r_cycles r + 2 + write_wait) r) in
        (None, write_rd (Field.rd i) old (set_bus b s, r)).

(** The end of [step_rv]: the count of retired instructions and the next pc. *)
Definition finish (next : Z) (retired : bool) (o : outcome) : outcome :=
  let '(s, r) := o in
  let s := if retired then set_csr (set_minstret (u64 (minstret (csr s) + 1)) (csr s)) s else s in
  (set_pc next s, r).

(** A jump to [target], with the link or the condition recorded in [o']; a trap when it isn't
    a word's address. *)
Definition jump (target : Z) (o o' : outcome) : outcome :=
  if negb (Z.land target 2 =? 0) then take_trap 0 target o else finish target true o'.

(** [step_rv] of a legal instruction. *)
Definition exec (i : Z) (o : outcome) : outcome :=
  let '(s, r) := o in
  let op := Z.land i 0x7F in
  let f3 := Field.funct3 i in
  let rd := Field.rd i in
  let x1 := xr (Field.rs1 i) s in
  let x2 := xr (Field.rs2 i) s in
  let link := Emu.u32 (pc s + 4) in
  let r := r_set_cycles 2 r in
  if (op =? OP_REG) && (Field.funct7 i =? 1) then
    finish link true (write_rd rd (Emu.muldiv f3 x1 x2) (s, r_set_cycles (2 + MULDIV_WAIT_CYCLES) r))
  else if (op =? OP_IMM) || (op =? OP_REG) then
    let b := if op =? OP_IMM then Field.imm_i i else x2 in
    let sub := (op =? OP_REG) && (Field.funct7 i =? 0x20) in
    finish link true (write_rd rd (Emu.alu f3 sub (negb (Z.land (Field.funct7 i) 0x20 =? 0)) x1 b) (s, r))
  else if op =? OP_LUI then finish link true (write_rd rd (Field.imm_u i) (s, r))
  else if op =? OP_AUIPC then finish link true (write_rd rd (Emu.u32 (pc s + Field.imm_u i)) (s, r))
  else if op =? OP_JAL then jump (Emu.u32 (pc s + Field.imm_j i)) (s, r) (write_rd rd link (s, r))
  else if op =? OP_JALR then jump (Z.ldiff (Emu.u32 (x1 + Field.imm_i i)) 1) (s, r) (write_rd rd link (s, r))
  else if op =? OP_BRANCH then
    let take := branch_taken f3 x1 x2 in
    let r' := r_set_branch (Some take) r in
    if take then jump (Emu.u32 (pc s + Field.imm_b i)) (s, r) (s, r') else finish link true (s, r')
  else if op =? OP_LOAD then
    let addr := Emu.u32 (x1 + Field.imm_i i) in
    if misaligned addr f3 then take_trap 4 addr (s, r)
    else
      let '(wait, b) := rv_load_wait addr (bus s) in
      let '(word, b) := rv_read_word addr (cycle s) b in
      finish link true (write_rd rd (load_value f3 addr word) (set_bus b s, r_set_cycles (3 + wait) r))
  else if op =? OP_STORE then
    let addr := Emu.u32 (x1 + Field.imm_s i) in
    if misaligned addr f3 then take_trap 6 addr (s, r)
    else
      let '(data, be) := store_data f3 addr x2 in
      let '(wait, b) := rv_write addr data be (cycle s) (bus s) in
      finish link true (set_bus b s, r_set_store (Some (addr, data, be)) (r_set_cycles (3 + wait) r))
  else if op =? OP_AMO then
    let '(trap, o) := exec_amo i (s, r) in
    match trap with Some cause => take_trap cause x1 o | None => finish link true o end
  else if op =? OP_SYSTEM then
    if f3 =? 0 then
      if i =? 0x00000073 then take_trap (if user (csr s) then 8 else 11) 0 (s, r)
      else if i =? 0x00100073 then take_trap 3 (pc s) (s, r)
      else if i =? 0x30200073 then
        let s := set_csr (csr_mret (csr s)) s in finish (mepc (csr s)) true (s, r)
      else finish link true (s, r)
    else let '(o, counts) := exec_csr i (s, r) in finish link counts o
  else finish link true (s, r).

(** [step_rv]. *)
Definition step_rv (i : Z) (irq : option Z) (o : outcome) : outcome :=
  let '(s, r) := o in
  let r := r_set_instr i r in
  match irq with
  | Some cause => take_trap cause 0 (s, r)
  | None =>
      let legal := mkLegal (m_ext s) (user (csr s)) (negb (Z.land (mstatus (csr s)) MSTATUS_TW =? 0)) in
      if rv_illegal i legal then take_trap 2 i (s, r) else exec i (s, r)
  end.

(** [step] in RV32 mode. *)
Definition step (s : cpu) : outcome :=
  let start := cycle s in
  let '(word, wait, b) := fetch (pc s) (bus s) in
  let s := set_bus b s in
  let s := set_csr (set_mcycle (u64 (mcycle (csr s) + wait)) (csr s)) (set_cycle (cycle s + wait) s) in
  let r := mkRetire start (pc s) 0 None None None None 0 in
  let '(s, r) := step_rv word (sample_interrupt s) (s, r) in
  let s := match mcycle_written s with
    | Some v => set_mcycle_written None (set_csr (set_mcycle v (csr s)) s)
    | None => set_csr (set_mcycle (u64 (mcycle (csr s) + r_cycles r)) (csr s)) s end in
  (set_cycle (cycle s + r_cycles r) s, r_set_cycles (r_cycles r + wait) r).

(** Steps: the state after [n] and what they did. *)
Fixpoint steps (n : nat) (s : cpu) : list Retire * cpu :=
  match n with
  | O => ([], s)
  | S n => let '(s, r) := step s in let '(rs, s) := steps n s in (r :: rs, s)
  end.

(** Power-on: the state [reset] leaves, on a bus. *)
Definition power_on (b : B) : cpu := mkCpu 0 (replicate 32 0) 0 csr_default None None true b.

(** ** The CPU's invariant *)

Record cpu_wf (s : cpu) : Prop := {
  wf_regs : length (regs s) = 32%nat;
  wf_values : Forall is_u32 (regs s);
  wf_x0 : xr 0 s = 0;
  wf_pc : word_aligned (pc s);
  wf_csr : csr_wf (csr s);
  wf_written : match mcycle_written s with Some v => 0 <= v < 2 ^ 64 | None => True end;
  wf_bus : bus_ok (bus s)
}.

Lemma xr_range n s : cpu_wf s -> is_u32 (xr n s).
Proof.
  intros Hwf. unfold xr. destruct (nth_in_or_default (Z.to_nat n) (regs s) 0) as [Hin | ->]; [|unfold is_u32; lia].
  pose proof (wf_values _ Hwf) as Hf. rewrite List.Forall_forall in Hf. by apply Hf.
Qed.

Lemma rd_range i : 0 <= Field.rd i < 32.
Proof. unfold Field.rd. rewrite (land_mask _ 5) by lia. apply Z.mod_pos_bound. lia. Qed.

Lemma rs1_range i : 0 <= Field.rs1 i < 32.
Proof. unfold Field.rs1. rewrite (land_mask _ 5) by lia. apply Z.mod_pos_bound. lia. Qed.

Lemma nth_insert_ne (n m : nat) (v d : Z) l : n <> m -> nth n (<[m := v]> l) d = nth n l d.
Proof. intros Hne. by rewrite !nth_lookup, list_lookup_insert_ne. Qed.

Lemma nth_insert_eq (n : nat) (v d : Z) l : (n < length l)%nat -> nth n (<[n := v]> l) d = v.
Proof. intros Hl. by rewrite nth_lookup, list_lookup_insert_eq. Qed.

(** Reading the register file after a write. *)
Lemma xr_write_rd n rd v o :
  0 <= n < 32 -> 0 <= rd < 32 -> length (regs o.1) = 32%nat ->
  xr n (write_rd rd v o).1 = if negb (rd =? 0) && (n =? rd) then v else xr n o.1.
Proof.
  intros Hn Hrd Hl. destruct o as [s r]. unfold write_rd. cbn [fst] in *. destruct (Z.eqb_spec rd 0) as [->|Hne]; cbn [negb andb]; [done|].
  unfold xr. cbn [fst regs set_regs]. destruct (Z.eqb_spec n rd) as [->|Hne2].
  - apply nth_insert_eq. lia.
  - apply nth_insert_ne. lia.
Qed.

Lemma write_rd_wf rd v o : cpu_wf o.1 -> 0 <= rd < 32 -> is_u32 v -> cpu_wf (write_rd rd v o).1.
Proof.
  intros Hwf Hrd Hv. destruct o as [s r]. pose proof (xr_write_rd 0 rd v (s, r) ltac:(lia) Hrd (wf_regs _ Hwf)) as H0.
  cbn [fst] in *. destruct Hwf as [Hl Hf Hx Hpc Hcsr Hw Hb]. unfold write_rd in *. destruct (Z.eqb_spec rd 0) as [->|Hne]; [by constructor|].
  cbn [fst] in *. constructor; cbn [regs set_regs pc csr mcycle_written bus]; try done.
  - by rewrite length_insert.
  - by apply Forall_insert.
  - rewrite H0. destruct (Z.eqb_spec 0 rd); [lia|]. by rewrite andb_false_r.
Qed.

Lemma take_trap_wf cause tval o : cpu_wf o.1 -> is_u32 cause -> is_u32 tval -> cpu_wf (take_trap cause tval o).1.
Proof.
  intros [Hl Hf Hx Hpc Hcsr Hw Hb] Hc Ht. destruct o as [s r]. cbn [fst] in *. pose proof (enter_trap_wf (pc s) cause tval (csr s) Hcsr Hpc Hc Ht) as He.
  constructor; cbn -[enter_trap]; try done. apply He.
Qed.

Lemma set_mcycle_wf v c : 0 <= v < 2 ^ 64 -> csr_wf c -> csr_wf (set_mcycle v c).
Proof. intros Hv []. by constructor. Qed.
Lemma set_minstret_wf v c : 0 <= v < 2 ^ 64 -> csr_wf c -> csr_wf (set_minstret v c).
Proof. intros Hv []. by constructor. Qed.
Lemma set_csr_wf c s : csr_wf c -> cpu_wf s -> cpu_wf (set_csr c s).
Proof. intros Hc []. by constructor. Qed.
Lemma set_bus_wf b s : bus_ok b -> cpu_wf s -> cpu_wf (set_bus b s).
Proof. intros Hb []. by constructor. Qed.
Lemma set_reservation_wf v s : cpu_wf s -> cpu_wf (set_reservation v s).
Proof. intros []. by constructor. Qed.
Lemma set_cycle_wf v s : cpu_wf s -> cpu_wf (set_cycle v s).
Proof. intros []. by constructor. Qed.

Lemma finish_wf next retired o : cpu_wf o.1 -> word_aligned next -> cpu_wf (finish next retired o).1.
Proof.
  intros Hwf Hn. destruct o as [s r]. cbn [fst] in *. pose proof Hwf as [Hl Hf Hx Hpc Hcsr Hw Hb].
  unfold finish. destruct retired; cbn [fst]; constructor; cbn -[u64]; try done. apply set_minstret_wf; [apply u64_range|done].
Qed.

(** An even address whose bit 1 is clear is a word's. *)
Lemma target_aligned t : is_u32 t -> t mod 2 = 0 -> Z.land t 2 = 0 -> word_aligned t.
Proof. intros Ht He Hb. split; [done|]. rewrite (land_masked t 2 1 1) in Hb by lia. dlia. Qed.

Lemma jump_wf t o o' :
  cpu_wf o.1 -> cpu_wf o'.1 -> is_u32 t -> t mod 2 = 0 -> cpu_wf (jump t o o').1.
Proof.
  intros Ho Ho' Ht He. unfold jump. destruct (Z.eqb_spec (Z.land t 2) 0) as [Hb|]; cbn [negb].
  - apply finish_wf; [done|]. by apply target_aligned.
  - apply take_trap_wf; [done|unfold is_u32; lia|done].
Qed.

Lemma imm_ranges i : is_u32 i -> is_u32 (Field.imm_i i) /\ is_u32 (Field.imm_u i) /\ Field.imm_b i mod 2 = 0 /\ Field.imm_j i mod 2 = 0.
Proof.
  intros Hi. destruct (imm_arith i Hi) as (-> & _ & -> & -> & ->). unfold is_u32 in *.
  assert (Hs : - 2 ^ 31 <= (if i <? 2 ^ 31 then i else i - 2 ^ 32) < 2 ^ 31) by (destruct (Z.ltb_spec i (2 ^ 31)); lia).
  set (s := if i <? 2 ^ 31 then i else i - 2 ^ 32) in *. clearbody s. split_and!; dlia.
Qed.

Lemma muldiv_range f3 a b : is_u32 a -> is_u32 b -> is_u32 (Emu.muldiv f3 a b).
Proof.
  unfold is_u32. intros Ha Hb. pose proof (u32_range) as Hu. unfold is_u32 in Hu. unfold Emu.muldiv.
  repeat match goal with |- context [if ?c then _ else _] => destruct c eqn:? end; auto; try lia.
  - destruct (Z.eq_dec b 0) as [->|]; [by rewrite Z.div_0_r|]. split; [apply Z.div_pos; lia|apply Z.div_lt_upper_bound; nia].
  - match goal with Hb : (b =? 0) = false |- _ => apply Z.eqb_neq in Hb end. pose proof (Z.mod_pos_bound a b). lia.
Qed.

Lemma is_u32_bits x : is_u32 x -> forall i, 32 <= i -> Z.testbit x i = false.
Proof. intros Hx i Hi. by apply (high_bits x 32). Qed.

Lemma ldiff_range x y : is_u32 x -> is_u32 (Z.ldiff x y).
Proof. intros Hx. apply bits_range; [lia|]. intros i Hi. by rewrite Z.ldiff_spec, is_u32_bits. Qed.
Lemma lor_u32 x y : is_u32 x -> is_u32 y -> is_u32 (Z.lor x y).
Proof. apply lor_range. lia. Qed.
Lemma land_u32 x y : is_u32 x -> is_u32 (Z.land x y).
Proof. intros Hx. apply bits_range; [lia|]. intros i Hi. by rewrite Z.land_spec, is_u32_bits. Qed.
Lemma lxor_u32 x y : is_u32 x -> is_u32 y -> is_u32 (Z.lxor x y).
Proof. intros Hx Hy. apply bits_range; [lia|]. intros i Hi. by rewrite Z.lxor_spec, !is_u32_bits. Qed.

Lemma shiftr_u32 x n : 0 <= n -> is_u32 x -> is_u32 (Z.shiftr x n).
Proof. intros Hn Hx. apply bits_range; [lia|]. intros i Hi. rewrite Z.shiftr_spec by lia. apply is_u32_bits; [done|lia]. Qed.

Lemma sign_extend_u32 n v : 1 <= n <= 31 -> is_u32 (sign_extend n v).
Proof.
  intros Hn. unfold sign_extend. destruct (Z.ltb_spec (v mod 2 ^ n) (2 ^ (n - 1))) as [Hlt|]; [|apply u32_range].
  assert (2 ^ (n - 1) <= 2 ^ 32) by (apply Z.pow_le_mono_r; lia). pose proof (Z.mod_pos_bound v (2 ^ n) ltac:(apply Z.pow_pos_nonneg; lia)).
  unfold is_u32. lia.
Qed.

Lemma load_value_u32 f3 addr word : is_u32 word -> is_u32 (load_value f3 addr word).
Proof.
  intros Hw. assert (Hl : 0 <= Z.land addr 3 * 8) by (rewrite (land_mask _ 2) by lia; dlia).
  assert (Hl2 : 0 <= Z.land (Z.land addr 3 * 8) 16) by (by apply Z.land_nonneg; left). unfold load_value.
  repeat match goal with |- context [if ?c then _ else _] => destruct c end; try (apply sign_extend_u32; lia); try done;
    apply land_u32; by apply shiftr_u32.
Qed.

Lemma store_data_u32 f3 addr x2 : is_u32 x2 -> is_u32 (store_data f3 addr x2).1.
Proof.
  intros Hx. unfold store_data. repeat match goal with |- context [if ?c then _ else _] => destruct c end; cbn [fst]; try done;
    [rewrite (land_mask _ 8) by lia|rewrite (land_mask _ 16) by lia..]; unfold is_u32; dlia.
Qed.

Lemma amo_value_u32 f5 old src : is_u32 old -> is_u32 src -> is_u32 (amo_value f5 old src).
Proof.
  intros Ho Hs. unfold amo_value. repeat match goal with |- context [if ?c then _ else _] => destruct c end;
    try done; try apply u32_range; [by apply lxor_u32|by apply land_u32|by apply lor_u32|unfold is_u32 in *; lia..].
Qed.

Lemma write_ok_at addr data be t b wait b' :
  rv_write addr data be t b = (wait, b') -> bus_ok b -> is_u32 data -> bus_ok b'.
Proof. intros Hw Hb Hd. pose proof (write_ok addr data be t b Hb Hd) as Ho. by rewrite Hw in Ho. Qed.

Lemma load_ok_at addr t b wait b1 word b2 :
  rv_load_wait addr b = (wait, b1) -> rv_read_word addr t b1 = (word, b2) -> bus_ok b -> is_u32 word /\ bus_ok b2.
Proof.
  intros Hw Hr Hb. pose proof (load_wait_ok addr b Hb) as H1. rewrite Hw in H1. pose proof (read_ok addr t b1 H1) as H2.
  by rewrite Hr in H2.
Qed.

Lemma mip_range s : is_u32 (mip s).
Proof. unfold mip. repeat match goal with |- context [if ?c then _ else _] => destruct c end; vm_compute; split; congruence. Qed.

Lemma exec_csr_wf i o : cpu_wf o.1 -> cpu_wf (exec_csr i o).1.1.
Proof.
  intros Hwf. destruct o as [s r]. cbn [fst] in *. pose proof Hwf as [Hl Hf Hx Hpc Hcsr Hw Hb]. unfold exec_csr.
  set (addr := Z.land _ 0xFFFF). set (ex := set_mcycle _ _). assert (Hex : csr_wf ex) by (apply set_mcycle_wf; [apply u64_range|done]).
  pose proof (csr_read_range addr (mip s) (u64 (mtime (cycle s) (bus s) + 1)) ex Hex (mip_range s)) as Hold. cbv zeta.
  set (old0 := csr_read _ _ _ _) in *. set (old := if (addr =? MISA) && _ then _ else old0).
  assert (Hold' : is_u32 old) by (unfold old; destruct (_ && _); [by apply ldiff_range|done]). clearbody old.
  set (src := if negb _ then Field.rs1 i else _). assert (Hsrc : is_u32 src).
  { unfold src. destruct (negb _); [|by apply xr_range]. pose proof (rs1_range i). unfold is_u32. lia. }
  set (value := if Z.land _ 3 =? 1 then src else _). assert (Hv : is_u32 value).
  { unfold value. destruct (_ =? 1); [done|]. destruct (_ =? 2); [by apply lor_u32|by apply ldiff_range]. }
  clearbody src value. destruct (negb (_ || _)); [by apply (write_rd_wf _ _ (s, r)); [|apply rd_range|]|].
  assert (Hcw : forall c, csr_wf c -> csr_wf (csr_write addr value c)) by (intros c Hc; by apply csr_write_wf).
  repeat match goal with |- context [if (addr =? ?a) || ?c then _ else _] => destruct ((addr =? a) || c)
    | |- context [if addr =? MSTATUS then _ else _] => destruct (addr =? MSTATUS) end; cbn [fst];
    (apply write_rd_wf; [cbn [fst]|apply rd_range|done]).
  - constructor; cbn; try done. apply (Hcw ex Hex).
  - apply set_csr_wf; [by apply Hcw|done].
  - apply set_csr_wf; [by apply write_mpp_wf, Hcw|done].
  - apply set_csr_wf; [by apply Hcw|done].
Qed.

Lemma exec_amo_wf i o : cpu_wf o.1 -> cpu_wf (exec_amo i o).2.1.
Proof.
  intros Hwf. destruct o as [s r]. cbn [fst] in *. pose proof (xr_range (Field.rs1 i) s Hwf) as H1. pose proof (xr_range (Field.rs2 i) s Hwf) as H2.
  unfold exec_amo. destruct (negb _); [done|]. cbv zeta. destruct (Z.shiftr i 27 =? AMO_SC).
  - destruct (bool_decide _).
    + destruct (rv_write _ _ _ _ _) as [wait b] eqn:Hw. cbn [snd]. apply write_rd_wf; [cbn [fst]|apply rd_range|unfold is_u32; cbn; lia].
      apply set_bus_wf; [eapply write_ok_at; [exact Hw|apply Hwf|done]|by apply set_reservation_wf].
    + cbn [snd]. apply write_rd_wf; [by apply set_reservation_wf|apply rd_range|unfold is_u32; cbn; lia].
  - destruct (rv_load_wait _ _) as [rw b1] eqn:Hrw. destruct (rv_read_word _ _ b1) as [old b2] eqn:Hr.
    destruct (load_ok_at _ _ _ _ _ _ _ Hrw Hr (wf_bus _ Hwf)) as [Hold Hb2].
    destruct (Z.shiftr i 27 =? AMO_LR).
    + cbn [snd]. apply write_rd_wf; [cbn [fst]|apply rd_range|done]. apply set_reservation_wf. by apply set_bus_wf.
    + destruct (rv_write _ _ _ _ _) as [ww b3] eqn:Hw. cbn [snd]. apply write_rd_wf; [cbn [fst]|apply rd_range|done].
      apply set_bus_wf; [|by apply set_bus_wf]. eapply write_ok_at; [exact Hw|done|by apply amo_value_u32].
Qed.

(** An atomic traps before it does anything. *)
Lemma exec_amo_trap i o cause : (exec_amo i o).1 = Some cause -> (exec_amo i o).2 = o /\ (cause = 4 \/ cause = 6).
Proof.
  destruct o as [s r]. unfold exec_amo. destruct (negb _).
  - cbn [fst snd]. destruct (Z.shiftr i 27 =? AMO_LR); intros Hc; apply (inj Some) in Hc as <-; (split; [reflexivity|auto]).
  - cbv zeta. destruct (Z.shiftr i 27 =? AMO_SC).
    + destruct (bool_decide _); [destruct (rv_write _ _ _ _ _)|]; discriminate.
    + destruct (rv_load_wait _ _). destruct (rv_read_word _ _ _). destruct (Z.shiftr i 27 =? AMO_LR); [discriminate|].
      destruct (rv_write _ _ _ _ _). discriminate.
Qed.

Lemma link_aligned s : cpu_wf s -> word_aligned (Emu.u32 (pc s + 4)).
Proof. intros Hwf. destruct (wf_pc _ Hwf) as [_ Hm]. split; [apply u32_range|]. unfold Emu.u32. dlia. Qed.

Lemma pc_even s : cpu_wf s -> pc s mod 2 = 0.
Proof. intros Hwf. destruct (wf_pc _ Hwf) as [_ Hm]. dlia. Qed.

Lemma exec_wf i o : cpu_wf o.1 -> is_u32 i -> cpu_wf (exec i o).1.
Proof.
  intros Hwf Hi. destruct o as [s r]. cbn [fst] in *. pose proof (link_aligned s Hwf) as Hlink. pose proof (pc_even s Hwf) as Hev.
  destruct (imm_ranges i Hi) as (Hii & Hiu & Hib & Hij). pose proof (rd_range i) as Hrd.
  pose proof (xr_range (Field.rs1 i) s Hwf) as Hx1. pose proof (xr_range (Field.rs2 i) s Hwf) as Hx2. unfold exec. cbv zeta.
  set (x1 := xr (Field.rs1 i) s) in *. set (x2 := xr (Field.rs2 i) s) in *. set (link := Emu.u32 (pc s + 4)) in *.
  assert (Hw : forall v r, is_u32 v -> cpu_wf (write_rd (Field.rd i) v (s, r)).1) by (intros v r' Hv; by apply (write_rd_wf _ _ (s, r'))).
  assert (Heven : forall v, v mod 2 = 0 -> Emu.u32 (pc s + v) mod 2 = 0) by (intros v Hv; unfold Emu.u32; dlia).
  destruct (_ && _); [apply finish_wf; [apply Hw; by apply muldiv_range|done]|].
  destruct (_ || _); [apply finish_wf; [apply Hw; apply alu_range; [done|by destruct (_ =? OP_IMM)]|done]|].
  destruct (_ =? OP_LUI); [apply finish_wf; [by apply Hw|done]|].
  destruct (_ =? OP_AUIPC); [apply finish_wf; [by apply Hw, u32_range|done]|].
  destruct (_ =? OP_JAL); [apply jump_wf; [done|by apply Hw; destruct Hlink|apply u32_range|by apply Heven]|].
  destruct (_ =? OP_JALR).
  { apply jump_wf; [done|by apply Hw; destruct Hlink|apply ldiff_range, u32_range|].
    change 1 with (Z.ones 1). rewrite Z.ldiff_ones_r, shiftl_mul by lia. dlia. }
  destruct (_ =? OP_BRANCH).
  { destruct (branch_taken _ _ _); [apply jump_wf; [done|done|apply u32_range|by apply Heven]|by apply finish_wf]. }
  destruct (_ =? OP_LOAD).
  { destruct (misaligned _ _); [apply take_trap_wf; [done|unfold is_u32; lia|apply u32_range]|].
    destruct (rv_load_wait _ _) as [wait b1] eqn:Hrw. destruct (rv_read_word _ _ b1) as [word b2] eqn:Hr.
    destruct (load_ok_at _ _ _ _ _ _ _ Hrw Hr (wf_bus _ Hwf)) as [Hword Hb2].
    apply finish_wf; [|done]. apply write_rd_wf; [by apply set_bus_wf|done|by apply load_value_u32]. }
  destruct (_ =? OP_STORE).
  { destruct (misaligned _ _); [apply take_trap_wf; [done|unfold is_u32; lia|apply u32_range]|].
    pose proof (store_data_u32 (Field.funct3 i) (Emu.u32 (x1 + Field.imm_s i)) x2 Hx2) as Hd. destruct (store_data _ _ _) as [data be].
    destruct (rv_write _ _ _ _ _) as [wait b] eqn:Hwr. apply finish_wf; [|done].
    apply set_bus_wf; [|done]. eapply write_ok_at; [exact Hwr|apply Hwf|done]. }
  destruct (_ =? OP_AMO).
  { pose proof (exec_amo_wf i (s, r_set_cycles 2 r) Hwf) as Ha. destruct (exec_amo _ _) as [trap o] eqn:E. cbn [snd] in Ha.
    destruct trap as [cause|]; [|by apply finish_wf]. apply take_trap_wf; [done| |done].
    destruct (exec_amo_trap i (s, r_set_cycles 2 r) cause) as [_ [-> | ->]]; [by rewrite E|unfold is_u32; lia..]. }
  destruct (_ =? OP_SYSTEM); [|by apply finish_wf]. destruct (_ =? 0).
  - destruct (_ =? 0x73); [apply take_trap_wf; [done|unfold is_u32; by destruct (user _)|unfold is_u32; lia]|].
    destruct (_ =? 0x100073); [apply take_trap_wf; [done|unfold is_u32; lia|by destruct (wf_pc _ Hwf)]|].
    destruct (_ =? 0x30200073); [|by apply finish_wf].
    apply finish_wf; [apply set_csr_wf; [apply csr_mret_wf, Hwf|done]|apply (wf_mepc _ (wf_csr _ Hwf))].
  - pose proof (exec_csr_wf i (s, r_set_cycles 2 r) Hwf) as Hc. destruct (exec_csr _ _) as [o counts]. by apply finish_wf.
Qed.

Lemma pending_u32 m c cause : pending_interrupt m c = Some cause -> is_u32 cause.
Proof.
  unfold pending_interrupt. repeat match goal with |- context [if ?b then _ else _] => destruct b end;
    intros Hc; try discriminate; apply (inj Some) in Hc as <-; unfold is_u32; lia.
Qed.

Lemma step_rv_wf i irq o :
  cpu_wf o.1 -> is_u32 i -> match irq with Some cause => is_u32 cause | None => True end -> cpu_wf (step_rv i irq o).1.
Proof.
  intros Hwf Hi Hirq. destruct o as [s r]. cbn [fst] in *. unfold step_rv. destruct irq as [cause|].
  - apply take_trap_wf; [done|done|unfold is_u32; lia].
  - destruct (rv_illegal _ _); [apply take_trap_wf; [done|unfold is_u32; lia|done]|by apply exec_wf].
Qed.

Lemma step_keeps s : cpu_wf s -> cpu_wf (step s).1.
Proof.
  intros Hwf. unfold step. pose proof (fetch_ok (pc s) (bus s) (wf_bus _ Hwf)) as (Hword & _ & Hb).
  destruct (fetch _ _) as [[word wait] b]. cbn [fst snd] in *.
  set (s1 := set_csr _ (set_cycle _ (set_bus b s))). set (r0 := mkRetire _ _ _ _ _ _ _ _).
  assert (H1 : cpu_wf s1).
  { apply set_csr_wf; [apply set_mcycle_wf; [apply u64_range|apply Hwf]|]. by apply set_cycle_wf, set_bus_wf. }
  pose proof (step_rv_wf word (sample_interrupt s1) (s1, r0) H1 Hword) as H2.
  destruct (step_rv _ _ _) as [s2 r2]. cbn [fst] in *. apply set_cycle_wf.
  assert (Hs2 : cpu_wf s2).
  { apply H2. unfold sample_interrupt. cbv zeta. destruct (_ || _); [done|].
    destruct (pending_interrupt _ _) eqn:Hp; [|done]. by apply pending_u32 in Hp. }
  pose proof Hs2 as [Hl Hf Hx Hpc Hcsr Hw Hbo]. destruct (mcycle_written s2) as [v|].
  - constructor; try done. by apply set_mcycle_wf.
  - apply set_csr_wf; [apply set_mcycle_wf; [apply u64_range|done]|done].
Qed.

(** ** What an instruction does to the bus *)

(** The accesses of one instruction whose FETCH ended in cycle [t], the cycles it takes and the
    bus it leaves: none, a load, a store, or an AMO's load and store. *)
Inductive bus_effect (t : Z) (b : B) : Z -> B -> Prop :=
| no_access n : 2 <= n <= 2 + MULDIV_WAIT_CYCLES -> bus_effect t b n b
| one_load addr w b1 v b2 : rv_load_wait addr b = (w, b1) -> rv_read_word addr t b1 = (v, b2) -> bus_effect t b (3 + w) b2
| one_store addr data be w b1 : rv_write addr data be t b = (w, b1) -> bus_effect t b (3 + w) b1
| load_store addr w b1 v b2 data w' b3 :
    rv_load_wait addr b = (w, b1) -> rv_read_word addr t b1 = (v, b2) -> rv_write addr data 15 (t + (3 + w)) b2 = (w', b3) ->
    bus_effect t b (3 + w + 2 + w') b3.

(** The cycle and the bus an outcome leaves, and that it cost the effect's cycles. *)
Definition effect_of (s : cpu) (o : outcome) : Prop :=
  cycle o.1 = cycle s /\ bus_effect (cycle s) (bus s) (r_cycles o.2) (bus o.1).

Lemma effect_write_rd s rd v o : effect_of s o -> effect_of s (write_rd rd v o).
Proof. destruct o as [s' r]. unfold write_rd. by destruct (rd =? 0). Qed.
Lemma effect_finish s next b o : effect_of s o -> effect_of s (finish next b o).
Proof. destruct o as [s' r]. unfold finish. by destruct b. Qed.
Lemma effect_none s s' r : cycle s' = cycle s -> bus s' = bus s -> 2 <= r_cycles r <= 2 + MULDIV_WAIT_CYCLES -> effect_of s (s', r).
Proof. intros Hc Hb Hr. split; [done|]. cbn [fst snd]. rewrite Hb. by apply no_access. Qed.
Lemma effect_trap s cause tval s' r : cycle s' = cycle s -> bus s' = bus s -> effect_of s (take_trap cause tval (s', r)).
Proof. intros Hc Hb. by apply effect_none; [..|done]. Qed.

Lemma effect_csr s i r : r_cycles r = 2 -> effect_of s (exec_csr i (s, r)).1.
Proof.
  intros Hr. unfold exec_csr. cbv zeta.
  repeat match goal with |- context [let '(_, _) := (if ?c then _ else _) in _] => destruct c end; cbn [fst];
    apply effect_write_rd; apply effect_none; done || (unfold MULDIV_WAIT_CYCLES; lia).
Qed.

Lemma effect_amo s i r : r_cycles r = 2 -> (exec_amo i (s, r)).1 = None -> effect_of s (exec_amo i (s, r)).2.
Proof.
  intros Hr. unfold exec_amo. destruct (negb _); [discriminate|]. cbv zeta. destruct (Z.shiftr i 27 =? AMO_SC).
  - intros _. destruct (bool_decide _).
    + destruct (rv_write _ _ _ _ _) as [w b] eqn:Hw. cbn [snd]. apply effect_write_rd. split; [done|]. by eapply one_store.
    + cbn [snd]. apply effect_write_rd. apply effect_none; [done..|unfold MULDIV_WAIT_CYCLES; cbn; lia].
  - destruct (rv_load_wait _ _) as [w b1] eqn:Hl. destruct (rv_read_word _ _ _) as [v b2] eqn:Hv. intros _.
    destruct (Z.shiftr i 27 =? AMO_LR); [cbn [snd]; apply effect_write_rd; split; [done|]; by eapply one_load|].
    destruct (rv_write _ _ _ _ _) as [w' b3] eqn:Hw. cbn [snd]. apply effect_write_rd. split; [done|]. by eapply load_store.
Qed.

Lemma exec_effect i s r : effect_of s (exec i (s, r)).
Proof.
  assert (H2 : forall c, effect_of s (s, r_set_branch c (r_set_cycles 2 r)) /\ effect_of s (s, r_set_cycles 2 r)) by (intros c; split; by apply effect_none).
  assert (Hj : forall t o', effect_of s o' -> effect_of s (jump t (s, r_set_cycles 2 r) o')).
  { intros t o' Ho. unfold jump. destruct (negb _); [by apply effect_trap|by apply effect_finish]. }
  unfold exec. cbv zeta.
  destruct (_ && _); [by apply effect_finish, effect_write_rd, effect_none|].
  destruct (_ || _); [apply effect_finish, effect_write_rd; by apply effect_none|].
  destruct (_ =? OP_LUI); [apply effect_finish, effect_write_rd; by apply effect_none|].
  destruct (_ =? OP_AUIPC); [apply effect_finish, effect_write_rd; by apply effect_none|].
  destruct (_ =? OP_JAL); [apply Hj, effect_write_rd; by apply effect_none|].
  destruct (_ =? OP_JALR); [apply Hj, effect_write_rd; by apply effect_none|].
  destruct (_ =? OP_BRANCH); [destruct (branch_taken _ _ _); [apply Hj|apply effect_finish]; by apply effect_none|].
  destruct (_ =? OP_LOAD).
  { destruct (misaligned _ _); [by apply effect_trap|]. destruct (rv_load_wait _ _) as [w b1] eqn:Hl.
    destruct (rv_read_word _ _ _) as [v b2] eqn:Hv. apply effect_finish, effect_write_rd. split; [done|]. by eapply one_load. }
  destruct (_ =? OP_STORE).
  { destruct (misaligned _ _); [by apply effect_trap|]. destruct (store_data _ _ _) as [data be].
    destruct (rv_write _ _ _ _ _) as [w b] eqn:Hw. apply effect_finish. split; [done|]. by eapply one_store. }
  destruct (_ =? OP_AMO).
  { pose proof (exec_amo_trap i (s, r_set_cycles 2 r)) as Ht. pose proof (effect_amo s i (r_set_cycles 2 r) eq_refl) as Ha.
    destruct (exec_amo _ _) as [[cause|] o]; cbn [fst snd] in *; [destruct (Ht cause eq_refl) as [-> _]; by apply effect_trap|].
    by apply effect_finish, Ha. }
  destruct (_ =? OP_SYSTEM); [|apply effect_finish; by apply effect_none]. destruct (_ =? 0).
  - destruct (_ =? 0x73); [by apply effect_trap|]. destruct (_ =? 0x100073); [by apply effect_trap|].
    destruct (_ =? 0x30200073); apply effect_finish; by apply effect_none.
  - pose proof (effect_csr s i (r_set_cycles 2 r) eq_refl) as Hc. destruct (exec_csr _ _) as [o counts]. by apply effect_finish.
Qed.

(** A step: a fetch, then the instruction's accesses once its wait is over. *)
Lemma step_effect s :
  let '(word, wait, b) := fetch (pc s) (bus s) in
  exists n, r_cycles (step s).2 = n + wait /\ cycle (step s).1 = cycle s + wait + n /\ bus_effect (cycle s + wait) b n (bus (step s).1).
Proof.
  unfold step. destruct (fetch _ _) as [[word wait] b]. set (s1 := set_csr _ _). set (r0 := mkRetire _ _ _ _ _ _ _ _).
  assert (He : effect_of s1 (step_rv word (sample_interrupt s1) (s1, r0))).
  { unfold step_rv. destruct (sample_interrupt s1); [by apply effect_trap|]. destruct (rv_illegal _ _); [by apply effect_trap|apply exec_effect]. }
  destruct (step_rv _ _ _) as [s2 r2]. destruct He as [Hc He]. cbn [fst snd] in *. exists (r_cycles r2).
  destruct (mcycle_written s2); cbn; rewrite Hc; done.
Qed.

(** ** Traps *)

(** The state after a trap from [s]: the CSRs as [enter_trap] leaves them, the handler next,
    the reservation gone, and nothing else changed. *)
Definition trapped (cause tval : Z) (s : cpu) : cpu :=
  mkCpu (cycle s) (regs s) (mtvec (csr s)) (enter_trap (pc s) cause tval (csr s)) None (mcycle_written s) (m_ext s) (bus s).

Lemma take_trap_eq cause tval s r : take_trap cause tval (s, r) = (trapped cause tval s, r_set_cycles 2 (r_set_trap (Some cause) r)).
Proof. reflexivity. Qed.

Lemma write_rd_trap rd v o : r_trap (write_rd rd v o).2 = r_trap o.2.
Proof. destruct o as [s r]. unfold write_rd. by destruct (rd =? 0). Qed.
Lemma finish_trap next retired o : r_trap (finish next retired o).2 = r_trap o.2.
Proof. by destruct o. Qed.
Lemma exec_csr_trap i o : r_trap (exec_csr i o).1.2 = r_trap o.2.
Proof.
  destruct o as [s r]. unfold exec_csr. cbv zeta.
  repeat match goal with |- context [let '(_, _) := (if ?c then _ else _) in _] => destruct c end; cbn [fst snd]; apply write_rd_trap.
Qed.
Lemma exec_amo_none i o : (exec_amo i o).1 = None -> r_trap (exec_amo i o).2.2 = r_trap o.2.
Proof.
  destruct o as [s r]. unfold exec_amo. destruct (negb _); [discriminate|]. cbv zeta. destruct (Z.shiftr i 27 =? AMO_SC).
  - intros _. destruct (bool_decide _); [destruct (rv_write _ _ _ _ _)|]; cbn [snd]; by rewrite write_rd_trap.
  - destruct (rv_load_wait _ _). destruct (rv_read_word _ _ _). intros _. destruct (Z.shiftr i 27 =? AMO_LR).
    + cbn [snd]. by rewrite write_rd_trap.
    + destruct (rv_write _ _ _ _ _). cbn [snd]. by rewrite write_rd_trap.
Qed.

(** [o'] is a trap from [s], or none was taken. *)
Definition precise (s : cpu) (r : Retire) (o' : outcome) : Prop :=
  match r_trap o'.2 with
  | None => True
  | Some cause => exists tval, o'.1 = trapped cause tval s /\ r_rd o'.2 = r_rd r /\ r_store o'.2 = r_store r /\ r_cycles o'.2 = 2
  end.

Lemma precise_trap cause tval s r r' :
  r_rd r' = r_rd r -> r_store r' = r_store r -> precise s r (take_trap cause tval (s, r')).
Proof. intros Hrd Hst. unfold precise. cbn. by exists tval. Qed.

Lemma precise_none s r o' : r_trap o'.2 = None -> precise s r o'.
Proof. intros H0. unfold precise. by rewrite H0. Qed.

Lemma exec_precise i s r : r_trap r = None -> precise s r (exec i (s, r)).
Proof.
  intros Hr. assert (Hf : forall next b o, r_trap o.2 = None -> precise s r (finish next b o)) by (intros; apply precise_none; by rewrite finish_trap).
  assert (Hw : forall rd v s r, r_trap r = None -> r_trap (write_rd rd v (s, r)).2 = None) by (intros; by rewrite write_rd_trap).
  assert (Hj : forall t o', r_trap o'.2 = None -> precise s r (jump t (s, r_set_cycles 2 r) o')).
  { intros t o' Ho. unfold jump. destruct (negb _); [by apply precise_trap|by apply Hf]. }
  unfold exec. cbv zeta.
  destruct (_ && _); [by apply Hf, Hw|]. destruct (_ || _); [by apply Hf, Hw|]. destruct (_ =? OP_LUI); [by apply Hf, Hw|].
  destruct (_ =? OP_AUIPC); [by apply Hf, Hw|]. destruct (_ =? OP_JAL); [by apply Hj, Hw|]. destruct (_ =? OP_JALR); [by apply Hj, Hw|].
  destruct (_ =? OP_BRANCH); [destruct (branch_taken _ _ _); [by apply Hj|by apply Hf]|].
  destruct (_ =? OP_LOAD).
  { destruct (misaligned _ _); [by apply precise_trap|]. destruct (rv_load_wait _ _). destruct (rv_read_word _ _ _). by apply Hf, Hw. }
  destruct (_ =? OP_STORE).
  { destruct (misaligned _ _); [by apply precise_trap|]. destruct (store_data _ _ _). destruct (rv_write _ _ _ _ _). by apply Hf. }
  destruct (_ =? OP_AMO).
  { pose proof (exec_amo_trap i (s, r_set_cycles 2 r)) as Ht. pose proof (exec_amo_none i (s, r_set_cycles 2 r)) as Hn.
    destruct (exec_amo _ _) as [[cause|] o]; cbn [fst snd] in *.
    - destruct (Ht cause eq_refl) as [-> _]. by apply precise_trap.
    - apply Hf. by rewrite (Hn eq_refl). }
  destruct (_ =? OP_SYSTEM); [|by apply Hf]. destruct (_ =? 0).
  - destruct (_ =? 0x73); [by apply precise_trap|]. destruct (_ =? 0x100073); [by apply precise_trap|].
    destruct (_ =? 0x30200073); by apply Hf.
  - pose proof (exec_csr_trap i (s, r_set_cycles 2 r)) as Hc. destruct (exec_csr _ _) as [o counts]. apply Hf.
    cbn [fst snd] in Hc. rewrite Hc. exact Hr.
Qed.

Lemma step_rv_precise i irq s r : r_trap r = None -> precise s r (step_rv i irq (s, r)).
Proof.
  intros Hr. unfold step_rv. destruct irq as [cause|]; [by apply precise_trap|]. destruct (rv_illegal _ _); [by apply precise_trap|].
  pose proof (exec_precise i s (r_set_instr i r) Hr) as Hp. exact Hp.
Qed.

(** ** Assembled code on the CPU *)

(** Words executed one after the other, no interrupt pending. *)
Definition exec_words (ws : list Z) (s : cpu) : cpu :=
  foldl (fun s w => (step_rv w None (s, mkRetire 0 0 0 None None None None 0)).1) s ws.

(** From [s] to [s']: [v] in register [d], the next pc, and the other registers and the memory
    as they were. *)
Definition loaded (d v next : Z) (s s' : cpu) : Prop :=
  cpu_wf s' /\ xr d s' = v /\ pc s' = next /\ bus s' = bus s /\ csr s' = set_minstret (minstret (csr s')) (csr s) /\
  forall n, 0 <= n < 32 -> n <> d -> xr n s' = xr n s.

Lemma loaded_finish d v next s r :
  cpu_wf s -> 0 < d < 32 -> is_u32 v -> word_aligned next -> loaded d v next s (finish next true (write_rd d v (s, r))).1.
Proof.
  intros Hwf Hd Hv Hn. assert (Hx : forall n, 0 <= n < 32 -> xr n (finish next true (write_rd d v (s, r))).1 = if n =? d then v else xr n s).
  { intros n Hn'. pose proof (xr_write_rd n d v (s, r) Hn' ltac:(lia) (wf_regs _ Hwf)) as Hw. rewrite (proj2 (Z.eqb_neq d 0)) in Hw by lia.
    cbn [negb andb fst] in Hw. rewrite <- Hw. unfold write_rd. by destruct (d =? 0). }
  split_and!.
  - apply finish_wf; [apply write_rd_wf; [done|lia|done]|done].
  - rewrite Hx by lia. by rewrite Z.eqb_refl.
  - unfold write_rd. by destruct (d =? 0).
  - unfold write_rd. by destruct (d =? 0).
  - unfold write_rd. by destruct (d =? 0).
  - intros n Hn' Hne. rewrite Hx by done. by rewrite (proj2 (Z.eqb_neq _ _)).
Qed.

Lemma step_addi imm rs1 rd w s r :
  i_type imm rs1 0 rd 0x13 = Ok w -> cpu_wf s -> 0 < Field.rd w < 32 ->
  loaded (Field.rd w) (Emu.u32 (xr (Field.rs1 w) s + imm)) (Emu.u32 (pc s + 4)) s (step_rv w None (s, r)).1.
Proof.
  intros Hw Hwf Hd. destruct (i_decodes imm rs1 0 rd 0x13 w eq_refl Hw) as (Hw32 & Hop & Himm & _ & Hf3 & _).
  unfold step_rv, rv_illegal, exec. cbv zeta. rewrite Hop, Hf3, Himm. cbn -[finish write_rd Emu.u32 Field.u32 Field.rd Field.rs1 Field.rs2 Field.funct7 xr Z.land].
  replace (Emu.u32 (xr (Field.rs1 w) s + imm)) with (Emu.u32 (xr (Field.rs1 w) s + Field.u32 imm))
    by (unfold Emu.u32, Field.u32; by rewrite Zplus_mod_idemp_r).
  apply loaded_finish; [done|done|apply u32_range|by apply link_aligned].
Qed.

Lemma step_lui imm20 rd w s r :
  u_type imm20 rd 0x37 = Ok w -> cpu_wf s -> 0 < Field.rd w < 32 ->
  loaded (Field.rd w) (Emu.u32 (imm20 * 2 ^ 12)) (Emu.u32 (pc s + 4)) s (step_rv w None (s, r)).1.
Proof.
  intros Hw Hwf Hd. destruct (u_decodes imm20 rd 0x37 w eq_refl Hw) as (Hw32 & Hop & Himm & _).
  unfold step_rv, rv_illegal, exec. cbv zeta. rewrite Hop, Himm. cbn -[finish write_rd Emu.u32 Field.u32 Field.rd Field.rs1 Field.rs2 Field.funct7 xr Z.land Z.mul].
  apply loaded_finish; [done|done|apply u32_range|by apply link_aligned].
Qed.

(** The words a piece of code assembles to. *)
Definition words_of (code : asm unit) : res (list Z) := a ← build 0 code; assemble a.

Lemma i_type_ok imm rs1 rd r1 d :
  signed_fits imm 12 = true -> reg rs1 = Ok r1 -> reg rd = Ok d ->
  exists w, i_type imm rs1 0 rd 0x13 = Ok w /\ Field.rd w = d /\ Field.rs1 w = r1.
Proof.
  intros Hf Hr1 Hd. unfold i_type. rewrite Hf, Hr1, Hd. eexists. split; [reflexivity|].
  destruct (i_decodes imm rs1 0 rd 0x13 _ eq_refl ltac:(unfold i_type; rewrite Hf, Hr1, Hd; reflexivity)) as (_ & _ & _ & H1 & _ & H2).
  rewrite Hr1 in H1. rewrite Hd in H2. split; congruence.
Qed.

Lemma u_type_ok imm20 rd d : reg rd = Ok d -> exists w, u_type imm20 rd 0x37 = Ok w /\ Field.rd w = d.
Proof.
  intros Hd. unfold u_type. rewrite Hd. eexists. split; [reflexivity|].
  destruct (u_decodes imm20 rd 0x37 _ eq_refl ltac:(unfold u_type; rewrite Hd; reflexivity)) as (_ & _ & _ & H1).
  rewrite Hd in H1. congruence.
Qed.

Lemma words_one m w : m = Ok w -> words_of (emit_word m) = Ok [w].
Proof. intros ->. reflexivity. Qed.
Lemma words_two m1 m2 w1 w2 : m1 = Ok w1 -> m2 = Ok w2 -> words_of (emit_word m1;; emit_word m2) = Ok [w1; w2].
Proof. intros -> ->. reflexivity. Qed.
Lemma words_one_more m w : m = Ok w -> words_of (emit_word m;; nothing) = Ok [w].
Proof. intros ->. reflexivity. Qed.

(** What [li] does with its value. *)
Lemma li_parts v :
  let value := Z.land v 0xFFFFFFFF in
  let signed := if negb (Z.land value 0x80000000 =? 0) then value - Z.shiftl 1 32 else value in
  let lo := Z.land value 0xFFF in
  let lo := if negb (Z.land lo 0x800 =? 0) then lo - 0x1000 else lo in
  signed mod 2 ^ 32 = v mod 2 ^ 32 /\ signed_fits lo 12 = true /\
  (Z.land (Z.shiftr (value - lo) 12) 0xFFFFF * 2 ^ 12 + lo) mod 2 ^ 32 = v mod 2 ^ 32.
Proof.
  cbv zeta. rewrite (land_mask v 32) by lia. set (value := v mod 2 ^ 32). rewrite (land_mask value 12 0xFFF) by lia.
  rewrite (land_masked value 0x80000000 31 1) by lia. rewrite (land_masked (value mod 2 ^ 12) 0x800 11 1) by lia.
  rewrite (land_mask _ 20 0xFFFFF) by lia. rewrite shiftr_div by lia.
  change (Z.shiftl 1 32) with (2 ^ 32). unfold signed_fits. change (Z.shiftl 1 (12 - 1)) with 2048.
  assert (Hv : 0 <= value < 2 ^ 32) by (apply Z.mod_pos_bound; lia). assert (Hm : value mod 2 ^ 32 = value) by (by apply Z.mod_small).
  fold value. clearbody value.
  destruct (Z.eqb_spec (value / 2 ^ 31 mod 2 ^ 1 * 2 ^ 31) 0); destruct (Z.eqb_spec (value mod 2 ^ 12 / 2 ^ 11 mod 2 ^ 1 * 2 ^ 11) 0); cbn [negb];
    rewrite ?andb_true_iff, ?Z.leb_le, ?Z.ltb_lt; split_and!; dlia.
Qed.

Lemma li_runs rd v d s :
  reg rd = Ok d -> d <> 0 -> cpu_wf s ->
  exists ws, words_of (li rd v) = Ok ws /\ loaded d (v mod 2 ^ 32) (Emu.u32 (pc s + 4 * len ws)) s (exec_words ws s).
Proof.
  intros Hrd Hd Hwf. pose proof (reg_range _ _ Hrd) as Hdr. destruct (li_parts v) as (Hsigned & Hlo & Hsum). unfold li. cbv zeta in *.
  set (value := Z.land v 0xFFFFFFFF) in *. set (signed := if negb (Z.land value 0x80000000 =? 0) then _ else _) in *.
  set (lo := if negb (Z.land (Z.land value 0xFFF) 0x800 =? 0) then _ else _) in *. set (hi := Z.land (Z.shiftr _ 12) _) in *.
  clearbody value signed lo hi. destruct (signed_fits signed 12) eqn:Hs.
  - destruct (i_type_ok signed "zero" rd 0 d Hs eq_refl Hrd) as (w & Hw & <- & Hr1).
    exists [w]. split; [by apply words_one|]. pose proof (step_addi signed _ rd w s (mkRetire 0 0 0 None None None None 0) Hw Hwf ltac:(lia)) as Hl.
    rewrite Hr1, (wf_x0 _ Hwf) in Hl. unfold Emu.u32 at 1 in Hl. rewrite Z.add_0_l, Hsigned in Hl. exact Hl.
  - destruct (u_type_ok hi rd d Hrd) as (w1 & Hw1 & Hd1).
    pose proof (step_lui hi rd w1 s (mkRetire 0 0 0 None None None None 0) Hw1 Hwf ltac:(lia)) as Hl1. rewrite Hd1 in Hl1.
    destruct (Z.eqb_spec lo 0) as [->|Hne]; cbn [negb].
    + exists [w1]. split; [by apply words_one_more|]. unfold Emu.u32 at 1 in Hl1. rewrite Z.add_0_r in Hsum. rewrite Hsum in Hl1. exact Hl1.
    + destruct (i_type_ok lo rd rd d d Hlo Hrd Hrd) as (w2 & Hw2 & Hd2 & Hr2). exists [w1; w2]. split; [by apply words_two|].
      unfold exec_words. cbn [foldl]. set (s1 := (step_rv w1 _ _).1) in *. destruct Hl1 as (Hwf1 & Hx1 & Hp1 & Hb1 & Hc1 & Hn1).
      pose proof (step_addi lo rd rd w2 s1 (mkRetire 0 0 0 None None None None 0) Hw2 Hwf1 ltac:(lia)) as (Hwf2 & Hx2 & Hp2 & Hb2 & Hc2 & Hn2).
      rewrite Hd2, Hr2, Hx1 in *. set (s2 := (step_rv w2 _ _).1) in *. split_and!; try done.
      * rewrite Hx2. unfold Emu.u32. by rewrite Zplus_mod_idemp_l.
      * rewrite Hp2, Hp1. unfold Emu.u32. rewrite Zplus_mod_idemp_l. f_equal. change (len [w1; w2]) with 2. lia.
      * congruence.
      * rewrite Hc2, Hc1. reflexivity.
      * intros n Hn Hnd. rewrite Hn2, Hn1 by done. done.
Qed.

Lemma steps_keep n s : cpu_wf s -> cpu_wf (steps n s).2.
Proof.
  revert s. induction n as [|n IH]; intros s Hwf; [done|]. cbn [steps]. pose proof (step_keeps s Hwf) as H1.
  destruct (step s) as [s1 r]. specialize (IH s1 H1). by destruct (steps n s1).
Qed.

Lemma power_on_wf b : bus_ok b -> cpu_wf (power_on b).
Proof.
  intros Hb. constructor; try done; first [apply csr_default_wf | apply Forall_replicate; unfold is_u32; lia].
Qed.

(** C26: whatever the memory holds and whatever interrupts come, after any number of steps from
    power-on x0 is 0, the registers are 32-bit values, pc, mtvec and mepc are addresses of
    words, and each CSR holds only what its mask lets it. *)
Theorem cpu_type_safe n b : bus_ok b -> cpu_wf (steps n (power_on b)).2.
Proof. intros Hb. by apply steps_keep, power_on_wf. Qed.

(** C25: traps are precise: an instruction that traps, or an interrupt taken instead of one,
    changes no register and no memory, saves the pc and disables interrupts as [enter_trap]
    does, and goes to the handler; an MRET from there is back at the instruction with its
    privilege and its interrupt enable. *)
Theorem traps_precise i irq s r :
  r_trap r = None -> csr_wf (csr s) ->
  let '(s', r') := step_rv i irq (s, r) in
  match r_trap r' with
  | None => irq = None
  | Some cause => exists tval, s' = trapped cause tval s /\ r_rd r' = r_rd r /\ r_store r' = r_store r /\
      let c := csr_mret (csr s') in
      mepc c = pc s /\ user c = user (csr s) /\ Z.testbit (mstatus c) 3 = Z.testbit (mstatus (csr s)) 3
  end.
Proof.
  intros Hr Hc. pose proof (step_rv_precise i irq s r Hr) as Hp. unfold precise in Hp.
  destruct (step_rv i irq (s, r)) as [s' r'] eqn:E. cbn [fst snd] in Hp. destruct (r_trap r') as [cause|] eqn:Ht.
  - destruct Hp as (tval & -> & Hrd & Hst & _). exists tval. split_and!; try done; cbn [csr trapped]; rewrite (mret_enter_trap _ _ _ _ Hc); try done.
    cbn [mstatus]. unfold MSTATUS_MPIE, MSTATUS_MPRV. csr_bits. destruct (user (csr s)); rewrite ?Z.ldiff_0_r; csr_bits; cbn -[Z.testbit];
      by rewrite ?andb_true_r, ?orb_false_r.
  - destruct irq as [cause|]; [|done]. unfold step_rv in E. rewrite take_trap_eq in E. injection E as _ <-. discriminate.
Qed.

(** C29: what the assembler's [li] makes, for any register but x0 and any value, the CPU
    executes to: the value's low 32 bits in the register, the other registers, the memory and
    the CSRs as they were. *)
Theorem li_loads rd v d s :
  reg rd = Ok d -> d <> 0 -> cpu_wf s ->
  exists ws, words_of (li rd v) = Ok ws /\ loaded d (v mod 2 ^ 32) (Emu.u32 (pc s + 4 * len ws)) s (exec_words ws s).
Proof. apply li_runs. Qed.

End Cpu.
Arguments cpu B : clear implicits.
Arguments outcome B : clear implicits.

(** ** The riscv-tests profile *)

(** [merge_bytes]. *)
Definition merge_bytes (old data be : Z) : Z :=
  let mask := foldl (fun m b => if Z.testbit be b then Z.lor m (Z.shiftl 0xFF (8 * b)) else m) 0 [0; 1; 2; 3] in
  Z.lor (Z.ldiff old mask) (Z.land data mask).

Definition TOHOST : Z := 0xF0000000.

(** The flat RAM, 0 where nothing is stored, and the first store to [TOHOST]; no peripherals,
    so no interrupt line but the timer's, whose mtime is the cycle. *)
Record isa_bus := mkIsa { i_rom : gmap Z Z; i_tohost : option Z }.
Definition isa_index (addr : Z) : Z := Z.land (Z.shiftr addr 2) 0xFFFF.
Definition isa_read (addr : Z) (b : isa_bus) : Z := default 0 (i_rom b !! isa_index addr).
Definition isa_write (addr data be : Z) (b : isa_bus) : isa_bus :=
  let tohost := if (addr =? TOHOST) && bool_decide (i_tohost b = None) then Some data else i_tohost b in
  mkIsa (if Z.shiftr addr 18 =? 0 then <[isa_index addr := merge_bytes (isa_read addr b) data be]> (i_rom b) else i_rom b) tohost.

Definition isa_ok (b : isa_bus) : Prop := map_Forall (fun _ w => is_u32 w) (i_rom b) /\ forall code, i_tohost b = Some code -> is_u32 code.

Lemma isa_read_u32 addr b : isa_ok b -> is_u32 (isa_read addr b).
Proof.
  intros [Hb _]. unfold isa_read. destruct (i_rom b !! isa_index addr) eqn:He; [by apply (Hb _ _ He)|]. unfold is_u32. cbn. lia.
Qed.

Lemma isa_write_ok addr data be b : isa_ok b -> is_u32 data -> isa_ok (isa_write addr data be b).
Proof.
  intros Hb Hd. pose proof (isa_read_u32 addr b Hb) as Hr. destruct Hb as [Hb Ht]. unfold isa_write, isa_ok. cbn [i_rom i_tohost]. split.
  - destruct (_ =? 0); [|done]. apply map_Forall_insert_2; [|done]. apply lor_u32; [by apply ldiff_range|by apply land_u32].
  - intros code. destruct (_ && _); [by intros [= <-]|apply Ht].
Qed.

#[export, program] Instance isa_test : Bus isa_bus := {
  fetch pc b := (isa_read pc b, 0, b);
  rv_load_wait _ b := (0, b);
  rv_read_word addr _ b := (isa_read addr b, b);
  rv_write addr data be _ b := (0, isa_write addr data be b);
  meip _ _ := false;
  msip _ _ := false;
  mtip c _ := (0 <? c) && (2 ^ 64 - 1 <=? u64 (c - 1));
  mtime c _ := u64 c;
  bus_ok := isa_ok;
}.
Next Obligation. intros pc b Hb. cbn. pose proof (isa_read_u32 pc b Hb). split; [done|split; [lia|done]]. Qed.
Next Obligation. done. Qed.
Next Obligation. intros addr t b Hb. cbn. split; [by apply isa_read_u32|done]. Qed.
Next Obligation. intros. cbn. by apply isa_write_ok. Qed.

(** A memory that starts with some words. *)
Definition isa_load (ws : list Z) : isa_bus := mkIsa (list_to_map (imap (fun i w => (Z.of_nat i, w)) ws)) None.

(** The factorial of 10 by a loop, stored; then an [ecall]. *)
Definition factorial : asm unit :=
  (li "a0" 10;; li "a1" 1;; label "loop";; muldiv "mul" "a1" "a1" "a0";; addi "a0" "a0" (-1);; bnez "a0" "loop";;
   sw "a1" 0x400 "zero";; ecall)%string.

Example factorial_runs :
  match words_of factorial with
  | Ok ws =>
      let '(rs, s) := steps 34 (power_on (isa_load ws)) in
      xr 11 s = 3628800 /\ isa_read 0x400 (bus s) = 3628800 /\ r_trap <$> list.last rs = Some (Some 11) /\ mepc (csr s) = 24
  | Raise _ => False
  end.
Proof. vm_compute. repeat split; reflexivity. Qed.

Lemma isa_load_ok ws : Forall is_u32 ws -> isa_ok (isa_load ws).
Proof.
  intros Hw. split; [|done]. intros i w Hl. apply elem_of_list_to_map_2 in Hl. apply elem_of_lookup_imap_1 in Hl as (j & x & [= _ ->] & Hx).
  rewrite Forall_forall in Hw. apply Hw. by eapply list_elem_of_lookup_2.
Qed.

Lemma cpu_type_safe_witness : cpu_wf (steps 34 (power_on (isa_load [0x00A00513; 0x00000073]))).2.
Proof.
  apply (cpu_type_safe 34 (isa_load [0x00A00513; 0x00000073])). apply isa_load_ok. repeat constructor; unfold is_u32; lia.
Defined.

Lemma traps_precise_witness :
  let s := power_on (isa_load [0]) in
  let '(s', r') := step_rv 0 None (s, mkRetire 0 0 0 None None None None 0) in
  match r_trap r' with
  | None => None = @None Z
  | Some cause => exists tval, s' = trapped cause tval s /\ r_rd r' = None /\ r_store r' = None /\
      let c := csr_mret (csr s') in mepc c = 0 /\ user c = false /\ Z.testbit (mstatus c) 3 = false
  end.
Proof.
  exact (traps_precise 0 None (power_on (isa_load [0])) (mkRetire 0 0 0 None None None None 0) eq_refl csr_default_wf).
Defined.

Lemma li_loads_witness :
  exists ws, words_of (li "t0" (-0x12345)) = Ok ws /\
    loaded 5 0xFFFEDCBB (Emu.u32 (0 + 4 * len ws)) (power_on (isa_load [])) (exec_words ws (power_on (isa_load []))).
Proof.
  apply (li_loads "t0" (-0x12345) 5 (power_on (isa_load []))); [reflexivity|lia|].
  apply power_on_wf, isa_load_ok. constructor.
Defined.
