(* ===== verification/RvTests.v ===== *)
(** * The riscv-tests harness

    scripts/run_riscv_tests.py with scripts/riscv_tests/hex_runner.py: the upstream's list of
    tests, a test's image as hex lines, its run on the emulator's isa-test profile (Rv32Cpu.v)
    and the verdict line of the RTL's testbench, and the report against the expected failures.
    The compiler is a parameter; so are the files. *)
From S2P Require Import Prelude Image Text PyFloat Str Rv32Csr Rv32Cpu.
#[local] Open Scope Z_scope.

Definition SUITES : list text := map txt ["rv32ui"; "rv32um"; "rv32ua"; "rv32mi"]%string.
Definition NOT_A : list text := map txt ["amocas_w"; "amocas_d"]%string.
Definition MAX_CYCLES : Z := 200000.
Definition RAM_WORDS : Z := 65536.

(** [EXPECTED_FAILURES]. *)
Definition EXPECTED_FAILURES : list (text * text) :=
  [(txt "rv32ui-p-ma_data", txt "misaligned load/store traps instead of being handled in hardware; env/p has no handler to emulate them");
   (txt "rv32mi-p-pmpaddr", txt "PMP CSRs (pmpcfg0/pmpaddr0) not implemented")].
Definition _MTIP : text :=
  txt "Sail's CLINT (required by the generator) starts with mtimecmp = 0, so its mip.MTIP is set; tb_hex_runner raises no timer interrupt, so mip reads 0".
Definition _U_INSTRET : text :=
  txt "unexplained: csrrci/csrrs/csrrsi reading instret in U trap here (mcounteren is 0) and keep rd, while the expected value says Sail's rd held 0x6DF56FF7 in each of the three tests, which no word of the ELF holds; Zicsr-csrrc-00, Zicsr-csrrw-00 and ZicntrU-00 pass".
Definition EXPECTED_FAILURES_ACT4 : list (text * text) :=
  [(txt "priv/InterruptsU/InterruptsU-00.elf", txt "tb_hex_runner has no interrupt sources, so it can't pass; it first differs at its csrw medeleg, illegal here (no S-mode), where Sail takes no trap. The umode lockstep program covers interrupts in U");
   (txt "rv32i/Zicsr/Zicsr-csrrci-00.elf", _U_INSTRET); (txt "rv32i/Zicsr/Zicsr-csrrs-00.elf", _U_INSTRET); (txt "rv32i/Zicsr/Zicsr-csrrsi-00.elf", _U_INSTRET);
   (txt "priv/InterruptsSm/InterruptsSm-00.elf", txt "tb_hex_runner has no interrupt sources (RVMODEL_SET_*_INT are empty), so the interrupts the test raises never arrive");
   (txt "priv/Sm/Sm_mcsr_access-00.elf", _MTIP); (txt "priv/Sm/Sm_mcsr_walk-02.elf", _MTIP);
   (txt "priv/Sm/Sm_mcsr_cntr-00.elf", txt "mcountinhibit is read-only zero (legal WARL: counters never inhibited), but Sail 0.13.1 keeps its CY/IR bits writable and expects mcycle to stop")].

(** ** The tests of a suite *)

(** [t.split()]. *)
Fixpoint split_ws (t : text) : list text :=
  match t with
  | [] => []
  | c :: k =>
      if is_pyspace c then split_ws k
      else match k with
           | [] => [[c]]
           | d :: _ => if is_pyspace d then [c] :: split_ws k else match split_ws k with w :: ws => (c :: w) :: ws | [] => [[c]] end
           end
  end.
(** The pattern's group, of the lines from its start: those that end in a backslash and the one
    after them. *)
Definition continued (line : text) : bool := bool_decide (last line = Some 92).
Fixpoint group (lines : list text) : text :=
  match lines with
  | [] => []
  | [l] => l
  | l :: ls => if continued l then l ++ 10 :: group ls else l
  end.
(** The pattern at the start of a line. *)
Definition match_list (suite t : text) : option text :=
  if startswith (suite ++ txt "_sc_tests") t then
    match lstrip (drop (length (suite ++ txt "_sc_tests")) t) with
    | c :: t => if c =? 61 then Some (group (split_char 10 (lstrip t))) else None
    | [] => None
    end
  else None.
Fixpoint search_lines (suite : text) (lines : list text) : option text :=
  match lines with
  | [] => None
  | l :: ls => match match_list suite (join [10] lines) with Some g => Some g | None => search_lines suite ls end
  end.
(** [list_tests], of the Makefrag's text. *)
Definition list_tests (makefrag : text -> text) (suite : text) : res (list text) :=
  match search_lines suite (split_char 10 (makefrag suite)) with
  | None => Raise (Exit (txt "[ERROR] Could not find " ++ suite ++ txt "_sc_tests in Makefrag"))
  | Some g => Ok (filter (fun t => t ∉ NOT_A) (split_ws (replace [92; 10] [32] g)))
  end.

(** ** A test's image *)

(** [f"{w:08X}\n"]. *)
Definition HEX_digit (d : Z) : ascii := ascii_of_nat (Z.to_nat (if d <? 10 then 48 + d else 55 + d)).
Definition HEX_line (w : Z) : string :=
  (string_of_list_ascii (map (fun i => HEX_digit (Z.land (Z.shiftr w (4 * Z.of_nat i)) 15)) (rev (seq 0 (Nat.max 8 (Z.to_nat (Z.log2 w / 4 + 1)))))) ++ newline)%string.
(** [f"{n:08x}"]. *)
Definition hex8 (n : Z) : text := txt (fmt_hex 8 n).

(** [bin_to_hex]: the hex file's lines, or its error. *)
Definition bin_to_hex (data : bytes) : list string + text :=
  let data := data ++ zeros ((- len data) mod 4) in
  if RAM_WORDS * 4 <? len data then inr (txt "image is " ++ dec (len data) ++ txt " bytes, larger than the testbench's " ++ dec (RAM_WORDS * 4) ++ txt "-byte RAM")
  else inl (map (fun c => HEX_line (le_combine c)) (chunks 4 data)).

(** ** A run on the emulator *)

(** [Soc::load_rom] at 0 in the isa-test profile. *)
Fixpoint isa_rom (i : Z) (ws : list Z) (m : gmap Z Z) : gmap Z Z :=
  match ws with [] => m | w :: ws => isa_rom (i + 1) ws (<[Z.land i 0xFFFF := w]> m) end.
(** [Soc::run]: a step takes a cycle at least. *)
Fixpoint isa_run (fuel : nat) (end_ : Z) (s : cpu isa_bus) : option Z * cpu isa_bus :=
  match fuel with
  | O => (None, s)
  | S fuel =>
      if cycle s <? end_ then
        let s := (step s).1 in
        match i_tohost (bus s) with Some code => (Some code, s) | None => isa_run fuel end_ s end
      else (None, s)
  end.
(** [int(line, 16).to_bytes(4, "little")]. *)
Definition line_bytes (line : string) : res bytes :=
  w ← int16 line; if (0 <=? w) && (w <? 2 ^ 32) then Ok (le_split 4 w) else Raise OverflowError.
Definition timeout_line (max_cycles : Z) (pc : text) : text := txt "[FAIL] Simulation timeout after " ++ dec max_cycles ++ txt " cycles at PC=" ++ pc.
Definition pass_line (cycles : Z) : text := txt "[PASS] tohost=1 at cycle " ++ dec cycles.
Definition fail_line (code cycles : Z) : text :=
  txt "[FAIL] tohost=0x" ++ hex8 code ++ txt " (TESTNUM=" ++ dec (Z.shiftr code 1) ++ txt ") at cycle " ++ dec cycles.
(** [simulate_emu]; its result of how the run stopped. *)
Definition emu_verdict (max_cycles : Z) (stop : option Z) (cycles : Z) (pc : text) : bool * text :=
  match stop with
  | None => (false, timeout_line max_cycles pc)
  | Some code => if code =? 1 then (true, pass_line cycles) else (false, fail_line code cycles)
  end.
Definition emu_start (image : bytes) : cpu isa_bus := power_on (mkIsa (isa_rom 0 (map le_combine (chunks 4 image)) ∅) None).
Definition simulate_emu (max_cycles : Z) (lines : list string) : res (bool * text) :=
  image ← (@concat _) <$> mapM line_bytes (filter (fun l => strip l <> []) lines);
  let '(stop, s) := isa_run (Z.to_nat max_cycles) max_cycles (emu_start image) in
  Ok (emu_verdict max_cycles stop (cycle s) (hex8 (pc s))).

(** ** A run on the RTL *)

(** hex_runner.py's own lines, and [_hex] of a signal: its value if all of it is known. *)
Definition _hex (value : option Z) (shown : text) : text := match value with Some v => hex8 v | None => shown end.
Definition rtl_pass (cycles : Z) : text := txt "[PASS] tohost=1 at cycle " ++ dec cycles.
Definition rtl_fail (code cycles : Z) : text :=
  txt "[FAIL] tohost=0x" ++ hex8 code ++ txt " (TESTNUM=" ++ dec (Z.shiftr code 1) ++ txt ") at cycle " ++ dec cycles.
Definition rtl_timeout (max_cycles : Z) (pc : text) : text := txt "[FAIL] Simulation timeout after " ++ dec max_cycles ++ txt " cycles at PC=" ++ pc.
Definition NO_FETCH_WAITED : text := txt "[FAIL] wait_mode set but no FETCH waited (tohost not looked at)".
(** [run_program]'s verdict line: [tohost]'s code if one was stored, and the waits' counters
    with WAITS. *)
Definition verdict (max_cycles : Z) (halted : option Z) (cycles : Z) (pc : text) (waits : option (Z * Z)) : text :=
  let v := match halted with
    | Some code => if code =? 1 then rtl_pass cycles else rtl_fail code cycles
    | None => rtl_timeout max_cycles pc
    end in
  match waits with
  | None => v
  | Some (iw, dw) => (if iw =? 0 then NO_FETCH_WAITED else v) ++ txt " waits: instr=" ++ dec iw ++ txt " data=" ++ dec dw
  end.
(** [simulate_rtl] after the simulation: the verdict file's text, the console file's if there
    is one, and the log's path. *)
Definition simulate_rtl (verdict console : option text) (log : text) : bool * text :=
  match verdict with
  | None => (false, txt "no verdict; see " ++ log)
  | Some v =>
      let detail := py_strip v in
      let passed := startswith (txt "[PASS]") detail in
      let detail := match console with
        | Some c =>
            if passed then detail
            else let printed := replace [10] (txt " / ") (py_strip c) in detail ++ txt " | console: " ++ drop (length printed - 300) printed
        | None => detail
        end in
      (passed, detail)
  end.

(** ** The report *)

(** [re.search(r"waits: instr=\d+ data=(\d+)", detail)], on ASCII digits. *)
Definition is_dec (c : Z) : bool := (48 <=? c) && (c <=? 57).
Definition int_of (t : text) : Z := fold_left (fun n c => 10 * n + (c - 48)) t 0.
Definition match_waits (t : text) : option Z :=
  if startswith (txt "waits: instr=") t then
    let '(n, t) := span is_dec (drop (length (txt "waits: instr=")) t) in
    if negb (bool_decide (n = [])) && startswith (txt " data=") t then
      match fst (span is_dec (drop (length (txt " data=")) t)) with [] => None | n => Some (int_of n) end
    else None
  else None.
Fixpoint search_waits (t : text) : option Z :=
  match match_waits t with Some n => Some n | None => match t with [] => None | _ :: t => search_waits t end end.
Definition data_waits (results : list (bool * text)) : Z := fold_right Z.add 0 (omap (fun r => search_waits (snd r)) results).

Inductive status := PASS | FAIL | XFAIL | XPASS.
#[export] Instance status_eq : EqDecision status. Proof. solve_decision. Defined.
Definition status_text (s : status) : text := txt (match s with PASS => "PASS" | FAIL => "FAIL" | XFAIL => "XFAIL" | XPASS => "XPASS" end).
(** A test's status and what is printed of it. *)
Definition judge (expected : list (text * text)) (name : text) (r : bool * text) : status * text :=
  match r, dict_get name expected with
  | (true, _), Some why => (XPASS, txt "listed as an expected failure (" ++ why ++ txt ") but passed")
  | (true, d), None => (PASS, d)
  | (false, d), Some why => (XFAIL, why ++ txt " | " ++ d)
  | (false, d), None => (FAIL, d)
  end.
Definition count (s : status) (l : list (status * text)) : Z := len (filter (fun x => fst x = s) l).
Definition status_line (name : text) (j : status * text) : text :=
  txt "[" ++ status_text (fst j) ++ txt "] " ++ name ++ (if bool_decide (fst j = PASS) then [] else txt ": " ++ snd j).
(** [report]: what it prints, and its result. *)
Definition report (waits : bool) (label : text) (names : list text) (results : list (bool * text)) (expected : list (text * text)) (all_names : option (list text)) : list text * bool :=
  let judged := zip_with (judge expected) names results in
  let stale := match all_names with Some all => filter (fun n => n ∉ all) (map fst expected) | None => [] end in
  let no_data_waits := waits && (data_waits results =? 0) in
  let counts := map (fun s => (s, count s judged)) [PASS; FAIL; XFAIL; XPASS] in
  let total := fold_right Z.add 0 (map snd counts) in
  (zip_with status_line names judged
   ++ map (fun n => txt "[ERROR] expected-failure entry " ++ n ++ txt " does not match any test") stale
   ++ (if no_data_waits then [txt "[ERROR] --waits: no data access waited in any test (wait_mode not reaching data_ready?)"] else [])
   ++ [[]; repeat 61 60; label ++ txt " results: " ++ join (txt ", ") (map (fun '(s, n) => dec n ++ txt " " ++ status_text s) counts) ++ txt " (total " ++ dec total ++ txt ")"; repeat 61 60],
   (0 <? total) && (count FAIL judged =? 0) && (count XPASS judged =? 0) && bool_decide (stale = []) && negb no_data_waits).

(** ** The suite *)

Section Suite.
(** riscv-tests' Makefrags, a test's binary from the compiler and objcopy (or their error), and
    the back end. *)
Variables (makefrag : text -> text) (compile : text -> text -> bytes + text) (simulate : list string -> res (bool * text)).

Definition test_name (st : text * text) : text := fst st ++ txt "-p-" ++ snd st.
(** [run_one]. *)
Definition run_one (st : text * text) : res (bool * text) :=
  match compile (fst st) (snd st) with
  | inr err => Ok (false, err)
  | inl data => match bin_to_hex data with inr err => Ok (false, err) | inl lines => simulate lines end
  end.
(** [[(s, t) for s in suites for t in list_tests(s)]]. *)
Definition all_tests : res (list (text * text)) := (@concat _) <$> mapM (fun s => map (pair s) <$> list_tests makefrag s) SUITES.
(** [run_suite]: [only], if not empty. *)
Definition run_suite (waits : bool) (only : list text) : res (list text * bool) :=
  all ← all_tests;
  let tests := filter (fun st => only = [] \/ test_name st ∈ only) all in
  results ← mapM run_one tests;
  Ok (report waits (txt "riscv-tests") (map test_name tests) results EXPECTED_FAILURES (if bool_decide (only = []) then Some (map test_name all) else None)).

(** [run_selftest], of selftest_fail.S' binary. *)
Definition run_selftest (built : bytes + text) : res text :=
  match match built with inr err => inr err | inl data => bin_to_hex data end with
  | inr err => Raise (Exit (txt "[ERROR] Self-test build failed: " ++ err))
  | inl lines =>
      '(passed, detail) ← simulate lines;
      if passed || negb (contains (txt "(TESTNUM=2)") detail) then
        Raise (Exit (txt "[ERROR] Harness self-test: expected FAIL with TESTNUM=2, got: " ++ detail))
      else Ok (txt "[INFO] Harness self-test OK (deliberate failure detected: " ++ detail ++ txt ")")
  end.
End Suite.

(** ** The image in memory *)

Lemma HEX_digit_value d : 0 <= d < 16 -> hex_value (HEX_digit d) = Some d /\ is_space (HEX_digit d) = false.
Proof.
  intros Hd. assert (H : forallb (fun k => bool_decide (hex_value (HEX_digit (Z.of_nat k)) = Some (Z.of_nat k)) && negb (is_space (HEX_digit (Z.of_nat k)))) (seq 0 16) = true) by (vm_compute; done).
  rewrite forallb_forall in H. specialize (H (Z.to_nat d) ltac:(apply in_seq; lia)). rewrite Z2Nat.id in H by lia. apply andb_true_iff in H as [H1%bool_decide_eq_true H2%negb_true_iff]. done.
Qed.
Definition HEX_digits (n : nat) (w : Z) : list ascii := map (fun i => HEX_digit (Z.land (Z.shiftr w (4 * Z.of_nat i)) 15)) (rev (seq 0 n)).
Lemma HEX_digits_S n w : HEX_digits (S n) w = HEX_digit ((w / 16 ^ Z.of_nat n) mod 16) :: HEX_digits n w.
Proof.
  unfold HEX_digits. rewrite seq_S, rev_app_distr. cbn [app map rev Nat.add]. f_equal. f_equal. rewrite (land_mask _ 4), shiftr_div by lia. f_equal. f_equal. by rewrite Z.pow_mul_r by lia.
Qed.
Lemma parse_HEX_digits n w acc : parse_hex acc (HEX_digits n w) = Some (acc * 16 ^ Z.of_nat n + w mod 16 ^ Z.of_nat n).
Proof.
  revert acc. induction n as [|n IH]; intros acc; [cbn; by rewrite Z.mod_1_r, Z.mul_1_r, Z.add_0_r|]. rewrite HEX_digits_S. cbn [parse_hex].
  destruct (HEX_digit_value ((w / 16 ^ Z.of_nat n) mod 16)) as [-> _]; [apply Z.mod_pos_bound; lia|]. rewrite IH. f_equal.
  rewrite Nat2Z.inj_succ, Z.pow_succ_r by lia. rewrite (Z.mul_comm 16 (16 ^ _)), (Z.rem_mul_r w (16 ^ Z.of_nat n) 16); lia.
Qed.
Lemma HEX_digits_nospace n w : forallb (fun c => negb (is_space c)) (HEX_digits n w) = true.
Proof.
  induction n as [|n IH]; [done|]. rewrite HEX_digits_S. cbn [forallb]. rewrite IH. destruct (HEX_digit_value ((w / 16 ^ Z.of_nat n) mod 16)) as [_ ->]; [apply Z.mod_pos_bound; lia|done].
Qed.
Lemma strip_digits l : forallb (fun c => negb (is_space c)) l = true -> l <> [] -> strip (string_of_list_ascii l ++ newline) = l.
Proof.
  intros Hl Hn. unfold strip, newline. rewrite list_ascii_app, list_ascii_of_string_of_list_ascii, drop_spaces_nospace by done. rewrite rev_app_distr.
  change (rev (list_ascii_of_string (String "010" ""))) with ["010"%char]. change (drop_spaces (["010"%char] ++ rev l)) with (drop_spaces (rev l)).
  rewrite <- (app_nil_r (rev l)), drop_spaces_nospace; [by rewrite app_nil_r, rev_involutive| |].
  - rewrite forallb_forall in *. intros c Hc. apply Hl. by rewrite in_rev.
  - intros E. apply Hn. apply (f_equal (@rev ascii)) in E. by rewrite rev_involutive in E.
Qed.
Lemma line_back w : 0 <= w < 2 ^ 32 -> strip (HEX_line w) <> [] /\ line_bytes (HEX_line w) = Ok (le_split 4 w).
Proof.
  intros Hw. unfold line_bytes, int16, HEX_line. set (n := Nat.max 8 _). fold (HEX_digits n w). assert (Hn : (8 <= n)%nat) by (unfold n; lia). clearbody n.
  destruct n as [|n]; [lia|]. rewrite strip_digits by (try apply HEX_digits_nospace; by rewrite HEX_digits_S). pose proof (parse_HEX_digits (S n) w 0) as Hp. rewrite HEX_digits_S in Hp |- *. split; [done|].
  rewrite Hp. assert (2 ^ 32 <= 16 ^ Z.of_nat (S n)) by (change (2 ^ 32) with (16 ^ 8); apply Z.pow_le_mono_r; lia). rewrite Z.mul_0_l, Z.add_0_l, Z.mod_small by lia. cbn [mbind res_bind].
  by rewrite (proj2 (Z.leb_le 0 w)), (proj2 (Z.ltb_lt w (2 ^ 32))) by lia.
Qed.
(** The words the emulator reads back are the binary's, padded. *)
Definition padded (data : bytes) : bytes := data ++ zeros ((- len data) mod 4).
Lemma len_padded data : len (padded data) mod 4 = 0.
Proof. unfold padded. pose proof (Z.mod_pos_bound (- len data) 4 ltac:(lia)). rewrite len_app, len_zeros by lia. dlia. Qed.
Lemma hex_reads data lines : bin_to_hex data = inl lines -> (@concat _) <$> mapM line_bytes (filter (fun l => strip l <> []) lines) = Ok (padded data).
Proof.
  unfold bin_to_hex. fold (padded data). destruct (_ <? _); [done|]. intros [= <-]. rewrite <- (concat_chunks 4 (padded data)) at 2 by done. pose proof (chunks_4_whole (padded data) (len_padded data)) as Hw.
  set (l := chunks 4 (padded data)) in *. clearbody l. enough (H : mapM line_bytes (filter (fun l => strip l <> []) (map (fun c => HEX_line (le_combine c)) l)) = Ok l) by (by rewrite H).
  induction Hw as [|c l Hc Hw IH]; [done|]. cbn [map]. pose proof (le_combine_range c) as Hr. destruct (line_back (le_combine c)) as [Hs Hb]; [rewrite Hc in Hr; exact Hr|].
  rewrite filter_cons_True by done. rewrite mapM_cons, Hb, IH. cbn. rewrite le_split_combine by (unfold len in Hc; lia). done.
Qed.

(** ** The run *)

(** The first store to [tohost], by an instruction that begins before [max_cycles]. *)
Definition stored (max_cycles : Z) (s : cpu isa_bus) (code : Z) : Prop :=
  exists n, (forall k, (k <= n)%nat -> let s := (steps k s).2 in i_tohost (bus s) = None /\ cycle s < max_cycles) /\ i_tohost (bus (steps (S n) s).2) = Some code.
Lemma step_later (s : cpu isa_bus) : cycle s + 2 <= cycle (step s).1.
Proof.
  pose proof (step_effect s) as H. destruct (fetch (pc s) (bus s)) as [[word wait] b0] eqn:E. injection E as _ <- <-. destruct H as (n & _ & -> & H).
  destruct H as [n Hn|addr w b1 v b2 [= <- <-] _|addr data be w b1 [= <- <-]|addr w b1 v b2 data w' b3 [= <- <-] _ [= <- <-]]; lia.
Qed.
Lemma steps_first n (s : cpu isa_bus) : (steps (S n) s).2 = (steps n (step s).1).2.
Proof. cbn [steps]. destruct (step s) as [s1 r]. cbn [fst]. by destruct (steps n s1). Qed.
Lemma steps_zero (s : cpu isa_bus) : (steps 0 s).2 = s. Proof. done. Qed.
Lemma isa_run_stored fuel max_cycles s code : i_tohost (bus s) = None -> max_cycles - cycle s <= Z.of_nat fuel -> (isa_run fuel max_cycles s).1 = Some code <-> stored max_cycles s code.
Proof.
  revert s. induction fuel as [|fuel IH]; intros s Hn Hf; cbn [isa_run].
  { split; [done|]. intros (n & H & _). destruct (H 0%nat ltac:(lia)) as [_ Hc]. cbn in Hc. lia. }
  destruct (Z.ltb_spec (cycle s) max_cycles) as [Hc|Hc]; [|split; [done|]; intros (n & H & _); destruct (H 0%nat ltac:(lia)) as [_ Hc']; cbn in Hc'; lia].
  pose proof (step_later s) as Hl. destruct (i_tohost (bus (step s).1)) as [c|] eqn:Eh.
  - cbn [fst]. split.
    + intros [= <-]. exists 0%nat. split; [intros [|k] Hk; [done|lia]|]. by rewrite steps_first.
    + intros (n & H & Hs). destruct n as [|n]; [rewrite steps_first, steps_zero in Hs; congruence|]. destruct (H 1%nat ltac:(lia)) as [H1 _]. rewrite steps_first, steps_zero in H1. congruence.
  - rewrite IH by (done || lia). split; intros (n & H & Hs).
    + exists (S n). split; [|by rewrite steps_first]. intros [|k] Hk; [done|]. rewrite steps_first. apply H. lia.
    + destruct n as [|n]; [rewrite steps_first, steps_zero in Hs; congruence|]. exists n. rewrite steps_first in Hs. split; [|done]. intros k Hk. rewrite <- steps_first. apply H. lia.
Qed.

(** ** The verdicts *)

Lemma hex8_plain n : forallb plain (hex8 n) = true.
Proof.
  unfold hex8, fmt_hex. generalize (rev (seq 0 (Nat.max 8 (Z.to_nat (Z.log2 n / 4 + 1))))). intros l. unfold txt. induction l as [|i l IH]; [done|]. cbn [map string_of_list_ascii].
  assert (Hd : 0 <= Z.land (Z.shiftr n (4 * Z.of_nat i)) 15 < 16) by (rewrite (land_mask _ 4) by lia; apply Z.mod_pos_bound; lia). set (d := Z.land _ _) in *. clearbody d.
  assert (H : forallb (fun k => forallb plain (map u8 (bstr (String (hex_digit (Z.of_nat k)) "")))) (seq 0 16) = true) by (vm_compute; done).
  rewrite forallb_forall in H. specialize (H (Z.to_nat d) ltac:(apply in_seq; lia)). rewrite Z2Nat.id in H by lia. unfold bstr in *. cbn in H |- *. rewrite andb_true_r in H. by rewrite H.
Qed.
#[export] Hint Resolve hex8_plain : plain.
Lemma plain_last l : l <> [] -> forallb plain l = true -> exists a d, l = a ++ [d] /\ is_pyspace d = false.
Proof.
  intros Hn H. destruct (exists_last Hn) as (a & d & ->). exists a, d. split; [done|]. rewrite forallb_app in H. apply andb_true_iff in H as [_ H]. cbn in H. rewrite andb_true_r in H. by apply plain_nonspace.
Qed.
(** A line of the harness, from its file. *)
Lemma line_stripped l c k t : l = c :: k ++ t -> is_pyspace c = false -> t <> [] -> forallb plain t = true -> py_strip (l ++ [10]) = l.
Proof. intros -> Hc Hn Ht. destruct (plain_last t Hn Ht) as (a & d & -> & Hd). rewrite app_assoc, (app_comm_cons (k ++ a) [d] c). by apply strip_line. Qed.
Lemma hex8_some n : hex8 n <> [].
Proof.
  unfold hex8, fmt_hex. intros E. apply (f_equal length) in E. unfold txt in E. rewrite length_map in E. unfold bstr, list_byte_of_string in E.
  rewrite length_map, list_ascii_of_string_of_list_ascii, length_map, length_rev, length_seq in E. cbn in E. lia.
Qed.
(** A verdict's first part, and that it is a line. *)
Definition verdict_start (max_cycles : Z) (stop : option Z) (cycles : Z) (pc : text) : text := verdict max_cycles stop cycles pc None.
Lemma verdict_line max_cycles stop cycles at_ : exists c k t, verdict_start max_cycles stop cycles (hex8 at_) = c :: k ++ t /\ is_pyspace c = false /\ t <> [] /\ forallb plain t = true.
Proof.
  unfold verdict_start, verdict. destruct stop as [code|]; [destruct (code =? 1)|].
  - exists 91, (drop 1 (txt "[PASS] tohost=1 at cycle ")), (dec cycles). split_and!; try done; [apply dec_some|apply dec_plain].
  - exists 91, (drop 1 (txt "[FAIL] tohost=0x") ++ hex8 code ++ txt " (TESTNUM=" ++ dec (Z.shiftr code 1) ++ txt ") at cycle "), (dec cycles).
    split_and!; try done; [unfold rtl_fail; by rewrite <- !app_assoc|apply dec_some|apply dec_plain].
  - exists 91, (drop 1 (txt "[FAIL] Simulation timeout after ") ++ dec max_cycles ++ txt " cycles at PC="), (hex8 at_).
    split_and!; try done; [unfold rtl_timeout; by rewrite <- !app_assoc|apply hex8_some|apply hex8_plain].
Qed.
Lemma verdict_stripped max_cycles stop cycles at_ waits :
  py_strip (verdict max_cycles stop cycles (hex8 at_) waits ++ [10]) = verdict max_cycles stop cycles (hex8 at_) waits.
Proof.
  destruct (verdict_line max_cycles stop cycles at_) as (c & k & t & E & Hc & Hn & Ht). destruct waits as [[iw dw]|]; [|by apply (line_stripped _ c k t)].
  unfold verdict. fold (verdict_start max_cycles stop cycles (hex8 at_)). destruct (iw =? 0).
  - apply (line_stripped _ 91 (drop 1 NO_FETCH_WAITED ++ txt " waits: instr=" ++ dec iw ++ txt " data=") (dec dw)); [by rewrite <- !app_assoc|done|apply dec_some|apply dec_plain].
  - apply (line_stripped _ c (k ++ t ++ txt " waits: instr=" ++ dec iw ++ txt " data=") (dec dw)); [|done|apply dec_some|apply dec_plain].
    change (match stop with Some code => if code =? 1 then rtl_pass cycles else rtl_fail code cycles | None => rtl_timeout max_cycles (hex8 at_) end) with (verdict_start max_cycles stop cycles (hex8 at_)).
    rewrite E. cbn [app]. by rewrite <- !app_assoc.
Qed.
(** The waits' counter is found where it was written. *)
Lemma search_skip c t : startswith (txt "waits: instr=") (c :: t) = false -> search_waits (c :: t) = search_waits t.
Proof. intros H. cbn [search_waits]. unfold match_waits. by rewrite H. Qed.
Lemma search_past a t : 119 ∉ a -> search_waits (a ++ t) = search_waits t.
Proof.
  intros H. induction a as [|c a IH]; [done|]. apply not_elem_of_cons in H as [Hc H]. cbn [app]. rewrite search_skip; [by apply IH|].
  change (txt "waits: instr=") with (119 :: txt "aits: instr="). cbn [startswith]. by rewrite (proj2 (Z.eqb_neq 119 c)) by done.
Qed.
Lemma span_dec n rest : match rest with c :: _ => is_dec c = false | [] => True end -> span is_dec (dec n ++ rest) = (dec n, rest).
Proof.
  intros Hr. apply span_all; [|done]. pose proof (dec_digits_only n) as H. rewrite Forall_forall in H. apply forallb_forall. intros c Hc. apply list_elem_of_In, H in Hc.
  unfold is_dec. rewrite andb_true_iff, !Z.leb_le. lia.
Qed.
Lemma search_found iw dw rest : 0 <= dw -> match rest with c :: _ => is_dec c = false | [] => True end ->
  search_waits (txt " waits: instr=" ++ dec iw ++ txt " data=" ++ dec dw ++ rest) = Some dw.
Proof.
  intros Hd Hr. change (txt " waits: instr=" ++ ?t) with (32 :: txt "waits: instr=" ++ t). rewrite search_skip by reflexivity. set (t := dec iw ++ _).
  assert (Hm : match_waits (txt "waits: instr=" ++ t) = Some dw); [|change (txt "waits: instr=" ++ t) with (119 :: txt "aits: instr=" ++ t) in *; cbn [search_waits]; by rewrite Hm].
  unfold match_waits. rewrite startswith_app, drop_app_length. unfold t. rewrite span_dec by done. rewrite bool_decide_false by apply dec_some. rewrite startswith_app, drop_app_length, span_dec by done. cbn [negb andb fst].
  destruct (dec dw) eqn:E; [by destruct (dec_some dw)|]. rewrite <- E. f_equal. by apply dec_value.
Qed.
Lemma no_w_dec n : 119 ∉ dec n.
Proof. intros H. pose proof (dec_digits_only n) as Hg. rewrite Forall_forall in Hg. specialize (Hg 119 H). lia. Qed.
Lemma no_w_hex8 n : 119 ∉ hex8 n.
Proof.
  unfold hex8, fmt_hex. generalize (rev (seq 0 (Nat.max 8 (Z.to_nat (Z.log2 n / 4 + 1))))). intros l. unfold txt, bstr, list_byte_of_string. rewrite list_ascii_of_string_of_list_ascii, !map_map. intros H.
  apply list_elem_of_In, in_map_iff in H as (i & E & _). assert (Hd : 0 <= Z.land (Z.shiftr n (4 * Z.of_nat i)) 15 < 16) by (rewrite (land_mask _ 4) by lia; apply Z.mod_pos_bound; lia). set (d := Z.land _ _) in *. clearbody d.
  assert (Hf : forallb (fun k => negb (u8 (byte_of_ascii (hex_digit (Z.of_nat k))) =? 119)) (seq 0 16) = true) by (vm_compute; done). rewrite forallb_forall in Hf. specialize (Hf (Z.to_nat d) ltac:(apply in_seq; lia)). rewrite Z2Nat.id, E in Hf by lia. done.
Qed.
Lemma no_w_start max_cycles stop cycles at_ : 119 ∉ verdict_start max_cycles stop cycles (hex8 at_).
Proof.
  assert (Hl : forall l : text, forallb (fun c => negb (c =? 119)) l = true -> 119 ∉ l) by (intros l Hf Hin; rewrite forallb_forall in Hf; by apply list_elem_of_In, Hf in Hin).
  unfold verdict_start, verdict, rtl_pass, rtl_fail, rtl_timeout. destruct stop as [code|]; [destruct (code =? 1)|]; rewrite !not_elem_of_app; split_and!; first [apply no_w_dec|apply no_w_hex8|apply Hl; vm_compute; reflexivity].
Qed.
Lemma search_verdict max_cycles stop cycles at_ iw dw rest : 0 <= dw -> match rest with c :: _ => is_dec c = false | [] => True end ->
  search_waits (verdict max_cycles stop cycles (hex8 at_) (Some (iw, dw)) ++ rest) = Some dw.
Proof.
  intros Hd Hr. unfold verdict. fold (verdict_start max_cycles stop cycles (hex8 at_)).
  change (match stop with Some code => if code =? 1 then rtl_pass cycles else rtl_fail code cycles | None => rtl_timeout max_cycles (hex8 at_) end) with (verdict_start max_cycles stop cycles (hex8 at_)).
  rewrite <- !app_assoc. destruct (iw =? 0); [|rewrite search_past by apply no_w_start; by apply search_found].
  set (t := dec iw ++ _). change (NO_FETCH_WAITED ++ txt " waits: instr=" ++ t) with (txt "[FAIL] " ++ 119 :: txt "ait_mode set but no FETCH " ++ 119 :: txt "aited (tohost not looked at) waits: instr=" ++ t).
  rewrite search_past by (apply (bool_decide_unpack _); vm_compute; exact I). rewrite search_skip by reflexivity. rewrite search_past by (apply (bool_decide_unpack _); vm_compute; exact I). rewrite search_skip by reflexivity.
  change (txt "aited (tohost not looked at) waits: instr=" ++ t) with (txt "aited (tohost not looked at)" ++ txt " waits: instr=" ++ t). rewrite search_past by (apply (bool_decide_unpack _); vm_compute; exact I). by apply search_found.
Qed.

(** C34: the RTL's run and the emulator's report a test alike. The testbench's verdict line,
    written by hex_runner.py to its file and read back, gives the result of the emulator's run
    for the same code, cycle and PC, and its text, behind which only a failed test's console
    output comes. With the waits on, a run in which no fetch waited fails; any other has that
    result and text, with the counters behind it; and the count of the data waits is read back
    as it was written. *)
Theorem backends_agree max_cycles stop cycles at_ shown waits console log :
  match waits with Some (iw, dw) => 0 <= iw /\ 0 <= dw | None => True end ->
  let '(passed, line) := emu_verdict max_cycles stop cycles (hex8 at_) in
  let r := simulate_rtl (Some (verdict max_cycles stop cycles (_hex (Some at_) shown) waits ++ [10])) console log in
  match waits with
  | None => fst r = passed /\ exists more, snd r = line ++ more /\ (passed = true \/ console = None -> more = [])
  | Some (iw, dw) => fst r = passed && negb (iw =? 0) /\ data_waits [r] = dw /\ (iw <> 0 -> exists more, snd r = line ++ more)
  end.
Proof.
  intros Hw. cbn [_hex]. destruct (emu_verdict max_cycles stop cycles (hex8 at_)) as [passed line] eqn:Ev.
  assert (Hline : verdict_start max_cycles stop cycles (hex8 at_) = line /\ forall t, startswith (txt "[PASS]") (verdict_start max_cycles stop cycles (hex8 at_) ++ t) = passed).
  { unfold emu_verdict in Ev. unfold verdict_start, verdict. destruct stop as [code|]; [destruct (code =? 1)|]; injection Ev as <- <-; done. }
  destruct Hline as [Hline Hpass].
  unfold simulate_rtl. rewrite verdict_stripped. destruct waits as [[iw dw]|].
  - destruct Hw as [Hi Hd]. set (v := verdict max_cycles stop cycles (hex8 at_) (Some (iw, dw))).
    assert (Hv : startswith (txt "[PASS]") v = passed && negb (iw =? 0) /\ (iw <> 0 -> exists more, v = line ++ more)).
    { unfold v, verdict. change (match stop with Some code => if code =? 1 then rtl_pass cycles else rtl_fail code cycles | None => rtl_timeout max_cycles (hex8 at_) end) with (verdict_start max_cycles stop cycles (hex8 at_)).
      destruct (Z.eqb_spec iw 0) as [->|Hne]; [rewrite andb_false_r; done|]. rewrite andb_true_r, Hpass, Hline. split; [done|]. intros _. by eexists. }
    destruct Hv as [Hv1 Hv2]. cbv zeta. rewrite Hv1. split; [done|]. set (d := match console with Some _ => _ | None => _ end).
    assert (Hd' : exists rest, d = v ++ rest /\ match rest with c :: _ => is_dec c = false | [] => True end).
    { unfold d. destruct console as [c|]; [|exists []; by rewrite app_nil_r]. destruct (passed && _); [exists []; by rewrite app_nil_r|]. by eexists. }
    destruct Hd' as (rest & -> & Hrest). split.
    + unfold data_waits. cbn [omap list_omap snd]. unfold v. rewrite search_verdict by done. cbn. lia.
    + intros Hne. destruct (Hv2 Hne) as [more ->]. exists (more ++ rest). cbn [snd]. by rewrite app_assoc.
  - change (verdict max_cycles stop cycles (hex8 at_) None) with (verdict_start max_cycles stop cycles (hex8 at_)). specialize (Hpass []). rewrite app_nil_r in Hpass. cbv zeta. rewrite Hpass, Hline. split; [done|]. cbn [snd].
    destruct console as [c|]; [|exists []; by rewrite app_nil_r]. destruct passed; [exists []; by rewrite app_nil_r|]. eexists. split; [reflexivity|]. by intros [?|?].
Qed.

(** ** The self-test *)

Lemma dec_digits_ge fuel n acc : Forall (fun c => 48 <= c) acc -> Forall (fun c => 48 <= c) (dec_digits fuel n acc).
Proof.
  revert n acc. induction fuel as [|fuel IH]; intros n acc H; cbn [dec_digits]; [done|]. pose proof (Z.mod_pos_bound n 10 ltac:(lia)).
  assert (Forall (fun c => 48 <= c) ((48 + n mod 10) :: acc)) by (constructor; [lia|done]). destruct (n <? 10); [done|by apply IH].
Qed.
Lemma dec_two n t : 0 <= n -> startswith (txt "2)") (dec n ++ 41 :: t) = bool_decide (n = 2).
Proof.
  intros Hn. destruct (Z.lt_ge_cases n 10) as [Hs|Hb].
  - unfold dec. cbn [dec_digits]. rewrite (proj2 (Z.ltb_lt n 10) Hs), Z.mod_small by lia. change (startswith (txt "2)") ([48 + n] ++ 41 :: t)) with ((50 =? 48 + n) && true). rewrite andb_true_r. destruct (Z.eqb_spec 50 (48 + n)); case_bool_decide; try done; lia.
  - assert (Hd : exists c d r, dec n = c :: d :: r /\ 48 <= d).
    { pose proof (dec_digits_ge (S (Z.to_nat (Z.log2 n))) n [] ltac:(constructor)) as Hg. unfold dec in *. cbn [dec_digits] in *. rewrite (proj2 (Z.ltb_ge n 10)) in * by lia. rewrite dec_digits_acc in *.
      assert (Hne : dec_digits (Z.to_nat (Z.log2 n)) (n / 10) [] <> []).
      { pose proof (Z.log2_le_mono 8 n ltac:(lia)) as Hl. change (Z.log2 8) with 3 in Hl. destruct (Z.to_nat (Z.log2 n)) as [|f] eqn:E; [lia|]. cbn [dec_digits]. destruct (_ <? 10); [done|]. rewrite dec_digits_acc. by destruct (dec_digits f _ []). }
      destruct (dec_digits _ (n / 10) []) as [|c [|d r]]; [done|..]; cbn [app] in *.
      - eexists _, _, _. split; [reflexivity|]. inversion_clear Hg as [|? ? _ Hg']. by inversion_clear Hg'.
      - eexists _, _, _. split; [reflexivity|]. inversion_clear Hg as [|? ? _ Hg']. by inversion_clear Hg'. }
    destruct Hd as (c & d & r & -> & Hd). change (startswith (txt "2)") ((c :: d :: r) ++ 41 :: t)) with ((50 =? c) && ((41 =? d) && true)). rewrite (proj2 (Z.eqb_neq 41 d)), andb_false_r by lia. by rewrite bool_decide_false by lia.
Qed.
Lemma plain_not c l : plain c = false -> forallb plain l = true -> c ∉ l.
Proof. intros Hc Hl Hin. rewrite forallb_forall in Hl. apply list_elem_of_In, Hl in Hin. congruence. Qed.
Lemma dec_no_paren n : 40 ∉ dec n.
Proof. intros H. pose proof (dec_digits_ge (S (Z.to_nat (Z.log2 n))) n [] ltac:(constructor)) as Hg. rewrite Forall_forall in Hg. specialize (Hg 40 H). lia. Qed.
Lemma hex8_no_paren n : 40 ∉ hex8 n.
Proof.
  unfold hex8, fmt_hex. generalize (rev (seq 0 (Nat.max 8 (Z.to_nat (Z.log2 n / 4 + 1))))). intros l. unfold txt, bstr, list_byte_of_string. rewrite list_ascii_of_string_of_list_ascii, !map_map. intros H.
  apply list_elem_of_In, in_map_iff in H as (i & E & _). assert (Hd : 0 <= Z.land (Z.shiftr n (4 * Z.of_nat i)) 15 < 16) by (rewrite (land_mask _ 4) by lia; apply Z.mod_pos_bound; lia). set (d := Z.land _ _) in *. clearbody d.
  assert (Hf : forallb (fun k => negb (u8 (byte_of_ascii (hex_digit (Z.of_nat k))) =? 40)) (seq 0 16) = true) by (vm_compute; done). rewrite forallb_forall in Hf. specialize (Hf (Z.to_nat d) ltac:(apply in_seq; lia)). rewrite Z2Nat.id, E in Hf by lia. done.
Qed.
(** A verdict names test 2 exactly for the codes 4 and 5. *)
Lemma names_two code cycles : 0 <= code -> contains (txt "(TESTNUM=2)") (fail_line code cycles) = bool_decide (code = 4 \/ code = 5).
Proof.
  intros Hc. change (txt "(TESTNUM=2)") with (40 :: txt "TESTNUM=2)"). unfold fail_line. change (txt " (TESTNUM=" ++ ?t) with ([32] ++ 40 :: txt "TESTNUM=" ++ t).
  rewrite contains_skip by (intros H; repeat (apply elem_of_cons in H as [H|H]; [done|]); by apply not_elem_of_nil in H). rewrite contains_skip by apply hex8_no_paren. rewrite contains_skip by (intros H; repeat (apply elem_of_cons in H as [H|H]; [done|]); by apply not_elem_of_nil in H).
  rewrite contains_cons, contains_none.
  - rewrite orb_false_r. change (startswith (40 :: txt "TESTNUM=2)") (40 :: txt "TESTNUM=" ++ ?t)) with (startswith (txt "2)") t). change (txt ") at cycle " ++ ?t) with (41 :: txt " at cycle " ++ t).
    rewrite dec_two by (apply Z.shiftr_nonneg; lia). rewrite shiftr_div by lia. change (2 ^ 1) with 2. apply bool_decide_ext. split; [intros H|intros [-> | ->]; done]. dlia.
  - rewrite !not_elem_of_app. split_and!; [|apply dec_no_paren| |apply dec_no_paren]; intros H; repeat (apply elem_of_cons in H as [H|H]; [done|]); by apply not_elem_of_nil in H.
Qed.
Lemma timeout_no_two max_cycles at_ : contains (txt "(TESTNUM=2)") (timeout_line max_cycles (hex8 at_)) = false.
Proof.
  apply contains_none. unfold timeout_line. rewrite !not_elem_of_app. split_and!; [|apply dec_no_paren| |apply hex8_no_paren]; intros H; repeat (apply elem_of_cons in H as [H|H]; [done|]); by apply not_elem_of_nil in H.
Qed.
Lemma isa_rom_ok i ws m : Forall is_u32 ws -> map_Forall (fun _ w => is_u32 w) m -> map_Forall (fun _ w => is_u32 w) (isa_rom i ws m).
Proof. intros Hw. revert i m. induction Hw as [|w ws Hw Hws IH]; intros i m Hm; [done|]. cbn [isa_rom]. apply IH. by apply map_Forall_insert_2. Qed.
Lemma emu_start_wf data : cpu_wf (emu_start (padded data)).
Proof.
  apply power_on_wf. split; [|done]. apply isa_rom_ok; [|done]. apply Forall_map. eapply Forall_impl; [apply (chunks_4_whole _ (len_padded data))|]. intros c Hc. pose proof (le_combine_range c) as Hr. rewrite Hc in Hr. exact Hr.
Qed.
Lemma stored_nonneg max_cycles data code : stored max_cycles (emu_start (padded data)) code -> 0 <= code.
Proof. intros (n & _ & Hs). pose proof (wf_bus _ (steps_keep (S n) _ (emu_start_wf data))) as [_ Ht]. apply Ht in Hs. unfold is_u32 in Hs. lia. Qed.
(** A test's run from its binary. *)
Lemma emu_runs max_cycles data lines : bin_to_hex data = inl lines ->
  simulate_emu max_cycles lines = Ok (let '(stop, s) := isa_run (Z.to_nat max_cycles) max_cycles (emu_start (padded data)) in emu_verdict max_cycles stop (cycle s) (hex8 (pc s))).
Proof. intros H. unfold simulate_emu. rewrite (hex_reads data lines H). cbn [mbind res_bind]. by destruct (isa_run _ _ _) as [stop s]. Qed.
Definition fits (data : bytes) : Prop := len (padded data) <= RAM_WORDS * 4.
Lemma hex_fits data : (exists lines, bin_to_hex data = inl lines /\ fits data) \/ (exists err, bin_to_hex data = inr err /\ ~ fits data).
Proof. unfold bin_to_hex, fits. fold (padded data). destruct (Z.ltb_spec (RAM_WORDS * 4) (len (padded data))); [right|left]; eexists; (split; [done|lia]). Qed.
Lemma run_codes max_cycles data code : 0 <= max_cycles -> (isa_run (Z.to_nat max_cycles) max_cycles (emu_start (padded data))).1 = Some code <-> stored max_cycles (emu_start (padded data)) code.
Proof. intros Hm. apply isa_run_stored; [done|]. cbn. lia. Qed.
(** C33: the harness' self-test passes exactly if the deliberately failing test was built and its first store to tohost was 4 or 5, whose test number is 2, the 5 that riscv-tests stores for it among them. *)
Theorem selftest_detects max_cycles built : 0 <= max_cycles ->
  is_ok (run_selftest (simulate_emu max_cycles) built) = true <->
  exists data code, built = inl data /\ fits data /\ stored max_cycles (emu_start (padded data)) code /\ (code = 4 \/ code = 5).
Proof.
  intros Hm. unfold run_selftest. destruct built as [data|err]; [|by split; [|intros (d & c & [=] & _)]]. destruct (hex_fits data) as [(lines & Hl & Hf)|(err & Hl & Hf)]; rewrite Hl.
  2: { split; [done|]. by intros (d & c & [= <-] & ? & _). }
  rewrite (emu_runs _ _ _ Hl). pose proof (run_codes max_cycles data) as Hr. destruct (isa_run _ _ _) as [stop s]. cbn [mbind res_bind fst] in *. unfold emu_verdict. destruct stop as [code|].
  - pose proof (proj1 (Hr code Hm) eq_refl) as Hst. assert (Hone : forall c, stored max_cycles (emu_start (padded data)) c -> c = code) by (intros c Hc%Hr; [congruence|done]).
    destruct (Z.eqb_spec code 1) as [->|Hne]; cbn [orb].
    + split; [done|]. intros (d & c & [= <-] & _ & ->%Hone & [|]); lia.
    + rewrite names_two by (by apply (stored_nonneg max_cycles data)). destruct (bool_decide_reflect (code = 4 \/ code = 5)) as [H45|H45]; cbn [negb].
      * split; [|done]. intros _. by exists data, code.
      * split; [done|]. by intros (d & c & [= <-] & _ & ->%Hone & ?).
  - cbn [orb]. rewrite timeout_no_two. split; [done|]. intros (d & c & [= <-] & _ & Hst%Hr & _); [done|done].
Qed.

(** ** The report's verdict *)

Lemma count_none s l : count s l = 0 <-> Forall (fun x => fst x <> s) l.
Proof.
  unfold count. induction l as [|x l IH]; [done|]. rewrite filter_cons. destruct (decide (fst x = s)) as [E|E].
  - rewrite len_cons. pose proof (len_nonneg (filter (fun x => fst x = s) l)) as Hp. split; [lia|]. intros H. by inversion_clear H.
  - rewrite IH. split; [by constructor|]. intros H. by inversion_clear H.
Qed.
Lemma count_total l : fold_right Z.add 0 (map snd (map (fun s => (s, count s l)) [PASS; FAIL; XFAIL; XPASS])) = len l.
Proof.
  cbn [map snd fold_right]. induction l as [|[s d] l IH]; [done|]. rewrite len_cons, <- IH. unfold count. rewrite !filter_cons. cbn [fst].
  destruct s; repeat first [rewrite decide_True by done | rewrite decide_False by done]; rewrite ?len_cons; lia.
Qed.
Definition as_expected (expected : list (text * text)) (name : text) (r : bool * text) : Prop := fst r = true <-> dict_get name expected = None.
Lemma judge_expected expected name r : as_expected expected name r <-> fst (judge expected name r) <> FAIL /\ fst (judge expected name r) <> XPASS.
Proof.
  unfold as_expected, judge. destruct r as [[] d], (dict_get name expected); cbn [fst].
  - split; [intros [H _]; by specialize (H eq_refl)|intros [_ H]; by destruct H].
  - done.
  - done.
  - split; [intros [_ H]; by specialize (H eq_refl)|intros [H _]; by destruct H].
Qed.
Lemma judged_expected expected names results : length names = length results ->
  count FAIL (zip_with (judge expected) names results) = 0 /\ count XPASS (zip_with (judge expected) names results) = 0 <-> Forall2 (as_expected expected) names results.
Proof.
  intros Hl. rewrite !count_none. revert results Hl. induction names as [|n names IH]; intros [|r results] Hl; [split; [constructor|by split]|discriminate..|].
  injection Hl as Hl. cbn [zip_with]. rewrite !Forall_cons, Forall2_cons, <- IH, judge_expected by done. tauto.
Qed.
Lemma report_result label names results expected all : length names = length results ->
  (report false label names results expected (Some all)).2 = true <-> names <> [] /\ Forall2 (as_expected expected) names results /\ Forall (fun n => n ∈ all) (map fst expected).
Proof.
  intros Hl. unfold report. cbn [snd andb negb]. rewrite count_total, !andb_true_iff, Z.ltb_lt, !Z.eqb_eq, bool_decide_eq_true. rewrite <- (judged_expected expected names results Hl).
  assert (Hlen : 0 < len (zip_with (judge expected) names results) <-> names <> []).
  { unfold len. rewrite length_zip_with_l by lia. destruct names; cbn; [split; [lia|done]|split; [done|lia]]. }
  assert (Hst : filter (fun n => n ∉ all) (map fst expected) = [] <-> Forall (fun n => n ∈ all) (map fst expected)).
  { induction (map fst expected) as [|n l IH]; [done|]. rewrite filter_cons, Forall_cons, <- IH. destruct (decide (n ∉ all)) as [H|H]; [split; [done|tauto]|]. destruct (decide (n ∈ all)); tauto. }
  rewrite Hlen, Hst. tauto.
Qed.

(** ** The suite's verdict *)

(** A test that passes: it was built, fits the RAM, and its first store to [tohost], within the
    cycles, is 1. *)
Definition passes (max_cycles : Z) (built : bytes + text) : Prop :=
  exists data, built = inl data /\ fits data /\ stored max_cycles (emu_start (padded data)) 1.
Lemma run_one_passes max_cycles compile st : 0 <= max_cycles ->
  exists r, run_one compile (simulate_emu max_cycles) st = Ok r /\ (fst r = true <-> passes max_cycles (compile (fst st) (snd st))).
Proof.
  intros Hm. unfold run_one, passes. destruct (compile (fst st) (snd st)) as [data|err]; [|eexists; split; [done|]; split; [done|by intros (d & [=] & _)]].
  destruct (hex_fits data) as [(lines & Hl & Hf)|(err & Hl & Hf)]; rewrite Hl.
  2: { eexists. split; [done|]. split; [done|]. by intros (d & [= <-] & ? & _). }
  rewrite (emu_runs _ _ _ Hl). eexists. split; [reflexivity|]. pose proof (run_codes max_cycles data) as Hr. destruct (isa_run _ _ _) as [stop s]. cbn [fst] in Hr. unfold emu_verdict.
  assert (Hp : stop = Some 1 <-> exists d, inl data = @inl _ text d /\ fits d /\ stored max_cycles (emu_start (padded d)) 1).
  { rewrite (Hr 1 Hm). split; [intros H; by exists data|]. by intros (d & [= <-] & _ & H). }
  rewrite <- Hp. destruct stop as [code|]; [|done]. destruct (Z.eqb_spec code 1) as [->|Hne]; [done|]. cbn [fst]. split; [done|congruence].
Qed.
(** C15: run on the emulator, the suite passes exactly if there are tests, each of them passes unless it is listed as an expected failure and fails if it is, and every entry of that list is some test's name. A test passes exactly if its binary fits the RAM and the first value that its run stores to tohost, within the cycles, is 1. *)
Theorem suite_passes makefrag compile max_cycles tests :
  0 <= max_cycles -> all_tests makefrag = Ok tests ->
  exists printed ok, run_suite makefrag compile (simulate_emu max_cycles) false [] = Ok (printed, ok) /\
    (ok = true <-> tests <> [] /\
      (forall st, st ∈ tests -> passes max_cycles (compile (fst st) (snd st)) <-> test_name st ∉ map fst EXPECTED_FAILURES) /\
      (forall name, name ∈ map fst EXPECTED_FAILURES -> exists st, st ∈ tests /\ test_name st = name)).
Proof.
  intros Hm Ha. unfold run_suite. rewrite Ha. cbn [mbind res_bind].
  assert (Hall : filter (fun st => @nil text = [] \/ test_name st ∈ @nil text) tests = tests) by (clear; induction tests as [|st l IH]; [done|]; rewrite filter_cons_True by (by left); by rewrite IH). rewrite Hall. clear Hall.
  assert (Hrun : exists results, mapM (run_one compile (simulate_emu max_cycles)) tests = Ok results /\ Forall2 (fun st r => fst r = true <-> passes max_cycles (compile (fst st) (snd st))) tests results).
  { clear Ha. induction tests as [|st l (results & Hr & Hf)]; [by exists []|]. destruct (run_one_passes max_cycles compile st Hm) as (r & Hr1 & Hp). exists (r :: results). rewrite mapM_cons, Hr1, Hr. split; [done|by constructor]. }
  destruct Hrun as (results & -> & Hf). cbn [mbind res_bind]. rewrite (bool_decide_true (@nil text = [])) by done. pose proof (report_result (txt "riscv-tests") (map test_name tests) results EXPECTED_FAILURES (map test_name tests) ltac:(rewrite length_map; by apply Forall2_length in Hf)) as Hrep.
  destruct (report _ _ _ _ _ _) as [printed ok]. exists printed, ok. split; [done|]. cbn [snd] in Hrep. rewrite Hrep. clear Hrep.
  assert (Hkey : forall n, dict_get n EXPECTED_FAILURES = None <-> n ∉ map fst EXPECTED_FAILURES).
  { intros n. unfold dict_get, EXPECTED_FAILURES. cbn [rev app List.find fst map]. destruct (bool_decide_reflect (txt "rv32mi-p-pmpaddr" = n)) as [<-|H1]; [split; [done|]; intros H; destruct H; right; by left|].
    destruct (bool_decide_reflect (txt "rv32ui-p-ma_data" = n)) as [<-|H2]; [split; [done|]; intros H; destruct H; by left|]. split; [|done]. intros _ H. apply elem_of_cons in H as [H|H]; [by symmetry in H|]. apply list_elem_of_singleton in H. by symmetry in H. }
  split; intros (H1 & H2 & H3).
  - split; [by intros ->|]. split.
    + intros st Hin. apply list_elem_of_lookup in Hin as [i Hi]. change (map test_name tests) with (test_name <$> tests) in H2. rewrite Forall2_fmap_l in H2. destruct (Forall2_lookup_l _ _ _ _ _ Hf Hi) as (r & Hri & Hp). pose proof (Forall2_lookup_lr _ _ _ _ _ _ H2 Hi Hri) as He. change (r.1 = true <-> dict_get (test_name st) EXPECTED_FAILURES = None) in He. rewrite <- Hp, He. apply Hkey.
    + intros n Hn. rewrite Forall_forall in H3. apply H3, list_elem_of_fmap in Hn as (st & -> & Hin). by exists st.
  - split; [by destruct tests|]. split.
    + change (map test_name tests) with (test_name <$> tests). rewrite Forall2_fmap_l. apply Forall2_same_length_lookup. split; [by apply Forall2_length in Hf|]. intros i st r Hi Hri. change (r.1 = true <-> dict_get (test_name st) EXPECTED_FAILURES = None). rewrite Hkey, <- H2 by (by eapply list_elem_of_lookup_2). apply (Forall2_lookup_lr _ _ _ _ _ _ Hf Hi Hri).
    + apply Forall_forall. intros n Hn. destruct (H3 n Hn) as (st & Hin & <-). apply list_elem_of_fmap. by exists st.
Qed.

(** ** A small suite *)

Module Demo.
Definition makefrag (suite : text) : text :=
  txt "# " ++ suite ++ [10] ++ suite ++ txt "_sc_tests = \" ++ [10] ++ txt "	simple ma_data \" ++ [10] ++ txt "	pmpaddr amocas_w" ++ [10; 10] ++ txt "other = x" ++ [10].
(** Stores [code] to [tohost] and stays. *)
Definition store_code (code : Z) : list Z := [0xF00002B7; Z.lor (Z.shiftl code 20) 0x313; 0x0062A023; 0x0000006F].
Definition binary (code : Z) : bytes := concat (map (le_split 4) (store_code code)).
Definition compile (suite test : text) : bytes + text :=
  if bool_decide (test_name (suite, test) ∈ map fst EXPECTED_FAILURES) then inl (binary 5)
  else if bool_decide (test = txt "broken") then inr (txt "compile failed") else inl (binary 1).
Definition tests : list (text * text) := concat (map (fun s => map (pair s) (map txt ["simple"; "ma_data"; "pmpaddr"]%string)) SUITES).
Example listed : all_tests makefrag = Ok tests. Proof. vm_compute. reflexivity. Qed.
Example suite_runs : snd <$> run_suite makefrag compile (simulate_emu 100) false [] = Ok true. Proof. vm_compute. reflexivity. Qed.
Example selftest_runs : is_ok (run_selftest (simulate_emu 100) (inl (binary 5))) = true /\ is_ok (run_selftest (simulate_emu 100) (inl (binary 3))) = false. Proof. split; vm_compute; reflexivity. Qed.
End Demo.

Lemma suite_passes_witness : exists printed ok, run_suite Demo.makefrag Demo.compile (simulate_emu 100) false [] = Ok (printed, ok) /\
    (ok = true <-> Demo.tests <> [] /\
      (forall st, st ∈ Demo.tests -> passes 100 (Demo.compile (fst st) (snd st)) <-> test_name st ∉ map fst EXPECTED_FAILURES) /\
      (forall name, name ∈ map fst EXPECTED_FAILURES -> exists st, st ∈ Demo.tests /\ test_name st = name)).
Proof. apply (suite_passes Demo.makefrag Demo.compile 100 Demo.tests); [lia|exact Demo.listed]. Defined.
Lemma selftest_detects_witness : is_ok (run_selftest (simulate_emu 100) (inl (Demo.binary 5))) = true <->
  exists data code, @inl bytes text (Demo.binary 5) = inl data /\ fits data /\ stored 100 (emu_start (padded data)) code /\ (code = 4 \/ code = 5).
Proof. apply (selftest_detects 100 (inl (Demo.binary 5))). lia. Defined.
Lemma backends_agree_witness :
  let r := simulate_rtl (Some (verdict 200000 (Some 7) 812 (_hex (Some 0x1B4) []) (Some (40, 3)) ++ [10])) (Some (txt "mismatch")) (txt "sim.log") in
  fst r = false && negb (40 =? 0) /\ data_waits [r] = 3 /\ (40 <> 0 -> exists more, snd r = fail_line 7 812 ++ more).
Proof. apply (backends_agree 200000 (Some 7) 812 0x1B4 [] (Some (40, 3)) (Some (txt "mismatch")) (txt "sim.log")). lia. Defined.
