(* ===== verification/Caches.v ===== *)
(** * The window's caches

    emu/crates/vux9k_emu/src/cache.rs: the emulator keeps one memory and, of the caches, only
    which words they hold, which lines are dirty and what the PSRAM holds behind a dirty line.
    This refines a write-back data cache and an instruction cache that keep their own copies
    over a PSRAM: what a fetch or a load gives and how long it waits are the same, and so is
    what the PSRAM is left with at a power-on reset. *)
From S2P Require Import Prelude Rv32Asm Models Rv32Csr Rv32Cpu.
#[local] Open Scope Z_scope.

(** ** emu/crates/vux9k_emu/src/cache.rs *)

Definition ICACHE_LINES : Z := 512.
Definition DCACHE_LINES : Z := 64.
Definition LINE_WORDS : Z := 8.
Definition XMEM_READ_LATENCY : Z := 35.
Definition XMEM_WRITE_LATENCY : Z := 34.
Definition BURST_EXTRA : Z := 2 * (LINE_WORDS - 1).
Definition XMEM_LINE_FILL : Z := XMEM_READ_LATENCY + BURST_EXTRA.
Definition XMEM_LINE_DIRTY : Z := XMEM_WRITE_LATENCY + BURST_EXTRA + 2 + XMEM_LINE_FILL.
Definition XMEM_FETCH_FILL : Z := XMEM_LINE_FILL.
Definition XMEM_FETCH_PROBE : Z := XMEM_WRITE_LATENCY + BURST_EXTRA + 3 + XMEM_FETCH_FILL.

(** The memory: a word per index. *)
Definition mem : Type := Z -> Z.
Definition put_word (m : mem) (i v : Z) : mem := fun j => if j =? i then v else m j.
(** The words of line [n], and a line's words put back. *)
Definition line_words (m : mem) (n : Z) : list Z := map (fun k => m (8 * n + k)) [0; 1; 2; 3; 4; 5; 6; 7].
Definition put_line (m : mem) (n : Z) (d : list Z) : mem := fun i => if i / LINE_WORDS =? n then nth (Z.to_nat (i mod LINE_WORDS)) d 0 else m i.

Record CacheStats := mkStats {
  fetch_hits : Z; fetch_misses : Z; load_hits : Z; load_misses : Z; stores : Z; store_hits : Z; store_misses : Z;
  writebacks : Z; probe_writebacks : Z
}.
Definition stats_default : CacheStats := mkStats 0 0 0 0 0 0 0 0 0.

(** [Caches]: the lines that are valid; a data line's tag and whether it is dirty. *)
Record Caches := mkCaches { itag : gmap Z Z; dline : gmap Z (Z * bool); behind : gmap Z (list Z); stats : CacheStats }.
Definition caches_default : Caches := mkCaches ∅ ∅ ∅ stats_default.

Definition iline_of (word : Z) : Z * Z := let line := word / LINE_WORDS in (line mod ICACHE_LINES, line / ICACHE_LINES).
Definition dline_of (word : Z) : Z * Z := let line := word / LINE_WORDS in (line mod DCACHE_LINES, line / DCACHE_LINES).

(** [fetch]. *)
Definition cache_fetch (word : Z) (c : Caches) : Z * Caches :=
  let '(line, tag) := iline_of word in
  let s := stats c in
  if bool_decide (itag c !! line = Some tag) then
    (0, mkCaches (itag c) (dline c) (behind c)
      (mkStats (fetch_hits s + 1) (fetch_misses s) (load_hits s) (load_misses s) (stores s) (store_hits s) (store_misses s) (writebacks s) (probe_writebacks s)))
  else
    let s := mkStats (fetch_hits s) (fetch_misses s + 1) (load_hits s) (load_misses s) (stores s) (store_hits s) (store_misses s) (writebacks s) (probe_writebacks s) in
    let itag' := <[line := tag]> (itag c) in
    let '(dl, dtag) := dline_of word in
    if bool_decide (dline c !! dl = Some (dtag, true)) then
      (XMEM_FETCH_PROBE, mkCaches itag' (<[dl := (dtag, false)]> (dline c)) (behind c)
        (mkStats (fetch_hits s) (fetch_misses s) (load_hits s) (load_misses s) (stores s) (store_hits s) (store_misses s) (writebacks s) (probe_writebacks s + 1)))
    else (XMEM_FETCH_FILL, mkCaches itag' (dline c) (behind c) s).

(** [access]'s wait, by the line at the word's index. *)
Definition access_wait (l : option (Z * bool)) (tag : Z) : Z :=
  match l with
  | Some (t, dirty) => if t =? tag then 0 else if dirty then XMEM_LINE_DIRTY else XMEM_LINE_FILL
  | None => XMEM_LINE_FILL
  end.

(** [access]'s counts. *)
Definition access_stats (store : bool) (wait : Z) (s : CacheStats) : CacheStats :=
  let hit := wait =? 0 in
  let add (b : bool) n := if b then n + 1 else n in
  mkStats (fetch_hits s) (fetch_misses s) (add (negb store && hit) (load_hits s)) (add (negb store && negb hit) (load_misses s))
    (add store (stores s)) (add (store && hit) (store_hits s)) (add (store && negb hit) (store_misses s))
    (add (wait =? XMEM_LINE_DIRTY) (writebacks s)) (probe_writebacks s).

(** [access]. *)
Definition cache_access (word : Z) (store : bool) (m : mem) (c : Caches) : Z * Caches :=
  let '(line, tag) := dline_of word in
  let wait := access_wait (dline c !! line) tag in
  let dline1 := if negb (wait =? 0) then <[line := (tag, false)]> (dline c) else dline c in
  let s := access_stats store wait (stats c) in
  if store then
    let behind' := match dline1 !! line with
      | Some (_, true) => behind c
      | _ => <[line := line_words m (word / LINE_WORDS)]> (behind c) end in
    (wait, mkCaches (delete (fst (iline_of word)) (itag c)) (<[line := (tag, true)]> dline1) behind' s)
  else (wait, mkCaches (itag c) dline1 (behind c) s).

(** [psram_written]. *)
Definition psram_written (word value : Z) (c : Caches) : Caches :=
  let '(line, tag) := dline_of word in
  if bool_decide (dline c !! line = Some (tag, true)) then
    mkCaches (itag c) (dline c) (alter (fun d => <[Z.to_nat (word mod LINE_WORDS) := value]> d) line (behind c)) (stats c)
  else c.

(** [power_on]'s memory: the words behind the dirty lines put back, line by line. *)
Definition power_on_mem (m : mem) (c : Caches) : mem :=
  foldl (fun m line => match dline c !! line with
    | Some (tag, true) => put_line m (tag * DCACHE_LINES + line) (default [] (behind c !! line))
    | _ => m end) m (map Z.of_nat (seq 0 (Z.to_nat DCACHE_LINES))).
Definition cache_power_on (m : mem) (c : Caches) : mem * Caches := (power_on_mem m c, caches_default).

(** ** The accesses of the CPU (soc.rs's window) *)

Inductive access : Type :=
| AFetch (word : Z)
| ALoad (word : Z)
| AStore (word data be : Z)
| APowerOn.

(** What the emulator does: the word given (of a store, 0) and the wait. *)
Definition emu_access (a : access) (mc : mem * Caches) : (Z * Z) * (mem * Caches) :=
  let '(m, c) := mc in
  match a with
  | AFetch w => let '(wait, c) := cache_fetch w c in ((m w, wait), (m, c))
  | ALoad w => let '(wait, c) := cache_access w false m c in ((m w, wait), (m, c))
  | AStore w data be => let '(wait, c) := cache_access w true m c in ((0, wait), (put_word m w (merge_bytes (m w) data be), c))
  | APowerOn => ((0, 0), cache_power_on m c)
  end.

(** ** Caches that hold their words *)

(** The PSRAM; per line, the instruction cache's tag and words and the data cache's tag, dirty
    bit and words. *)
Record cached := mkCached { psram : mem; ilines : gmap Z (Z * list Z); dlines : gmap Z (Z * bool * list Z) }.

(** A dirty line written back. *)
Definition write_back (l : Z) (w : cached) : cached :=
  match dlines w !! l with
  | Some (t, true, d) => mkCached (put_line (psram w) (t * DCACHE_LINES + l) d) (ilines w) (<[l := (t, false, d)]> (dlines w))
  | _ => w
  end.

(** A miss: the victim written back, the line filled. *)
Definition fill (l t : Z) (w : cached) : cached :=
  let w := write_back l w in
  mkCached (psram w) (ilines w) (<[l := (t, false, line_words (psram w) (t * DCACHE_LINES + l))]> (dlines w)).

(** The line of a word present, and the wait. *)
Definition present (word : Z) (w : cached) : Z * cached :=
  let '(l, t) := dline_of word in
  match dlines w !! l with
  | Some (t', dirty, _) => if t' =? t then (0, w) else (if dirty : bool then XMEM_LINE_DIRTY else XMEM_LINE_FILL, fill l t w)
  | None => (XMEM_LINE_FILL, fill l t w)
  end.

(** The word in its line. *)
Definition line_word (word : Z) (w : cached) : Z :=
  match dlines w !! fst (dline_of word) with Some (_, _, d) => nth (Z.to_nat (word mod LINE_WORDS)) d 0 | None => 0 end.

(** A fetch's miss: the data line written back if it holds the word dirty, the line filled. *)
Definition probe (word : Z) (w : cached) : bool :=
  match dlines w !! fst (dline_of word) with Some (t, true, _) => t =? snd (dline_of word) | _ => false end.
Definition fill_fetch (word : Z) (w : cached) : (Z * Z) * cached :=
  let wait := if probe word w then XMEM_FETCH_PROBE else XMEM_FETCH_FILL in
  let w := if probe word w then write_back (fst (dline_of word)) w else w in
  let d := line_words (psram w) (word / LINE_WORDS) in
  ((nth (Z.to_nat (word mod LINE_WORDS)) d 0, wait),
   mkCached (psram w) (<[fst (iline_of word) := (snd (iline_of word), d)]> (ilines w)) (dlines w)).

Definition cached_access (a : access) (w : cached) : (Z * Z) * cached :=
  match a with
  | AFetch word =>
      match ilines w !! fst (iline_of word) with
      | Some (t, d) => if t =? snd (iline_of word) then ((nth (Z.to_nat (word mod LINE_WORDS)) d 0, 0), w) else fill_fetch word w
      | None => fill_fetch word w
      end
  | ALoad word => let '(wait, w) := present word w in ((line_word word w, wait), w)
  | AStore word data be =>
      let '(wait, w) := present word w in
      let '(l, t) := dline_of word in
      let v := merge_bytes (line_word word w) data be in
      let d := match dlines w !! l with Some (_, _, d) => <[Z.to_nat (word mod LINE_WORDS) := v]> d | None => [] end in
      ((0, wait), mkCached (psram w) (delete (fst (iline_of word)) (ilines w)) (<[l := (t, true, d)]> (dlines w)))
  | APowerOn => ((0, 0), mkCached (psram w) ∅ ∅)
  end.

(** Accesses one after the other, and what they gave. *)
Fixpoint run_accesses {S R} (f : access -> S -> R * S) (as_ : list access) (s : S) : list R * S :=
  match as_ with
  | [] => ([], s)
  | a :: as_ => let '(r, s) := f a s in let '(rs, s) := run_accesses f as_ s in (r :: rs, s)
  end.

(** ** What the CPU sees *)

(** A word: its line's, or the PSRAM's. *)
Definition view (w : cached) (i : Z) : Z :=
  match dlines w !! fst (dline_of i) with
  | Some (t, _, d) => if t =? snd (dline_of i) then nth (Z.to_nat (i mod LINE_WORDS)) d 0 else psram w i
  | None => psram w i
  end.

(** A data line has its index, its eight words and, when clean, the PSRAM's words. *)
Definition line_ok (w : cached) (l : Z) (e : Z * bool * list Z) : Prop :=
  let '(t, dirty, d) := e in
  0 <= l < DCACHE_LINES /\ length d = 8%nat /\ (dirty = false -> d = line_words (psram w) (t * DCACHE_LINES + l)).
Definition cached_ok (w : cached) : Prop := map_Forall (line_ok w) (dlines w).

(** Index arithmetic. *)
Ltac words := unfold dline_of, iline_of, DCACHE_LINES, ICACHE_LINES, LINE_WORDS in *; cbn [fst snd] in *; dlia.

Lemma line_words_nth m n k : 0 <= k < 8 -> nth (Z.to_nat k) (line_words m n) 0 = m (8 * n + k).
Proof.
  intros Hk. assert (k = 0 \/ k = 1 \/ k = 2 \/ k = 3 \/ k = 4 \/ k = 5 \/ k = 6 \/ k = 7) as Hc by lia.
  by repeat destruct Hc as [-> | Hc]; [..|subst k].
Qed.

Lemma nth_in_line m n i : i / LINE_WORDS = n -> nth (Z.to_nat (i mod LINE_WORDS)) (line_words m n) 0 = m i.
Proof. intros <-. rewrite line_words_nth by words. f_equal. words. Qed.

Lemma length_line_words m n : length (line_words m n) = 8%nat.
Proof. reflexivity. Qed.

Lemma line_words_ext m m' n : (forall i, i / LINE_WORDS = n -> m i = m' i) -> line_words m n = line_words m' n.
Proof. intros H. unfold line_words. cbn [map]. repeat f_equal; apply H; words. Qed.

Lemma list8 (d : list Z) : length d = 8%nat -> map (fun k => nth (Z.to_nat k) d 0) [0; 1; 2; 3; 4; 5; 6; 7] = d.
Proof. intros Hd. do 8 (destruct d as [|? d]; [done|]). by destruct d. Qed.

Lemma line_words_put m n d : length d = 8%nat -> line_words (put_line m n d) n = d.
Proof.
  intros Hd. transitivity (map (fun k => nth (Z.to_nat k) d 0) [0; 1; 2; 3; 4; 5; 6; 7]); [|by apply list8].
  unfold line_words, put_line. cbn [map]. repeat f_equal;
    (match goal with |- (if ?c then _ else _) = _ => replace c with true by (symmetry; apply Z.eqb_eq; words) end);
    f_equal; f_equal; words.
Qed.

Lemma put_line_other m n d i : i / LINE_WORDS <> n -> put_line m n d i = m i.
Proof. intros Hi. unfold put_line. by rewrite (proj2 (Z.eqb_neq _ _)). Qed.

Lemma line_words_put_other m n n' d : n' <> n -> line_words (put_line m n d) n' = line_words m n'.
Proof. intros Hn. apply line_words_ext. intros i <-. by apply put_line_other. Qed.

(** A word's line number, by the data cache's and the instruction cache's indices. *)
Lemma dline_number i : i / LINE_WORDS = snd (dline_of i) * DCACHE_LINES + fst (dline_of i) /\ 0 <= fst (dline_of i) < DCACHE_LINES.
Proof. split; words. Qed.
Lemma iline_number i : i / LINE_WORDS = snd (iline_of i) * ICACHE_LINES + fst (iline_of i) /\ 0 <= fst (iline_of i) < ICACHE_LINES.
Proof. split; words. Qed.

Lemma view_clean w i t d :
  cached_ok w -> dlines w !! fst (dline_of i) = Some (t, false, d) -> view w i = psram w i.
Proof.
  intros Hok He. destruct (Hok _ _ He) as (_ & _ & Hd). unfold view. rewrite He. destruct (Z.eqb_spec t (snd (dline_of i))) as [->|]; [|done].
  rewrite (Hd eq_refl). apply nth_in_line. apply dline_number.
Qed.

Lemma write_back_ok l w : cached_ok w -> cached_ok (write_back l w).
Proof.
  intros Hok. unfold write_back. destruct (dlines w !! l) as [[[t [|]] d]|] eqn:He; [|done..].
  destruct (Hok _ _ He) as (Hl & Hlen & _). apply map_Forall_insert_2.
  - split; [done|split; [done|]]. intros _. cbn [psram]. by rewrite line_words_put.
  - intros l' [[t' b'] d'] He'. destruct (decide (l' = l)) as [->|Hne].
    + rewrite He in He'. injection He' as <- <- <-. by split.
    + destruct (Hok _ _ He') as (Hl' & Hlen' & Hd'). split; [done|split; [done|]]. intros Hb. rewrite (Hd' Hb). cbn [psram].
      symmetry. apply line_words_put_other. unfold DCACHE_LINES in *. lia.
Qed.

Lemma write_back_view l w i : cached_ok w -> view (write_back l w) i = view w i.
Proof.
  intros Hok. unfold write_back. destruct (dlines w !! l) as [[[t [|]] d]|] eqn:He; [|done..].
  destruct (Hok _ _ He) as (Hl & Hlen & _). destruct (dline_number i) as [Hn Hr]. unfold view. cbn [dlines psram].
  destruct (decide (fst (dline_of i) = l)) as [<-|Hne].
  - rewrite lookup_insert_eq, He. destruct (Z.eqb_spec t (snd (dline_of i))) as [|Ht]; [done|]. apply put_line_other. rewrite Hn. unfold DCACHE_LINES. lia.
  - rewrite lookup_insert_ne by done. rewrite put_line_other; [done|]. rewrite Hn. unfold DCACHE_LINES in *. lia.
Qed.

(** After a write-back the line, if any, is clean. *)
Lemma write_back_clean l w e : dlines (write_back l w) !! l = Some e -> exists t d, e = (t, false, d).
Proof.
  unfold write_back. destruct (dlines w !! l) as [[[t [|]] d]|] eqn:He; cbn [dlines]; rewrite ?lookup_insert_eq; intros H; simplify_eq; eauto.
Qed.

Lemma view_after_write_back w i : cached_ok w -> view w i = psram (write_back (fst (dline_of i)) w) i.
Proof.
  intros Hok. rewrite <- (write_back_view (fst (dline_of i)) w i Hok). pose proof (write_back_ok (fst (dline_of i)) w Hok) as Hok'.
  destruct (dlines (write_back (fst (dline_of i)) w) !! fst (dline_of i)) as [e|] eqn:He.
  - destruct (write_back_clean _ _ _ He) as (t & d & ->). by eapply view_clean.
  - unfold view. by rewrite He.
Qed.

Lemma fill_ok l t w : 0 <= l < DCACHE_LINES -> cached_ok w -> cached_ok (fill l t w).
Proof.
  intros Hl Hok. apply (write_back_ok l) in Hok. unfold fill. apply map_Forall_insert_2; [|exact Hok].
  split; [done|]. split; [apply length_line_words|done].
Qed.

Lemma fill_view l t w i : 0 <= l < DCACHE_LINES -> cached_ok w -> view (fill l t w) i = view w i.
Proof.
  intros Hl Hok. destruct (decide (fst (dline_of i) = l)) as [<-|Hne].
  - rewrite (view_after_write_back w i Hok). apply (view_clean (fill _ t w) i t (line_words (psram (write_back (fst (dline_of i)) w)) (t * DCACHE_LINES + fst (dline_of i)))).
    + by apply fill_ok.
    + unfold fill. cbn [dlines]. by rewrite lookup_insert_eq.
  - rewrite <- (write_back_view l w i Hok). unfold view, fill. cbn [dlines psram]. by rewrite lookup_insert_ne.
Qed.

(** ** The refinement *)

(** What the emulator keeps of the caches' state. *)
Record rel (m : mem) (c : Caches) (w : cached) : Prop := {
  r_ok : cached_ok w;
  r_mem : forall i, m i = view w i;
  r_itag : itag c = fst <$> ilines w;
  r_ilines : forall l t d, ilines w !! l = Some (t, d) -> 0 <= l < ICACHE_LINES /\ d = line_words m (t * ICACHE_LINES + l);
  r_dline : dline c = fst <$> dlines w;
  r_behind : forall l t d, dlines w !! l = Some (t, true, d) -> behind c !! l = Some (line_words (psram w) (t * DCACHE_LINES + l))
}.

(** The emulator's tags and dirty bits after [present]. *)
Lemma present_spec m c w word :
  rel m c w ->
  let l := fst (dline_of word) in let t := snd (dline_of word) in
  let wait := access_wait (dline c !! l) t in
  let w' := snd (present word w) in
  fst (present word w) = wait /\ cached_ok w' /\ (forall i, view w' i = view w i) /\ ilines w' = ilines w /\
  fst <$> dlines w' = (if negb (wait =? 0) then <[l := (t, false)]> (dline c) else dline c) /\
  (forall l t d, dlines w' !! l = Some (t, true, d) -> behind c !! l = Some (line_words (psram w') (t * DCACHE_LINES + l))) /\
  exists b d, dlines w' !! l = Some (t, b, d).
Proof.
  intros [Hok Hm Hi Hil Hd Hb]. destruct (dline_number word) as [Hn Hr]. unfold present. destruct (dline_of word) as [l t]. cbn [fst snd] in *.
  rewrite Hd, lookup_fmap.
  assert (Hfill : forall e, dlines w !! l = e -> fmap fst e <> Some (t, true) -> fmap fst e <> Some (t, false) ->
    cached_ok (fill l t w) /\ (forall i, view (fill l t w) i = view w i) /\ ilines (fill l t w) = ilines w /\
    fst <$> dlines (fill l t w) = <[l := (t, false)]> (fst <$> dlines w) /\
    (forall l' t' d', dlines (fill l t w) !! l' = Some (t', true, d') -> behind c !! l' = Some (line_words (psram (fill l t w)) (t' * DCACHE_LINES + l'))) /\
    exists b d, dlines (fill l t w) !! l = Some (t, b, d)).
  { intros e He _ _. split_and!.
    - by apply fill_ok.
    - intros i. by apply fill_view.
    - unfold fill, write_back. cbn [ilines]. by destruct (dlines w !! l) as [[[? []] ?]|].
    - unfold fill, write_back. cbn [dlines]. destruct (dlines w !! l) as [[[t0 []] d0]|]; cbn [dlines]; rewrite ?insert_insert_eq, fmap_insert; done.
    - intros l' t' d'. unfold fill. cbn [dlines psram]. intros He'. destruct (decide (l' = l)) as [->|Hne].
      { rewrite lookup_insert_eq in He'. done. }
      rewrite lookup_insert_ne in He' by done. unfold write_back in *.
      destruct (dlines w !! l) as [[[t0 [|]] d0]|] eqn:He0; cbn [dlines psram] in *; [|by apply (Hb _ _ d')..].
      rewrite lookup_insert_ne in He' by done. rewrite (Hb _ _ _ He'). f_equal. symmetry. apply line_words_put_other.
      destruct (Hok _ _ He') as [Hl' _]. unfold DCACHE_LINES in *. lia.
    - unfold fill. cbn [dlines]. rewrite lookup_insert_eq. eauto. }
  destruct (dlines w !! l) as [[[t' dirty] d]|] eqn:He; cbn [fmap option_fmap option_map fst access_wait].
  - destruct (Z.eqb_spec t' t) as [->|Hne]; cbn [fst snd].
    + cbn [Z.eqb negb]. split_and!; try done. eauto.
    + destruct (Hfill _ eq_refl) as (F1 & F2 & F3 & F4 & F5 & F6); [cbn; congruence..|].
      split_and!; try done. rewrite F4. by destruct dirty.
  - destruct (Hfill _ eq_refl) as (F1 & F2 & F3 & F4 & F5 & F6); [done..|]. by split_and!.
Qed.

(** The word in its line is the one the CPU sees. *)
Lemma line_word_view w word b d :
  dlines w !! fst (dline_of word) = Some (snd (dline_of word), b, d) -> line_word word w = view w word.
Proof. intros He. unfold line_word, view. by rewrite He, Z.eqb_refl. Qed.

Lemma load_rel m c w word :
  rel m c w ->
  let '(o1, mc) := emu_access (ALoad word) (m, c) in let '(o2, w') := cached_access (ALoad word) w in
  o1 = o2 /\ rel mc.1 mc.2 w'.
Proof.
  intros Hrel. pose proof (present_spec m c w word Hrel) as (Hw & Hok & Hv & Hil & Hd & Hb & b & d & He). destruct Hrel as [_ Hm Hi Hilw Hdl _].
  cbn [emu_access cached_access]. unfold cache_access. destruct (present word w) as [wait w']. cbn [fst snd] in *.
  destruct (dline_of word) as [l t] eqn:E. cbn [fst snd] in *. rewrite Hw. split.
  - f_equal. rewrite (line_word_view w' word b d) by (by rewrite E). by rewrite Hv.
  - constructor; cbn [fst snd itag dline behind]; [done|intros i; by rewrite Hv|by rewrite Hil|by rewrite Hil|done|done].
Qed.

Lemma store_rel m c w word data be :
  rel m c w ->
  let '(o1, mc) := emu_access (AStore word data be) (m, c) in let '(o2, w') := cached_access (AStore word data be) w in
  o1 = o2 /\ rel mc.1 mc.2 w'.
Proof.
  intros Hrel. pose proof (present_spec m c w word Hrel) as (Hw & Hok & Hv & Hil & Hd & Hb & b & d & He). destruct Hrel as [_ Hm Hi Hilw Hdl _].
  destruct (dline_number word) as [Hn Hr]. destruct (iline_number word) as [Hin Hir].
  cbn [emu_access cached_access]. unfold cache_access. destruct (present word w) as [wait w']. cbn [fst snd] in *.
  pose proof (line_word_view w' word) as Hlw. destruct (dline_of word) as [l t] eqn:E. cbn [fst snd] in *. rewrite Hw.
  split; [done|]. set (dline1 := if negb _ then _ else _) in *. destruct (Hok _ _ He) as (Hl & Hlen & Hclean).
  rewrite (Hlw _ _ He), Hv, <- Hm. rewrite He. set (v := merge_bytes (m word) data be). set (k := Z.to_nat (word mod LINE_WORDS)).
  assert (Hk : (k < 8)%nat) by (unfold k; words).
  assert (Hview : forall i, put_word m word v i = view (mkCached (psram w') (delete (fst (iline_of word)) (ilines w')) (<[l := (t, true, <[k := v]> d)]> (dlines w'))) i).
  { intros i. unfold put_word. rewrite Hm, <- Hv. unfold view. cbn [dlines psram]. destruct (dline_number i) as [Hni Hri].
    destruct (decide (fst (dline_of i) = l)) as [Hli|Hne].
    - rewrite Hli, lookup_insert_eq, He. rewrite Hli in Hni. destruct (Z.eqb_spec t (snd (dline_of i))) as [Ht|Ht].
      + destruct (Z.eqb_spec i word) as [->|Hiw]; [by rewrite nth_insert_eq by lia|].
        rewrite nth_insert_ne; [done|]. intros Hmod. apply Hiw. unfold k in Hmod. rewrite <- Ht, <- Hn in Hni. words.
      + rewrite (proj2 (Z.eqb_neq i word)); [done|]. intros ->. rewrite E in Ht. done.
    - rewrite lookup_insert_ne by done. rewrite (proj2 (Z.eqb_neq i word)); [done|]. intros ->. by rewrite E in Hne. }
  constructor; cbn [fst snd itag dline behind ilines dlines psram].
  - apply map_Forall_insert_2; [|exact Hok]. split; [done|]. split; [by rewrite length_insert|done].
  - exact Hview.
  - by rewrite fmap_delete, Hi, Hil.
  - intros l' t' d' Hl'. apply lookup_delete_Some in Hl' as [Hne Hl']. rewrite Hil in Hl'. destruct (Hilw _ _ _ Hl') as [Hl'r ->]. split; [done|].
    apply line_words_ext. intros i Hi'. unfold put_word. rewrite (proj2 (Z.eqb_neq i word)); [done|]. intros ->. apply Hne.
    rewrite Hin in Hi'. unfold ICACHE_LINES in *. lia.
  - by rewrite fmap_insert, Hd.
  - intros l' t' d' Hl'. destruct (decide (l' = l)) as [->|Hne].
    + rewrite lookup_insert_eq in Hl'. injection Hl' as <- _.
      assert (Hd1 : dline1 !! l = Some (t, b)) by (by rewrite <- Hd, lookup_fmap, He). rewrite Hd1. destruct b; [by apply (Hb _ _ d)|].
      rewrite lookup_insert_eq, Hn. f_equal. apply line_words_ext. intros i Hi'. rewrite Hm, <- Hv.
      assert (Hdi : dline_of i = (l, t)) by (clear -Hi' Hl; unfold dline_of; rewrite Hi'; f_equal; words). apply (view_clean w' i t d Hok). by rewrite Hdi.
    + rewrite lookup_insert_ne in Hl' by done. pose proof (Hb _ _ _ Hl') as Hbl.
      destruct (dline1 !! l) as [[? []]|]; rewrite ?lookup_insert_ne by done; done.
Qed.

Lemma probe_spec m c w word :
  rel m c w -> probe word w = bool_decide (dline c !! fst (dline_of word) = Some (snd (dline_of word), true)).
Proof.
  intros [_ _ _ _ Hd _]. unfold probe. rewrite Hd, lookup_fmap. destruct (dlines w !! fst (dline_of word)) as [[[t [|]] d]|]; cbn [fmap option_fmap option_map fst].
  - destruct (Z.eqb_spec t (snd (dline_of word))) as [->|Hne]; symmetry; [by apply bool_decide_eq_true|apply bool_decide_eq_false; congruence].
  - symmetry. apply bool_decide_eq_false. congruence.
  - symmetry. apply bool_decide_eq_false. congruence.
Qed.

(** After the probe the fetched line's words in the PSRAM are the ones the CPU sees. *)
Lemma probed_view w word i :
  cached_ok w -> i / LINE_WORDS = word / LINE_WORDS ->
  psram (if probe word w then write_back (fst (dline_of word)) w else w) i = view w i.
Proof.
  intros Hok Hi. assert (Hdi : dline_of i = dline_of word) by (unfold dline_of; by rewrite Hi). unfold probe. rewrite <- Hdi.
  destruct (dlines w !! fst (dline_of i)) as [[[t [|]] d]|] eqn:He.
  - destruct (Z.eqb_spec t (snd (dline_of i))) as [->|Hne]; [symmetry; by apply view_after_write_back|].
    unfold view. by rewrite He, (proj2 (Z.eqb_neq _ _)).
  - symmetry. by eapply view_clean.
  - unfold view. by rewrite He.
Qed.

(** A line written back or not: the emulator's side of it. *)
Lemma probed_rel m c w (b : bool) l t :
  rel m c w -> b = bool_decide (dline c !! l = Some (t, true)) ->
  let w' := if b then write_back l w else w in
  rel m (mkCaches (itag c) (if b then <[l := (t, false)]> (dline c) else dline c) (behind c) (stats c)) w'.
Proof.
  intros Hrel Hb. destruct b; [|destruct Hrel; by constructor]. symmetry in Hb. apply bool_decide_eq_true in Hb.
  destruct Hrel as [Hok Hm Hi Hil Hd Hbh]. pose proof Hb as He. rewrite Hd, lookup_fmap in He.
  destruct (dlines w !! l) as [[[t' b'] d]|] eqn:Hl; [|done]. cbn in He. injection He as -> ->. destruct (Hok _ _ Hl) as (Hlr & Hlen & _).
  constructor; cbn [itag dline behind].
  - by apply write_back_ok.
  - intros i. rewrite write_back_view by done. apply Hm.
  - rewrite Hi. unfold write_back. by rewrite Hl.
  - unfold write_back. rewrite Hl. exact Hil.
  - unfold write_back. rewrite Hl. cbn [dlines]. by rewrite fmap_insert, Hd.
  - intros l' t' d'. unfold write_back. rewrite Hl. cbn [dlines psram]. intros Hl'. destruct (decide (l' = l)) as [->|Hne].
    { by rewrite lookup_insert_eq in Hl'. }
    rewrite lookup_insert_ne in Hl' by done. rewrite (Hbh _ _ _ Hl'). f_equal. symmetry. apply line_words_put_other.
    destruct (Hok _ _ Hl') as [Hl'r _]. unfold DCACHE_LINES in *. lia.
Qed.

Lemma fill_fetch_rel m c w word :
  rel m c w ->
  let b := bool_decide (dline c !! fst (dline_of word) = Some (snd (dline_of word), true)) in
  let o := fill_fetch word w in
  fst o = (m word, if b then XMEM_FETCH_PROBE else XMEM_FETCH_FILL) /\
  forall s, rel m (mkCaches (<[fst (iline_of word) := snd (iline_of word)]> (itag c))
    (if b then <[fst (dline_of word) := (snd (dline_of word), false)]> (dline c) else dline c) (behind c) s) (snd o).
Proof.
  intros Hrel b o. pose proof (probe_spec m c w word Hrel) as Hp. fold b in Hp. pose proof (r_ok _ _ _ Hrel) as Hok. pose proof (r_mem _ _ _ Hrel) as Hm.
  destruct (iline_number word) as [Hin Hir]. unfold o, fill_fetch. rewrite Hp.
  pose proof (fun i => probed_view w word i Hok) as Hv. rewrite Hp in Hv. pose proof (probed_rel m c w b _ (snd (dline_of word)) Hrel eq_refl) as Hrel'. cbv zeta in Hrel'.
  set (w' := if b then write_back _ w else w) in *. cbn [fst snd]. split.
  - f_equal. rewrite nth_in_line by done. rewrite Hv, Hm by done. done.
  - intros s. destruct Hrel' as [Hok' Hm' Hi' Hil' Hd' Hb']. constructor; cbn [itag dline behind ilines dlines psram] in *; try done.
    + by rewrite fmap_insert, Hi'.
    + intros l t d Hl. destruct (decide (l = fst (iline_of word))) as [->|Hne].
      * rewrite lookup_insert_eq in Hl. apply (inj Some), pair_eq in Hl as [<- <-]. split; [done|]. rewrite <- Hin. apply line_words_ext. intros i Hi.
        by rewrite Hv, Hm.
      * rewrite lookup_insert_ne in Hl by done. by apply Hil'.
Qed.

Lemma fetch_rel m c w word :
  rel m c w ->
  let '(o1, mc) := emu_access (AFetch word) (m, c) in let '(o2, w') := cached_access (AFetch word) w in
  o1 = o2 /\ rel mc.1 mc.2 w'.
Proof.
  intros Hrel. destruct (fill_fetch_rel m c w word Hrel) as [Hf1 Hf2]. pose proof Hrel as [Hok Hm Hi Hil Hd Hb].
  destruct (iline_number word) as [Hin Hir]. cbn [emu_access cached_access]. unfold cache_fetch.
  destruct (iline_of word) as [l t] eqn:E. destruct (dline_of word) as [dl dt] eqn:Ed. cbn [fst snd] in *. rewrite Hi, lookup_fmap in *.
  assert (Hmiss : let '(o1, mc) := (let '(wait, c0) :=
      (if bool_decide (dline c !! dl = Some (dt, true)) then
        (XMEM_FETCH_PROBE, mkCaches (<[l := t]> (fst <$> ilines w)) (<[dl := (dt, false)]> (dline c)) (behind c)
          (mkStats (fetch_hits (stats c)) (fetch_misses (stats c) + 1) (load_hits (stats c)) (load_misses (stats c)) (stores (stats c)) (store_hits (stats c)) (store_misses (stats c)) (writebacks (stats c)) (probe_writebacks (stats c) + 1)))
       else (XMEM_FETCH_FILL, mkCaches (<[l := t]> (fst <$> ilines w)) (dline c) (behind c)
          (mkStats (fetch_hits (stats c)) (fetch_misses (stats c) + 1) (load_hits (stats c)) (load_misses (stats c)) (stores (stats c)) (store_hits (stats c)) (store_misses (stats c)) (writebacks (stats c)) (probe_writebacks (stats c))))) in ((m word, wait), (m, c0))) in
    let '(o2, w') := fill_fetch word w in o1 = o2 /\ rel mc.1 mc.2 w').
  { destruct (fill_fetch word w) as [o2 w']. cbn [fst snd] in Hf1, Hf2. destruct (bool_decide _); (split; [by rewrite Hf1|apply Hf2]). }
  destruct (ilines w !! l) as [[t' d]|] eqn:He; cbn [fmap option_fmap option_map fst]; [|exact Hmiss].
  destruct (Z.eqb_spec t' t) as [->|Hne].
  - rewrite bool_decide_eq_true_2 by done. destruct (Hil _ _ _ He) as [_ ->]. split.
    + f_equal. f_equal. rewrite nth_in_line; [done|]. by rewrite Hin.
    + by constructor.
  - rewrite bool_decide_eq_false_2 by congruence. exact Hmiss.
Qed.

(** What the power-on reset makes of a word, line by line. *)
Lemma power_on_word m c i ls :
  (forall l, l ∈ ls -> 0 <= l < DCACHE_LINES) -> NoDup ls ->
  foldl (fun m line => match dline c !! line with
    | Some (tag, true) => put_line m (tag * DCACHE_LINES + line) (default [] (behind c !! line))
    | _ => m end) m ls i =
  if bool_decide (fst (dline_of i) ∈ ls) then
    match dline c !! fst (dline_of i) with
    | Some (tag, true) => put_line m (tag * DCACHE_LINES + fst (dline_of i)) (default [] (behind c !! fst (dline_of i))) i
    | _ => m i end
  else m i.
Proof.
  destruct (dline_number i) as [Hn Hr]. revert m. induction ls as [|l ls IH]; intros m Hls Hnd; [done|]. apply NoDup_cons in Hnd as [Hl Hnd].
  cbn [foldl]. rewrite IH; [|intros; apply Hls; by right|done]. pose proof (Hls l (list_elem_of_here _ _)) as Hlr.
  destruct (decide (fst (dline_of i) = l)) as [<-|Hne].
  - rewrite (bool_decide_eq_false_2 (_ ∈ ls)) by done. rewrite bool_decide_eq_true_2 by by left. by destruct (dline c !! _) as [[? []]|].
  - assert (Hother : forall t d, put_line m (t * DCACHE_LINES + l) d i = m i).
    { intros t d. apply put_line_other. rewrite Hn. unfold DCACHE_LINES in *. lia. }
    rewrite (bool_decide_ext (_ ∈ l :: ls) (fst (dline_of i) ∈ ls)) by (rewrite elem_of_cons; split; [by intros [|]|by right]).
    destruct (bool_decide _).
    + destruct (dline c !! fst (dline_of i)) as [[t []]|]; destruct (dline c !! l) as [[t' []]|]; try done; unfold put_line at 1 3; try rewrite Hother; try done.
    + destruct (dline c !! l) as [[t' []]|]; try done.
Qed.

Lemma power_on_rel m c w :
  rel m c w -> rel (power_on_mem m c) caches_default (mkCached (psram w) ∅ ∅).
Proof.
  intros [Hok Hm Hi Hil Hd Hb]. constructor; cbn [itag dline behind ilines dlines psram caches_default]; try done.
  intros i. unfold view. cbn [dlines psram]. rewrite lookup_empty. unfold power_on_mem. destruct (dline_number i) as [Hn Hr].
  rewrite power_on_word; [|intros l Hl; apply list_elem_of_fmap in Hl as (k & -> & Hk); apply elem_of_seq in Hk; unfold DCACHE_LINES in *; lia
    |apply NoDup_fmap_2; [apply _|apply NoDup_seq]].
  rewrite bool_decide_eq_true_2.
  2: { apply list_elem_of_fmap. exists (Z.to_nat (fst (dline_of i))). split; [lia|]. apply elem_of_seq. unfold DCACHE_LINES in *. lia. }
  rewrite Hd, lookup_fmap. pose proof (Hm i) as Hmi. destruct (dlines w !! fst (dline_of i)) as [[[t [|]] d]|] eqn:He; cbn [fmap option_fmap option_map fst].
  - rewrite (Hb _ _ _ He). cbn [default]. unfold put_line. destruct (Z.eqb_spec (i / LINE_WORDS) (t * DCACHE_LINES + fst (dline_of i))) as [Heq|Hne].
    + by apply nth_in_line.
    + rewrite Hmi. unfold view. rewrite He, (proj2 (Z.eqb_neq _ _)); [done|]. intros ->. by apply Hne.
  - rewrite Hmi. by eapply view_clean.
  - rewrite Hmi. unfold view. by rewrite He.
Qed.

Lemma access_rel m c w a :
  rel m c w ->
  let '(o1, mc) := emu_access a (m, c) in let '(o2, w') := cached_access a w in o1 = o2 /\ rel mc.1 mc.2 w'.
Proof.
  intros Hrel. destruct a as [word|word|word data be|].
  - by apply fetch_rel.
  - by apply load_rel.
  - by apply store_rel.
  - split; [done|]. by apply power_on_rel.
Qed.

Lemma start_rel m : rel m caches_default (mkCached m ∅ ∅).
Proof. by constructor. Qed.

Lemma run_rel as_ m c w :
  rel m c w ->
  let '(o1, mc) := run_accesses emu_access as_ (m, c) in let '(o2, w') := run_accesses cached_access as_ w in
  o1 = o2 /\ rel mc.1 mc.2 w'.
Proof.
  revert m c w. induction as_ as [|a as_ IH]; intros m c w Hrel; [done|]. cbn [run_accesses].
  pose proof (access_rel m c w a Hrel) as Ha. destruct (emu_access a (m, c)) as [o1 [m1 c1]]. destruct (cached_access a w) as [o2 w1].
  destruct Ha as [-> Hrel1]. specialize (IH m1 c1 w1 Hrel1). destruct (run_accesses emu_access as_ (m1, c1)) as [os1 mc].
  destruct (run_accesses cached_access as_ w1) as [os2 w2]. destruct IH as [-> Hr]. by split.
Qed.

(** C23: for any fetches, loads, stores and power-on resets, starting with empty caches: the
    emulator's memory with its record of tags, dirty bits and words behind gives the words
    and the waits that a write-back data cache and an instruction cache with words of their
    own over a PSRAM give; its memory is what the CPU sees through them, and what a reset
    leaves in it is their PSRAM. *)
Theorem caches_refine as_ m :
  let '(o1, (m1, c1)) := run_accesses emu_access as_ (m, caches_default) in
  let '(o2, w) := run_accesses cached_access as_ (mkCached m ∅ ∅) in
  o1 = o2 /\ (forall i, m1 i = view w i) /\ (forall i, power_on_mem m1 c1 i = psram w i).
Proof.
  pose proof (run_rel as_ m caches_default (mkCached m ∅ ∅) (start_rel m)) as Hr.
  destruct (run_accesses emu_access as_ (m, caches_default)) as [o1 [m1 c1]]. destruct (run_accesses cached_access as_ _) as [o2 w].
  destruct Hr as [-> Hrel]. cbn [fst snd] in Hrel. split; [done|]. split; [apply Hrel|].
  intros i. pose proof (r_mem _ _ _ (power_on_rel _ _ _ Hrel) i) as Hp. rewrite Hp. unfold view. cbn [dlines psram]. by rewrite lookup_empty.
Qed.

(** A store, a store that evicts it, a fetch of a dirty word, a lost store. *)
Example caches_run :
  (run_accesses emu_access
    [AStore 5 0xAA 15; ALoad 5; AStore 517 0xBB 15; AFetch 517; AFetch 517; AStore 517 0xCC 15; APowerOn; ALoad 5; ALoad 517]
    (fun _ => 0, caches_default)).1 = [(0, 49); (0xAA, 0); (0, 99); (0xBB, 100); (0xBB, 0); (0, 0); (0, 0); (0xAA, 49); (0xBB, 49)].
Proof. vm_compute. reflexivity. Qed.
