(* ===== verification/VirtualSerial.v ===== *)
(** * The simulation's serial bridge

    sim/integration/virtual_serial.py: the transmitter's waveform on a pin, the receiver that
    samples one, and waiting for a token. A pin is the list of the writes to it; times are in
    picoseconds. The receiver gets every byte of any 8N1 sender whose bit is within about 5%
    of its own. *)
From S2P Require Import Prelude Image Text.
#[local] Open Scope Z_scope.

(** ** The pin *)

(** The writes to a pin, in order: the time and the level (what [_get_bit] gives of it). The
    line is idle, high, before the first. *)
Definition wave : Type := list (Z * bool).

(** The level at [t], from the level [cur] before the writes. *)
Fixpoint level (cur : bool) (w : wave) (t : Z) : bool :=
  match w with
  | [] => cur
  | (s, v) :: w => if s <=? t then level v w t else cur
  end.

(** The next edge to [v] after [t] ([RisingEdge], [FallingEdge]). *)
Fixpoint edge (v cur : bool) (w : wave) (t : Z) : option Z :=
  match w with
  | [] => None
  | (s, x) :: w => if (t <? s) && eqb x v && negb (eqb cur v) then Some s else edge v x w t
  end.

Definition pin (w : wave) (t : Z) : bool := level true w t.
Definition RisingEdge (w : wave) (t : Z) : option Z := edge true true w t.
Definition FallingEdge (w : wave) (t : Z) : option Z := edge false true w t.

(** ** The workers *)
Section Bridge.
(** [self.bit_ps]. *)
Variable bit_ps : Z.

(** The wait for a start bit. *)
Definition start_bit (w : wave) (t : Z) : option Z :=
  t ← (if negb (pin w t) then RisingEdge w t else Some t);
  FallingEdge w t.

(** The eight samples after [t], as a byte. *)
Fixpoint rx_bits (w : wave) (t : Z) (i : Z) (n : nat) (byte_val : Z) : Z * Z :=
  match n with
  | O => (byte_val, t)
  | S n =>
      let t := t + bit_ps in
      rx_bits w t (i + 1) n (Z.lor byte_val (Z.shiftl (Z.b2z (pin w t)) i))
  end.

(** One turn of [_rx_worker]: the byte and when it came, if the start bit was one; and the
    time it ends. [None] when nothing more happens on the pin. *)
Definition rx_turn (w : wave) (t : Z) : option (option (Z * Z) * Z) :=
  t ← start_bit w t;
  let t := t + bit_ps / 2 in
  if pin w t then Some (None, t)
  else let '(b, t) := rx_bits w t 0 8 0 in Some (Some (t, b), t + bit_ps / 2).

(** [_rx_worker]: the bytes appended to [rx_buffer], with the times. *)
Fixpoint rx_worker (fuel : nat) (w : wave) (t : Z) : list (Z * Z) :=
  match fuel with
  | O => []
  | S fuel =>
      match rx_turn w t with
      | None => []
      | Some (o, t) => match o with Some b => [b] | None => [] end ++ rx_worker fuel w t
      end
  end.

(** A byte on the wire from [s] on with bits of [T], and the stop bit. *)
Definition frame (T s b : Z) : wave :=
  (s, false) :: map (fun i => (s + (i + 1) * T, Z.testbit b i)) [0; 1; 2; 3; 4; 5; 6; 7] ++ [(s + 9 * T, true)].

(** [_tx_worker]: the pin's writes for the bytes [write] queued at the times given, when the
    worker is free at [free]. *)
Fixpoint tx_worker (free : Z) (queue : list (Z * Z)) : wave :=
  match queue with
  | [] => []
  | (at_, b) :: queue =>
      let s := Z.max free at_ in
      frame bit_ps s b ++ tx_worker (s + 9 * bit_ps + 2 * bit_ps) queue
  end.

(** ** Bytes on the wire *)

Definition frames (T : Z) (fs : list (Z * Z)) : wave := concat (map (fun '(s, b) => frame T s b) fs).

(** Frames that start at or after [t], each after the one before has ended. *)
Fixpoint spaced (T t : Z) (fs : list (Z * Z)) : Prop :=
  match fs with
  | [] => True
  | (s, _) :: fs => t <= s /\ spaced T (s + 10 * T) fs
  end.

Lemma spaced_later T t t' fs : t' <= t -> spaced T t fs -> spaced T t' fs.
Proof. destruct fs as [|[s b] fs]; [done|]. cbn. intros Ht [Hs Hf]. split; [lia|done]. Qed.

Lemma level_skip cur w1 w2 t :
  Forall (fun e : Z * bool => e.1 <= t) w1 -> level cur (w1 ++ w2) t = level (level cur w1 t) w2 t.
Proof.
  intros Hf. revert cur. induction Hf as [|[s v] w1 Hs Hf IH]; intros cur; [done|]. cbn [app level]. cbn in Hs.
  rewrite (proj2 (Z.leb_le _ _) Hs). apply IH.
Qed.

Lemma edge_skip v cur w1 w2 t :
  Forall (fun e : Z * bool => e.1 <= t) w1 -> edge v cur (w1 ++ w2) t = edge v (level cur w1 t) w2 t.
Proof.
  intros Hf. revert cur. induction Hf as [|[s x] w1 Hs Hf IH]; intros cur; [done|]. cbn [app edge level]. cbn in Hs.
  rewrite (proj2 (Z.leb_le _ _) Hs). rewrite (proj2 (Z.ltb_ge _ _) Hs). apply IH.
Qed.

(** Nothing changes before the next write. *)
Lemma level_frames T cur fs t : spaced T (t + 1) fs -> level cur (frames T fs) t = cur.
Proof.
  destruct fs as [|[s b] fs]; [done|]. intros [Hs _]. unfold frames. cbn. by rewrite (proj2 (Z.leb_gt _ _)) by lia.
Qed.

Lemma edge_frames T s b fs t : t < s -> edge false true (frames T ((s, b) :: fs)) t = Some s.
Proof. intros Hs. unfold frames. cbn. by rewrite (proj2 (Z.ltb_lt _ _)) by lia. Qed.

(** The wave is behind at [t], high or about to rise at [u], and the frames come next. *)
Definition quiet (T : Z) (w : wave) (t : Z) (fs : list (Z * Z)) : Prop :=
  exists w1 pre u, w = w1 ++ pre ++ frames T fs /\ Forall (fun e : Z * bool => e.1 <= t) w1 /\
    t <= u /\ spaced T (u + 1) fs /\ (pre = [] /\ level true w1 t = true \/ pre = [(u, true)] /\ t < u).

Lemma start_bit_next T w t s b fs : quiet T w t ((s, b) :: fs) -> start_bit w t = Some s.
Proof.
  intros (w1 & pre & u & -> & Hw1 & Htu & [Hs Hsp] & Hpre). unfold start_bit, pin, RisingEdge, FallingEdge. rewrite level_skip by done.
  destruct Hpre as [[-> Hl] | [-> Hu]]; cbn [app].
  - rewrite Hl, level_frames by (split; [lia|done]). cbn [negb mbind option_bind]. rewrite edge_skip, Hl by done. apply edge_frames. lia.
  - cbn [level]. rewrite (proj2 (Z.leb_gt _ _)) by lia. destruct (level true w1 t) eqn:Hl; cbn [negb mbind option_bind].
    + rewrite edge_skip, Hl by done. cbn [edge eqb]. rewrite andb_false_r, andb_false_l. apply edge_frames. lia.
    + rewrite edge_skip, Hl by done. cbn [edge eqb negb]. rewrite (proj2 (Z.ltb_lt _ _)) by lia. cbn [andb].
      change (edge false true (w1 ++ (u, true) :: frames T ((s, b) :: fs)) u = Some s).
      change (w1 ++ (u, true) :: frames T ((s, b) :: fs)) with (w1 ++ [(u, true)] ++ frames T ((s, b) :: fs)).
      rewrite app_assoc, edge_skip, level_skip.
      * cbn [level]. rewrite (proj2 (Z.leb_le u u)) by lia. apply edge_frames. lia.
      * eapply Forall_impl; [exact Hw1|]. cbn. intros; lia.
      * apply Forall_app. split; [|repeat constructor; cbn; lia]. eapply Forall_impl; [exact Hw1|]. cbn. intros; lia.
Qed.

Lemma start_bit_none T w t : quiet T w t [] -> start_bit w t = None.
Proof.
  intros (w1 & pre & u & -> & Hw1 & Htu & _ & Hpre). unfold start_bit, pin, RisingEdge, FallingEdge. rewrite level_skip by done.
  destruct Hpre as [[-> Hl] | [-> Hu]]; cbn [app].
  - cbn [frames map concat level]. rewrite Hl. cbn [negb mbind option_bind]. by rewrite edge_skip by done.
  - cbn [level]. rewrite (proj2 (Z.leb_gt _ _)) by lia. destruct (level true w1 t) eqn:Hl; cbn [negb mbind option_bind].
    + rewrite edge_skip, Hl by done. cbn [edge eqb]. by rewrite andb_false_r, andb_false_l.
    + rewrite edge_skip, Hl by done. cbn [edge eqb negb]. rewrite (proj2 (Z.ltb_lt _ _)) by lia. cbn [andb].
      change (edge false true (w1 ++ [(u, true)]) u = None).
      rewrite edge_skip; [|eapply Forall_impl; [exact Hw1|]; cbn; intros; lia]. cbn [edge eqb].
      by rewrite andb_false_r, andb_false_l.
Qed.

(** A frame's levels: the start bit, the data bits from the lowest, the stop bit. *)
Lemma level_frame T s b cur rest t k :
  0 < T -> 0 <= k <= 8 -> s + k * T <= t < s + (k + 1) * T ->
  level cur (frame T s b ++ rest) t = (if k =? 0 then false else Z.testbit b (k - 1)).
Proof.
  intros HT Hk Ht. assert (k = 0 \/ k = 1 \/ k = 2 \/ k = 3 \/ k = 4 \/ k = 5 \/ k = 6 \/ k = 7 \/ k = 8) as Hc by lia.
  unfold frame. cbn [map app].
  repeat destruct Hc as [-> | Hc]; [..|subst k]; cbn [level];
    repeat match goal with |- context [?a <=? t] => first [rewrite (proj2 (Z.leb_le a t)) by lia | rewrite (proj2 (Z.leb_gt a t)) by lia]; cbn [level] end;
    reflexivity.
Qed.

(** Within the frame that follows, its levels are on the pin. *)
Lemma pin_frame T w t s b fs x k :
  0 < T -> quiet T w t ((s, b) :: fs) -> 0 <= k <= 8 -> s + k * T <= x < s + (k + 1) * T ->
  pin w x = (if k =? 0 then false else Z.testbit b (k - 1)).
Proof.
  intros HT (w1 & pre & u & -> & Hw1 & Htu & [Hs Hsp] & Hpre) Hk Hx. unfold pin.
  rewrite app_assoc, level_skip; [by apply level_frame|]. apply Forall_app. split.
  - eapply Forall_impl; [exact Hw1|]. cbn. intros; lia.
  - destruct Hpre as [[-> _] | [-> _]]; repeat constructor. cbn. lia.
Qed.

(** After the last sample of a frame the receiver is ready for the next. *)
Lemma quiet_next T w t s b fs t' :
  0 < T -> quiet T w t ((s, b) :: fs) -> s + 8 * T <= t' < s + 10 * T -> quiet T w t' fs.
Proof.
  intros HT (w1 & pre & u & -> & Hw1 & Htu & [Hs Hsp] & Hpre) Ht'.
  set (bits := (s, false) :: map (fun i => (s + (i + 1) * T, Z.testbit b i)) [0; 1; 2; 3; 4; 5; 6; 7]).
  assert (Hw : frames T ((s, b) :: fs) = bits ++ [(s + 9 * T, true)] ++ frames T fs).
  { reflexivity. }
  assert (Hbits : Forall (fun e : Z * bool => e.1 <= t') ((w1 ++ pre) ++ bits)).
  { apply Forall_app. split; [apply Forall_app; split|].
    - eapply Forall_impl; [exact Hw1|]. cbn. intros; lia.
    - destruct Hpre as [[-> _] | [-> _]]; repeat constructor. cbn. lia.
    - unfold bits. repeat constructor; cbn; lia. }
  rewrite Hw, app_assoc, (app_assoc (w1 ++ pre)). destruct (Z.ltb_spec t' (s + 9 * T)) as [Hlt|Hge].
  - exists ((w1 ++ pre) ++ bits), [(s + 9 * T, true)], (s + 9 * T). split_and!; [done|done|lia| |by right].
    eapply spaced_later; [|exact Hsp]. lia.
  - exists (((w1 ++ pre) ++ bits) ++ [(s + 9 * T, true)]), [], t'. split_and!; [by rewrite <- (app_assoc _ [(s + 9 * T, true)])| |lia| |left; split; [done|]].
    + apply Forall_app. split; [done|repeat constructor; cbn; lia].
    + eapply spaced_later; [|exact Hsp]. lia.
    + rewrite level_skip by done. cbn [level]. by rewrite (proj2 (Z.leb_le _ _)) by lia.
Qed.

(** The sample of bit [i] of a byte, and what they make together. *)
Lemma rx_bits_ok w b t i n v :
  (forall j, i <= j < i + Z.of_nat n -> pin w (t + (j - i + 1) * bit_ps) = Z.testbit b j) ->
  0 <= i -> 0 <= v < 2 ^ i -> v = b mod 2 ^ i ->
  rx_bits w t i n v = (b mod 2 ^ (i + Z.of_nat n), t + Z.of_nat n * bit_ps).
Proof.
  revert t i v. induction n as [|n IH]; intros t i v Hp Hi Hv Hb.
  { cbn [rx_bits]. rewrite Z.add_0_r, Hb. f_equal. lia. }
  cbn [rx_bits]. specialize (Hp i ltac:(lia)) as H0. replace (t + (i - i + 1) * bit_ps) with (t + bit_ps) in H0 by lia. rewrite H0.
  assert (Hor : Z.lor v (Z.shiftl (Z.b2z (Z.testbit b i)) i) = b mod 2 ^ (i + 1)).
  { rewrite Hb. apply Z.bits_inj'. intros m Hm. rewrite Z.lor_spec, Z.shiftl_spec by lia.
    destruct (Z.ltb_spec m i); [|destruct (Z.eq_dec m i) as [->|]].
    - rewrite !Z.mod_pow2_bits_low by lia. rewrite (Z.testbit_neg_r _ (m - i)) by lia. by rewrite orb_false_r.
    - rewrite Z.mod_pow2_bits_high, Z.mod_pow2_bits_low by lia. rewrite Z.sub_diag. by destruct (Z.testbit b i).
    - rewrite !Z.mod_pow2_bits_high by lia. cbn. apply Z.testbit_false; [lia|].
      rewrite Z.div_small; [done|]. assert (2 <= 2 ^ (m - i)) by (change 2 with (2 ^ 1) at 1; apply Z.pow_le_mono_r; lia).
      destruct (Z.testbit b i); cbn; lia. }
  rewrite Hor. rewrite (IH (t + bit_ps) (i + 1)).
  - f_equal; [f_equal; f_equal; lia|lia].
  - intros j Hj. replace (t + bit_ps + (j - (i + 1) + 1) * bit_ps) with (t + (j - i + 1) * bit_ps) by lia. apply Hp. lia.
  - lia.
  - apply Z.mod_pos_bound. apply Z.pow_pos_nonneg; lia.
  - done.
Qed.

(** The eighth sample is in the eighth data bit: then every sample is in its bit. *)
Definition in_tolerance (T : Z) : Prop := 8 * T <= 8 * bit_ps + bit_ps / 2 < 9 * T.

Lemma in_tolerance_sample T k : 0 < bit_ps -> in_tolerance T -> 0 <= k <= 8 -> k * T <= bit_ps / 2 + k * bit_ps < (k + 1) * T.
Proof.
  unfold in_tolerance. intros HB HT Hk. assert (bit_ps / 2 < bit_ps) by (apply Z.div_lt; lia).
  pose proof (Z.div_pos bit_ps 2). nia.
Qed.

Lemma rx_turn_frame T w t s b fs :
  0 < bit_ps -> in_tolerance T -> 0 <= b < 256 -> quiet T w t ((s, b) :: fs) ->
  exists t', rx_turn w t = Some (Some (s + bit_ps / 2 + 8 * bit_ps, b), t') /\ quiet T w t' fs.
Proof.
  intros HB HT Hb Hq. pose proof (in_tolerance_sample T) as Htol. assert (HT0 : 0 < T) by (pose proof (Htol 0 HB HT); lia).
  unfold rx_turn. rewrite (start_bit_next _ _ _ _ _ _ Hq). cbn [mbind option_bind].
  rewrite (pin_frame T w t s b fs _ 0) by (first [done | specialize (Htol 0 HB HT ltac:(lia)); lia]). cbn [Z.eqb].
  rewrite (rx_bits_ok w b) by
    (first [lia | done | by rewrite Z.mod_1_r |
      intros j Hj; rewrite (pin_frame T w t s b fs _ (j + 1)) by (first [done | lia | specialize (Htol (j + 1) HB HT ltac:(lia)); lia]);
      rewrite (proj2 (Z.eqb_neq _ _)) by lia; f_equal; lia]).
  eexists. split; [|eapply (quiet_next T w t s b); [done|exact Hq|]].
  - change (0 + Z.of_nat 8) with 8. rewrite Z.mod_small by done. reflexivity.
  - pose proof (Htol 8 HB HT ltac:(lia)) as H8. assert (bit_ps / 2 <= bit_ps) by (apply Z.div_le_upper_bound; lia).
    assert (0 <= bit_ps / 2) by (apply Z.div_pos; lia). pose proof (Z.mul_div_le bit_ps 2). split; [lia|].
    unfold in_tolerance in HT. lia.
Qed.

Lemma rx_worker_quiet T fs w t n :
  0 < bit_ps -> in_tolerance T -> Forall (fun f : Z * Z => 0 <= f.2 < 256) fs -> quiet T w t fs -> (length fs <= n)%nat ->
  rx_worker n w t = map (fun '(s, b) => (s + bit_ps / 2 + 8 * bit_ps, b)) fs.
Proof.
  intros HB HT Hfs. revert t n. induction Hfs as [|[s b] fs Hb Hfs IH]; intros t n Hq Hn.
  { destruct n; [done|]. cbn [rx_worker]. unfold rx_turn. by rewrite (start_bit_none _ _ _ Hq). }
  destruct n as [|n]; [cbn in Hn; lia|]. destruct (rx_turn_frame T w t s b fs HB HT Hb Hq) as (t' & Ht & Hq').
  cbn [rx_worker map]. rewrite Ht. cbn [app]. f_equal. apply IH; [done|cbn in Hn; lia].
Qed.

Lemma quiet_start T t fs : spaced T (t + 1) fs -> quiet T (frames T fs) t fs.
Proof. intros Hs. exists [], [], t. split_and!; [done|done|lia|done|by left]. Qed.

(** The transmitter's waveform: frames of its own bit, two stop bits apart. *)
Lemma tx_frames free queue :
  0 < bit_ps ->
  exists fs, tx_worker free queue = frames bit_ps fs /\ spaced bit_ps free fs /\ map snd fs = map snd queue.
Proof.
  intros HB. revert free. induction queue as [|[at_ b] queue IH]; intros free; [by exists []|].
  cbn [tx_worker]. set (s := Z.max free at_). destruct (IH (s + 9 * bit_ps + 2 * bit_ps)) as (fs & -> & Hsp & Hm).
  exists ((s, b) :: fs). split_and!; [done| |cbn; by rewrite Hm]. split; [lia|].
  eapply spaced_later; [|exact Hsp]. lia.
Qed.

(** C10: a bit of any length [T] for which the receiver's last sample is within the last data
    bit (8.5 of its own bits are at least 8 and less than 9 of the sender's, so about 5%
    either way): [_rx_worker] receives every byte of an 8N1 sender, in order and nothing
    else, however close together or far apart they are, each 8.5 bits after its start. *)
Theorem rx_worker_receives T fs t n :
  0 < bit_ps -> in_tolerance T -> Forall (fun f : Z * Z => 0 <= f.2 < 256) fs -> spaced T (t + 1) fs -> (length fs <= n)%nat ->
  rx_worker n (frames T fs) t = map (fun '(s, b) => (s + bit_ps / 2 + 8 * bit_ps, b)) fs.
Proof. intros HB HT Hfs Hsp Hn. by apply (rx_worker_quiet T fs _ t n HB HT Hfs (quiet_start _ _ _ Hsp)). Qed.

(** What [_tx_worker] puts on a pin [_rx_worker] takes from it. *)
Lemma bridge_loops_back free queue t n :
  0 < bit_ps -> t < free -> Forall (fun q : Z * Z => 0 <= q.2 < 256) queue -> (length queue <= n)%nat ->
  map snd (rx_worker n (tx_worker free queue) t) = map snd queue.
Proof.
  intros HB Ht Hq Hn. destruct (tx_frames free queue HB) as (fs & -> & Hsp & Hm).
  assert (Hlen : length fs = length queue) by (rewrite <- (length_map snd fs), Hm; apply length_map).
  rewrite (rx_worker_quiet bit_ps fs _ t); [|done| | |apply quiet_start; eapply spaced_later; [|exact Hsp]; lia|lia].
  - rewrite map_map, <- Hm. apply map_ext. by intros [].
  - unfold in_tolerance. pose proof (Z.div_lt bit_ps 2 HB ltac:(lia)). pose proof (Z.div_pos bit_ps 2). lia.
  - apply (Forall_map snd (fun b => 0 <= b < 256)). rewrite Hm. by apply Forall_map.
Qed.

End Bridge.

(** ** Waiting *)
Section Wait.
Variable clk_period_ps : Z.
Variable done_ : list Z -> bool.

(** [read]: up to [size] bytes of the buffer, and what is left. *)
Definition read (size : Z) (rx_buffer : list Z) : list Z * list Z :=
  (take (Z.to_nat size) rx_buffer, drop (Z.to_nat size) rx_buffer).

(** What of the bytes still to come is in the buffer at [t]: bytes received at [t] are. *)
Fixpoint arrived (t : Z) (arr : list (Z * Z)) : list Z * list (Z * Z) :=
  match arr with
  | (s, b) :: arr' => if s <=? t then let '(got, rest) := arrived t arr' in (b :: got, rest) else ([], arr)
  | [] => ([], [])
  end.

(** [_consume_until]'s loop at [now]: [arr] is what [_rx_worker] receives from then on. *)
Fixpoint consume_loop (fuel : nat) (deadline log_every_cycles : Z) (arr : list (Z * Z)) (now next_log : Z) (buf : list Z) : option (list Z * bool) :=
  match fuel with
  | O => None
  | S fuel =>
      let '(rx_buffer, arr) := arrived now arr in
      let buf := buf ++ fst (read (len rx_buffer) rx_buffer) in
      if match rx_buffer with [] => false | _ => done_ buf end then Some (buf, true)
      else if deadline <=? now then Some (buf, false)
      else
        let next_log := if next_log <=? now then now + log_every_cycles * clk_period_ps else next_log in
        let timer := Z.min deadline next_log in
        let now := match arr with (s, _) :: _ => Z.min s timer | [] => timer end in
        consume_loop fuel deadline log_every_cycles arr now next_log buf
  end.
Definition _consume_until (fuel : nat) (timeout_cycles log_every_cycles : Z) (arr : list (Z * Z)) (now : Z) : option (list Z * bool) :=
  consume_loop fuel (now + timeout_cycles * clk_period_ps) log_every_cycles arr now (now + log_every_cycles * clk_period_ps) [].

(** What it promises: the bytes up to the first with which [done_] holds, if they come by the
    deadline; otherwise all that do. *)
Fixpoint first_done (deadline : Z) (arr : list (Z * Z)) (buf : list Z) : list Z * bool :=
  match arr with
  | [] => (buf, false)
  | (s, b) :: arr =>
      if deadline <? s then (buf, false)
      else if done_ (buf ++ [b]) then (buf ++ [b], true) else first_done deadline arr (buf ++ [b])
  end.

(** Bytes that come one after the other, after [t]. *)
Fixpoint in_order (t : Z) (arr : list (Z * Z)) : Prop :=
  match arr with [] => True | (s, _) :: arr => t < s /\ in_order s arr end.

Lemma arrived_none t arr : in_order t arr -> arrived t arr = ([], arr).
Proof. destruct arr as [|[s b] arr]; [done|]. intros [Hs _]. cbn. by rewrite (proj2 (Z.leb_gt _ _)) by lia. Qed.

Lemma in_order_later t t' arr : t' <= t -> in_order t arr -> in_order t' arr.
Proof. destruct arr as [|[s b] arr]; [done|]. cbn. intros Ht [Hs Ho]. split; [lia|done]. Qed.

(** At a turn of the loop: the next byte is due now, or nothing is until later. *)
Definition due (deadline now : Z) (arr : list (Z * Z)) : Prop :=
  now <= deadline /\ match arr with [] => True | (s, _) :: rest => now <= s /\ in_order s rest end.

Lemma consume_loop_done deadline log_every_cycles arr now next_log buf fuel :
  0 < log_every_cycles * clk_period_ps -> due deadline now arr -> now <= next_log ->
  (2 * Z.to_nat (deadline - now) + 2 <= fuel)%nat ->
  consume_loop fuel deadline log_every_cycles arr now next_log buf = Some (first_done deadline arr buf).
Proof.
  intros Hlog. revert arr now next_log buf. induction fuel as [|fuel IH]; intros arr now next_log buf Hdue Hn Hf; [lia|].
  destruct Hdue as [Hd Harr]. cbn [consume_loop].
  set (next_log' := if next_log <=? now then _ else _). assert (Hn' : now < next_log').
  { unfold next_log'. destruct (Z.leb_spec next_log now); lia. }
  assert (Hstep : forall arr', in_order now arr' -> now < deadline ->
    due deadline (match arr' with (s, _) :: _ => Z.min s (Z.min deadline next_log') | [] => Z.min deadline next_log' end) arr' /\
    now < match arr' with (s, _) :: _ => Z.min s (Z.min deadline next_log') | [] => Z.min deadline next_log' end <= next_log').
  { intros [|[s b] arr'] Ho Hlt; [split; [split; [lia|done]|lia]|]. destruct Ho as [Hs Ho]. split; [split; [lia|split; [lia|done]]|lia]. }
  destruct arr as [|[s b] arr]; [|destruct Harr as [Hs Ho]; destruct (Z.eq_dec s now) as [->|Hne]].
  - cbn [arrived read len length take fst]. rewrite app_nil_r. cbn [first_done]. destruct (Z.leb_spec deadline now) as [|Hlt]; [done|].
    destruct (Hstep [] I Hlt) as [Hdue Hnow]. rewrite IH; [done|done|lia|lia].
  - cbn [arrived]. rewrite Z.leb_refl, (arrived_none _ _ Ho). cbn [read len length take drop fst first_done].
    rewrite (proj2 (Z.ltb_ge _ _)) by lia. change (take (Z.to_nat (len [b])) [b]) with [b].
    destruct (done_ (buf ++ [b])); [done|]. destruct (Z.leb_spec deadline now) as [|Hlt].
    + assert (now = deadline) as -> by lia. destruct arr as [|[s' b'] arr]; [done|]. cbn [first_done]. destruct Ho as [Hs' _].
      by rewrite (proj2 (Z.ltb_lt _ _)) by lia.
    + destruct (Hstep arr Ho Hlt) as [Hdue Hnow]. rewrite IH; [done|done|lia|lia].
  - assert (Ho' : in_order now ((s, b) :: arr)) by (split; [lia|done]). rewrite (arrived_none _ _ Ho'). cbn [read len length take fst].
    rewrite app_nil_r. destruct (Z.leb_spec deadline now) as [|Hlt].
    + cbn [first_done]. by rewrite (proj2 (Z.ltb_lt _ _)) by lia.
    + destruct (Hstep _ Ho' Hlt) as [Hdue Hnow]. rewrite IH; [done|done|lia|lia].
Qed.

End Wait.

(** [token in b]. *)
Definition has_token (token : list Z) (b : list Z) : bool := contains token b.

Definition wait_for (clk_period_ps : Z) (fuel : nat) (token : list Z) (timeout_cycles log_every_cycles : Z) (arr : list (Z * Z)) (now : Z) : option (res (list Z)) :=
  match _consume_until clk_period_ps (has_token token) fuel timeout_cycles log_every_cycles arr now with
  | Some (buf, found) => Some (if found then Ok buf else Raise TimeoutError)
  | None => None
  end.

Definition wait_any (clk_period_ps : Z) (fuel : nat) (timeout_cycles log_every_cycles : Z) (arr : list (Z * Z)) (now : Z) : option (list Z) :=
  fst <$> _consume_until clk_period_ps (fun b => 0 <? len b) fuel timeout_cycles log_every_cycles arr now.

(** With enough fuel, and logging at intervals longer than none, [wait_for] ends: with
    what has come up to the first byte that completes the token, if that comes by the
    deadline, else in a TimeoutError; however often it logs. *)
Theorem wait_for_ends clk_period_ps token timeout_cycles log_every_cycles arr now :
  0 < log_every_cycles * clk_period_ps -> 0 <= timeout_cycles * clk_period_ps -> in_order now arr ->
  exists n0, forall n, (n0 <= n)%nat ->
    wait_for clk_period_ps n token timeout_cycles log_every_cycles arr now =
    Some (let '(buf, found) := first_done (has_token token) (now + timeout_cycles * clk_period_ps) arr [] in
          if found then Ok buf else Raise TimeoutError).
Proof.
  intros Hlog Ht Ho. exists (2 * Z.to_nat (timeout_cycles * clk_period_ps) + 2)%nat. intros n Hn. unfold wait_for, _consume_until.
  rewrite consume_loop_done; [by destruct (first_done _ _ _ _)|done| |lia|].
  - split; [lia|]. destruct arr as [|[s b] arr]; [done|]. destruct Ho. split; [lia|done].
  - replace (now + timeout_cycles * clk_period_ps - now) with (timeout_cycles * clk_period_ps) by lia. done.
Qed.

Lemma wait_for_ends_witness :
  exists n0, forall n, (n0 <= n)%nat ->
    wait_for 55556 n [0x4F; 0x4B] 100 30 [(1000, 0x4F); (2000000, 0x4B); (3000000, 0x21)] 0 = Some (Ok [0x4F; 0x4B]).
Proof. apply (wait_for_ends 55556 [0x4F; 0x4B] 100 30 [(1000, 0x4F); (2000000, 0x4B); (3000000, 0x21)] 0); [lia|lia|cbn; lia]. Defined.

(** A 115200 baud receiver at 18 MHz: 156 clocks of 55,556 ps. *)
Definition baud_cycles : Z := 156.
Definition DEFAULT_CLK_PERIOD_PS : Z := 55556.

(** It receives from 148 to 165 clocks a bit, and not from 147 or 166. *)
Example bridge_rates :
  map (fun c => map snd (rx_worker (baud_cycles * DEFAULT_CLK_PERIOD_PS) 3 (frames (c * DEFAULT_CLK_PERIOD_PS) [(1, 0x55); (10 * c * DEFAULT_CLK_PERIOD_PS + 1, 0x80)]) 0))
    [147; 148; 156; 165; 166] = [[0xD5; 0x80]; [0x55; 0x80]; [0x55; 0x80]; [0x55; 0x80]; [0xD5; 0]].
Proof. vm_compute. reflexivity. Qed.

Lemma rx_worker_receives_witness :
  rx_worker 8666736 2 (frames 9000000 [(100, 0x41); (90000100, 0xFF)]) 0 = [(73667356, 0x41); (163667356, 0xFF)].
Proof. apply (rx_worker_receives 8666736 9000000 [(100, 0x41); (90000100, 0xFF)] 0 2); [lia|vm_compute; split; congruence| |cbn; lia|cbn; lia]. repeat constructor; cbn; lia. Defined.
