(* ===== verification/EmuPort.v ===== *)
(** * The emulator's serial port

    sim/emu/vux9k.py: the port, the clock and the pacing the host tool's tests run on, over an
    emulated SoC given as an interface. The port is a [Port], so what is proved of the tool's
    session holds on it; and what it reads is what the SoC has sent. *)
From S2P Require Import Prelude Serial.
#[local] Open Scope Z_scope.

(** ** The SoC *)

(** What is used of [vux9k_emu.Soc]. [run n] moves the clock on by at least [n] (no program
    stops it through [tohost]); received output only grows, and only with time. *)
Class Soc (S : Type) := {
  cycle : S -> Z;
  run : Z -> S -> S;
  uart_send : bytes -> S -> S;
  uart_send_done : S -> Z;
  uart_received : S -> bytes;
  uart_sent : S -> bytes;
  uart_rx_level : S -> Z;
  uart_rx_dropped : S -> Z;
  set_button : bool -> S -> S;
  run_cycle n s : 0 <= n -> cycle s + n <= cycle (run n s);
  run_received n s : uart_received s `prefix_of` uart_received (run n s);
  run_still n s : cycle (run n s) = cycle s -> uart_received (run n s) = uart_received s;
  run_sent n s : uart_sent (run n s) = uart_sent s;
  send_cycle d s : cycle (uart_send d s) = cycle s;
  send_received d s : uart_received (uart_send d s) = uart_received s;
  send_sent d s : uart_sent (uart_send d s) = uart_sent s ++ d;
}.

Definition UART_BIT : Z := 156.
Definition UART_FRAME : Z := 10 * UART_BIT.
Definition SECTOR : Z := 512.

(** [ms] of whole milliseconds. *)
Definition ms (n : Z) : Z := CLK_HZ * n / 1000.

(** [mbr_sector]. *)
Definition mbr_sector : bytes := zeros 510 ++ [x55; xaa].

(** [d[lba] = data] of a dict of sectors, in order of insertion. *)
Fixpoint put_sector (k : Z) (v : bytes) (d : list (Z * bytes)) : list (Z * bytes) :=
  match d with
  | [] => [(k, v)]
  | (k', v') :: d => if k =? k' then (k, v) :: d else (k', v') :: put_sector k v d
  end.

(** The loop's slice assignment: at least up to the data's end, the image is long enough. *)
Definition blit (img : bytes) (at_ : Z) (data : bytes) : bytes :=
  take (Z.to_nat at_) img ++ data ++ drop (Z.to_nat at_ + length data) img.

(** [sd_image], of sectors at 0 and up. *)
Definition sd_image (sectors : list (Z * bytes)) (mbr : bool) : bytes :=
  let sectors := foldl (fun d '(k, v) => put_sector k v d) (if mbr then [(0, mbr_sector)] else []) sectors in
  match sectors with
  | [] => []
  | _ =>
      let img := zeros (SECTOR * (foldr Z.max 0 (map fst sectors) + 1)) in
      foldl (fun img '(lba, data) => blit img (lba * SECTOR) (take (Z.to_nat SECTOR) data)) img sectors
  end.

Section Emu.
Context {S : Type} `{Soc S}.

(** [press_button], in milliseconds. *)
Definition press_button (hold_ms after_ms : Z) (s : S) : S :=
  run (ms after_ms) (set_button false (run (ms hold_ms) (set_button true s))).

(** ** The port *)

Record EmuSerial := mkEmu { es_soc : S; es_pos : nat; es_log : bytes }.

(** [EmuSerial(soc)]. *)
Definition emu_init (s : S) : EmuSerial := mkEmu s (length (uart_received s)) [].

Definition set_soc (e : EmuSerial) (s : S) : EmuSerial := mkEmu s (es_pos e) (es_log e).

(** [_available], never below 0: the output only grows. *)
Definition _available (e : EmuSerial) : nat := length (uart_received (es_soc e)) - es_pos e.

Definition emu_write (d : bytes) (e : EmuSerial) : EmuSerial := set_soc e (uart_send d (es_soc e)).
Definition catch_up (s : S) : S := run (Z.max 0 (uart_send_done s - cycle s)) s.
Definition emu_flush (e : EmuSerial) : EmuSerial := set_soc e (catch_up (es_soc e)).
Definition emu_reset (e : EmuSerial) : EmuSerial := mkEmu (es_soc e) (length (uart_received (es_soc e))) (es_log e).

(** [EmuClock.sleep] of [t] cycles. *)
Definition emu_sleep (t : Z) (e : EmuSerial) : EmuSerial := set_soc e (run (Z.max 1 t) (es_soc e)).

(** [read]'s wait. *)
Fixpoint await (fuel : nat) (end_ : Z) (e : EmuSerial) : EmuSerial :=
  match fuel with
  | O => e
  | Datatypes.S fuel =>
      if bool_decide (_available e = 0%nat) && (cycle (es_soc e) <? end_)
      then await fuel end_ (set_soc e (run UART_FRAME (es_soc e))) else e
  end.

(** [self.timeout * CLK_HZ]. *)
Variable timeout : Z.

(** [read]: each turn of the wait takes a frame's time. *)
Definition emu_read (size : Z) (e : EmuSerial) : bytes * EmuSerial :=
  let e := await (Z.to_nat (timeout / UART_FRAME + 1)) (cycle (es_soc e) + timeout) e in
  let got := take (Z.to_nat size) (drop (es_pos e) (uart_received (es_soc e))) in
  (got, mkEmu (es_soc e) (es_pos e + length got) (es_log e ++ got)).

(** [read_until]: [fuel] bytes at most. *)
Fixpoint emu_read_until (fuel : nat) (expected out : bytes) (e : EmuSerial) : option (bytes * EmuSerial) :=
  match fuel with
  | O => None
  | Datatypes.S fuel =>
      if bool_decide (expected `suffix_of` out) then Some (out, e)
      else match emu_read 1 e with
           | ([], e) => Some (out, e)
           | (b, e) => emu_read_until fuel expected (out ++ b) e
           end
  end.

(** ** Pacing *)

(** [send_paced]'s wait for the FIFO to empty. *)
Fixpoint drained (fuel : nat) (end_ : Z) (s : S) : S :=
  match fuel with
  | O => s
  | Datatypes.S fuel => if negb (uart_rx_level s =? 0) && (cycle s <? end_) then drained fuel end_ (run 2000 s) else s
  end.

Definition send_chunk (drain_cycles : Z) (s : S) (chunk : bytes) : S :=
  let s := catch_up (uart_send chunk s) in
  drained (Z.to_nat (drain_cycles / 2000 + 1)) (cycle s + drain_cycles) s.

(** [send_paced] in chunks of more than none; a RuntimeError when the FIFO overflowed. *)
Definition send_paced (data : bytes) (chunk drain_cycles : Z) (s : S) : res S :=
  let s := foldl (send_chunk drain_cycles) s (chunks chunk data) in
  if uart_rx_dropped s =? 0 then Ok s else Raise RuntimeError.

(** ** What the port keeps *)

(** It has read up to a place in the output. *)
Definition emu_wf (e : EmuSerial) : Prop := (es_pos e <= length (uart_received (es_soc e)))%nat.

(** The same port, its SoC having run. *)
Definition ran (e e' : EmuSerial) : Prop :=
  es_pos e' = es_pos e /\ es_log e' = es_log e /\ uart_sent (es_soc e') = uart_sent (es_soc e) /\
  uart_received (es_soc e) `prefix_of` uart_received (es_soc e') /\ cycle (es_soc e) <= cycle (es_soc e') /\
  (cycle (es_soc e') = cycle (es_soc e) -> uart_received (es_soc e') = uart_received (es_soc e)).

Lemma ran_refl e : ran e e.
Proof. repeat split; [done|lia]. Qed.

Lemma ran_trans e1 e2 e3 : ran e1 e2 -> ran e2 e3 -> ran e1 e3.
Proof.
  intros (P1 & L1 & S1 & R1 & C1 & K1) (P2 & L2 & S2 & R2 & C2 & K2). split_and!; try congruence; [by etrans|lia|].
  intros Hc. rewrite K2 by lia. apply K1. lia.
Qed.

Lemma ran_run n e : 0 <= n -> ran e (set_soc e (run n (es_soc e))).
Proof.
  intros Hn. pose proof (run_cycle n (es_soc e) Hn). split_and!; cbn; [done|done|apply run_sent|apply run_received|lia|].
  intros Hc. by apply run_still.
Qed.

Lemma ran_await fuel end_ e : ran e (await fuel end_ e).
Proof.
  revert e. induction fuel as [|fuel IH]; intros e; [apply ran_refl|]. cbn [await].
  destruct (_ && _); [|apply ran_refl]. eapply ran_trans; [|apply IH]. by apply ran_run.
Qed.

(** The wait's fuel is enough: at its end something has arrived, or the time is over. *)
Lemma await_ends fuel end_ e :
  (Z.to_nat ((end_ - cycle (es_soc e)) / UART_FRAME + 1) <= fuel)%nat ->
  _available (await fuel end_ e) <> 0%nat \/ end_ <= cycle (es_soc (await fuel end_ e)).
Proof.
  revert e. induction fuel as [|fuel IH]; intros e Hf.
  - right. cbn [await]. destruct (Z.le_gt_cases end_ (cycle (es_soc e))); [done|].
    assert (0 <= (end_ - cycle (es_soc e)) / UART_FRAME) by (apply Z.div_pos; [lia|done]). lia.
  - cbn [await]. case_bool_decide as Ha; cbn [andb]; [|by left]. destruct (Z.ltb_spec (cycle (es_soc e)) end_) as [Hlt|Hge]; [|by right].
    apply IH. cbn [es_soc set_soc]. pose proof (run_cycle UART_FRAME (es_soc e) ltac:(done)) as Hr.
    assert (Hle : (end_ - cycle (run UART_FRAME (es_soc e))) / UART_FRAME + 1 <= (end_ - cycle (es_soc e)) / UART_FRAME).
    { rewrite <- (Z.div_add _ 1) by done. apply Z.div_le_mono; [done|]. lia. }
    lia.
Qed.

Lemma read_await size e :
  let e1 := await (Z.to_nat (timeout / UART_FRAME + 1)) (cycle (es_soc e) + timeout) e in
  ran e e1 /\ (_available e1 <> 0%nat \/ cycle (es_soc e) + timeout <= cycle (es_soc e1)) /\
  es_soc (emu_read size e).2 = es_soc e1.
Proof.
  split_and!; [apply ran_await| |done]. apply await_ends.
  replace (cycle (es_soc e) + timeout - cycle (es_soc e)) with timeout by lia. done.
Qed.

(** What a read gives: the output from the port's place on; nothing only when the timeout has
    passed without any. *)
Lemma emu_read_spec size e :
  0 < size -> let '(got, e') := emu_read size e in
  uart_received (es_soc e) `prefix_of` uart_received (es_soc e') /\ uart_sent (es_soc e') = uart_sent (es_soc e) /\
  es_log e' = es_log e ++ got /\ (got `prefix_of` drop (es_pos e) (uart_received (es_soc e'))) /\
  es_pos e' = (es_pos e + length got)%nat /\ cycle (es_soc e) <= cycle (es_soc e') /\
  (got = [] -> cycle (es_soc e) + timeout <= cycle (es_soc e')) /\
  (cycle (es_soc e') = cycle (es_soc e) -> uart_received (es_soc e') = uart_received (es_soc e)).
Proof.
  intros Hsize. destruct (read_await size e) as ((Hp & Hl & Hs & Hr & Hc & Hk) & Ha & _). unfold emu_read.
  set (e1 := await _ _ e) in *. cbn [es_soc es_pos es_log]. rewrite Hp, Hl.
  split_and!; [done|done|done|apply prefix_take|done|done| |done].
  intros Hnil. destruct Ha as [Ha|]; [|done]. exfalso. apply Ha. unfold _available. rewrite Hp.
  apply (f_equal length) in Hnil. rewrite length_take, length_drop in Hnil. cbn in Hnil. lia.
Qed.

(** ** It is a port *)
Section Instance.
Hypothesis Htimeout : 0 < timeout.

Lemma emu_read_time n e :
  0 < n -> let e' := (emu_read n e).2 in
  cycle (es_soc e) < cycle (es_soc e') \/ cycle (es_soc e') = cycle (es_soc e) /\ (_available e' < _available e)%nat.
Proof.
  intros Hn. pose proof (emu_read_spec n e Hn) as Hs. destruct (emu_read n e) as [got e']. cbn [snd].
  destruct Hs as (_ & _ & _ & [z Hgot] & Hp & Hc & Hnil & Hk). destruct (Z.eq_dec (cycle (es_soc e')) (cycle (es_soc e))) as [He|]; [|left; lia].
  right. split; [done|]. destruct got as [|c got]; [specialize (Hnil eq_refl); lia|]. unfold _available. rewrite Hp, <- (Hk He).
  apply (f_equal length) in Hgot. rewrite length_drop, length_app in Hgot. cbn [length] in *. lia.
Qed.

Lemma ran_time e e' :
  ran e e' -> cycle (es_soc e) < cycle (es_soc e') \/ cycle (es_soc e') = cycle (es_soc e) /\ (_available e' <= _available e)%nat.
Proof.
  intros (Hp & _ & _ & _ & Hc & Hk). destruct (Z.eq_dec (cycle (es_soc e')) (cycle (es_soc e))) as [He|]; [right|left; lia].
  split; [done|]. unfold _available. by rewrite Hp, (Hk He).
Qed.

Lemma ran_catch_up e : ran e (emu_flush e).
Proof. apply ran_run. lia. Qed.

Lemma ran_sleep t e : ran e (emu_sleep t e).
Proof. apply ran_run. lia. Qed.

#[program] Definition emu_port : Port EmuSerial := {|
  now e := cycle (es_soc e);
  ser_read := emu_read;
  ser_write := emu_write;
  ser_flush := emu_flush;
  reset_input_buffer := emu_reset;
  in_waiting e := Z.of_nat (_available e);
  sleep := emu_sleep;
  backlog := _available;
  sent e := uart_sent (es_soc e);
|}.
Next Obligation. by apply emu_read_time. Qed.
Next Obligation. intros. unfold _available, emu_write, set_soc. cbn [es_soc es_pos]. rewrite send_cycle, send_received. right. lia. Qed.
Next Obligation. intros e. apply (ran_time e (emu_flush e)), ran_catch_up. Qed.
Next Obligation. done. Qed.
Next Obligation. intros t e Ht. cbn. pose proof (run_cycle (Z.max 1 t) (es_soc e)). lia. Qed.
Next Obligation. intros n e. apply (read_await n e). Qed.
Next Obligation. intros. cbn. by rewrite send_sent. Qed.
Next Obligation. intros. apply run_sent. Qed.
Next Obligation. done. Qed.
Next Obligation. intros. apply run_sent. Qed.

End Instance.

(** ** What is read is what was sent *)

(** What the tests do with the port; [op_run] is the SoC running on its own. *)
Inductive op :=
| op_read (size : Z) | op_write (d : bytes) | op_flush | op_reset | op_sleep (t : Z) | op_run (n : Z).

Definition exec (o : op) (e : EmuSerial) : bytes * EmuSerial :=
  match o with
  | op_read size => emu_read size e
  | op_write d => ([], emu_write d e)
  | op_flush => ([], emu_flush e)
  | op_reset => ([], emu_reset e)
  | op_sleep t => ([], emu_sleep t e)
  | op_run n => ([], set_soc e (run (Z.max 0 n) (es_soc e)))
  end.

Fixpoint exec_all (os : list op) (e : EmuSerial) : bytes * EmuSerial :=
  match os with
  | [] => ([], e)
  | o :: os => let '(d1, e) := exec o e in let '(d2, e) := exec_all os e in (d1 ++ d2, e)
  end.

Definition written (os : list op) : bytes := concat (map (fun o => match o with op_write d => d | _ => [] end) os).
Definition no_reset (os : list op) : bool := forallb (fun o => match o with op_reset => false | _ => true end) os.

(** The output up to the port's place. *)
Definition seen (e : EmuSerial) : bytes := take (es_pos e) (uart_received (es_soc e)).

(** From [e] to [e'] the port passed [x] of the output, read [out] of it and sent [w]. *)
Definition passed (e e' : EmuSerial) (out x w : bytes) : Prop :=
  emu_wf e' /\ es_log e' = es_log e ++ out /\ uart_sent (es_soc e') = uart_sent (es_soc e) ++ w /\
  seen e' = seen e ++ x /\ out `sublist_of` x.

Lemma take_prefix_same {A} n (l k : list A) : (n <= length l)%nat -> l `prefix_of` k -> take n k = take n l.
Proof. intros Hn [z ->]. apply take_app_le. done. Qed.

Lemma passed_ran e e' : emu_wf e -> ran e e' -> passed e e' [] [] [].
Proof.
  intros Hwf (Hp & Hl & Hs & Hr & _). unfold passed, seen, emu_wf. rewrite Hp, !app_nil_r.
  split_and!; [by apply prefix_length in Hr; unfold emu_wf in Hwf; lia|done|done|by apply take_prefix_same|done].
Qed.

Lemma passed_trans e1 e2 e3 o1 o2 x1 x2 w1 w2 :
  passed e1 e2 o1 x1 w1 -> passed e2 e3 o2 x2 w2 -> passed e1 e3 (o1 ++ o2) (x1 ++ x2) (w1 ++ w2).
Proof.
  intros (_ & L1 & S1 & E1 & B1) (W2 & L2 & S2 & E2 & B2). unfold passed. rewrite L2, L1, S2, S1, E2, E1, <- !app_assoc.
  split_and!; try done. by apply sublist_app.
Qed.

Lemma passed_exec o e :
  emu_wf e -> (match o with op_read size => 0 < size | _ => True end) ->
  exists x, let '(out, e') := exec o e in
    passed e e' out x (match o with op_write d => d | _ => [] end) /\ (no_reset [o] = true -> x = out).
Proof.
  intros Hwf Ho. destruct o as [size|d| | |t|n]; cbn [exec].
  - pose proof (emu_read_spec size e Ho) as Hs. destruct (emu_read size e) as [got e']. exists got. split; [|done].
    destruct Hs as (Hr & Hsent & Hl & [z Hz] & Hp & _). unfold passed, seen, emu_wf in *. rewrite Hp, app_nil_r.
    assert (Hlen := f_equal length Hz). rewrite length_drop, length_app in Hlen. apply prefix_length in Hr as Hrl.
    split_and!; [lia|done|done| |done]. rewrite <- (take_prefix_same _ _ _ Hwf Hr).
    rewrite <- (take_drop (es_pos e) (uart_received (es_soc e'))) at 1. rewrite Hz, take_app_ge by (rewrite length_take; lia).
    f_equal. rewrite length_take, Nat.min_l by lia. replace (_ - _)%nat with (length got) by lia. apply take_app_length.
  - exists []. split; [|done]. unfold passed, seen, emu_wf in *. cbn. rewrite send_received, send_sent, !app_nil_r. done.
  - exists []. split; [|done]. apply passed_ran; [done|apply ran_catch_up].
  - exists (drop (es_pos e) (uart_received (es_soc e))). split; [|done]. unfold passed, seen, emu_wf in *. cbn. rewrite !app_nil_r.
    split_and!; [done|done|done| |apply sublist_nil_l]. by rewrite firstn_all, take_drop.
  - exists []. split; [|done]. apply passed_ran; [done|apply ran_sleep].
  - exists []. split; [|done]. apply passed_ran; [done|]. apply ran_run. lia.
Qed.

Definition reads_some (os : list op) : bool := forallb (fun o => match o with op_read size => 0 <? size | _ => true end) os.

Lemma passed_all os e :
  emu_wf e -> reads_some os = true ->
  exists x, let '(out, e') := exec_all os e in passed e e' out x (written os) /\ (no_reset os = true -> x = out).
Proof.
  revert e. induction os as [|o os IH]; intros e Hwf Hos.
  { exists []. split; [|done]. unfold passed. cbn. rewrite !app_nil_r. split_and!; done. }
  cbn [reads_some forallb] in Hos. apply andb_true_iff in Hos as [Ho Hos].
  destruct (passed_exec o e Hwf) as (x1 & H1); [destruct o; [by apply Z.ltb_lt|done..]|]. cbn [exec_all].
  destruct (exec o e) as [d1 e1]. destruct H1 as [H1 N1]. destruct (IH e1) as (x2 & H2); [apply H1|done|].
  destruct (exec_all os e1) as [d2 e2]. destruct H2 as [H2 N2]. exists (x1 ++ x2). split.
  - change (written (o :: os)) with (match o with op_write d => d | _ => [] end ++ written os). by eapply passed_trans.
  - intros Hn. unfold no_reset in *. cbn [forallb] in *. apply andb_true_iff in Hn as [Hn1 Hn2]. rewrite N1, N2; [done|done|]. by rewrite Hn1.
Qed.

(** C30: whatever the tests do with the port, in any order, and whatever the program prints
    meanwhile: the port goes through the SoC's output in order, the bytes the reads give are in
    its log, and are that output less what a reset skipped (all of it when there was none);
    what was written was sent, in order. *)
Theorem emu_reads_output os e :
  emu_wf e -> reads_some os = true ->
  exists x, let '(out, e') := exec_all os e in passed e e' out x (written os) /\ (no_reset os = true -> x = out).
Proof. apply passed_all. Qed.

End Emu.
Arguments EmuSerial S : clear implicits.

(** ** Two SoCs *)

(** One that prints bytes at given times. *)
Record toy := mkToy { toy_cycle : Z; toy_out : list (Z * byte); toy_sent : bytes }.

Fixpoint heard (c : Z) (out : list (Z * byte)) : bytes :=
  match out with
  | (t, b) :: out => if t <=? c then b :: heard c out else []
  | [] => []
  end.

Lemma heard_prefix c c' out : c <= c' -> heard c out `prefix_of` heard c' out.
Proof.
  intros Hc. induction out as [|[t b] out IH]; [done|]. cbn. destruct (Z.leb_spec t c); [|apply prefix_nil].
  rewrite (proj2 (Z.leb_le _ _)) by lia. by apply prefix_cons.
Qed.

#[export, program] Instance toy_soc : Soc toy := {
  cycle := toy_cycle;
  run n s := mkToy (toy_cycle s + Z.max 0 n) (toy_out s) (toy_sent s);
  uart_send d s := mkToy (toy_cycle s) (toy_out s) (toy_sent s ++ d);
  uart_send_done s := toy_cycle s + 1560;
  uart_received s := heard (toy_cycle s) (toy_out s);
  uart_sent := toy_sent;
  uart_rx_level _ := 0;
  uart_rx_dropped _ := 0;
  set_button _ s := s;
}.
Next Obligation. cbn. lia. Qed.
Next Obligation. intros n s. apply heard_prefix. cbn. lia. Qed.
Next Obligation. intros n s. cbn. intros ->. done. Qed.
Solve Obligations with done.

Lemma emu_reads_output_witness :
  let e := emu_init (mkToy 0 [(100, x41); (5000, x42); (20000, x43)] []) in
  let os := [op_write (bstr "u"); op_flush; op_read 1; op_read 4; op_run 20000; op_read 16] in
  (exists x, let '(out, e') := exec_all 3600000 os e in passed e e' out x (written os) /\ (no_reset os = true -> x = out)) /\
  (exec_all 3600000 os e).1 = bstr "ABC".
Proof.
  intros e os. split; [|vm_compute; reflexivity].
  apply (emu_reads_output 3600000 os e); [vm_compute; lia|reflexivity].
Defined.

(** One that prints [a] without an end, a byte each frame's time. *)
Record chatter := mkChatter { ch_frames : nat; ch_sent : bytes }.

#[export, program] Instance chatter_soc : Soc chatter := {
  cycle s := UART_FRAME * Z.of_nat (ch_frames s);
  run n s := mkChatter (ch_frames s + Z.to_nat (cdiv n UART_FRAME)) (ch_sent s);
  uart_send d s := mkChatter (ch_frames s) (ch_sent s ++ d);
  uart_send_done s := 0;
  uart_received s := replicate (ch_frames s) x61;
  uart_sent := ch_sent;
  uart_rx_level _ := 0;
  uart_rx_dropped _ := 0;
  set_button _ s := s;
}.
Next Obligation. intros n s Hn. cbn -[UART_FRAME]. pose proof (cdiv_spec n UART_FRAME). unfold UART_FRAME, UART_BIT in *. lia. Qed.
Next Obligation. intros n s. cbn -[UART_FRAME]. rewrite replicate_add. by eexists. Qed.
Next Obligation.
  intros n s. cbn -[UART_FRAME]. intros Hc. replace (Z.to_nat (cdiv n UART_FRAME)) with 0%nat by (unfold UART_FRAME, UART_BIT in *; lia).
  by rewrite Nat.add_0_r.
Qed.
Solve Obligations with done.

Lemma chatter_read timeout k d l :
  0 < timeout ->
  emu_read timeout 1 (mkEmu (mkChatter k d) k l) = ([x61], mkEmu (mkChatter (Datatypes.S k) d) (Datatypes.S k) (l ++ [x61])).
Proof.
  intros Ht. unfold emu_read. assert (Hf : exists f, Z.to_nat (timeout / UART_FRAME + 1) = Datatypes.S f).
  { exists (Z.to_nat (timeout / UART_FRAME)). assert (0 <= timeout / UART_FRAME) by (apply Z.div_pos; [lia|done]). lia. }
  destruct Hf as [f ->]. cbn [await]. unfold _available. cbn [es_soc es_pos uart_received cycle chatter_soc ch_frames].
  rewrite length_replicate, Nat.sub_diag. rewrite bool_decide_eq_true_2 by done. rewrite (proj2 (Z.ltb_lt _ _)) by lia. cbn [andb].
  replace (set_soc _ _) with (mkEmu (mkChatter (Datatypes.S k) d) k l)
    by (unfold set_soc; cbn; change (Z.to_nat (cdiv UART_FRAME UART_FRAME)) with 1%nat; by rewrite Nat.add_1_r).
  assert (Hstop : forall f e, await f e (mkEmu (mkChatter (Datatypes.S k) d) k l) = mkEmu (mkChatter (Datatypes.S k) d) k l).
  { intros [|g] e; [done|]. cbn [await]. unfold _available. cbn [es_soc es_pos uart_received chatter_soc ch_frames].
    rewrite length_replicate. rewrite bool_decide_eq_false_2 by lia. done. }
  rewrite Hstop. cbn [es_soc es_pos es_log uart_received chatter_soc ch_frames]. replace (Datatypes.S k) with (k + 1)%nat by lia.
  rewrite replicate_add, drop_app_ge by (by rewrite length_replicate). rewrite length_replicate, Nat.sub_diag. reflexivity.
Qed.

(** [read_until] doesn't end at the port's timeout when bytes keep coming without a newline:
    the timeout starts anew with each byte, unlike pyserial's. *)
Lemma read_until_chatter timeout fuel k d :
  0 < timeout -> emu_read_until timeout fuel [x0a] [] (emu_init (mkChatter k d)) = None.
Proof.
  intros Ht. assert (Hl : forall fuel n k l, emu_read_until timeout fuel [x0a] (replicate n x61) (mkEmu (mkChatter k d) k l) = None).
  { clear fuel k. induction fuel as [|fuel IH]; intros n k l; [done|]. cbn [emu_read_until].
    rewrite bool_decide_eq_false_2.
    - rewrite chatter_read by done. replace (replicate n x61 ++ [x61]) with (replicate (n + 1) x61) by (by rewrite replicate_add). apply IH.
    - intros [z Hz]. assert (Hin : x0a ∈ replicate n x61) by (rewrite Hz; apply elem_of_app; right; by left).
      by apply elem_of_replicate in Hin as [? _]. }
  unfold emu_init. cbn [uart_received chatter_soc ch_frames]. rewrite length_replicate. apply (Hl fuel 0%nat).
Qed.
