(* ===== verification/Uart.v ===== *)
(** * The emulator's UART

    emu/crates/vux9k_emu/src/periph/uart.rs: FIFOs, the transmitter's bit timer and the line
    from the host. The emulator advances it lazily, from event to event ([advance]); here that
    is shown to be the same as stepping it clock by clock ([tick]), whatever the CPU and the
    host do in time order. Frames leave the pin one after the other on the bit timer's grid,
    and every byte the FIFOs take comes out once, in order. Cycles are unbounded integers
    where the emulator counts in u64. *)
From Stdlib Require Import Sorted.
From S2P Require Import Prelude.
#[local] Open Scope Z_scope.

Module Uart.

Definition BIT : Z := 156.
Definition FRAME : Z := 10 * BIT.
Definition FIFO_DEPTH : Z := 32.
Definition FIRST_ALARM : Z := BIT - 1.
Definition RX_PUSH_DELAY : Z := 3 + BIT / 2 + 9 * BIT.
(** [u64::MAX]. *)
Definition U64_MAX : Z := 2 ^ 64 - 1.

Inductive CpuOp : Type := TxPush (b : Z) | RxPop | SetEvEnable (v : Z).

(** A byte on the RX line and the cycle its start bit begins. *)
Record RxFrame := mkFrame { f_byte : Z; f_start : Z }.

Record Uart := mkUart {
  now : Z; tx_fifo : list Z; tx_idle_from : Z; tx_out : list (Z * Z); tx_bytes : list Z;
  rx_fifo : list Z; rx_line : list RxFrame; rx_line_free : Z; rx_dropped : Z;
  cpu_ops : list (Z * CpuOp); quiet_until : Z; ev_enable : Z
}.
Definition uart_default : Uart := mkUart 0 [] (FIRST_ALARM + 1) [] [] [] [] 0 0 [] 0 0.

Definition set_now v u := mkUart v (tx_fifo u) (tx_idle_from u) (tx_out u) (tx_bytes u) (rx_fifo u) (rx_line u) (rx_line_free u) (rx_dropped u) (cpu_ops u) (quiet_until u) (ev_enable u).
Definition set_quiet v u := mkUart (now u) (tx_fifo u) (tx_idle_from u) (tx_out u) (tx_bytes u) (rx_fifo u) (rx_line u) (rx_line_free u) (rx_dropped u) (cpu_ops u) v (ev_enable u).

(** First TX bit-timer alarm in cycle [c] or later. *)
Definition next_alarm (c : Z) : Z := if c <=? FIRST_ALARM then FIRST_ALARM else FIRST_ALARM + cdiv (c - FIRST_ALARM) BIT * BIT.

(** ** One edge ([apply_edge]) *)

(** A byte popped from the TX FIFO. *)
Definition tx_step (edge : Z) (u : Uart) : Uart :=
  match tx_fifo u with
  | [] => u
  | byte :: fifo =>
      let load := next_alarm (edge + 1) in
      mkUart (now u) fifo (load + 9 * BIT + 2) (tx_out u ++ [(byte, load + 1)]) (tx_bytes u ++ [byte]) (rx_fifo u)
        (rx_line u) (rx_line_free u) (rx_dropped u) (cpu_ops u) (quiet_until u) (ev_enable u)
  end.

(** A frame's arrival: its byte, unless the FIFO is full. *)
Definition rx_step (rx_full : bool) (u : Uart) : option Z * Uart :=
  match rx_line u with
  | [] => (None, u)
  | f :: line =>
      let u' d := mkUart (now u) (tx_fifo u) (tx_idle_from u) (tx_out u) (tx_bytes u) (rx_fifo u) line (rx_line_free u)
        (rx_dropped u + d) (cpu_ops u) (quiet_until u) (ev_enable u) in
      if rx_full then (None, u' 1) else (Some (f_byte f), u' 0)
  end.

(** A CPU effect at its edge. *)
Definition do_op (op : CpuOp) (u : Uart) : Uart :=
  let mk tx rx ev := mkUart (now u) tx (tx_idle_from u) (tx_out u) (tx_bytes u) rx (rx_line u) (rx_line_free u) (rx_dropped u)
    (cpu_ops u) (quiet_until u) ev in
  match op with
  | TxPush b => mk (tx_fifo u ++ [b]) (rx_fifo u) (ev_enable u)
  | RxPop => mk (tx_fifo u) (tail (rx_fifo u)) (ev_enable u)
  | SetEvEnable v => mk (tx_fifo u) (rx_fifo u) v
  end.
Definition set_ops ops u := mkUart (now u) (tx_fifo u) (tx_idle_from u) (tx_out u) (tx_bytes u) (rx_fifo u) (rx_line u) (rx_line_free u) (rx_dropped u) ops (quiet_until u) (ev_enable u).
Definition push_rx (b : option Z) u := mkUart (now u) (tx_fifo u) (tx_idle_from u) (tx_out u) (tx_bytes u) (rx_fifo u ++ option_list b) (rx_line u) (rx_line_free u) (rx_dropped u) (cpu_ops u) (quiet_until u) (ev_enable u).

(** The effects waiting for this edge. *)
Fixpoint do_ops (edge : Z) (ops : list (Z * CpuOp)) (u : Uart) : Uart :=
  match ops with
  | (e, op) :: rest => if e =? edge then do_ops edge rest (do_op op u) else set_ops ops u
  | [] => set_ops [] u
  end.

Definition apply_edge (edge : Z) (tx_pop rx_push : bool) (u : Uart) : Uart :=
  let rx_full := len (rx_fifo u) =? FIFO_DEPTH in
  let u := if tx_pop then tx_step edge u else u in
  let '(pushed, u) := if rx_push then rx_step rx_full u else (None, u) in
  push_rx pushed (do_ops edge (cpu_ops u) u).

(** ** The lazy advance *)

Definition arrival (f : RxFrame) : Z := f_start f + RX_PUSH_DELAY.
Definition tx_pop_at (u : Uart) : option Z := match tx_fifo u with [] => None | _ => Some (Z.max (now u) (tx_idle_from u)) end.
Definition rx_push_at (u : Uart) : option Z := match rx_line u with [] => None | f :: _ => Some (arrival f) end.
Definition cpu_at (u : Uart) : option Z := match cpu_ops u with [] => None | op :: _ => Some (fst op) end.

(** [[tx_pop, rx_push, cpu].into_iter().flatten().min()]. *)
Definition earlier (a b : option Z) : option Z :=
  match a, b with Some x, Some y => Some (Z.min x y) | Some x, None => Some x | None, o => o end.
Definition next_edge (u : Uart) : option Z := earlier (earlier (tx_pop_at u) (rx_push_at u)) (cpu_at u).

Definition edge_step (edge : Z) (u : Uart) : Uart :=
  set_now (edge + 1) (apply_edge edge (bool_decide (tx_pop_at u = Some edge)) (bool_decide (rx_push_at u = Some edge)) u).

(** [advance_edges]'s loop; the fuel is the number of edges there can be. *)
Fixpoint edges_loop (fuel : nat) (to : Z) (u : Uart) : Uart :=
  match fuel with
  | O => u
  | S fuel =>
      if now u <? to then
        match next_edge u with
        | None => set_quiet U64_MAX (set_now to u)
        | Some edge => if to <=? edge then set_quiet edge (set_now to u) else edges_loop fuel to (edge_step edge u)
        end
      else u
  end.
Definition edges_left (u : Uart) : nat := length (tx_fifo u) + length (rx_line u) + 2 * length (cpu_ops u).
Definition advance_edges (to : Z) (u : Uart) : Uart := edges_loop (S (edges_left u)) to (set_quiet 0 u).

Definition advance (to : Z) (u : Uart) : Uart :=
  if to <=? quiet_until u then set_now (Z.max (now u) to) u else advance_edges to u.

(** ** Registers *)

Definition queue (edge : Z) (op : CpuOp) (u : Uart) : Uart :=
  set_quiet (Z.min (quiet_until u) edge) (set_ops (cpu_ops u ++ [(edge, op)]) u).

Definition events (u : Uart) : Z :=
  Z.lor (Z.b2z (len (tx_fifo u) <? FIFO_DEPTH)) (Z.shiftl (Z.b2z (negb (len (rx_fifo u) =? 0))) 1).
Definition enabled (u : Uart) : Z := Z.land (ev_enable u) (events u).
Definition pending (u : Uart) : Z := if ev_enable u =? 0 then events u else enabled u.

Definition pop_head (c : Z) (u : Uart) : Z * Uart :=
  match rx_fifo u with
  | [] => (0, u)
  | b :: _ => (b, queue c RxPop u)
  end.

(** What the registers do, over the way the state is brought forward to a cycle: [advance],
    or [sync] below. *)
Section Registers.
Variable advance : Z -> Uart -> Uart.

(** [push_tx]'s [v as u8] of a word. *)
Definition push_tx (v c : Z) (u : Uart) : Uart :=
  let u := advance c u in if len (tx_fifo u) <? FIFO_DEPTH then queue c (TxPush (v mod 256)) u else u.

Definition read (addr c : Z) (u : Uart) : Z * Uart :=
  let u := advance c u in
  let a := Z.land addr 0xFC in
  if a =? 0x00 then pop_head c u
  else if a =? 0x04 then (Z.b2z (len (tx_fifo u) =? FIFO_DEPTH), u)
  else if a =? 0x08 then (Z.b2z (len (rx_fifo u) =? 0), u)
  else if a =? 0x0C then (events u, u)
  else if a =? 0x10 then (pending u, u)
  else if a =? 0x14 then (ev_enable u, u)
  else if a =? 0x18 then (Z.b2z (len (tx_fifo u) =? 0), u)
  else if a =? 0x1C then (Z.b2z (len (rx_fifo u) =? FIFO_DEPTH), u)
  else (0, u).

Definition write (addr v c : Z) (u : Uart) : Uart :=
  let a := Z.land addr 0xFC in
  if a =? 0x00 then push_tx v c u
  else if a =? 0x14 then queue c (SetEvEnable (Z.land v 3)) (advance c u)
  else u.

Definition uart_soft_reset (c : Z) (u : Uart) : Uart := queue c (SetEvEnable 0) (advance c u).
Definition irq (c : Z) (u : Uart) : bool * Uart := let u := advance c u in (negb (enabled u =? 0), u).

Definition legacy_read (addr c : Z) (u : Uart) : Z * Uart :=
  let u := advance c u in
  if Z.land addr 0xF =? 0 then pop_head c u
  else (Z.lor (Z.shiftl (Z.b2z (len (tx_fifo u) =? FIFO_DEPTH)) 1) (Z.b2z (len (rx_fifo u) =? 0)), u).
Definition legacy_write (addr v c : Z) (u : Uart) : Uart := if Z.land addr 0xF =? 0 then push_tx v c u else u.

Definition rx_level (c : Z) (u : Uart) : Z * Uart := let u := advance c u in (len (rx_fifo u), u).
Definition rx_dropped_by (c : Z) (u : Uart) : Z * Uart := let u := advance c u in (rx_dropped u, u).
Definition rx_pending (c : Z) (u : Uart) : bool * Uart := let u := advance c u in (negb (len (rx_fifo u) =? 0), u).

End Registers.

(** ** The host's end of the line *)

(** [host_send]'s turn; it panics when the byte would arrive at an edge already passed. *)
Definition host_byte (c byte : Z) (u : Uart) : option Uart :=
  let start := Z.max (rx_line_free u) c in
  if now u <=? start + RX_PUSH_DELAY then
    Some (mkUart (now u) (tx_fifo u) (tx_idle_from u) (tx_out u) (tx_bytes u) (rx_fifo u) (rx_line u ++ [mkFrame byte start])
      (start + FRAME) (rx_dropped u) (cpu_ops u) (Z.min (quiet_until u) (start + RX_PUSH_DELAY)) (ev_enable u))
  else None.
Fixpoint host_send (bs : list Z) (c : Z) (u : Uart) : option Uart :=
  match bs with [] => Some u | b :: bs => u ← host_byte c b u; host_send bs c u end.
Definition host_send_done (u : Uart) : Z := match last (rx_line u) with Some f => f_start f + RX_PUSH_DELAY + 1 | None => 0 end.

(** [partition_point]: the frames are in the order they left in. *)
Fixpoint partition_point {A} (p : A -> bool) (l : list A) : Z :=
  match l with x :: l => if p x then 1 + partition_point p l else 0 | [] => 0 end.
Definition tx_complete_by (c : Z) (u : Uart) : Z := partition_point (fun bs => bs.2 + FRAME <=? c) (tx_out u).
Definition next_tx_complete (n c : Z) (u : Uart) : Z :=
  let unpopped := c + 2 + FRAME in
  match tx_out u !! Z.to_nat n with Some (_, s) => Z.min (s + FRAME) unpopped | None => unpopped end.

(** ** Clock by clock *)

(** The state during the next cycle: everything that happens at the end of this one, decided
    from the state during it. *)
Definition tx_due (u : Uart) : bool := negb (len (tx_fifo u) =? 0) && (tx_idle_from u <=? now u).
Definition rx_due (u : Uart) : bool := match rx_line u with f :: _ => arrival f =? now u | [] => false end.
Definition tick (u : Uart) : Uart := set_now (now u + 1) (apply_edge (now u) (tx_due u) (rx_due u) u).
Definition ticks (n : nat) (u : Uart) : Uart := Nat.iter n tick u.
Definition sync (to : Z) (u : Uart) : Uart := ticks (Z.to_nat (to - now u)) u.

(** What the CPU and the host do with the UART. *)
Inductive uop : Type :=
| URead (addr c : Z) | UWrite (addr v c : Z) | UIrq (c : Z) | USoftReset (c : Z)
| ULegacyRead (addr c : Z) | ULegacyWrite (addr v c : Z) | ULegacyIrq (c : Z) | URxLevel (c : Z) | URxDropped (c : Z)
| UHost (bs : list Z) (c : Z).
Definition uop_do (adv : Z -> Uart -> Uart) (o : uop) (u : Uart) : option (Z * Uart) :=
  match o with
  | URead a c => Some (read adv a c u)
  | UWrite a v c => Some (0, write adv a v c u)
  | UIrq c => let '(b, u) := irq adv c u in Some (Z.b2z b, u)
  | USoftReset c => Some (0, uart_soft_reset adv c u)
  | ULegacyRead a c => Some (legacy_read adv a c u)
  | ULegacyWrite a v c => Some (0, legacy_write adv a v c u)
  | ULegacyIrq c => let '(b, u) := rx_pending adv c u in Some (Z.b2z b, u)
  | URxLevel c => Some (rx_level adv c u)
  | URxDropped c => Some (rx_dropped_by adv c u)
  | UHost bs c => u ← host_send bs c u; Some (0, u)
  end.
Fixpoint uops_do (adv : Z -> Uart -> Uart) (os : list uop) (u : Uart) : option (list Z * Uart) :=
  match os with
  | [] => Some ([], u)
  | o :: os => '(v, u) ← uop_do adv o u; '(vs, u) ← uops_do adv os u; Some (v :: vs, u)
  end.

(** The cycle the CPU does it in; the host sends whenever it likes. *)
Definition uop_cycle (o : uop) : option Z :=
  match o with
  | URead _ c | UWrite _ _ c | UIrq c | USoftReset c | ULegacyRead _ c | ULegacyWrite _ _ c | ULegacyIrq c
  | URxLevel c | URxDropped c => Some c
  | UHost _ _ => None
  end.
Fixpoint in_time (t : Z) (os : list uop) : Prop :=
  match os with
  | [] => True
  | o :: os => match uop_cycle o with Some c => t <= c /\ in_time c os | None => in_time t os end
  end.

(** ** What is ahead of the UART is ahead of it *)

Record ahead (u : Uart) : Prop := {
  ah_now : 0 <= now u;
  ah_ops : Forall (fun op => now u <= fst op) (cpu_ops u);
  ah_ops_sorted : StronglySorted (fun a b => fst a <= fst b) (cpu_ops u);
  ah_line : Forall (fun f => now u <= arrival f) (rx_line u);
  ah_line_sorted : StronglySorted (fun a b => f_start a + FRAME <= f_start b) (rx_line u);
  ah_free : Forall (fun f => f_start f + FRAME <= rx_line_free u) (rx_line u)
}.
(** [quiet_until] is no later than the next edge. *)
Definition quiet_ok (u : Uart) : Prop := forall e, next_edge u = Some e -> quiet_until u <= e.

Lemma do_ops_frame edge ops u :
  now (do_ops edge ops u) = now u /\ tx_idle_from (do_ops edge ops u) = tx_idle_from u /\ rx_line (do_ops edge ops u) = rx_line u /\
  rx_line_free (do_ops edge ops u) = rx_line_free u /\ quiet_until (do_ops edge ops u) = quiet_until u /\
  tx_out (do_ops edge ops u) = tx_out u /\ tx_bytes (do_ops edge ops u) = tx_bytes u /\ rx_dropped (do_ops edge ops u) = rx_dropped u.
Proof.
  revert u. induction ops as [|[e op] ops IH]; intros u; [done|]. cbn [do_ops]. destruct (e =? edge); [|done].
  destruct (IH (do_op op u)) as (-> & -> & -> & -> & -> & -> & -> & ->). by destruct op.
Qed.

(** What is left of the effects after an edge. *)
Definition ops_after (edge : Z) (ops : list (Z * CpuOp)) : list (Z * CpuOp) := cpu_ops (do_ops edge ops uart_default).
Lemma ops_after_spec edge ops u : cpu_ops (do_ops edge ops u) = ops_after edge ops.
Proof.
  unfold ops_after. generalize uart_default. revert u. induction ops as [|[e op] ops IH]; intros u v; [done|]. cbn [do_ops].
  destruct (e =? edge); [apply IH|done].
Qed.
Lemma ops_after_cons edge e op ops : ops_after edge ((e, op) :: ops) = if e =? edge then ops_after edge ops else (e, op) :: ops.
Proof. unfold ops_after. cbn [do_ops]. destruct (e =? edge); [apply ops_after_spec|done]. Qed.

Lemma ops_after_ahead edge ops :
  Forall (fun op => edge <= fst op) ops -> StronglySorted (fun a b => fst a <= fst b) ops ->
  Forall (fun op => edge + 1 <= fst op) (ops_after edge ops) /\ StronglySorted (fun a b : Z * CpuOp => fst a <= fst b) (ops_after edge ops).
Proof.
  intros Hf Hs. induction Hs as [|[e op] ops Hs IH Hle]; [by split; constructor|]. apply Forall_cons in Hf as [He Hf].
  rewrite ops_after_cons. cbn [fst] in *. destruct (Z.eqb_spec e edge) as [->|Hne]; [by apply IH|].
  split; [|by constructor]. constructor; [cbn [fst]; lia|]. eapply Forall_impl; [exact Hle|]. cbn [fst]. intros [e' ?]; cbn [fst]. lia.
Qed.

Lemma tx_step_frame e u :
  now (tx_step e u) = now u /\ rx_line (tx_step e u) = rx_line u /\ rx_line_free (tx_step e u) = rx_line_free u /\
  cpu_ops (tx_step e u) = cpu_ops u /\ quiet_until (tx_step e u) = quiet_until u /\ rx_fifo (tx_step e u) = rx_fifo u.
Proof. unfold tx_step. by destruct (tx_fifo u). Qed.

Lemma rx_step_frame b u :
  now (rx_step b u).2 = now u /\ rx_line (rx_step b u).2 = tail (rx_line u) /\ rx_line_free (rx_step b u).2 = rx_line_free u /\
  cpu_ops (rx_step b u).2 = cpu_ops u /\ quiet_until (rx_step b u).2 = quiet_until u /\ rx_fifo (rx_step b u).2 = rx_fifo u /\
  tx_fifo (rx_step b u).2 = tx_fifo u /\ tx_idle_from (rx_step b u).2 = tx_idle_from u /\ tx_out (rx_step b u).2 = tx_out u.
Proof. unfold rx_step. destruct (rx_line u) as [|f line] eqn:E; [cbn; by rewrite E|]. by destruct b. Qed.

(** What an edge leaves of the line, the effects and the clock. *)
Lemma apply_edge_frame e tx rx u :
  now (apply_edge e tx rx u) = now u /\ rx_line (apply_edge e tx rx u) = (if rx then tail (rx_line u) else rx_line u) /\
  rx_line_free (apply_edge e tx rx u) = rx_line_free u /\ cpu_ops (apply_edge e tx rx u) = ops_after e (cpu_ops u) /\
  quiet_until (apply_edge e tx rx u) = quiet_until u.
Proof.
  unfold apply_edge. set (u1 := if tx then tx_step e u else u).
  assert (H1 : now u1 = now u /\ rx_line u1 = rx_line u /\ rx_line_free u1 = rx_line_free u /\ cpu_ops u1 = cpu_ops u /\ quiet_until u1 = quiet_until u).
  { unfold u1. destruct tx; [|done]. destruct (tx_step_frame e u) as (? & ? & ? & ? & ? & ?). done. }
  clearbody u1. destruct H1 as (H1 & H2 & H3 & H4 & H5). destruct rx.
  - destruct (rx_step_frame (len (rx_fifo u) =? FIFO_DEPTH) u1) as (R1 & R2 & R3 & R4 & R5 & _).
    destruct (rx_step _ u1) as [p u2]. cbn [snd] in *. destruct (do_ops_frame e (cpu_ops u2) u2) as (D1 & D2 & D3 & D4 & D5 & _).
    cbn. rewrite D1, D3, D4, D5, ops_after_spec. by rewrite R1, R2, R3, R4, R5, H1, H2, H3, H4, H5.
  - destruct (do_ops_frame e (cpu_ops u1) u1) as (D1 & D2 & D3 & D4 & D5 & _).
    cbn. rewrite D1, D3, D4, D5, ops_after_spec. by rewrite H1, H2, H3, H4, H5.
Qed.

Lemma rx_push_now u : bool_decide (rx_push_at u = Some (now u)) = rx_due u.
Proof.
  unfold rx_push_at, rx_due. destruct (rx_line u) as [|f ?]; [by apply bool_decide_eq_false_2|].
  destruct (Z.eqb_spec (arrival f) (now u)); [apply bool_decide_eq_true_2; congruence|apply bool_decide_eq_false_2; congruence].
Qed.

Lemma tx_pop_now u : bool_decide (tx_pop_at u = Some (now u)) = tx_due u.
Proof.
  unfold tx_pop_at, tx_due. destruct (tx_fifo u) as [|b ?]; [by apply bool_decide_eq_false_2|]. rewrite len_cons.
  rewrite (proj2 (Z.eqb_neq _ _)) by (pose proof (len_nonneg (A:=Z)); specialize (H l); lia). cbn [negb andb].
  destruct (Z.leb_spec (tx_idle_from u) (now u)); [apply bool_decide_eq_true_2; f_equal; lia|].
  apply bool_decide_eq_false_2. intros Hn. apply (inj Some) in Hn. lia.
Qed.

(** A tick is the event-driven step of this cycle. *)
Lemma tick_edge u : tick u = edge_step (now u) u.
Proof. unfold tick, edge_step. by rewrite rx_push_now, tx_pop_now. Qed.

Lemma now_tick u : now (tick u) = now u + 1.
Proof. done. Qed.
Lemma now_ticks n u : now (ticks n u) = now u + Z.of_nat n.
Proof. induction n as [|n IH]; [cbn; lia|]. cbn [ticks Nat.iter nat_rect]. rewrite now_tick. unfold ticks, Nat.iter in IH. rewrite IH. lia. Qed.
Lemma ticks_add n m u : ticks (n + m) u = ticks n (ticks m u).
Proof. induction n as [|n IH]; [done|]. cbn. f_equal. exact IH. Qed.

Lemma tick_ahead u : ahead u -> ahead (tick u).
Proof.
  intros [Hn Ho Hs Hl Hls Hf]. unfold tick. set (rx := rx_due u). set (tx := tx_due u).
  destruct (apply_edge_frame (now u) tx rx u) as (A1 & A2 & A3 & A4 & A5). destruct (ops_after_ahead (now u) (cpu_ops u) Ho Hs) as [B1 B2].
  assert (Hline : Forall (fun f => now u + 1 <= arrival f) (if rx then tail (rx_line u) else rx_line u)).
  { unfold rx, rx_due. destruct (rx_line u) as [|f line]; [constructor|]. apply Forall_cons in Hl as [Hf0 Hl]. apply StronglySorted_inv in Hls as [_ Hlt].
    assert (Ht : Forall (fun g => now u + 1 <= arrival g) line).
    { eapply Forall_impl; [exact Hlt|]. intros g Hg. unfold arrival, FRAME, BIT in *. lia. }
    destruct (Z.eqb_spec (arrival f) (now u)); [done|]. constructor; [lia|done]. }
  assert (Hsub : forall P : RxFrame -> Prop, Forall P (rx_line u) -> Forall P (if rx then tail (rx_line u) else rx_line u)).
  { intros P HP. destruct rx; [|done]. destruct (rx_line u); [done|]. by apply Forall_cons in HP as [_ HP]. }
  constructor; cbn [now set_now cpu_ops rx_line rx_line_free]; rewrite ?A2, ?A3, ?A4; try done; [lia| |by apply Hsub].
  destruct rx; [|done]. destruct (rx_line u); [constructor|]. by apply StronglySorted_inv in Hls as [? _].
Qed.
Lemma ticks_ahead n u : ahead u -> ahead (ticks n u).
Proof. intros H. induction n as [|n IH]; [done|]. by apply tick_ahead. Qed.

Lemma uart_eta u : mkUart (now u) (tx_fifo u) (tx_idle_from u) (tx_out u) (tx_bytes u) (rx_fifo u) (rx_line u) (rx_line_free u)
  (rx_dropped u) (cpu_ops u) (quiet_until u) (ev_enable u) = u.
Proof. by destruct u. Qed.

Lemma earlier_spec a b e : earlier a b = Some e ->
  (a = Some e \/ b = Some e) /\ (forall x, a = Some x -> e <= x) /\ (forall x, b = Some x -> e <= x).
Proof.
  destruct a as [x|], b as [y|]; cbn; intros He; simplify_eq; (split; [|split; intros; simplify_eq; lia]); auto.
  destruct (Z.min_spec x y) as [[_ ->]|[_ ->]]; auto.
Qed.
Lemma earlier_None a b : earlier a b = None -> a = None /\ b = None.
Proof. by destruct a, b. Qed.

(** The next edge is one of the three, and none is before it. *)
Lemma next_edge_spec u e : next_edge u = Some e ->
  (tx_pop_at u = Some e \/ rx_push_at u = Some e \/ cpu_at u = Some e) /\
  (forall x, tx_pop_at u = Some x \/ rx_push_at u = Some x \/ cpu_at u = Some x -> e <= x).
Proof.
  unfold next_edge. intros He. apply earlier_spec in He as (Hor & H1 & H2).
  destruct (earlier (tx_pop_at u) (rx_push_at u)) as [x|] eqn:E.
  - apply earlier_spec in E as (Hor' & H3 & H4). specialize (H1 x eq_refl).
    split; [destruct Hor as [Hx|?]; [simplify_eq; destruct Hor'; auto|auto]|].
    intros y [Hy|[Hy|Hy]]; [specialize (H3 y Hy); lia|specialize (H4 y Hy); lia|by apply H2].
  - apply earlier_None in E as [E1 E2]. rewrite E1, E2. destruct Hor as [?|Hc]; [done|]. split; [auto|].
    intros y [?|[?|Hy]]; [done..|by apply H2].
Qed.
Lemma next_edge_None u : next_edge u = None -> tx_fifo u = [] /\ rx_line u = [] /\ cpu_ops u = [].
Proof.
  unfold next_edge. intros H. apply earlier_None in H as [H H3]. apply earlier_None in H as [H1 H2].
  unfold tx_pop_at, rx_push_at, cpu_at in *. by destruct (tx_fifo u), (rx_line u), (cpu_ops u).
Qed.

Lemma next_edge_ahead u e : ahead u -> next_edge u = Some e -> now u <= e.
Proof.
  intros Ha He. apply next_edge_spec in He as [Hor _]. destruct Ha as [_ Ho _ Hl _ _].
  unfold tx_pop_at, rx_push_at, cpu_at in Hor. destruct Hor as [H|[H|H]].
  - destruct (tx_fifo u); simplify_eq. lia.
  - destruct (rx_line u) as [|f ?]; simplify_eq. by apply Forall_cons in Hl as [? _].
  - destruct (cpu_ops u) as [|o ?]; simplify_eq. by apply Forall_cons in Ho as [? _].
Qed.

(** Nothing happens at a cycle before the next edge. *)
Lemma tick_quiet u : ahead u -> (forall e, next_edge u = Some e -> now u < e) -> tick u = set_now (now u + 1) u.
Proof.
  intros Ha Hq. assert (Hx : forall x, tx_pop_at u = Some x \/ rx_push_at u = Some x \/ cpu_at u = Some x -> x <> now u).
  { intros x Hx. destruct (next_edge u) as [e|] eqn:E.
    - specialize (Hq e eq_refl). apply next_edge_spec in E as [_ Hmin]. specialize (Hmin x Hx). lia.
    - apply next_edge_None in E as (E1 & E2 & E3). unfold tx_pop_at, rx_push_at, cpu_at in Hx. rewrite E1, E2, E3 in Hx. by destruct Hx as [?|[?|?]]. }
  rewrite tick_edge. unfold edge_step. f_equal.
  rewrite (bool_decide_eq_false_2 (tx_pop_at u = _)) by (intros H; by apply (Hx (now u)); [left|]).
  rewrite (bool_decide_eq_false_2 (rx_push_at u = _)) by (intros H; by apply (Hx (now u)); [right; left|]).
  unfold apply_edge. assert (Hd : do_ops (now u) (cpu_ops u) u = u).
  { destruct (cpu_ops u) as [|[e op] ops] eqn:E; cbn [do_ops].
    - rewrite <- (uart_eta u) at 2. by rewrite E.
    - destruct (Z.eqb_spec e (now u)) as [He|]; [|rewrite <- (uart_eta u) at 2; by rewrite E].
      exfalso. apply (Hx e); [|done]. do 2 right. unfold cpu_at. by rewrite E. }
  rewrite Hd. unfold push_rx. cbn [option_list]. rewrite app_nil_r. by rewrite uart_eta.
Qed.

(** The next edge, seen from a later cycle that is not past it. *)
Lemma next_edge_later u c :
  ahead u -> now u <= c -> (forall e, next_edge u = Some e -> c <= e) ->
  (forall e, next_edge (set_now c u) = Some e -> c <= e /\ exists e', next_edge u = Some e' /\ e' <= e) /\ ahead (set_now c u).
Proof.
  intros Ha Hc Hq. split.
  - intros e He. pose proof He as He0. apply next_edge_spec in He as [Hor _].
    assert (Hu : exists x, (tx_pop_at u = Some x \/ rx_push_at u = Some x \/ cpu_at u = Some x) /\ x <= e).
    { destruct Hor as [H|[H|H]]; [|exists e; split; [auto|lia]..]. unfold tx_pop_at in H. cbn in H. destruct (tx_fifo u) eqn:E; [done|].
      apply (inj Some) in H. exists (Z.max (now u) (tx_idle_from u)). unfold tx_pop_at. rewrite E. split; [by left|lia]. }
    destruct Hu as (x & Hx & Hxe). destruct (next_edge u) as [e'|] eqn:E.
    + specialize (Hq e' eq_refl). apply next_edge_spec in E as [_ Hmin]. specialize (Hmin x Hx). split; [lia|]. exists e'. split; [done|lia].
    + apply next_edge_None in E as (E1 & E2 & E3). unfold tx_pop_at, rx_push_at, cpu_at in Hx. rewrite E1, E2, E3 in Hx. by destruct Hx as [?|[?|?]].
  - destruct Ha as [Hn Ho Hs Hl Hls Hf]. constructor; cbn [now set_now cpu_ops rx_line rx_line_free]; try done; [lia| |].
    + destruct (cpu_ops u) as [|o ops] eqn:E; [constructor|]. apply StronglySorted_inv in Hs as [_ Hs].
      assert (c <= fst o).
      { destruct (next_edge u) as [e|] eqn:En; [|apply next_edge_None in En as (_ & _ & En); congruence]. specialize (Hq e eq_refl).
        apply next_edge_spec in En as [_ Hmin]. specialize (Hmin (fst o)). unfold cpu_at in Hmin. rewrite E in Hmin. specialize (Hmin ltac:(auto)). lia. }
      constructor; [done|]. eapply Forall_impl; [exact Hs|]. intros b Hb; cbn beta in *; lia.
    + destruct (rx_line u) as [|f line] eqn:E; [constructor|]. apply StronglySorted_inv in Hls as [_ Hls].
      assert (c <= arrival f).
      { destruct (next_edge u) as [e|] eqn:En; [|apply next_edge_None in En as (_ & En & _); congruence]. specialize (Hq e eq_refl).
        apply next_edge_spec in En as [_ Hmin]. specialize (Hmin (arrival f)). unfold rx_push_at in Hmin. rewrite E in Hmin. specialize (Hmin ltac:(auto)). lia. }
      constructor; [done|]. eapply Forall_impl; [exact Hls|]. intros g Hg. unfold arrival, FRAME, BIT in *. lia.
Qed.

Lemma ticks_quiet n u : ahead u -> (forall e, next_edge u = Some e -> now u + Z.of_nat n <= e) -> ticks n u = set_now (now u + Z.of_nat n) u.
Proof.
  revert u. induction n as [|n IH]; intros u Ha Hq; [cbn; rewrite Z.add_0_r; by destruct u|].
  replace (S n) with (n + 1)%nat by lia. rewrite ticks_add. cbn [ticks Nat.iter nat_rect].
  rewrite tick_quiet by (done || (intros e He; specialize (Hq e He); lia)).
  destruct (next_edge_later u (now u + 1) Ha ltac:(lia)) as [Hl Ha']; [intros e He; specialize (Hq e He); lia|].
  change (Nat.iter n tick) with (ticks n). rewrite IH; [cbn [now set_now]; unfold set_now; cbn; f_equal; lia|done|].
  intros e He. destruct (Hl e He) as (_ & e' & He' & Hle). specialize (Hq e' He'). cbn [now set_now]. lia.
Qed.

(** ** The lazy advance is the clock *)

(** The clock and [quiet_until] decide nothing at an edge. *)
Lemma do_ops_set_now e ops n u : do_ops e ops (set_now n u) = set_now n (do_ops e ops u).
Proof. revert u. induction ops as [|[e' op] ops IH]; intros u; [done|]. cbn [do_ops]. destruct (e' =? e); [|done]. rewrite <- IH. by destruct op. Qed.
Lemma do_ops_set_quiet e ops q u : do_ops e ops (set_quiet q u) = set_quiet q (do_ops e ops u).
Proof. revert u. induction ops as [|[e' op] ops IH]; intros u; [done|]. cbn [do_ops]. destruct (e' =? e); [|done]. rewrite <- IH. by destruct op. Qed.
Lemma apply_edge_set_now e a b n u : apply_edge e a b (set_now n u) = set_now n (apply_edge e a b u).
Proof.
  unfold apply_edge. cbn [rx_fifo set_now]. set (full := _ =? FIFO_DEPTH).
  replace (if a then tx_step e (set_now n u) else set_now n u) with (set_now n (if a then tx_step e u else u))
    by (destruct a; [unfold tx_step; cbn; by destruct (tx_fifo u)|done]).
  generalize (if a then tx_step e u else u). intros u1. destruct b.
  - replace (rx_step full (set_now n u1)) with ((rx_step full u1).1, set_now n (rx_step full u1).2)
      by (unfold rx_step; cbn; destruct (rx_line u1); [done|by destruct full]).
    destruct (rx_step full u1) as [p u2]. cbn [fst snd]. by rewrite do_ops_set_now.
  - by rewrite do_ops_set_now.
Qed.
Lemma apply_edge_set_quiet e a b q u : apply_edge e a b (set_quiet q u) = set_quiet q (apply_edge e a b u).
Proof.
  unfold apply_edge. cbn [rx_fifo set_quiet]. set (full := _ =? FIFO_DEPTH).
  replace (if a then tx_step e (set_quiet q u) else set_quiet q u) with (set_quiet q (if a then tx_step e u else u))
    by (destruct a; [unfold tx_step; cbn; by destruct (tx_fifo u)|done]).
  generalize (if a then tx_step e u else u). intros u1. destruct b.
  - replace (rx_step full (set_quiet q u1)) with ((rx_step full u1).1, set_quiet q (rx_step full u1).2)
      by (unfold rx_step; cbn; destruct (rx_line u1); [done|by destruct full]).
    destruct (rx_step full u1) as [p u2]. cbn [fst snd]. by rewrite do_ops_set_quiet.
  - by rewrite do_ops_set_quiet.
Qed.
Lemma tick_set_quiet q u : tick (set_quiet q u) = set_quiet q (tick u).
Proof. unfold tick. cbn [now set_quiet]. by rewrite apply_edge_set_quiet. Qed.
Lemma ticks_set_quiet n q u : ticks n (set_quiet q u) = set_quiet q (ticks n u).
Proof. induction n as [|n IH]; [done|]. cbn. unfold ticks, Nat.iter in IH. rewrite IH. apply tick_set_quiet. Qed.

Lemma edge_step_tick u e : ahead u -> next_edge u = Some e -> edge_step e u = tick (set_now e u).
Proof.
  intros Ha He. pose proof (next_edge_ahead u e Ha He) as Hle. apply next_edge_spec in He as [_ Hmin].
  rewrite tick_edge. unfold edge_step. cbn [now set_now]. rewrite apply_edge_set_now. unfold set_now at 1 2. cbn.
  assert (Ht : bool_decide (tx_pop_at u = Some e) = bool_decide (tx_pop_at (set_now e u) = Some e)).
  { apply bool_decide_ext. unfold tx_pop_at in *. cbn. destruct (tx_fifo u); [done|]. specialize (Hmin _ (or_introl eq_refl)).
    split; intros H; apply (inj Some) in H; f_equal; lia. }
  by rewrite Ht.
Qed.

(** What an edge takes off the events to come. *)
Lemma do_ops_left e ops u :
  (length (tx_fifo (do_ops e ops u)) + 2 * length (ops_after e ops) + (match ops with (e', _) :: _ => if (e' =? e)%Z then 1 else 0 | [] => 0 end)
    <= length (tx_fifo u) + 2 * length ops)%nat.
Proof.
  revert u. induction ops as [|[e' op] ops IH]; intros u; [cbn; lia|]. rewrite ops_after_cons. cbn [do_ops].
  destruct (e' =? e); [|cbn; lia]. specialize (IH (do_op op u)). destruct op; cbn in *; rewrite ?length_app in IH; cbn in IH; lia.
Qed.

Lemma edge_step_left u e : ahead u -> next_edge u = Some e -> (edges_left (edge_step e u) < edges_left u)%nat.
Proof.
  intros Ha He. apply next_edge_spec in He as [Hor _]. unfold edge_step, edges_left.
  set (tx := bool_decide _). set (rx := bool_decide _).
  destruct (apply_edge_frame e tx rx u) as (_ & A2 & _ & A4 & _). cbn [tx_fifo rx_line cpu_ops set_now]. rewrite A2, A4.
  assert (H1 : (length (tx_fifo (apply_edge e tx rx u)) + 2 * length (ops_after e (cpu_ops u)) +
    (match cpu_ops u with (e', _) :: _ => if (e' =? e)%Z then 1 else 0 | [] => 0 end) + (if tx then 1 else 0) <= length (tx_fifo u) + 2 * length (cpu_ops u))%nat).
  { unfold apply_edge. set (u1 := if tx then tx_step e u else u).
    assert (Hu1 : cpu_ops u1 = cpu_ops u /\ (length (tx_fifo u1) + (if tx then 1 else 0) <= length (tx_fifo u))%nat).
    { unfold u1. destruct tx eqn:E; [|split; [done|lia]]. apply bool_decide_eq_true_1 in E. unfold tx_pop_at in E. unfold tx_step.
      destruct (tx_fifo u) eqn:Ef; [done|]. cbn. split; [done|lia]. }
    clearbody u1. destruct Hu1 as [Hops Hlen]. destruct rx.
    - destruct (rx_step_frame (len (rx_fifo u) =? FIFO_DEPTH) u1) as (_ & _ & _ & R4 & _ & _ & R7 & _).
      destruct (rx_step _ u1) as [p u2]. cbn [snd] in *. cbn [tx_fifo push_rx]. rewrite R4, Hops.
      pose proof (do_ops_left e (cpu_ops u) u2). rewrite R7 in *. lia.
    - cbn [tx_fifo push_rx]. rewrite Hops. pose proof (do_ops_left e (cpu_ops u) u1). lia. }
  assert (H2 : (length (if rx then tail (rx_line u) else rx_line u) + (if rx then 1 else 0) <= length (rx_line u))%nat).
  { destruct rx eqn:E; [|lia]. apply bool_decide_eq_true_1 in E. unfold rx_push_at in E. destruct (rx_line u); [done|]. cbn. lia. }
  destruct Hor as [H|[H|H]].
  - unfold tx in *. rewrite (bool_decide_eq_true_2 _ H) in *. lia.
  - unfold rx in *. rewrite (bool_decide_eq_true_2 _ H) in *. lia.
  - unfold cpu_at in H. destruct (cpu_ops u) as [|[e' op] ops]; [done|]. apply (inj Some) in H. cbn [fst] in H. subst e'. rewrite Z.eqb_refl in H1. lia.
Qed.

Lemma sync_same u : sync (now u) u = u.
Proof. unfold sync. by rewrite Z.sub_diag. Qed.
Lemma sync_quiet u to : ahead u -> now u <= to -> (forall e, next_edge u = Some e -> to <= e) -> sync to u = set_now to u.
Proof. intros Ha Hle Hq. unfold sync. rewrite ticks_quiet; [f_equal; lia|done|]. intros e He. specialize (Hq e He). lia. Qed.
(** Through a cycle on the way. *)
Lemma sync_through u c to : now u <= c <= to -> sync to u = sync to (sync c u).
Proof.
  intros [H1 H2]. unfold sync. rewrite now_ticks, <- ticks_add. f_equal. lia.
Qed.
Lemma now_sync u to : now u <= to -> now (sync to u) = to.
Proof. intros. unfold sync. rewrite now_ticks. lia. Qed.
Lemma sync_step u c to : now u <= c < to -> sync to u = sync to (tick (sync c u)).
Proof.
  intros [H1 H2]. rewrite (sync_through u c to) by lia. unfold sync at 1 3. rewrite now_tick, now_sync by lia.
  replace (Z.to_nat (to - c)) with (Z.to_nat (to - (c + 1)) + 1)%nat by lia. by rewrite ticks_add.
Qed.
Lemma sync_set_quiet to q u : sync to (set_quiet q u) = set_quiet q (sync to u).
Proof. apply ticks_set_quiet. Qed.
Lemma sync_ahead to u : ahead u -> ahead (sync to u).
Proof. apply ticks_ahead. Qed.

Lemma edges_loop_sync fuel to u :
  ahead u -> now u <= to -> quiet_until u = 0 -> (edges_left u < fuel)%nat ->
  set_quiet 0 (edges_loop fuel to u) = sync to u /\ quiet_ok (edges_loop fuel to u).
Proof.
  revert u. induction fuel as [|fuel IH]; intros u Ha Hle Hq Hfuel; [lia|]. cbn [edges_loop].
  assert (Hq0 : set_quiet 0 u = u) by (rewrite <- Hq; by destruct u).
  destruct (Z.ltb_spec (now u) to) as [Hlt|Hge].
  - destruct (next_edge u) as [e|] eqn:E.
    + pose proof (next_edge_ahead u e Ha E) as Hne. destruct (Z.leb_spec to e) as [Hte|Hte].
      * destruct (next_edge_later u to Ha Hle) as [Hl _]; [intros e' He'; by simplify_eq|]. split.
        -- rewrite sync_quiet; [|done..|intros e' He'; by simplify_eq]. rewrite <- Hq0 at 2. by destruct u.
        -- intros e' He'. change (next_edge (set_now to u) = Some e') in He'. destruct (Hl e' He') as (_ & e'' & He'' & ?). cbn. simplify_eq. lia.
      * rewrite (edge_step_tick u e Ha E).
        assert (Hst : set_now e u = sync e u) by (symmetry; apply sync_quiet; [done|done|intros e' He'; by simplify_eq]).
        assert (Ha' : ahead (tick (set_now e u))) by (rewrite Hst; by apply tick_ahead, sync_ahead).
        destruct (IH (tick (set_now e u))) as [IH1 IH2]; [done|rewrite now_tick; cbn; lia| | |].
        -- unfold tick. destruct (apply_edge_frame (now (set_now e u)) (tx_due (set_now e u)) (rx_due (set_now e u)) (set_now e u)) as (_ & _ & _ & _ & A5).
           cbn [quiet_until set_now] in A5 |- *. by rewrite A5.
        -- rewrite <- (edge_step_tick u e Ha E). pose proof (edge_step_left u e Ha E). lia.
        -- split; [|done]. rewrite IH1, Hst. symmetry. apply sync_step. lia.
    + split.
      * rewrite sync_quiet; [|done..|intros e' He'; by simplify_eq]. rewrite <- Hq0 at 2. by destruct u.
      * intros e He. apply next_edge_None in E as (E1 & E2 & E3). unfold next_edge, tx_pop_at, rx_push_at, cpu_at in He. cbn in He.
        by rewrite E1, E2, E3 in He.
  - split; [replace to with (now u) by lia; by rewrite sync_same|]. intros e He. pose proof (next_edge_ahead u e Ha He). destruct Ha. lia.
Qed.

Lemma ahead_set_quiet q u : ahead (set_quiet q u) <-> ahead u.
Proof. split; intros [? ? ? ? ? ?]; by constructor. Qed.

(** [advance] is the clock up to a cycle, as far as anything but [quiet_until] goes. *)
Lemma advance_sync to u :
  ahead u -> quiet_ok u -> now u <= to ->
  set_quiet 0 (advance to u) = sync to (set_quiet 0 u) /\ quiet_ok (advance to u) /\ ahead (advance to u).
Proof.
  intros Ha Hq Hle. assert (Hx : set_quiet 0 (advance to u) = sync to (set_quiet 0 u) /\ quiet_ok (advance to u)).
  { unfold advance. destruct (Z.leb_spec to (quiet_until u)) as [Hto|Hto].
    - rewrite Z.max_r by done. assert (Hnext : forall e, next_edge u = Some e -> to <= e) by (intros e He; specialize (Hq e He); lia).
      split; [by rewrite sync_set_quiet, sync_quiet|]. destruct (next_edge_later u to Ha Hle Hnext) as [Hl _].
      intros e He. destruct (Hl e He) as (_ & e' & He' & ?). specialize (Hq e' He'). cbn. lia.
    - unfold advance_edges. apply edges_loop_sync; [by apply ahead_set_quiet|done|done|change (edges_left (set_quiet 0 u)) with (edges_left u); lia]. }
  destruct Hx as [Hx Hq']. split_and!; [done|done|]. apply (ahead_set_quiet 0). rewrite Hx. apply sync_ahead. by apply ahead_set_quiet.
Qed.

(** The emulator's state at time [t] and the clocked one: equal but for [quiet_until]. *)
Record in_step (t : Z) (u v : Uart) : Prop := {
  is_ahead : ahead u; is_quiet : quiet_ok u; is_same : set_quiet 0 u = set_quiet 0 v; is_now : now u <= t;
  is_ops : Forall (fun op => fst op <= t) (cpu_ops u)
}.

Lemma ops_after_sub e (P : Z * CpuOp -> Prop) ops : Forall P ops -> Forall P (ops_after e ops).
Proof.
  intros H. induction ops as [|[e' op] ops IH]; [constructor|]. rewrite ops_after_cons. pose proof H as H0.
  apply Forall_cons in H as [? H]. destruct (e' =? e); [by apply IH|done].
Qed.
Lemma sync_ops (P : Z * CpuOp -> Prop) to u : Forall P (cpu_ops u) -> Forall P (cpu_ops (sync to u)).
Proof.
  intros H. unfold sync. generalize (Z.to_nat (to - now u)). intros n. induction n as [|n IH]; [done|]. cbn [ticks Nat.iter nat_rect].
  unfold tick at 1. set (w := Nat.iter n tick u) in *. change (nat_rect _ _ _ n) with w.
  destruct (apply_edge_frame (now w) (tx_due w) (rx_due w) w) as (_ & _ & _ & A4 & _). cbn [cpu_ops set_now]. rewrite A4. by apply ops_after_sub.
Qed.

(** Equality but for [quiet_until], field by field. *)
Lemma same_fields u v : set_quiet 0 u = set_quiet 0 v ->
  now u = now v /\ tx_fifo u = tx_fifo v /\ tx_out u = tx_out v /\ rx_fifo u = rx_fifo v /\ rx_line u = rx_line v /\
  rx_line_free u = rx_line_free v /\ rx_dropped u = rx_dropped v /\ cpu_ops u = cpu_ops v /\ ev_enable u = ev_enable v.
Proof. destruct u, v. unfold set_quiet. cbn. intros H. injection H. intros. by subst. Qed.

Lemma in_step_advance t u v c : in_step t u v -> t <= c -> in_step c (advance c u) (sync c v) /\ now (advance c u) = c.
Proof.
  intros [Ha Hq Hs Hn Ho] Hc. destruct (advance_sync c u Ha Hq ltac:(lia)) as (H1 & H2 & H3).
  assert (Hsame : set_quiet 0 (advance c u) = set_quiet 0 (sync c v)) by (rewrite H1, Hs; apply sync_set_quiet).
  destruct (same_fields _ _ Hs) as (Hnv & _ & _ & _ & _ & _ & _ & Hov & _). destruct (same_fields _ _ Hsame) as (Hn' & _ & _ & _ & _ & _ & _ & Ho' & _).
  rewrite now_sync in Hn' by lia. split; [|done]. constructor; try done; [lia|]. rewrite Ho'. apply sync_ops. rewrite <- Hov.
  eapply Forall_impl; [exact Ho|]. intros op H. cbn beta in *. lia.
Qed.

Lemma StronglySorted_snoc {A} (R : A -> A -> Prop) l x : StronglySorted R l -> Forall (fun y => R y x) l -> StronglySorted R (l ++ [x]).
Proof.
  induction 1 as [|y l Hs IH Hf]; intros Hx; cbn; [by repeat constructor|]. apply Forall_cons in Hx as [Hy Hx].
  constructor; [by apply IH|]. apply Forall_app. by split; [|constructor].
Qed.

(** No event to come is before [quiet_until]. *)
Lemma quiet_part u : quiet_ok u -> forall x, tx_pop_at u = Some x \/ rx_push_at u = Some x \/ cpu_at u = Some x -> quiet_until u <= x.
Proof.
  intros Hq x Hx. destruct (next_edge u) as [e|] eqn:E.
  - specialize (Hq e E). apply next_edge_spec in E as [_ Hmin]. specialize (Hmin x Hx). lia.
  - apply next_edge_None in E as (E1 & E2 & E3). unfold tx_pop_at, rx_push_at, cpu_at in Hx. rewrite E1, E2, E3 in Hx. by destruct Hx as [?|[?|?]].
Qed.

Lemma in_step_queue t u v op : in_step t u v -> now u = t -> in_step t (queue t op u) (queue t op v).
Proof.
  intros [Ha Hq Hs Hn Ho] Ht. destruct Ha as [A1 A2 A3 A4 A5 A6]. constructor.
  - constructor; cbn; try done; [apply Forall_app; split; [done|by repeat constructor; cbn; lia]|].
    apply StronglySorted_snoc; [done|]. by eapply Forall_impl; [exact Ho|].
  - intros e He. cbn. apply next_edge_spec in He as [Hor _]. unfold queue, tx_pop_at, rx_push_at, cpu_at in Hor. cbn in Hor.
    assert (Hc : quiet_until u <= e \/ t <= e); [|lia].
    pose proof (quiet_part u Hq) as Hold.
    destruct Hor as [H|[H|H]]; [left; by apply Hold; left|left; by apply Hold; right; left|].
    destruct (cpu_ops u) as [|o ops] eqn:E; cbn in H; simplify_eq; [right; cbn; lia|left; apply Hold; do 2 right; unfold cpu_at; by rewrite E].
  - unfold queue. destruct u, v. unfold set_quiet, set_ops in *. cbn in *. injection Hs. intros. by subst.
  - done.
  - cbn. apply Forall_app. split; [done|]. repeat constructor; cbn; lia.
Qed.

Lemma in_step_host t u v c b :
  in_step t u v ->
  match host_byte c b u, host_byte c b v with Some u', Some v' => in_step t u' v' | None, None => True | _, _ => False end.
Proof.
  intros [Ha Hq Hs Hn Ho]. destruct (same_fields _ _ Hs) as (S1 & _ & _ & _ & S5 & S6 & _). unfold host_byte. rewrite <- S1, <- S6.
  set (start := Z.max (rx_line_free u) c). destruct (Z.leb_spec (now u) (start + RX_PUSH_DELAY)) as [Hle|]; [|done].
  destruct Ha as [A1 A2 A3 A4 A5 A6]. constructor.
  - constructor; cbn; try done.
    + apply Forall_app. split; [done|]. by repeat constructor.
    + apply StronglySorted_snoc; [done|]. eapply Forall_impl; [exact A6|]. intros f Hf. cbn in *. unfold start. lia.
    + apply Forall_app. split; [|repeat constructor; cbn; lia]. eapply Forall_impl; [exact A6|]. intros f Hf. cbn in *. unfold start, FRAME, BIT in *. lia.
  - intros e He. cbn. apply next_edge_spec in He as [Hor _]. unfold tx_pop_at, rx_push_at, cpu_at in Hor. cbn in Hor.
    assert (Hc : quiet_until u <= e \/ start + RX_PUSH_DELAY <= e); [|lia].
    pose proof (quiet_part u Hq) as Hold.
    destruct Hor as [H|[H|H]]; [left; by apply Hold; left| |left; by apply Hold; do 2 right].
    destruct (rx_line u) as [|f line] eqn:E; cbn in H; simplify_eq; [right; unfold arrival; cbn; lia|left; apply Hold; right; left; unfold rx_push_at; by rewrite E].
  - destruct u, v. unfold set_quiet in *. cbn in *. injection Hs. intros. by subst.
  - done.
  - done.
Qed.

(** The same result, and in step after. *)
Definition agree_at (t : Z) (a b : Z * Uart) : Prop := a.1 = b.1 /\ in_step t a.2 b.2.

Lemma agree_pop_head t u v : in_step t u v -> now u = t -> agree_at t (pop_head t u) (pop_head t v).
Proof.
  intros H Ht. destruct (same_fields _ _ (is_same _ _ _ H)) as (_ & _ & _ & S4 & _). unfold pop_head. rewrite <- S4.
  destruct (rx_fifo u); [by split|]. split; [done|]. by apply in_step_queue.
Qed.
Lemma agree_push_tx t u v x c : in_step t u v -> t <= c -> in_step c (push_tx advance x c u) (push_tx sync x c v).
Proof.
  intros H Hc. destruct (in_step_advance t u v c H Hc) as [H' Hn]. destruct (same_fields _ _ (is_same _ _ _ H')) as (_ & S2 & _).
  unfold push_tx. rewrite <- S2. destruct (_ <? _); [by apply in_step_queue|done].
Qed.
(** The registers' values are of the fields that agree. *)
Lemma agree_read t u v addr c : in_step t u v -> t <= c -> agree_at c (read advance addr c u) (read sync addr c v).
Proof.
  intros H Hc. destruct (in_step_advance t u v c H Hc) as [H' Hn]. destruct (same_fields _ _ (is_same _ _ _ H')) as (_ & S2 & _ & S4 & _ & _ & _ & _ & S9).
  unfold read, pending, enabled, events. rewrite <- S2, <- S4, <- S9.
  repeat match goal with |- context [if ?b then _ else _] => destruct b end; try (by split); by apply agree_pop_head.
Qed.
Lemma agree_legacy_read t u v addr c : in_step t u v -> t <= c -> agree_at c (legacy_read advance addr c u) (legacy_read sync addr c v).
Proof.
  intros H Hc. destruct (in_step_advance t u v c H Hc) as [H' Hn]. destruct (same_fields _ _ (is_same _ _ _ H')) as (_ & S2 & _ & S4 & _).
  unfold legacy_read. rewrite <- S2, <- S4. destruct (_ =? 0); [by apply agree_pop_head|by split].
Qed.

Lemma in_step_later t t' u v : in_step t u v -> t <= t' -> in_step t' u v.
Proof. intros [? ? ? ? Ho] Ht. constructor; try done; [lia|]. eapply Forall_impl; [exact Ho|]. intros op H. cbn beta in *. lia. Qed.

Lemma agree_host t u v bs c : in_step t u v ->
  match host_send bs c u, host_send bs c v with Some u', Some v' => in_step t u' v' | None, None => True | _, _ => False end.
Proof.
  revert u v. induction bs as [|b bs IH]; intros u v H; [done|]. cbn. pose proof (in_step_host t u v c b H) as Hb.
  destruct (host_byte c b u), (host_byte c b v); cbn; [by apply IH|done..].
Qed.

(** Two results agree: the emulator's and the clocked one's. *)
Definition agree_opt (t : Z) (a b : option (Z * Uart)) : Prop :=
  match a, b with Some x, Some y => agree_at t x y | None, None => True | _, _ => False end.

Lemma agree_op t u v o :
  in_step t u v -> match uop_cycle o with Some c => t <= c | None => True end ->
  agree_opt (default t (uop_cycle o)) (uop_do advance o u) (uop_do sync o v).
Proof.
  intros H Hc. destruct o; cbn [uop_cycle default uop_do] in *.
  all: try (destruct (in_step_advance t u v c H Hc) as [H' Hn]; destruct (same_fields _ _ (is_same _ _ _ H')) as (_ & S2 & _ & S4 & _ & _ & S7 & _ & S9)).
  - by apply (agree_read t).
  - split; [done|]. cbn [snd]. unfold write. destruct (_ =? 0); [by apply (agree_push_tx t)|].
    destruct (_ =? 0x14); [by apply in_step_queue|by apply (in_step_later t)].
  - unfold irq, enabled, events. rewrite <- S2, <- S4, <- S9. by split.
  - split; [done|]. by apply in_step_queue.
  - by apply (agree_legacy_read t).
  - split; [done|]. cbn [snd]. unfold legacy_write. destruct (_ =? 0); [by apply (agree_push_tx t)|by apply (in_step_later t)].
  - unfold rx_pending. rewrite <- S4. by split.
  - unfold rx_level. rewrite <- S4. by split.
  - unfold rx_dropped_by. rewrite <- S7. by split.
  - pose proof (agree_host t u v bs c H) as Hh. destruct (host_send bs c u), (host_send bs c v); cbn; done.
Qed.

Lemma agree_ops t os u v :
  in_step t u v -> in_time t os ->
  match uops_do advance os u, uops_do sync os v with
  | Some (rs, u'), Some (rs', v') => rs = rs' /\ exists t', in_step t' u' v' | None, None => True | _, _ => False end.
Proof.
  revert t u v. induction os as [|o os IH]; intros t u v H Ht; [split; [done|by exists t]|]. cbn [in_time uops_do] in *.
  pose proof (agree_op t u v o H) as Ho. destruct (uop_cycle o) as [c|]; cbn [default] in Ho.
  - destruct Ht as [Hc Ht]. specialize (Ho Hc). destruct (uop_do advance o u) as [[x u']|], (uop_do sync o v) as [[y v']|]; cbn in Ho |- *; try done.
    destruct Ho as [Hxy Ho]. cbn in Hxy. subst y. specialize (IH c u' v' Ho Ht). destruct (uops_do advance os u') as [[rs u2]|], (uops_do sync os v') as [[rs' v2]|]; cbn; try done.
    by destruct IH as [-> ?].
  - specialize (Ho I). destruct (uop_do advance o u) as [[x u']|], (uop_do sync o v) as [[y v']|]; cbn in Ho |- *; try done.
    destruct Ho as [Hxy Ho]. cbn in Hxy. subst y. specialize (IH t u' v' Ho Ht). destruct (uops_do advance os u') as [[rs u2]|], (uops_do sync os v') as [[rs' v2]|]; cbn; try done.
    by destruct IH as [-> ?].
Qed.

Lemma uart_default_in_step : in_step 0 uart_default uart_default.
Proof. constructor; [constructor; try done; constructor|done|done|done|constructor]. Qed.

(** ** What goes through *)

(** The CPU's accesses have a cycle each; the interrupt lines can be looked at with them. *)
Definition uop_next (o : uop) : Z :=
  match o with
  | URead _ c | UWrite _ _ c | USoftReset c | ULegacyRead _ c | ULegacyWrite _ _ c => c + 1
  | UIrq c | ULegacyIrq c | URxLevel c | URxDropped c => c
  | UHost _ _ => 0
  end.
Fixpoint paced (t : Z) (os : list uop) : Prop :=
  match os with
  | [] => True
  | o :: os => match uop_cycle o with Some c => t <= c /\ paced (uop_next o) os | None => paced t os end
  end.

#[export] Instance cpu_op_eq_dec : EqDecision CpuOp.
Proof. solve_decision. Defined.

(** The cycle after the last access. *)
Fixpoint time_after (t : Z) (os : list uop) : Z :=
  match os with [] => t | o :: os => time_after (match uop_cycle o with Some _ => uop_next o | None => t end) os end.

(** The bytes still to be pushed, and the pops still to come, of the effects waiting. *)
Definition pushes (ops : list (Z * CpuOp)) : list Z := omap (fun op => match op.2 with TxPush b => Some b | _ => None end) ops.
Definition pops (ops : list (Z * CpuOp)) : nat := length (filter (fun op => op.2 = RxPop) ops).

#[local] Arguments pushes : simpl never.
#[local] Arguments pops : simpl never.
Lemma pushes_cons e op ops : pushes ((e, op) :: ops) = (match op with TxPush b => [b] | _ => [] end) ++ pushes ops.
Proof. by destruct op. Qed.
Lemma pops_cons e op ops : pops ((e, op) :: ops) = ((match op with RxPop => 1 | _ => 0 end) + pops ops)%nat.
Proof. unfold pops. rewrite filter_cons. by destruct op. Qed.

(** Frames on the bit timer's grid, none before the one in front of it has left; the
    transmitter is busy until its stop bit. *)
Fixpoint frames_apart (l : list (Z * Z)) : Prop :=
  match l with
  | [] => True
  | (_, s) :: l => s mod BIT = 0 /\ match l with (_, s') :: _ => s + FRAME <= s' | [] => True end /\ frames_apart l
  end.
Definition idle_after (l : list (Z * Z)) (idle : Z) : Prop :=
  match last l with Some (_, s) => idle = s + 9 * BIT + 1 | None => idle = FIRST_ALARM + 1 end.

(** What has been written ([w]), sent by the host ([s]) and read ([r]), and where it is now. *)
Record flow (w s r : list Z) (u : Uart) : Prop := {
  fl_tx : tx_bytes u ++ tx_fifo u ++ pushes (cpu_ops u) = w;
  fl_bytes : map fst (tx_out u) = tx_bytes u;
  fl_frames : frames_apart (tx_out u);
  fl_idle : idle_after (tx_out u) (tx_idle_from u);
  fl_room : len (tx_fifo u) + len (pushes (cpu_ops u)) <= FIFO_DEPTH;
  fl_rx : sublist (r ++ drop (pops (cpu_ops u)) (rx_fifo u) ++ map f_byte (rx_line u)) s;
  fl_rx_len : len r + len (rx_fifo u) - Z.of_nat (pops (cpu_ops u)) + len (rx_line u) + rx_dropped u = len s;
  fl_pops : Z.of_nat (pops (cpu_ops u)) <= len (rx_fifo u) <= FIFO_DEPTH;
  fl_busy : FIRST_ALARM < tx_idle_from u <= now u + FRAME + 2
}.

Lemma next_alarm_spec c : c <= next_alarm c < Z.max c FIRST_ALARM + BIT /\ (next_alarm c + 1) mod BIT = 0 /\ FIRST_ALARM <= next_alarm c.
Proof.
  unfold next_alarm. destruct (Z.leb_spec c FIRST_ALARM); [unfold FIRST_ALARM, BIT in *; split_and!; [lia|lia|done|lia]|].
  pose proof (cdiv_spec (c - FIRST_ALARM) BIT ltac:(done)). set (q := cdiv _ _) in *. clearbody q. unfold FIRST_ALARM, BIT in *.
  split_and!; [lia|lia|dlia|lia].
Qed.

Lemma frames_apart_snoc l b s :
  frames_apart l -> s mod BIT = 0 -> match last l with Some (_, s') => s' + FRAME <= s | None => True end -> frames_apart (l ++ [(b, s)]).
Proof.
  induction l as [|[b0 s0] l IH]; intros Hf Hs Hl; [done|]. destruct Hf as (H0 & Hn & Hf). cbn [app frames_apart].
  destruct l as [|[b1 s1] l]; [done|]. split_and!; [done|done|]. by apply IH.
Qed.

Lemma tx_step_flow w s r u : flow w s r u -> tx_due u = true -> flow w s r (tx_step (now u) u).
Proof.
  intros [F1 F2 F3 F4 F5 F6 F7 F8 F9] Hd. unfold tx_due in Hd. apply andb_prop in Hd as [_ Hd]. apply Z.leb_le in Hd.
  unfold tx_step. destruct (tx_fifo u) as [|b fifo] eqn:E; [by constructor; rewrite ?E|].
  pose proof (next_alarm_spec (now u + 1)) as (N1 & N2 & N3). set (load := next_alarm (now u + 1)) in *. clearbody load.
  constructor; cbn; try done.
  - by rewrite <- app_assoc.
  - by rewrite map_app, F2.
  - apply frames_apart_snoc; [done|done|]. unfold idle_after in F4. destruct (last (tx_out u)) as [[b' s']|] eqn:El; [|done].
    assert (Hs' : s' mod BIT = 0).
    { clear -F3 El. induction (tx_out u) as [|[b0 s0] l IH]; [done|]. destruct F3 as (H0 & _ & F3). destruct l; [cbn in El; by simplify_eq|by apply IH]. }
    unfold FRAME, BIT in *. dlia.
  - unfold idle_after. rewrite last_snoc. lia.
  - rewrite len_cons in F5. lia.
  - unfold FRAME, FIRST_ALARM, BIT in *. lia.
Qed.

Lemma do_ops_flow e ops w s r u :
  flow w s r (set_ops ops u) -> flow w s r (do_ops e ops u).
Proof.
  revert u. induction ops as [|[e' op] ops IH]; intros u H; [done|]. cbn [do_ops]. destruct (e' =? e); [|done].
  apply IH. destruct H as [F1 F2 F3 F4 F5 F6 F7 F8 F9]. cbn [set_ops tx_bytes tx_fifo cpu_ops tx_out tx_idle_from rx_fifo rx_line rx_dropped] in *.
  rewrite pushes_cons, pops_cons in *. destruct op; constructor; cbn [set_ops do_op tx_bytes tx_fifo cpu_ops tx_out tx_idle_from rx_fifo rx_line rx_dropped];
    rewrite ?len_app, ?len_cons, ?len_nil in *; try done; try lia.
  - by rewrite <- app_assoc.
  - destruct (rx_fifo u); [cbn in F6 |- *; by rewrite drop_nil|done].
  - destruct (rx_fifo u); cbn [tail] in *; rewrite ?len_cons, ?len_nil in *; lia.
  - destruct (rx_fifo u); cbn [tail] in *; rewrite ?len_cons, ?len_nil in *; lia.
Qed.


Definition set_line l u := mkUart (now u) (tx_fifo u) (tx_idle_from u) (tx_out u) (tx_bytes u) (rx_fifo u) l (rx_line_free u) (rx_dropped u) (cpu_ops u) (quiet_until u) (ev_enable u).
Lemma do_ops_set_line e ops l u : do_ops e ops (set_line l u) = set_line l (do_ops e ops u).
Proof. revert u. induction ops as [|[e' op] ops IH]; intros u; [done|]. cbn [do_ops]. destruct (e' =? e); [|done]. rewrite <- IH. by destruct op. Qed.
Lemma do_ops_rx_len e ops u : len (rx_fifo (do_ops e ops u)) <= len (rx_fifo u).
Proof.
  revert u. induction ops as [|[e' op] ops IH]; intros u; [done|]. cbn [do_ops]. destruct (e' =? e); [|done].
  specialize (IH (do_op op u)). destruct op; cbn [do_op rx_fifo] in *; [done| |done]. destruct (rx_fifo u); cbn [tail] in *; rewrite ?len_cons in *; lia.
Qed.

(** A frame taken off the line, and its byte at the FIFO's end. *)
Lemma flow_arrives w s r u f line :
  flow w s r u -> rx_line u = f :: line -> len (rx_fifo u) < FIFO_DEPTH -> flow w s r (push_rx (Some (f_byte f)) (set_line line u)).
Proof.
  intros [F1 F2 F3 F4 F5 F6 F7 F8 F9] Hl Hroom. unfold push_rx. change (option_list (Some (f_byte f))) with [f_byte f]. constructor; cbn [push_rx set_line tx_bytes tx_fifo cpu_ops tx_out tx_idle_from rx_fifo rx_line rx_dropped option_list]; try done.
  - rewrite Hl in F6. cbn [map] in F6. rewrite drop_app_le by (unfold len in *; lia). by rewrite <- app_assoc.
  - rewrite Hl in F7. rewrite ?len_app, ?len_cons, ?len_nil in *. lia.
  - rewrite len_app, len_cons, len_nil. lia.
Qed.
Lemma flow_dropped w s r u f line u' :
  flow w s r u -> rx_line u = f :: line ->
  u' = mkUart (now u) (tx_fifo u) (tx_idle_from u) (tx_out u) (tx_bytes u) (rx_fifo u) line (rx_line_free u) (rx_dropped u + 1) (cpu_ops u) (quiet_until u) (ev_enable u) ->
  flow w s r u'.
Proof.
  intros [F1 F2 F3 F4 F5 F6 F7 F8 F9] Hl ->. constructor; cbn [tx_bytes tx_fifo cpu_ops tx_out tx_idle_from rx_fifo rx_line rx_dropped]; try done.
  - etrans; [|exact F6]. rewrite Hl. do 2 (apply sublist_app; [done|]). cbn [map]. by apply sublist_cons.
  - rewrite Hl in F7. rewrite len_cons in F7. lia.
Qed.

Lemma tick_flow w s r u : flow w s r u -> flow w s r (tick u).
Proof.
  intros H. unfold tick. assert (Hn : forall v, now v = now u -> flow w s r v -> flow w s r (set_now (now u + 1) v)).
  { intros v Hv [? ? ? ? ? ? ? ? ?]. constructor; cbn [set_now tx_bytes tx_fifo cpu_ops tx_out tx_idle_from rx_fifo rx_line rx_dropped now]; try done. lia. }
  apply Hn; [by destruct (apply_edge_frame (now u) (tx_due u) (rx_due u) u)|]. clear Hn. unfold apply_edge. set (full := len (rx_fifo u) =? FIFO_DEPTH).
  set (u1 := if tx_due u then tx_step (now u) u else u).
  assert (H1 : flow w s r u1 /\ rx_fifo u1 = rx_fifo u).
  { unfold u1. destruct (tx_due u) eqn:E; [|done]. split; [by apply tx_step_flow|]. by destruct (tx_step_frame (now u) u) as (_ & _ & _ & _ & _ & ?). }
  clearbody u1. destruct H1 as [H1 Hf]. assert (Hset : forall v, set_ops (cpu_ops v) v = v) by (by intros []).
  assert (Hpush : forall v, push_rx None v = v) by (intros []; unfold push_rx; cbn; by rewrite app_nil_r).
  destruct (rx_due u); [|rewrite Hpush; apply do_ops_flow; by rewrite Hset].
  unfold rx_step. destruct (rx_line u1) as [|f line] eqn:El; [rewrite Hpush; apply do_ops_flow; by rewrite Hset|].
  destruct full eqn:Efull.
  - rewrite Hpush. apply do_ops_flow. rewrite Hset. by eapply flow_dropped.
  - rewrite Z.add_0_r. change (mkUart (now u1) _ _ _ _ _ line _ _ _ _ _) with (set_line line u1). cbn [cpu_ops set_line].
    rewrite do_ops_set_line. apply flow_arrives.
    + apply do_ops_flow. by rewrite Hset.
    + destruct (do_ops_frame (now u) (cpu_ops u1) u1) as (_ & _ & -> & _). done.
    + pose proof (do_ops_rx_len (now u) (cpu_ops u1) u1). unfold full in Efull. apply Z.eqb_neq in Efull. destruct H1 as [_ _ _ _ _ _ _ F8 _]. rewrite Hf in *. lia.
Qed.
Lemma sync_flow w s r to u : flow w s r u -> flow w s r (sync to u).
Proof. intros H. unfold sync. generalize (Z.to_nat (to - now u)). intros n. induction n as [|n IH]; [done|]. by apply tick_flow. Qed.

(** What an access or the host moves: bytes accepted for sending, bytes put on the line,
    bytes read. *)
Definition moved (o : uop) (u : Uart) : list Z * list Z * list Z :=
  let push v c := ((if len (tx_fifo (advance c u)) <? FIFO_DEPTH then [v mod 256] else [], []), []) in
  let pop c := (([], []), take 1 (rx_fifo (advance c u))) in
  match o with
  | UWrite a v c => if Z.land a 0xFC =? 0 then push v c else (([], []), [])
  | ULegacyWrite a v c => if Z.land a 0xF =? 0 then push v c else (([], []), [])
  | URead a c => if Z.land a 0xFC =? 0 then pop c else (([], []), [])
  | ULegacyRead a c => if Z.land a 0xF =? 0 then pop c else (([], []), [])
  | UHost bs _ => (([], bs), [])
  | _ => (([], []), [])
  end.
Fixpoint moved_by (os : list uop) (u : Uart) : list Z * list Z * list Z :=
  match os with
  | [] => (([], []), [])
  | o :: os =>
      match uop_do advance o u with
      | Some (_, u') => let '((w, s), r) := moved o u in let '((ws, ss), rs) := moved_by os u' in ((w ++ ws, s ++ ss), r ++ rs)
      | None => (([], []), [])
      end
  end.

Record running (t : Z) (w s r : list Z) (u : Uart) : Prop := {
  ru_step : in_step t u u; ru_ops : Forall (fun op => fst op < t) (cpu_ops u); ru_flow : flow w s r u
}.

Lemma flow_set_quiet q w s r u : flow w s r (set_quiet q u) <-> flow w s r u.
Proof. split; intros [? ? ? ? ? ? ? ? ?]; by constructor. Qed.
Lemma in_step_self t u v : in_step t u v -> in_step t u u.
Proof. intros [? ? ? ? ?]. by constructor. Qed.

(** Brought forward to a cycle, nothing of the CPU's waits. *)
Lemma running_advance t w s r u c :
  running t w s r u -> t <= c -> running c w s r (advance c u) /\ cpu_ops (advance c u) = [] /\ now (advance c u) = c.
Proof.
  intros [Hs Ho Hf] Hc. destruct (in_step_advance t u u c Hs Hc) as [Hs' Hn]. pose proof (is_same _ _ _ Hs') as Hsame.
  destruct (same_fields _ _ Hsame) as (_ & _ & _ & _ & _ & _ & _ & S8 & _).
  assert (Hops : cpu_ops (advance c u) = []).
  { pose proof (ah_ops _ (is_ahead _ _ _ Hs')) as Ha. rewrite Hn in Ha.
    assert (Hb : Forall (fun op => fst op < c) (cpu_ops (advance c u))).
    { rewrite S8. apply sync_ops. eapply Forall_impl; [exact Ho|]. intros op H. cbn beta in *. lia. }
    destruct (cpu_ops (advance c u)) as [|op ops]; [done|]. apply Forall_cons in Ha as [? _]. apply Forall_cons in Hb as [? _]. lia. }
  split; [|done]. constructor; [by eapply in_step_self|by rewrite Hops|].
  apply (flow_set_quiet 0). rewrite Hsame. apply flow_set_quiet. by apply sync_flow.
Qed.

Lemma running_later t t' w s r u : running t w s r u -> t <= t' -> running t' w s r u.
Proof. intros [Hs Ho Hf] Hc. constructor; [by apply (in_step_later t)| |done]. eapply Forall_impl; [exact Ho|]. intros op H. cbn beta in *. lia. Qed.

(** An effect queued at this cycle. *)
Lemma running_queue c op w s r w' r' u :
  running c w s r u -> cpu_ops u = [] -> now u = c ->
  w' = w ++ pushes [(c, op)] -> (pushes [(c, op)] <> [] -> len (tx_fifo u) < FIFO_DEPTH) ->
  r' = r ++ (if decide (op = RxPop) then take 1 (rx_fifo u) else []) -> (op = RxPop -> rx_fifo u <> []) ->
  running (c + 1) w' s r' (queue c op u).
Proof.
  intros [Hs Ho [F1 F2 F3 F4 F5 F6 F7 F8 F9]] He Hn -> Hp -> Hr. pose proof (in_step_queue c u u op Hs Hn) as Hq.
  constructor; [apply in_step_self in Hq; apply (in_step_later c); [done|lia]|cbn; rewrite He; repeat constructor; cbn; lia|].
  rewrite He in *. cbn in F1. rewrite app_nil_r in F1. change (pushes []) with (@nil Z) in *. change (pops []) with 0%nat in *. rewrite len_nil in F5.
  constructor; cbn [queue set_quiet set_ops tx_bytes tx_fifo cpu_ops tx_out tx_idle_from rx_fifo rx_line rx_dropped]; rewrite ?He; cbn [app]; try done.
  - by rewrite <- F1, <- app_assoc.
  - rewrite pushes_cons in *. change (pushes []) with (@nil Z). rewrite app_nil_r in *. destruct op; rewrite ?len_cons, ?len_nil; [|lia..]. specialize (Hp ltac:(done)). lia.
  - rewrite pops_cons. change (pops []) with 0%nat. rewrite drop_0 in F6. destruct op; cbn [decide decide_rel]; try (rewrite decide_False by done; rewrite app_nil_r; by rewrite drop_0).
    rewrite decide_True by done. specialize (Hr eq_refl). destruct (rx_fifo u) as [|b l]; [done|]. cbn. by rewrite <- app_assoc.
  - rewrite pops_cons. change (pops []) with 0%nat. destruct op; try (rewrite decide_False by done; rewrite app_nil_r; lia).
    rewrite decide_True by done. specialize (Hr eq_refl). destruct (rx_fifo u) as [|b l]; [done|]. cbn [take]. rewrite ?len_app, ?len_cons, ?len_nil in *. rewrite take_0, len_nil. lia.
  - rewrite pops_cons. change (pops []) with 0%nat. destruct op; try lia. specialize (Hr eq_refl). destruct (rx_fifo u); [done|]. rewrite len_cons in *.
    pose proof (len_nonneg l). lia.
Qed.

Lemma running_host_byte t w s r u u' c b : running t w s r u -> host_byte c b u = Some u' -> running t w (s ++ [b]) r u'.
Proof.
  intros [Hs Ho Hf] Hb. pose proof (in_step_host t u u c b Hs) as Hh. rewrite Hb in Hh. apply in_step_self in Hh.
  unfold host_byte in Hb. set (start := Z.max _ _) in *. destruct (_ <=? _); [|done]. apply (inj Some) in Hb. subst u'.
  constructor; [done|done|]. destruct Hf as [F1 F2 F3 F4 F5 F6 F7 F8 F9].
  constructor; cbn [tx_bytes tx_fifo cpu_ops tx_out tx_idle_from rx_fifo rx_line rx_dropped]; try done.
  - rewrite map_app. rewrite !app_assoc in *. by apply sublist_app.
  - rewrite !len_app, !len_cons. change (len (@nil RxFrame)) with 0. change (len (@nil Z)) with 0. lia.
Qed.
Lemma running_host t w s r u u' c bs : running t w s r u -> host_send bs c u = Some u' -> running t w (s ++ bs) r u'.
Proof.
  revert s u. induction bs as [|b bs IH]; intros s u H Hb; cbn in Hb; [simplify_eq; by rewrite app_nil_r|].
  destruct (host_byte c b u) as [u1|] eqn:E; [|done]. cbn in Hb. apply (running_host_byte t w s r u u1 c b) in E; [|done].
  replace (s ++ b :: bs) with ((s ++ [b]) ++ bs) by (by rewrite <- app_assoc). by eapply IH.
Qed.

Lemma running_push t w s r u v c :
  running t w s r u -> t <= c ->
  running (c + 1) (w ++ if len (tx_fifo (advance c u)) <? FIFO_DEPTH then [v mod 256] else []) s r (push_tx advance v c u).
Proof.
  intros H Hc. destruct (running_advance t w s r u c H Hc) as (Ha & Ho & Hn). unfold push_tx. destruct (Z.ltb_spec (len (tx_fifo (advance c u))) FIFO_DEPTH) as [Hl|].
  - eapply running_queue; try done. by rewrite app_nil_r.
  - rewrite app_nil_r. apply (running_later c); [done|lia].
Qed.
Lemma running_pop t w s r u c :
  running t w s r u -> t <= c -> running (c + 1) w s (r ++ take 1 (rx_fifo (advance c u))) (pop_head c (advance c u)).2.
Proof.
  intros H Hc. destruct (running_advance t w s r u c H Hc) as (Ha & Ho & Hn). unfold pop_head. destruct (rx_fifo (advance c u)) as [|b l] eqn:E; cbn [snd].
  - rewrite take_nil, app_nil_r. apply (running_later c); [done|lia].
  - eapply running_queue; try done; [by rewrite app_nil_r|by rewrite E, decide_True by done|by rewrite E].
Qed.
Lemma running_set_ev t w s r u v c : running t w s r u -> t <= c -> running (c + 1) w s r (queue c (SetEvEnable v) (advance c u)).
Proof.
  intros H Hc. destruct (running_advance t w s r u c H Hc) as (Ha & Ho & Hn). by eapply running_queue; rewrite ?app_nil_r.
Qed.

Lemma running_op t w s r u o x u' w' s' r' :
  running t w s r u -> match uop_cycle o with Some c => t <= c | None => True end ->
  uop_do advance o u = Some (x, u') -> moved o u = ((w', s'), r') ->
  running (match uop_cycle o with Some _ => uop_next o | None => t end) (w ++ w') (s ++ s') (r ++ r') u'.
Proof.
  intros H Hc Hd Hm. destruct o; cbn [uop_cycle uop_do moved uop_next] in *.
  - apply (inj Some) in Hd. assert (u' = (read advance addr c u).2) as -> by (by rewrite Hd). unfold read in *.
    destruct (running_advance t w s r u c H Hc) as (Ha & Ho & Hn).
    destruct (Z.land addr 0xFC =? 0); injection Hm as <- <- <-; rewrite ?app_nil_r.
    + by apply (running_pop t).
    + apply (running_later c); [|lia]. by repeat match goal with |- context [if ?b then _ else _] => destruct b end.
  - simplify_eq. unfold write. destruct (Z.land addr 0xFC =? 0); injection Hm as <- <- <-; rewrite ?app_nil_r.
    + by apply (running_push t).
    + destruct (_ =? 0x14); [by apply (running_set_ev t)|by apply (running_later t); [|lia]].
  - cbn in Hd. simplify_eq. rewrite !app_nil_r. by apply (running_advance t).
  - simplify_eq. rewrite !app_nil_r. by apply (running_set_ev t).
  - apply (inj Some) in Hd. assert (u' = (legacy_read advance addr c u).2) as -> by (by rewrite Hd). unfold legacy_read in *.
    destruct (running_advance t w s r u c H Hc) as (Ha & Ho & Hn).
    destruct (Z.land addr 0xF =? 0); injection Hm as <- <- <-; rewrite ?app_nil_r.
    + by apply (running_pop t).
    + apply (running_later c); [done|lia].
  - simplify_eq. unfold legacy_write. destruct (Z.land addr 0xF =? 0); injection Hm as <- <- <-; rewrite ?app_nil_r.
    + by apply (running_push t).
    + by apply (running_later t); [|lia].
  - unfold irq, rx_pending, rx_level, rx_dropped_by in Hd. simplify_eq. rewrite !app_nil_r. by apply (running_advance t).
  - unfold irq, rx_pending, rx_level, rx_dropped_by in Hd. simplify_eq. rewrite !app_nil_r. by apply (running_advance t).
  - unfold irq, rx_pending, rx_level, rx_dropped_by in Hd. simplify_eq. rewrite !app_nil_r. by apply (running_advance t).
  - simplify_eq. rewrite !app_nil_r. destruct (host_send s' c u) as [u1|] eqn:E; cbn in Hd; [|done]. simplify_eq. by eapply running_host.
Qed.

Lemma running_ops t os w s r u rs u' w' s' r' :
  running t w s r u -> paced t os -> uops_do advance os u = Some (rs, u') -> moved_by os u = ((w', s'), r') ->
  running (time_after t os) (w ++ w') (s ++ s') (r ++ r') u'.
Proof.
  revert t w s r u rs w' s' r'. induction os as [|o os IH]; intros t w s r u rs w' s' r' H Hp Hd Hm; cbn in Hd, Hm.
  - simplify_eq. by rewrite !app_nil_r.
  - destruct (uop_do advance o u) as [[x u1]|] eqn:E; [|done]. cbn in Hd, Hm. destruct (uops_do advance os u1) as [[vs u2]|] eqn:E2; [|done].
    cbn in Hd. simplify_eq. destruct (moved o u) as [[w1 s1] r1] eqn:Em. destruct (moved_by os u1) as [[w2 s2] r2] eqn:Em2.
    injection Hm as <- <- <-. rewrite !app_assoc. cbn in Hp. cbn [time_after].
    pose proof (running_op t w s r u o x u1 w1 s1 r1 H) as Ho. destruct (uop_cycle o) as [c|].
    + destruct Hp as [Hc Hp]. by eapply IH; [apply Ho|..].
    + by eapply IH; [apply Ho|..].
Qed.

Lemma uart_default_running : running 0 [] [] [] uart_default.
Proof. constructor; [apply uart_default_in_step|constructor|by constructor]. Qed.

(** ** Sending ends *)

(** A cycle in which the transmitter takes nothing, with no effects waiting. *)
Lemma tick_tx_idle u : cpu_ops u = [] -> tx_due u = false ->
  cpu_ops (tick u) = [] /\ tx_fifo (tick u) = tx_fifo u /\ tx_idle_from (tick u) = tx_idle_from u /\ tx_out (tick u) = tx_out u.
Proof.
  intros Ho Hd. unfold tick. rewrite Hd. unfold apply_edge. destruct (rx_due u).
  - destruct (rx_step_frame (len (rx_fifo u) =? FIFO_DEPTH) u) as (_ & _ & _ & R4 & _ & _ & R7 & R8 & R9).
    destruct (rx_step _ u) as [p u2]. cbn [snd] in *. rewrite R4, Ho. cbn. done.
  - rewrite Ho. done.
Qed.

Lemma ticks_tx_idle n u : cpu_ops u = [] -> (tx_fifo u = [] \/ now u + Z.of_nat n <= Z.max (now u) (tx_idle_from u)) ->
  cpu_ops (ticks n u) = [] /\ tx_fifo (ticks n u) = tx_fifo u /\ tx_idle_from (ticks n u) = tx_idle_from u /\ tx_out (ticks n u) = tx_out u.
Proof.
  intros Ho Hd. induction n as [|n IH]; [done|]. destruct IH as (I1 & I2 & I3 & I4); [destruct Hd; [by left|right; lia]|].
  cbn [ticks Nat.iter nat_rect]. change (nat_rect _ _ _ n) with (ticks n u). destruct (tick_tx_idle (ticks n u) I1) as (-> & -> & -> & ->); [|done].
  unfold tx_due. rewrite I2, I3, now_ticks. destruct Hd as [-> | Hd]; [done|]. apply andb_false_intro2. apply Z.leb_gt. lia.
Qed.

(** The cycle in which it takes one. *)
Lemma tick_tx_pop u b fifo : cpu_ops u = [] -> tx_fifo u = b :: fifo -> tx_idle_from u <= now u ->
  let load := next_alarm (now u + 1) in
  cpu_ops (tick u) = [] /\ tx_fifo (tick u) = fifo /\ tx_idle_from (tick u) = load + 9 * BIT + 2 /\ tx_out (tick u) = tx_out u ++ [(b, load + 1)].
Proof.
  intros Ho Hf Hi load. unfold tick. assert (tx_due u = true) as ->.
  { unfold tx_due. rewrite Hf, len_cons. pose proof (len_nonneg fifo). rewrite (proj2 (Z.eqb_neq _ _)) by lia. by apply Z.leb_le. }
  unfold apply_edge. unfold tx_step. rewrite Hf. fold load. set (u1 := mkUart _ fifo _ _ _ _ _ _ _ _ _ _). destruct (rx_due u).
  - destruct (rx_step_frame (len (rx_fifo u) =? FIFO_DEPTH) u1) as (_ & _ & _ & R4 & _ & _ & R7 & R8 & R9).
    destruct (rx_step _ u1) as [p u2]. cbn [snd] in *. rewrite R4. cbn [cpu_ops u1]. rewrite Ho. cbn. by rewrite R7, R8, R9.
  - cbn [cpu_ops u1]. rewrite Ho. done.
Qed.

(** The alarm that loads the next byte. *)
Definition next_load (u : Uart) : Z := next_alarm (Z.max (now u) (tx_idle_from u) + 1).

Lemma next_alarm_frame load : (load + 1) mod BIT = 0 -> FIRST_ALARM <= load -> next_alarm (load + 9 * BIT + 2 + 1) = load + FRAME.
Proof.
  intros Hm Hl. pose proof (next_alarm_spec (load + 9 * BIT + 2 + 1)) as (N1 & N2 & N3). unfold FRAME, FIRST_ALARM, BIT in *. dlia.
Qed.

(** Every frame is out a frame time after its place in the queue. *)
Lemma drains_by (N : nat) u c :
  cpu_ops u = [] -> length (tx_fifo u) = N -> FIRST_ALARM < tx_idle_from u -> Forall (fun bs => bs.2 + FRAME <= next_load u + 1) (tx_out u) ->
  next_load u + 1 + FRAME * Z.of_nat N <= c ->
  tx_fifo (sync c u) = [] /\ Forall (fun bs => bs.2 + FRAME <= c) (tx_out (sync c u)).
Proof.
  revert u. induction N as [|N IH]; intros u Ho Hl Hfirst Hs Hc.
  - apply nil_length_inv in Hl. destruct (ticks_tx_idle (Z.to_nat (c - now u)) u Ho ltac:(by left)) as (_ & H2 & _ & H4). unfold sync.
    rewrite H2, H4. split; [done|]. eapply Forall_impl; [exact Hs|]. intros bs H. cbn beta in *. lia.
  - destruct (tx_fifo u) as [|b fifo] eqn:Ef; [done|]. unfold next_load in *. set (m := Z.max (now u) (tx_idle_from u)) in *.
    destruct (ticks_tx_idle (Z.to_nat (m - now u)) u Ho ltac:(right; lia)) as (H1 & H2 & H3 & H4).
    fold (sync m u) in H1, H2, H3, H4. rewrite Ef in H2. assert (Hm : now (sync m u) = m) by (apply now_sync; lia).
    pose proof (next_alarm_spec (m + 1)) as (N1 & N2 & N3).
    destruct (tick_tx_pop (sync m u) b fifo H1 H2 ltac:(lia)) as (T1 & T2 & T3 & T4). cbv zeta in T3, T4. rewrite Hm in T3, T4.
    set (load := next_alarm (m + 1)) in *. clearbody load.
    assert (Hnl : Z.max (now (tick (sync m u))) (tx_idle_from (tick (sync m u))) = load + 9 * BIT + 2) by (rewrite now_tick, Hm, T3; unfold BIT in *; lia).
    rewrite (sync_step u m c) by (unfold FRAME, BIT in *; lia). apply IH; [done|by rewrite T2; cbn in Hl; lia|rewrite T3; unfold BIT in *; lia|..].
    + rewrite Hnl, next_alarm_frame by done. rewrite T4, H4. apply Forall_app. split; [|repeat constructor; cbn [snd]; lia].
      eapply Forall_impl; [exact Hs|]. intros bs H. cbn beta in *. unfold FRAME, BIT in *. lia.
    + rewrite Hnl, next_alarm_frame by done. lia.
Qed.

(** No frame is after the last one. *)
Lemma frames_before l b s : frames_apart l -> last l = Some (b, s) -> Forall (fun bs => bs.2 <= s) l /\ s mod BIT = 0.
Proof.
  induction l as [|[b0 s0] l IH]; intros Hf Hl; [done|]. destruct Hf as (H0 & Hn & Hf). destruct l as [|[b1 s1] l].
  - cbn in Hl. simplify_eq. split; [by repeat constructor|done].
  - destruct (IH Hf Hl) as [IH1 IH2]. split; [|done]. constructor; [|done]. apply Forall_cons in IH1 as [IH1 _]. cbn in *. unfold FRAME, BIT in *. lia.
Qed.

Lemma flow_outs w s r u : flow w s r u -> Forall (fun bs => bs.2 + FRAME <= next_load u + 1) (tx_out u).
Proof.
  intros [_ _ F3 F4 _ _ _ _ _]. unfold idle_after in F4. destruct (last (tx_out u)) as [[b s0]|] eqn:E.
  - destruct (frames_before _ _ _ F3 E) as [Hf Hm]. eapply Forall_impl; [exact Hf|]. intros bs H. cbn beta in *. unfold next_load.
    pose proof (next_alarm_spec (Z.max (now u) (tx_idle_from u) + 1)) as (N1 & N2 & N3). unfold FRAME, FIRST_ALARM, BIT in *. dlia.
  - apply last_None in E. rewrite E. constructor.
Qed.

Lemma running_drains t w s r u c :
  running t w s r u -> t + 34 * FRAME <= c -> map fst (tx_out (advance c u)) = w /\ Forall (fun bs => bs.2 + FRAME <= c) (tx_out (advance c u)).
Proof.
  intros H Hc. destruct (running_advance t w s r u t H ltac:(lia)) as (Ha & Ho & Hn). pose proof H as [Hs _ _].
  assert (Hle : t <= c) by (unfold FRAME, BIT in *; lia). assert (Hsame : set_quiet 0 (advance c u) = set_quiet 0 (sync c (advance t u))).
  { destruct (in_step_advance t u u c Hs Hle) as [H1 _]. rewrite (is_same _ _ _ H1). rewrite (sync_through u t c) by (destruct Hs; lia).
    rewrite <- (sync_set_quiet c 0 (sync t u)), <- (sync_set_quiet c 0 (advance t u)). f_equal. symmetry. apply (is_same t). by apply (in_step_advance t u u t Hs). }
  destruct (running_advance t w s r u c H Hle) as ([_ _ [F1 F2 _ _ _ _ _ _ _]] & Hoc & _). destruct (same_fields _ _ Hsame) as (_ & S2 & S3 & _).
  set (u1 := advance t u) in *. pose proof Ha as [_ _ Hf]. pose proof (flow_outs _ _ _ _ Hf) as Houts. destruct Hf as [_ _ _ _ G5 _ _ _ G9].
  rewrite Ho in G5. change (pushes []) with (@nil Z) in *. rewrite len_nil in G5. destruct (drains_by (length (tx_fifo u1)) u1 c Ho eq_refl ltac:(lia) Houts) as [D1 D2].
  { unfold next_load. pose proof (next_alarm_spec (Z.max (now u1) (tx_idle_from u1) + 1)) as (N1 & _). unfold len, FRAME, FIFO_DEPTH, FIRST_ALARM, BIT in *. lia. }
  rewrite S3. split; [|done]. rewrite Hoc in F1. rewrite <- S3, F2, <- F1, S2, D1. change (pushes []) with (@nil Z). by rewrite !app_nil_r.
Qed.

(** ** Nobody reads *)

(** With no effects waiting, the frames that arrive fill the FIFO and the rest are dropped. *)
Lemma tick_rx u : cpu_ops u = [] ->
  cpu_ops (tick u) = [] /\
  match rx_line u with
  | f :: line =>
      if arrival f =? now u then
        rx_line (tick u) = line /\
        if len (rx_fifo u) =? FIFO_DEPTH then rx_fifo (tick u) = rx_fifo u /\ rx_dropped (tick u) = rx_dropped u + 1
        else rx_fifo (tick u) = rx_fifo u ++ [f_byte f] /\ rx_dropped (tick u) = rx_dropped u
      else rx_line (tick u) = rx_line u /\ rx_fifo (tick u) = rx_fifo u /\ rx_dropped (tick u) = rx_dropped u
  | [] => rx_line (tick u) = [] /\ rx_fifo (tick u) = rx_fifo u /\ rx_dropped (tick u) = rx_dropped u
  end.
Proof.
  intros Ho. unfold tick, apply_edge. set (u1 := if tx_due u then tx_step (now u) u else u).
  assert (H1 : cpu_ops u1 = [] /\ rx_line u1 = rx_line u /\ rx_fifo u1 = rx_fifo u /\ rx_dropped u1 = rx_dropped u).
  { unfold u1. destruct (tx_due u); [|done]. unfold tx_step. by destruct (tx_fifo u). }
  clearbody u1. destruct H1 as (H1 & H2 & H3 & H4). unfold rx_due, rx_step. rewrite H2. destruct (rx_line u) as [|f line].
  - rewrite H1. cbn. rewrite app_nil_r. done.
  - destruct (arrival f =? now u); [|rewrite H1; cbn; by rewrite app_nil_r].
    destruct (_ =? FIFO_DEPTH); cbn [cpu_ops]; rewrite H1; cbn; rewrite ?app_nil_r, H3, H4, ?Z.add_0_r; done.
Qed.

Lemma ticks_rx_quiet n u : cpu_ops u = [] -> Forall (fun f => now u + Z.of_nat n <= arrival f) (rx_line u) ->
  cpu_ops (ticks n u) = [] /\ rx_line (ticks n u) = rx_line u /\ rx_fifo (ticks n u) = rx_fifo u /\ rx_dropped (ticks n u) = rx_dropped u.
Proof.
  intros Ho Hf. induction n as [|n IH]; [done|]. destruct IH as (I1 & I2 & I3 & I4); [eapply Forall_impl; [exact Hf|]; intros f H; cbn beta in *; lia|].
  cbn [ticks Nat.iter nat_rect]. change (nat_rect _ _ _ n) with (ticks n u). pose proof (tick_rx (ticks n u) I1) as [T1 T2]. split; [done|].
  rewrite I2 in T2. destruct (rx_line u) as [|f line] eqn:E; [by rewrite <- I3, <- I4|]. apply Forall_cons in Hf as [Hf _]. rewrite now_ticks in T2.
  destruct (Z.eqb_spec (arrival f) (now u + Z.of_nat n)); [lia|]. by rewrite <- I3, <- I4.
Qed.

Lemma unread_fills u c :
  ahead u -> cpu_ops u = [] -> len (rx_fifo u) <= FIFO_DEPTH -> Forall (fun f => arrival f < c) (rx_line u) -> now u <= c ->
  rx_line (sync c u) = [] /\ rx_fifo (sync c u) = take (Z.to_nat FIFO_DEPTH) (rx_fifo u ++ map f_byte (rx_line u)) /\
  rx_dropped (sync c u) = rx_dropped u + Z.max 0 (len (rx_fifo u) + len (rx_line u) - FIFO_DEPTH).
Proof.
  remember (rx_line u) as l eqn:El. revert u El. induction l as [|f l IH]; intros u El Ha Ho Hlen Hb Hc.
  - destruct (ticks_rx_quiet (Z.to_nat (c - now u)) u Ho) as (_ & H2 & H3 & H4); [rewrite <- El; constructor|]. unfold sync. rewrite H2, H3, H4, <- El. cbn [map].
    rewrite app_nil_r, take_ge by (unfold len, FIFO_DEPTH in *; lia). change (len (@nil RxFrame)) with 0. split_and!; [done|done|lia].
  - apply Forall_cons in Hb as [Hf Hb]. pose proof (ah_line _ Ha) as Hl. pose proof (ah_line_sorted _ Ha) as Hls. rewrite <- El in Hl, Hls.
    apply Forall_cons in Hl as [Hfn _]. apply StronglySorted_inv in Hls as [_ Hls].
    destruct (ticks_rx_quiet (Z.to_nat (arrival f - now u)) u Ho) as (H1 & H2 & H3 & H4).
    { rewrite <- El. constructor; [lia|]. eapply Forall_impl; [exact Hls|]. intros g Hg. unfold arrival, FRAME, BIT in *. lia. }
    fold (sync (arrival f) u) in H1, H2, H3, H4. assert (Hn : now (sync (arrival f) u) = arrival f) by (by apply now_sync).
    pose proof (tick_rx (sync (arrival f) u) H1) as [T1 T2]. rewrite H2, <- El, Hn, Z.eqb_refl, H3, H4 in T2. destruct T2 as [T2 T3].
    rewrite (sync_step u (arrival f) c) by lia. destruct (IH (tick (sync (arrival f) u))) as (I1 & I2 & I3); try done.
    + by apply tick_ahead, sync_ahead.
    + destruct (Z.eqb_spec (len (rx_fifo u)) FIFO_DEPTH); destruct T3 as [-> _]; [done|]. rewrite len_app, len_cons, len_nil. lia.
    + rewrite now_tick, Hn. lia.
    + split; [done|]. rewrite I2, I3. rewrite len_cons. cbn [map]. destruct (Z.eqb_spec (len (rx_fifo u)) FIFO_DEPTH) as [He|He]; destruct T3 as [-> ->].
      * rewrite !take_app_le by (unfold len in He; lia). pose proof (len_nonneg l). split; [done|lia].
      * rewrite <- app_assoc. rewrite len_app, len_cons. change (len (@nil Z)) with 0. split; [done|lia].
Qed.

(** ** In a machine that goes on *)

(** What had been sent, popped from the FIFO, at some cycle; and what has been since: a frame
    that had not been popped by then starts two cycles later or more. *)
Record history := mkHistory { h_sent : list (Z * Z); h_at : Z }.
Definition beginning : history := mkHistory [] 0.
Definition since (h : history) (c : Z) (out : list (Z * Z)) : Prop :=
  h_at h <= c /\ exists k, out = h_sent h ++ k /\ Forall (fun f => h_at h + 2 <= snd f) k.
Lemma since_later h c c' out k : since h c out -> c <= c' -> Forall (fun f => c + 2 <= snd f) k -> since h c' (out ++ k).
Proof.
  intros (Ha & k0 & -> & Hk) Hc Hk'. split; [lia|]. exists (k0 ++ k). split; [by rewrite app_assoc|]. apply Forall_app. split; [done|].
  eapply Forall_impl; [exact Hk'|]. intros f. cbn. lia.
Qed.

(** What holds of the UART when the machine is at cycle [c]: nothing of it is late, what went
    through it is where [flow] says, and what it has sent since. *)
Record live (l : history) (c : Z) (u : Uart) : Prop := {
  lv_step : in_step c u u; lv_flow : exists w s r, flow w s r u; lv_sent : since l c (tx_out (sync c u))
}.

Lemma tick_sends u : exists k, tx_out (tick u) = tx_out u ++ k /\ Forall (fun f => now u + 2 <= snd f) k.
Proof.
  unfold tick, apply_edge. cbn [tx_out set_now]. set (u1 := if tx_due u then tx_step (now u) u else u).
  assert (H1 : exists k, tx_out u1 = tx_out u ++ k /\ Forall (fun f => now u + 2 <= snd f) k).
  { unfold u1, tx_step. destruct (tx_due u), (tx_fifo u); cbn; try (exists []; split; [by rewrite app_nil_r|done]).
    eexists. split; [done|]. repeat constructor. cbn. pose proof (next_alarm_spec (now u + 1)). lia. }
  assert (H2 : tx_out (push_rx (if rx_due u then rx_step (len (rx_fifo u) =? FIFO_DEPTH) u1 else (None, u1)).1
    (do_ops (now u) (cpu_ops (if rx_due u then rx_step (len (rx_fifo u) =? FIFO_DEPTH) u1 else (None, u1)).2) (if rx_due u then rx_step (len (rx_fifo u) =? FIFO_DEPTH) u1 else (None, u1)).2)) = tx_out u1).
  { cbn [push_rx tx_out]. destruct (rx_due u).
    - destruct (rx_step_frame (len (rx_fifo u) =? FIFO_DEPTH) u1) as (_ & _ & _ & _ & _ & _ & _ & _ & R). destruct (rx_step _ u1) as [p u2]. cbn [snd] in *.
      destruct (do_ops_frame (now u) (cpu_ops u2) u2) as (_ & _ & _ & _ & _ & D & _). by rewrite D, R.
    - cbn [snd]. by destruct (do_ops_frame (now u) (cpu_ops u1) u1) as (_ & _ & _ & _ & _ & D & _). }
  destruct (if rx_due u then _ else _) as [p u2]. cbn [fst snd] in H2. by rewrite H2.
Qed.
Lemma sync_sends c c' u : now u <= c <= c' -> exists k, tx_out (sync c' u) = tx_out (sync c u) ++ k /\ Forall (fun f => c + 2 <= snd f) k.
Proof.
  intros Hc. rewrite (sync_through u c c') by done. set (v := sync c u). assert (Hv : now v = c) by (apply now_sync; lia).
  rewrite <- Hv. unfold sync. generalize (Z.to_nat (c' - now v)). clearbody v. clear.
  intros n. induction n as [|n (k & IH & Hk)]; [exists []; by rewrite app_nil_r|]. cbn [ticks Nat.iter nat_rect]. fold (ticks n v).
  destruct (tick_sends (ticks n v)) as (k' & E & Hk'). exists (k ++ k'). rewrite app_assoc, <- IH. split; [exact E|]. apply Forall_app. split; [done|].
  eapply Forall_impl; [exact Hk'|]. intros f. cbn. rewrite now_ticks. lia.
Qed.

Lemma live_running l c u : live l c u -> exists w s r, running (c + 1) w s r u.
Proof.
  intros [Hs (w & s & r & Hf) _]. exists w, s, r. constructor; [apply (in_step_later c); [done|lia]| |done].
  eapply Forall_impl; [apply (is_ops _ _ _ Hs)|]. intros op H. cbn beta in *. lia.
Qed.

Lemma live_later l c c' u : live l c u -> c <= c' -> live l c' u.
Proof.
  intros [Hs Hf Hl] Hc. constructor; [by apply (in_step_later c)|done|]. destruct (sync_sends c c' u) as (k & -> & Hk); [destruct Hs; lia|]. by apply (since_later _ c).
Qed.

(** What an access leaves of what was sent: it has been brought forward to its cycle, or
    nothing was done. *)
Lemma uop_sends o a u x u' : uop_cycle o = Some a -> uop_do advance o u = Some (x, u') ->
  u' = u \/ (tx_out u' = tx_out (advance a u) /\ now u' = now (advance a u)).
Proof.
  intros Ho Hd. destruct o; cbn [uop_cycle uop_do] in *; try discriminate Ho; apply (inj Some) in Ho as ->; apply (inj Some) in Hd.
  - assert (u' = (read advance addr a u).2) as -> by (by rewrite Hd). right. unfold read, pop_head.
    repeat match goal with |- context [if ?b then _ else _] => destruct b | |- context [match ?b with [] => _ | _ => _ end] => destruct b end; done.
  - injection Hd as _ <-. unfold write, push_tx. destruct (_ =? 0); [right; by destruct (_ <? _)|]. destruct (_ =? 0x14); [by right|by left].
  - unfold irq in Hd. injection Hd as _ <-. by right.
  - injection Hd as _ <-. by right.
  - assert (u' = (legacy_read advance addr a u).2) as -> by (by rewrite Hd). right. unfold legacy_read, pop_head.
    destruct (_ =? 0); [|done]. by destruct (rx_fifo (advance a u)).
  - injection Hd as _ <-. unfold legacy_write, push_tx. destruct (_ =? 0); [right; by destruct (_ <? _)|by left].
  - unfold rx_pending in Hd. injection Hd as _ <-. by right.
  - unfold rx_level in Hd. injection Hd as _ <-. by right.
  - unfold rx_dropped_by in Hd. injection Hd as _ <-. by right.
Qed.

(** An access after this cycle. *)
Lemma live_op l c u o a x u' :
  live l c u -> uop_cycle o = Some a -> c < a -> uop_do advance o u = Some (x, u') -> live l a u'.
Proof.
  intros H Ho Ha Hd. pose proof (uop_sends o a u x u' Ho Hd) as Hu. destruct (live_running l c u H) as (w & s & r & Hr).
  pose proof H as [Hs _ _]. destruct (in_step_advance c u u a Hs ltac:(lia)) as [Hs' Hn].
  destruct Hu as [->|[Hout Hnow]]; [apply (live_later l c); [done|lia]|]. constructor.
  - pose proof (agree_op c u u o Hs) as Hg. rewrite Ho in Hg. specialize (Hg ltac:(lia)). rewrite Hd in Hg. cbn [default agree_opt] in Hg.
    destruct (uop_do sync o u) as [[y v']|]; [|done]. destruct Hg as [_ Hg]. by eapply in_step_self.
  - destruct (moved o u) as [[w' s'] r'] eqn:Hm. pose proof (running_op (c + 1) w s r u o x u' w' s' r' Hr) as Hop. rewrite Ho in Hop.
    eexists _, _, _. apply Hop; [lia|done|done].
  - replace (sync a u') with u' by (rewrite <- Hn, <- Hnow; symmetry; apply sync_same). rewrite Hout.
    destruct (same_fields _ _ (is_same _ _ _ Hs')) as (_ & _ & -> & _). by apply (lv_sent _ _ _ (live_later l c a u H ltac:(lia))).
Qed.

(** Brought forward to this cycle. *)
Lemma live_advance l c u : live l c u -> live l c (advance c u) /\ now (advance c u) = c /\ since l c (tx_out (advance c u)) /\
  tx_out (advance c u) = tx_out (sync c u) /\ tx_bytes (advance c u) = map fst (tx_out (advance c u)).
Proof.
  intros [Hs (w & s & r & Hf) Hl]. destruct (in_step_advance c u u c Hs ltac:(lia)) as [Hs' Hn].
  pose proof (is_same _ _ _ Hs') as Hsame. destruct (same_fields _ _ Hsame) as (_ & _ & Hout & _).
  assert (Hf' : flow w s r (advance c u)) by (apply (flow_set_quiet 0); rewrite Hsame; apply flow_set_quiet; by apply sync_flow).
  assert (Hx : sync c (advance c u) = advance c u) by (rewrite <- Hn at 1; apply sync_same).
  split_and!; [|done|by rewrite Hout|done|by rewrite (fl_bytes _ _ _ _ Hf')]. constructor; [by eapply in_step_self|by exists w, s, r|by rewrite Hx, Hout].
Qed.

(** The host sends from this cycle on. *)
Lemma host_byte_now c b u : now u = c -> exists u', host_byte c b u = Some u' /\ now u' = c /\ tx_out u' = tx_out u /\ tx_bytes u' = tx_bytes u.
Proof.
  intros Hn. unfold host_byte. rewrite (proj2 (Z.leb_le _ _)); [|change RX_PUSH_DELAY with 1485; lia]. eexists. split; [done|]. done.
Qed.
Lemma live_host l c u bs : live l c u -> now u = c ->
  exists u', host_send bs c u = Some u' /\ live l c u' /\ now u' = c /\ tx_out u' = tx_out u /\ tx_bytes u' = tx_bytes u.
Proof.
  intros H Hn. assert (Hex : exists u', host_send bs c u = Some u' /\ now u' = c /\ tx_out u' = tx_out u /\ tx_bytes u' = tx_bytes u).
  { clear H. revert u Hn. induction bs as [|b bs IH]; intros u Hn; [by exists u|]. destruct (host_byte_now c b u Hn) as (u1 & E & Hn1 & Ho1 & Hb1).
    destruct (IH u1 Hn1) as (u2 & E2 & Hn2 & Ho2 & Hb2). exists u2. cbn. rewrite E. cbn. by rewrite E2, Ho2, Ho1, Hb2, Hb1. }
  destruct Hex as (u' & Hu & Hn' & Ho' & Hb'). exists u'. split_and!; try done. pose proof H as [Hs (w & s & r & Hf) Hl].
  destruct (live_running l c u H) as (w1 & s1 & r1 & Hr). pose proof (running_host _ _ _ _ _ _ _ _ Hr Hu) as [_ _ Hf'].
  pose proof (agree_host c u u bs c Hs) as Hg. rewrite Hu in Hg. constructor; [by eapply in_step_self|by eexists _, _, _|].
  replace (sync c u') with u' by (rewrite <- Hn' at 1; symmetry; apply sync_same). rewrite Ho'.
  replace (sync c u) with u in Hl by (rewrite <- Hn; symmetry; apply sync_same). exact Hl.
Qed.

Lemma uart_default_live : live beginning 0 uart_default.
Proof. constructor; [apply uart_default_in_step|exists [], [], []; apply uart_default_running|split; [done|by exists []]]. Qed.

(** More of what was sent has arrived later. *)
Lemma partition_point_nonneg {A} (p : A -> bool) l : 0 <= partition_point p l <= len l.
Proof. induction l as [|x l IH]; [done|]. cbn [partition_point]. rewrite len_cons. destruct (p x); lia. Qed.
Lemma partition_point_before {A} (p : A -> bool) l n :
  match l !! Z.to_nat n with Some x => p x = false | None => len l <= n end -> 0 <= n -> partition_point p l <= n.
Proof.
  revert n. induction l as [|x l IH]; intros n H Hn; [cbn; lia|]. cbn [partition_point]. destruct (p x) eqn:Ep; [|lia].
  destruct (Z.eqb_spec n 0) as [->|Hn0]; [cbn in H; congruence|]. replace (Z.to_nat n) with (S (Z.to_nat (n - 1))) in H by lia. cbn [lookup list_lookup] in H.
  assert (partition_point p l <= n - 1); [|lia]. apply IH; [|lia]. destruct (l !! Z.to_nat (n - 1)); [done|]. rewrite len_cons in H. lia.
Qed.
Lemma partition_point_mono {A} (p q : A -> bool) l l' :
  l `prefix_of` l' -> (forall x, p x = true -> q x = true) -> partition_point p l <= partition_point q l'.
Proof.
  intros [k ->] Hpq. induction l as [|x l IH]; [apply partition_point_nonneg|]. cbn [partition_point app].
  destruct (p x) eqn:Ep; [rewrite (Hpq x Ep); lia|]. destruct (q x); [|lia]. pose proof (partition_point_nonneg q (l ++ k)). lia.
Qed.

(** ** Properties *)

(** C6: the UART the emulator brings forward from event to event and one stepped through every
    clock give the CPU and the host the same, access by access, and hold the same after. *)
Theorem uart_clocked os :
  in_time 0 os ->
  match uops_do advance os uart_default, uops_do sync os uart_default with
  | Some (rs, u), Some (rs', v) => rs = rs' /\ set_quiet 0 u = set_quiet 0 v
  | None, None => True
  | _, _ => False
  end.
Proof.
  intros Ht. pose proof (agree_ops 0 os uart_default uart_default uart_default_in_step Ht) as H.
  destruct (uops_do advance os uart_default) as [[rs u]|], (uops_do sync os uart_default) as [[rs' v]|]; try done.
  destruct H as (-> & t & H). split; [done|apply H].
Qed.

(** C11: every byte written while there was room is sent once, in order, in frames on the bit
    timer's grid none of which overlaps the next; every byte the host sent is read once, in
    order, waits, or is counted as dropped; and neither FIFO holds more than it can. *)
Theorem uart_flows os rs u w s r :
  paced 0 os -> uops_do advance os uart_default = Some (rs, u) -> moved_by os uart_default = ((w, s), r) ->
  map fst (tx_out u) ++ tx_fifo u ++ pushes (cpu_ops u) = w /\ frames_apart (tx_out u) /\ len (tx_fifo u) <= FIFO_DEPTH /\
  sublist (r ++ drop (pops (cpu_ops u)) (rx_fifo u) ++ map f_byte (rx_line u)) s /\
  len r + len (rx_fifo u) - Z.of_nat (pops (cpu_ops u)) + len (rx_line u) + rx_dropped u = len s /\ len (rx_fifo u) <= FIFO_DEPTH.
Proof.
  intros Hp Hd Hm. destruct (running_ops 0 os [] [] [] uart_default rs u w s r uart_default_running Hp Hd Hm) as [_ _ [F1 F2 F3 F4 F5 F6 F7 F8 F9]].
  rewrite F2. split_and!; try done; [|lia]. pose proof (len_nonneg (pushes (cpu_ops u))). lia.
Qed.

(** C28: sending ends: 34 frame times after the last access at most, every byte written while there
    was room has left the pin. *)
Theorem uart_drains os rs u w s r c :
  paced 0 os -> uops_do advance os uart_default = Some (rs, u) -> moved_by os uart_default = ((w, s), r) ->
  time_after 0 os + 34 * FRAME <= c ->
  map fst (tx_out (advance c u)) = w /\ tx_complete_by c (advance c u) = len w.
Proof.
  intros Hp Hd Hm Hc. pose proof (running_ops 0 os [] [] [] uart_default rs u w s r uart_default_running Hp Hd Hm) as H.
  destruct (running_drains _ _ _ _ _ c H Hc) as [H1 H2]. split; [done|]. unfold tx_complete_by.
  cbn [app] in H1. rewrite <- H1. unfold len. rewrite length_map. clear -H2. induction H2 as [|bs l Hb Hl IH]; [done|]. cbn [partition_point length].
  rewrite IH, (proj2 (Z.leb_le _ _)) by done. lia.
Qed.

(** ** Witnesses *)

(** A program that enables its events, sends two bytes back to back and reads what came. *)
Definition example_ops : list uop :=
  [UHost [65; 66] 10; UWrite 0x14 3 20; UWrite 0 104 25; UIrq 27; UWrite 0 105 30; UHost [67] 40; URead 0x0C 2000; URead 0 2003; URead 0 2006; ULegacyRead 4 6000; URead 0 6003].

Lemma uart_clocked_witness :
  in_time 0 example_ops /\
  match uops_do advance example_ops uart_default, uops_do sync example_ops uart_default with
  | Some (rs, u), Some (rs', v) => rs = rs' /\ set_quiet 0 u = set_quiet 0 v
  | None, None => True
  | _, _ => False
  end.
Proof. assert (H : in_time 0 example_ops) by (cbn; lia). split; [exact H|]. exact (uart_clocked example_ops H). Defined.

Definition example_end : list Z * Uart := default ([], uart_default) (uops_do advance example_ops uart_default).
Lemma example_runs : uops_do advance example_ops uart_default = Some (example_end.1, example_end.2).
Proof. vm_compute. reflexivity. Qed.
Lemma example_read : example_end.1 = [0; 0; 0; 1; 0; 0; 3; 65; 0; 0; 66].
Proof. vm_compute. reflexivity. Qed.

Lemma example_paced : paced 0 example_ops.
Proof. cbn. lia. Qed.

Lemma uart_flows_witness :
  paced 0 example_ops /\ moved_by example_ops uart_default = (([104; 105], [65; 66; 67]), [65; 66]) /\
  map fst (tx_out example_end.2) ++ tx_fifo example_end.2 ++ pushes (cpu_ops example_end.2) = [104; 105] /\ frames_apart (tx_out example_end.2).
Proof.
  assert (Hm : moved_by example_ops uart_default = (([104; 105], [65; 66; 67]), [65; 66])) by (vm_compute; reflexivity).
  destruct (uart_flows example_ops example_end.1 example_end.2 _ _ _ example_paced example_runs Hm) as (H1 & H2 & _).
  split; [exact example_paced|]. split; [exact Hm|]. split; [exact H1|exact H2].
Defined.

Lemma uart_drains_witness :
  time_after 0 example_ops + 34 * FRAME <= 60000 /\
  map fst (tx_out (advance 60000 example_end.2)) = [104; 105] /\ tx_complete_by 60000 (advance 60000 example_end.2) = 2.
Proof.
  assert (Hm : moved_by example_ops uart_default = (([104; 105], [65; 66; 67]), [65; 66])) by (vm_compute; reflexivity).
  assert (Hc : time_after 0 example_ops + 34 * FRAME <= 60000) by (vm_compute; discriminate).
  split; [exact Hc|]. exact (uart_drains example_ops example_end.1 example_end.2 _ _ _ 60000 example_paced example_runs Hm Hc).
Defined.
End Uart.
