(* ===== verification/Periph.v ===== *)
(** * The emulator's timer, CLINT, GPIO and SD card master

    emu/crates/vux9k_emu/src/periph/: timer.rs, clint.rs, gpio.rs and sdspi.rs. The timer keeps
    an offset and its last change where the hardware counts every clock ([Timer.clock]), and the
    card's master keeps its last transfer where the hardware shifts bit by bit; both are shown
    to be the same seen from the CPU. Cycles are unbounded integers; mtime wraps at 64 bits. *)
From S2P Require Import Prelude Rv32Asm Models Rv32Csr SdCard.
#[local] Open Scope Z_scope.

(** ** A value that changed at most once recently *)

Record Stepped (T : Type) := mkStepped { sold : T; snew : T; sfrom : Z }.
Arguments mkStepped {T}.
Arguments sold {T}.
Arguments snew {T}.
Arguments sfrom {T}.
Definition stepped {T} (v : T) : Stepped T := mkStepped v v 0.
Definition value_at {T} (s : Stepped T) (cycle : Z) : T := if sfrom s <=? cycle then snew s else sold s.
(** [set], with its [saturating_sub]. *)
Definition set_from {T} (s : Stepped T) (cycle : Z) (v : T) : Stepped T := mkStepped (value_at s (Z.max 0 (cycle - 1))) v cycle.

(** ** emu/crates/vux9k_emu/src/periph/timer.rs *)
Module Timer.

Inductive Reg : Type := MtimeLo | MtimeHi | MtimecmpLo | MtimecmpHi.
Record Timer := mkTimer { offset : Stepped Z; mtimecmp : Stepped Z }.
Definition default : Timer := mkTimer (stepped 0) (stepped (2 ^ 64 - 1)).

Definition mtime (t : Timer) (c : Z) : Z := u64 (c + value_at (offset t) c).
Definition irq (t : Timer) (c : Z) : bool := (0 <? c) && (value_at (mtimecmp t) (c - 1) <=? mtime t (c - 1)).
Definition read (r : Reg) (c : Z) (t : Timer) : Z :=
  match r with
  | MtimeLo => Emu.u32 (mtime t c)
  | MtimeHi => Emu.u32 (Z.shiftr (mtime t c) 32)
  | MtimecmpLo => Emu.u32 (value_at (mtimecmp t) c)
  | MtimecmpHi => Emu.u32 (Z.shiftr (value_at (mtimecmp t) c) 32)
  end.

Definition LO : Z := 0xFFFFFFFF.
Definition set_mtime (from v : Z) (t : Timer) : Timer := mkTimer (set_from (offset t) from (u64 (v - from))) (mtimecmp t).
Definition write (r : Reg) (v c : Z) (t : Timer) : Timer :=
  let now := mtime t c in
  let cmp := value_at (mtimecmp t) c in
  match r with
  | MtimeLo => set_mtime (c + 1) (Z.lor (Z.ldiff now LO) v) t
  | MtimeHi => set_mtime (c + 1) (Z.lor (Z.shiftl v 32) (Z.land (u64 (now + 1)) LO)) t
  | MtimecmpLo => mkTimer (offset t) (set_from (mtimecmp t) (c + 1) (Z.lor (Z.ldiff cmp LO) v))
  | MtimecmpHi => mkTimer (offset t) (set_from (mtimecmp t) (c + 1) (Z.lor (Z.land cmp LO) (Z.shiftl v 32)))
  end.

(** The registers as the hardware has them: every clock counts, compares the values of the
    clock before, and takes the write at its edge. *)
Record regs := mkRegs { r_mtime : Z; r_cmp : Z; r_irq : bool }.
Definition power_on : regs := mkRegs 0 (2 ^ 64 - 1) false.
Definition clock (w : option (Reg * Z)) (s : regs) : regs :=
  let mt := u64 (r_mtime s + 1) in
  let irq := r_cmp s <=? r_mtime s in
  match w with
  | None => mkRegs mt (r_cmp s) irq
  | Some (MtimeLo, v) => mkRegs (Z.lor (Z.ldiff (r_mtime s) LO) v) (r_cmp s) irq
  | Some (MtimeHi, v) => mkRegs (Z.lor (Z.shiftl v 32) (Z.land mt LO)) (r_cmp s) irq
  | Some (MtimecmpLo, v) => mkRegs mt (Z.lor (Z.ldiff (r_cmp s) LO) v) irq
  | Some (MtimecmpHi, v) => mkRegs mt (Z.lor (Z.land (r_cmp s) LO) (Z.shiftl v 32)) irq
  end.

(** Writes, each with the cycle it is made in, in order. *)
Definition writes : Type := list (Z * (Reg * Z)).
Fixpoint in_order (from : Z) (ws : writes) : Prop :=
  match ws with [] => True | (c, (_, v)) :: ws => from <= c /\ is_u32 v /\ in_order (c + 1) ws end.
Definition written (ws : writes) (t : Timer) : Timer := fold_left (fun t w => write (fst (snd w)) (snd (snd w)) (fst w) t) ws t.
(** The hardware up to a cycle. *)
Definition write_in (ws : writes) (c : Z) : option (Reg * Z) := snd <$> List.find (fun w => fst w =? c) ws.
Fixpoint clocks (n : nat) (ws : writes) : regs :=
  match n with O => power_on | S n => clock (write_in ws (Z.of_nat n)) (clocks n ws) end.

Lemma u64_small x : 0 <= x < 2 ^ 64 -> u64 x = x.
Proof. intros H. unfold u64. by apply Z.mod_small. Qed.
Lemma u64_add x y : u64 (u64 x + y) = u64 (x + y).
Proof. unfold u64. by rewrite Zplus_mod_idemp_l. Qed.

Lemma in_order_snoc f ws c r v :
  in_order f (ws ++ [(c, (r, v))]) -> in_order f ws /\ Forall (fun w => fst w < c) ws /\ f <= c /\ is_u32 v.
Proof.
  revert f. induction ws as [|[c0 [r0 v0]] ws IH]; intros f H; cbn in *; [by destruct H as (? & ? & _)|].
  destruct H as (H1 & H2 & H3). destruct (IH _ H3) as (I1 & I2 & I3 & I4). split_and!; try done; [|lia]. constructor; [cbn; lia|done].
Qed.

Lemma find_app {A} (f : A -> bool) l k : List.find f (l ++ k) = match List.find f l with Some x => Some x | None => List.find f k end.
Proof. induction l as [|x l IH]; [done|]. cbn. by destruct (f x). Qed.
Lemma find_before ws c : Forall (fun w : Z * (Reg * Z) => fst w < c) ws -> List.find (fun w => fst w =? c) ws = None.
Proof. induction 1 as [|w ws Hw _ IH]; [done|]. cbn. by rewrite (proj2 (Z.eqb_neq _ _)) by lia. Qed.
Lemma write_in_snoc ws c w : Forall (fun w => fst w < c) ws -> write_in (ws ++ [(c, w)]) c = Some w.
Proof. intros H. unfold write_in. rewrite find_app, find_before by done. cbn. by rewrite Z.eqb_refl. Qed.
Lemma write_in_other ws c w c' : c' <> c -> write_in (ws ++ [(c, w)]) c' = write_in ws c'.
Proof. intros H. unfold write_in. rewrite find_app. destruct (List.find _ ws); [done|]. cbn. by rewrite (proj2 (Z.eqb_neq _ _)) by lia. Qed.
Lemma write_in_after ws c : Forall (fun w => fst w < c) ws -> write_in ws c = None.
Proof. intros H. unfold write_in. by rewrite find_before. Qed.

Lemma clocks_snoc n ws c w : Z.of_nat n <= c -> clocks n (ws ++ [(c, w)]) = clocks n ws.
Proof. induction n as [|n IH]; intros H; [done|]. cbn [clocks]. by rewrite IH, write_in_other by lia. Qed.

(** Without writes the timer counts. *)
Lemma clocks_count ws (t : Z) n : 0 <= t -> Forall (fun w => fst w < t) ws -> 0 <= r_mtime (clocks (Z.to_nat t) ws) < 2 ^ 64 ->
  r_mtime (clocks (Z.to_nat t + n) ws) = u64 (r_mtime (clocks (Z.to_nat t) ws) + Z.of_nat n) /\
  r_cmp (clocks (Z.to_nat t + n) ws) = r_cmp (clocks (Z.to_nat t) ws).
Proof.
  intros Ht Hw Hr. induction n as [|n [IH1 IH2]]; [rewrite Nat.add_0_r, Z.add_0_r; split; [by rewrite u64_small|done]|].
  rewrite Nat.add_succ_r. cbn [clocks]. rewrite write_in_after by (eapply Forall_impl; [exact Hw|]; intros w H; cbn beta in *; lia).
  cbn [clock r_mtime r_cmp]. rewrite IH1, IH2, u64_add. split; [f_equal; lia|done].
Qed.

(** The timer at the cycle after the last write: what it keeps is what the hardware counts. *)
Record kept (ws : writes) (t : Z) (tm : Timer) : Prop := {
  k_nonneg : 0 <= t;
  k_done : Forall (fun w => fst w < t) ws;
  k_from : sfrom (offset tm) <= t /\ sfrom (mtimecmp tm) <= t;
  k_mtime : r_mtime (clocks (Z.to_nat t) ws) = u64 (t + snew (offset tm));
  k_cmp : r_cmp (clocks (Z.to_nat t) ws) = snew (mtimecmp tm) /\ 0 <= snew (mtimecmp tm) < 2 ^ 64;
  k_before : 0 < t -> mtime tm (t - 1) = r_mtime (clocks (Z.to_nat (t - 1)) ws) /\
    value_at (mtimecmp tm) (t - 1) = r_cmp (clocks (Z.to_nat (t - 1)) ws)
}.

Lemma kept_at ws t tm c : kept ws t tm -> t <= c ->
  mtime tm c = r_mtime (clocks (Z.to_nat c) ws) /\ value_at (mtimecmp tm) c = r_cmp (clocks (Z.to_nat c) ws) /\
  value_at (offset tm) c = snew (offset tm) /\ value_at (mtimecmp tm) c = snew (mtimecmp tm).
Proof.
  intros [K1 K2 [K3 K3'] K4 [K5 K5'] _] Hc. destruct (clocks_count ws t (Z.to_nat (c - t)) K1 K2) as [C1 C2]; [rewrite K4; apply u64_range|].
  replace (Z.to_nat t + Z.to_nat (c - t))%nat with (Z.to_nat c) in * by lia. rewrite C1, C2, K4, K5, u64_add. unfold mtime, value_at.
  rewrite !(proj2 (Z.leb_le _ _)) by lia. split_and!; try done. f_equal. lia.
Qed.

Lemma half_range lo hi : 0 <= lo < 2 ^ 32 -> 0 <= hi < 2 ^ 64 -> hi mod 2 ^ 32 = 0 -> 0 <= Z.lor hi lo < 2 ^ 64.
Proof. intros Hl Hh Hm. rewrite (lor_add hi lo 32) by (done || lia). dlia. Qed.
Lemma ldiff_LO x : Z.ldiff x LO = 2 ^ 32 * (x / 2 ^ 32).
Proof. change LO with (Z.ones 32). rewrite Z.ldiff_ones_r by lia. rewrite Z.shiftr_div_pow2, Z.shiftl_mul_pow2 by lia. lia. Qed.
Lemma land_LO x : Z.land x LO = x mod 2 ^ 32.
Proof. apply (land_mask x 32); [lia|done]. Qed.

(** The two halves a write makes are 64 bits. *)
Lemma low_range x v : 0 <= x < 2 ^ 64 -> is_u32 v -> 0 <= Z.lor (Z.ldiff x LO) v < 2 ^ 64.
Proof. intros Hx Hv. unfold is_u32 in Hv. rewrite ldiff_LO. apply half_range; dlia. Qed.
Lemma high_range x v : is_u32 v -> 0 <= Z.lor (Z.shiftl v 32) (Z.land x LO) < 2 ^ 64.
Proof. intros Hv. unfold is_u32 in Hv. rewrite land_LO, shiftl_mul by lia. apply half_range; dlia. Qed.

Lemma kept_write ws t tm c r v : kept ws t tm -> t <= c -> is_u32 v -> kept (ws ++ [(c, (r, v))]) (c + 1) (write r v c tm).
Proof.
  intros K Hc Hv. destruct (kept_at ws t tm c K Hc) as (A1 & A2 & A3 & A4). pose proof K as [K1 K2 [K3 K3'] K4 [K5 K5'] _].
  assert (Hdone : Forall (fun w => fst w < c) ws) by (eapply Forall_impl; [exact K2|]; intros w H; cbn beta in *; lia).
  assert (Hs : clocks (Z.to_nat (c + 1)) (ws ++ [(c, (r, v))]) = clock (Some (r, v)) (clocks (Z.to_nat c) ws)).
  { replace (Z.to_nat (c + 1)) with (S (Z.to_nat c)) by lia. cbn [clocks]. rewrite Z2Nat.id by lia. by rewrite write_in_snoc, clocks_snoc by (done || lia). }
  assert (Hm : u64 (mtime tm c + 1) = u64 (c + 1 + snew (offset tm))) by (unfold mtime; rewrite A3, u64_add; f_equal; lia).
  assert (Hx : forall f x, 0 <= x < 2 ^ 64 -> u64 (f + u64 (x - f)) = x).
  { intros f x Hx. unfold u64. rewrite Zplus_mod_idemp_r. replace (f + (x - f)) with x by lia. by apply Z.mod_small. }
  assert (Hr : 0 <= mtime tm c < 2 ^ 64) by apply u64_range.
  assert (Hold : forall (y : Stepped Z) w, sfrom y <= t -> value_at (set_from y (c + 1) w) c = snew y /\ value_at y c = snew y).
  { intros y w Hy. unfold value_at, set_from. cbn [sfrom snew sold]. unfold value_at. rewrite (proj2 (Z.leb_gt (c + 1) c)) by lia.
    rewrite !(proj2 (Z.leb_le _ _)) by lia. done. }
  constructor; [lia|apply Forall_app; split; [eapply Forall_impl; [exact Hdone|]; intros w H; cbn beta in *; lia|repeat constructor; cbn; lia]|..].
  - destruct r; cbn; lia.
  - rewrite Hs. destruct r; cbn [write set_mtime offset mtimecmp set_from snew clock r_mtime]; rewrite <- A1.
    + rewrite Hx; [done|by apply low_range].
    + rewrite Hx; [done|by apply high_range].
    + done.
    + done.
  - rewrite Hs. destruct r; cbn [write set_mtime offset mtimecmp set_from snew clock r_cmp]; rewrite <- ?A2, ?A4; try done.
    + split; [done|by apply low_range].
    + split; [done|]. rewrite Z.lor_comm. by apply high_range.
  - intros _. replace (c + 1 - 1) with c by lia. rewrite clocks_snoc by lia. rewrite <- A1, <- A2. unfold mtime. rewrite A3, A4.
    destruct r; cbn [write set_mtime offset mtimecmp]; rewrite ?(proj1 (Hold _ _ K3)), ?(proj1 (Hold _ _ K3')), ?(proj2 (Hold _ 0 K3)), ?(proj2 (Hold _ 0 K3')); done.
Qed.

Lemma kept_default : kept [] 0 default.
Proof. constructor; done || (intros; lia). Qed.

Lemma written_kept ws : in_order 0 ws -> exists t, kept ws t (written ws default) /\ (t = 0 \/ exists w, last ws = Some w /\ t = fst w + 1).
Proof.
  induction ws as [|[c [r v]] ws IH] using rev_ind; intros H; [exists 0; split; [apply kept_default|by left]|].
  apply in_order_snoc in H as (H1 & H2 & H3 & H4). destruct (IH H1) as (t & K & Ht). exists (c + 1). unfold written. rewrite fold_left_app. cbn.
  split; [|right; exists (c, (r, v)); split; [by rewrite last_snoc|done]]. apply (kept_write ws t); [done| |done].
  destruct Ht as [-> | (w & Hl & ->)]; [done|]. apply last_Some in Hl as [l' ->]. apply Forall_app in H2 as [_ H2]. apply Forall_cons in H2 as [H2 _]. lia.
Qed.

(** C24: whatever the writes, from the cycle after the last one the timer's registers and its
    interrupt line are those of a counter clocked every cycle. *)
Theorem timer_clocked ws c :
  in_order 0 ws -> Forall (fun w => fst w < c) ws -> 0 <= c ->
  let t := written ws default in
  mtime t c = r_mtime (clocks (Z.to_nat c) ws) /\ value_at (mtimecmp t) c = r_cmp (clocks (Z.to_nat c) ws) /\
  irq t c = r_irq (clocks (Z.to_nat c) ws).
Proof.
  intros Hi Hc Hc0 t. destruct (written_kept ws Hi) as (t0 & K & Ht). fold t in K. assert (Hle : t0 <= c).
  { destruct Ht as [-> | (w & Hl & ->)]; [done|]. apply last_Some in Hl as [l' ->]. apply Forall_app in Hc as [_ H]. apply Forall_cons in H as [H _]. lia. }
  destruct (kept_at ws t0 t c K Hle) as (A1 & A2 & _). split_and!; [done|done|]. unfold irq. destruct (Z.ltb_spec 0 c) as [Hp|Hp]; cbn [andb].
  - assert (Hb : mtime t (c - 1) = r_mtime (clocks (Z.to_nat (c - 1)) ws) /\ value_at (mtimecmp t) (c - 1) = r_cmp (clocks (Z.to_nat (c - 1)) ws)).
    { destruct (decide (t0 = c)) as [->|]; [by apply (k_before _ _ _ K)|]. destruct (kept_at ws t0 t (c - 1) K ltac:(lia)) as (B1 & B2 & _). done. }
    destruct Hb as [-> ->]. replace (Z.to_nat c) with (S (Z.to_nat (c - 1))) by lia. cbn [clocks]. by destruct (write_in ws _) as [[[] ?]|].
  - by replace c with 0 by lia.
Qed.

Lemma timer_clocked_witness :
  let ws := [(5, (MtimeLo, 0xFFFFFFFE)); (9, (MtimecmpHi, 1)); (12, (MtimecmpLo, 10))] in
  let t := written ws default in
  in_order 0 ws /\ mtime t 20 = r_mtime (clocks 20 ws) /\ value_at (mtimecmp t) 20 = r_cmp (clocks 20 ws) /\ irq t 20 = r_irq (clocks 20 ws).
Proof.
  intros ws t. assert (H : in_order 0 ws) by (cbn; unfold is_u32; lia). split; [exact H|].
  apply (timer_clocked ws 20 H); [repeat constructor|lia].
Defined.
End Timer.

(** ** emu/crates/vux9k_emu/src/periph/clint.rs *)
Module Clint.

Definition CLINT_BASE : Z := 0x20000000.
Definition MSIP : Z := 0x0000.
Definition MTIMECMP : Z := 0x4000.
Definition MTIME : Z := 0xBFF8.

(** [Clint]: its one register. *)
Definition Clint : Type := Stepped bool.
Definition default : Clint := stepped false.

Definition timer_reg (off : Z) : option Timer.Reg :=
  if off =? MTIME then Some Timer.MtimeLo
  else if off =? 0xBFFC then Some Timer.MtimeHi
  else if off =? MTIMECMP then Some Timer.MtimecmpLo
  else if off =? 0x4004 then Some Timer.MtimecmpHi
  else None.

Definition msip (c : Z) (s : Clint) : bool := value_at s c.
Definition read (addr : Z) (timer : Timer.Timer) (c : Z) (s : Clint) : Z :=
  let off := Z.land addr 0xFFFC in
  if off =? MSIP then Z.b2z (msip c s)
  else match timer_reg off with Some r => Timer.read r c timer | None => 0 end.
Definition write (addr v c : Z) (timer : Timer.Timer) (s : Clint) : Timer.Timer * Clint :=
  let off := Z.land addr 0xFFFC in
  if off =? MSIP then (timer, set_from s (c + 1) (negb (Z.land v 1 =? 0)))
  else match timer_reg off with Some r => (Timer.write r v c timer, s) | None => (timer, s) end.
End Clint.

(** [timer_page_reg] (periph/mod.rs). *)
Definition timer_page_reg (addr : Z) : option Timer.Reg :=
  let a := Z.land addr 0xF in
  if a =? 0x0 then Some Timer.MtimeLo
  else if a =? 0x4 then Some Timer.MtimeHi
  else if a =? 0x8 then Some Timer.MtimecmpLo
  else if a =? 0xC then Some Timer.MtimecmpHi
  else None.

(** ** emu/crates/vux9k_emu/src/periph/gpio.rs *)
Module Gpio.

Definition SOFT_RESET_KEYS : list Z := [0x5A5AA55A; 0x0000A55A].
Definition SOFT_RESET_PULSE : Z := 15.

(** A soft reset requested: the cycle it ends in, and the ISA given (true: RV32). *)
Record SoftReset := mkSoftReset { release : Z; mode : option bool }.
Record Gpio := mkGpio {
  led : Z; btn0 : Z * bool; btn1 : Z * bool; mode_valid : bool; mode_rv32 : bool; pulse_from : option Z; pending : option SoftReset
}.
Definition default : Gpio := mkGpio 0 (0, false) (0, false) false false None None.

Definition set_button (c : Z) (pressed : bool) (g : Gpio) : Gpio :=
  if Bool.eqb (snd (btn1 g)) pressed then g
  else mkGpio (led g) (btn1 g) (c, pressed) (mode_valid g) (mode_rv32 g) (pulse_from g) (pending g).
(** [led_pins]: the low six bits of [!led]. *)
Definition led_pins (g : Gpio) : Z := 63 - Z.land (led g) 63.
Definition pin_pressed (c : Z) (g : Gpio) : bool := if fst (btn1 g) <=? c then snd (btn1 g) else snd (btn0 g).
Definition pressed (c : Z) (g : Gpio) : bool := (2 <=? c) && pin_pressed (c - 2) g.
Definition soft_reset_active (c : Z) (g : Gpio) : bool :=
  match pulse_from g with Some f => (f <=? c) && (c <? f + SOFT_RESET_PULSE) | None => false end.

Definition read (addr c : Z) (g : Gpio) : Z :=
  let a := Z.land addr 0xF in
  if a =? 0x0 then led g
  else if a =? 0x4 then Z.b2z (pressed c g)
  else if a =? 0x8 then Z.lor (Z.shiftl (Z.b2z (mode_valid g)) 8) (Z.b2z (mode_rv32 g))
  else if a =? 0xC then Z.b2z (soft_reset_active c g)
  else 0.

Definition write (addr v c : Z) (g : Gpio) : Gpio :=
  let a := Z.land addr 0xF in
  if a =? 0x0 then mkGpio (Z.land v 0x3F) (btn0 g) (btn1 g) (mode_valid g) (mode_rv32 g) (pulse_from g) (pending g)
  else if a =? 0x8 then mkGpio (led g) (btn0 g) (btn1 g) (negb (Z.land v 0x100 =? 0)) (negb (Z.land v 1 =? 0)) (pulse_from g) (pending g)
  else if (a =? 0xC) && one_of v SOFT_RESET_KEYS then
    let from := c + 1 in
    let mode := if mode_valid g then Some (mode_rv32 g) else None in
    mkGpio (led g) (btn0 g) (btn1 g) false (mode_rv32 g) (Some from) (Some (mkSoftReset (from + SOFT_RESET_PULSE) mode))
  else g.

Definition take_soft_reset (g : Gpio) : option SoftReset * Gpio :=
  (pending g, mkGpio (led g) (btn0 g) (btn1 g) (mode_valid g) (mode_rv32 g) (pulse_from g) None).
End Gpio.

(** ** emu/crates/vux9k_emu/src/periph/sdspi.rs *)
Module SdSpi.

Definition HALF_PERIOD : Z := 23.
Definition MIN_HALF_PERIOD : Z := 3.
Definition CLK_HZ : Z := 18000000.
Definition transfer (d : Z) : Z := 16 * d.

(** The last transfer: the write's edge, the half period, the shift register before it and
    the byte from the card. *)
Record xfer_t := mkXfer { x_edge : Z; x_half : Z; x_prev : Z; x_miso : Z }.
(** The card in the socket, with how it was made. *)
Record socket := mkSocket { s_cfg : card_config; s_faults : list (Z * Z); s_card : Emu.SdCard }.
Record log_entry := mkLog { l_edge : Z; l_mosi : byte; l_miso : byte; l_selected : bool }.
Record SdSpi := mkSdSpi { cs_n : bool; div : Z; xfer : option xfer_t; card : option socket; log : list log_entry; log_enabled : bool }.
Definition default : SdSpi := mkSdSpi true HALF_PERIOD None None [] false.

Definition busy (c : Z) (s : SdSpi) : bool :=
  match xfer s with Some x => (x_edge x <? c) && (c <=? x_edge x + transfer (x_half x)) | None => false end.

(** [shift_rx]: the bits shifted in before cycle [c]. *)
Definition shift_rx (c : Z) (s : SdSpi) : Z :=
  match xfer s with
  | None => 0xFF
  | Some x =>
      let elapsed := Z.max 0 (c - (x_edge x + 1)) in
      let n := if elapsed <? x_half x then 0 else Z.min ((elapsed - x_half x) / (2 * x_half x) + 1) 8 in
      Z.land (Z.lor (Z.shiftl (x_prev x) n) (Z.shiftr (x_miso x) (8 - n))) 0xFF
  end.

Definition read (addr c : Z) (s : SdSpi) : Z :=
  let a := Z.land addr 0xF in
  if a =? 0x0 then shift_rx c s
  else if a =? 0x4 then Z.b2z (cs_n s)
  else if a =? 0x8 then Z.b2z (busy c s)
  else if a =? 0xC then div s
  else 0.

(** The card's side of a byte. *)
Definition clock_byte (mosi : byte) (selected : bool) (sclk_hz : Z) (k : option socket) : byte * option socket :=
  match k with
  | None => (xff, None)
  | Some k =>
      let '(miso, card) := Emu.exchange (s_cfg k) (s_faults k) mosi selected (Emu.set_sclk_hz sclk_hz (s_card k)) in
      (miso, Some (mkSocket (s_cfg k) (s_faults k) card))
  end.

Definition write (addr v c : Z) (s : SdSpi) : SdSpi :=
  if busy c s then s
  else
    let a := Z.land addr 0xF in
    if a =? 0x0 then
      let mosi := byte.of_Z (v mod 256) in
      let selected := negb (cs_n s) in
      let '(miso, k) := clock_byte mosi selected (CLK_HZ / (2 * div s)) (card s) in
      mkSdSpi (cs_n s) (div s) (Some (mkXfer c (div s) (shift_rx c s) (byte.unsigned miso))) k
        (if log_enabled s then log s ++ [mkLog c mosi miso selected] else log s) (log_enabled s)
    else if a =? 0x4 then
      let n := negb (Z.land v 1 =? 0) in
      let k := if Bool.eqb n (cs_n s) then card s
               else (fun k => mkSocket (s_cfg k) (s_faults k) (Emu.set_cs (negb n) (s_card k))) <$> card s in
      mkSdSpi n (div s) (xfer s) k (log s) (log_enabled s)
    else if a =? 0xC then mkSdSpi (cs_n s) (Z.max (Z.land v 0xFF) MIN_HALF_PERIOD) (xfer s) (card s) (log s) (log_enabled s)
    else s.

(** The shift register bit by bit: MISO's bit [i] comes in at the end of cycle
    [edge + half * (2 i + 1)], a rising edge of SCLK. *)
Definition shifted (x : xfer_t) (c : Z) : Z :=
  fold_left (fun r i => if x_edge x + x_half x * (2 * i + 1) <? c then (2 * r + Z.b2z (Z.testbit (x_miso x) (7 - i))) mod 256 else r)
    [0; 1; 2; 3; 4; 5; 6; 7] (x_prev x).

Record xfer_ok (x : xfer_t) : Prop := { xo_half : 1 <= x_half x; xo_prev : 0 <= x_prev x < 256; xo_miso : 0 <= x_miso x < 256 }.
Definition spi_ok (s : SdSpi) : Prop := 3 <= div s <= 255 /\ match xfer s with Some x => xfer_ok x | None => True end.

(** The register after [n] bits. *)
Definition bits_in (x : xfer_t) (n : Z) : Z := (x_prev x * 2 ^ n + x_miso x / 2 ^ (8 - n)) mod 256.

Lemma bits_in_shift x n : xfer_ok x -> 0 <= n <= 8 -> Z.land (Z.lor (Z.shiftl (x_prev x) n) (Z.shiftr (x_miso x) (8 - n))) 0xFF = bits_in x n.
Proof.
  intros [_ Hp Hm] Hn. rewrite (land_mask _ 8) by done. rewrite shiftr_div by lia. rewrite lor_shiftl_add; [done|lia|].
  split; [apply Z.div_pos; lia|]. apply Z.div_lt_upper_bound; [lia|]. rewrite <- Z.pow_add_r by lia. replace (8 - n + n) with 8 by lia. lia.
Qed.

Lemma bits_in_step x n : xfer_ok x -> 0 <= n < 8 -> (2 * bits_in x n + Z.b2z (Z.testbit (x_miso x) (7 - n))) mod 256 = bits_in x (n + 1).
Proof.
  intros [_ Hp Hm] Hn. unfold bits_in. rewrite Z.testbit_spec' by lia. rewrite Z.pow_add_r by lia. replace (8 - (n + 1)) with (7 - n) by lia.
  assert (Hd : x_miso x / 2 ^ (8 - n) = x_miso x / 2 ^ (7 - n) / 2).
  { rewrite Z.div_div by lia. do 2 f_equal. replace (8 - n) with (7 - n + 1) by lia. rewrite Z.pow_add_r by lia. done. }
  rewrite Hd. set (a := x_miso x / 2 ^ (7 - n)). set (b := x_prev x * 2 ^ n). replace (x_prev x * (2 ^ n * 2 ^ 1)) with (2 * b) by (unfold b; lia). dlia.
Qed.

Lemma div_iff a h i : 0 < h -> (i <= a / h <-> h * i <= a).
Proof.
  intros Hh. split; intros H.
  - pose proof (Z.mul_div_le a h Hh). nia.
  - apply Z.div_le_lower_bound; lia.
Qed.

(** The closed form the emulator reads is the register shifted bit by bit. *)
Lemma shift_rx_shifted s x c : xfer s = Some x -> xfer_ok x -> shift_rx c s = shifted x c.
Proof.
  intros Hx Ho. unfold shift_rx. rewrite Hx. pose proof Ho as [Hh Hp _]. set (el := Z.max 0 (c - (x_edge x + 1))).
  set (n := if el <? x_half x then 0 else Z.min ((el - x_half x) / (2 * x_half x) + 1) 8).
  assert (Hn : 0 <= n <= 8).
  { unfold n. destruct (Z.ltb_spec el (x_half x)); [lia|]. pose proof (Z.div_pos (el - x_half x) (2 * x_half x) ltac:(lia) ltac:(lia)). lia. }
  assert (Hi : forall i, 0 <= i < 8 -> (x_edge x + x_half x * (2 * i + 1) <? c) = (i <? n)).
  { intros i Hi. apply eq_bool_prop_intro. rewrite !Is_true_true, !Z.ltb_lt. unfold n. destruct (Z.ltb_spec el (x_half x)); [split; [unfold el in *; nia|lia]|].
    assert (i < Z.min ((el - x_half x) / (2 * x_half x) + 1) 8 <-> i <= (el - x_half x) / (2 * x_half x)) as -> by lia.
    rewrite div_iff by lia. unfold el in *. lia. }
  rewrite bits_in_shift by done. unfold shifted. cbn [fold_left]. rewrite !Hi by lia. clearbody n. clear Hi el.
  assert (H0 : x_prev x = bits_in x 0) by (unfold bits_in; destruct Ho as [_ _ Hm]; rewrite Z.pow_0_r, Z.mul_1_r, (Z.div_small (x_miso x)), Z.add_0_r, Z.mod_small by lia; done).
  rewrite H0. pose proof (fun k H => bits_in_step x k Ho H) as Hs.
  assert (n = 0 \/ n = 1 \/ n = 2 \/ n = 3 \/ n = 4 \/ n = 5 \/ n = 6 \/ n = 7 \/ n = 8) as Hc by lia.
  repeat destruct Hc as [-> | Hc]; [..|subst n]; cbn [Z.ltb Z.compare Pos.compare Pos.compare_cont]; rewrite ?Hs by lia; done.
Qed.

Lemma shift_rx_range s c : spi_ok s -> 0 <= shift_rx c s < 256.
Proof.
  intros [_ H]. destruct (xfer s) as [x|] eqn:E; unfold shift_rx; rewrite E; [|lia]. rewrite (land_mask _ 8) by done. apply Z.mod_pos_bound. lia.
Qed.

(** After the last rising edge the register holds the byte. *)
Lemma shifted_done x c : xfer_ok x -> x_edge x + 15 * x_half x < c -> shifted x c = x_miso x.
Proof.
  intros Ho Hc. pose proof Ho as [Hh Hp Hm]. assert (H8 : bits_in x 8 = x_miso x).
  { unfold bits_in. rewrite Z.sub_diag, Z.pow_0_r, Z.div_1_r. rewrite Z.add_comm, Z.mod_add by lia. by apply Z.mod_small. }
  rewrite <- H8. unfold shifted. cbn [fold_left].
  rewrite !(proj2 (Z.ltb_lt _ c)) by lia.
  assert (H0 : x_prev x = bits_in x 0) by (unfold bits_in; rewrite Z.pow_0_r, Z.mul_1_r, (Z.div_small (x_miso x)), Z.add_0_r, Z.mod_small by lia; done).
  rewrite H0 at 1. by rewrite !bits_in_step by (done || lia).
Qed.

(** C31: a byte written while the master is idle goes to the card, and the card's answer comes in
    bit by bit at SCLK's rising edges and is whole after the last; for 16 half periods the
    master is busy and takes no other write. *)
Theorem byte_exchanged v c s :
  spi_ok s -> busy c s = false ->
  let s' := write 0 v c s in
  let '(miso, k) := clock_byte (byte.of_Z (v mod 256)) (negb (cs_n s)) (CLK_HZ / (2 * div s)) (card s) in
  card s' = k /\ spi_ok s' /\
  (forall c', busy c' s' = true <-> c < c' <= c + 16 * div s) /\
  (forall addr v' c', c < c' <= c + 16 * div s -> write addr v' c' s' = s') /\
  (forall c', read 0 c' s' = shifted (mkXfer c (div s) (shift_rx c s) (byte.unsigned miso)) c') /\
  (forall c', c + 15 * div s < c' -> read 0 c' s' = byte.unsigned miso).
Proof.
  intros Hok Hb s'. pose proof (shift_rx_range s c Hok) as Hr. pose proof Hok as [Hd _]. destruct (clock_byte _ _ _ _) as [miso k] eqn:Ek.
  set (x := mkXfer c (div s) (shift_rx c s) (byte.unsigned miso)).
  set (t := mkSdSpi (cs_n s) (div s) (Some x) k (if log_enabled s then log s ++ [mkLog c (byte.of_Z (v mod 256)) miso (negb (cs_n s))] else log s) (log_enabled s)).
  assert (Hs' : s' = t) by (unfold s', write; rewrite Hb; change (Z.land 0 0xF =? 0) with true; cbv iota; by rewrite Ek).
  clearbody s'. subst s'.
  pose proof (byte.unsigned_range miso) as Hm. assert (Hx : xfer_ok x) by (constructor; cbn; lia).
  assert (Hbusy : forall c', busy c' t = true <-> c < c' <= c + 16 * div s).
  { intros c'. unfold busy. cbn. rewrite andb_true_iff, Z.ltb_lt, Z.leb_le. unfold transfer. lia. }
  split_and!; [done|split; [done|exact Hx]|exact Hbusy| | |].
  - intros addr v' c' Hc. apply Hbusy in Hc. unfold write. by rewrite Hc.
  - intros c'. by apply shift_rx_shifted.
  - intros c' Hc. change (read 0 c' t) with (shift_rx c' t). rewrite (shift_rx_shifted t x) by done. by apply shifted_done.
Qed.

Lemma byte_exchanged_witness :
  let s := mkSdSpi false 3 None (Some (mkSocket (mkConfig true true [] false false [] false) [] (Emu.new []))) [] false in
  let s' := write 0 0xFF 100 s in
  spi_ok s /\ card s' <> None /\ read 0 146 s' = 0xFF /\ (busy 148 s' = true <-> 100 < 148 <= 100 + 16 * 3).
Proof.
  intros s s'. assert (Hok : spi_ok s) by (split; [cbn; lia|exact I]). split; [exact Hok|].
  pose proof (byte_exchanged 0xFF 100 s Hok eq_refl) as H. destruct (clock_byte _ _ _ _) as [miso k] eqn:E.
  assert (Hm : byte.unsigned miso = 0xFF) by (apply (f_equal fst) in E; vm_compute in E; subst miso; reflexivity).
  destruct H as (H1 & _ & H3 & _ & _ & H6). split; [|split].
  - vm_compute. discriminate.
  - rewrite <- Hm. apply H6. cbn. lia.
  - apply H3.
Defined.
End SdSpi.
