(* ===== verification/Soc.v ===== *)
(** * The emulated SoC

    emu/crates/vux9k_emu/src/soc.rs for the board's profile: the memory map behind the CPU (the
    boot ROM, the window with its caches, the CLINT and the MMIO pages) as the [Bus] the RV32
    CPU runs on, the Hack CPU, the soft reset that changes between them, and loading programs.
    The emulator brings the UART forward when it samples its interrupt, here it is brought
    forward by the accesses alone: the two are the same by Uart.uart_clocked. The trace's
    [steps] counter is left out. *)
From S2P Require Import Prelude Rv32Asm Models Rv32Csr SdCard Rv32Cpu Caches Uart Periph Image.
#[local] Open Scope Z_scope.

(** ** The memory map *)

Definition XMEM_REGION : Z := 0x8.
Definition XMEM_WORDS : Z := 2 ^ 21.
Definition XMEM_BASE : Z := Z.shiftl XMEM_REGION 28.
Definition XMEM_BYTES : Z := XMEM_WORDS * 4.
Definition HACK_I_BASE : Z := 0x80000000.
Definition HACK_I_BYTES : Z := 0x10000.
Definition HACK_D_BASE : Z := 0x80020000.
Definition ROM_BYTES : Z := 16 * 1024.
Definition rom_mask : Z := ROM_BYTES / 4 - 1.
Definition PAGE_UART : Z := 0.
Definition PAGE_TIMER : Z := 1.
Definition PAGE_SD : Z := 2.
Definition PAGE_GPIO : Z := 3.

(** The SoC but for its CPU: [rom], [xmem] and [caches], and [Periph]. *)
Record real_bus := mkReal {
  rom : mem; xmem : mem; caches : Caches; timer : Timer.Timer; clint : Clint.Clint; gpio : Gpio.Gpio; uart : Uart.Uart;
  sd : SdSpi.SdSpi; v03_mmio : bool
}.
Definition set_rom v b := mkReal v (xmem b) (caches b) (timer b) (clint b) (gpio b) (uart b) (sd b) (v03_mmio b).
Definition set_xmem v b := mkReal (rom b) v (caches b) (timer b) (clint b) (gpio b) (uart b) (sd b) (v03_mmio b).
Definition set_caches v b := mkReal (rom b) (xmem b) v (timer b) (clint b) (gpio b) (uart b) (sd b) (v03_mmio b).
Definition set_timer v b := mkReal (rom b) (xmem b) (caches b) v (clint b) (gpio b) (uart b) (sd b) (v03_mmio b).
Definition set_clint v b := mkReal (rom b) (xmem b) (caches b) (timer b) v (gpio b) (uart b) (sd b) (v03_mmio b).
Definition set_gpio v b := mkReal (rom b) (xmem b) (caches b) (timer b) (clint b) v (uart b) (sd b) (v03_mmio b).
Definition set_uart v b := mkReal (rom b) (xmem b) (caches b) (timer b) (clint b) (gpio b) v (sd b) (v03_mmio b).
Definition set_sd v b := mkReal (rom b) (xmem b) (caches b) (timer b) (clint b) (gpio b) (uart b) v (v03_mmio b).

Definition in_xmem (addr : Z) : bool := Z.shiftr addr 28 =? XMEM_REGION.
Definition xmem_index (addr : Z) : Z := Z.land (Z.shiftr addr 2) (XMEM_WORDS - 1).
Definition rom_word (addr : Z) (b : real_bus) : Z := rom b (Z.land (Z.shiftr addr 2) rom_mask).
Definition xmem_word (addr : Z) (b : real_bus) : Z := xmem b (xmem_index addr).

(** An access of the window through the data cache. *)
Definition window_access (idx : Z) (store : bool) (b : real_bus) : Z * real_bus :=
  let '(wait, c) := cache_access idx store (xmem b) (caches b) in (wait, set_caches c b).
(** A fetch from the window. *)
Definition window_fetch (addr : Z) (b : real_bus) : Z * Z * real_bus :=
  let idx := xmem_index addr in
  let '(wait, c) := cache_fetch idx (caches b) in (xmem b idx, wait, set_caches c b).

(** [fetch] in RV32 and in Hack mode. *)
Definition rv_fetch (pc : Z) (b : real_bus) : Z * Z * real_bus :=
  if in_xmem pc then window_fetch pc b else (rom_word pc b, 0, b).
Definition hack_fetch (pc : Z) (b : real_bus) : Z * Z * real_bus :=
  window_fetch (Z.lor HACK_I_BASE (Z.land pc 0xFFFF)) b.

Definition load_wait (addr : Z) (b : real_bus) : Z * real_bus :=
  if in_xmem addr then window_access (xmem_index addr) false b else (0, b).

(** [mmio_read] by the instruction fetched in cycle [t]. *)
Definition mmio_read (addr t : Z) (b : real_bus) : Z * real_bus :=
  let page := Z.land (Z.shiftr addr 12) 0xF in
  if page =? PAGE_UART then
    let '(v, u) := if v03_mmio b then Uart.legacy_read Uart.advance addr (t + 2) (uart b)
      else Uart.read Uart.advance addr (t + 2) (uart b) in
    (v, set_uart u b)
  else if (page =? PAGE_TIMER) && v03_mmio b then
    (match timer_page_reg addr with Some reg => Timer.read reg (t + 1) (timer b) | None => 0 end, b)
  else if page =? PAGE_SD then (SdSpi.read addr (t + 1) (sd b), b)
  else if page =? PAGE_GPIO then (Gpio.read addr (t + 1) (gpio b), b)
  else (0, b).

(** [mmio_write] at the end of cycle [edge]. *)
Definition mmio_write (addr data edge : Z) (b : real_bus) : real_bus :=
  let page := Z.land (Z.shiftr addr 12) 0xF in
  if page =? PAGE_UART then
    set_uart (if v03_mmio b then Uart.legacy_write Uart.advance addr data edge (uart b)
      else Uart.write Uart.advance addr data edge (uart b)) b
  else if (page =? PAGE_TIMER) && v03_mmio b then
    match timer_page_reg addr with Some reg => set_timer (Timer.write reg data edge (timer b)) b | None => b end
  else if page =? PAGE_SD then set_sd (SdSpi.write addr data edge (sd b)) b
  else if page =? PAGE_GPIO then set_gpio (Gpio.write addr data edge (gpio b)) b
  else b.

(** [rv_read_word] and [rv_write]. *)
Definition read_word (addr t : Z) (b : real_bus) : Z * real_bus :=
  let region := Z.shiftr addr 28 in
  if region =? 0 then (rom_word addr b, b)
  else if (region =? 2) && negb (v03_mmio b) then (Clint.read addr (timer b) (t + 1) (clint b), b)
  else if region =? 4 then mmio_read addr t b
  else if in_xmem addr then (xmem_word addr b, b)
  else (0, b).

Definition write_word (addr data be t : Z) (b : real_bus) : Z * real_bus :=
  let region := Z.shiftr addr 28 in
  if (region =? 2) && negb (v03_mmio b) then
    let '(tm, c) := Clint.write addr data (t + 2) (timer b) (clint b) in (0, set_clint c (set_timer tm b))
  else if region =? 4 then (0, mmio_write addr data (t + 2) b)
  else if in_xmem addr then
    let idx := xmem_index addr in
    let '(wait, b) := window_access idx true b in
    (wait, set_xmem (put_word (xmem b) idx (merge_bytes (xmem b idx) data be)) b)
  else (0, b).

(** [meip]'s value. *)
Definition uart_line (c : Z) (b : real_bus) : bool :=
  if v03_mmio b then (Uart.rx_pending Uart.advance c (uart b)).1 else (Uart.irq Uart.advance c (uart b)).1.

(** ** Hack *)

Definition hack_mmio (a16 : Z) : Z :=
  if Z.land a16 0xC =? 0 then Z.lor 0x40000000 (Z.shiftl (Z.land a16 3) 2) else Z.lor 0x40003000 (Z.land a16 0xF).
Definition hack_data_index (a : Z) : Z := xmem_index (Z.lor HACK_D_BASE (Z.shiftl (Z.land a 0x7FFF) 2)).

Definition hack_read (a t : Z) (b : real_bus) : Z * Z * real_bus :=
  let a16 := Z.land a 0xFFFF in
  if (0x6000 <=? a16) && (a16 <? 0x6010) then let '(v, b) := mmio_read (hack_mmio a16) t b in (v, 0, b)
  else if a16 <? 0x6000 then
    let idx := hack_data_index a16 in
    let '(wait, b) := window_access idx false b in (xmem b idx, wait, b)
  else (0, 0, b).

Definition hack_write (a v edge : Z) (b : real_bus) : Z * real_bus :=
  let a16 := Z.land a 0xFFFF in
  if (0x6000 <=? a16) && (a16 <? 0x6010) then (0, mmio_write (hack_mmio a16) v edge b)
  else if a16 <? 0x6000 then
    let idx := hack_data_index a16 in
    let '(wait, b) := window_access idx true b in (wait, set_xmem (put_word (xmem b) idx v) b)
  else (0, b).

(** ** The map as the CPU's bus *)

(** The UART's bytes are bytes and its enable bits two. *)
Definition is_byte (x : Z) : Prop := 0 <= x < 256.
Definition op_ok (op : Z * Uart.CpuOp) : Prop := match op.2 with Uart.SetEvEnable v => 0 <= v < 4 | _ => True end.
Record uart_bytes (u : Uart.Uart) : Prop := {
  ub_fifo : Forall is_byte (Uart.rx_fifo u); ub_line : Forall (fun f => is_byte (Uart.f_byte f)) (Uart.rx_line u);
  ub_ops : Forall op_ok (Uart.cpu_ops u); ub_ev : 0 <= Uart.ev_enable u < 4
}.

Record real_ok (b : real_bus) : Prop := {
  ro_rom : forall i, is_u32 (rom b i); ro_xmem : forall i, is_u32 (xmem b i); ro_uart : uart_bytes (uart b);
  ro_sd : SdSpi.spi_ok (sd b); ro_led : 0 <= Gpio.led (gpio b) < 64
}.

Lemma do_op_bytes op u : op_ok op -> uart_bytes u -> uart_bytes (Uart.do_op op.2 u).
Proof.
  intros Ho [H1 H2 H3 H4]. destruct op as [e [b| |v]]; cbn in *; constructor; cbn; try done.
  destruct H1; [constructor|done].
Qed.

Lemma do_ops_bytes edge ops u : Forall op_ok ops -> uart_bytes u -> uart_bytes (Uart.do_ops edge ops u).
Proof.
  intros Ho. revert u. induction Ho as [|[e op] ops Hop Ho IH]; intros u [H1 H2 H3 H4]; [by constructor|]. cbn [Uart.do_ops].
  destruct (e =? edge); [|constructor; cbn; try done; by constructor]. apply IH. by apply (do_op_bytes (e, op)).
Qed.

Lemma edge_step_bytes e u : uart_bytes u -> uart_bytes (Uart.edge_step e u).
Proof.
  intros Hu. unfold Uart.edge_step, Uart.apply_edge.
  set (u1 := if bool_decide (Uart.tx_pop_at u = Some e) then _ else u).
  assert (H1 : uart_bytes u1) by (destruct Hu; unfold u1, Uart.tx_step; destruct (bool_decide _), (Uart.tx_fifo u); by constructor).
  clearbody u1. set (full := _ =? _). clearbody full. destruct (bool_decide (Uart.rx_push_at u = Some e)).
  - destruct (Uart.rx_step full u1) as [p u2] eqn:E.
    assert (H2 : uart_bytes u2 /\ Forall is_byte (option_list p)).
    { unfold Uart.rx_step in E. destruct H1 as [A1 A2 A3 A4]. destruct (Uart.rx_line u1) as [|f line] eqn:El; [simplify_eq; split; [by constructor; rewrite ?El|cbn; constructor]|].
      apply Forall_cons in A2 as [? ?]. destruct full; simplify_eq; (split; [by constructor|]); cbn; repeat constructor; apply H. }
    destruct H2 as [H2 Hp]. destruct (do_ops_bytes e (Uart.cpu_ops u2) u2 (ub_ops _ H2) H2). constructor; cbn; try done. by apply Forall_app.
  - destruct (do_ops_bytes e (Uart.cpu_ops u1) u1 (ub_ops _ H1) H1). constructor; cbn; try done. rewrite app_nil_r. done.
Qed.

Lemma advance_bytes c u : uart_bytes u -> uart_bytes (Uart.advance c u).
Proof.
  assert (Hq : forall q n v, uart_bytes v -> uart_bytes (Uart.set_quiet q (Uart.set_now n v))) by (intros q n v []; by constructor).
  intros Hu. unfold Uart.advance. destruct (c <=? _); [destruct Hu; by constructor|]. unfold Uart.advance_edges.
  assert (H0 : uart_bytes (Uart.set_quiet 0 u)) by (destruct Hu; by constructor). revert H0. generalize (Uart.set_quiet 0 u), (S (Uart.edges_left u)).
  intros v n. revert v. induction n as [|n IH]; intros v Hv; [done|]. cbn [Uart.edges_loop].
  destruct (Uart.now v <? c); [|done]. destruct (Uart.next_edge v) as [e|]; [|by apply Hq].
  destruct (c <=? e); [by apply Hq|]. apply IH. by apply edge_step_bytes.
Qed.

Lemma queue_bytes e op u : op_ok (e, op) -> uart_bytes u -> uart_bytes (Uart.queue e op u).
Proof. intros Ho [? ? ? ?]. constructor; cbn; try done. apply Forall_app. split; [done|by repeat constructor]. Qed.

Lemma b2z_u32 (b : bool) : is_u32 (Z.b2z b).
Proof. destruct b; unfold is_u32; cbn; lia. Qed.
Lemma events_small u : is_u32 (Uart.events u).
Proof. unfold Uart.events. destruct (_ <? _), (negb _); vm_compute; split; congruence. Qed.

Lemma pop_head_bytes c u : uart_bytes u -> is_u32 (Uart.pop_head c u).1 /\ uart_bytes (Uart.pop_head c u).2.
Proof.
  intros Hu. unfold Uart.pop_head. destruct (Uart.rx_fifo u) as [|b l] eqn:E; [split; [unfold is_u32; cbn; lia|done]|].
  split; [|by apply queue_bytes]. pose proof (ub_fifo _ Hu) as Hb. rewrite E in Hb. apply Forall_cons in Hb as [Hb _].
  unfold is_byte, is_u32 in *. cbn. lia.
Qed.

Lemma uart_read_ok addr c u : uart_bytes u -> is_u32 (Uart.read Uart.advance addr c u).1 /\ uart_bytes (Uart.read Uart.advance addr c u).2.
Proof.
  intros Hu. pose proof (advance_bytes c u Hu) as Ha. unfold Uart.read. cbv zeta.
  repeat match goal with |- context [if ?x =? ?y then _ else _] => destruct (x =? y) end; cbn [fst snd];
    try (split; [first [apply b2z_u32 | apply events_small | unfold is_u32; lia]|done]); [by apply pop_head_bytes| |].
  - split; [|done]. unfold Uart.pending. destruct (_ =? 0); [apply events_small|]. unfold Uart.enabled. rewrite Z.land_comm. by apply land_u32, events_small.
  - split; [|done]. destruct (ub_ev _ Ha). unfold is_u32. lia.
Qed.

Lemma legacy_read_ok addr c u : uart_bytes u -> is_u32 (Uart.legacy_read Uart.advance addr c u).1 /\ uart_bytes (Uart.legacy_read Uart.advance addr c u).2.
Proof.
  intros Hu. pose proof (advance_bytes c u Hu) as Ha. unfold Uart.legacy_read. cbv zeta. destruct (_ =? 0); [by apply pop_head_bytes|].
  split; [|done]. destruct (_ =? Uart.FIFO_DEPTH), (_ =? 0); vm_compute; split; congruence.
Qed.

Lemma push_tx_bytes v c u : uart_bytes u -> uart_bytes (Uart.push_tx Uart.advance v c u).
Proof. intros Hu. pose proof (advance_bytes c u Hu) as Ha. unfold Uart.push_tx. destruct (_ <? _); [by apply queue_bytes|done]. Qed.
Lemma uart_write_bytes addr v c u : uart_bytes u -> uart_bytes (Uart.write Uart.advance addr v c u).
Proof.
  intros Hu. unfold Uart.write. cbv zeta. destruct (_ =? 0); [by apply push_tx_bytes|]. destruct (_ =? 0x14); [|done].
  apply queue_bytes; [|by apply advance_bytes]. cbn. rewrite (land_mask _ 2) by lia. dlia.
Qed.
Lemma legacy_write_bytes addr v c u : uart_bytes u -> uart_bytes (Uart.legacy_write Uart.advance addr v c u).
Proof. intros Hu. unfold Uart.legacy_write. destruct (_ =? 0); [by apply push_tx_bytes|done]. Qed.

Lemma spi_write_ok addr v c s : SdSpi.spi_ok s -> SdSpi.spi_ok (SdSpi.write addr v c s).
Proof.
  intros Hs. pose proof Hs as [Hd Hx]. unfold SdSpi.write. destruct (SdSpi.busy c s); [done|]. cbv zeta.
  destruct (_ =? 0); [|destruct (_ =? 4); [by split|destruct (_ =? 0xC); [|done]]].
  - destruct (SdSpi.clock_byte _ _ _ _) as [miso k]. split; [done|]. cbn. pose proof (SdSpi.shift_rx_range s c Hs).
    pose proof (byte.unsigned_range miso). constructor; cbn; lia.
  - split; [|done]. cbn. rewrite (land_mask _ 8) by done. unfold SdSpi.MIN_HALF_PERIOD. dlia.
Qed.

Lemma spi_read_u32 addr c s : SdSpi.spi_ok s -> is_u32 (SdSpi.read addr c s).
Proof.
  intros Hs. unfold SdSpi.read. cbv zeta. pose proof (SdSpi.shift_rx_range s c Hs). destruct Hs as [Hd _].
  repeat match goal with |- context [if ?x =? ?y then _ else _] => destruct (x =? y) end; try apply b2z_u32; unfold is_u32; lia.
Qed.

Lemma gpio_read_u32 addr c g : 0 <= Gpio.led g < 64 -> is_u32 (Gpio.read addr c g).
Proof.
  intros Hl. unfold Gpio.read. cbv zeta. repeat match goal with |- context [if ?x =? ?y then _ else _] => destruct (x =? y) end;
    try apply b2z_u32; [unfold is_u32; lia| |unfold is_u32; lia]. destruct (Gpio.mode_valid g), (Gpio.mode_rv32 g); vm_compute; split; congruence.
Qed.
Lemma gpio_write_led addr v c g : 0 <= Gpio.led g < 64 -> 0 <= Gpio.led (Gpio.write addr v c g) < 64.
Proof.
  intros Hl. unfold Gpio.write. cbv zeta. destruct (_ =? 0); [cbn; rewrite (land_mask _ 6) by done; dlia|].
  destruct (_ =? 8); [done|]. by destruct (_ && _).
Qed.

Lemma timer_read_u32 r c t : is_u32 (Timer.read r c t).
Proof. destruct r; apply u32_range. Qed.

(** What the bus's operations keep: the ROM always, and that words are 32 bits. *)
Definition rom_kept (b b' : real_bus) : Prop := rom b' = rom b /\ v03_mmio b' = v03_mmio b.

Lemma window_access_spec idx st b wait b' : window_access idx st b = (wait, b') ->
  b' = set_caches (caches b') b /\ 0 <= wait.
Proof.
  unfold window_access, cache_access. destruct (dline_of idx) as [l t]. intros H.
  assert (Hw : 0 <= access_wait (dline (caches b) !! l) t).
  { unfold access_wait. repeat match goal with |- context [match ?x with _ => _ end] => destruct x end; unfold XMEM_LINE_FILL, XMEM_LINE_DIRTY; vm_compute; congruence. }
  destruct st; injection H as <- <-; done.
Qed.
Lemma window_fetch_spec addr b word wait b' : window_fetch addr b = (word, wait, b') ->
  b' = set_caches (caches b') b /\ 0 <= wait /\ word = xmem b (xmem_index addr).
Proof.
  unfold window_fetch, cache_fetch. destruct (iline_of _) as [l t]. destruct (dline_of _) as [dl dt].
  destruct (bool_decide _); [|destruct (bool_decide _)]; intros H; injection H as <- <- <-; split_and!; try done; vm_compute; congruence.
Qed.

Lemma set_caches_ok c b : real_ok b -> real_ok (set_caches c b).
Proof. by intros []. Qed.

Lemma mmio_read_ok addr t b : real_ok b ->
  is_u32 (mmio_read addr t b).1 /\ real_ok (mmio_read addr t b).2 /\ rom_kept b (mmio_read addr t b).2 /\ xmem (mmio_read addr t b).2 = xmem b.
Proof.
  intros Hb. assert (H0 : is_u32 0) by (unfold is_u32; lia). pose proof Hb as [H1 H2 H3 H4 H5]. unfold mmio_read. cbv zeta.
  destruct (_ =? PAGE_UART).
  - pose proof (uart_read_ok addr (t + 2) (uart b) H3) as Hr. pose proof (legacy_read_ok addr (t + 2) (uart b) H3) as Hl.
    destruct (v03_mmio b) eqn:Ev; [destruct (Uart.legacy_read _ _ _ _)|destruct (Uart.read _ _ _ _)]; cbn [fst snd] in *; (refine (conj _ (conj _ (conj _ eq_refl))); [tauto| |done]); constructor; cbn; try done; tauto.
  - destruct (_ && _); [split_and!; try done; destruct (timer_page_reg addr); [apply timer_read_u32|done]|].
    destruct (_ =? PAGE_SD); [split_and!; try done; by apply spi_read_u32|].
    destruct (_ =? PAGE_GPIO); [split_and!; try done; by apply gpio_read_u32|]. done.
Qed.

Lemma mmio_write_ok addr data edge b : real_ok b ->
  real_ok (mmio_write addr data edge b) /\ rom_kept b (mmio_write addr data edge b) /\ xmem (mmio_write addr data edge b) = xmem b.
Proof.
  intros Hb. pose proof Hb as [H1 H2 H3 H4 H5]. unfold mmio_write. cbv zeta.
  destruct (_ =? PAGE_UART); [split_and!; try done; destruct (v03_mmio b); constructor; cbn; try done; [by apply legacy_write_bytes|by apply uart_write_bytes]|].
  destruct (_ && _); [destruct (timer_page_reg addr); [split_and!; try done; by constructor|done]|].
  destruct (_ =? PAGE_SD); [split_and!; try done; constructor; cbn; try done; by apply spi_write_ok|].
  destruct (_ =? PAGE_GPIO); [split_and!; try done; constructor; cbn; try done; by apply gpio_write_led|]. done.
Qed.

Lemma load_wait_kept addr b : (load_wait addr b).2 = set_caches (caches (load_wait addr b).2) b /\ 0 <= (load_wait addr b).1.
Proof.
  unfold load_wait. destruct (in_xmem addr); [|by destruct b]. destruct (window_access _ _ b) as [w b'] eqn:E.
  by apply window_access_spec in E.
Qed.

Lemma read_word_ok addr t b : real_ok b ->
  is_u32 (read_word addr t b).1 /\ real_ok (read_word addr t b).2 /\ rom_kept b (read_word addr t b).2 /\ xmem (read_word addr t b).2 = xmem b.
Proof.
  intros Hb. assert (H0 : is_u32 0) by (unfold is_u32; lia). unfold read_word. cbv zeta.
  destruct (_ =? 0); [split_and!; try done; apply (ro_rom _ Hb)|]. destruct (_ && _).
  - split_and!; try done. unfold Clint.read. cbv zeta. destruct (_ =? Clint.MSIP); [apply b2z_u32|].
    destruct (Clint.timer_reg _); [apply timer_read_u32|done].
  - destruct (_ =? 4); [by apply mmio_read_ok|]. destruct (in_xmem addr); [split_and!; try done; apply (ro_xmem _ Hb)|done].
Qed.

Lemma put_word_u32 m i v : (forall j, is_u32 (m j)) -> is_u32 v -> forall j, is_u32 (put_word m i v j).
Proof. intros Hm Hv j. unfold put_word. by destruct (j =? i). Qed.
Lemma merge_u32 old data be : is_u32 old -> is_u32 data -> is_u32 (merge_bytes old data be).
Proof. intros Ho Hd. apply lor_u32; [by apply ldiff_range|by apply land_u32]. Qed.

Lemma write_word_ok addr data be t b : real_ok b -> is_u32 data ->
  real_ok (write_word addr data be t b).2 /\ rom_kept b (write_word addr data be t b).2.
Proof.
  intros Hb Hd. unfold write_word. cbv zeta. destruct (_ && _).
  - destruct (Clint.write _ _ _ _ _). split; [destruct Hb; by constructor|done].
  - destruct (_ =? 4); [destruct (mmio_write_ok addr data (t + 2) b Hb) as (? & ? & _); done|].
    destruct (in_xmem addr); [|done]. destruct (window_access _ _ b) as [w b'] eqn:E. apply window_access_spec in E as [-> _].
    split; [|done]. pose proof Hb as []. constructor; cbn; try done. apply put_word_u32; [done|by apply merge_u32].
Qed.

Lemma rv_fetch_spec pc b : rom_kept b (rv_fetch pc b).2 /\ xmem (rv_fetch pc b).2 = xmem b /\ (real_ok b -> real_ok (rv_fetch pc b).2) /\ 0 <= (rv_fetch pc b).1.2.
Proof.
  unfold rv_fetch. destruct (in_xmem pc); [|done]. destruct (window_fetch pc b) as [[w k] b'] eqn:E. apply window_fetch_spec in E as (-> & ? & ->).
  split_and!; try done. apply set_caches_ok.
Qed.

#[export, program] Instance real_profile : Bus real_bus := {
  fetch := rv_fetch;
  rv_load_wait := load_wait;
  rv_read_word := read_word;
  rv_write := write_word;
  meip := uart_line;
  msip c b := Clint.msip c (clint b);
  mtip c b := Timer.irq (timer b) c;
  mtime c b := Timer.mtime (timer b) c;
  bus_ok := real_ok;
}.
Next Obligation.
  intros pc b Hb. destruct (rv_fetch_spec pc b) as (_ & _ & Hk & Hw). split_and!; [|done|by apply Hk].
  unfold rv_fetch. destruct (in_xmem pc); [|apply (ro_rom _ Hb)]. destruct (window_fetch pc b) as [[w k] b'] eqn:E.
  apply window_fetch_spec in E as (_ & _ & ->). apply (ro_xmem _ Hb).
Qed.
Next Obligation. intros addr b Hb. destruct (load_wait_kept addr b) as [-> _]. by apply set_caches_ok. Qed.
Next Obligation. intros addr t b Hb. by destruct (read_word_ok addr t b Hb) as (? & ? & _). Qed.
Next Obligation. intros addr data be t b Hb Hd. by apply write_word_ok. Qed.

(** ** [step_hack] *)

(** The comps that read Y: the others never read M. *)
Definition uses_y (comp : Z) : bool := negb (one_of comp [0x0D; 0x0F; 0x1F; 0x0E]).

(** A jump's condition, of what the comp gave. *)
Definition hack_take (jump out : Z) : bool :=
  let c16 := Z.land out 0xFFFF in
  let zero := c16 =? 0 in
  let neg := negb (Z.land c16 0x8000 =? 0) in
  if jump =? 1 then negb zero && negb neg
  else if jump =? 2 then zero
  else if jump =? 3 then negb neg
  else if jump =? 4 then neg
  else if jump =? 5 then negb zero
  else if jump =? 6 then neg || zero
  else jump =? 7.

(** A C-instruction; also the second register written. *)
Definition hack_c (ins : Z) (o : outcome real_bus) : outcome real_bus * option (Z * Z) :=
  let '(s, r) := o in
  let a := xr 1 s in
  let d := xr 2 s in
  let a_bit := negb (Z.land ins 0x1000 =? 0) in
  let comp := Z.land (Z.shiftr ins 6) 0x3F in
  let dest := Z.land (Z.shiftr ins 3) 7 in
  let jump := Z.land ins 7 in
  let use_mem := a_bit && uses_y comp in
  let t := cycle s in
  let '(y, read_wait, b) := if use_mem then hack_read a t (bus s) else (a, 0, bus s) in
  let s := set_bus b s in
  let out := Emu.hack_out comp d y in
  let '(write_wait, s, r) :=
    if negb (Z.land dest 1 =? 0) then
      let '(w, b) := hack_write a out (if use_mem then t + 3 + read_wait else t + 1) (bus s) in
      (w, set_bus b s, r_set_store (Some (a, out, 15)) r)
    else (0, s, r) in
  let to_a := negb (Z.land dest 4 =? 0) in
  let to_d := negb (Z.land dest 2 =? 0) in
  let '(s, r) := if to_a then write_rd 1 out (s, r) else (s, r) in
  let '(s, r, rd2) :=
    if to_d then
      if to_a then ((write_rd 2 out (s, r)).1, r, Some (2, out))
      else (write_rd 2 out (s, r), None)
    else (s, r, None) in
  let take := hack_take jump out in
  let r := if negb (jump =? 0) && negb (jump =? 7) then r_set_branch (Some take) r else r in
  let next := if negb (jump =? 0) && take then Emu.u32 (Z.shiftl a 1) else Emu.u32 (pc s + 2) in
  let cycles := 2 + (if use_mem then 2 + read_wait else 0) + write_wait + (if Z.land dest 6 =? 6 then 1 else 0) in
  ((set_pc next s, r_set_cycles cycles r), rd2).

Definition step_hack (word : Z) (o : outcome real_bus) : outcome real_bus * option (Z * Z) :=
  let '(s, r) := o in
  let ins := if negb (Z.land (pc s) 2 =? 0) then Z.shiftr word 16 else Z.land word 0xFFFF in
  let r := r_set_instr ins r in
  if Z.land ins 0x8000 =? 0 then
    let next := Emu.u32 (pc s + 2) in
    let '(s, r) := write_rd 1 (Z.land ins 0x7FFF) (s, r) in
    ((set_pc next s, r_set_cycles 2 r), None)
  else hack_c ins (s, r).

(** ** The SoC's step *)

(** The rest of [Retire]: the ISA and the second register written. *)
Record Retired := mkRetired { r_riscv : bool; r_base : Retire; r_rd2 : option (Z * Z) }.
Record soc := mkSoc { core : cpu real_bus; riscv_mode : bool; cov : option (gset Z) }.
Definition set_core v s := mkSoc v (riscv_mode s) (cov s).

Definition cov_key (riscv : bool) (pc instr : Z) : Z :=
  Z.lor (Z.lor (u64 (Z.shiftl pc 33)) (Z.shiftl (Z.b2z riscv) 32)) instr.

(** [step] in Hack mode, up to the coverage. *)
Definition hack_step (s : cpu real_bus) : outcome real_bus * option (Z * Z) :=
  let start := cycle s in
  let '(word, wait, b) := hack_fetch (pc s) (bus s) in
  let s := set_bus b s in
  let s := set_csr (set_mcycle (u64 (mcycle (csr s) + wait)) (csr s)) (set_cycle (cycle s + wait) s) in
  let r := mkRetire start (pc s) 0 None None None None 0 in
  let '((s, r), rd2) := step_hack word (s, r) in
  let s := match mcycle_written s with
    | Some v => set_mcycle_written None (set_csr (set_mcycle v (csr s)) s)
    | None => set_csr (set_mcycle (u64 (mcycle (csr s) + r_cycles r)) (csr s)) s end in
  ((set_cycle (cycle s + r_cycles r) s, r_set_cycles (r_cycles r + wait) r), rd2).

Definition soft_reset (sr : Gpio.SoftReset) (s : soc) : soc :=
  let c := core s in
  let b := set_uart (Uart.uart_soft_reset Uart.advance (Gpio.release sr - 1) (uart (bus c))) (bus c) in
  mkSoc (mkCpu (Gpio.release sr) (regs c) 0 csr_default None None (m_ext c) b) (default true (Gpio.mode sr)) (cov s).

Definition soc_step (s : soc) : soc * Retired :=
  let '((c, r), rd2) := if riscv_mode s then (step (core s), None) else hack_step (core s) in
  let cov := (fun k => {[cov_key (riscv_mode s) (r_pc r) (r_instr r)]} ∪ k) <$> cov s in
  let '(sr, g) := Gpio.take_soft_reset (gpio (bus c)) in
  let s' := mkSoc (set_bus (set_gpio g (bus c)) c) (riscv_mode s) cov in
  (match sr with Some sr => soft_reset sr s' | None => s' end, mkRetired (riscv_mode s) r rd2).

Fixpoint soc_steps (n : nat) (s : soc) : soc := match n with O => s | S n => soc_steps n (soc_step s).1 end.

(** ** Reset and loading *)

(** [reset]. *)
Definition sd_reset (s : SdSpi.SdSpi) : SdSpi.SdSpi :=
  SdSpi.mkSdSpi (SdSpi.cs_n SdSpi.default) (SdSpi.div SdSpi.default) None (SdSpi.card s) [] (SdSpi.log_enabled SdSpi.default).
Definition soc_reset (s : soc) : soc :=
  let c := core s in
  let b := bus c in
  let '(m, k) := cache_power_on (xmem b) (caches b) in
  let b := mkReal (rom b) m k Timer.default Clint.default Gpio.default Uart.uart_default (sd_reset (sd b)) (v03_mmio b) in
  mkSoc (mkCpu 0 (replicate 32 0) 0 csr_default None (mcycle_written c) (m_ext c) b) true (cov s).
(** [new]. *)
Definition soc_new : soc :=
  let b := mkReal (fun _ => 0) (fun _ => 0) caches_default Timer.default Clint.default Gpio.default Uart.uart_default SdSpi.default false in
  soc_reset (mkSoc (power_on b) true None).

(** The bytes as little-endian words, the last padded with zeros. *)
Definition le_words (bs : bytes) : list Z := map (fun c => le_combine (ljust c 4 x00)) (chunks 4 bs).
(** Words stored one after the other from number [n] on. *)
Fixpoint put_words (at_ : Z -> Z) (n : Z) (ws : list Z) (m : mem) : mem :=
  match ws with [] => m | w :: ws => put_words at_ (n + 1) ws (put_word m (at_ n) w) end.

Definition load_rom_words (start : Z) (ws : list Z) (s : soc) : soc :=
  let c := core s in
  set_core (set_bus (set_rom (put_words (fun n => Z.land (start + n) rom_mask) 0 ws (rom (bus c))) (bus c)) c) s.
Definition load_rom (addr : Z) (bs : bytes) (s : soc) : soc := load_rom_words (addr / 4) (le_words bs) s.

(** [load_xmem]; None stands for its error, here and in the loaders below. *)
Fixpoint load_window (i : Z) (ws : list Z) (m : mem) (c : Caches) : mem * Caches :=
  match ws with [] => (m, c) | w :: ws => load_window (i + 1) ws (put_word m i w) (psram_written i w c) end.
Definition load_xmem (addr : Z) (bs : bytes) (s : soc) : option soc :=
  let offset := Emu.u32 (addr - XMEM_BASE) in
  if negb (in_xmem addr) || negb (addr mod 4 =? 0) || (XMEM_BYTES <? offset + len bs) then None
  else
    let c := core s in
    let '(m, k) := load_window (offset / 4) (le_words bs) (xmem (bus c)) (caches (bus c)) in
    Some (set_core (set_bus (set_caches k (set_xmem m (bus c))) c) s).

Definition start_at (addr : Z) (riscv : bool) (s : soc) : soc := mkSoc (set_pc addr (core s)) riscv (cov s).

(** [load_hack]. *)
Definition load_hack (bs : bytes) (offset : Z) (s : soc) : option soc :=
  if (len bs =? 0) || negb (offset mod 4 =? 0) || (HACK_I_BYTES <? offset + len bs) then None
  else
    words ← Image.emu_hack_words bs;
    s ← load_xmem (HACK_I_BASE + offset) words s;
    Some (start_at 0 false s).

(** [load_app] in RV32: the ROM. *)
Definition load_app (bs : bytes) (s : soc) : option soc :=
  if (len bs =? 0) || (ROM_BYTES <? len bs) then None
  else Some (mkSoc (core (load_rom 0 bs s)) true (cov s)).
Definition load_app_at (bs : bytes) (hack : bool) (addr : Z) (s : soc) : option soc :=
  if hack then load_hack bs addr s
  else if addr =? 0 then load_app bs s
  else if negb (in_xmem addr) then None
  else if len bs =? 0 then None
  else s ← load_xmem addr bs s; Some (start_at addr true s).

Definition LINUX_DTB_ADDR : Z := 0x807F0000.
Definition LINUX_DTB_MAX : Z := 64 * 1024.
Definition load_linux (image dtb : bytes) (s : soc) : option soc :=
  if (len dtb =? 0) || (LINUX_DTB_MAX <? len dtb) then None
  else if (len image =? 0) || (LINUX_DTB_ADDR - XMEM_BASE <? len image) then None
  else
    s ← load_xmem XMEM_BASE image s;
    s ← load_xmem LINUX_DTB_ADDR dtb s;
    let c := core s in
    let c := set_bus (set_caches caches_default (bus c)) c in
    let u := csr c in
    let u := mkCsrs (mstatus u) (mie u) (mtvec u) (mscratch u) (mepc u) (mcause u) (mtval u) (mcycle u) (minstret u) false (mpp_u u) in
    Some (mkSoc (set_pc XMEM_BASE (set_csr u (set_regs (<[11%nat := LINUX_DTB_ADDR]> (<[10%nat := 0]> (regs c))) c))) true (cov s)).

(** ** Running: the clock and the UART *)

(** [run]: the loop's fuel is its cycles, each step takes at least two. *)
Fixpoint run_loop (fuel : nat) (end_ : Z) (s : soc) : soc :=
  match fuel with
  | O => s
  | S fuel => if cycle (core s) <? end_ then run_loop fuel end_ (soc_step s).1 else s
  end.
(** [periph.uart.advance(self.cycle)]. *)
Definition catch_up (s : soc) : soc :=
  let c := core s in set_core (set_bus (set_uart (Uart.advance (cycle c) (uart (bus c))) (bus c)) c) s.
Definition soc_run (max_cycles : Z) (s : soc) : soc := catch_up (run_loop (Z.to_nat max_cycles) (cycle (core s) + max_cycles) s).

(** [uart_send]; None is [host_send]'s panic. *)
Definition soc_send (bs : bytes) (s : soc) : option soc :=
  let c := core s in
  u ← Uart.host_send (map byte.unsigned bs) (cycle c) (uart (bus c));
  Some (set_core (set_bus (set_uart u (bus c)) c) s).
(** [uart_received]. *)
Definition received (s : soc) : list Z :=
  let u := uart (bus (core (catch_up s))) in
  take (Z.to_nat (Uart.tx_complete_by (cycle (core s)) u)) (Uart.tx_bytes u).
Definition press (pressed : bool) (s : soc) : soc :=
  let c := core s in set_core (set_bus (set_gpio (Gpio.set_button (cycle c) pressed (gpio (bus c))) (bus c)) c) s.

(** ** The SoC's invariant *)

(** What a Hack instruction needs: all of the CPU's but that pc is a word's address. *)
Definition core_wf (c : cpu real_bus) : Prop := cpu_wf (set_pc 0 c).

Record soc_ok (l : Uart.history) (s : soc) : Prop := {
  so_cpu : core_wf (core s);
  so_pc : is_u32 (pc (core s)) /\ pc (core s) mod (if riscv_mode s then 4 else 2) = 0;
  so_live : Uart.live l (cycle (core s)) (uart (bus (core s)));
  so_pending : Gpio.pending (gpio (bus (core s))) = None
}.

(** The soft reset an access asked for, if one did: its pulse ends after the instruction. *)
Definition reset_after (c : Z) (b : real_bus) : Prop := match Gpio.pending (gpio b) with Some sr => c + 2 < Gpio.release sr | None => True end.

Lemma live_mmio_read l t addr b : Uart.live l t (uart b) -> Uart.live l (t + 2) (uart (mmio_read addr t b).2).
Proof.
  intros H. assert (Hl : Uart.live l (t + 2) (uart b)) by (apply (Uart.live_later l t); [done|lia]). unfold mmio_read. cbv zeta.
  destruct (_ =? PAGE_UART); [|destruct (_ && _); [done|]; destruct (_ =? PAGE_SD); [done|]; by destruct (_ =? PAGE_GPIO)].
  destruct (v03_mmio b).
  - destruct (Uart.legacy_read _ _ _ _) as [v u] eqn:E. apply (Uart.live_op l t (uart b) (Uart.ULegacyRead addr (t + 2)) _ v); [done|done|lia|]. cbn. by rewrite E.
  - destruct (Uart.read _ _ _ _) as [v u] eqn:E. apply (Uart.live_op l t (uart b) (Uart.URead addr (t + 2)) _ v); [done|done|lia|]. cbn. by rewrite E.
Qed.

Lemma live_mmio_write l t addr data edge b : Uart.live l t (uart b) -> t < edge -> Uart.live l edge (uart (mmio_write addr data edge b)).
Proof.
  intros H Ht. assert (Hl : Uart.live l edge (uart b)) by (apply (Uart.live_later l t); [done|lia]). unfold mmio_write. cbv zeta.
  destruct (_ =? PAGE_UART); [|destruct (_ && _); [by destruct (timer_page_reg addr)|]; destruct (_ =? PAGE_SD); [done|]; by destruct (_ =? PAGE_GPIO)].
  cbn. destruct (v03_mmio b).
  - by apply (Uart.live_op l t (uart b) (Uart.ULegacyWrite addr data edge) _ 0).
  - by apply (Uart.live_op l t (uart b) (Uart.UWrite addr data edge) _ 0).
Qed.

Lemma mmio_write_pending addr data edge b : Gpio.pending (gpio b) = None -> reset_after (edge + 10) (mmio_write addr data edge b).
Proof.
  intros H. unfold reset_after, mmio_write. cbv zeta. destruct (_ =? PAGE_UART); [cbn; by rewrite H|].
  destruct (_ && _); [destruct (timer_page_reg addr); cbn; by rewrite H|]. destruct (_ =? PAGE_SD); [cbn; by rewrite H|].
  destruct (_ =? PAGE_GPIO); [|by rewrite H]. cbn. unfold Gpio.write. cbv zeta. destruct (_ =? 0); [cbn; by rewrite H|].
  destruct (_ =? 8); [cbn; by rewrite H|]. destruct (_ && _); [|by rewrite H]. cbn. unfold Gpio.SOFT_RESET_PULSE. lia.
Qed.
Lemma mmio_read_gpio addr t b : gpio (mmio_read addr t b).2 = gpio b.
Proof.
  unfold mmio_read. cbv zeta. destruct (_ =? PAGE_UART); [by destruct (v03_mmio b); [destruct (Uart.legacy_read _ _ _ _)|destruct (Uart.read _ _ _ _)]|].
  destruct (_ && _); [done|]. destruct (_ =? PAGE_SD); [done|]. by destruct (_ =? PAGE_GPIO).
Qed.

Lemma live_read l t addr b : Uart.live l t (uart b) -> Uart.live l (t + 2) (uart (read_word addr t b).2) /\ gpio (read_word addr t b).2 = gpio b.
Proof.
  intros H. assert (Hl : Uart.live l (t + 2) (uart b)) by (apply (Uart.live_later l t); [done|lia]). unfold read_word. cbv zeta.
  destruct (_ =? 0); [done|]. destruct (_ && _); [done|]. destruct (_ =? 4); [|by destruct (in_xmem addr)].
  split; [by apply live_mmio_read|apply mmio_read_gpio].
Qed.

(** A store that asks for a soft reset waits for nothing. *)
Lemma live_write l t addr data be b w b' :
  write_word addr data be t b = (w, b') -> Uart.live l t (uart b) -> Gpio.pending (gpio b) = None ->
  0 <= w /\ Uart.live l (t + 2) (uart b') /\ reset_after (t + 2 + w + 10) b'.
Proof.
  intros Hw H Hp. assert (Hl : Uart.live l (t + 2) (uart b)) by (apply (Uart.live_later l t); [done|lia]).
  assert (H0 : forall c, reset_after c b) by (intros c; unfold reset_after; by rewrite Hp). unfold write_word in Hw. cbv zeta in Hw.
  destruct (_ && _); [destruct (Clint.write _ _ _ _ _) as [tm k]; injection Hw as <- <-; split_and!; try done; apply H0|].
  destruct (_ =? 4).
  - injection Hw as <- <-. split_and!; [done|apply (live_mmio_write l t); [done|lia]|]. rewrite Z.add_0_r. by apply mmio_write_pending.
  - destruct (in_xmem addr); [|injection Hw as <- <-; split_and!; try done; apply H0].
    destruct (window_access _ _ b) as [w1 b1] eqn:E. injection Hw as <- <-. apply window_access_spec in E as [-> Hw]. split_and!; [done|done|apply H0].
Qed.

Lemma load_wait_live addr b w b1 : rv_load_wait addr b = (w, b1) -> 0 <= w /\ uart b1 = uart b /\ gpio b1 = gpio b.
Proof. intros E. destruct (load_wait_kept addr b) as [Hb Hw]. cbn in E. rewrite E in Hb, Hw. cbn in Hb, Hw. split; [done|]. by rewrite Hb. Qed.

(** An RV32 instruction's accesses are in time for the UART. *)
Lemma effect_live l t b n b' :
  bus_effect t b n b' -> Uart.live l t (uart b) -> Gpio.pending (gpio b) = None ->
  2 <= n /\ Uart.live l (t + n) (uart b') /\ reset_after (t + n) b'.
Proof.
  intros He H Hp. assert (H0 : forall c, reset_after c b) by (intros c; unfold reset_after; by rewrite Hp).
  destruct He as [n Hn|addr w b1 v b2 E1 E2|addr data be w b1 E|addr w b1 v b2 data w' b3 E1 E2 E3].
  - split_and!; [lia|apply (Uart.live_later l t); [done|lia]|apply H0].
  - apply load_wait_live in E1 as (Hw & Hu & Hg). rewrite <- Hu in H. destruct (live_read l t addr b1 H) as [Hl Hg2]. cbn in E2. rewrite E2 in Hl, Hg2. cbn in Hl, Hg2.
    split_and!; [lia|apply (Uart.live_later l (t + 2)); [done|lia]|]. unfold reset_after. by rewrite Hg2, Hg, Hp.
  - destruct (live_write l t addr data be b w b1 E H Hp) as (Hw & Hl & Hr). split_and!; [lia|apply (Uart.live_later l (t + 2)); [done|lia]|].
    unfold reset_after in *. destruct (Gpio.pending (gpio b1)); [lia|done].
  - apply load_wait_live in E1 as (Hw & Hu & Hg). rewrite <- Hu in H. destruct (live_read l t addr b1 H) as [Hl Hg2]. cbn in E2. rewrite E2 in Hl, Hg2. cbn in Hl, Hg2.
    assert (Hl2 : Uart.live l (t + (3 + w)) (uart b2)) by (apply (Uart.live_later l (t + 2)); [done|lia]).
    destruct (live_write l (t + (3 + w)) addr data 15 b2 w' b3 E3 Hl2) as (Hw' & Hl' & Hr); [by rewrite Hg2, Hg|].
    split_and!; [lia|apply (Uart.live_later l (t + (3 + w) + 2)); [done|lia]|]. unfold reset_after in *. destruct (Gpio.pending (gpio b3)); [lia|done].
Qed.

(** ** A Hack instruction *)

(** The window's words that are not Hack's data. *)
Definition outside_data (i : Z) : Prop := ~ (0x8000 <= i < 0x8000 + 0x6000).

Lemma data_index a : 0 <= a < 0x6000 -> hack_data_index a = 0x8000 + a.
Proof.
  intros Ha. unfold hack_data_index, xmem_index, HACK_D_BASE, XMEM_WORDS. rewrite (land_mask a 15) by lia. rewrite Z.mod_small by lia.
  rewrite shiftl_mul by lia. rewrite (lor_add 0x80020000 (a * 2 ^ 2) 17) by (done || lia). rewrite shiftr_div by lia. rewrite (land_mask _ 21) by done. dlia.
Qed.
Lemma fetch_index pc : xmem_index (Z.lor HACK_I_BASE (Z.land pc 0xFFFF)) = (pc mod 2 ^ 16) / 4.
Proof.
  unfold xmem_index, HACK_I_BASE, XMEM_WORDS. rewrite (land_mask pc 16) by lia.
  rewrite (lor_add 0x80000000 (pc mod 2 ^ 16) 31) by (done || (pose proof (Z.mod_pos_bound pc (2 ^ 16)); lia)).
  rewrite shiftr_div by lia. rewrite (land_mask _ 21) by done. dlia.
Qed.

(** What an access leaves as it was, and the time it is done by. *)
Record accessed (l : Uart.history) (t t' : Z) (b b' : real_bus) : Prop := {
  ac_ok : real_ok b -> real_ok b'; ac_rom : rom_kept b b'; ac_xmem : forall i, outside_data i -> xmem b' i = xmem b i;
  ac_live : Uart.live l t (uart b) -> Uart.live l t' (uart b'); ac_pending : Gpio.pending (gpio b) = None -> reset_after (t' + 8) b'
}.

Lemma accessed_none l t t' b : t <= t' -> accessed l t t' b b.
Proof.
  intros Ht. constructor; try done; [intros H; by apply (Uart.live_later l t)|]. intros H. unfold reset_after. by rewrite H.
Qed.

(** The first access asks for no soft reset, so the second is what decides. *)
Lemma accessed_trans l t1 t2 t3 b1 b2 b3 :
  accessed l t1 t2 b1 b2 -> gpio b2 = gpio b1 -> accessed l t2 t3 b2 b3 -> accessed l t1 t3 b1 b3.
Proof.
  intros [A1 [A2 A2'] A3 A4 A5] Hg [B1 [B2 B2'] B3 B4 B5]. constructor; [by eauto|split; congruence|intros i Hi; by rewrite B3, A3|by eauto|].
  intros H. apply B5. by rewrite Hg.
Qed.

Lemma hack_read_spec l a t b v w b' : hack_read a t b = (v, w, b') -> real_ok b ->
  is_u32 v /\ 0 <= w /\ accessed l t (t + 2 + w) b b' /\ gpio b' = gpio b /\ xmem b' = xmem b.
Proof.
  assert (H0 : is_u32 0) by (unfold is_u32; lia). intros E Hb. unfold hack_read in E. cbv zeta in E. destruct (_ && _).
  - destruct (mmio_read_ok (hack_mmio (Z.land a 0xFFFF)) t b Hb) as (Hv & Hok & Hrom & Hx). pose proof (mmio_read_gpio (hack_mmio (Z.land a 0xFFFF)) t b) as Hg.
    pose proof (live_mmio_read l t (hack_mmio (Z.land a 0xFFFF)) b) as Hl. destruct (mmio_read _ _ _) as [v1 b1]. cbn [fst snd] in *. injection E as <- <- <-.
    split; [done|]. split; [done|]. split; [|done]. rewrite Z.add_0_r. constructor; try done; [by intros i _; rewrite Hx|]. intros H. unfold reset_after. by rewrite Hg, H.
  - destruct (_ <? 0x6000); [|injection E as <- <- <-; split; [done|]; split; [done|]; split; [apply accessed_none; lia|done]].
    destruct (window_access _ _ b) as [w1 b1] eqn:E1. injection E as <- <- <-. apply window_access_spec in E1 as [-> Hw]. split; [apply (ro_xmem _ Hb)|].
    split; [done|]. split; [|done]. constructor; try done; [apply set_caches_ok|intros H; apply (Uart.live_later l t); [done|lia]|]. intros H. unfold reset_after. cbn. by rewrite H.
Qed.

Lemma mmio_write_frame addr data edge b : rom_kept b (mmio_write addr data edge b) /\ xmem (mmio_write addr data edge b) = xmem b.
Proof.
  unfold mmio_write. cbv zeta. destruct (_ =? PAGE_UART); [done|]. destruct (_ && _); [by destruct (timer_page_reg addr)|].
  destruct (_ =? PAGE_SD); [done|]. by destruct (_ =? PAGE_GPIO).
Qed.

Lemma hack_write_spec l a v t edge b w b' : hack_write a v edge b = (w, b') -> is_u32 v -> t < edge ->
  0 <= w /\ accessed l t (edge + w) b b'.
Proof.
  intros E Hv Ht. unfold hack_write in E. cbv zeta in E. destruct (_ && _).
  - injection E as <- <-. split; [done|]. rewrite Z.add_0_r. set (addr := hack_mmio _). constructor.
    + intros H. by apply mmio_write_ok.
    + apply mmio_write_frame.
    + intros i _. by rewrite (proj2 (mmio_write_frame addr v edge b)).
    + intros H. by apply (live_mmio_write l t).
    + intros H. pose proof (mmio_write_pending addr v edge b H) as Hp. unfold reset_after in *.
      destruct (Gpio.pending (gpio (mmio_write addr v edge b))); [lia|done].
  - destruct (Z.ltb_spec (Z.land a 0xFFFF) 0x6000) as [Hlt|]; [|injection E as <- <-; split; [done|apply accessed_none; lia]].
    destruct (window_access _ _ b) as [w1 b1] eqn:E1. injection E as <- <-. apply window_access_spec in E1 as [-> Hw]. split; [done|].
    rewrite data_index in *; [|split; [rewrite (land_mask a 16) by done; dlia|done]..].
    assert (Ha : 0 <= Z.land a 0xFFFF) by (rewrite (land_mask a 16) by done; dlia).
    constructor; try done.
    + intros []. constructor; cbn; try done. by apply put_word_u32.
    + intros i Hi. cbn. unfold put_word. destruct (Z.eqb_spec i (0x8000 + Z.land a 0xFFFF)); [|done]. exfalso. apply Hi. lia.
    + intros H. apply (Uart.live_later l t); [done|lia].
    + intros H. unfold reset_after. cbn. by rewrite H.
Qed.

Lemma hack_out_u32 comp d y : is_u32 d -> is_u32 y -> is_u32 (Emu.hack_out comp d y).
Proof.
  intros Hd Hy. unfold Emu.hack_out. repeat match goal with |- context [if ?c then _ else _] => destruct c end;
    first [done | apply u32_range | by apply land_u32 | by apply lor_u32 | by apply lxor_u32 | unfold is_u32; lia].
Qed.

Lemma core_wf_write_rd rd v s r : core_wf s -> 0 <= rd < 32 -> is_u32 v -> core_wf (write_rd rd v (s, r)).1.
Proof.
  intros H Hr Hv. pose proof (write_rd_wf rd v (set_pc 0 s, r) H Hr Hv) as Hw. unfold core_wf, write_rd in *. by destruct (rd =? 0).
Qed.
Lemma core_wf_bus b s : core_wf s -> real_ok b -> core_wf (set_bus b s).
Proof. intros [] Hb. by constructor. Qed.
Lemma core_wf_pc v s : core_wf s -> core_wf (set_pc v s).
Proof. done. Qed.
Lemma core_wf_xr n s : core_wf s -> is_u32 (xr n s).
Proof. intros H. apply (xr_range n (set_pc 0 s) H). Qed.
Lemma write_rd_keeps rd v (s : cpu real_bus) r : pc (write_rd rd v (s, r)).1 = pc s /\ bus (write_rd rd v (s, r)).1 = bus s /\ cycle (write_rd rd v (s, r)).1 = cycle s.
Proof. unfold write_rd. by destruct (rd =? 0). Qed.

(** What a Hack instruction leaves of the machine it started on. *)
Record hack_done (l : Uart.history) (s : cpu real_bus) (o : outcome real_bus) : Prop := {
  hd_wf : core_wf o.1; hd_pc : is_u32 (pc o.1) /\ pc o.1 mod 2 = 0; hd_cycle : cycle o.1 = cycle s; hd_cost : 2 <= r_cycles o.2;
  hd_rom : rom_kept (bus s) (bus o.1); hd_xmem : forall i, outside_data i -> xmem (bus o.1) i = xmem (bus s) i;
  hd_live : Uart.live l (cycle s) (uart (bus s)) -> Uart.live l (cycle s + r_cycles o.2) (uart (bus o.1));
  hd_pending : Gpio.pending (gpio (bus s)) = None -> reset_after (cycle s + r_cycles o.2) (bus o.1)
}.

Lemma accessed_later l t t1 t2 b b' : accessed l t t1 b b' -> t1 <= t2 <= t1 + 8 ->
  (real_ok b -> real_ok b') /\ rom_kept b b' /\ (forall i, outside_data i -> xmem b' i = xmem b i) /\
  (Uart.live l t (uart b) -> Uart.live l t2 (uart b')) /\ (Gpio.pending (gpio b) = None -> reset_after t2 b').
Proof.
  intros [A1 A2 A3 A4 A5] Ht. split; [done|]. split; [done|]. split; [done|]. split; [intros H; apply (Uart.live_later l t1); [by apply A4|lia]|].
  intros H. specialize (A5 H). unfold reset_after in *. destruct (Gpio.pending (gpio b')); [lia|done].
Qed.
Lemma even_u32 x : x mod 2 = 0 -> is_u32 (Emu.u32 x) /\ Emu.u32 x mod 2 = 0.
Proof. intros H. split; [apply u32_range|]. unfold Emu.u32. dlia. Qed.

(** What [hack_c] keeps; [t] is the time its last access is done by. *)
Record c_part (l : Uart.history) (t : Z) (s s' : cpu real_bus) : Prop := {
  cp_wf : core_wf s'; cp_pc : pc s' = pc s; cp_cycle : cycle s' = cycle s; cp_bus : accessed l (cycle s) t (bus s) (bus s')
}.
Lemma c_part_rd l t s s' rd v r : c_part l t s s' -> 0 <= rd < 32 -> is_u32 v -> c_part l t s (write_rd rd v (s', r)).1.
Proof.
  intros [P1 P2 P3 P4] Hr Hv. destruct (write_rd_keeps rd v s' r) as (K1 & K2 & K3). constructor; [by apply core_wf_write_rd|congruence|congruence|by rewrite K2].
Qed.

(** The registers written at the end. *)
Lemma c_part_dest l t s s' out r (to_a to_d : bool) : c_part l t s s' -> is_u32 out ->
  c_part l t s (let '(s', r) := if to_a then write_rd 1 out (s', r) else (s', r) in
    if to_d then (write_rd 2 out (s', r)).1 else s').
Proof.
  intros H Ho. assert (H1 : c_part l t s (if to_a then write_rd 1 out (s', r) else (s', r)).1) by (destruct to_a; [by apply c_part_rd|done]).
  destruct (if to_a then _ else _) as [s1 r1]. destruct to_d; [by apply c_part_rd|done].
Qed.

Lemma hack_c_done l ins s r : core_wf s -> pc s mod 2 = 0 -> hack_done l s (hack_c ins (s, r)).1.
Proof.
  intros Hwf Hpc. pose proof (wf_bus _ Hwf) as Hb. cbn in Hb. unfold hack_c. cbv zeta.
  set (a := xr 1 s). set (d := xr 2 s). set (comp := Z.land (Z.shiftr ins 6) 0x3F). set (dest := Z.land (Z.shiftr ins 3) 7). set (jump := Z.land ins 7).
  set (use_mem := _ && uses_y comp). set (t := cycle s). assert (Ha : is_u32 a) by apply (core_wf_xr 1 s Hwf).
  assert (H1 : exists y w b, (if use_mem then hack_read a t (bus s) else (a, 0, bus s)) = (y, w, b) /\ is_u32 y /\ 0 <= w /\
    accessed l t (if use_mem then t + 2 + w else t) (bus s) b /\ gpio b = gpio (bus s)).
  { destruct use_mem.
    - destruct (hack_read a t (bus s)) as [[y w] b] eqn:E. destruct (hack_read_spec l a t (bus s) y w b E Hb) as (? & ? & ? & ? & _). by exists y, w, b.
    - exists a, 0, (bus s). split; [done|]. split; [done|]. split; [done|]. split; [apply accessed_none; lia|done]. }
  destruct H1 as (y & w & b & -> & Hy & Hw & Hacc & Hg). set (out := Emu.hack_out comp d y).
  assert (Ho : is_u32 out) by (apply hack_out_u32; [apply (core_wf_xr 2 s Hwf)|done]).
  set (t1 := if use_mem then t + 2 + w else t) in *. set (edge := if use_mem then t + 3 + w else t + 1).
  assert (Hedge : edge = t1 + 1) by (unfold edge, t1; destruct use_mem; lia). assert (Ht1 : t <= t1) by (unfold t1; destruct use_mem; lia).
  set (st := if negb (Z.land dest 1 =? 0) then _ else _).
  assert (H2 : exists ww s1 r1, st = (ww, s1, r1) /\ 0 <= ww /\ c_part l (edge + ww) s s1).
  { unfold st. destruct (negb (Z.land dest 1 =? 0)).
    - destruct (hack_write a out edge (bus (set_bus b s))) as [ww b2] eqn:E. cbn [bus set_bus] in E.
      destruct (hack_write_spec l a out t1 edge b ww b2 E Ho ltac:(lia)) as [Hww Hacc2]. eexists ww, _, _. split; [done|]. split; [done|].
      constructor; cbn; try done; [apply core_wf_bus, (ac_ok _ _ _ _ _ Hacc2), (ac_ok _ _ _ _ _ Hacc), Hb; by apply core_wf_bus, (ac_ok _ _ _ _ _ Hacc)|].
      by apply (accessed_trans l t t1 _ (bus s) b b2).
    - eexists 0, _, _. split; [done|]. split; [done|]. constructor; cbn; try done; [by apply core_wf_bus, (ac_ok _ _ _ _ _ Hacc)|].
      apply (accessed_trans l t t1 _ (bus s) b b); [done|done|]. apply accessed_none. lia. }
  destruct H2 as (ww & s1 & r1 & -> & Hww & Hc).
  pose proof (c_part_dest l (edge + ww) s s1 out r1 (negb (Z.land dest 4 =? 0)) (negb (Z.land dest 2 =? 0)) Hc Ho) as Hd.
  set (to_a := negb (Z.land dest 4 =? 0)) in *. set (to_d := negb (Z.land dest 2 =? 0)) in *.
  destruct (if to_a then write_rd 1 out (s1, r1) else (s1, r1)) as [s2 r2].
  assert (H3 : exists s3 r3 rd2, (if to_d then if to_a then ((write_rd 2 out (s2, r2)).1, r2, Some (2, out)) else (write_rd 2 out (s2, r2), None)
      else (s2, r2, None)) = (s3, r3, rd2) /\ c_part l (edge + ww) s s3).
  { destruct to_d; [|by eexists _, _, _]. destruct to_a; [by eexists _, _, _|]. destruct (write_rd 2 out (s2, r2)) as [s3 r3]. by eexists _, _, _. }
  destruct H3 as (s3 & r3 & rd2 & -> & [P1 P2 P3 P4]).
  set (take := hack_take jump out). set (n := 2 + (if use_mem then 2 + w else 0) + ww + (if Z.land dest 6 =? 6 then 1 else 0)).
  assert (Hn : edge + ww <= t + n <= edge + ww + 8 /\ 2 <= n) by (unfold n, edge; destruct use_mem, (_ =? 6); lia).
  destruct (accessed_later _ _ _ (t + n) _ _ P4 ltac:(lia)) as (A1 & A2 & A3 & A4 & A5).
  cbn [fst snd]. constructor; cbn [fst snd r_cycles r_set_cycles pc set_pc cycle bus].
  - by apply core_wf_pc.
  - rewrite P2. destruct (negb (jump =? 0) && take); apply even_u32; [rewrite shiftl_mul by lia|]; dlia.
  - done.
  - lia.
  - done.
  - done.
  - done.
  - done.
Qed.

Lemma step_hack_done l word s r : core_wf s -> pc s mod 2 = 0 -> hack_done l s (step_hack word (s, r)).1.
Proof.
  intros Hwf Hpc. unfold step_hack. cbv zeta. destruct (_ =? 0); [|by apply hack_c_done].
  set (ins := if negb _ then _ else _). set (r1 := r_set_instr ins r). assert (Hv : is_u32 (Z.land ins 0x7FFF)).
  { rewrite (land_mask ins 15) by done. unfold is_u32. dlia. }
  destruct (write_rd_keeps 1 (Z.land ins 0x7FFF) s r1) as (K1 & K2 & K3). pose proof (core_wf_write_rd 1 (Z.land ins 0x7FFF) s r1 Hwf ltac:(lia) Hv) as Hw.
  destruct (write_rd 1 (Z.land ins 0x7FFF) (s, r1)) as [s1 r2]. cbn [fst snd] in *. assert (Hp : (pc s + 2) mod 2 = 0) by dlia. destruct (even_u32 _ Hp).
  constructor; cbn; rewrite ?K2; try done. + intros H1. apply (Uart.live_later l (cycle s)); [done|lia]. + intros H1. unfold reset_after. by rewrite H1.
Qed.

(** ** A step of the SoC *)

Lemma read_word_frame addr t b : rom_kept b (read_word addr t b).2.
Proof.
  unfold read_word. cbv zeta. destruct (_ =? 0); [done|]. destruct (_ && _); [done|]. destruct (_ =? 4); [|by destruct (in_xmem addr)].
  unfold mmio_read. cbv zeta. destruct (_ =? PAGE_UART); [by destruct (v03_mmio b) eqn:E; [destruct (Uart.legacy_read _ _ _ _)|destruct (Uart.read _ _ _ _)]|].
  destruct (_ && _); [done|]. destruct (_ =? PAGE_SD); [done|]. by destruct (_ =? PAGE_GPIO).
Qed.
Lemma write_word_frame addr data be t b : rom_kept b (write_word addr data be t b).2.
Proof.
  unfold write_word. cbv zeta. destruct (_ && _); [by destruct (Clint.write _ _ _ _ _)|].
  destruct (_ =? 4); [apply mmio_write_frame|]. destruct (in_xmem addr); [|done]. destruct (window_access _ _ b) as [w b'] eqn:E.
  by apply window_access_spec in E as [-> _].
Qed.

(** Nothing an instruction does writes the ROM. *)
Lemma effect_rom t b n b' : bus_effect t b n b' -> rom_kept b b'.
Proof.
  assert (Ht : forall b1 b2 b3, rom_kept b1 b2 -> rom_kept b2 b3 -> rom_kept b1 b3) by (intros b1 b2 b3 [] []; split; congruence).
  assert (Hl : forall addr w b1, rv_load_wait addr b = (w, b1) -> rom_kept b b1).
  { intros addr w b1 E. destruct (load_wait_kept addr b) as [Hb _]. cbn in E. rewrite E in Hb. cbn in Hb. by rewrite Hb. }
  assert (Hr : forall addr t v b1 b2, rv_read_word addr t b1 = (v, b2) -> rom_kept b1 b2).
  { intros addr t' v b1 b2 E. pose proof (read_word_frame addr t' b1) as H. cbn in E. by rewrite E in H. }
  assert (Hw : forall addr data be t w b1 b2, rv_write addr data be t b1 = (w, b2) -> rom_kept b1 b2).
  { intros addr data be t' w b1 b2 E. pose proof (write_word_frame addr data be t' b1) as H. cbn in E. by rewrite E in H. }
  intros He. destruct He as [n Hn|addr w b1 v b2 E1 E2|addr data be w b1 E|addr w b1 v b2 data w' b3 E1 E2 E3]; [done| |by eapply Hw|].
  - apply (Ht b b1 b2); [by eapply Hl|by eapply Hr].
  - apply (Ht b b1 b3); [by eapply Hl|]. apply (Ht b1 b2 b3); [by eapply Hr|by eapply Hw].
Qed.

(** What a step leaves before the soft reset it may have asked for. *)
Record stepped_to (l : Uart.history) (riscv : bool) (s s' : cpu real_bus) : Prop := {
  sp_wf : core_wf s'; sp_pc : is_u32 (pc s') /\ pc s' mod (if riscv then 4 else 2) = 0; sp_cycle : cycle s + 2 <= cycle s';
  sp_live : Uart.live l (cycle s') (uart (bus s')); sp_pending : reset_after (cycle s') (bus s'); sp_rom : rom_kept (bus s) (bus s');
  sp_xmem : riscv = false -> forall i, outside_data i -> xmem (bus s') i = xmem (bus s) i
}.

Lemma rv_fetch_frame pc b : gpio (rv_fetch pc b).2 = gpio b /\ uart (rv_fetch pc b).2 = uart b.
Proof.
  unfold rv_fetch. destruct (in_xmem pc); [|done]. destruct (window_fetch _ _) as [[w k] b'] eqn:E. by apply window_fetch_spec in E as (-> & _ & _).
Qed.
Lemma core_wf_cpu s : core_wf s -> word_aligned (pc s) -> cpu_wf s.
Proof. intros [W1 W2 W3 W4 W5 W6 W7] Hpc. constructor; assumption. Qed.
Lemma cpu_wf_core s : cpu_wf s -> core_wf s.
Proof. intros [W1 W2 W3 W4 W5 W6 W7]. constructor; try assumption. split; [unfold is_u32; cbn; lia|done]. Qed.

Lemma rv_stepped l s : core_wf s -> word_aligned (pc s) -> Uart.live l (cycle s) (uart (bus s)) -> Gpio.pending (gpio (bus s)) = None ->
  stepped_to l true s (step s).1.
Proof.
  intros Hwf Hpc Hl Hp. pose proof (step_keeps s (core_wf_cpu s Hwf Hpc)) as Hk.
  pose proof (step_effect s) as He. change (fetch (pc s) (bus s)) with (rv_fetch (pc s) (bus s)) in He. pose proof (rv_fetch_spec (pc s) (bus s)) as (F1 & _ & _ & Fw).
  pose proof (rv_fetch_frame (pc s) (bus s)) as Fg.
  destruct (rv_fetch (pc s) (bus s)) as [[word wait] b]. cbn [fst snd] in *. destruct Fg as [Fg Fu]. destruct He as (n & Hn & Hcy & He).
  assert (Hl' : Uart.live l (cycle s + wait) (uart b)) by (rewrite Fu; apply (Uart.live_later l (cycle s)); [done|lia]).
  destruct (effect_live l _ _ _ _ He Hl' ltac:(by rewrite Fg)) as (H2 & Hlive & Hr). constructor.
  - by apply cpu_wf_core.
  - exact (wf_pc _ Hk).
  - lia.
  - by rewrite Hcy.
  - by rewrite Hcy.
  - pose proof (effect_rom _ _ _ _ He) as [R1 R2]. destruct F1 as [F1 F1']. split; [rewrite R1; exact F1|rewrite R2; exact F1'].
  - intros Hx. discriminate Hx.
Qed.

Lemma hack_stepped l s : core_wf s -> is_u32 (pc s) /\ pc s mod 2 = 0 -> Uart.live l (cycle s) (uart (bus s)) -> Gpio.pending (gpio (bus s)) = None ->
  stepped_to l false s (hack_step s).1.1.
Proof.
  intros Hwf [_ Hpc] Hl Hp. unfold hack_step. destruct (hack_fetch (pc s) (bus s)) as [[word wait] b] eqn:E.
  unfold hack_fetch in E. apply window_fetch_spec in E as (Hb & Hw & _). rewrite Hb. clear Hb. set (b1 := set_caches (caches b) (bus s)).
  set (s1 := set_csr _ _). set (r0 := mkRetire _ _ _ _ _ _ _ _).
  assert (H1 : core_wf s1).
  { destruct Hwf as [W1 W2 W3 W4 W5 W6 W7]. constructor; try done; [apply set_mcycle_wf; [apply u64_range|done]|by apply set_caches_ok]. }
  pose proof (step_hack_done l word s1 r0 H1 Hpc) as Hd. destruct (step_hack word (s1, r0)) as [[s2 r2] rd2]. cbn [fst snd] in *.
  destruct Hd as [D1 D2 D3 D4 D5 D6 D7 D8]. cbn [fst snd] in *. change (cycle s1) with (cycle s + wait) in *. change (uart (bus s1)) with (uart (bus s)) in *.
  assert (Hl1 : Uart.live l (cycle s + wait) (uart (bus s))) by (apply (Uart.live_later l (cycle s)); [done|lia]). specialize (D7 Hl1). specialize (D8 Hp).
  assert (Hmc : core_wf (match mcycle_written s2 with
    | Some v => set_mcycle_written None (set_csr (set_mcycle v (csr s2)) s2)
    | None => set_csr (set_mcycle (u64 (mcycle (csr s2) + r_cycles r2)) (csr s2)) s2 end)).
  { destruct D1 as [W1 W2 W3 W4 W5 W6 W7]. cbn in *. destruct (mcycle_written s2) as [v|] eqn:Em.
    - constructor; try done. by apply set_mcycle_wf.
    - constructor; try done; [apply set_mcycle_wf; [apply u64_range|done]|]. cbn. by rewrite Em. }
  constructor; cbn [cycle set_cycle].
  - destruct Hmc. by constructor.
  - by destruct (mcycle_written s2).
  - destruct (mcycle_written s2); cbn; lia.
  - destruct (mcycle_written s2); cbn; rewrite D3; done.
  - destruct (mcycle_written s2); cbn; rewrite D3; done.
  - by destruct (mcycle_written s2).
  - intros _. by destruct (mcycle_written s2).
Qed.

Lemma soc_step_ok l s : soc_ok l s ->
  let s' := (soc_step s).1 in
  soc_ok l s' /\ cycle (core s) + 2 <= cycle (core s') /\ rom_kept (bus (core s)) (bus (core s')) /\
  (riscv_mode s = false -> forall i, outside_data i -> xmem (bus (core s')) i = xmem (bus (core s)) i).
Proof.
  intros [H1 H2 H3 H4] s'. unfold s', soc_step.
  assert (Hs : stepped_to l (riscv_mode s) (core s) (if riscv_mode s then (step (core s), None) else hack_step (core s)).1.1).
  { destruct (riscv_mode s); [apply rv_stepped|apply hack_stepped]; try done; by split. }
  destruct (if riscv_mode s then (step (core s), None) else hack_step (core s)) as [[c r] rd2]. cbn [fst snd] in Hs. destruct Hs as [S1 S2 S3 S4 S5 S6 S7].
  cbn [Gpio.take_soft_reset fst snd]. set (g := Gpio.mkGpio _ _ _ _ _ _ _). set (b := set_gpio g (bus c)).
  assert (Hb : real_ok b) by (destruct (wf_bus _ S1); by constructor). unfold reset_after in S5. destruct (Gpio.pending (gpio (bus c))) as [sr|].
  - assert (Hu : Uart.live l (Gpio.release sr) (Uart.uart_soft_reset Uart.advance (Gpio.release sr - 1) (uart b))).
    { apply (Uart.live_later l (Gpio.release sr - 1)); [|lia]. eapply (Uart.live_op l (cycle c) (uart b) (Uart.USoftReset (Gpio.release sr - 1))); [done|done|lia|done]. }
    refine (conj _ (conj _ (conj S6 S7))); [|cbn; lia]. constructor; [|split; [unfold is_u32; cbn; lia|cbn; by destruct (default true _)]|exact Hu|reflexivity].
    destruct S1 as [W1 W2 W3 W4 W5 W6 W7]. constructor; try done. destruct Hb as [B1 B2 B3 B4 B5]. constructor; try done.
    cbn. apply queue_bytes; [cbn; lia|]. by apply advance_bytes.
  - refine (conj _ (conj S3 (conj S6 S7))). constructor; [by apply core_wf_bus|done|done|done].
Qed.

(** ** The Hack machine *)

(** The machine of nand2tetris: 16-bit registers A and D, a 15-bit program counter and a RAM,
    here up to 0x6000; [hack_ref] has no step at an undefined comp, at M elsewhere (the board's
    MMIO), or past the program. *)
Record hack := mkHack { hA : Z; hD : Z; hPC : Z; hRAM : Z -> Z }.

Definition comp_of (c : Z) : option (Z -> Z -> Z) := snd <$> List.find (fun cf => fst cf =? c) HACK_COMP.

Definition u16 (x : Z) : Z := x mod 2 ^ 16.
(** Its jumps, on the comp's 16-bit result read as signed. *)
Definition jumps (j out : Z) : bool :=
  let v := if out <? 2 ^ 15 then out else out - 2 ^ 16 in
  (Z.testbit j 2 && (v <? 0)) || (Z.testbit j 1 && (v =? 0)) || (Z.testbit j 0 && (0 <? v)).

Definition hack_ref (prog : Z -> option Z) (h : hack) : option hack :=
  ins ← prog (hPC h);
  let next := (hPC h + 1) mod 2 ^ 15 in
  if ins <? 2 ^ 15 then Some (mkHack ins (hD h) next (hRAM h))
  else
    f ← comp_of (ins / 2 ^ 6 mod 2 ^ 6);
    let uses_m := Z.testbit ins 12 || Z.testbit ins 3 in
    if uses_m && (0x6000 <=? hA h) then None
    else
      let out := u16 (f (hD h) (if Z.testbit ins 12 then hRAM h (hA h) else hA h)) in
      Some (mkHack (if Z.testbit ins 5 then out else hA h) (if Z.testbit ins 4 then out else hD h)
        (if jumps (ins mod 8) out then hA h mod 2 ^ 15 else next)
        (if Z.testbit ins 3 then put_word (hRAM h) (hA h) out else hRAM h)).
Fixpoint hack_refs (n : nat) (prog : Z -> option Z) (h : hack) : option hack :=
  match n with O => Some h | S n => h ← hack_ref prog h; hack_refs n prog h end.

(** The instructions of a Hack image, and the window holding them. *)
Definition instruction (bs : bytes) (k : Z) : option Z :=
  c0 ← bs !! Z.to_nat (2 * k); c1 ← bs !! Z.to_nat (2 * k + 1); Some (2 ^ 8 * byte.unsigned c0 + byte.unsigned c1).
Definition hack_word_at (m : mem) (k : Z) : Z := if k mod 2 =? 1 then m (k / 2) / 2 ^ 16 else u16 (m (k / 2)).
Definition holds (prog : Z -> option Z) (m : mem) : Prop := forall k i, 0 <= k < 2 ^ 15 -> prog k = Some i -> hack_word_at m k = i /\ 0 <= i < 2 ^ 16.

(** The emulator's machine shows the 16-bit one in its low halves. *)
Record shows (s : soc) (h : hack) : Prop := {
  sh_mode : riscv_mode s = false; sh_A : u16 (xr 1 (core s)) = hA h; sh_D : u16 (xr 2 (core s)) = hD h;
  sh_PC : u16 (pc (core s)) / 2 = hPC h; sh_RAM : forall a, 0 <= a < 0x6000 -> u16 (xmem (bus (core s)) (0x8000 + a)) = hRAM h a
}.

Lemma u16_bits x i : 0 <= i -> Z.testbit (u16 x) i = (i <? 16) && Z.testbit x i.
Proof.
  intros Hi. unfold u16. destruct (Z.ltb_spec i 16); [by rewrite Z.mod_pow2_bits_low by lia|by rewrite Z.mod_pow2_bits_high by lia].
Qed.
Lemma u16_bitwise (op : Z -> Z -> Z) (g : bool -> bool -> bool) x y :
  (forall a b i, 0 <= i -> Z.testbit (op a b) i = g (Z.testbit a i) (Z.testbit b i)) -> u16 (op (u16 x) (u16 y)) = u16 (op x y).
Proof.
  intros Hop. apply Z.bits_inj'. intros i Hi. rewrite !u16_bits, !Hop, !u16_bits by done. by destruct (i <? 16).
Qed.

(** A comp of 32-bit operands is, in its low half, the comp of their low halves. *)
Lemma comp_low c f d y : (c, f) ∈ HACK_COMP -> u16 (f (u16 d) (u16 y)) = u16 (f d y).
Proof.
  intros H. unfold HACK_COMP in H.
  repeat (apply elem_of_cons in H as [[= -> ->] | H]; [first [reflexivity
    | apply (u16_bitwise Z.land andb); intros; apply Z.land_spec | apply (u16_bitwise Z.lor orb); intros; apply Z.lor_spec
    | apply (u16_bitwise Z.lxor xorb); intros; apply Z.lxor_spec | unfold u16, Z.lnot; dlia]|]).
  by apply not_elem_of_nil in H.
Qed.
(** The comps that don't read Y don't depend on it. *)
Lemma comp_no_y c f d y y' : (c, f) ∈ HACK_COMP -> uses_y c = false -> f d y = f d y'.
Proof.
  intros H Hu. unfold HACK_COMP in H. repeat (apply elem_of_cons in H as [[= -> ->] | H]; [first [reflexivity | discriminate Hu]|]).
  by apply not_elem_of_nil in H.
Qed.
Lemma comp_of_spec c f : comp_of c = Some f -> (c, f) ∈ HACK_COMP.
Proof.
  unfold comp_of. intros H. destruct (List.find _ HACK_COMP) as [[c' f']|] eqn:E; cbn in H; simplify_eq.
  apply List.find_some in E as [E1 E2]. cbn in E2. apply Z.eqb_eq in E2 as ->. by apply list_elem_of_In.
Qed.

Lemma land_bit x k m : 0 <= k -> m = 2 ^ k -> negb (Z.land x m =? 0) = Z.testbit x k.
Proof.
  intros Hk ->. destruct (Z.testbit x k) eqn:E; [apply negb_true_iff, Z.eqb_neq|apply negb_false_iff, Z.eqb_eq].
  - intros H. apply (f_equal (fun z => Z.testbit z k)) in H. rewrite Z.land_spec, Z.pow2_bits_true, E, Z.bits_0 in H by done. done.
  - apply Z.bits_inj'. intros i Hi. rewrite Z.land_spec, Z.bits_0, Z.pow2_bits_eqb by done. destruct (Z.eqb_spec k i) as [->|]; [by rewrite E|by rewrite andb_false_r].
Qed.
Lemma field_bit ins s n k : 0 <= s -> 0 <= k < n -> Z.testbit (Z.land (Z.shiftr ins s) (2 ^ n - 1)) k = Z.testbit ins (s + k).
Proof.
  intros Hs Hk. rewrite (land_mask _ n) by lia. rewrite Z.mod_pow2_bits_low, Z.shiftr_spec by lia. f_equal. lia.
Qed.

(** A jump's condition is the 16-bit machine's. *)
Lemma hack_take_jumps ins out : hack_take (Z.land ins 7) out = jumps (ins mod 8) (u16 out).
Proof.
  rewrite (land_mask ins 3) by lia. change (2 ^ 3) with 8. unfold hack_take. rewrite (land_mask out 16) by lia. fold (u16 out).
  assert (Hu : 0 <= u16 out < 2 ^ 16) by (unfold u16; dlia). rewrite (land_bit (u16 out) 15) by lia.
  assert (Hn : Z.testbit (u16 out) 15 = negb (u16 out <? 2 ^ 15)).
  { apply eq_bool_prop_intro. rewrite Is_true_true, Z.testbit_true by lia. rewrite Is_true_true, negb_true_iff, Z.ltb_ge. split; intros; dlia. }
  rewrite Hn. unfold jumps. set (v := u16 out) in *. clearbody v.
  assert (Hj : ins mod 8 = 0 \/ ins mod 8 = 1 \/ ins mod 8 = 2 \/ ins mod 8 = 3 \/ ins mod 8 = 4 \/ ins mod 8 = 5 \/ ins mod 8 = 6 \/ ins mod 8 = 7) by dlia.
  destruct (Z.ltb_spec v (2 ^ 15)) as [Hv|Hv]; repeat destruct Hj as [-> | Hj]; try rewrite Hj;
    change (Z.testbit 0 ?i) with false; repeat match goal with |- context [Z.testbit (Zpos ?p) ?i] => let b := eval vm_compute in (Z.testbit (Zpos p) i) in change (Z.testbit (Zpos p) i) with b end;
    cbn [Z.eqb Pos.eqb negb andb orb]; repeat match goal with |- context [?a =? ?b] => destruct (Z.eqb_spec a b) | |- context [?a <? ?b] => destruct (Z.ltb_spec a b) end;
    cbn [negb andb orb]; try reflexivity; lia.
Qed.

(** Hack's data below the MMIO. *)
Lemma hack_read_ram a t b : u16 a < 0x6000 ->
  exists w b', hack_read a t b = (xmem b (0x8000 + u16 a), w, b') /\ xmem b' = xmem b /\ gpio b' = gpio b.
Proof.
  intros Ha. unfold hack_read. rewrite (land_mask a 16) by lia. fold (u16 a). rewrite (proj2 (Z.leb_gt _ _)), (proj2 (Z.ltb_lt (u16 a) 0x6000)) by lia. cbn [andb].
  assert (Hu : 0 <= u16 a) by (unfold u16; dlia). destruct (window_access _ _ b) as [w b'] eqn:E. apply window_access_spec in E as [-> _].
  rewrite data_index by lia. by eexists _, _.
Qed.
Lemma hack_write_ram a v e b : u16 a < 0x6000 ->
  exists w b', hack_write a v e b = (w, b') /\ xmem b' = put_word (xmem b) (0x8000 + u16 a) v /\ gpio b' = gpio b.
Proof.
  intros Ha. unfold hack_write. rewrite (land_mask a 16) by lia. fold (u16 a). rewrite (proj2 (Z.leb_gt _ _)), (proj2 (Z.ltb_lt (u16 a) 0x6000)) by lia. cbn [andb].
  assert (Hu : 0 <= u16 a) by (unfold u16; dlia). destruct (window_access _ _ b) as [w b'] eqn:E. apply window_access_spec in E as [-> _].
  rewrite data_index by lia. by eexists _, _.
Qed.

(** Registers A and D after the writes at the end. *)
Lemma xr_dest out (s : cpu real_bus) r (to_a to_d : bool) : length (regs s) = 32%nat ->
  let '(s1, r1) := if to_a then write_rd 1 out (s, r) else (s, r) in
  let s2 := if to_d then (write_rd 2 out (s1, r1)).1 else s1 in
  xr 1 s2 = (if to_a then out else xr 1 s) /\ xr 2 s2 = (if to_d then out else xr 2 s) /\ pc s2 = pc s /\ bus s2 = bus s.
Proof.
  intros Hl. pose proof (xr_write_rd 1 1 out (s, r) ltac:(lia) ltac:(lia) Hl) as A1. pose proof (xr_write_rd 2 1 out (s, r) ltac:(lia) ltac:(lia) Hl) as A2.
  cbn [fst negb andb Z.eqb Pos.eqb] in A1, A2. destruct to_a.
  - assert (Hl1 : length (regs (write_rd 1 out (s, r)).1) = 32%nat) by (cbn; by rewrite length_insert).
    destruct (write_rd_keeps 1 out s r) as (P1 & P2 & _). destruct (write_rd 1 out (s, r)) as [s1 r1]. cbn [fst] in *.
    pose proof (xr_write_rd 1 2 out (s1, r1) ltac:(lia) ltac:(lia) Hl1) as B1. pose proof (xr_write_rd 2 2 out (s1, r1) ltac:(lia) ltac:(lia) Hl1) as B2.
    cbn [fst negb andb Z.eqb Pos.eqb] in B1, B2.
    destruct (write_rd_keeps 2 out s1 r1) as (Q1 & Q2 & _). destruct to_d; [|by rewrite A1, A2, P1, P2]. by rewrite B1, B2, Q1, Q2, A1, P1, P2.
  - cbv zeta iota beta. pose proof (xr_write_rd 1 2 out (s, r) ltac:(lia) ltac:(lia) Hl) as B1. pose proof (xr_write_rd 2 2 out (s, r) ltac:(lia) ltac:(lia) Hl) as B2.
    cbn [fst negb andb Z.eqb Pos.eqb] in B1, B2. destruct (write_rd_keeps 2 out s r) as (Q1 & Q2 & _). destruct to_d; [|done]. by rewrite B1, B2, Q1, Q2.
Qed.

(** What a C-instruction that stays in the RAM leaves. *)
Lemma hack_c_ram ins s r :
  length (regs s) = 32%nat -> (Z.testbit ins 12 || Z.testbit ins 3 = true -> u16 (xr 1 s) < 0x6000) ->
  let a := xr 1 s in
  let comp := Z.land (Z.shiftr ins 6) 0x3F in
  let out := Emu.hack_out comp (xr 2 s) (if Z.testbit ins 12 && uses_y comp then xmem (bus s) (0x8000 + u16 a) else a) in
  let jump := Z.land ins 7 in
  let s' := (hack_c ins (s, r)).1.1 in
  xr 1 s' = (if Z.testbit ins 5 then out else a) /\ xr 2 s' = (if Z.testbit ins 4 then out else xr 2 s) /\
  pc s' = (if negb (jump =? 0) && hack_take jump out then Emu.u32 (Z.shiftl a 1) else Emu.u32 (pc s + 2)) /\
  xmem (bus s') = (if Z.testbit ins 3 then put_word (xmem (bus s)) (0x8000 + u16 a) out else xmem (bus s)) /\
  gpio (bus s') = gpio (bus s).
Proof.
  intros Hl Ha a comp out jump. unfold hack_c. cbv zeta. rewrite (land_bit ins 12) by done.
  assert (Hb : forall k m, 0 <= k < 3 -> m = 2 ^ k -> negb (Z.land (Z.land (Z.shiftr ins 3) 7) m =? 0) = Z.testbit ins (3 + k)).
  { intros k m Hk Hm. rewrite (land_bit _ k) by lia. by apply (field_bit ins 3 3). }
  rewrite !(Hb 0 1), !(Hb 1 2), !(Hb 2 4) by (done || lia). change (3 + 0) with 3. change (3 + 1) with 4. change (3 + 2) with 5. fold a. fold comp. fold jump. clear Hb.
  assert (H1 : exists w b, (if Z.testbit ins 12 && uses_y comp then hack_read a (cycle s) (bus s) else (a, 0, bus s)) =
      (if Z.testbit ins 12 && uses_y comp then xmem (bus s) (0x8000 + u16 a) else a, w, b) /\ xmem b = xmem (bus s) /\ gpio b = gpio (bus s)).
  { destruct (Z.testbit ins 12) eqn:E12; cbn [andb]; [|by eexists _, _]. destruct (uses_y comp); [|by eexists _, _]. apply hack_read_ram. by apply Ha. }
  destruct H1 as (w & b & -> & Hx & Hg). fold out. clearbody out.
  set (edge := if Z.testbit ins 12 && uses_y comp then _ else _). set (st := if Z.testbit ins 3 then _ else _).
  assert (H2 : exists ww s1 r1, st = (ww, s1, r1) /\ regs s1 = regs s /\ pc s1 = pc s /\ gpio (bus s1) = gpio (bus s) /\
    xmem (bus s1) = (if Z.testbit ins 3 then put_word (xmem (bus s)) (0x8000 + u16 a) out else xmem (bus s))).
  { unfold st. destruct (Z.testbit ins 3) eqn:E3; [|by eexists _, _, _]. cbn [bus set_bus].
    destruct (hack_write_ram a out edge b) as (ww & b2 & -> & Hx2 & Hg2); [apply Ha; by rewrite orb_true_r|].
    eexists _, _, _. split; [done|]. cbn. rewrite Hx2, Hg2, Hx. done. }
  destruct H2 as (ww & s1 & r1 & -> & Hregs & Hpc & Hgpio & Hmem). rewrite <- Hregs in Hl.
  pose proof (xr_dest out s1 r1 (Z.testbit ins 5) (Z.testbit ins 4) Hl) as Hd.
  assert (Hxa : xr 1 s1 = a /\ xr 2 s1 = xr 2 s) by (unfold a, xr; by rewrite Hregs). destruct Hxa as [Hxa Hxd].
  destruct (if Z.testbit ins 5 then write_rd 1 out (s1, r1) else (s1, r1)) as [s2 r2]. rewrite Hxa, Hxd in Hd.
  assert (H3 : exists s3 r3 rd2, (if Z.testbit ins 4 then if Z.testbit ins 5 then ((write_rd 2 out (s2, r2)).1, r2, Some (2, out)) else (write_rd 2 out (s2, r2), None)
      else (s2, r2, None)) = (s3, r3, rd2) /\ s3 = (if Z.testbit ins 4 then (write_rd 2 out (s2, r2)).1 else s2)).
  { destruct (Z.testbit ins 4); [|by eexists _, _, _]. destruct (Z.testbit ins 5); [by eexists _, _, _|]. destruct (write_rd 2 out (s2, r2)) as [s3 r3]. by eexists _, _, _. }
  destruct H3 as (s3 & r3 & rd2 & -> & Hs3). rewrite <- Hs3 in Hd. destruct Hd as (D1 & D2 & D3 & D4). cbn [fst snd]. rewrite <- Hmem, <- Hgpio, <- Hpc, <- D3, <- D4.
  done.
Qed.

(** [o] shows [h] on the registers, pc and RAM, and asked for nothing. *)
Record core_shows (o s : cpu real_bus) (h : hack) : Prop := {
  cs_A : u16 (xr 1 o) = hA h; cs_D : u16 (xr 2 o) = hD h; cs_PC : u16 (pc o) / 2 = hPC h;
  cs_RAM : forall a, 0 <= a < 0x6000 -> u16 (xmem (bus o) (0x8000 + a)) = hRAM h a; cs_gpio : gpio (bus o) = gpio (bus s)
}.

Lemma next_pc x : u16 (Emu.u32 (x + 2)) / 2 = (u16 x / 2 + 1) mod 2 ^ 15.
Proof. unfold u16, Emu.u32. dlia. Qed.
Lemma jump_pc a : u16 (Emu.u32 (Z.shiftl a 1)) / 2 = u16 a mod 2 ^ 15.
Proof. rewrite shiftl_mul by lia. unfold u16, Emu.u32. dlia. Qed.

(** The instruction at [pc]. *)
Lemma half_word m x : (if negb (Z.land x 2 =? 0) then Z.shiftr (m ((x mod 2 ^ 16) / 4)) 16 else Z.land (m ((x mod 2 ^ 16) / 4)) 0xFFFF)
  = hack_word_at m (u16 x / 2).
Proof.
  unfold hack_word_at. rewrite (land_masked x 2 1 1) by lia. assert (Hd : u16 x / 2 / 2 = x mod 2 ^ 16 / 4) by (unfold u16; dlia). rewrite Hd.
  rewrite (land_mask _ 16) by lia. rewrite shiftr_div by lia. fold (u16 (m (x mod 2 ^ 16 / 4))).
  assert (Hk : (u16 x / 2) mod 2 = x / 2 ^ 1 mod 2 ^ 1) by (unfold u16; dlia). rewrite Hk.
  assert (x / 2 ^ 1 mod 2 ^ 1 = 0 \/ x / 2 ^ 1 mod 2 ^ 1 = 1) as [-> | ->] by dlia; done.
Qed.

Lemma step_hack_shows word s r h h' prog :
  core_wf s -> core_shows s s h -> prog (hPC h) = Some (if negb (Z.land (pc s) 2 =? 0) then Z.shiftr word 16 else Z.land word 0xFFFF) ->
  0 <= (if negb (Z.land (pc s) 2 =? 0) then Z.shiftr word 16 else Z.land word 0xFFFF) < 2 ^ 16 ->
  hack_ref prog h = Some h' -> core_shows (step_hack word (s, r)).1.1 s h'.
Proof.
  intros Hwf [HA HD HPC HRAM _]. unfold step_hack, hack_ref. cbv zeta. set (ins := if negb (Z.land (pc s) 2 =? 0) then _ else _).
  intros Hp Hi Hr. rewrite Hp in Hr. cbn [mbind option_bind] in Hr. set (r1 := r_set_instr ins r).
  assert (H15 : (Z.land ins 0x8000 =? 0) = (ins <? 2 ^ 15)).
  { rewrite (land_masked ins 0x8000 15 1) by lia. destruct (Z.ltb_spec ins (2 ^ 15)); [rewrite Z.div_small by lia; done|].
    assert (ins / 2 ^ 15 = 1) as -> by dlia. done. }
  rewrite H15. destruct (Z.ltb_spec ins (2 ^ 15)) as [Hlt|Hge].
  - apply (inj Some) in Hr as <-. assert (Hv : Z.land ins 0x7FFF = ins) by (rewrite (land_mask ins 15) by lia; apply Z.mod_small; lia). rewrite Hv.
    destruct (write_rd_keeps 1 ins s r1) as (K1 & K2 & K3). pose proof (xr_write_rd 1 1 ins (s, r1) ltac:(lia) ltac:(lia) (wf_regs _ Hwf)) as X1.
    pose proof (xr_write_rd 2 1 ins (s, r1) ltac:(lia) ltac:(lia) (wf_regs _ Hwf)) as X2. cbn [fst negb andb Z.eqb Pos.eqb] in X1, X2.
    destruct (write_rd 1 ins (s, r1)) as [s1 r2]. cbn [fst] in *. constructor; cbn [fst pc set_pc bus hA hD hPC hRAM].
    + change (xr 1 (set_pc (Emu.u32 (pc s + 2)) s1)) with (xr 1 s1). rewrite X1. unfold u16. apply Z.mod_small. lia.
    + change (xr 2 (set_pc (Emu.u32 (pc s + 2)) s1)) with (xr 2 s1). by rewrite X2.
    + by rewrite next_pc, HPC.
    + by rewrite K2.
    + by rewrite K2.
  - destruct (comp_of _) as [f|] eqn:Ef; cbn [mbind option_bind] in Hr; [|discriminate Hr]. apply comp_of_spec in Ef.
    cbv zeta in Hr. set (um := Z.testbit ins 12 || Z.testbit ins 3) in *. destruct (um && (0x6000 <=? hA h)) eqn:Eu; [discriminate Hr|]. apply (inj Some) in Hr as <-.
    assert (Hram : um = true -> u16 (xr 1 s) < 0x6000).
    { intros Hm. rewrite Hm in Eu. cbn [andb] in Eu. apply Z.leb_gt in Eu. lia. }
    pose proof (hack_c_ram ins s r1 (wf_regs _ Hwf) Hram) as Hc. cbv zeta in Hc.
    set (o := (hack_c ins (s, r1)).1.1) in *. clearbody o. set (a := xr 1 s) in *. set (d := xr 2 s) in *.
    assert (Hcomp : Z.land (Z.shiftr ins 6) 0x3F = ins / 2 ^ 6 mod 2 ^ 6) by (rewrite (land_mask _ 6), shiftr_div by lia; done). rewrite Hcomp in Hc.
    set (comp := ins / 2 ^ 6 mod 2 ^ 6) in *. set (y := if Z.testbit ins 12 && uses_y comp then xmem (bus s) (0x8000 + u16 a) else a) in *.
    assert (Hout : u16 (Emu.hack_out comp d y) = u16 (f (hD h) (if Z.testbit ins 12 then hRAM h (hA h) else hA h))).
    { unfold u16 at 1. rewrite <- (hack_comp_out comp f d y Ef). fold (u16 (f d y)). rewrite <- (comp_low comp f d y Ef), HD. unfold y.
      destruct (Z.testbit ins 12) eqn:E12; cbn [andb]; [|by rewrite HA]. destruct (uses_y comp) eqn:Eq.
      - rewrite HRAM; [by rewrite HA|]. split; [unfold u16; dlia|]. by apply Hram.
      - by rewrite (comp_no_y comp f _ _ (hRAM h (hA h)) Ef Eq). }
    set (out := Emu.hack_out comp d y) in *. rewrite hack_take_jumps in Hc. destruct Hc as (C1 & C2 & C3 & C4 & C5).
    assert (Hj : negb (Z.land ins 7 =? 0) && jumps (ins mod 8) (u16 out) = jumps (ins mod 8) (u16 out)).
    { rewrite (land_mask ins 3) by lia. change (2 ^ 3) with 8. destruct (Z.eqb_spec (ins mod 8) 0) as [->|]; [|done]. unfold jumps. by rewrite !Z.bits_0. }
    rewrite Hj in C3. constructor; cbn [hA hD hPC hRAM].
    + rewrite C1, <- Hout, <- HA. by destruct (Z.testbit ins 5).
    + rewrite C2, <- Hout, <- HD. by destruct (Z.testbit ins 4).
    + rewrite C3, <- Hout. destruct (jumps _ _); [by rewrite jump_pc, HA|by rewrite next_pc, HPC].
    + intros i Hi'. rewrite C4. destruct (Z.testbit ins 3) eqn:E3; [|by apply HRAM]. unfold put_word. rewrite <- Hout, <- HA.
      destruct (Z.eqb_spec (0x8000 + i) (0x8000 + u16 a)), (Z.eqb_spec i (u16 a)); try lia. by apply HRAM.
    + done.
Qed.

(** One step of the emulator in Hack mode is one of the 16-bit machine. *)
Lemma hack_step_shows l s h h' prog :
  soc_ok l s -> shows s h -> holds prog (xmem (bus (core s))) -> hack_ref prog h = Some h' -> shows (soc_step s).1 h'.
Proof.
  intros Hok [Hm HA HD HPC HRAM] Hp Hr. pose proof Hok as [Hwf _ _ Hpend]. set (c := core s) in *.
  assert (Hstep : core_shows (hack_step c).1.1 c h').
  { unfold hack_step. destruct (hack_fetch (pc c) (bus c)) as [[word wait] b] eqn:E. unfold hack_fetch in E.
    apply window_fetch_spec in E as (Hb & _ & Hw). rewrite fetch_index in Hw. rewrite Hb. clear Hb.
    set (s1 := set_csr _ _). set (r0 := mkRetire _ _ _ _ _ _ _ _).
    assert (H1 : core_wf s1).
    { destruct Hwf as [W1 W2 W3 W4 W5 W6 W7]. constructor; try done; [apply set_mcycle_wf; [apply u64_range|done]|by apply set_caches_ok]. }
    assert (Hfetch : prog (hPC h) = Some (hack_word_at (xmem (bus c)) (u16 (pc c) / 2)) /\ 0 <= hack_word_at (xmem (bus c)) (u16 (pc c) / 2) < 2 ^ 16).
    { unfold hack_ref in Hr. destruct (prog (hPC h)) as [i|] eqn:Ei; [|done]. rewrite HPC. destruct (Hp (hPC h) i) as [-> ?]; [|done|done].
      rewrite <- HPC. unfold u16. dlia. }
    rewrite <- half_word, <- Hw in Hfetch. destruct Hfetch as [F1 F2].
    pose proof (step_hack_shows word s1 r0 h h' prog H1) as Hs. change (pc s1) with (pc c) in Hs.
    assert (Hs1 : core_shows s1 s1 h) by (constructor; done). specialize (Hs Hs1 F1 F2 Hr).
    destruct (step_hack word (s1, r0)) as [[s2 r2] rd2]. cbn [fst snd] in *. destruct Hs as [S1 S2 S3 S4 S5].
    destruct (mcycle_written s2); constructor; cbn; done. }
  destruct Hstep as [S1 S2 S3 S4 S5]. unfold soc_step. rewrite Hm. fold c. destruct (hack_step c) as [[c' r'] rd2]. cbn [fst snd] in *.
  cbn [Gpio.take_soft_reset]. rewrite S5, Hpend. by constructor.
Qed.

(** ** A Hack program loaded *)

Lemma le_words_cons c0 c1 c2 c3 l : le_words (c0 :: c1 :: c2 :: c3 :: l) = le_combine [c0; c1; c2; c3] :: le_words l.
Proof. unfold le_words. rewrite chunks_4_cons. done. Qed.
Lemma le_words_split v l : 0 <= v < 2 ^ 32 -> le_words (le_split 4 v ++ l) = v :: le_words l.
Proof.
  intros Hv. pose proof (le_combine_split_in 4 v Hv) as H. pose proof (LittleEndianList.length_le_split 4 v) as Hl.
  destruct (le_split 4 v) as [|c0 [|c1 [|c2 [|c3 [|? ?]]]]]; try discriminate Hl. cbn [app]. by rewrite le_words_cons, H.
Qed.
Lemma le_words_u32 bs : Forall is_u32 (le_words bs).
Proof.
  assert (Hc : forall c, length c = 4%nat -> is_u32 (le_combine c)).
  { intros c Hl. pose proof (LittleEndianList.le_combine_bound c) as Hb. rewrite Hl in Hb. exact Hb. }
  induction bs as [|a|a c|a c e|a c e g p IH] using list_four_ind; [constructor|..|rewrite le_words_cons; constructor; [by apply Hc|done]];
    (constructor; [by apply Hc|constructor]).
Qed.

(** The words the loader makes of an image hold its instructions. *)
Lemma hack_words_hold bs w : Image.emu_hack_words bs = Some w -> forall k i, 0 <= k -> instruction bs k = Some i ->
  exists x, le_words w !! Z.to_nat (k / 2) = Some x /\ (if k mod 2 =? 1 then x / 2 ^ 16 else u16 x) = i /\ 0 <= i < 2 ^ 16.
Proof.
  revert w. induction bs as [|a|a c|a c e|a c e g p IH] using list_four_ind; intros w Hw k i Hk Hi; try discriminate Hw.
  - by destruct (Z.to_nat (2 * k)) eqn:E; unfold instruction in Hi; rewrite E in Hi.
  - cbn [Image.emu_hack_words] in Hw. apply (inj Some) in Hw as <-. pose proof (byte.unsigned_range a). pose proof (byte.unsigned_range c).
    assert (k = 0) as ->.
    { destruct (Z.eqb_spec k 0); [done|]. unfold instruction in Hi. rewrite (lookup_ge_None_2 [a; c] (Z.to_nat (2 * k))) in Hi by (cbn; lia). cbn [mbind option_bind] in Hi. discriminate Hi. }
    cbn in Hi. apply (inj Some) in Hi as <-. unfold Image.u8. rewrite <- (app_nil_r (le_split 4 _)), le_words_split by lia.
    eexists. split; [done|]. change (0 mod 2 =? 1) with false. cbv iota. unfold u16. split; [by apply Z.mod_small; lia|lia].
  - cbn [Image.emu_hack_words] in Hw. destruct (Image.emu_hack_words p) as [rest|] eqn:E; [|done]. cbn [mbind option_bind] in Hw. apply (inj Some) in Hw as <-.
    pose proof (byte.unsigned_range a). pose proof (byte.unsigned_range c). pose proof (byte.unsigned_range e). pose proof (byte.unsigned_range g).
    unfold Image.u8. set (p0 := 2 ^ 8 * byte.unsigned a + byte.unsigned c). set (p1 := 2 ^ 8 * byte.unsigned e + byte.unsigned g).
    assert (Hp0 : 0 <= p0 < 2 ^ 16) by lia. assert (Hp1 : 0 <= p1 < 2 ^ 16) by lia.
    assert (Hv : Z.lor p0 (Z.shiftl p1 16) = p0 + 2 ^ 16 * p1) by (rewrite Z.lor_comm, lor_shiftl_add by lia; lia). rewrite Hv, le_words_split by lia.
    destruct (Z.ltb_spec k 2) as [Hlt|Hge].
    + exists (p0 + 2 ^ 16 * p1). assert (k = 0 \/ k = 1) as [-> | ->] by lia; cbn in Hi; apply (inj Some) in Hi as <-; (split; [done|]).
      * change (0 mod 2 =? 1) with false. cbv iota. fold p0. unfold u16. split; [|done]. rewrite Z.mul_comm, Z.mod_add by lia. by apply Z.mod_small.
      * change (1 mod 2 =? 1) with true. cbv iota. fold p1. split; [|done]. rewrite Z.mul_comm, Z.div_add, Z.div_small by lia. done.
    + destruct (IH rest eq_refl (k - 2) i ltac:(lia)) as (x & Hx & Hxi & Hr).
      { unfold instruction in Hi. replace (Z.to_nat (2 * k)) with (4 + Z.to_nat (2 * (k - 2)))%nat in Hi by lia.
        replace (Z.to_nat (2 * k + 1)) with (4 + Z.to_nat (2 * (k - 2) + 1))%nat in Hi by lia. exact Hi. }
      exists x. replace (Z.to_nat (k / 2)) with (S (Z.to_nat ((k - 2) / 2))) by dlia. split; [exact Hx|]. replace (k mod 2) with ((k - 2) mod 2) by dlia. done.
Qed.

Lemma load_window_lookup ws i m c j : (load_window i ws m c).1 j = if (i <=? j) && (j <? i + len ws) then nth (Z.to_nat (j - i)) ws 0 else m j.
Proof.
  revert i m c. induction ws as [|w ws IH]; intros i m c; cbn [load_window fst].
  - change (len (@nil Z)) with 0. destruct (Z.leb_spec i j), (Z.ltb_spec j (i + 0)); cbn [andb]; try done; lia.
  - rewrite IH, len_cons. pose proof (len_nonneg ws). unfold put_word.
    destruct (Z.leb_spec (i + 1) j), (Z.leb_spec i j), (Z.ltb_spec j (i + 1 + len ws)), (Z.ltb_spec j (i + (1 + len ws))), (Z.eqb_spec j i); cbn [andb]; try lia; try done.
    + replace (Z.to_nat (j - i)) with (S (Z.to_nat (j - (i + 1)))) by lia. done.
    + subst. by rewrite Z.sub_diag.
Qed.
Lemma load_window_u32 ws i m c : Forall is_u32 ws -> (forall j, is_u32 (m j)) -> forall j, is_u32 ((load_window i ws m c).1 j).
Proof.
  revert i m c. induction ws as [|w ws IH]; intros i m c Hw Hm j; [apply Hm|]. apply Forall_cons in Hw as [Hw Hws]. cbn [load_window].
  apply IH; [done|]. by apply put_word_u32.
Qed.

(** A program in the window: the rest of the machine as it was. *)
Lemma load_xmem_ok l addr bs s s' : soc_ok l s -> load_xmem addr bs s = Some s' -> soc_ok l s' /\
  exists m k, load_window (Emu.u32 (addr - XMEM_BASE) / 4) (le_words bs) (xmem (bus (core s))) (caches (bus (core s))) = (m, k) /\
    s' = set_core (set_bus (set_caches k (set_xmem m (bus (core s)))) (core s)) s.
Proof.
  intros [H1 H2 H3 H4] Hl. unfold load_xmem in Hl. destruct (_ || _); [done|]. destruct (load_window _ _ _ _) as [m k] eqn:E.
  apply (inj Some) in Hl as <-. split; [|by exists m, k]. constructor; [|done|done|done]. apply core_wf_bus; [done|].
  pose proof (wf_bus _ H1) as Hb. cbn in Hb. pose proof Hb as [R1 R2 R3 R4 R5]. constructor; cbn; try done. intros i.
  pose proof (load_window_u32 (le_words bs) (Emu.u32 (addr - XMEM_BASE) / 4) (xmem (bus (core s))) (caches (bus (core s))) (le_words_u32 bs) R2 i) as Hi.
  by rewrite E in Hi.
Qed.

Lemma load_hack_ok l bs s s' : soc_ok l s -> load_hack bs 0 s = Some s' ->
  soc_ok l s' /\ riscv_mode s' = false /\ pc (core s') = 0 /\ holds (instruction bs) (xmem (bus (core s'))).
Proof.
  intros Hs Hl. unfold load_hack in Hl. destruct (_ || _) eqn:Eg; [done|]. destruct (Image.emu_hack_words bs) as [w|] eqn:Ew; [|done].
  cbn [mbind option_bind] in Hl. destruct (load_xmem (HACK_I_BASE + 0) w s) as [s1|] eqn:E1; [|done]. cbn in Hl. apply (inj Some) in Hl as <-.
  destruct (load_xmem_ok l _ _ _ _ Hs E1) as ([K1 K2 K3 K4] & m & k & Em & ->). split; [|split; [done|split; [done|]]].
  - constructor; [exact K1|split; [unfold is_u32; cbn; lia|done]|exact K3|exact K4].
  - intros j i Hj Hi. cbn. destruct (hack_words_hold bs w Ew j i ltac:(lia) Hi) as (x & Hx & Hxi & Hr). unfold hack_word_at.
    assert (Hm : m (j / 2) = x).
    { pose proof (load_window_lookup (le_words w) 0 (xmem (bus (core s))) (caches (bus (core s))) (j / 2)) as Hlk. change (Emu.u32 (HACK_I_BASE + 0 - XMEM_BASE) / 4) with 0 in Em.
      rewrite Em in Hlk. cbn [fst] in Hlk. rewrite Hlk. pose proof (lookup_lt_Some _ _ _ Hx). rewrite (proj2 (Z.leb_le _ _)), (proj2 (Z.ltb_lt _ _)) by (unfold len; dlia).
      cbn [andb]. rewrite Z.sub_0_r. by apply nth_lookup_Some. }
    by rewrite Hm, Hxi.
Qed.

(** ** Runs *)

Lemma soc_steps_ok l n s : soc_ok l s ->
  soc_ok l (soc_steps n s) /\ cycle (core s) + 2 * Z.of_nat n <= cycle (core (soc_steps n s)) /\ rom_kept (bus (core s)) (bus (core (soc_steps n s))).
Proof.
  revert s. induction n as [|n IH]; intros s H; [split; [done|]; split; [cbn; lia|done]|]. destruct (soc_step_ok l s H) as (H1 & H2 & [R1 R2] & _).
  destruct (IH _ H1) as (I1 & I2 & [I3 I4]). cbn [soc_steps]. split; [done|]. split; [lia|]. split; congruence.
Qed.

Lemma soc_new_ok : soc_ok Uart.beginning soc_new.
Proof.
  constructor; [|done|apply Uart.uart_default_live|done]. constructor; try done. repeat constructor; unfold is_u32; lia.
Qed.

Lemma put_words_u32 f n ws m : Forall is_u32 ws -> (forall i, is_u32 (m i)) -> forall i, is_u32 (put_words f n ws m i).
Proof.
  intros H. revert n m. induction H as [|w ws Hw _ IH]; intros n m Hm i; [apply Hm|]. cbn [put_words]. apply IH. by apply put_word_u32.
Qed.
Lemma load_rom_words_ok l start ws s : Forall is_u32 ws -> soc_ok l s -> soc_ok l (load_rom_words start ws s).
Proof.
  intros Hw [H1 H2 H3 H4]. constructor; [|done|done|done]. apply core_wf_bus; [done|]. destruct (wf_bus _ H1) as [R1 R2 R3 R4 R5].
  constructor; cbn; try done. by apply put_words_u32.
Qed.

(** The run's loop, while it goes on. *)
Lemma run_loop_ok l fuel end_ s : soc_ok l s -> end_ - cycle (core s) <= Z.of_nat fuel ->
  exists n, run_loop fuel end_ s = soc_steps n s /\ end_ <= cycle (core (soc_steps n s)) /\ (cycle (core s) < end_ -> n <> 0%nat).
Proof.
  revert s. induction fuel as [|fuel IH]; intros s H Hf; [exists 0%nat; split; [done|split; [cbn; lia|lia]]|]. cbn [run_loop].
  destruct (Z.ltb_spec (cycle (core s)) end_) as [Hlt|]; [|exists 0%nat; split; [done|split; [cbn; lia|lia]]].
  destruct (soc_step_ok l s H) as (H1 & H2 & _). destruct (IH _ H1 ltac:(lia)) as (n & E1 & E2 & _). exists (S n). done.
Qed.

(** The 16-bit machine over a run. *)
Lemma hack_steps_show l n prog s h h' :
  soc_ok l s -> shows s h -> holds prog (xmem (bus (core s))) -> hack_refs n prog h = Some h' ->
  shows (soc_steps n s) h' /\ soc_ok l (soc_steps n s) /\ holds prog (xmem (bus (core (soc_steps n s)))).
Proof.
  revert s h. induction n as [|n IH]; intros s h Hok Hs Hp Hr; cbn [hack_refs soc_steps] in *; [by simplify_eq|].
  destruct (hack_ref prog h) as [h1|] eqn:E; [|done]. cbn [mbind option_bind] in Hr. pose proof (hack_step_shows l s h h1 prog Hok Hs Hp E) as H1.
  destruct (soc_step_ok l s Hok) as (K1 & _ & _ & K4). eapply IH; [done|done| |done]. intros k i Hk Hi. specialize (K4 (sh_mode _ _ Hs)).
  unfold hack_word_at. rewrite K4 by (unfold outside_data; dlia). by apply (Hp k i).
Qed.

(** An AMO's store to a peripheral. Its five cycles are FETCH to the store's MEM_WAIT, the
    fifth; the store takes effect at the end of the sixth, the next instruction's FETCH, where
    a plain store's, of three cycles, takes effect at the end of its third. *)
Lemma amo_store_late i (s : cpu real_bus) r :
  v03_mmio (bus s) = false -> xr (Field.rs1 i) s = 0x2000BFF8 -> Z.shiftr i 27 = AMO_SWAP ->
  let o := (exec_amo i (s, r)).2 in
  r_cycles o.2 = 5 /\ timer (bus o.1) = Timer.write Timer.MtimeLo (xr (Field.rs2 i) s) (cycle s + 5) (timer (bus s)).
Proof.
  intros Hv Ha Hf. unfold exec_amo. rewrite Ha, Hf. change (negb (Z.land 0x2000BFF8 3 =? 0)) with false. change (AMO_SWAP =? AMO_SC) with false.
  change (AMO_SWAP =? AMO_LR) with false. cbv iota zeta. unfold rv_load_wait, rv_read_word, rv_write, real_profile, load_wait, read_word, write_word.
  change (in_xmem 0x2000BFF8) with false. change (Z.shiftr 0x2000BFF8 28) with 2. cbv iota zeta. change (2 =? 0) with false. rewrite Hv. cbv iota.
  cbn [negb andb Z.eqb Pos.eqb]. change (amo_value AMO_SWAP ?a ?c) with c.
  unfold Clint.write. change (Z.land 0x2000BFF8 0xFFFC =? Clint.MSIP) with false. change (Clint.timer_reg (Z.land 0x2000BFF8 0xFFFC)) with (Some Timer.MtimeLo).
  cbv iota beta zeta. cbn [bus set_bus]. rewrite Hv. cbn [negb]. cbv iota beta zeta. unfold write_rd. destruct (Field.rd i =? 0); cbn [fst snd r_cycles bus set_bus set_regs r_set_cycles r_set_store r_set_rd set_clint set_timer timer];
    (split; [reflexivity|]); replace (cycle s + 5) with (cycle s + (3 + 0) + 2) by lia; reflexivity.
Qed.
Lemma store_in_time data be t b : v03_mmio b = false ->
  timer (write_word 0x2000BFF8 data be t b).2 = Timer.write Timer.MtimeLo data (t + 2) (timer b).
Proof. intros Hv. unfold write_word. rewrite Hv. reflexivity. Qed.

(** ** The longest instruction *)

Lemma access_bound idx st b w b' : window_access idx st b = (w, b') -> 0 <= w <= XMEM_LINE_DIRTY.
Proof.
  unfold window_access, cache_access. destruct (dline_of idx) as [l t]. intros H. assert (Hw : w = access_wait (dline (caches b) !! l) t) by (destruct st; congruence).
  subst w. unfold access_wait. repeat match goal with |- context [match ?x with _ => _ end] => destruct x end; vm_compute; split; congruence.
Qed.
Lemma fetch_bound addr b word w b' : window_fetch addr b = (word, w, b') -> 0 <= w <= XMEM_FETCH_PROBE.
Proof.
  unfold window_fetch, cache_fetch. destruct (iline_of _) as [l t]. destruct (dline_of _) as [dl dt].
  destruct (bool_decide _); [|destruct (bool_decide _)]; intros H; injection H as _ <- _; vm_compute; split; congruence.
Qed.
(** What a load has made present, a store finds. *)
Lemma store_hits idx b w b1 b2 : window_access idx false b = (w, b1) -> caches b2 = caches b1 -> (window_access idx true b2).1 = 0.
Proof.
  unfold window_access, cache_access. destruct (dline_of idx) as [l t]. intros H Hc. injection H as Hw <-. cbn [fst]. rewrite Hc. cbn [caches set_caches dline].
  clear Hc. set (w0 := access_wait (dline (caches b) !! l) t) in *. assert (H0 : forall d, access_wait (Some (t, d)) t = 0) by (intros d; unfold access_wait; by rewrite Z.eqb_refl).
  destruct (Z.eqb_spec w0 0) as [He|He]; cbn [negb]; [|rewrite lookup_insert; by rewrite decide_True; [apply H0|]].
  unfold w0 in He. clear -He. unfold access_wait in *. destruct (dline (caches b) !! l) as [[t' d]|]; [|done]. destruct (t' =? t); [done|]. by destruct d.
Qed.

Lemma rv_wait_bound addr b : 0 <= (load_wait addr b).1 <= XMEM_LINE_DIRTY.
Proof. unfold load_wait. destruct (in_xmem addr); [|vm_compute; split; congruence]. destruct (window_access _ _ b) as [w b'] eqn:E. by apply access_bound in E. Qed.
Lemma store_wait_bound addr data be t b : 0 <= (write_word addr data be t b).1 <= XMEM_LINE_DIRTY.
Proof.
  assert (H0 : 0 <= 0 <= XMEM_LINE_DIRTY) by (vm_compute; split; congruence). unfold write_word. cbv zeta.
  destruct (_ && _); [by destruct (Clint.write _ _ _ _ _)|]. destruct (_ =? 4); [done|].
  destruct (in_xmem addr); [|done]. destruct (window_access _ _ b) as [w b'] eqn:E. by apply access_bound in E.
Qed.
Lemma amo_wait_bound addr t t' data b w b1 v b2 w' b3 :
  load_wait addr b = (w, b1) -> read_word addr t b1 = (v, b2) -> write_word addr data 15 t' b2 = (w', b3) -> w + w' <= XMEM_LINE_DIRTY.
Proof.
  intros E1 E2 E3. pose proof (rv_wait_bound addr b) as Hw. rewrite E1 in Hw. cbn [fst] in Hw. unfold load_wait in E1. destruct (in_xmem addr) eqn:Ex.
  - assert (Hr : Z.shiftr addr 28 = 8) by (unfold in_xmem in Ex; by apply Z.eqb_eq in Ex).
    unfold read_word in E2. rewrite Hr in E2. cbn [Z.eqb Pos.eqb andb] in E2. rewrite Ex in E2. injection E2 as _ <-.
    unfold write_word in E3. rewrite Hr in E3. cbn [Z.eqb Pos.eqb andb] in E3. rewrite Ex in E3.
    pose proof (store_hits _ _ _ _ b1 E1 eq_refl) as Hh. destruct (window_access _ true b1) as [w1 b4]. cbn [fst] in Hh. subst w1. injection E3 as <- _. lia.
  - injection E1 as <- <-. assert (w' = 0) as ->; [|vm_compute; congruence]. unfold write_word in E3. cbv zeta in E3. rewrite Ex in E3.
    destruct (_ && _); [destruct (Clint.write _ _ _ _ _); congruence|]. destruct (_ =? 4); congruence.
Qed.

Lemma effect_bound t b n b' : bus_effect t b n b' -> n <= 5 + XMEM_LINE_DIRTY.
Proof.
  assert (H99 : XMEM_LINE_DIRTY = 99) by reflexivity. intros [m Hm|addr w b1 v b2 E1 _|addr data be w b1 E|addr w b1 v b2 data w' b3 E1 E2 E3].
  - unfold MULDIV_WAIT_CYCLES in Hm. lia.
  - pose proof (rv_wait_bound addr b) as H. cbn in E1. rewrite E1 in H. cbn [fst] in H. lia.
  - pose proof (store_wait_bound addr data be t b) as H. cbn in E. rewrite E in H. cbn [fst] in H. lia.
  - pose proof (amo_wait_bound addr t _ data b w b1 v b2 w' b3 E1 E2 E3). lia.
Qed.

(** Hack's access of M and its store wait no more together than one miss. *)
Lemma hack_waits a v t e b y w b1 b2 : hack_read a t b = (y, w, b1) -> caches b2 = caches b1 -> w + (hack_write a v e b2).1 <= XMEM_LINE_DIRTY /\ 0 <= (hack_write a v e b2).1.
Proof.
  assert (H0 : 0 <= XMEM_LINE_DIRTY) by (vm_compute; congruence). intros E Hc. unfold hack_read in E. unfold hack_write. cbv zeta in *.
  destruct ((0x6000 <=? Z.land a 0xFFFF) && (Z.land a 0xFFFF <? 0x6010)); [destruct (mmio_read _ _ b); injection E as _ <- _; cbn [fst]; lia|].
  destruct (Z.land a 0xFFFF <? 0x6000); [|injection E as _ <- _; cbn [fst]; lia]. destruct (window_access _ false b) as [w1 b3] eqn:E1. injection E as _ <- <-.
  pose proof (store_hits _ _ _ _ b2 E1 Hc) as Hh. destruct (window_access _ true b2) as [w2 b4]. cbn [fst] in *. subst w2. apply access_bound in E1. lia.
Qed.
Lemma hack_store_bound a v e b : 0 <= (hack_write a v e b).1 <= XMEM_LINE_DIRTY.
Proof.
  assert (H0 : 0 <= 0 <= XMEM_LINE_DIRTY) by (vm_compute; split; congruence). unfold hack_write. cbv zeta.
  destruct ((0x6000 <=? Z.land a 0xFFFF) && (Z.land a 0xFFFF <? 0x6010)); [done|]. destruct (Z.land a 0xFFFF <? 0x6000); [|done].
  destruct (window_access _ true b) as [w2 b4] eqn:E. by apply access_bound in E.
Qed.
Lemma hack_load_bound a t b : (hack_read a t b).1.2 <= XMEM_LINE_DIRTY.
Proof.
  assert (H0 : 0 <= XMEM_LINE_DIRTY) by (vm_compute; congruence). unfold hack_read. cbv zeta.
  destruct ((0x6000 <=? Z.land a 0xFFFF) && (Z.land a 0xFFFF <? 0x6010)); [by destruct (mmio_read _ _ b)|]. destruct (Z.land a 0xFFFF <? 0x6000); [|done].
  destruct (window_access _ false b) as [w2 b4] eqn:E. apply access_bound in E. cbn [fst snd]. lia.
Qed.

Lemma hack_c_bound ins s r : r_cycles (hack_c ins (s, r)).1.2 <= 5 + XMEM_LINE_DIRTY.
Proof.
  unfold hack_c. cbv zeta. set (a := xr 1 s). set (use_mem := _ && uses_y _). set (dest := Z.land (Z.shiftr ins 3) 7).
  assert (H1 : exists y w b, (if use_mem then hack_read a (cycle s) (bus s) else (a, 0, bus s)) = (y, w, b) /\
    (use_mem = true -> hack_read a (cycle s) (bus s) = (y, w, b)) /\ (use_mem = false -> w = 0)).
  { destruct use_mem; [destruct (hack_read a (cycle s) (bus s)) as [[y w] b]; by exists y, w, b|]. by eexists _, _, _. }
  destruct H1 as (y & w & b & -> & Hread & Hno). set (out := Emu.hack_out _ _ y). set (edge := if use_mem then _ else _). set (st := if negb (Z.land dest 1 =? 0) then _ else _).
  assert (H2 : exists ww s1 r1, st = (ww, s1, r1) /\ (if use_mem then w + ww <= XMEM_LINE_DIRTY else ww <= XMEM_LINE_DIRTY)).
  { unfold st. cbn [bus set_bus]. destruct (negb (Z.land dest 1 =? 0)).
    - pose proof (hack_store_bound a out edge b) as Hb. pose proof (hack_waits a out (cycle s) edge (bus s) y w b b) as Hh.
      destruct (hack_write a out edge b) as [ww b2]. cbn [fst] in *. eexists ww, _, _. split; [done|]. destruct use_mem; [by apply Hh; [apply Hread|]|lia].
    - eexists 0, _, _. split; [done|]. destruct use_mem; [|vm_compute; congruence]. pose proof (hack_load_bound a (cycle s) (bus s)) as Hl. rewrite Hread in Hl by done. cbn [fst snd] in Hl. lia. }
  destruct H2 as (ww & s1 & r1 & -> & Hw).
  destruct (if negb (Z.land dest 4 =? 0) then write_rd 1 out (s1, r1) else (s1, r1)) as [s2 r2].
  destruct (if negb (Z.land dest 2 =? 0) then _ else (s2, r2, None)) as [[s3 r3] rd2]. cbn [fst snd r_cycles r_set_cycles].
  destruct use_mem, (Z.land dest 6 =? 6); lia.
Qed.

(** ** Properties *)

(** C8: whatever the ROM holds and whatever runs, in either ISA and across soft resets, from
    power-on the registers and addresses stay in range, the UART is never behind, each step
    takes two cycles or more, and nothing writes the ROM. *)
Theorem soc_safe ws n :
  Forall is_u32 ws ->
  let s := load_rom_words 0 ws soc_new in
  soc_ok Uart.beginning (soc_steps n s) /\ 2 * Z.of_nat n <= cycle (core (soc_steps n s)) /\ rom (bus (core (soc_steps n s))) = rom (bus (core s)).
Proof.
  intros Hw s. destruct (soc_steps_ok Uart.beginning n s) as (H1 & H2 & [H3 _]); [by apply load_rom_words_ok, soc_new_ok|]. split; [done|]. by split.
Qed.

(** The 16-bit machine with the low halves of the registers and of the data. *)
Definition low_halves (s : soc) : hack :=
  mkHack (u16 (xr 1 (core s))) (u16 (xr 2 (core s))) (u16 (pc (core s)) / 2) (fun a => u16 (xmem (bus (core s)) (0x8000 + a))).

(** C2: a Hack image loaded into a machine runs as the 16-bit machine of nand2tetris runs its
    instructions: after any number of steps in which that one stays in its RAM, the emulator
    shows its A, D, program counter and RAM in its low halves, and the program is intact. *)
Theorem hack_runs l bs s s' n h :
  soc_ok l s -> load_hack bs 0 s = Some s' -> hack_refs n (instruction bs) (low_halves s') = Some h ->
  shows (soc_steps n s') h /\ soc_ok l (soc_steps n s') /\ holds (instruction bs) (xmem (bus (core (soc_steps n s')))).
Proof.
  intros Hs Hl Hr. destruct (load_hack_ok l bs s s' Hs Hl) as (H1 & H2 & H3 & H4). apply (hack_steps_show l n (instruction bs) s' (low_halves s') h); [done|by constructor|done|done].
Qed.

(** ** Witnesses *)

(** Sums 1 to 10 in RAM[16], then loops:
    @10 D=A (loop) @16 M=D+M D=D-1 @2 D;JGT (halt) @7 0;JMP. *)
Definition sum_hack : bytes := concat (map (fun w => [byte.of_Z (w / 256); byte.of_Z (w mod 256)])
  [10; 0xEC10; 16; 0xF088; 0xE390; 2; 0xE301; 7; 0xEA87]).

Definition sum_loaded : soc := default soc_new (load_hack sum_hack 0 soc_new).
Lemma sum_loads : load_hack sum_hack 0 soc_new = Some sum_loaded.
Proof. reflexivity. Qed.

Lemma hack_runs_witness :
  exists h, hack_refs 56 (instruction sum_hack) (low_halves sum_loaded) = Some h /\ hRAM h 16 = 55 /\ hPC h = 7 /\ shows (soc_steps 56 sum_loaded) h.
Proof.
  destruct (hack_refs 56 (instruction sum_hack) (low_halves sum_loaded)) as [h|] eqn:E.
  - exists h. split; [done|]. split; [|split].
    + apply (f_equal (fun o => match o with Some h => hRAM h 16 | None => 0 end)) in E. cbn beta iota in E. rewrite <- E. vm_compute. reflexivity.
    + apply (f_equal (fun o => match o with Some h => hPC h | None => 0 end)) in E. cbn beta iota in E. rewrite <- E. vm_compute. reflexivity.
    + exact (proj1 (hack_runs Uart.beginning sum_hack soc_new sum_loaded 56 h soc_new_ok sum_loads E)).
  - exfalso. apply (f_equal (fun o => match o with Some _ => true | None => false end)) in E. vm_compute in E. discriminate E.
Defined.

Lemma soc_safe_witness :
  let s := load_rom_words 0 [0x00A00513; 0x00000073] soc_new in
  soc_ok Uart.beginning (soc_steps 20 s) /\ 2 * Z.of_nat 20 <= cycle (core (soc_steps 20 s)) /\ rom (bus (core (soc_steps 20 s))) = rom (bus (core s)).
Proof. apply (soc_safe [0x00A00513; 0x00000073] 20). repeat constructor; unfold is_u32; lia. Defined.
