(* ===== verification/FwCover.v ===== *)
(** * Which source lines the emulator ran

    scripts/coverage_fw.py: line coverage of the firmware from the instructions that the
    emulator recorded (Soc.v's [cov_key], the files of sim/emu/vux9k.py), for RV32 images by an
    ELF file's segments and line table and for Hack images by their assembly. What pyelftools
    reads from the file is a parameter: segments, and a line program's entries with their
    source paths. *)
From stdpp Require Import sorting.
From S2P Require Import Prelude Image Text PyFloat Str RvTests Rv32Csr Rv32Cpu Caches Uart Periph Soc.
#[local] Open Scope Z_scope.

(** ** The records *)

(** [_write_coverage]: the lines of a process' file, of the keys of its SoCs. *)
Definition cov_line (k : Z) : string := (fmt_hex 0 k ++ newline)%string.
Definition write_coverage (socs : list (gset Z)) : list string := map cov_line (merge_sort Z.le (elements (⋃ socs))).
(** [load_hits]. *)
Definition hit (k : Z) : bool * (Z * Z) := (negb (Z.land (Z.shiftr k 32) 1 =? 0), (Z.shiftr k 33, Z.land k 0xFFFFFFFF)).
Definition load_hits (files : list (list string)) : res (gset (Z * Z) * gset (Z * Z)) :=
  ks ← mapM int16 (concat files);
  let hs := map hit ks in
  Ok (list_to_set (map snd (filter (fun h => fst h = true) hs)), list_to_set (map snd (filter (fun h => fst h = false) hs))).

(** ** An ELF image *)

(** A segment: whether it is PT_LOAD, its flags, address and data. *)
Record segment := mkSegment { p_load : bool; p_flags : Z; p_vaddr : Z; seg_data : bytes }.
(** [range(0, len(data) - 3, 4)]'s words. *)
Fixpoint put_segment (addr : Z) (data : list bytes) (m : gmap Z Z) : gmap Z Z :=
  match data with [] => m | c :: cs => if len c =? 4 then put_segment (addr + 4) cs (<[addr := le_combine c]> m) else m end.
(** [elf_words]. *)
Definition elf_words (segs : list segment) : gmap Z Z :=
  foldl (fun m s => if negb (p_load s) || (Z.land (p_flags s) 1 =? 0) then m else put_segment (p_vaddr s) (chunks 4 (seg_data s)) m) ∅ segs.

(** A row of a line program's table: address, the file's path from the repository, line. *)
Record row := mkRow { address : Z; path : text; line : Z; end_sequence : bool }.
(** [line_ranges]: the ranges of a source line, of a compilation unit's entries and of all. *)
#[local] Abbreviation ranges_of := (gmap (text * Z) (list (Z * Z))).
Definition add_range (prefixes : list text) (prev : option (Z * text * Z)) (addr : Z) (out : ranges_of) : ranges_of :=
  match prev with
  | Some (lo, rel, n) =>
      if (lo <? addr) && negb (n =? 0) && existsb (fun p => startswith p rel) prefixes
      then <[(rel, n) := default [] (out !! (rel, n)) ++ [(lo, addr)]]> out else out
  | None => out
  end.
Fixpoint unit_ranges (prefixes : list text) (prev : option (Z * text * Z)) (entries : list (option row)) (out : ranges_of) : ranges_of :=
  match entries with
  | [] => out
  | None :: es => unit_ranges prefixes prev es out
  | Some st :: es =>
      unit_ranges prefixes (if end_sequence st then None else Some (address st, path st, line st)) es (add_range prefixes prev (address st) out)
  end.
Definition line_ranges (prefixes : list text) (units : list (list (option row))) : ranges_of :=
  foldl (fun out es => unit_ranges prefixes None es out) ∅ units.

(** [excluded], of the sources' texts. *)
Definition excluded (source : text -> option text) (p : text) (n : Z) : bool :=
  let lines := match source p with Some t => split_char 10 t | None => [] end in
  (0 <? n) && (n <=? len lines) && contains (txt "cov:exclude(") (default [] (lines !! Z.to_nat (n - 1))).

(** [bisect.bisect_left] of a sorted list. *)
Fixpoint bisect_left (l : list Z) (x : Z) : nat := match l with y :: l => if y <? x then S (bisect_left l x) else 0 | [] => 0 end.
(** [cover_elf]: the addresses where a word of the image ran, and whether a range has one. *)
Definition ran (words : gmap Z Z) (hits : gset (Z * Z)) : list Z :=
  merge_sort Z.le (elements (list_to_set (C := gset Z) (flat_map (fun '(p, w) => filter (fun a => words !! a = Some w) [p; Z.lor p 0x80000000]) (elements hits)))).
Definition range_ran (addrs : list Z) (r : Z * Z) : bool := match addrs !! bisect_left addrs (fst r) with Some a => a <? snd r | None => false end.
Definition cover_elf (source : text -> option text) (segs : list segment) (units : list (list (option row))) (prefixes : list text) (hits : gset (Z * Z)) : gmap (text * Z) bool :=
  let addrs := ran (elf_words segs) hits in
  fmap (existsb (range_ran addrs)) (filter (fun kv => excluded source (fst (fst kv)) (snd (fst kv)) = false) (line_ranges prefixes units)).

(** ** A Hack image *)

(** The binary's big-endian words; a trailing byte is left out. *)
Definition be_words (data : bytes) : list Z := map (fun c => le_combine (rev c)) (filter (fun c => length c = 2%nat) (chunks 2 data)).
(** An instruction's text on a line, if it has one. *)
Definition instruction (raw : text) : option text :=
  let s := py_strip (match partition (txt "//") raw with Some (a, _) => a | None => raw end) in
  if bool_decide (s = []) || (startswith [40] s && bool_decide (last s = Some 41)) then None else Some s.
(** [index_line] and [literals]. *)
Definition literal (s : text) : option Z :=
  match s with c :: t => if (c =? 64) && negb (bool_decide (t = [])) && forallb is_dec t then Some (int_of t) else None | [] => None end.
Definition instructions (asm : list text) : list (Z * text) := omap (fun '(n, raw) => pair n <$> instruction raw) (zip (seqZ 1 (len asm)) asm).
(** [cover_hack]; the messages of its exits are left out. *)
Definition hack_ran (words : list Z) (hits : gset (Z * Z)) (i : Z) : bool :=
  existsb (fun '(p, w) => (p / 2 =? i) && bool_decide (words !! Z.to_nat i = Some w)) (elements hits).
Definition mark (lines : gmap Z bool) (n : Z) (hit : bool) : gmap Z bool := <[n := default false (lines !! n) || hit]> lines.
Definition cover_hack (asm : list text) (data : bytes) (hits : gset (Z * Z)) : res (gmap Z bool) :=
  let words := be_words data in
  let ins := instructions asm in
  if negb (bool_decide (length ins = length words)) then Raise (Exit [])
  else
    let literals := omap (fun '(i, (_, s)) => pair i <$> literal s) (zip (seqZ 0 (len ins)) ins) in
    if existsb (fun '(i, v) => negb (bool_decide (words !! Z.to_nat i = Some v))) literals || bool_decide (literals = []) then Raise (Exit [])
    else
      Ok (foldl (fun lines '(i, (n, _)) => mark lines n (hack_ran words hits i)) ∅ (zip (seqZ 0 (len ins)) ins)).

(** ** The check against the minimum *)

(** [pct], and whether it is below [want]. *)
Definition percent (covered total : Z) : float := of_ratio (100 * covered) (Z.max total 1).
Definition below (covered total : Z) (want : float) : bool := flt (fadd (percent covered total) (of_decimal 1 (-9))) want.
Definition counted {K} `{Countable K} (lines : gmap K bool) : Z * Z :=
  (len (filter (fun kv => snd kv = true) (map_to_list lines)), len (map_to_list lines)).

(** ** Keys, written and read back *)

Lemma int16_line k : 0 <= k -> int16 (cov_line k) = Ok k.
Proof.
  intros Hk. unfold int16, cov_line, fmt_hex. set (n := Nat.max 0 _). fold (hex_digits n k).
  assert (Hn : (1 <= n)%nat /\ k < 16 ^ Z.of_nat n).
  { pose proof (Z.log2_nonneg k). pose proof (Z.div_pos (Z.log2 k) 4 ltac:(lia) ltac:(lia)). unfold n. split; [lia|]. rewrite Nat.max_0_l, Z2Nat.id by lia.
    destruct (Z.eq_dec k 0) as [->|]; [done|]. pose proof (Z.log2_spec k ltac:(lia)) as [_ Hl]. change 16 with (2 ^ 4). rewrite <- Z.pow_mul_r by lia. eapply Z.lt_le_trans; [exact Hl|]. apply Z.pow_le_mono_r; [lia|]. dlia. }
  clearbody n. destruct n as [|n]; [lia|]. rewrite strip_digits; [|apply hex_digits_nospace|by rewrite hex_digits_S]. pose proof (parse_hex_digits (S n) k 0) as Hp. rewrite hex_digits_S in Hp |- *. rewrite Hp. by rewrite Z.mul_0_l, Z.add_0_l, Z.mod_small by lia.
Qed.
Lemma coverage_back socs : (forall k, k ∈ ⋃ socs -> 0 <= k) -> exists ks, mapM int16 (write_coverage socs) = Ok ks /\ forall k, k ∈ ks <-> k ∈ ⋃ socs.
Proof.
  intros Hk. unfold write_coverage. set (ks := merge_sort Z.le (elements (⋃ socs))). assert (Hin : forall k, k ∈ ks <-> k ∈ ⋃ socs) by (intros k; unfold ks; rewrite merge_sort_Permutation; apply elem_of_elements).
  exists ks. split; [|done]. assert (Hpos : Forall (fun k => 0 <= k) ks) by (apply Forall_forall; intros k H; by apply Hk, Hin). clearbody ks. clear -Hpos. induction Hpos as [|k ks Hk Hpos IH]; [done|]. cbn [map]. by rewrite mapM_cons, int16_line, IH.
Qed.
Lemma hit_key b p i : 0 <= p < 2 ^ 32 -> 0 <= i < 2 ^ 32 -> hit (cov_key b p i) = (b, (p mod 2 ^ 31, i)) /\ 0 <= cov_key b p i.
Proof.
  intros Hp Hi. assert (E : cov_key b p i = p mod 2 ^ 31 * 2 ^ 33 + Z.b2z b * 2 ^ 32 + i).
  { unfold cov_key. assert (Hu : u64 (Z.shiftl p 33) = Z.shiftl (p mod 2 ^ 31) 33). { unfold u64. rewrite !Z.shiftl_mul_pow2 by lia. change (2 ^ 64) with (2 ^ 31 * 2 ^ 33). by rewrite Zmult_mod_distr_r. }
    rewrite Hu. rewrite <- Z.lor_assoc. pose proof (Z.mod_pos_bound p (2 ^ 31) ltac:(lia)). rewrite (lor_shiftl_add (Z.b2z b) i 32) by (destruct b; cbn; lia).
    rewrite lor_shiftl_add by (destruct b; cbn; lia). lia. }
  rewrite E. pose proof (Z.mod_pos_bound p (2 ^ 31) ltac:(lia)). split; [|destruct b; cbn; lia]. unfold hit. rewrite !shiftr_div by lia. rewrite (land_mask _ 1), (land_mask _ 32) by lia. change (2 ^ 1) with 2.
  replace ((p mod 2 ^ 31 * 2 ^ 33 + Z.b2z b * 2 ^ 32 + i) / 2 ^ 32) with (p mod 2 ^ 31 * 2 + Z.b2z b); [|apply Z.div_unique with i; [lia|destruct b; cbn; lia]].
  replace ((p mod 2 ^ 31 * 2 ^ 33 + Z.b2z b * 2 ^ 32 + i) / 2 ^ 33) with (p mod 2 ^ 31); [|apply Z.div_unique with (Z.b2z b * 2 ^ 32 + i); [destruct b; cbn; lia|lia]].
  replace ((p mod 2 ^ 31 * 2 ^ 33 + Z.b2z b * 2 ^ 32 + i) mod 2 ^ 32) with i; [|apply Z.mod_unique with (p mod 2 ^ 31 * 2 + Z.b2z b); [lia|destruct b; cbn; lia]].
  f_equal. destruct b; cbn [Z.b2z].
  - replace ((p mod 2 ^ 31 * 2 + 1) mod 2) with 1; [done|]. apply Z.mod_unique with (p mod 2 ^ 31); lia.
  - replace ((p mod 2 ^ 31 * 2 + 0) mod 2) with 0; [done|]. apply Z.mod_unique with (p mod 2 ^ 31); lia.
Qed.

(** ** What the machine records *)

Definition key_of (r : Retired) : Z := cov_key (r_riscv r) (r_pc (r_base r)) (r_instr (r_base r)).
Lemma cov_step s k : cov s = Some k -> cov (soc_step s).1 = Some ({[key_of (soc_step s).2]} ∪ k).
Proof.
  intros H. unfold soc_step. destruct (if riscv_mode s then _ else _) as [[c r] rd2]. destruct (Gpio.take_soft_reset _) as [sr g]. rewrite H. unfold key_of. cbn [fst snd fmap option_fmap option_map r_riscv r_base]. by destruct sr.
Qed.
(** An instruction's record keeps its address and its word. *)
Section Records.
Context {B : Type} `{Bus B}.
Definition keeps (r : Retire) (o : outcome B) : Prop := r_pc (snd o) = r_pc r /\ r_instr (snd o) = r_instr r.
Lemma keeps_write_rd r rd v o : keeps r o -> keeps r (write_rd rd v o).
Proof. destruct o as [s r']. intros [H1 H2]. unfold write_rd. by destruct (rd =? 0). Qed.
Lemma keeps_finish r next b o : keeps r o -> keeps r (finish next b o).
Proof. by destruct o. Qed.
Lemma keeps_trap r cause tval o : keeps r o -> keeps r (take_trap cause tval o).
Proof. by destruct o. Qed.
Lemma keeps_jump r t o o' : keeps r o -> keeps r o' -> keeps r (jump t o o').
Proof. intros H1 H2. unfold jump. destruct (negb _); [by apply keeps_trap|by apply keeps_finish]. Qed.
Lemma keeps_csr r i o : keeps r o -> keeps r (exec_csr i o).1.
Proof.
  destruct o as [s r']. intros Hk. unfold exec_csr. cbv zeta. match goal with |- context [let '(_, _) := ?e in _] => destruct e as [s' counts] end.
  by apply keeps_write_rd.
Qed.
Lemma keeps_amo r i o : keeps r o -> keeps r (exec_amo i o).2.
Proof.
  destruct o as [s r']. intros Hk. unfold exec_amo. cbv zeta. destruct (negb _); [done|]. destruct (_ =? AMO_SC).
  - cbn [snd]. destruct (bool_decide _); [destruct (rv_write _ _ _ _ _)|]; by apply keeps_write_rd.
  - destruct (rv_load_wait _ _) as [w b]. destruct (rv_read_word _ _ _) as [old b']. destruct (_ =? AMO_LR); [by apply keeps_write_rd|].
    destruct (rv_write _ _ _ _ _). by apply keeps_write_rd.
Qed.
Lemma keeps_exec r i s : keeps r (exec i (s, r)).
Proof.
  unfold exec. cbv zeta.
  destruct (_ && _); [by apply keeps_finish, keeps_write_rd|]. destruct (_ || _); [by apply keeps_finish, keeps_write_rd|].
  destruct (_ =? OP_LUI); [by apply keeps_finish, keeps_write_rd|]. destruct (_ =? OP_AUIPC); [by apply keeps_finish, keeps_write_rd|].
  destruct (_ =? OP_JAL); [apply keeps_jump; [|apply keeps_write_rd]; done|]. destruct (_ =? OP_JALR); [apply keeps_jump; [|apply keeps_write_rd]; done|].
  destruct (_ =? OP_BRANCH); [destruct (branch_taken _ _ _); [apply keeps_jump; done|by apply keeps_finish]|].
  destruct (_ =? OP_LOAD).
  { destruct (misaligned _ _); [by apply keeps_trap|]. destruct (rv_load_wait _ _) as [w b]. destruct (rv_read_word _ _ _). by apply keeps_finish, keeps_write_rd.  }
  destruct (_ =? OP_STORE).
  { destruct (misaligned _ _); [by apply keeps_trap|]. destruct (store_data _ _ _). destruct (rv_write _ _ _ _ _). by apply keeps_finish. }
  destruct (_ =? OP_AMO).
  { pose proof (keeps_amo r i (s, r_set_cycles 2 r) ltac:(done)) as Ha. destruct (exec_amo _ _) as [[cause|] o]; [by apply keeps_trap|by apply keeps_finish]. }
  destruct (_ =? OP_SYSTEM); [|by apply keeps_finish]. destruct (_ =? 0).
  - destruct (i =? _); [by apply keeps_trap|]. destruct (i =? _); [by apply keeps_trap|]. destruct (i =? _); by apply keeps_finish.
  - pose proof (keeps_csr r i (s, r_set_cycles 2 r) ltac:(done)) as Hc. destruct (exec_csr _ _) as [o counts]. by apply keeps_finish.
Qed.
Lemma rv_record s : let r := (step s).2 in r_pc r = pc s /\ r_instr r = (fetch (pc s) (bus s)).1.1.
Proof.
  unfold step. destruct (fetch (pc s) (bus s)) as [[word wait] b]. cbn [fst snd].
  set (s1 := set_csr _ _). set (r := mkRetire _ _ _ _ _ _ _ _). assert (Hk : keeps (r_set_instr word r) (step_rv word (sample_interrupt s1) (s1, r))).
  { unfold step_rv. cbv zeta. destruct (sample_interrupt s1); [by apply keeps_trap|]. destruct (rv_illegal _ _); [by apply keeps_trap|apply keeps_exec]. }
  by destruct (step_rv word (sample_interrupt s1) (s1, r)) as [s2 r2].
Qed.
End Records.
Lemma hack_record word s r : let r' := (step_hack word (s, r)).1.2 in
  r_pc r' = r_pc r /\ r_instr r' = if negb (Z.land (pc s) 2 =? 0) then Z.shiftr word 16 else Z.land word 0xFFFF.
Proof.
  unfold step_hack. cbv zeta. set (ins := if negb _ then _ else _). clearbody ins. destruct (_ =? 0); [done|]. unfold hack_c. cbv zeta.
  assert (Hk : forall rd v (s : cpu real_bus), keeps (r_set_instr ins r) (write_rd rd v (s, r_set_instr ins r))) by (intros; by apply keeps_write_rd).
  match goal with |- context [let '(_, _) := ?e in _] => destruct e as [[y rw] b] end.
  match goal with |- context [let '(_, _) := ?e in _] => assert (Hs : keeps (r_set_instr ins r) (e.1.2, e.2)); [|destruct e as [[ww s1] r1]] end.
  { destruct (negb _); [|done]. by destruct (hack_write _ _ _ _). }
  cbn [fst snd] in Hs. match goal with |- context [let '(_, _) := ?e in _] => assert (Ha : keeps (r_set_instr ins r) e); [|destruct e as [s2 r2]] end.
  { destruct (negb _); [by apply keeps_write_rd|done]. }
  match goal with |- context [let '(_, _) := ?e in _] => assert (Hd : keeps (r_set_instr ins r) e.1); [|destruct e as [[s3 r3] rd2]] end.
  { destruct (negb _); [|done]. destruct (negb _); [done|by apply keeps_write_rd]. }
  destruct (negb _ && negb _); apply Hd.
Qed.
(** A retired instruction: the program counter, and its word or half. *)
Lemma retired_of s : let r := (soc_step s).2 in
  r_riscv r = riscv_mode s /\ r_pc (r_base r) = pc (core s) /\
  r_instr (r_base r) = if riscv_mode s then (fetch (pc (core s)) (bus (core s))).1.1
    else let word := (hack_fetch (pc (core s)) (bus (core s))).1.1 in if negb (Z.land (pc (core s)) 2 =? 0) then Z.shiftr word 16 else Z.land word 0xFFFF.
Proof.
  unfold soc_step. destruct (riscv_mode s).
  - pose proof (rv_record (core s)) as [H1 H2]. destruct (step (core s)) as [c r]. by destruct (Gpio.take_soft_reset _).
  - unfold hack_step. destruct (hack_fetch _ _) as [[word wait] b]. set (s1 := set_csr _ _). set (r := mkRetire _ _ _ _ _ _ _ _).
    pose proof (hack_record word s1 r) as [H1 H2]. destruct (step_hack word (s1, r)) as [[s2 r2] rd2]. by destruct (Gpio.take_soft_reset _).
Qed.
Lemma retired_u32 l s : soc_ok l s -> is_u32 (r_pc (r_base (soc_step s).2)) /\ is_u32 (r_instr (r_base (soc_step s).2)).
Proof.
  intros Hs. pose proof (retired_of s) as (_ & Hp & Hi). rewrite Hp, Hi. destruct Hs as [Hc [Hu _] _ _]. split; [done|].
  pose proof (wf_bus _ Hc) as Hb. destruct (riscv_mode s); [by apply fetch_ok|]. cbv zeta. unfold hack_fetch. destruct (window_fetch _ _) as [[w k] b] eqn:E. apply window_fetch_spec in E as (_ & _ & ->).
  cbn [fst]. pose proof (ro_xmem _ Hb (xmem_index (Z.lor HACK_I_BASE (Z.land (pc (core s)) 0xFFFF)))) as Hx. change (bus (set_pc 0 (core s))) with (bus (core s)) in Hx. revert Hx. generalize (xmem (bus (core s)) (xmem_index (Z.lor HACK_I_BASE (Z.land (pc (core s)) 0xFFFF)))). unfold is_u32. intros w' Hw.
  destruct (negb _); [rewrite shiftr_div by lia; dlia|]. rewrite (land_mask _ 16) by lia. dlia.
Qed.

(** ** The hits read back *)

(** A SoC that started with coverage on, and what it has executed: it steps, and between steps
    the host may do to it what leaves a well-formed machine and the coverage (its input, a
    reset, a load). *)
Inductive recorded : list Retired -> soc -> Prop :=
| recorded_start l s : soc_ok l s -> cov s = Some ∅ -> recorded [] s
| recorded_step rs s : recorded rs s -> recorded (rs ++ [(soc_step s).2]) (soc_step s).1
| recorded_host l rs s s' : recorded rs s -> cov s' = cov s -> soc_ok l s' -> recorded rs s'.
Lemma recorded_load rs s l addr bs s' : recorded rs s -> soc_ok l s -> load_xmem addr bs s = Some s' -> recorded rs s'.
Proof.
  intros Hr Hs Hl. apply (recorded_host l rs s s' Hr); [|by apply (load_xmem_ok l addr bs s s')]. unfold load_xmem in Hl. destruct (_ || _); [done|].
  destruct (load_window _ _ _ _) as [m k]. by injection Hl as <-.
Qed.
Lemma recorded_steps rs s n : recorded rs s -> exists more, recorded (rs ++ more) (soc_steps n s).
Proof.
  revert rs s. induction n as [|n IH]; intros rs s H; [exists []; by rewrite app_nil_r|]. destruct (IH _ _ (recorded_step _ _ H)) as [more Hm].
  exists ((soc_step s).2 :: more). cbn [soc_steps]. by rewrite <- app_assoc in Hm.
Qed.
Definition u32_record (r : Retired) : Prop := is_u32 (r_pc (r_base r)) /\ is_u32 (r_instr (r_base r)).
Lemma recorded_keys rs s : recorded rs s -> (exists l, soc_ok l s) /\ (exists ks, cov s = Some ks /\ forall k, k ∈ ks <-> k ∈ map key_of rs) /\ Forall u32_record rs.
Proof.
  induction 1 as [l s Hs Hc|rs s H IH|l rs s s' H IH Hc Hs].
  - split; [by exists l|]. split; [|done]. exists ∅. split; [done|]. intros k. cbn [map]. rewrite elem_of_nil. set_solver.
  - destruct IH as ([l Hs] & (ks & Hk & Hin) & Hu). pose proof (soc_step_ok l s Hs) as [H1 _]. split; [by exists l|]. split.
    + eexists. split; [by apply cov_step|]. intros k. rewrite map_app, elem_of_union, elem_of_app, elem_of_singleton, Hin. cbn [map]. rewrite list_elem_of_singleton. tauto.
    + apply Forall_app. split; [done|]. constructor; [by apply (retired_u32 l)|constructor].
  - destruct IH as (_ & (ks & Hk & Hin) & Hu). split; [by exists l|]. split; [|done]. exists ks. by rewrite Hc.
Qed.

(** The processes of a coverage run: the SoCs of each, with what they executed. *)
Definition processes : Type := list (list (list Retired * soc)).
Definition files_of (ps : processes) : list (list string) := map (fun p => write_coverage (map (fun rs => default ∅ (cov (snd rs))) p)) ps.
Definition executed (ps : processes) : list Retired := concat (map fst (concat ps)).
Lemma mapM_int16_app l k a b : mapM int16 l = Ok a -> mapM int16 k = Ok b -> mapM int16 (l ++ k) = Ok (a ++ b).
Proof.
  revert a. induction l as [|x l IH]; intros a Ha Hb; [by injection Ha as <-|]. cbn [app]. rewrite mapM_cons in Ha |- *. destruct (int16 x) as [v|]; [|done]. cbn [mbind res_bind] in *.
  destruct (mapM int16 l) as [vs|]; [|done]. cbn [mbind res_bind] in Ha. injection Ha as <-. by rewrite (IH vs eq_refl Hb).
Qed.
Lemma process_keys (p : list (list Retired * soc)) : Forall (fun rs => recorded (fst rs) (snd rs)) p ->
  (forall k, k ∈ ⋃ map (fun rs => default ∅ (cov (snd rs))) p <-> k ∈ map key_of (concat (map fst p))) /\ Forall u32_record (concat (map fst p)).
Proof.
  induction 1 as [|[rs s] p H Hp [IH1 IH2]]; [split; [|constructor]; intros k; cbn [map concat]; rewrite elem_of_nil; set_solver|]. cbn [map fst snd concat union_list foldr] in *.
  apply recorded_keys in H as (_ & (ks & -> & Hk) & Hu). split; [|by apply Forall_app]. intros k. cbn [default]. rewrite map_app, elem_of_app, <- Hk, <- IH1. unfold union_list. cbn [foldr]. by rewrite elem_of_union.
Qed.
Lemma files_back ps : Forall (Forall (fun rs => recorded (fst rs) (snd rs))) ps ->
  exists ks, mapM int16 (concat (files_of ps)) = Ok ks /\ (forall k, k ∈ ks <-> k ∈ map key_of (executed ps)) /\ Forall u32_record (executed ps).
Proof.
  unfold files_of, executed. induction 1 as [|p ps Hp Hps (ks & Hm & Hk & Hu)]; [by exists []|]. destruct (process_keys p Hp) as [Hpk Hpu].
  destruct (coverage_back (map (fun rs => default ∅ (cov (snd rs))) p)) as (k1 & H1 & H1k).
  { intros k. rewrite Hpk, list_elem_of_fmap. intros (r & -> & Hr). rewrite Forall_forall in Hpu. destruct (Hpu r Hr) as [Hup Hui]. exact (proj2 (hit_key (r_riscv r) _ _ Hup Hui)). }
  exists (k1 ++ ks). cbn [map concat]. split; [by apply mapM_int16_app|]. rewrite map_app, concat_app. split; [|by apply Forall_app].
  intros k. by rewrite map_app, !elem_of_app, H1k, Hpk, Hk.
Qed.
Lemma hits_back ps : Forall (Forall (fun rs => recorded (fst rs) (snd rs))) ps -> exists rv hack,
  load_hits (files_of ps) = Ok (rv, hack) /\
  forall p w isa, (p, w) ∈ (if isa : bool then rv else hack) <-> exists r, r ∈ executed ps /\ r_riscv r = isa /\ p = r_pc (r_base r) mod 2 ^ 31 /\ w = r_instr (r_base r).
Proof.
  intros Hps. destruct (files_back ps Hps) as (ks & Hm & Hk & Hu). rewrite Forall_forall in Hu.
  assert (Hpos : forall r, r ∈ executed ps -> hit (key_of r) = (r_riscv r, (r_pc (r_base r) mod 2 ^ 31, r_instr (r_base r)))) by (intros r Hr; destruct (Hu r Hr) as [Hup Hui]; exact (proj1 (hit_key (r_riscv r) _ _ Hup Hui))).
  unfold load_hits. rewrite Hm. cbn [mbind res_bind]. eexists _, _. split; [reflexivity|]. intros p w isa.
  assert (Hg : forall b, (p, w) ∈ map snd (filter (fun h : bool * (Z * Z) => fst h = b) (map hit ks)) <-> exists r, r ∈ executed ps /\ r_riscv r = b /\ p = r_pc (r_base r) mod 2 ^ 31 /\ w = r_instr (r_base r)).
  { intros b. rewrite list_elem_of_fmap. setoid_rewrite list_elem_of_filter. setoid_rewrite list_elem_of_fmap. split.
    - intros ([b' [p' w']] & [= <- <-] & <- & k & Hh & Hin). apply Hk, list_elem_of_fmap in Hin as (r & -> & Hr). rewrite (Hpos r Hr) in Hh. injection Hh as -> -> ->. by exists r.
    - intros (r & Hr & Hb & -> & ->). exists (b, (r_pc (r_base r) mod 2 ^ 31, r_instr (r_base r))). split; [done|]. split; [done|]. exists (key_of r). split; [rewrite (Hpos r Hr); by rewrite Hb|]. apply Hk, list_elem_of_fmap. by exists r. }
  destruct isa; rewrite elem_of_list_to_set; apply Hg.
Qed.

(** ** The lines marked *)

Lemma range_ran_spec addrs lo hi : Sorted Z.le addrs -> range_ran addrs (lo, hi) = true <-> exists a, a ∈ addrs /\ lo <= a < hi.
Proof.
  intros Hs. unfold range_ran. cbn [fst snd]. apply Sorted_StronglySorted in Hs; [|exact Z.le_trans]. induction Hs as [|x l Hs IH Hx].
  - split; [done|]. by intros (a & Ha%elem_of_nil & _).
  - cbn [bisect_left]. rewrite List.Forall_forall in Hx. destruct (Z.ltb_spec x lo); cbn [lookup list_lookup].
    + rewrite IH. setoid_rewrite elem_of_cons. split; [intros (a & ? & ?); exists a; by auto|]. intros (a & [->|?] & ?); [lia|]. by exists a.
    + split.
      * intros Hh%Z.ltb_lt. exists x. split; [apply elem_of_cons; by left|lia].
      * intros (a & Ha & ?). apply Z.ltb_lt. apply elem_of_cons in Ha as [->|Ha]; [lia|]. apply list_elem_of_In in Ha. specialize (Hx a Ha). lia.
Qed.
Lemma ran_spec words hits a : a ∈ ran words hits <-> exists p w, (p, w) ∈ hits /\ (a = p \/ a = Z.lor p 0x80000000) /\ words !! a = Some w.
Proof.
  unfold ran. rewrite merge_sort_Permutation, elem_of_elements, elem_of_list_to_set, list_elem_of_In, in_flat_map. split.
  - intros ([p w] & Hin & Ha). apply list_elem_of_In, elem_of_elements in Hin. apply list_elem_of_In, list_elem_of_filter in Ha as [Hw Ha]. exists p, w. split; [done|]. split; [set_solver|done].
  - intros (p & w & Hin & Ha & Hw). exists (p, w). split; [by apply list_elem_of_In, elem_of_elements|]. apply list_elem_of_In, list_elem_of_filter. split; [done|set_solver].
Qed.
Lemma alias_spec p a : is_u32 p -> (a = p mod 2 ^ 31 \/ a = Z.lor (p mod 2 ^ 31) 0x80000000) <-> is_u32 a /\ a mod 2 ^ 31 = p mod 2 ^ 31.
Proof.
  intros Hp. pose proof (Z.mod_pos_bound p (2 ^ 31) ltac:(lia)). rewrite Z.lor_comm. change 0x80000000 with (Z.shiftl 1 31). rewrite lor_shiftl_add by lia. unfold is_u32 in *. dlia.
Qed.

(** What the marks should say: an instruction ran at an address, with the word that the file has
    there; and what the record leaves of that, an address' low 31 bits. *)
Definition ran_at (rs : list Retired) (words : gmap Z Z) (a : Z) : Prop :=
  exists r, r ∈ rs /\ r_riscv r = true /\ a = r_pc (r_base r) /\ words !! a = Some (r_instr (r_base r)).
Definition ran_near (rs : list Retired) (words : gmap Z Z) (a : Z) : Prop :=
  exists r, r ∈ rs /\ r_riscv r = true /\ is_u32 a /\ a mod 2 ^ 31 = r_pc (r_base r) mod 2 ^ 31 /\ words !! a = Some (r_instr (r_base r)).
(** Nothing ran 2 GiB from where the file has the same word. *)
Definition unaliased (rs : list Retired) (words : gmap Z Z) : Prop :=
  forall r a, r ∈ rs -> r_riscv r = true -> is_u32 a -> a <> r_pc (r_base r) -> a mod 2 ^ 31 = r_pc (r_base r) mod 2 ^ 31 -> words !! a <> Some (r_instr (r_base r)).
(** A line of the sources that the line table knows and that isn't excluded is listed; it is
    covered when an instruction of the line ran. *)
Definition elf_exact (source : text -> option text) (units : list (list (option row))) (prefixes : list text) (ran : Z -> Prop) (lines : gmap (text * Z) bool) : Prop :=
  forall p ln, (lines !! (p, ln) <> None <-> line_ranges prefixes units !! (p, ln) <> None /\ excluded source p ln = false) /\
  (lines !! (p, ln) = Some true <-> excluded source p ln = false /\
    exists ranges lo hi a, line_ranges prefixes units !! (p, ln) = Some ranges /\ (lo, hi) ∈ ranges /\ lo <= a < hi /\ ran a).
(** A Hack program's line is covered when its instruction ran, at its place with its word. *)
Definition hack_exact (asm : list text) (data : bytes) (rs : list Retired) (lines : gmap Z bool) : Prop :=
  forall ln, (lines !! ln <> None <-> exists i t, instructions asm !! i = Some (ln, t)) /\
  (lines !! ln = Some true <-> exists i t r, instructions asm !! i = Some (ln, t) /\ r ∈ rs /\ r_riscv r = false /\
    r_pc (r_base r) mod 2 ^ 31 / 2 = Z.of_nat i /\ be_words data !! i = Some (r_instr (r_base r))).
Lemma elf_exact_same source units prefixes (R R' : Z -> Prop) lines : (forall a, R a <-> R' a) -> elf_exact source units prefixes R lines -> elf_exact source units prefixes R' lines.
Proof. intros HR H p ln. destruct (H p ln) as [H1 H2]. split; [done|]. rewrite H2. by setoid_rewrite HR. Qed.

Section Marks.
Context (rs : list Retired) (Hu : Forall u32_record rs).

Lemma elf_marks (source : text -> option text) (segs : list segment) (units : list (list (option row))) (prefixes : list text) (rv : gset (Z * Z)) :
  (forall p w, (p, w) ∈ rv <-> exists r, r ∈ rs /\ r_riscv r = true /\ p = r_pc (r_base r) mod 2 ^ 31 /\ w = r_instr (r_base r)) ->
  elf_exact source units prefixes (ran_near rs (elf_words segs)) (cover_elf source segs units prefixes rv).
Proof.
  intros Hrv. pose proof (proj1 (Forall_forall _ _) Hu) as Hu32. set (addrs := ran (elf_words segs) rv).
  assert (Ha : forall a, a ∈ addrs <-> ran_near rs (elf_words segs) a).
  { intros a. unfold addrs. rewrite ran_spec. split.
    - intros (p & w & Hin & Hp & Hw). apply Hrv in Hin as (r & Hr & Hb & -> & ->). exists r. split; [done|]. split; [done|]. destruct (Hu32 r Hr) as [Hup Hui]. apply alias_spec in Hp as [? ?]; done.
    - intros (r & Hr & Hb & Hau & Hm & Hw). exists (r_pc (r_base r) mod 2 ^ 31), (r_instr (r_base r)). destruct (Hu32 r Hr) as [Hup Hui]. split; [apply Hrv; by exists r|]. split; [by apply alias_spec|done]. }
  assert (Hx : forall ranges, existsb (range_ran addrs) ranges = true <-> exists lo hi a, (lo, hi) ∈ ranges /\ lo <= a < hi /\ ran_near rs (elf_words segs) a).
  { intros ranges. rewrite existsb_exists. split.
    - intros ([lo hi] & Hin & Hr). apply range_ran_spec in Hr as (a & Hin2 & Hlt); [|apply Sorted_merge_sort, Z.le_total]. exists lo, hi, a. split; [by apply list_elem_of_In|]. split; [done|by apply Ha].
    - intros (lo & hi & a & Hin & Hlt & Hr). exists (lo, hi). split; [by apply list_elem_of_In|]. apply range_ran_spec; [apply Sorted_merge_sort, Z.le_total|]. exists a. split; [by apply Ha|done]. }
  intros p ln. unfold cover_elf. fold addrs. rewrite lookup_fmap, map_lookup_filter. cbn [fst snd].
  destruct (line_ranges prefixes units !! (p, ln)) as [ranges|]; cbn [mbind option_bind fmap option_fmap option_map]; [|split; (split; [done|]); [by intros [? _]|by intros (_ & ? & ? & ? & ? & ? & _)]].
  destruct (excluded source p ln); cbn; [split; (split; [done|]); [by intros [_ ?]|by intros [? _]]|].
  rewrite option_guard_True by done. cbn. split; [done|]. split.
  - intros [= Hh]. split; [done|]. apply Hx in Hh as (lo & hi & a & H1 & H2 & H3). by exists ranges, lo, hi, a.
  - intros (_ & rs' & lo & hi & a & [= <-] & H1 & H2 & H3). f_equal. apply Hx. by exists lo, hi, a.
Qed.

Lemma marks_fold (ran_at : Z -> bool) (items : list (Z * (Z * text))) (m : gmap Z bool) ln :
  let out := foldl (fun lines '(i, (n, _)) => mark lines n (ran_at i)) m items in
  (out !! ln <> None <-> m !! ln <> None \/ exists i t, (i, (ln, t)) ∈ items) /\
  (out !! ln = Some true <-> m !! ln = Some true \/ exists i t, (i, (ln, t)) ∈ items /\ ran_at i = true).
Proof.
  revert m. induction items as [|[i [k t]] items IH]; intros m; cbn [foldl].
  - split; (split; [by left|]); intros [?|(i & t & H)]; try done; [|destruct H as [H _]]; by apply elem_of_nil in H.
  - destruct (IH (mark m k (ran_at i))) as [H1 H2]. cbv zeta in H1, H2 |- *. rewrite H1, H2. unfold mark. setoid_rewrite elem_of_cons. destruct (decide (k = ln)) as [->|Hne].
    + rewrite lookup_insert_eq. split.
      * split; [intros _; right; exists i, t; by left|by left].
      * split.
        -- intros [[= E]|(i' & t' & ? & ?)]; [|right; exists i', t'; auto]. apply orb_true_iff in E as [E|E]; [|right; exists i, t; auto]. left. destruct (m !! ln) as [b|]; [by cbn in E; subst|done].
        -- intros [->|(i' & t' & [[= -> ->]|?] & E)]; [by left|left; by rewrite E, orb_true_r|right; by exists i', t'].
    + rewrite lookup_insert_ne by done. split; (split; [intros [?|(i' & t' & H)]; [by left|right; exists i', t'; tauto]|]); intros [?|(i' & t' & H)]; try (by left).
      * destruct H as [[= _ -> _]|H]; [done|right; by exists i', t'].
      * destruct H as [[[= _ -> _]|H] E]; [done|right; by exists i', t'].
Qed.
Lemma numbered {A} (xs : list A) i x : (i, x) ∈ zip (seqZ 0 (len xs)) xs <-> exists k, i = Z.of_nat k /\ xs !! k = Some x.
Proof.
  rewrite list_elem_of_lookup. setoid_rewrite lookup_zip_with_Some. split.
  - intros (k & i' & x' & [= <- <-] & H1 & H2). apply lookup_seqZ in H1 as [-> _]. exists k. by split; [lia|].
  - intros (k & -> & H). exists k, (Z.of_nat k), x. split; [done|]. split; [|done]. apply lookup_seqZ. apply lookup_lt_Some in H. unfold len. lia.
Qed.
Lemma hack_marks (asm : list text) (data : bytes) (hack : gset (Z * Z)) (lines : gmap Z bool) :
  (forall p w, (p, w) ∈ hack <-> exists r, r ∈ rs /\ r_riscv r = false /\ p = r_pc (r_base r) mod 2 ^ 31 /\ w = r_instr (r_base r)) ->
  cover_hack asm data hack = Ok lines -> hack_exact asm data rs lines.
Proof.
  intros Hh. unfold cover_hack. cbv zeta. destruct (negb _); [done|]. destruct (_ || _); [done|]. set (at_ := hack_ran (be_words data) hack). intros [= <-] ln. change (fun lines '(i, (n, _)) => mark lines n (hack_ran (be_words data) hack i)) with (fun (lines : gmap Z bool) '((i, (n, _)) : Z * (Z * text)) => mark lines n (at_ i)).
  assert (Ha : forall k, at_ (Z.of_nat k) = true <-> exists r, r ∈ rs /\ r_riscv r = false /\ r_pc (r_base r) mod 2 ^ 31 / 2 = Z.of_nat k /\ be_words data !! k = Some (r_instr (r_base r))).
  { intros k. unfold at_, hack_ran. rewrite existsb_exists. split.
    - intros ([p w] & Hin & Hb). apply andb_true_iff in Hb as [Hp%Z.eqb_eq Hw%bool_decide_eq_true]. apply list_elem_of_In, elem_of_elements, Hh in Hin as (r & H1 & H2 & -> & ->). rewrite Nat2Z.id in Hw. by exists r.
    - intros (r & H1 & H2 & H3 & H4). exists (r_pc (r_base r) mod 2 ^ 31, r_instr (r_base r)). split; [apply list_elem_of_In, elem_of_elements, Hh; by exists r|]. rewrite Nat2Z.id, bool_decide_true by done. by rewrite H3, Z.eqb_refl. }
  clearbody at_. destruct (marks_fold at_ (zip (seqZ 0 (len (instructions asm))) (instructions asm)) ∅ ln) as [M1 M2]. cbv zeta in M1, M2. rewrite M1, M2, lookup_empty. setoid_rewrite numbered. split; split.
  - intros [?|(i & t & k & -> & ?)]; [done|by exists k, t].
  - intros (k & t & ?). right. by exists (Z.of_nat k), t, k.
  - intros [?|(i & t & (k & -> & ?) & Hr)]; [done|]. apply Ha in Hr as (r & ?). by exists k, t, r.
  - intros (k & t & r & H1 & H2). right. exists (Z.of_nat k), t. split; [by exists k|]. apply Ha. by exists r.
Qed.
End Marks.

(** An instruction 2 GiB away is the only other one that an address' record may be of. *)
Lemma near_at rs words : Forall u32_record rs -> unaliased rs words -> forall a, ran_near rs words a <-> ran_at rs words a.
Proof.
  intros Hu Hn a. rewrite Forall_forall in Hu. split; intros (r & Hr & Hb & H); exists r.
  - destruct H as (Ha & Hm & Hw). split; [done|]. split; [done|]. split; [|done]. destruct (decide (a = r_pc (r_base r))) as [|Hne]; [done|]. by destruct (Hn r a Hr Hb Ha Hne Hm).
  - destruct H as (-> & Hw). destruct (Hu r Hr). done.
Qed.

(** C14: the coverage of the emulator's runs is exact, up to what an address' record leaves of it.
    Whatever processes there were, each with any SoCs, started with coverage on, that run any
    instructions with any input, loads and resets between them: the files written are read
    back, and every line of an ELF image whose line table and words are given is marked just if
    an instruction with the image's word ran at an address of the line, or 2 GiB from one, since
    the record lacks the address' top bit; just if one ran at an address of the line, when
    nothing ran 2 GiB from the same word of the image. Every line of a Hack program is marked
    just if its instruction ran. *)
Theorem coverage_exact source segs units prefixes asm data ps :
  Forall (Forall (fun rs => recorded (fst rs) (snd rs))) ps ->
  exists rv hack, load_hits (files_of ps) = Ok (rv, hack) /\
  elf_exact source units prefixes (ran_near (executed ps) (elf_words segs)) (cover_elf source segs units prefixes rv) /\
  (unaliased (executed ps) (elf_words segs) -> elf_exact source units prefixes (ran_at (executed ps) (elf_words segs)) (cover_elf source segs units prefixes rv)) /\
  forall lines, cover_hack asm data hack = Ok lines -> hack_exact asm data (executed ps) lines.
Proof.
  intros Hps. destruct (hits_back ps Hps) as (rv & hack & Hl & Hk). destruct (files_back ps Hps) as (_ & _ & _ & Hu). exists rv, hack. split; [done|].
  assert (He : elf_exact source units prefixes (ran_near (executed ps) (elf_words segs)) (cover_elf source segs units prefixes rv)) by (apply elf_marks; [done|]; intros p w; apply (Hk p w true)).
  split; [exact He|]. split.
  - intros Hn. by apply (elf_exact_same _ _ _ _ _ _ (near_at _ _ Hu Hn)).
  - intros lines. apply hack_marks. intros p w. apply (Hk p w false).
Qed.

(** ** Witness *)

Module Demo.
Definition prog : list Z := [0x00A00513; 0x00000073; 0x00B00593].
Definition machine : soc := let s := load_rom_words 0 prog soc_new in mkSoc (core s) (riscv_mode s) (Some ∅).
Definition segs : list segment := [mkSegment true 5 0 (flat_map (le_split 4) prog)].
Definition table : list (list (option row)) :=
  [[Some (mkRow 0 (txt "fw/main.rs") 7 false); None; Some (mkRow 4 (txt "fw/main.rs") 8 false); Some (mkRow 8 (txt "fw/main.rs") 9 false); Some (mkRow 12 (txt "core/mem.rs") 1 false); Some (mkRow 16 (txt "fw/main.rs") 0 true)]].
Definition source (p : text) : option text := if bool_decide (p = txt "fw/main.rs") then Some (txt "//") else None.
Definition hits : res (gset (Z * Z) * gset (Z * Z)) := load_hits [write_coverage [default ∅ (cov (soc_steps 2 machine))]].
(** The third instruction has not run, and the library's lines aren't the firmware's. *)
Example marks : (fun h => map_to_list (cover_elf source segs table [txt "fw/"] (fst h))) <$> hits = Ok [((txt "fw/main.rs", 7), true); ((txt "fw/main.rs", 9), false); ((txt "fw/main.rs", 8), true)].
Proof. vm_compute. reflexivity. Qed.
Definition asm : list text := [txt "// start"; txt "  @21"; txt "(LOOP)"; txt "D=A // copy"; txt "@LOOP"].
Definition binary : bytes := flat_map (fun w => rev (le_split 2 w)) [21; 0xEC10; 1].
Example hack_marks_at : (fun m => map_to_list m) <$> cover_hack asm binary {[(0, 21); (2, 0xEC11); (4, 1)]} = Ok [(5, true); (4, false); (2, true)].
Proof. vm_compute. reflexivity. Qed.
End Demo.

Definition Demo_runs (more : list Retired) : processes := [[(more, soc_steps 2 Demo.machine)]; []].
Lemma coverage_exact_witness : exists more rv hack, load_hits (files_of (Demo_runs more)) = Ok (rv, hack) /\
  elf_exact Demo.source Demo.table [txt "fw/"] (ran_near (executed (Demo_runs more)) (elf_words Demo.segs)) (cover_elf Demo.source Demo.segs Demo.table [txt "fw/"] rv) /\
  (unaliased (executed (Demo_runs more)) (elf_words Demo.segs) ->
    elf_exact Demo.source Demo.table [txt "fw/"] (ran_at (executed (Demo_runs more)) (elf_words Demo.segs)) (cover_elf Demo.source Demo.segs Demo.table [txt "fw/"] rv)) /\
  forall lines, cover_hack Demo.asm Demo.binary hack = Ok lines -> hack_exact Demo.asm Demo.binary (executed (Demo_runs more)) lines.
Proof.
  assert (H0 : recorded [] Demo.machine).
  { apply (recorded_start Uart.beginning); [|reflexivity]. destruct (load_rom_words_ok Uart.beginning 0 Demo.prog soc_new) as [H1 H2 H3 H4]; [repeat constructor; unfold is_u32; lia|apply soc_new_ok|]. by constructor. }
  destruct (recorded_steps [] Demo.machine 2 H0) as [more Hm]. exists more. apply (coverage_exact Demo.source Demo.segs Demo.table [txt "fw/"] Demo.asm Demo.binary (Demo_runs more)).
  repeat constructor. exact Hm.
Defined.
