(* ===== verification/SocPort.v ===== *)
(** * The emulated SoC behind the emulator's port

    The modelled emulator (Soc.v) is the SoC that EmuPort.v asks of the Python module: run by
    cycles, what the host has received only grows, and bytes can be sent at any time. So what is
    proved of the tests' port, and of the host tool over it, holds on the modelled machine; and
    the lockstep programs run on it here. *)
From S2P Require Import Prelude Text Serial EmuPort Models Rv32Csr Rv32Cpu Caches Uart Periph Soc.
#[local] Open Scope Z_scope.

(** ** The machine between calls of the module *)

(** Between two calls the UART has been brought forward to the cycle. *)
Definition at_rest (s : soc) : Prop := soc_ok Uart.beginning s /\ Uart.now (uart (bus (core s))) = cycle (core s).

(** All that has been sent by now. *)
Definition sent (s : soc) : list (Z * Z) := Uart.tx_out (Uart.sync (cycle (core s)) (uart (bus (core s)))).

Definition history_of (s : soc) : Uart.history := Uart.mkHistory (sent s) (cycle (core s)).

Lemma soc_ok_since l h s : soc_ok l s -> Uart.since h (cycle (core s)) (sent s) -> soc_ok h s.
Proof. intros [H1 H2 [L1 L2 L3] H4] Hl. by constructor. Qed.
Lemma soc_ok_history l s : soc_ok l s -> soc_ok (history_of s) s.
Proof. intros H. apply (soc_ok_since l); [done|]. split; [done|]. exists []. by rewrite app_nil_r. Qed.

Lemma catch_up_ok l s : soc_ok l s -> soc_ok l (catch_up s) /\ Uart.now (uart (bus (core (catch_up s)))) = cycle (core s) /\
  Uart.since l (cycle (core s)) (Uart.tx_out (uart (bus (core (catch_up s))))) /\
  Uart.tx_bytes (uart (bus (core (catch_up s)))) = map fst (Uart.tx_out (uart (bus (core (catch_up s))))) /\
  Uart.tx_out (uart (bus (core (catch_up s)))) = sent s.
Proof.
  intros [H1 H2 H3 H4]. destruct (Uart.live_advance _ _ _ H3) as (A1 & A2 & A3 & A4 & A5). split; [|done].
  constructor; [|done|exact A1|done]. apply core_wf_bus; [done|]. destruct (wf_bus _ H1) as [R1 R2 R3 R4 R5]. constructor; try done. by apply advance_bytes.
Qed.

(** What is received is the bytes of the frames that are over. *)
Definition over (c : Z) (bs : Z * Z) : bool := bs.2 + Uart.FRAME <=? c.
Lemma received_frames l s : soc_ok l s ->
  received s = take (Z.to_nat (Uart.partition_point (over (cycle (core s))) (sent s))) (map fst (sent s)).
Proof. intros H. destruct (catch_up_ok l s H) as (_ & _ & _ & Hb & Ho). unfold received, Uart.tx_complete_by. by rewrite Hb, Ho. Qed.

Lemma take_prefix_le {A} (n m : nat) (l k : list A) : (n <= m)%nat -> l `prefix_of` k -> (n <= length l)%nat -> take n l `prefix_of` take m k.
Proof.
  intros Hn [k' ->] Hl. rewrite take_app. etrans; [|apply prefix_app_r; reflexivity]. exists (take (m - n) (drop n l)).
  rewrite <- (take_drop n l) at 1. rewrite take_app, length_take_le by done. rewrite take_take, Nat.min_r by done. done.
Qed.

(** Later, more of the same has been received. *)
Lemma received_grows l s s' : soc_ok l s -> soc_ok (history_of s) s' -> cycle (core s) <= cycle (core s') -> received s `prefix_of` received s'.
Proof.
  intros H H' Hc. rewrite (received_frames l s H), (received_frames _ s' H').
  assert (Hp : sent s `prefix_of` sent s') by (destruct (Uart.lv_sent _ _ _ (so_live _ _ H')) as (_ & k & E & _); exists k; exact E).
  pose proof (Uart.partition_point_mono (over (cycle (core s))) (over (cycle (core s'))) _ _ Hp) as Hm.
  pose proof (Uart.partition_point_nonneg (over (cycle (core s))) (sent s)) as Hr. unfold len in Hr. apply take_prefix_le.
  - assert (Hx : forall x, over (cycle (core s)) x = true -> over (cycle (core s')) x = true) by (intros x; unfold over; rewrite !Z.leb_le; lia). specialize (Hm Hx). lia.
  - destruct Hp as [k ->]. rewrite map_app. by apply prefix_app_r.
  - rewrite length_map. lia.
Qed.

(** [run]: it ends at the cycle asked for or past it, at rest. *)
Lemma run_ok s n : at_rest s ->
  at_rest (soc_run n s) /\ cycle (core s) + n <= cycle (core (soc_run n s)) /\ received s `prefix_of` received (soc_run n s) /\
  (cycle (core (soc_run n s)) = cycle (core s) -> soc_run n s = catch_up s).
Proof.
  intros [H Hn]. set (l := history_of s). assert (Hl : soc_ok l s) by (by eapply soc_ok_history).
  destruct (run_loop_ok l (Z.to_nat n) (cycle (core s) + n) s Hl ltac:(lia)) as (k & E & Hend & Hk). unfold soc_run. rewrite E.
  destruct (soc_steps_ok l k s Hl) as (H1 & H2 & _). destruct (catch_up_ok l _ H1) as (C1 & C2 & C3 & C4 & C5).
  change (cycle (core (catch_up (soc_steps k s)))) with (cycle (core (soc_steps k s))). refine (conj _ (conj Hend (conj _ _))).
  - split; [|exact C2]. apply catch_up_ok. by apply soc_steps_ok.
  - eapply received_grows; [exact H|exact C1|cbn; lia].
  - intros Hc. destruct k as [|k]; [done|lia].
Qed.

Lemma sent_catch_up l s : soc_ok l s -> sent (catch_up s) = sent s.
Proof.
  intros H. destruct (catch_up_ok l s H) as (_ & C2 & _ & _ & C5). unfold sent at 1. change (cycle (core (catch_up s))) with (cycle (core s)).
  rewrite <- C2, Uart.sync_same. exact C5.
Qed.
(** Brought forward where it is already, nothing changes that is seen. *)
Lemma received_catch_up s : at_rest s -> received (catch_up s) = received s.
Proof.
  intros [H Hn]. destruct (catch_up_ok _ s H) as (C1 & C2 & C3 & C4 & C5). rewrite (received_frames _ _ C1), (received_frames _ s H).
  by rewrite (sent_catch_up _ _ H).
Qed.

Lemma send_ok s bs : at_rest s -> exists s', soc_send bs s = Some s' /\ at_rest s' /\ cycle (core s') = cycle (core s) /\ received s' = received s.
Proof.
  intros [H Hn]. destruct (Uart.live_host _ (cycle (core s)) (uart (bus (core s))) (map byte.unsigned bs) (so_live _ _ H) Hn) as (u & Hu & Hl & Hnow & Ho & Hb).
  set (s' := set_core (set_bus (set_uart u (bus (core s))) (core s)) s). exists s'. assert (Hs : soc_send bs s = Some s') by (unfold soc_send; rewrite Hu; done).
  assert (Hub : uart_bytes u).
  { destruct (wf_bus _ (so_cpu _ _ H)) as [_ _ R3 _ _]. revert Hu R3. cbn. generalize (uart (bus (core s))). intros u0 Hu R3. clear -Hu R3.
    revert u0 Hu R3. induction bs as [|b bs IH]; intros u0 Hu R3; cbn in Hu; [by simplify_eq|]. destruct (Uart.host_byte _ _ u0) as [u1|] eqn:E; [|done]. cbn in Hu.
    eapply IH; [done|]. unfold Uart.host_byte in E. destruct (_ <=? _); [|done]. apply (inj Some) in E as <-. destruct R3 as [B1 B2 B3 B4]. constructor; try done.
    cbn. apply Forall_app. split; [done|]. repeat constructor; cbn; pose proof (byte.unsigned_range b); unfold is_byte; lia. }
  assert (Hok : soc_ok Uart.beginning s').
  { pose proof H as [H1 H2 H3 H4]. constructor; [|done|exact Hl|done]. apply core_wf_bus; [done|]. destruct (wf_bus _ H1) as [R1 R2 R3 R4 R5]. by constructor. }
  split; [done|]. split; [split; [done|exact Hnow]|]. split; [done|]. rewrite (received_frames _ _ Hok), (received_frames _ s H).
  assert (Hsent : sent s' = sent s). { unfold sent. cbn. rewrite <- Hnow at 1. rewrite <- Hn, !Uart.sync_same. exact Ho. }
  by rewrite Hsent.
Qed.

(** ** Running until the output holds a text *)

(** [windows(needle.len().max(1)).position(|w| w == needle)]. *)
Definition windows (n : nat) (l : list Z) : list (list Z) := map (fun i => take n (drop i l)) (seq 0 (S (length l) - n)).
Definition position (needle l : list Z) : option nat :=
  fst <$> list_find (fun w => w = needle) (windows (Nat.max (length needle) 1) l).

(** The look at what has been received, past what has been searched. *)
Definition look (needle : list Z) (from searched : nat) (got : list Z) : option nat :=
  if (searched <? length got)%nat then
    let start := Nat.max (searched - length needle) from in
    (fun p => (start + p + length needle)%nat) <$> position needle (drop start got)
  else None.

(** [run_until_tx]'s loop: the fuel is its cycles and one look more. *)
Fixpoint until_tx (fuel : nat) (needle : list Z) (from searched : nat) (next_check end_ : Z) (s : soc) : option nat * soc :=
  match fuel with
  | O => (None, s)
  | S fuel =>
      let on searched next_check s :=
        if end_ <=? cycle (core s) then (None, s) else until_tx fuel needle from searched next_check end_ (soc_step s).1 in
      if next_check <=? cycle (core s) then
        let s := catch_up s in
        let got := received s in
        match look needle from searched got with
        | Some e => (Some e, s)
        | None => on (Nat.max searched (length got)) (Uart.next_tx_complete (len got) (cycle (core s)) (uart (bus (core s)))) s
        end
      else on searched next_check s
  end.
Definition run_until_tx (needle : list Z) (from : nat) (max_cycles : Z) (s : soc) : option nat * soc :=
  until_tx (S (Z.to_nat max_cycles)) needle from from 0 (cycle (core s) + max_cycles) s.

(** An occurrence at or after [from], by the index just past it. *)
Definition occurs (needle : list Z) (from : nat) (out : list Z) (e : nat) : Prop :=
  needle <> [] /\ (from + length needle <= e <= length out)%nat /\ take (length needle) (drop (e - length needle) out) = needle.
Definition absent (needle : list Z) (from : nat) (out : list Z) : Prop := forall e, ~ occurs needle from out e.

Lemma windows_lookup n l i w : windows n l !! i = Some w <-> (i + n < S (length l))%nat /\ w = take n (drop i l).
Proof.
  unfold windows. rewrite list_lookup_fmap, fmap_Some. split.
  - intros (j & Hj & ->). apply lookup_seq in Hj as [-> Hj]. split; [lia|done].
  - intros [Hi ->]. exists i. split; [|done]. apply lookup_seq. lia.
Qed.
Lemma position_Some needle l p : position needle l = Some p ->
  occurs needle 0 l (p + length needle) /\ forall e, occurs needle 0 l e -> (p + length needle <= e)%nat.
Proof.
  unfold position. intros H. apply fmap_Some in H as ([i w] & H & ->). apply list_find_Some in H as (Hw & -> & Hl).
  apply windows_lookup in Hw as [Hi Hw]. cbn [fst]. assert (Hn : needle <> []).
  { intros ->. symmetry in Hw. apply (f_equal length) in Hw. rewrite length_take, length_drop in Hw.
    change (Nat.max (length (@nil Z)) 1) with 1%nat in *. change (length (@nil Z)) with O in Hw. lia. }
  assert (Hm : Nat.max (length needle) 1 = length needle) by (destruct needle; [done|cbn; lia]). rewrite Hm in *. split.
  - split; [done|]. split; [lia|]. by rewrite Nat.add_sub.
  - intros e (_ & He & Ht). destruct (decide (i + length needle <= e)%nat) as [|Hlt]; [done|]. exfalso.
    eapply (Hl (e - length needle)%nat needle); [|lia|done]. apply windows_lookup. split; [lia|by rewrite Ht].
Qed.
Lemma position_None needle l : position needle l = None -> absent needle 0 l.
Proof.
  unfold position. intros H e (Hn & He & Ht). destruct (list_find _ _) as [?|] eqn:E; [done|]. apply list_find_None in E. rewrite Forall_lookup in E.
  assert (Hm : Nat.max (length needle) 1 = length needle) by (destruct needle; [done|cbn; lia]). rewrite Hm in *.
  eapply (E (e - length needle)%nat needle); [|done]. apply windows_lookup. split; [lia|by rewrite Ht].
Qed.

Lemma occurs_drop needle from start out e : (from <= start)%nat -> (start + length needle <= e)%nat ->
  occurs needle 0 (drop start out) (e - start) <-> occurs needle from out e.
Proof.
  intros Hf Hs. unfold occurs. rewrite length_drop, drop_drop. replace (start + (e - start - length needle))%nat with (e - length needle)%nat by lia.
  split; intros (H1 & H2 & H3); (split; [done|]); (split; [|done]); destruct needle; cbn in *; try done; lia.
Qed.
Lemma occurs_prefix needle from out out' e : out `prefix_of` out' -> (e <= length out)%nat -> occurs needle from out' e -> occurs needle from out e.
Proof.
  intros [k ->] He (H1 & H2 & H3). split; [done|]. split; [lia|]. rewrite drop_app_le, take_app_le in H3; [done|rewrite length_drop|]; lia.
Qed.

(** A look finds the first occurrence, given that there was none in what had been searched. *)
Lemma look_first needle from got0 got : got0 `prefix_of` got -> absent needle from got0 ->
  match look needle from (Nat.max from (length got0)) got with
  | Some e => occurs needle from got e /\ forall e', occurs needle from got e' -> (e <= e')%nat
  | None => absent needle from got
  end.
Proof.
  intros Hp Ha. set (searched := Nat.max from (length got0)). assert (Hnew : forall e, occurs needle from got e -> (searched < e)%nat).
  { intros e He. destruct (decide (searched < e)%nat) as [|Hle]; [done|]. exfalso. pose proof He as (Hn & Hr & _). destruct needle as [|x needle]; [done|]. cbn [length] in *.
    apply (Ha e). apply (occurs_prefix _ _ _ got); [done|lia|done]. }
  unfold look. destruct (Nat.ltb_spec searched (length got)) as [Hlt|Hge].
  - set (start := Nat.max (searched - length needle) from). assert (Hs : forall e, occurs needle from got e -> (start + length needle <= e)%nat).
    { intros e He. pose proof (Hnew e He). destruct He as (_ & ? & _). lia. }
    destruct (position needle (drop start got)) as [p|] eqn:E; cbn [fmap option_fmap option_map].
    + apply position_Some in E as [E1 E2]. replace (p + length needle)%nat with (start + p + length needle - start)%nat in E1 by lia.
      apply (occurs_drop needle from) in E1; [|lia..]. split; [done|]. intros e' He'. pose proof (Hs e' He') as Hse.
      apply (occurs_drop needle from start) in He'; [|lia..]. specialize (E2 _ He'). lia.
    + intros e He. pose proof (Hs e He) as Hse. apply (occurs_drop needle from start) in He; [|lia..]. by apply (position_None _ _ E) in He.
  - intros e He. pose proof (Hnew e He). destruct He as (_ & ? & _). lia.
Qed.

(** What the host has received doesn't grow before the cycle that the UART names. *)
Lemma received_length l s : soc_ok l s -> len (received s) = Uart.partition_point (over (cycle (core s))) (sent s).
Proof.
  intros H. rewrite (received_frames l s H). pose proof (Uart.partition_point_nonneg (over (cycle (core s))) (sent s)) as Hr.
  unfold len in *. rewrite length_take, length_map. lia.
Qed.
Lemma received_waits l s s' u : soc_ok l s -> soc_ok (history_of s) s' -> Uart.tx_out u = sent s ->
  cycle (core s') < Uart.next_tx_complete (len (received s)) (cycle (core s)) u ->
  len (received s') <= len (received s).
Proof.
  intros H H' Ho Hc. rewrite (received_length _ _ H'). pose proof (len_nonneg (received s)) as Hr0.
  unfold Uart.next_tx_complete in Hc. rewrite Ho in Hc.
  destruct (Uart.lv_sent _ _ _ (so_live _ _ H')) as (_ & k & E & Hk). cbn [history_of Uart.h_sent Uart.h_at] in E, Hk. fold (sent s') in E. rewrite E.
  pose proof (Uart.partition_point_nonneg (over (cycle (core s))) (sent s)) as Hr. rewrite <- (received_length l s H) in Hr.
  apply Uart.partition_point_before; [|lia]. destruct (sent s !! Z.to_nat (len (received s))) as [[b f]|] eqn:El.
  - rewrite (lookup_app_l_Some _ _ _ _ El). unfold over. cbn [snd]. apply Z.leb_gt. lia.
  - apply lookup_ge_None in El. rewrite lookup_app_r by done. replace (Z.to_nat (len (received s)) - length (sent s))%nat with O by (unfold len in *; lia).
    destruct k as [|f k]; [cbn; rewrite app_nil_r; unfold len in *; lia|]. apply Forall_cons in Hk as [Hf _]. cbn [lookup list_lookup]. unfold over. apply Z.leb_gt. lia.
Qed.

(** The machine run on, brought forward at times, with [quiet] before each step. *)
Inductive ran (quiet : soc -> Prop) : soc -> soc -> Prop :=
| ran_here s : ran quiet s s
| ran_catch s s' : ran quiet (catch_up s) s' -> ran quiet s s'
| ran_step s s' : quiet s -> ran quiet (soc_step s).1 s' -> ran quiet s s'.

Definition waiting (needle : list Z) (from : nat) (end_ : Z) (s : soc) : Prop := absent needle from (received s) /\ cycle (core s) < end_.

(** What has been looked at, and until when that is all there is. *)
Record looked (needle : list Z) (from : nat) (got0 : list Z) (next_check : Z) (h : Uart.history) : Prop := {
  lo_absent : absent needle from got0;
  lo_prefix : forall s, soc_ok h s -> got0 `prefix_of` received s;
  lo_quiet : forall s, soc_ok h s -> cycle (core s) < next_check -> len (received s) <= len got0;
}.
Lemma looked_quiet needle from got0 next_check h s :
  looked needle from got0 next_check h -> soc_ok h s -> cycle (core s) < next_check -> absent needle from (received s).
Proof.
  intros [H1 H2 H3] H Hc. specialize (H2 s H). specialize (H3 s H Hc). destruct H2 as [k E]. rewrite E, len_app in H3. pose proof (len_nonneg k).
  destruct k as [|x k]; [|rewrite len_cons in *; pose proof (len_nonneg k); lia]. by rewrite E, app_nil_r.
Qed.
Lemma look_again needle from l s u : soc_ok l s -> Uart.tx_out u = sent s -> absent needle from (received s) ->
  looked needle from (received s) (Uart.next_tx_complete (len (received s)) (cycle (core s)) u) (history_of s).
Proof. intros H Hu Ha. constructor; [done| |]; intros s' H'; [|by apply (received_waits l)]. apply (received_grows l); [done|done|]. by destruct (Uart.lv_sent _ _ _ (so_live _ _ H')). Qed.

Lemma until_tx_ok needle from end_ fuel : forall got0 next_check h s,
  soc_ok Uart.beginning s -> soc_ok h s -> looked needle from got0 next_check h -> (Z.to_nat (end_ - cycle (core s)) < fuel)%nat ->
  let '(r, s') := until_tx fuel needle from (Nat.max from (length got0)) next_check end_ s in
  ran (waiting needle from end_) s s' /\ soc_ok Uart.beginning s' /\
  match r with
  | Some e => occurs needle from (received s') e /\ forall e', occurs needle from (received s') e' -> (e <= e')%nat
  | None => end_ <= cycle (core s') /\ absent needle from (received s')
  end.
Proof.
  induction fuel as [|fuel IH]; intros got0 next_check h s Hb Hh Hl Hf; [lia|].
  (* the turn's end, once it is known that the text isn't there *)
  assert (Hon : forall got0 next_check h s1, cycle (core s1) = cycle (core s) -> soc_ok Uart.beginning s1 -> soc_ok h s1 -> looked needle from got0 next_check h ->
    absent needle from (received s1) ->
    let '(r, s') := (if end_ <=? cycle (core s1) then (None, s1) else until_tx fuel needle from (Nat.max from (length got0)) next_check end_ (soc_step s1).1) in
    ran (waiting needle from end_) s1 s' /\ soc_ok Uart.beginning s' /\
    match r with
    | Some e => occurs needle from (received s') e /\ forall e', occurs needle from (received s') e' -> (e <= e')%nat
    | None => end_ <= cycle (core s') /\ absent needle from (received s')
    end).
  { clear got0 next_check h Hh Hl. intros got0 next_check h s1 Hc Hb1 Hh Hl Ha. destruct (Z.leb_spec end_ (cycle (core s1))) as [He|He].
    - split; [apply ran_here|]. done.
    - destruct (soc_step_ok _ _ Hb1) as (B1 & B2 & _). destruct (soc_step_ok _ _ Hh) as (B3 & _).
      specialize (IH got0 next_check h _ B1 B3 Hl ltac:(lia)). destruct (until_tx fuel _ _ _ _ _ _) as [r s']. destruct IH as (I1 & I2).
      split; [apply ran_step; [by split|done]|done]. }
  cbn [until_tx]. destruct (Z.leb_spec next_check (cycle (core s))) as [Hc|Hc].
  - destruct (catch_up_ok _ s Hb) as (C1 & C2 & _). destruct (catch_up_ok _ s Hh) as (C3 & _).
    pose proof (look_first needle from got0 (received (catch_up s)) (lo_prefix _ _ _ _ _ Hl _ C3) (lo_absent _ _ _ _ _ Hl)) as Hlook.
    destruct (look _ _ _ _) as [e|]; [split; [apply ran_catch, ran_here|done]|].
    assert (Hsent : Uart.tx_out (uart (bus (core (catch_up s)))) = sent (catch_up s)) by (rewrite (sent_catch_up _ _ Hb); apply (catch_up_ok _ s Hb)).
    pose proof (look_again needle from _ _ _ C1 Hsent Hlook) as Hag.
    specialize (Hon _ _ _ (catch_up s) eq_refl C1 (soc_ok_history _ _ C1) Hag Hlook).
    replace (Nat.max (Nat.max from (length got0)) (length (received (catch_up s)))) with (Nat.max from (length (received (catch_up s)))).
    2: { pose proof (prefix_length _ _ (lo_prefix _ _ _ _ _ Hl _ C3)). lia. }
    destruct (if end_ <=? _ then _ else _) as [r s']. destruct Hon as (I1 & I2). split; [by apply ran_catch|done].
  - apply (Hon got0 next_check h s); try done. by apply (looked_quiet _ _ got0 next_check h).
Qed.

(** sim/emu/vux9k.py's [wait_for]. *)
Definition wait_for (token : bytes) (timeout_cycles : Z) (start : nat) (s : soc) : res text * soc :=
  let '(end_, s) := run_until_tx (map byte.unsigned token) start timeout_cycles s in
  let out := map byte.of_Z (received s) in
  (match end_ with None => Raise TimeoutError | Some e => Ok (utf8_decode (drop start (take e out))) end, s).

(** C19: [wait_for] ends as soon as the host has received the token in the output from [start]
    on: looked at only when more can have arrived, the machine runs from instruction to
    instruction with the token absent, and the text is what came up to its first occurrence; or
    it is a TimeoutError at the deadline, the token absent still. *)
Theorem wait_for_stops token timeout_cycles start s :
  soc_ok Uart.beginning s ->
  let '(r, s') := wait_for token timeout_cycles start s in
  let t := map byte.unsigned token in
  let end_ := cycle (core s) + timeout_cycles in
  ran (waiting t start end_) s s' /\ soc_ok Uart.beginning s' /\
  match r with
  | Ok out => exists e, out = utf8_decode (drop start (take e (map byte.of_Z (received s')))) /\
      occurs t start (received s') e /\ forall e', occurs t start (received s') e' -> (e <= e')%nat
  | Raise x => x = TimeoutError /\ end_ <= cycle (core s') /\ absent t start (received s')
  end.
Proof.
  intros H. unfold wait_for, run_until_tx. assert (Hc : 0 <= cycle (core s)) by apply (Uart.lv_sent _ _ _ (so_live _ _ H)).
  pose proof (until_tx_ok (map byte.unsigned token) start (cycle (core s) + timeout_cycles) (S (Z.to_nat timeout_cycles)) [] 0 Uart.beginning s H H) as Hu.
  rewrite Nat.max_0_r in Hu. destruct (until_tx _ _ _ _ _ _ _) as [[e|] s'].
  all: destruct Hu as (R & K & Hr); [|lia|split; [exact R|split; [exact K|]]; by try exists e].
  all: constructor; [intros e0 (Hn & He & _); destruct token; cbn in *; [done|lia]|intros; apply prefix_nil|].
  all: intros s1 H1 Hc1; pose proof (proj1 (Uart.lv_sent _ _ _ (so_live _ _ H1))); cbn in *; lia.
Qed.

(** ** The instance *)

(** A machine at rest, with what the host has sent it. *)
Record machine := mkMachine { m_soc : soc; m_sent : bytes; m_ok : at_rest m_soc }.

Lemma run_rest n m : at_rest (soc_run n (m_soc m)).
Proof. apply run_ok, m_ok. Qed.
Lemma send_rest bs m : at_rest (default (m_soc m) (soc_send bs (m_soc m))).
Proof. destruct (send_ok (m_soc m) bs (m_ok m)) as (s' & -> & H & _). exact H. Qed.
Lemma press_rest b m : at_rest (press b (m_soc m)).
Proof.
  destruct (m_ok m) as [[H1 H2 H3 H4] Hn]. split; [|exact Hn]. constructor; [|exact H2|exact H3|].
  - apply core_wf_bus; [exact H1|]. destruct (wf_bus _ H1) as [R1 R2 R3 R4 R5]. constructor; try done.
    cbn. unfold Gpio.set_button. by destruct (Bool.eqb _ _).
  - cbn. unfold Gpio.set_button. by destruct (Bool.eqb _ _).
Qed.

#[export, program] Instance modelled_soc : EmuPort.Soc machine := {
  EmuPort.cycle m := cycle (core (m_soc m));
  run n m := mkMachine (soc_run n (m_soc m)) (m_sent m) (run_rest n m);
  uart_send bs m := mkMachine (default (m_soc m) (soc_send bs (m_soc m))) (m_sent m ++ bs) (send_rest bs m);
  uart_send_done m := Uart.host_send_done (uart (bus (core (m_soc m))));
  uart_received m := map byte.of_Z (received (m_soc m));
  uart_sent := m_sent;
  uart_rx_level m := (Uart.rx_level Uart.advance (cycle (core (m_soc m))) (uart (bus (core (m_soc m))))).1;
  uart_rx_dropped m := (Uart.rx_dropped_by Uart.advance (cycle (core (m_soc m))) (uart (bus (core (m_soc m))))).1;
  set_button b m := mkMachine (press b (m_soc m)) (m_sent m) (press_rest b m);
}.
Next Obligation. intros n m Hn. apply run_ok, m_ok. Qed.
Next Obligation.
  intros n m. destruct (run_ok (m_soc m) n (m_ok m)) as (_ & _ & [k Hk] & _). exists (map byte.of_Z k). cbn. by rewrite Hk, map_app.
Qed.
Next Obligation.
  intros n m Hc. destruct (run_ok (m_soc m) n (m_ok m)) as (_ & _ & _ & Hs). cbn in *. by rewrite (Hs Hc), received_catch_up by apply m_ok.
Qed.
Next Obligation. done. Qed.
Next Obligation. intros bs m. cbn. by destruct (send_ok (m_soc m) bs (m_ok m)) as (s' & -> & _ & H & _). Qed.
Next Obligation. intros bs m. cbn. destruct (send_ok (m_soc m) bs (m_ok m)) as (s' & -> & _ & _ & H). cbn. by rewrite H. Qed.
Next Obligation. done. Qed.

(** ** Witness *)

(** lui a0,0x40000; li a1,'K'; sw a1,0(a0); j . *)
Definition says_k : soc := load_rom_words 0 [0x40000537; 0x04B00593; 0x00B52023; 0x0000006F] soc_new.
Lemma says_k_ok : soc_ok Uart.beginning says_k.
Proof. apply load_rom_words_ok; [|apply soc_new_ok]. repeat constructor; unfold is_u32; lia. Qed.

Lemma wait_for_stops_witness :
  soc_ok Uart.beginning says_k /\ (wait_for (bstr "K") 5000 0 says_k).1 = Ok [0x4B] /\
  ran (waiting [75] 0 5000) says_k (wait_for (bstr "K") 5000 0 says_k).2.
Proof.
  split; [exact says_k_ok|]. split; [vm_compute; reflexivity|]. pose proof (wait_for_stops (bstr "K") 5000 0 says_k says_k_ok) as H.
  destruct (wait_for (bstr "K") 5000 0 says_k) as [r s']. exact (proj1 H).
Defined.
