(* ===== verification/LockstepRun.v ===== *)
(** * The lockstep programs on the modelled emulator

    sim/emu/vux9k.py's start_soc and start_hack, and the emulator's side of
    sim/emu/test_lockstep.py: a program's set-up, its bytes and button changes at their cycles,
    and what each instruction did. *)
From stdpp Require Import sorting.
From S2P Require Import Prelude Text Header FatImage SdCard Rv32Asm HackAsm Lockstep LockstepRv RandomRv Programs Image EmuPort Models Rv32Csr Rv32Cpu Caches Uart Periph Soc.
#[local] Open Scope Z_scope.

(** ** sim/emu/vux9k.py *)

(** [read_hex_words]: the lines that aren't blank. *)
Definition read_hex_words (lines : list string) : res (list Z) :=
  mapM int16 (filter (fun l => strip l <> []) lines).

(** [soc.sd_insert]. *)
Definition sd_insert (img : bytes) (cfg : card_config) (faults : list (Z * Z)) (s : soc) : soc :=
  let c := core s in
  let d := sd (bus c) in
  set_core (set_bus (set_sd (SdSpi.mkSdSpi (SdSpi.cs_n d) (SdSpi.div d) (SdSpi.xfer d)
    (Some (SdSpi.mkSocket cfg faults (Emu.new img))) (SdSpi.log d) (SdSpi.log_enabled d)) (bus c)) c) s.

(** [sd_insert]'s defaults. *)
Definition default_card : card_config := mkConfig true false [] false false [] false.

(** [start_soc], on the board's profile: the firmware's words ([preload_firmware]), the
    program's over them, and the card. *)
Definition start_soc (firmware : list Z) (sd_sectors : list (Z * bytes)) (mbr : bool) (sd_card : card_config * list (Z * Z)) (card : bool)
    (imem_words : option (list Z)) : soc :=
  let s := load_rom_words 0 firmware soc_new in
  let s := match imem_words with Some ws => load_rom_words 0 ws s | None => s end in
  if card then sd_insert (sd_image sd_sectors mbr) (fst sd_card) (snd sd_card) s else s.

(** [start_hack] with [start_soc]'s defaults; None where the program doesn't fit the window. *)
Definition start_hack (firmware words : list Z) : option soc :=
  match hack_stub, hack_image_bytes words with
  | Ok stub, Ok img => load_xmem HACK_I_BASE img (start_soc firmware [] true (default_card, []) true (Some stub))
  | _, _ => None
  end.

(** ** sim/emu/test_lockstep.py *)

(** [Instr]: the FETCH cycle, the ISA, pc, register writes, bus writes and trap. *)
Record Instr := mkInstr { i_cycle : Z; i_riscv : bool; i_pc : Z; i_regs : list (Z * Z); i_writes : list (Z * Z * Z); i_trap : list Z }.

(** [_emu_instr]. *)
Definition emu_instr (r : Retired) : Instr :=
  let b := r_base r in
  mkInstr (r_cycle b) (r_riscv r) (r_pc b) (filter (fun x => fst x <> 0) (option_list (r_rd b) ++ option_list (r_rd2 r)))
    (option_list (r_store b)) (option_list (r_trap b)).

(** [soc.uart_send(data, at=cycle)]. *)
Definition send_at (at_ : Z) (data : bytes) (s : soc) : option soc :=
  let c := core s in
  if at_ <? cycle c then None
  else
    u ← Uart.host_send (map byte.unsigned data) at_ (uart (bus c));
    Some (set_core (set_bus (set_uart u (bus c)) c) s).

(** [test_lockstep]'s set-up of a program. *)
Definition set_up (firmware : list Z) (p : Program) : option soc :=
  let s := start_soc firmware (p_sd_sectors p) true (default_card, []) true (p_imem_words p) in
  s ← foldl (fun s '(addr, data) => s ← s; load_xmem addr data s) (Some s) (p_xmem p);
  foldl (fun s '(at_, data) => s ← s; send_at at_ data s) (Some s) (p_uart_rx p).

(** [emu_instrs]: the button changes due within 8 cycles, then a step. *)
Fixpoint press_due (now : Z) (buttons : list (Z * bool)) (s : soc) : list (Z * bool) * soc :=
  match buttons with
  | (c, pressed) :: rest =>
      if c <=? now + 8 then press_due now rest (set_core (set_bus (set_gpio (Gpio.set_button c pressed (gpio (bus (core s)))) (bus (core s))) (core s)) s)
      else (buttons, s)
  | [] => ([], s)
  end.
Fixpoint emu_instrs (fuel : nat) (cycles : Z) (buttons : list (Z * bool)) (s : soc) : list Instr * soc :=
  match fuel with
  | O => ([], s)
  | S fuel =>
      if cycle (core s) <? cycles then
        let '(buttons, s) := press_due (cycle (core s)) buttons s in
        let '(s, r) := soc_step s in
        let '(tr, s) := emu_instrs fuel cycles buttons s in
        (emu_instr r :: tr, s)
      else ([], s)
  end.

(** [sorted(prog.button)]. *)
Definition change_le (a b : Z * bool) : Prop := fst a < fst b \/ (fst a = fst b /\ (snd a = false \/ snd b = true)).
#[export] Instance change_le_dec a b : Decision (change_le a b).
Proof. unfold change_le. apply _. Defined.

(** The same, for the machine alone. *)
Fixpoint emu_run (fuel : nat) (cycles : Z) (buttons : list (Z * bool)) (s : soc) : soc :=
  match fuel with
  | O => s
  | S fuel =>
      if cycle (core s) <? cycles then
        let '(buttons, s) := press_due (cycle (core s)) buttons s in emu_run fuel cycles buttons (soc_step s).1
      else s
  end.

(** A program run: its instructions, and what the host has received at the end. The fuel is
    the cycles: an instruction takes two or more. *)
Definition run_program (firmware : list Z) (p : Program) : option (list Instr) :=
  s ← set_up firmware p;
  Some (emu_instrs (Z.to_nat (p_cycles p)) (p_cycles p) (merge_sort change_le (p_button p)) s).1.
Definition sends (firmware : list Z) (p : Program) : option (list Z) :=
  s ← set_up firmware p;
  Some (received (emu_run (Z.to_nat (p_cycles p)) (p_cycles p) (merge_sort change_le (p_button p)) s)).

(** [LONGEST]: more than the longest instruction's cycles. *)
Definition LONGEST : Z := 5 + Lockstep.XMEM_FETCH_PROBE + Lockstep.XMEM_LINE_DIRTY + 7.

(** ** What the programs send *)

(** A program of the list that needs no firmware. *)
Definition made (p : res Program) : Program := match p with Ok p => p | Raise _ => program "" 0 end.

(** The programs, with what their descriptions say they print. *)
Definition printing : list (res Program * string) := [
  (in_rom "boot_mode_hack" 6000 boot_mode_hack, "H");
  (in_rom "rom_stores" 2000 rom_stores, "K");
  (with_rx [(TRAPS_RX_CYCLE, bstr "Z")] <$> in_rom "traps" 6000 traps, "Hi!");
  (with_rx [(AMO_RX_CYCLE, bstr "Z")] <$> in_rom "amo" 9000 amo_program, "[");
  (with_rx [(CLINT_RX_CYCLE, bstr "Z")] <$> in_rom "clint" CLINT_CYCLES LockstepRv.clint, "K");
  (in_hack "xcache_hack" XCACHE_HACK_CYCLES xcache_hack, "2");
  (with_rx [(LITEUART_HACK_RX_CYCLE, bstr "h")] <$> in_hack "liteuart_hack" LITEUART_HACK_CYCLES liteuart_hack, "h");
  ('(rom, code) ← muldiv_program; Ok (with_xmem [(MULDIV_CODE, code)] (with_words rom (program "muldiv" MULDIV_CYCLES))), "M");
  (in_hack "boot_mode_rv32" 20000 (hack_soft_reset true true), "RS");
  (in_rom "s2_launch_hack" S2_LAUNCH_CYCLES (s2_launch true), "PK")]%string.

(** Run on the modelled emulator, the lockstep programs print what they are there to
    print, on RV32 and on Hack, through soft resets, interrupts, traps and the caches. *)
Theorem programs_print :
  Forall (fun '(p, out) => is_ok p = true /\ sends [] (made p) = Some (map byte.unsigned (bstr out))) printing.
Proof. repeat (constructor; [split; vm_compute; reflexivity|]). constructor. Qed.

(** ** Costs *)

Lemma rv_cost l s : core_wf s -> word_aligned (pc s) -> Uart.live l (cycle s) (uart (bus s)) -> Gpio.pending (gpio (bus s)) = None ->
  2 <= r_cycles (step s).2 <= 5 + Caches.XMEM_LINE_DIRTY + Caches.XMEM_FETCH_PROBE.
Proof.
  intros Hwf Hpc Hl Hp. pose proof (step_effect s) as He. change (fetch (pc s) (bus s)) with (rv_fetch (pc s) (bus s)) in He.
  pose proof (rv_fetch_frame (pc s) (bus s)) as [Fg Fu]. assert (Hw : 0 <= (rv_fetch (pc s) (bus s)).1.2 <= Caches.XMEM_FETCH_PROBE).
  { unfold rv_fetch. destruct (in_xmem (pc s)); [|vm_compute; split; congruence]. destruct (window_fetch _ _) as [[w k] b] eqn:E. by apply fetch_bound in E. }
  destruct (rv_fetch (pc s) (bus s)) as [[word wait] b]. cbn [fst snd] in *. destruct He as (n & Hn & _ & He). rewrite Hn.
  assert (Hl' : Uart.live l (cycle s + wait) (uart b)) by (rewrite Fu; apply (Uart.live_later l (cycle s)); [exact Hl|lia]).
  pose proof (proj1 (effect_live l _ _ _ _ He Hl' ltac:(by rewrite Fg))). apply effect_bound in He. lia.
Qed.
Lemma hack_cost s : core_wf s -> pc s mod 2 = 0 ->
  2 <= r_cycles (hack_step s).1.2 <= 5 + Caches.XMEM_LINE_DIRTY + Caches.XMEM_FETCH_PROBE.
Proof.
  intros Hwf Hpc. unfold hack_step. destruct (hack_fetch (pc s) (bus s)) as [[word wait] b] eqn:E. unfold hack_fetch in E.
  pose proof (fetch_bound _ _ _ _ _ E) as Hw. apply window_fetch_spec in E as (Hb & _ & _). rewrite Hb. set (s1 := set_csr _ _). set (r0 := mkRetire _ _ _ _ _ _ _ _).
  assert (H1 : core_wf s1).
  { destruct Hwf as [W1 W2 W3 W4 W5 W6 W7]. constructor; try done; [apply set_mcycle_wf; [apply u64_range|done]|by apply set_caches_ok]. }
  pose proof (hd_cost _ _ _ (step_hack_done Uart.beginning word s1 r0 H1 Hpc)) as H2.
  assert (H3 : r_cycles (step_hack word (s1, r0)).1.2 <= 5 + Caches.XMEM_LINE_DIRTY).
  { unfold step_hack. cbv zeta. destruct (_ =? 0); [|apply hack_c_bound]. destruct (write_rd 1 _ _) as [s2 r2]. vm_compute. congruence. }
  destruct (step_hack word (s1, r0)) as [[s2 r2] rd2]. cbn [fst snd r_cycles r_set_cycles] in *. lia.
Qed.

(** C27: no instruction takes fewer than 2 cycles, as the trace's reader asserts, or more than
    the 204 that the comparison's margin allows for, with its fetch, its accesses and the
    caches' write-backs. *)
Theorem longest_instruction l s :
  soc_ok l s -> 2 <= r_cycles (r_base (soc_step s).2) <= LONGEST - 7.
Proof.
  intros [H1 H2 H3 H4]. unfold soc_step. assert (Hc : 2 <= r_cycles (if riscv_mode s then (step (core s), None) else hack_step (core s)).1.2 <= 5 + Caches.XMEM_LINE_DIRTY + Caches.XMEM_FETCH_PROBE).
  { destruct (riscv_mode s) eqn:Em; [|apply hack_cost; [done|apply H2]]. cbn [fst snd]. by apply (rv_cost l). }
  destruct (if riscv_mode s then (step (core s), None) else hack_step (core s)) as [[c r] rd2]. cbn [fst snd] in Hc.
  destruct (Gpio.take_soft_reset _) as [sr g]. cbn [snd r_base]. change (LONGEST - 7) with (5 + Caches.XMEM_LINE_DIRTY + Caches.XMEM_FETCH_PROBE). exact Hc.
Qed.

Lemma longest_instruction_witness : soc_ok Uart.beginning sum_loaded /\ 2 <= r_cycles (r_base (soc_step sum_loaded).2) <= LONGEST - 7.
Proof.
  assert (H : soc_ok Uart.beginning sum_loaded) by (apply (load_hack_ok Uart.beginning sum_hack soc_new sum_loaded soc_new_ok sum_loads)).
  split; [exact H|]. apply (longest_instruction Uart.beginning sum_loaded H).
Defined.
