(* ===== verification/Mutation.v ===== *)
(** * Mutation testing's report

    scripts/mcy/mutation.py: how a mutant is described, the survivors that are accepted with a
    reason, and the summary that tells them from the open ones. What mcy, Yosys and the tests do
    is theirs; and some of the reasons are claims about counters, which are checked here. *)
From stdpp Require Import sorting.
From S2P Require Import Prelude Image Text PyFloat Str.
#[local] Open Scope Z_scope.

(** ** A mutant's description *)

(** [re]'s \S, and a name's text up to white space. *)
Definition nonspace (c : Z) : bool := negb (is_pyspace c).

(** "-(k1|k2|...) (\S+)": the first key that fits. *)
Fixpoint match_key (keys : list text) (t : text) : option (text * text) :=
  match keys with
  | [] => None
  | k :: keys =>
      if startswith (k ++ [32]) t then
        match span nonspace (drop (length k + 1) t) with
        | ([], _) => match_key keys t
        | (v, _) => Some (k, v)
        end
      else match_key keys t
  end.
Definition match_option (keys : list text) (t : text) : option ((text * text) * text) :=
  match t with
  | c :: t =>
      if c =? 45 then '(k, v) ← match_key keys t; Some ((k, v), drop (length k + 1 + length v) t) else None
  | [] => None
  end.

Definition OPTIONS : list text := map txt ["mode"; "port"; "portbit"; "ctrlbit"; "wire"; "wirebit"]%string.

(** [Path(src).name]: the last part that isn't empty or a dot. *)
Definition path_name (t : text) : text := default [] (last (filter (fun p => p <> [] /\ p <> [46]) (split_char 47 t))).

(** [re.sub(r"[:$]\d+", "", cell)]: the fuel is the text's length. *)
Definition is_digit (c : Z) : bool := (48 <=? c) && (c <=? 57).
Fixpoint sub_numbers (fuel : nat) (t : text) : text :=
  match fuel with
  | O => t
  | S fuel =>
      match t with
      | [] => []
      | c :: k =>
          match (if (c =? 58) || (c =? 36) then fst (span is_digit k) else []) with
          | [] => c :: sub_numbers fuel k
          | _ => sub_numbers fuel (snd (span is_digit k))
          end
      end
  end.
Definition without_numbers (t : text) : text := sub_numbers (length t) t.

(** What [describe] makes of the options found. *)
Definition description (opts : list (text * text)) (srcs : list text) : text :=
  let get k := dict_get (txt k) opts in
  let or_q o := default (txt "?") o in
  let bit_of name b := name ++ txt "[" ++ or_q b ++ txt "]" in
  let what := [or_q (get "mode"%string)]
    ++ (match get "port"%string with Some p => [bit_of p (get "portbit"%string)] | None => [] end)
    ++ (match get "ctrlbit"%string with Some c => [txt "ctrl " ++ c] | None => [] end)
    ++ (match get "wire"%string with Some w => [bit_of w (get "wirebit"%string)] | None => [] end) in
  join (txt " ") what ++ txt " @ " ++ join (txt " ") srcs.
Definition describe (mutation : text) : text :=
  let opts := findall (match_option OPTIONS) mutation in
  let srcs := merge_sort text_le (map (fun kv => path_name (snd kv)) (findall (match_option [txt "src"]) mutation)) in
  let srcs := match srcs with [] => map (fun kv => without_numbers (snd kv)) (findall (match_option [txt "cell"]) mutation) | _ => srcs end in
  description opts srcs.

(** ** The accepted survivors *)

Definition TARGETS : list string :=
  ["rv32i_alu"; "rv32i_decode"; "next_pc_unit"; "rv32i_lsu"; "rv32i_trap_unit"; "rv32i_csrs"; "rv32m_muldiv"; "rv32a_unit"; "soc_addr_decoder";
   "timer_core"; "sdcard_spi"; "uart_rx"; "uart_regs"; "fifo_sync"; "soc_icache"; "soc_dcache"; "unified_cpu"]%string.
Definition NO_EQUIV : list (string * string) := [
  ("soc_icache", "memory_map makes its word RAM (4096x32) and tags (512x10) ~136k flip-flops a side (at 1024x42, 45k: one check took hours and 1.4 GB)");
  ("soc_dcache", "memory_map makes its word RAM (512x36) and tags (64x14) ~19k flip-flops a side, as soc_icache's")]%string.

(** [{module: {description: reason}}]. *)
Definition ACCEPTED : list (string * list (string * string)) := [
  ("uart_rx", [
    ("inv Q[4] reg_clkcnt[4] @ uart_rx.sv:27.29-27.39 uart_rx.sv:58.5-70.8",
      "equivalent: the half-bit wait still takes 217 clocks (counted out); dprove times out");
    ("inv Q[3] reg_clkcnt[3] @ uart_rx.sv:27.29-27.39 uart_rx.sv:58.5-70.8",
      "equivalent: the half-bit wait still takes 217 clocks (counted out); dprove times out");
    ("cnot1 Y[7] ctrl 2 next_clkcnt[7] @ uart_rx.sv:28.29-28.40 uart_rx.sv:81.9-120.16 uart_rx.sv:89.16-89.16",
      "equivalent: the half-bit wait still takes 217 clocks (counted out); dprove times out");
    ("cnot0 B[3] ctrl 1 @ uart_rx.sv:108.21-114.24 uart_rx.sv:108.25-108.58",
      ("equivalent: changes the bit count (8 -> 0) only on the stop bit, as the receiver leaves RECEIVING; it is set to 0 before it is read again; dprove" ++
       " times out"));
    ("const1 A[0] @ uart_rx.sv:91.17-103.20 uart_rx.sv:91.21-91.37",
      ("clears the bit timer all through the start-bit wait instead of at its end: only the timer's phase while idle changes, i.e. when the shift register" ++
       " shifts between frames; data differs only without rdy, never in a received byte"));
    ("inv Q[0] data[0] @ shift_registers.sv:19.5-31.8 uart_rx.sv:13.34-13.38",
      ("data[0] toggles while the shift register holds; CNT (434 here, 156 in the SoC) is even, so it is back to the right value on every rdy; data differs" ++
       " only without rdy"))]);
  ("rv32i_trap_unit", [
    ("const0 A[2] @ rv32i_trap_unit.sv:35.55-35.77",
      ("equivalent: is_ebreak also matches 0x0010_0077, whose opcode 0x77 is illegal (the opcode case's default), and illegal wins over EBREAK; the" ++
       " comparison's other uses are under SYSTEM, where bit 2 is 0. Combinational, but not proven by the equiv pass"))]);
  ("rv32m_muldiv", [
    ("cnot0 Q[4] ctrl 3 count[4] @ rv32m_muldiv.sv:36.20-36.25 rv32m_muldiv.sv:82.5-133.8",
      "equivalent: still 32 steps, count reads 0 only on the last; dprove times out")]);
  ("unified_cpu", [
    ("const0 B[1] @ unified_cpu.sv:642.30-696.24 unified_cpu.sv:642.34-642.60",
      ("clears bit 1 of r_load_byte_sel as EXECUTE goes to MULDIV_WAIT. It is read only through the LSU's load_val, which only a load's MEM_WAIT writes back," ++
       " and every load (LR and the AMOs too) sets it in its EXECUTE first. Equivalent from reset, beyond dprove's reach on the whole CPU"));
    ("cnot1 A[27] ctrl 1 @ rv32i_csrs.sv:132.18-195.12 rv32i_csrs.sv:132.22-132.30",
      ("flips bit 27 of mepc's next value when its bit 1 is set, which never happens: trap entry stores the PC of an RV32 instruction (4-byte aligned; traps" ++
       " never happen in Hack mode, where pc_reg can have bit 1 set) and CSR writes mask mepc with 0xFFFF_FFFC. Equivalent from reset, beyond dprove's reach" ++
       " on the whole CPU"))]);
  ("soc_icache", [
    ("const1 B[0] @ soc_icache.sv:152.13-152.20 soc_icache.sv:152.9-154.12",
      "no change: the word write's enable is `word_we ? 1 : 0`, its B input 1 already");
    ("const0 A[7] @ soc_icache.sv:145.13-145.19 soc_icache.sv:145.9-147.12",
      "changes the tag write's address or data when tag_we is 0, i.e. when nothing is written");
    ("const1 B[0] @ soc_icache.sv:169.30-169.46",
      "no change: bit 0 of the constant 1 is 1 already");
    ("const1 RD_EN[0] @ soc_icache.sv:93.20-93.25",
      "no change: the word RAM reads every cycle");
    ("cnot1 Q[5] ctrl 2 sweep_idx[5] @ soc_icache.sv:101.20-101.29 soc_icache.sv:158.5-188.8",
      ("the sweep visits the lines in another order (index bit 5 read flipped with bit 2) and still clears every line once in 512 cycles, 511 last" ++
       " (enumerated). The hold path toggles only while the register holds before swept with clear low: soc_top raises clear (!raw_rst) with rst_n, and the" ++
       " bench holds only at index 0, where bit 2 is 0"))]);
  ("soc_dcache", [
    ("const1 WR_EN[3] @ soc_dcache.sv:126.20-126.24",
      ("bit 3 of a tag is written every cycle at tag_waddr's default, tags[line_r] with tag_r[3]. Line_r's tag already has that value in IDLE (its last" ++
       " transfer's tag). Outside IDLE no lookup or fetch reads it, and the fill's end writes the whole tag"));
    ("const0 A[0] @ soc_dcache.sv:213.18-216.12 soc_dcache.sv:213.22-213.59",
      "no change: tag_we's value when no branch writes it is 0 already");
    ("const1 A[0] @ soc_dcache.sv:253.25-253.30",
      ("the !idle of stale_q. The first IDLE cycle after a data access's fill is stale anyway: the fill's last cycle writes the tag of the line rd_idx is" ++
       " held at. After the probe's write-back the CPU is fetching, so nothing looks up"));
    ("const1 S[1] @ soc_dcache.sv:255.13-290.20 soc_dcache.sv:273.20-273.20",
      "tag_r's case takes its IDLE branch in FILL too (WB's select has priority): miss and probe_wb need IDLE, so that branch keeps tag_r, as FILL does");
    ("cnot1 A[6] ctrl 2 @ soc_dcache.sv:253.83-253.103",
      ("the word half of stale_q. A real collision is caught anyway: a store hit also writes the tag of the line rd_idx reads, and FILL is outside IDLE. A" ++
       " false one needs a store hit while rd_idx is at another line and a lookup the next cycle; the CPU holds rd_idx at the access's word and fetches after" ++
       " a store"));
    ("cnot1 B[3] ctrl 2 @ soc_dcache.sv:246.13-251.16 soc_dcache.sv:246.17-246.32",
      ("the sweep counts in another order (bit 3 of the next index flipped with its bit 2): every line once in 64 cycles and 63 last (enumerated), so swept" ++
       " rises at the same cycle"));
    ("const0 A[0] @ soc_dcache.sv:248.17-250.20 soc_dcache.sv:248.21-248.39",
      "no change: this branch runs only while swept is 0, so the swept it keeps below index 63 is 0 already");
    ("cnot1 A[5] ctrl 4 @ soc_dcache.sv:246.13-251.16 soc_dcache.sv:246.17-246.32",
      ("changes sweep_idx only where it holds: after swept, when nothing reads it, or before swept with clear low: soc_top raises clear (!raw_rst) with" ++
       " rst_n, and the bench holds only at index 0, where bit 4 is 0"));
    ("const1 A[3] @ soc_dcache.sv:253.83-253.103",
      ("the word half of stale_q. A real collision is caught anyway: a store hit also writes the tag of the line rd_idx reads, and FILL is outside IDLE. A" ++
       " false one needs a store hit while rd_idx is at another line and a lookup the next cycle; the CPU holds rd_idx at the access's word and fetches after" ++
       " a store"));
    ("const1 B[0] @ soc_dcache.sv:149.40-149.60",
      ("the idle of lookup. Only the first cycle outside IDLE has stale_q low. After a miss rd_idx is held, so the tag read again still mismatches and the" ++
       " FSM uses miss only in IDLE; after the probe's start no data access is in the window (the CPU is fetching)"));
    ("cnot1 Y[5] ctrl 1 @ soc_dcache.sv:247.30-247.46",
      ("the sweep counts in another order (0, 1, 34, 3, 4, 5, 38, 7, ...): every line once in 64 cycles and 63 last (enumerated), so swept rises at the same" ++
       " cycle"));
    ("const0 A[2] @ soc_dcache.sv:267.30-272.24 soc_dcache.sv:267.34-267.42",
      "the value line_r or tag_r keeps in IDLE. Both are loaded on leaving IDLE and read only outside it: the RAM writes they address are enabled there");
    ("const1 B[4] @ soc_dcache.sv:253.83-253.103",
      "the word half of stale_q again, one address bit: as the entry above for the same comparison");
    ("cnot1 A[1] ctrl 0 @ soc_dcache.sv:255.13-290.20 soc_dcache.sv:255.25-255.25",
      "state's compare with IDLE, bit 1 flipped by bit 0: the states 0, 1, 2 read as 0, 3, 2, so only IDLE still matches");
    ("inv A[0] @ soc_dcache.sv:220.13-220.19 soc_dcache.sv:220.9-222.12",
      ("bit 0 of a tag is written every cycle at tag_waddr's default, tags[line_r] with tag_r[0]. Line_r's tag already has that value in IDLE (its last" ++
       " transfer's tag). Outside IDLE no lookup or fetch reads it, and the fill's end writes the whole tag"))]);
  ("fifo_sync", [
    ("const1 A[1] @ $auto$proc_dff.cc:proc_dff",
      ("sets bit 1 of a memory word while rst is asserted. The memory has no reset: a word is read as the head only after it has been written, so only rdata" ++
       " of an empty FIFO differs, which nothing uses (uart_controller pops on re && !empty)"))])]%string.

(** ** The summary *)

Definition accepted_of (module : text) : list (text * text) :=
  match List.find (fun e => bool_decide (txt (fst e) = module)) ACCEPTED with
  | Some (_, l) => map (fun kv => (txt (fst kv), txt (snd kv))) l
  | None => []
  end.

(** The survivors that are accepted and the open ones, with their descriptions; the accepted
    entries that no survivor matched. *)
Definition described (survivors : list (Z * text)) : list (Z * text * text) := map (fun im => (fst im, describe (snd im), snd im)) survivors.
Definition is_accepted (accepted : list (text * text)) (d : text) : bool := bool_decide (d ∈ map fst accepted).
Definition explained (module : text) (survivors : list (Z * text)) : list (Z * text * text) :=
  List.filter (fun x => is_accepted (accepted_of module) (snd (fst x))) (described survivors).
Definition open_ (module : text) (survivors : list (Z * text)) : list (Z * text * text) :=
  List.filter (fun x => negb (is_accepted (accepted_of module) (snd (fst x)))) (described survivors).
Definition stale (module : text) (survivors : list (Z * text)) : list text :=
  let seen := map (fun x => snd (fst x)) (explained module survivors) in
  List.filter (fun d => negb (bool_decide (d ∈ seen))) (map fst (accepted_of module)).

(** [summarize]: the lines of summary.md. *)
Definition summarize (module : text) (tags : list (text * Z)) (survivors : list (Z * text)) : list text :=
  let tag t := default 0 (dict_get (txt t) tags) in
  let detected := tag "DETECTED"%string in
  let survived := tag "SURVIVED"%string in
  let equivalent := tag "EQUIVALENT"%string in
  let accepted := accepted_of module in
  let n := detected + survived in
  let op := open_ module survivors in
  let ex := explained module survivors in
  [txt "# Mutation testing: " ++ module; [];
   txt "Detected " ++ dec detected ++ txt " of " ++ dec n ++ txt " non-equivalent mutants (" ++ fixed_text false 1 (of_ratio (100 * detected) (Z.max n 1)) ++ txt "%); "
     ++ dec equivalent ++ txt " equivalent (left out). Survivors: " ++ dec (len op) ++ txt " open, " ++ dec (len ex) ++ txt " accepted."; []]
  ++ (match List.find (fun e => bool_decide (txt (fst e) = module)) NO_EQUIV with
      | Some (_, why) => [txt "No equivalence check (" ++ txt why ++ txt "): a survivor may be an equivalent mutant."; []]
      | None => [] end)
  ++ (match op with
      | [] => []
      | _ => [txt "## Open survivors (add a test, or an ACCEPTED entry with the reason)"; []; txt "| id | mutant | mutation |"; txt "|---|---|---|"]
          ++ map (fun '(i, d, mut) => txt "| " ++ dec i ++ txt " | " ++ d ++ txt " | `" ++ mut ++ txt "` |") op ++ [[]]
      end)
  ++ (match ex with
      | [] => []
      | _ => [txt "## Accepted survivors (scripts/mcy/mutation.py's ACCEPTED)"; []; txt "| id | mutant | why it is harmless |"; txt "|---|---|---|"]
          ++ map (fun '(i, d, _) => txt "| " ++ dec i ++ txt " | " ++ d ++ txt " | " ++ default [] (dict_get d accepted) ++ txt " |") ex ++ [[]]
      end)
  ++ (match stale module survivors with [] => [] | st => [txt "ACCEPTED entries no survivor matched: " ++ join (txt "; ") st; []] end).

(** ** Descriptions of options *)

(** A mutation as mcy writes it: options and their values. *)
Definition render (opts : list (text * text)) : text := txt "mutate" ++ concat (map (fun nv => txt " -" ++ fst nv ++ [32] ++ snd nv) opts).

Definition KEYS : list text := OPTIONS ++ [txt "src"; txt "cell"].
(** Names and values are words; a name holds no dash, a value doesn't end like an option. *)
Record option_ok (nv : text * text) : Prop := {
  ok_name : fst nv <> [] /\ forallb nonspace (fst nv) = true /\ 45 ∉ fst nv;
  ok_value : snd nv <> [] /\ forallb nonspace (snd nv) = true;
  ok_end : forall s k, k ∈ KEYS -> snd nv <> s ++ 45 :: k
}.

Lemma key_word k : k ∈ KEYS -> forallb nonspace k = true.
Proof. intros H. unfold KEYS, OPTIONS in H. apply list_elem_of_In in H. cbn [map app In] in H. repeat destruct H as [<-|H]; try reflexivity; done. Qed.

(** Two words before a space. *)
Lemma word_eq (p q : text) r r' : forallb nonspace p = true -> forallb nonspace q = true -> p ++ 32 :: r = q ++ 32 :: r' -> p = q /\ r = r'.
Proof.
  revert q. induction p as [|c p IH]; intros [|d q] Hp Hq E; cbn [app forallb] in *; try (apply andb_true_iff in Hp as [? Hp]); try (apply andb_true_iff in Hq as [? Hq]).
  - injection E as ->. done.
  - injection E as <- _. done.
  - injection E as -> _. done.
  - injection E as -> E. destruct (IH q Hp Hq E) as [-> ->]. done.
Qed.
Lemma key_starts (k n : text) r : forallb nonspace k = true -> forallb nonspace n = true -> startswith (k ++ [32]) (n ++ 32 :: r) = bool_decide (k = n).
Proof.
  intros Hk Hn. apply eq_true_iff_eq. rewrite startswith_iff, bool_decide_eq_true. split.
  - intros [r' E]. rewrite <- app_assoc in E. cbn [app] in E. by destruct (word_eq n k r r' Hn Hk E) as [-> _].
  - intros ->. exists r. by rewrite <- app_assoc.
Qed.

(** The text after a value: nothing, or a space. *)
Definition spaced (rest : text) : Prop := match rest with [] => True | c :: _ => c = 32 end.
Lemma match_key_found keys n v rest : Forall (fun k => k ∈ KEYS) keys -> forallb nonspace n = true -> v <> [] -> forallb nonspace v = true -> spaced rest ->
  match_key keys (n ++ 32 :: v ++ rest) = if bool_decide (n ∈ keys) then Some (n, v) else None.
Proof.
  intros Hk Hn Hv0 Hv Hr. induction Hk as [|k keys Hin Hk IH]; [done|]. cbn [match_key]. rewrite (key_starts k n _ (key_word k Hin) Hn).
  assert (Hs : span nonspace (v ++ rest) = (v, rest)) by (apply span_all; [done|]; destruct rest as [|c rest]; [done|]; by rewrite Hr).
  destruct (decide (k = n)) as [->|Hne].
  - rewrite (bool_decide_true (n = n)), (bool_decide_true (n ∈ n :: keys)) by (done || by left). cbv iota.
    replace (drop (length n + 1) (n ++ 32 :: v ++ rest)) with (v ++ rest).
    2: { rewrite drop_app. replace (length n + 1 - length n)%nat with 1%nat by lia. by rewrite drop_ge by lia. }
    rewrite Hs. by destruct v.
  - rewrite (bool_decide_false (k = n)) by done. cbv iota. rewrite IH.
    replace (bool_decide (n ∈ k :: keys)) with (bool_decide (n ∈ keys)); [done|]. apply bool_decide_ext. rewrite elem_of_cons. split; [by right|]. intros [->|]; done.
Qed.
Lemma match_takes keys t x rest : match_option keys t = Some (x, rest) -> (length rest < length t)%nat.
Proof.
  unfold match_option. destruct t as [|c t]; [done|]. intros H. destruct (c =? 45); [|done].
  destruct (match_key keys t) as [[k v]|]; [|done]. cbn in H. apply (inj Some) in H. injection H as _ <-. cbn [length]. rewrite length_drop. lia.
Qed.
(** Inside a word that doesn't end like an option, no match begins. *)
Lemma no_match_inside keys c (w rest : text) : Forall (fun k => k ∈ KEYS) keys -> forallb nonspace w = true -> spaced rest ->
  (c = 45 -> w ∉ KEYS) -> match_option keys (c :: w ++ rest) = None.
Proof.
  intros Hk Hw Hr Hc. unfold match_option. destruct (Z.eqb_spec c 45) as [->|]; [|done]. specialize (Hc eq_refl).
  enough (match_key keys (w ++ rest) = None) as ->; [done|]. induction Hk as [|k keys Hin Hk IH]; [done|]. cbn [match_key].
  destruct (startswith _ _) eqn:E; [|done]. exfalso. apply startswith_iff in E as [r E]. rewrite <- app_assoc in E. cbn [app] in E.
  destruct rest as [|d rest].
  - rewrite app_nil_r in E. subst w. rewrite forallb_app in Hw. cbn [forallb] in Hw. apply andb_true_iff in Hw as [_ Hw]. done.
  - cbn in Hr. subst d. destruct (word_eq w k rest r Hw (key_word k Hin) E) as [-> _]. done.
Qed.

Lemma findall_options keys opts : Forall (fun k => k ∈ KEYS) keys -> Forall option_ok opts ->
  findall (match_option keys) (render opts) = filter (fun nv => fst nv ∈ keys) opts.
Proof.
  intros Hk Ho. unfold render. rewrite findall_over.
  2: { intros s c k E. assert (Hc : c <> 45).
       { intros ->. assert (Hin : 45 ∈ txt "mutate") by (rewrite E; apply elem_of_app; right; by left). revert Hin. by apply (bool_decide_eq_false_1 _). }
       unfold match_option. by rewrite (proj2 (Z.eqb_neq c 45)). }
  induction Ho as [|[n v] opts [(Hn0 & Hn & Hdash) (Hv0 & Hv) Hend] Ho IH]; [by apply findall_nil|]. cbn [map concat fst snd] in *.
  set (rest := concat _) in *. assert (Hr : spaced rest) by (unfold rest; destruct opts as [|[]]; done).
  change (txt " -" ++ n ++ [32] ++ v) with (32 :: 45 :: n ++ [32] ++ v). cbn [app]. rewrite findall_skip by done. rewrite <- !app_assoc. cbn [app].
  assert (Hover : forall w, forallb nonspace w = true -> (forall s k, k ∈ KEYS -> w <> s ++ 45 :: k) -> forall rest, spaced rest ->
    findall (match_option keys) (w ++ rest) = findall (match_option keys) rest).
  { intros w Hw Hwend rest' Hr'. apply findall_over. intros s c k ->. apply no_match_inside; [done| |done|].
    - rewrite forallb_app in Hw. cbn [forallb] in Hw. by apply andb_true_iff in Hw as [_ [_ Hw]%andb_true_iff].
    - intros -> Hin. by apply (Hwend s k). }
  assert (Hnend : forall s k, k ∈ KEYS -> n <> s ++ 45 :: k) by (intros s k _ ->; apply Hdash; set_solver).
  rewrite filter_cons. cbn [fst]. destruct (decide (n ∈ keys)) as [Hin|Hin].
  - assert (Hm : match_option keys (45 :: n ++ 32 :: v ++ rest) = Some ((n, v), rest)).
    { unfold match_option. rewrite Z.eqb_refl, (match_key_found keys n v rest) by done. rewrite bool_decide_true by done. cbn [mbind option_bind]. do 2 f_equal.
      replace (n ++ 32 :: v ++ rest) with ((n ++ 32 :: v) ++ rest) by (by rewrite <- app_assoc). rewrite drop_app_ge by (rewrite length_app; cbn; lia).
      rewrite length_app. cbn [length]. replace (length n + 1 + length v - (length n + S (length v)))%nat with 0%nat by lia. done. }
    rewrite (findall_take _ (match_takes keys) _ _ _ Hm). by rewrite IH.
  - assert (Hm : match_option keys (45 :: n ++ 32 :: v ++ rest) = None).
    { unfold match_option. rewrite Z.eqb_refl, (match_key_found keys n v rest) by done. by rewrite bool_decide_false. }
    rewrite findall_skip by done. rewrite Hover by done. rewrite findall_skip by done. by rewrite Hover.
Qed.

Lemma known_keys : Forall (fun k => k ∈ KEYS) OPTIONS /\ Forall (fun k => k ∈ KEYS) [txt "src"] /\ Forall (fun k => k ∈ KEYS) [txt "cell"].
Proof. split_and!; eapply bool_decide_eq_true_1; vm_compute; reflexivity. Qed.

(** What [describe] reads of a mutation: the options it knows, the names of the sources sorted,
    or without a source the cells without their numbers. *)
Lemma describe_render opts : Forall option_ok opts ->
  describe (render opts) =
    description (filter (fun nv => fst nv ∈ OPTIONS) opts)
      (match merge_sort text_le (map (fun nv => path_name (snd nv)) (filter (fun nv => fst nv ∈ [txt "src"]) opts)) with
       | [] => map (fun nv => without_numbers (snd nv)) (filter (fun nv => fst nv ∈ [txt "cell"]) opts)
       | srcs => srcs
       end).
Proof. intros Ho. destruct known_keys as (K1 & K2 & K3). unfold describe. rewrite (findall_options _ _ K1 Ho), (findall_options _ _ K2 Ho), (findall_options _ _ K3 Ho). cbv zeta. by destruct (merge_sort _ _). Qed.

(** ** Counters that the reasons speak of *)

(** uart_rx's half-bit wait: the clocks from [CNT / 2] in the register to a read of 0; [readc]
    is a read of the 10-bit register, [nextc] its next value on the way. *)
Fixpoint half_bit_wait (fuel : nat) (readc nextc : Z -> Z) (r : Z) : option Z :=
  match fuel with
  | O => None
  | S fuel => if readc r =? 0 then Some 0 else n ← half_bit_wait fuel readc nextc (nextc ((readc r - 1) mod 2 ^ 10)); Some (n + 1)
  end.
Definition CNT : Z := 434.
Definition SOC_CNT : Z := 156.

(** The caches' sweep over [2 ^ w] lines: those cleared, in order, until [swept]. *)
Fixpoint sweep (fuel : nat) (w : Z) (readc nextc : Z -> Z) (r : Z) : option (list Z) :=
  match fuel with
  | O => None
  | S fuel => if readc r =? 2 ^ w - 1 then Some [readc r] else l ← sweep fuel w readc nextc (nextc ((readc r + 1) mod 2 ^ w)); Some (readc r :: l)
  end.

(** A bit read or driven inverted ("inv"), and while another bit is 1 ("cnot1"). *)
Definition as_is (c : Z) : Z := c.
Definition inv_bit (i c : Z) : Z := Z.lxor c (2 ^ i).
Definition cnot1 (i k c : Z) : Z := if Z.testbit c k then Z.lxor c (2 ^ i) else c.

(** A mutation as mcy writes it, and the same one of another run, whose cells are numbered anew. *)
Definition mutation_of (cell : string) : list (text * text) :=
  map (fun kv => (txt (fst kv), txt (snd kv)))
    [("mode", "inv"); ("module", "uart_rx"); ("cell", cell); ("port", "Q"); ("portbit", "4"); ("ctrlbit", "2"); ("wire", "reg_clkcnt"); ("wirebit", "4");
     ("src", "build/uart_rx.sv:27.29-27.39"); ("src", "build/uart_rx.sv:58.5-70.8")]%string.
(** No text with a key at its end after a dash: its words of the keys' lengths. *)
Definition ends_like (v : text) : bool :=
  existsb (fun k => let n := (length v - (length k + 1))%nat in bool_decide (drop n v = 45 :: k) && (length k <? length v)%nat) KEYS.
Lemma ends_like_ok v : ends_like v = false -> forall s k, k ∈ KEYS -> v <> s ++ 45 :: k.
Proof.
  intros H s k Hk ->. enough (ends_like (s ++ 45 :: k) = true) by congruence. unfold ends_like. apply existsb_exists. exists k. split; [by apply list_elem_of_In|].
  rewrite length_app. cbn [length]. replace (length s + S (length k) - (length k + 1))%nat with (length s) by lia. rewrite drop_app_length.
  rewrite bool_decide_true by done. apply Nat.ltb_lt. lia.
Qed.
Definition option_okb (nv : text * text) : bool :=
  bool_decide (fst nv <> []) && forallb nonspace (fst nv) && bool_decide (45 ∉ fst nv) && bool_decide (snd nv <> []) && forallb nonspace (snd nv) && negb (ends_like (snd nv)).
Lemma option_okb_ok opts : forallb option_okb opts = true -> Forall option_ok opts.
Proof.
  intros H. apply Forall_forall. intros nv Hin. apply list_elem_of_In in Hin. rewrite forallb_forall in H. specialize (H nv Hin). unfold option_okb in H.
  rewrite !andb_true_iff, !bool_decide_eq_true, negb_true_iff in H. destruct H as [[[[[H1 H2] H3] H4] H5] H6]. split; [done|done|by apply ends_like_ok].
Qed.

(** ** Properties *)

(** A description is of what a mutation does and where: two mutations written with the same
    known options and sources, and any others (the cell, the module), have the same one. *)
Theorem describe_stable opts opts' :
  Forall option_ok opts -> Forall option_ok opts' ->
  filter (fun nv => fst nv ∈ txt "src" :: OPTIONS) opts = filter (fun nv => fst nv ∈ txt "src" :: OPTIONS) opts' ->
  (exists v, (txt "src", v) ∈ opts) ->
  describe (render opts) = describe (render opts').
Proof.
  intros Ho Ho' E (v & Hv). rewrite !describe_render by done.
  assert (Hsub : forall keys, Forall (fun k => k ∈ txt "src" :: OPTIONS) keys -> filter (fun nv => fst nv ∈ keys) opts = filter (fun nv => fst nv ∈ keys) opts').
  { intros keys Hk. rewrite Forall_forall in Hk. assert (Hf : forall l : list (text * text), filter (fun nv => fst nv ∈ keys) l = filter (fun nv => fst nv ∈ keys) (filter (fun nv => fst nv ∈ txt "src" :: OPTIONS) l)).
    { intros l. rewrite list_filter_filter. apply list_filter_iff. intros nv. split; [intros H; split; [done|by apply Hk]|by intros []]. }
    rewrite Hf, E. by rewrite <- Hf. }
  assert (Hs : Forall (fun k => k ∈ txt "src" :: OPTIONS) [txt "src"]) by (constructor; [by left|constructor]).
  rewrite (Hsub OPTIONS), (Hsub [txt "src"]) by (done || (apply Forall_forall; intros k Hk; by right)).
  destruct (merge_sort text_le _) eqn:Em; [|done]. exfalso. apply (f_equal length) in Em. rewrite (Permutation_length (merge_sort_Permutation _ _)), length_map in Em.
  rewrite <- (Hsub [txt "src"]) in Em by done. apply length_zero_iff_nil in Em.
  assert (Hin : (txt "src", v) ∈ filter (fun nv => fst nv ∈ [txt "src"]) opts) by (apply list_elem_of_filter; split; [by left|done]). rewrite Em in Hin. by apply not_elem_of_nil in Hin.
Qed.

Lemma describe_stable_witness :
  describe (render (mutation_of "$auto$proc_dff.cc:12")) = describe (render (mutation_of "$auto$proc_dff.cc:8761")) /\
  describe (render (mutation_of "$x:1")) = txt "inv Q[4] ctrl 2 reg_clkcnt[4] @ uart_rx.sv:27.29-27.39 uart_rx.sv:58.5-70.8".
Proof.
  split; [|vm_compute; reflexivity].
  apply (describe_stable (mutation_of "$auto$proc_dff.cc:12") (mutation_of "$auto$proc_dff.cc:8761")).
  - apply option_okb_ok. vm_compute. reflexivity.
  - apply option_okb_ok. vm_compute. reflexivity.
  - vm_compute. reflexivity.
  - exists (txt "build/uart_rx.sv:58.5-70.8"). eapply bool_decide_eq_true_1. vm_compute. reflexivity.
Defined.

(** The options a description is of. *)
Fixpoint undescribe_words (first : bool) (ws : list text) : list (text * text) :=
  match ws with
  | [] => []
  | w :: ws =>
      match partition (txt "[") w, ws with
      | Some (n, b), _ =>
          [(txt (if first then "port" else "wire"), n); (txt (if first then "portbit" else "wirebit"), removelast b)] ++ undescribe_words false ws
      | None, c :: ws => (txt "ctrlbit", c) :: undescribe_words false ws
      | None, [] => []
      end
  end.
Definition undescribe (d : text) : list (text * text) :=
  match partition (txt " @ ") d with
  | Some (what, srcs) =>
      (txt "mode", hd [] (split_char 32 what)) :: undescribe_words true (tl (split_char 32 what))
      ++ map (fun s => (txt (if startswith (txt "$") s then "cell" else "src"), s)) (split_char 32 srcs)
  | None => []
  end.

Lemma accepted_found m l : (m, l) ∈ ACCEPTED -> m ∈ TARGETS /\ NoDup (map fst l) /\ accepted_of (txt m) = map (fun kv => (txt (fst kv), txt (snd kv))) l /\
  Forall (fun kv => describe (render (undescribe (txt (fst kv)))) = txt (fst kv) /\ dict_get (txt (fst kv)) (accepted_of (txt m)) = Some (txt (snd kv))) l.
Proof.
  enough (Hall : Forall (fun ml => fst ml ∈ TARGETS /\ NoDup (map fst (snd ml)) /\ accepted_of (txt (fst ml)) = map (fun kv => (txt (fst kv), txt (snd kv))) (snd ml) /\
    Forall (fun kv => describe (render (undescribe (txt (fst kv)))) = txt (fst kv) /\ dict_get (txt (fst kv)) (accepted_of (txt (fst ml))) = Some (txt (snd kv))) (snd ml)) ACCEPTED) by (intros H; by rewrite Forall_forall in Hall; apply (Hall _ H)).
  eapply bool_decide_eq_true_1. vm_compute. reflexivity.
Qed.

(** A survivor is in one of the two lists. *)
Lemma survivor_listed module i mut survivors : (i, mut) ∈ survivors ->
  if is_accepted (accepted_of module) (describe mut)
  then (i, describe mut, mut) ∈ explained module survivors /\ (i, describe mut, mut) ∉ open_ module survivors
  else (i, describe mut, mut) ∈ open_ module survivors /\ (i, describe mut, mut) ∉ explained module survivors.
Proof.
  intros Hi. assert (Hd : In (i, describe mut, mut) (described survivors)) by (apply list_elem_of_In; unfold described; apply list_elem_of_fmap; by exists (i, mut)).
  unfold explained, open_. destruct (is_accepted _ _) eqn:E; rewrite !list_elem_of_In, !filter_In; cbn [fst snd]; rewrite E; (split; [done|by intros []]).
Qed.
(** What [summarize] says of a survivor. *)
Definition survivor_line (module : text) (i : Z) (mut : text) : text :=
  txt "| " ++ dec i ++ txt " | " ++ describe mut ++ txt " | " ++
  (if is_accepted (accepted_of module) (describe mut) then default [] (dict_get (describe mut) (accepted_of module)) else txt "`" ++ mut ++ txt "`") ++ txt " |".
Lemma survivor_reported module tags i mut survivors : (i, mut) ∈ survivors -> survivor_line module i mut ∈ summarize module tags survivors.
Proof.
  intros Hi. apply (survivor_listed module) in Hi. unfold summarize, survivor_line. destruct (is_accepted _ _) eqn:E; destruct Hi as [Hi _].
  - do 3 (apply elem_of_app; right). apply elem_of_app; left. destruct (explained module survivors) eqn:El; [by apply not_elem_of_nil in Hi|].
    rewrite <- El in Hi |- *. apply elem_of_app; right. apply elem_of_app; left. apply list_elem_of_fmap. by exists (i, describe mut, mut).
  - do 2 (apply elem_of_app; right). apply elem_of_app; left. destruct (open_ module survivors) eqn:El; [by apply not_elem_of_nil in Hi|].
    rewrite <- El in Hi |- *. apply elem_of_app; right. apply elem_of_app; left. apply list_elem_of_fmap. exists (i, describe mut, mut). split; [|done]. by rewrite <- !app_assoc.
Qed.

(** The rows of one mutant in a report: the lines that start with its number's cell. *)
Definition row_start (i : Z) : text := txt "| " ++ dec i ++ [32].
Definition rows_of (i : Z) (report : list text) : list text := List.filter (startswith (row_start i)) report.
Lemma rows_app i l k : rows_of i (l ++ k) = rows_of i l ++ rows_of i k.
Proof. apply List.filter_app. Qed.
Lemma row_start_row i j rest : 0 <= i -> 0 <= j -> startswith (row_start i) (txt "| " ++ dec j ++ txt " | " ++ rest) = bool_decide (i = j).
Proof.
  intros Hi Hj. unfold row_start. change (txt " | " ++ rest) with (32 :: txt "| " ++ rest). change (startswith (txt "| " ++ ?p) (txt "| " ++ ?t)) with (startswith p t).
  assert (Hw : forall n, forallb nonspace (dec n) = true).
  { intros n. pose proof (dec_plain n) as H. rewrite forallb_forall in *. intros c Hc. unfold nonspace. by rewrite plain_nonspace by (by apply H). }
  rewrite key_starts by apply Hw. apply bool_decide_ext. split; [by apply dec_inj|by intros ->].
Qed.
Lemma no_row i l : 0 <= i -> startswith (txt "| ") l = false \/ (exists c t, l = txt "| " ++ c :: t /\ 57 < c) -> startswith (row_start i) l = false.
Proof.
  intros Hi [H|(c & t & -> & Hc)]; unfold row_start.
  - apply not_true_iff_false. rewrite startswith_iff. intros [r ->]. apply not_true_iff_false in H. apply H. rewrite startswith_iff, <- app_assoc. by eexists.
  - change (startswith (txt "| " ++ ?p) (txt "| " ++ ?t)) with (startswith p t). pose proof (dec_digits_only i) as Hd. pose proof (dec_some i) as Hn.
    destruct (dec i) as [|d r]; [done|]. apply Forall_cons in Hd as [Hd _]. cbn [app startswith]. rewrite (proj2 (Z.eqb_neq d c)) by lia. done.
Qed.
Lemma rows_none i l : Forall (fun x => startswith (row_start i) x = false) l -> rows_of i l = [].
Proof. induction 1 as [|x l Hx Hl IH]; [done|]. unfold rows_of in *. cbn [List.filter]. by rewrite Hx. Qed.
(** The rows of a table of survivors with different numbers. *)
Lemma rows_table i (cells : Z * text * text -> text) (l : list (Z * text * text)) : 0 <= i -> Forall (fun x => 0 <= fst (fst x)) l -> NoDup (map (fun x => fst (fst x)) l) ->
  let rows := rows_of i (map (fun x => txt "| " ++ dec (fst (fst x)) ++ txt " | " ++ cells x) l) in
  (i ∉ map (fun x => fst (fst x)) l -> rows = []) /\ forall x, x ∈ l -> fst (fst x) = i -> rows = [txt "| " ++ dec i ++ txt " | " ++ cells x].
Proof.
  intros Hi Hl Hd. induction Hl as [|y l Hy Hl IH]; cbv zeta; [split; [done|]; intros x Hx; by apply not_elem_of_nil in Hx|].
  cbn [map] in *. apply NoDup_cons in Hd as [Hn Hd]. destruct (IH Hd) as [I1 I2]. unfold rows_of in *. cbn [List.filter]. rewrite row_start_row by done. cbv zeta in I1, I2. split.
  - intros Hin. rewrite bool_decide_false by (intros ->; apply Hin; by left). apply I1. intros H. apply Hin. by right.
  - intros x Hx Hxi. apply elem_of_cons in Hx as [->|Hx].
    + rewrite bool_decide_true by done. rewrite I1; [by rewrite Hxi|by rewrite Hxi in Hn].
    + rewrite bool_decide_false; [by apply I2|]. intros E. apply Hn. rewrite <- E, <- Hxi. apply list_elem_of_fmap. by exists x.
Qed.
Lemma fst_unique {A} (l : list (Z * A)) i a b : NoDup (map fst l) -> (i, a) ∈ l -> (i, b) ∈ l -> a = b.
Proof.
  induction l as [|[k c] l IH]; intros Hd Ha Hb; [by apply not_elem_of_nil in Ha|]. cbn [map fst] in Hd. apply NoDup_cons in Hd as [Hn Hd].
  assert (Hin : forall x, (k, x) ∈ l -> k ∈ map fst l) by (intros x Hx; apply list_elem_of_fmap; by exists (k, x)).
  rewrite elem_of_cons in Ha. rewrite elem_of_cons in Hb. destruct Ha as [Ha|Ha], Hb as [Hb|Hb]; [congruence| | |by apply IH].
  - injection Ha as -> ->. by apply Hin in Hb.
  - injection Hb as -> ->. by apply Hin in Ha.
Qed.
(** A survivor's number is in one row of a report, the one that says what it is. *)
Lemma survivor_once module tags i mut survivors : Forall (fun im => 0 <= fst im) survivors -> NoDup (map fst survivors) -> (i, mut) ∈ survivors ->
  rows_of i (summarize module tags survivors) = [survivor_line module i mut].
Proof.
  intros Hpos Hnd Hin. assert (Hi : 0 <= i) by (rewrite Forall_forall in Hpos; apply (Hpos _ Hin)).
  assert (Hsub : forall p : Z * text * text -> bool, Forall (fun x => 0 <= fst (fst x)) (List.filter p (described survivors)) /\ NoDup (map (fun x => fst (fst x)) (List.filter p (described survivors)))).
  { intros p. split.
    - apply Forall_forall. intros x Hx. apply list_elem_of_In, filter_In in Hx as [Hx _]. apply list_elem_of_In, list_elem_of_fmap in Hx as (y & -> & Hy). exact (proj1 (Forall_forall _ _) Hpos y Hy).
    - assert (E : map fst survivors = map (fun x => fst (fst x)) (described survivors)) by (unfold described; by rewrite map_map). rewrite E in Hnd. clear -Hnd.
      induction (described survivors) as [|x l IH]; [done|]. cbn [map List.filter] in *. apply NoDup_cons in Hnd as [Hn Hnd]. destruct (p x); [|by apply IH]. cbn [map]. apply NoDup_cons. split; [|by apply IH].
      intros H. apply Hn. apply list_elem_of_fmap in H as (y & -> & Hy). apply list_elem_of_In, filter_In in Hy as [Hy _]. apply list_elem_of_fmap. exists y. split; [done|by apply list_elem_of_In]. }
  assert (Hone : forall p : Z * text * text -> bool, p (i, describe mut, mut) = false -> i ∉ map (fun x => fst (fst x)) (List.filter p (described survivors))).
  { intros p Hp H. apply list_elem_of_fmap in H as ([[i' d'] m'] & E & Hx). cbn in E. subst i'. apply list_elem_of_In, filter_In in Hx as [Hx Hp']. apply list_elem_of_In, list_elem_of_fmap in Hx as ([i' m2] & [= -> -> ->] & Hx).
    assert (m2 = mut) as -> by (by apply (fst_unique survivors i')). congruence. }
  unfold summarize. cbv zeta. rewrite !rows_app.
  assert (Hhead : forall x, startswith (txt "| ") x = false -> startswith (row_start i) x = false) by (intros x Hx; apply no_row; [done|by left]).
  rewrite (rows_none i [_; _; _; _]) by (repeat constructor; by apply Hhead).
  rewrite (rows_none i (match List.find _ NO_EQUIV with Some _ => _ | None => _ end)) by (destruct (List.find _ NO_EQUIV) as [[? ?]|]; repeat constructor; by apply Hhead).
  rewrite (rows_none i (match stale module survivors with [] => _ | _ => _ end)) by (destruct (stale module survivors); repeat constructor; by apply Hhead).
  set (open_cells := fun x : Z * text * text => snd (fst x) ++ txt " | `" ++ snd x ++ txt "` |").
  set (ex_cells := fun x : Z * text * text => snd (fst x) ++ txt " | " ++ default [] (dict_get (snd (fst x)) (accepted_of module)) ++ txt " |").
  assert (Htable : forall p cells (block : list (Z * text * text) -> list text) h, Forall (fun x => startswith (txt "| ") x = false \/ (exists c t, x = txt "| " ++ c :: t /\ 57 < c)) h ->
    (forall l, block l = match l with [] => [] | _ => h ++ map (fun x => txt "| " ++ dec (fst (fst x)) ++ txt " | " ++ cells x) l ++ [[]] end) ->
    rows_of i (block (List.filter p (described survivors))) = if p (i, describe mut, mut) then [txt "| " ++ dec i ++ txt " | " ++ cells (i, describe mut, mut)] else []).
  { intros p cells block h Hh Hb. destruct (Hsub p) as [S1 S2]. destruct (rows_table i cells _ Hi S1 S2) as [T1 T2]. cbv zeta in T1, T2.
    assert (E : rows_of i (block (List.filter p (described survivors))) = rows_of i (map (fun x => txt "| " ++ dec (fst (fst x)) ++ txt " | " ++ cells x) (List.filter p (described survivors)))).
    { rewrite Hb. destruct (List.filter p (described survivors)) as [|y l]; [done|]. rewrite !rows_app. rewrite (rows_none i h) by (eapply Forall_impl; [exact Hh|]; intros x Hx; by apply no_row).
      rewrite (rows_none i [[]]) by (repeat constructor; by apply Hhead). by rewrite app_nil_r. }
    rewrite E. destruct (p (i, describe mut, mut)) eqn:Ep; [|by apply T1, Hone]. apply T2; [|done]. apply list_elem_of_In, filter_In. split; [|done]. apply list_elem_of_In, list_elem_of_fmap. by exists (i, mut). }
  assert (Hheads : forall a b c, startswith (txt "| ") a = false -> 57 < c -> Forall (fun x => startswith (txt "| ") x = false \/ (exists c t, x = txt "| " ++ c :: t /\ 57 < c)) [a; []; txt "| " ++ c :: b; txt "|---|---|---|"]).
  { intros a b c Ha Hc. rewrite !Forall_cons, Forall_nil. split_and!; [by left|by left|right; by exists c, b|by left|done]. }
  pose proof (Htable (fun x => negb (is_accepted (accepted_of module) (snd (fst x)))) open_cells (fun l => match l with [] => [] | _ => [txt "## Open survivors (add a test, or an ACCEPTED entry with the reason)"; []; txt "| id | mutant | mutation |"; txt "|---|---|---|"]
      ++ map (fun '(i, d, mut) => txt "| " ++ dec i ++ txt " | " ++ d ++ txt " | `" ++ mut ++ txt "` |") l ++ [[]] end) _
    (Hheads (txt "## Open survivors (add a test, or an ACCEPTED entry with the reason)") (txt "d | mutant | mutation |") 105 eq_refl eq_refl)) as Hopen.
  pose proof (Htable (fun x => is_accepted (accepted_of module) (snd (fst x))) ex_cells (fun l => match l with [] => [] | _ => [txt "## Accepted survivors (scripts/mcy/mutation.py's ACCEPTED)"; []; txt "| id | mutant | why it is harmless |"; txt "|---|---|---|"]
      ++ map (fun '(i, d, _) => txt "| " ++ dec i ++ txt " | " ++ d ++ txt " | " ++ default [] (dict_get d (accepted_of module)) ++ txt " |") l ++ [[]] end) _
    (Hheads (txt "## Accepted survivors (scripts/mcy/mutation.py's ACCEPTED)") (txt "d | mutant | why it is harmless |") 105 eq_refl eq_refl)) as Hex.
  cbv beta in Hopen, Hex. fold (open_ module survivors) in Hopen. fold (explained module survivors) in Hex.
  cbn [app]. rewrite app_nil_r. etransitivity; [apply f_equal2; [apply Hopen|apply Hex]|].
  - intros [|y l]; [done|]. do 2 f_equal. apply map_ext. by intros [[? ?] ?].
  - intros [|y l]; [done|]. do 2 f_equal. apply map_ext. by intros [[? ?] ?].
  - cbn [fst snd]. unfold survivor_line, open_cells, ex_cells. cbn [fst snd]. destruct (is_accepted _ _); [done|]. cbn [negb]. rewrite app_nil_r. by rewrite <- !app_assoc.
Qed.

(** C39: every accepted entry is of a module that is tested, stands once, and can come true: some
    mutation has its description. Of survivors with different numbers, one with that
    description is in the report once: its number starts one row, the accepted survivors' row
    with the entry's reason. It isn't among the open ones, and the entry isn't reported as
    matched by none. *)
Theorem accepted_reached m l d r :
  (m, l) ∈ ACCEPTED -> (d, r) ∈ l ->
  m ∈ TARGETS /\ NoDup (map fst l) /\ (exists mut, describe mut = txt d) /\
  forall i mut tags survivors, describe mut = txt d -> (i, mut) ∈ survivors ->
    ((i, txt d, mut) ∈ explained (txt m) survivors) /\ ((i, txt d, mut) ∉ open_ (txt m) survivors) /\ (txt d ∉ stale (txt m) survivors) /\
    let row := txt "| " ++ dec i ++ txt " | " ++ txt d ++ txt " | " ++ txt r ++ txt " |" in
    row ∈ summarize (txt m) tags survivors /\
    (Forall (fun im => 0 <= fst im) survivors -> NoDup (map fst survivors) -> rows_of i (summarize (txt m) tags survivors) = [row]).
Proof.
  intros Hm Hd. destruct (accepted_found m l Hm) as (H1 & H2 & H3 & H4). rewrite Forall_forall in H4. destruct (H4 _ Hd) as [H5 H6]. cbn [fst snd] in *.
  split; [done|]. split; [done|]. split; [by eexists|]. intros i mut tags survivors Em Hi.
  assert (Hacc : is_accepted (accepted_of (txt m)) (describe mut) = true).
  { unfold is_accepted. apply bool_decide_eq_true. rewrite H3, map_map, Em. apply list_elem_of_fmap. by exists (d, r). }
  pose proof (survivor_listed (txt m) i mut survivors Hi) as Hl. pose proof (survivor_reported (txt m) tags i mut survivors Hi) as Hr.
  pose proof (survivor_once (txt m) tags i mut survivors) as Honce.
  unfold survivor_line in Hr, Honce. rewrite Hacc, Em in *. rewrite H6 in Hr, Honce. destruct Hl as [He Ho]. split; [exact He|]. split; [exact Ho|].
  split; [|split; [exact Hr|by intros Hp Hnd; apply Honce]].
  unfold stale. intros Hin. apply list_elem_of_In, filter_In in Hin as [_ Hin]. apply negb_true_iff, bool_decide_eq_false in Hin. apply Hin.
  apply list_elem_of_fmap. by exists (i, txt d, mut).
Qed.

Lemma accepted_reached_witness : let mut := render (undescribe (txt "const1 A[1] @ $auto$proc_dff.cc:proc_dff")) in
  exists l d r, ("fifo_sync"%string, l) ∈ ACCEPTED /\ (d, r) ∈ l /\ describe mut = txt d /\
  (7, txt d, mut) ∈ explained (txt "fifo_sync") [(3, mut); (7, mut)] /\
  rows_of 7 (summarize (txt "fifo_sync") [] [(3, mut); (7, mut)]) = [txt "| " ++ dec 7 ++ txt " | " ++ txt d ++ txt " | " ++ txt r ++ txt " |"].
Proof.
  set (l := match List.find (fun e => bool_decide (fst e = "fifo_sync"%string)) ACCEPTED with Some (_, l) => l | None => [] end).
  set (dr := hd ("", "")%string l). intros mut. exists l, (fst dr), (snd dr).
  assert (Hl : ("fifo_sync"%string, l) ∈ ACCEPTED) by (eapply bool_decide_eq_true_1; vm_compute; reflexivity).
  assert (Hd : (fst dr, snd dr) ∈ l) by (eapply bool_decide_eq_true_1; vm_compute; reflexivity).
  assert (Hm : describe mut = txt (fst dr)) by (vm_compute; reflexivity).
  destruct (accepted_reached "fifo_sync" l (fst dr) (snd dr) Hl Hd) as (_ & _ & _ & H).
  destruct (H 7 mut [] [(3, mut); (7, mut)] Hm) as (H1 & _ & _ & H2); [eapply bool_decide_eq_true_1; vm_compute; reflexivity|].
  split; [exact Hl|]. split; [exact Hd|]. split; [exact Hm|]. split; [exact H1|]. apply (proj2 H2).
  - rewrite !Forall_cons, Forall_nil. cbn [fst]. split_and!; done || lia.
  - eapply bool_decide_eq_true_1. vm_compute. reflexivity.
Defined.

(** What the reasons say of counters. Read or driven inverted, uart_rx's counter takes the
    default's 217 clocks for its half bit, and the caches' sweeps clear every line once, the
    last one last. But not at the 156 clocks a bit of the SoC's UART: there two of the three
    wait 94 and 70 clocks for 78. *)
Theorem accepted_counters :
  half_bit_wait 1024 as_is as_is (CNT / 2) = Some 217 /\
  Forall (fun rn => half_bit_wait 1024 (fst rn) (snd rn) (CNT / 2) = Some 217) [(inv_bit 4, as_is); (inv_bit 3, as_is); (as_is, cnot1 7 2)] /\
  map (fun rn => half_bit_wait 1024 (fst rn) (snd rn) (SOC_CNT / 2)) [(as_is, as_is); (inv_bit 4, as_is); (inv_bit 3, as_is); (as_is, cnot1 7 2)]
    = [Some 78; Some 94; Some 70; Some 78] /\
  Forall (fun wrn => exists l, sweep (Z.to_nat (2 ^ fst (fst wrn))) (fst (fst wrn)) (snd (fst wrn)) (snd wrn) 0 = Some l /\ l ≡ₚ seqZ 0 (2 ^ fst (fst wrn)) /\ last l = Some (2 ^ fst (fst wrn) - 1))
    [(9, as_is, as_is); (9, cnot1 5 2, as_is); (6, as_is, as_is); (6, as_is, cnot1 3 2); (6, as_is, cnot1 5 1)].
Proof.
  split; [vm_compute; reflexivity|]. split; [repeat constructor; vm_compute; reflexivity|]. split; [vm_compute; reflexivity|].
  assert (Hp : forall w readc nextc l, sweep (Z.to_nat (2 ^ w)) w readc nextc 0 = Some l -> bool_decide (merge_sort Z.le l = seqZ 0 (2 ^ w)) && bool_decide (last l = Some (2 ^ w - 1)) = true ->
    exists l, sweep (Z.to_nat (2 ^ w)) w readc nextc 0 = Some l /\ l ≡ₚ seqZ 0 (2 ^ w) /\ last l = Some (2 ^ w - 1)).
  { intros w readc nextc l E H. apply andb_true_iff in H as [H1%bool_decide_eq_true H2%bool_decide_eq_true]. exists l. split; [done|]. split; [|done].
    rewrite <- H1. symmetry. apply merge_sort_Permutation. }
  repeat (constructor; [eapply Hp; [vm_compute; reflexivity|vm_compute; reflexivity]|]). constructor.
Qed.
